(* ===== verification/_CoqProject ===== *)
-Q . S2P
Prelude.v
Dll.v
ZendHash.v
ZendHashInv.v
ZendHashSteps.v
ZendHashOps.v
ZendHashIter.v
ZendHashBulk.v
ZendHashOrder.v
ZendHashCursor.v
ZendHashNumeric.v
ZendHashRefine.v
ZendHashRekey.v
ZendHashClient.v
ZendQsort.v
ZendQsortSpec.v
ZendHashThms.v
ZendLlist.v
ZendLlistSpec.v
ZendLlistThms.v
ZendStack.v
ZendStackSpec.v
ZendStackThms.v
Calendar.v
CalendarExt.v
CalendarSpec.v
CalendarExtSpec.v
CalendarThms.v
CLib.v
ZendNumeric.v
ZendNumericSpec.v
ZendNumericInt.v
ZendNumericThms.v
JsonUtf8.v
JsonUtf8Spec.v
JsonParser.v
JsonAutomaton.v
JsonParserSpec.v
JsonGrammar.v
JsonLex.v
JsonParserRun.v
JsonSound.v
JsonComplete.v
JsonErrors.v
JsonRun.v
JsonThms.v
JsonDecode.v
JsonDecodeSpec.v
JsonDecodeThms.v
JsonEncode.v
JsonEncodeText.v
JsonEncodeHeap.v
JsonEncodeWalk.v
JsonEncodeValue.v
JsonEncodeThms.v
ZendList.v
ZendListSpec.v
ZendListThms.v
ZendObjectsApi.v
ZendObjectsApiSpec.v
ZendObjectsApiThms.v
ZendGc.v
ZendGcGraph.v
ZendGcWalk.v
ZendGcSpread.v
ZendGcMark.v
ZendGcScan.v
ZendGcCollect.v
ZendGcRoots.v
ZendGcBuffer.v
ZendGcPhases.v
ZendGcGather.v
ZendGcCycles.v
ZendGcSound.v
ZendGcPossible.v
SplHeap.v
SplHeapSpec.v
SplHeapRefs.v
SplHeapMethods.v
SplHeapThms.v
