(* ===== verification/Prelude.v ===== *)
(** * Verification library for the PHP 5.3 engine: root and prelude

    The program is the interpreter of PHP 5.3.29.  This library models the
    data structures its engine is built on, its cycle collector, two
    extensions, ext/calendar and ext/json, and the heaps of ext/spl, as
    executable definitions that follow the C text, and proves what they are
    meant to do.

    ** The parts and how they interact

    The engine (Zend/) keeps PHP arrays, symbol tables, constants, classes and
    resources in hash tables; declarations, open files and shutdown work in
    linked lists; the compiler's and executor's pending work in stacks;
    objects in the object store, which zvals name by handle.  Zvals and objects
    are counted; the cycle collector finds those that only keep each other.
    Hash tables and
    lists are sorted by zend_qsort.c.  ext/calendar converts between day
    numbers and the dates of four calendars.  ext/json reads a text into
    arrays and property tables, which are hash tables, and writes such values
    as texts.  ext/spl offers PHP code heaps and priority queues, whose
    comparison a PHP class may supply.

    ** The files

    - Prelude: this file.  Machine integers as [Z] with their wrap-around
      ([u32], [s64], ...), bytes, the state-and-fault monad [M], the heap
      ([gmap] from addresses) with its allocator class, shared lemmas and
      tactics.
    - Dll: doubly linked lists threaded through a heap ([seg]), for any pair
      of link fields: used by both structures of the hash table and by
      zend_llist.
    - ZendHash: Zend/zend_hash.c and zend_hash.h, operation by operation.
      The C struct [HashTable] is the record [HashTable], a [Bucket] a record
      in the heap [buckets], [arBuckets] a list of pointers; [hstate] puts
      table, heap and the callbacks' environment together.  ZendHashInv: the
      invariant [repr s l kvs] and its framing; ZendHashSteps: the linking and
      unlinking steps; ZendHashOps: look-up, insertion, deletion, growth;
      ZendHashIter: apply functions and destruction; ZendHashBulk: copy, merge
      and sort; ZendHashOrder: creation, emptying, reverse walks;
      ZendHashCursor: positions, extrema; ZendHashNumeric:
      [ZEND_HANDLE_NUMERIC]; ZendHashRefine: the ordered dictionary and the
      simulation; ZendHashRekey: changing an entry's key in place;
      ZendHashThms: the theorems.  ZendHashClient: what the simulation means
      for single calls, the interface the clients below are proved against.
    - ZendQsort, ZendQsortSpec: Zend/zend_qsort.c; the class [Comparison]
      states what its clients must supply, and the hash table's and the list's
      sorting theorems instantiate it.
    - ZendLlist, ZendLlistSpec, ZendLlistThms: Zend/zend_llist.c.
    - ZendStack, ZendStackSpec, ZendStackThms: Modules [Stack], [PtrStack] and
      [DynArray] for zend_stack.c, zend_ptr_stack.c, zend_dynamic_array.c.
    - Calendar (gregor.c, julian.c, french.c, jewish.c, dow.c), CalendarExt
      (calendar.c, easter.c, cal_unix.c), CalendarSpec, CalendarExtSpec,
      CalendarThms: ext/calendar.
    - ZendList, ZendListSpec, ZendListThms: Zend/zend_list.c, the resource
      lists, a client of the hash table.
    - JsonUtf8 (utf8_decode.c, utf8_to_utf16.c, [utf16_to_utf8]) and
      JsonUtf8Spec; JsonParser: JSON_parser.c, the tables, the stacks and
      [parse_JSON] over a store of zvals whose arrays are the tables of
      ZendHash.  JsonAutomaton: the same automaton on values, without a
      store; JsonParserSpec, JsonParserRun: the simulation between the two.
      JsonGrammar: the texts and their values; JsonLex: tokens; JsonSound,
      JsonComplete: the automaton accepts exactly those texts; JsonErrors:
      how it refuses; JsonRun: the parser from its creation on; JsonThms:
      the theorems.  JsonDecode, JsonDecodeSpec, JsonDecodeThms: json_decode
      of json.c, with what it makes of a text the parser refuses.
    - JsonEncode: json_encode of json.c, over a store of zvals and objects
      that may refer to themselves, and the printing of a [long] of
      php_smart_str.h.  JsonEncodeText: effects ([runs]: what a computation
      appends and leaves), numbers and strings; JsonEncodeHeap: well-formed
      stores, the counts of tables being encoded, the value at an address
      ([erep]); JsonEncodeWalk: the loops over a table; JsonEncodeValue: the
      induction over the tables not being encoded; JsonEncodeThms: the
      theorems, composed with json_decode.
    - CLib: the C library's functions on strings that are used.
      ZendNumeric, ZendNumericSpec, ZendNumericInt, ZendNumericThms:
      [is_numeric_string] of zend_operators.h, a machine whose states are the
      labels of the C code; json_decode is a client.
    - ZendObjectsApi, ZendObjectsApiSpec, ZendObjectsApiThms:
      Zend/zend_objects_API.c, the object store.
    - ZendGc: Zend/zend_gc.c and zend_gc.h over the object store, a heap of
      zvals ([zval_gc_info], its word [u] with address and colour) and the
      ring of roots ([gc_root_buffer]).  ZendGcGraph: the graph of the counted
      references ([kids]), which the walks do not change ([static]);
      ZendGcWalk: single writes, well-formed heaps, [painted]; ZendGcSpread:
      what a walk that spreads a colour does ([spreading]), for any instance
      of the class [Painting]; ZendGcMark ([zval_mark_grey],
      [zval_scan_black]), ZendGcScan ([zval_scan]) and ZendGcCollect
      ([zval_collect_white]): the instances; ZendGcRoots, ZendGcBuffer: the
      ring and the loops over it; ZendGcPhases, ZendGcGather: the three
      phases; ZendGcCycles: what [find_garbage] finds; ZendGcSound: the
      theorems about it; ZendGcPossible: how roots enter and leave the buffer.
    - SplHeap: ext/spl/spl_heap.c.  [Section PtrHeap] is [spl_ptr_heap], with
      the comparison as a computation on the whole state; [Section Objects]
      the methods, iterators, creation, clone and release of the classes over
      a store of counted zvals, what they call in the engine being the record
      [engine].  SplHeapSpec: the loops keep the elements and their order
      ([quiet], [honest]); SplHeapRefs: reference counts ([free_refs], [shed],
      [gained]) and what [zval_ptr_dtor] does; SplHeapMethods: the invariant
      [heap_inv], what each method promises ([meets]) and that it does;
      SplHeapThms: the theorems, and a concrete engine for them.

    ** What the theorems show

    - Hash table: from initialisation on, every sequence of the calls listed in
      ZendHashRefine returns and answers as an ordered dictionary does (a
      simulation), and zend_hash_destroy frees the rest; each operation on
      every branch; growth, sorting, walks, copies and merges preserve the
      invariant and have their functional specification; the unrolled hash
      function is the plain fold; numeric string keys are recognised exactly.
    - Quicksort: it returns a sorted permutation, in bounds, within its 64
      pending segments.  Linked list: a simulation by sequences, for the
      operations of ZendLlistThms.  Stacks: last in, first out, in bounds, as
      long as their sizes stay within [int].
    - Calendars: conversions are inverse to each other, and successive day
      numbers are successive dates; days of the week, Easter Sunday, month
      lengths, the Jewish calendar's arithmetic, Hebrew numerals within their
      buffer.
    - Resource lists: numbers are handed out fresh, references counted, and at
      the last the destructor that was registered for the type runs, once.
    - JSON: the parser accepts exactly the texts of the grammar and builds
      their values, for every text stays within its stacks and ends, and says
      by its error code why it refuses; integers keep their value or become
      doubles; the UTF-8 decoder is exact, and strings come back byte for
      byte.  The encoder ends even on values that contain themselves, leaves
      the store as it was, writes nothing but texts of that grammar, and
      [json_decode] reads back the value it was given, if JSON can say it
      ([faithful]).
      [json_decode] as a whole: the value of a JSON text, the scalar the
      string spells otherwise, or NULL and the error.
    - Numeric strings: the scan returns and stays within the string for all
      flags; a string is a [long] exactly if it spells an integer in range.
    - Object store: handles given out are unused, the free list holds exactly
      those given back, the last reference calls the destructor, once, then
      [free_storage], and gives the handle back; an inductive step relation
      gives the reachable states.
    - Cycle collector: it returns, and lists exactly the zvals that possible
      roots lead to and nothing held from outside of those does.  So, the
      counts being right, what can be reached is kept (safety) and a cycle
      that nothing refers to is found (liveness); counts, colours and words of
      what survives are as before.  Possible roots get an entry, those freed
      lose it, and the buffer's ring and chains stay consistent.
    - SPL heaps: under any comparison that leaves the heap alone, also one
      that throws or contradicts itself, no element is lost or duplicated;
      under one that answers as an order, extract gives a greatest element and
      the elements stay in order, or the heap is flagged, until
      recoverFromCorruption takes the flag of a disordered heap away; two
      references are kept to each element, and every other count is balanced,
      over calls (but for next with an argument, which leaks), clones and
      releases.

    ** Conventions

    An operation that would dereference NULL or freed memory, leave an array
    or end in a fatal error gives [Err]; theorems that an operation returns
    say [= Ok ...].  Loops that are not structural take fuel: a walk of a
    table or list as many turns as its heap has cells, plus one
    ([walk_fuel], [list_fuel]), which the invariant shows to be enough, since
    the cells of a list are distinct; the quicksort's fuel bounds the steps by
    the segments left; ZEND_HANDLE_NUMERIC's and the Jewish calendar's loops
    go by the length of the key and by the 19 years of a cycle; the UTF-8
    conversion takes one turn per byte, and one more; the scan of a numeric
    string three steps per character ([scan_fuel]); every nested call of the
    collector's walks takes one more zval out of a colour, so that there are
    no more of them than zvals ([gc_fuel]), and its loops take a turn for each
    entry; every nested call of the JSON encoder steps the count of one more
    table from zero ([encode_fuel]), and a [long] has at most twenty digits;
    sifting in a heap takes a turn per level and is given one per element;
    a nested [zval_ptr_dtor] takes the count of one more zval to zero.
    Running out of fuel is [Err OutOfFuel], never a result.

    The platform is LP64, two's complement, little endian; the build is not
    ZTS and without ZEND_DEBUG.

    ** What is not modelled

    - The allocator (class [Allocator]: any function that gives a fresh
      address or refuses), the C library's clock and time
      zone, and PHP's argument parser are parameters.
    - Callbacks of hash tables and lists act on their own environment and do
      not re-enter the structure that calls them; those of the object store
      may.
    - Interrupt blocking, the consistency checks of ZEND_DEBUG builds and
      functions that only print.
    - In the cycle collector: hash tables are lists of zvals, objects have the
      standard handlers and a property table, and gc_collect_cycles is
      followed up to the list of the zvals to free; calling destructors,
      destroying and releasing them is not modelled.  For the object store the
      collector is a parameter.
    - Overflow of [int] and [long] in the calendar arithmetic outside the
      ranges the theorems state (undefined in C).
    - In the JSON parser: zval reference counts and the release of values
      that are replaced (the destructor's calls are noted); classes with
      property handlers, since all objects are stdClass; zend_strtod, a
      parameter, which gives each decimal text some double, as is
      zend_hex_strtod.
    - In the JSON encoder: property tables are those of the standard handlers;
      spprintf of a double is a parameter ([double_writer]), of which the
      theorems assume that what it writes for a finite double is a number
      ([Writes]).
    - In the SPL heaps: comparisons that change the heap that calls them (one
      is shown to disorder it), more than 2^30 elements or references, the
      table made for var_dump, the standard properties of the object, and a
      refusal to enlarge the slots.
    - The rest of gc_collect_cycles, the operators, array.c and the other SPL
      structures: they run the destructors, the conversions or the handlers of
      arbitrary values, so a model of them starts from the executor's
      semantics of zvals and objects, which is not here.
    - The memory manager, whose blocks are raw memory; streams, output and
      server interfaces, which are input and output; the compiler and the
      executor, mostly generated or dispatching to generated code; the string
      functions of ext/standard, the other extensions and the vendored
      libraries, which no modelled component calls. *)

From stdpp Require Export base tactics numbers option list gmap.
From Stdlib Require Export ZArith Lia Bool.
From Stdlib Require Strings.Byte Strings.String.
Export Stdlib.Strings.String.StringSyntax.

#[export] Set Default Goal Selector "!".

Open Scope Z_scope.

(** ** Machine integers

    C integers are [Z] with the wrap-around written out: [u32]/[u64] are
    the conversions to [uint]/[ulong], [s32]/[s64] those to [int]/[long]
    (two's complement, LP64). *)

Definition u8 (z : Z) : Z := z `mod` 2 ^ 8.
Definition u32 (z : Z) : Z := z `mod` 2 ^ 32.
Definition u64 (z : Z) : Z := z `mod` 2 ^ 64.
Definition s32 (z : Z) : Z := (z + 2 ^ 31) `mod` 2 ^ 32 - 2 ^ 31.
Definition s64 (z : Z) : Z := (z + 2 ^ 63) `mod` 2 ^ 64 - 2 ^ 63.

Definition INT_MAX : Z := 2147483647.
Definition INT_MIN : Z := -2147483648.
Definition UINT_MAX : Z := 4294967295.
Definition LONG_MAX : Z := 9223372036854775807.
Definition LONG_MIN : Z := -9223372036854775808.

(** C's [/] and [%] truncate towards zero. *)
Notation "x /c y" := (Z.quot x y) (at level 40, left associativity) : Z_scope.
Notation "x %c y" := (Z.rem x y) (at level 40, left associativity) : Z_scope.

(** C's conversion of a condition to [int]. *)
Definition b2z (b : bool) : Z := if b then 1 else 0.

(** [flags & f] used as a condition. *)
Definition has_flag (flags f : Z) : bool := negb (Z.land flags f =? 0).

(** ** Bytes *)

Abbreviation byte := Byte.byte.

#[global] Instance byte_eq_dec : EqDecision byte := Byte.byte_eq_dec.

(** Value of a [char] read as [unsigned char] and as (signed) [char]. *)
Definition uc (b : byte) : Z := Z.of_N (Byte.to_N b).
Definition sc (b : byte) : Z := if uc b <? 128 then uc b else uc b - 256.

(** The byte stored by an assignment of an integer to a [char]. *)
Definition to_byte (z : Z) : byte :=
  default Byte.x00 (Byte.of_N (Z.to_N (z `mod` 256))).

(** A C string literal, without its terminating NUL. *)
Definition bs (s : String.string) : list byte := String.list_byte_of_string s.
Arguments bs s%_string_scope.

(** [memcmp(a, b, n)]: the difference of the first two bytes that differ. *)
Fixpoint memcmp (a b : list byte) (n : nat) : Z :=
  match n, a, b with
  | S n', x :: a', y :: b' =>
      if decide (x = y) then memcmp a' b' n' else uc x - uc y
  | _, _, _ => 0
  end.

(** ** Results and faults

    An operation that dereferences NULL or a freed block, indexes an array
    out of its bounds or raises [E_ERROR] does not return normally; a loop
    that runs out of the fuel given to it is reported as such, never as a
    result. *)

Inductive fault : Set :=
  | NullDeref
  | DanglingPointer
  | OutOfBounds
  | OutOfFuel
  | Bailout.

Inductive res (A : Type) : Type :=
  | Ok (a : A)
  | Err (e : fault).
Arguments Ok {A} a.
Arguments Err {A} e.

Definition is_ok {A} (r : res A) : bool :=
  match r with Ok _ => true | Err _ => false end.

(** A computation over a state [S]. *)
Definition M (S A : Type) : Type := S -> res (A * S).

#[global] Instance M_ret {S} : MRet (M S) := fun A a s => Ok (a, s).
#[global] Instance M_bind {S} : MBind (M S) := fun A B k c s =>
  match c s with
  | Ok (a, s') => k a s'
  | Err e => Err e
  end.
#[global] Instance res_ret : MRet res := fun A a => Ok a.
#[global] Instance res_bind : MBind res := fun A B k c =>
  match c with Ok a => k a | Err e => Err e end.
Definition throw {S A} (e : fault) : M S A := fun _ => Err e.
Definition get_st {S} : M S S := fun s => Ok (s, s).
Definition modify {S} (f : S -> S) : M S unit := fun s => Ok (tt, f s).
(** A read-only computation (a [const HashTable *] argument) run inside
    a stateful one. *)
Definition reading {S A} (f : S -> res A) : M S A :=
  fun s => match f s with Ok a => Ok (a, s) | Err e => Err e end.

(** The return codes of the Zend API. *)
Definition SUCCESS : Z := 0.
Definition FAILURE : Z := -1.

(** ** Rewriting a computation step by step *)

Lemma mbind_ok {S A B} (c : M S A) (k : A -> M S B) s a s' :
  c s = Ok (a, s') -> (c ≫= k) s = k a s'.
Proof. unfold mbind, M_bind. by intros ->. Qed.

Lemma mbind_ret {S A B} (a : A) (k : A -> M S B) s :
  (mret a ≫= k) s = k a s.
Proof. done. Qed.

Lemma mbind_modify {S B} f (k : unit -> M S B) s :
  (modify f ≫= k) s = k tt (f s).
Proof. done. Qed.

Lemma mbind_get {S B} (k : S -> M S B) s : (get_st ≫= k) s = k s s.
Proof. done. Qed.

Lemma mbind_reading {S A B} (f : S -> res A) (k : A -> M S B) s a :
  f s = Ok a -> (reading f ≫= k) s = k a s.
Proof. unfold mbind, M_bind, reading. by intros ->. Qed.

Lemma mbind_assoc {S A B C} (c : M S A) (k : A -> M S B) (k' : B -> M S C) s :
  ((c ≫= k) ≫= k') s = (c ≫= (fun a => k a ≫= k')) s.
Proof. unfold mbind, M_bind. by destruct (c s) as [[??]|]. Qed.

Lemma res_bind_ok {A B} (c : res A) (k : A -> res B) a :
  c = Ok a -> (c ≫= k) = k a.
Proof. by intros ->. Qed.

Lemma res_bind_inv {A B} (c : res A) (k : A -> res B) b : (c ≫= k) = Ok b -> exists a, c = Ok a /\ k a = Ok b.
Proof. destruct c as [a|]; [by exists a|done]. Qed.

(** [mstep] advances over one bind whose first command is already a value. *)
Ltac mstep :=
  first
    [ rewrite mbind_assoc
    | rewrite mbind_ret
    | rewrite mbind_modify
    | rewrite mbind_get
    | erewrite mbind_ok by (first [ eassumption | eauto with mspec ])
    | erewrite mbind_reading by (first [ eassumption | eauto with mspec ]) ];
  cbv beta iota.

Create HintDb mspec.
Create HintDb links.

(** ** Facts about the machine integers *)

Create HintDb width.

Lemma u64_range z : 0 <= u64 z < 2 ^ 64.
Proof. apply Z.mod_pos_bound. lia. Qed.
Lemma u32_range z : 0 <= u32 z < 2 ^ 32.
Proof. apply Z.mod_pos_bound. lia. Qed.
Lemma u64_small z : 0 <= z < 2 ^ 64 -> u64 z = z.
Proof. apply Z.mod_small. Qed.
Lemma u32_small z : 0 <= z < 2 ^ 32 -> u32 z = z.
Proof. apply Z.mod_small. Qed.
Lemma s64_range z : LONG_MIN <= s64 z <= LONG_MAX.
Proof.
  unfold s64, LONG_MIN, LONG_MAX.
  pose proof (Z.mod_pos_bound (z + 2 ^ 63) (2 ^ 64)). lia.
Qed.
Lemma s32_range z : INT_MIN <= s32 z <= INT_MAX.
Proof.
  unfold s32, INT_MIN, INT_MAX.
  pose proof (Z.mod_pos_bound (z + 2 ^ 31) (2 ^ 32)). lia.
Qed.
Lemma s64_small z : LONG_MIN <= z <= LONG_MAX -> s64 z = z.
Proof.
  unfold s64, LONG_MIN, LONG_MAX. intros.
  rewrite Z.mod_small; lia.
Qed.
Lemma s32_small z : INT_MIN <= z <= INT_MAX -> s32 z = z.
Proof.
  unfold s32, INT_MIN, INT_MAX. intros.
  rewrite Z.mod_small; lia.
Qed.
(** The signed reading of an unsigned 64-bit value. *)
Lemma s64_u64 z : 0 <= z < 2 ^ 64 ->
  s64 z = if z <=? LONG_MAX then z else z - 2 ^ 64.
Proof.
  intros H. unfold s64, LONG_MAX. case_match eqn:E.
  - apply Z.leb_le in E. rewrite Z.mod_small; lia.
  - apply Z.leb_gt in E.
    replace (z + 2 ^ 63) with ((z - 2 ^ 63) + 1 * 2 ^ 64) by lia.
    rewrite Z.mod_add, Z.mod_small; lia.
Qed.
Lemma u64_s64 z : u64 (s64 z) = u64 z.
Proof.
  unfold u64, s64. rewrite Zminus_mod_idemp_l. f_equal. lia.
Qed.

#[export] Hint Resolve u64_range u32_range s64_range s32_range : width.

Lemma uc_range b : 0 <= uc b < 256.
Proof. unfold uc. pose proof (Byte.to_N_bounded b). lia. Qed.
Lemma sc_range b : -128 <= sc b < 128.
Proof. unfold sc. pose proof (uc_range b). case_match; lia. Qed.
#[export] Hint Resolve uc_range sc_range : width.

Lemma to_byte_uc b : to_byte (uc b) = b.
Proof.
  unfold to_byte. rewrite Z.mod_small by apply uc_range.
  unfold uc. rewrite N2Z.id, Byte.of_to_N. done.
Qed.

Lemma uc_to_byte z : 0 <= z < 256 -> uc (to_byte z) = z.
Proof.
  intros H. unfold to_byte. rewrite Z.mod_small by done.
  destruct (Byte.of_N (Z.to_N z)) as [b|] eqn:E.
  - simpl. unfold uc. apply Byte.to_of_N in E. rewrite E. lia.
  - apply Byte.of_N_None_iff in E. lia.
Qed.

Lemma uc_inj a b : uc a = uc b -> a = b.
Proof. intros H. by rewrite <- (to_byte_uc a), H, to_byte_uc. Qed.

(** [h & mask] for a mask of the form [2^k - 1] is [h mod 2^k]. *)
Lemma land_mask h k : 0 <= k -> Z.land h (2 ^ k - 1) = h `mod` 2 ^ k.
Proof.
  intros Hk. rewrite <- Z.land_ones by done. f_equal.
  rewrite Z.ones_equiv. lia.
Qed.

(** Bit fields side by side: [a << k | b] is [a * 2 ^ k + b]. *)
Lemma lor_shiftl k a b : 0 <= k -> 0 <= b < 2 ^ k -> Z.lor (Z.shiftl a k) b = a * 2 ^ k + b.
Proof.
  intros Hk Hb. pose proof (Z.add_lor_land (Z.shiftl a k) b) as Ha.
  replace (Z.land (Z.shiftl a k) b) with 0 in Ha.
  { rewrite Z.shiftl_mul_pow2 in *; lia. }
  symmetry. apply Z.bits_inj'. intros n Hn. rewrite Z.land_spec, Z.bits_0.
  destruct (Z.lt_ge_cases n k).
  - rewrite Z.shiftl_spec_low by lia. done.
  - replace (Z.testbit b n) with false; [by rewrite andb_false_r|].
    symmetry. destruct (Z.eq_dec b 0) as [->|]; [by rewrite Z.bits_0|].
    apply Z.bits_above_log2; [lia|]. apply Z.log2_lt_pow2; [lia|].
    assert (2 ^ k <= 2 ^ n) by (apply Z.pow_le_mono_r; lia). lia.
Qed.

(** ** Comparison functions

    What a sort, or a search for an extremum, relies on in its [compare]
    argument: the sign of the result is that of a total preorder. *)

Class Comparison {A : Type} (cmp : A -> A -> Z) : Prop := {
  cmp_opposite : forall x y, 0 < cmp x y <-> cmp y x < 0;
  cmp_trans : forall x y z, cmp x y <= 0 -> cmp y z <= 0 -> cmp x z <= 0
}.

Lemma cmp_total {A} (cmp : A -> A -> Z) `{!Comparison cmp} x y : cmp x y <= 0 \/ cmp y x <= 0.
Proof. pose proof (cmp_opposite x y). pose proof (cmp_opposite y x). lia. Qed.
Lemma cmp_refl {A} (cmp : A -> A -> Z) `{!Comparison cmp} x : cmp x x = 0.
Proof. pose proof (cmp_opposite x x). lia. Qed.

#[export] Instance Comparison_sub {A} (f : A -> Z) : Comparison (fun x y => f x - f y).
Proof. split; intros; lia. Qed.
#[export] Instance Comparison_on {A B} (f : B -> A) (cmp : A -> A -> Z) `{!Comparison cmp} :
  Comparison (fun x y => cmp (f x) (f y)).
Proof. split; intros; [apply cmp_opposite|by eapply cmp_trans]. Qed.

(** ** Lists *)

Lemma last_cons_cons {A} (x y : A) l : last (x :: y :: l) = last (y :: l).
Proof. done. Qed.

Lemma NoDup_app_mid {A} (l1 l2 : list A) x :
  NoDup (l1 ++ x :: l2) -> x ∉ l1 /\ x ∉ l2 /\ NoDup (l1 ++ l2).
Proof.
  intros H. apply NoDup_app in H as (H1 & H2 & H3).
  apply NoDup_cons in H3 as [H3 H4]. split_and!; [|done|].
  - intros Hx. apply (H2 x Hx). left.
  - apply NoDup_app. split_and!; [done| |done].
    intros y Hy Hy'. apply (H2 y Hy). by right.
Qed.

Lemma elem_of_split {A} (l : list A) x :
  x ∈ l -> exists l1 l2, l = l1 ++ x :: l2.
Proof. intros H. by apply list_elem_of_split in H. Qed.

Lemma Forall2_impl_in {A B} (P Q : A -> B -> Prop) l k :
  Forall2 P l k -> (forall x y, x ∈ l -> P x y -> Q x y) -> Forall2 Q l k.
Proof.
  induction 1; intros HPQ; constructor.
  - apply HPQ; [left|done].
  - apply IHForall2. intros x' y' Hx. apply HPQ. by right.
Qed.

(** A permutation of one side of a [Forall2] is one of the other. *)
Lemma Forall2_Permutation_pick {A B} (R : A -> B -> Prop) (l l' : list A) (k : list B) :
  l ≡ₚ l' -> Forall2 R l k -> exists k', k ≡ₚ k' /\ Forall2 R l' k'.
Proof.
  intros Hp. revert k. induction Hp as [|x l l' Hp IH|x y l|l1 l2 l3 H1 IH1 H2 IH2]; intros k Hk.
  - exists k. done.
  - apply Forall2_cons_inv_l in Hk as (z & k1 & Hz & Hk & ->).
    destruct (IH _ Hk) as (k' & ? & ?). exists (z :: k'). split; [by constructor|by constructor].
  - apply Forall2_cons_inv_l in Hk as (z1 & k1 & Hz1 & Hk & ->).
    apply Forall2_cons_inv_l in Hk as (z2 & k2 & Hz2 & Hk & ->).
    exists (z2 :: z1 :: k2). split; [by constructor|by repeat constructor].
  - destruct (IH1 _ Hk) as (k1 & ? & Hk1). destruct (IH2 _ Hk1) as (k2 & ? & ?).
    exists k2. split; [by etrans|done].
Qed.
