(* ===== verification/Dll.v ===== *)
(** * Heaps of records and intrusive doubly linked lists

    C structs reached through pointers ([Bucket], [zend_llist_element]) live
    in a [gmap addr B]; a pointer is [option addr], NULL being [None].
    Section [Access] gives the reads and writes of the models, with the
    NULL and dangling cases as faults.  Section [Seg] is the theory of the
    intrusive lists: [seg L m p l n] says that the records at the addresses
    [l] are linked, through the pair of link fields [L], from a predecessor
    [p] to a successor [n].  [Bucket] carries two such pairs (collision
    chain and global order); [zend_llist_element] carries one. *)

From S2P Require Import Prelude.
Open Scope Z_scope.

Abbreviation addr := positive.
Abbreviation ptr := (option positive).

(** The allocator: [emalloc]/[pemalloc] and friends.  [alloc m size] is the
    address of a block of [size] bytes, or [None] when the request fails; a
    block returned is not one that is in use.  [Zend/zend_alloc.c] and libc
    are not modelled: their contract is the law of this class. *)
Class Allocator : Type := {
  alloc : forall {B : Type}, gmap addr B -> Z -> ptr;
  alloc_fresh : forall {B : Type} (m : gmap addr B) size a,
    alloc m size = Some a -> m !! a = None;
  (** Whether a request for a block owned by one record is granted. *)
  mem_ok : forall {B : Type}, gmap addr B -> Z -> bool
}.

(** An allocator that never runs out of memory, for concrete runs. *)
#[export] Program Instance bump_allocator : Allocator := {|
  alloc B m size := Some (fresh (dom m));
  mem_ok B m size := true
|}.
Next Obligation.
  intros B m _ a [= <-]. apply not_elem_of_dom, is_fresh.
Qed.

(** ** Reads and writes through pointers *)

Class HasHeap (S B : Type) : Type := {
  heap_of : S -> gmap addr B;
  upd_heap : (gmap addr B -> gmap addr B) -> S -> S;
  heap_of_upd : forall f s, heap_of (upd_heap f s) = f (heap_of s)
}.

Section Access.
Context {S B : Type} `{HasHeap S B}.

(** [*p], for reading one of the fields of the record [p] points to. *)
Definition deref (p : ptr) (s : S) : res B :=
  match p with
  | None => Err NullDeref
  | Some a => match heap_of s !! a with
              | None => Err DanglingPointer
              | Some b => Ok b
              end
  end.

(** [p->field = v], the field update being given as a function. *)
Definition assign (p : ptr) (f : B -> B) : M S unit := fun s =>
  match p with
  | None => Err NullDeref
  | Some a => match heap_of s !! a with
              | None => Err DanglingPointer
              | Some _ => Ok (tt, upd_heap (alter f a) s)
              end
  end.

(** [pefree(p)] of a whole record. *)
Definition release (p : ptr) : M S unit := fun s =>
  match p with
  | None => Err NullDeref
  | Some a => match heap_of s !! a with
              | None => Err DanglingPointer
              | Some _ => Ok (tt, upd_heap (delete a) s)
              end
  end.

Lemma deref_ok a s b : heap_of s !! a = Some b -> deref (Some a) s = Ok b.
Proof. simpl. by intros ->. Qed.

Lemma assign_ok a f s :
  is_Some (heap_of s !! a) ->
  assign (Some a) f s = Ok (tt, upd_heap (alter f a) s).
Proof. intros [b Hb]. simpl. by rewrite Hb. Qed.

(** The same when the record is known: the write replaces it. *)
Lemma alter_insert (m : gmap addr B) a f b :
  m !! a = Some b -> alter f a m = <[a := f b]> m.
Proof.
  intros Hb. apply map_eq. intros x. rewrite lookup_alter, lookup_insert.
  case_decide; [subst; by rewrite Hb|done].
Qed.

Lemma release_ok a s :
  is_Some (heap_of s !! a) ->
  release (Some a) s = Ok (tt, upd_heap (delete a) s).
Proof. intros [b Hb]. simpl. by rewrite Hb. Qed.
End Access.

(** ** Segments *)

(** A pair of link fields of a record, with their setters. *)
Record links (B : Type) : Type := Links {
  nx : B -> ptr;
  pv : B -> ptr;
  set_nx : ptr -> B -> B;
  set_pv : ptr -> B -> B;
  nx_set_nx : forall p b, nx (set_nx p b) = p;
  pv_set_nx : forall p b, pv (set_nx p b) = pv b;
  nx_set_pv : forall p b, nx (set_pv p b) = nx b;
  pv_set_pv : forall p b, pv (set_pv p b) = p
}.
Arguments nx {B} l. Arguments pv {B} l.
Arguments set_nx {B} l. Arguments set_pv {B} l.
Arguments nx_set_nx {B} l. Arguments pv_set_nx {B} l.
Arguments nx_set_pv {B} l. Arguments pv_set_pv {B} l.
#[export] Hint Rewrite @nx_set_nx @pv_set_nx @nx_set_pv @pv_set_pv : links.

(** First and last address of a list, with the pointer to use when empty. *)
Definition head_ptr (l : list addr) (n : ptr) : ptr :=
  match l with [] => n | a :: _ => Some a end.
Definition last_ptr (p : ptr) (l : list addr) : ptr :=
  match last l with None => p | Some a => Some a end.

(** [if (p) p->field = v;] on the heap itself. *)
Definition opt_alter {B} (p : ptr) (f : B -> B) (m : gmap addr B) : gmap addr B :=
  match p with None => m | Some a => alter f a m end.

Lemma head_ptr_app l1 l2 n : head_ptr (l1 ++ l2) n = head_ptr l1 (head_ptr l2 n).
Proof. by destruct l1. Qed.
Lemma last_ptr_cons p a l : last_ptr p (a :: l) = last_ptr (Some a) l.
Proof. unfold last_ptr. destruct l as [|b l]; [done|]. rewrite last_cons_cons.
  by destruct (last (b :: l)) eqn:E; [|apply last_None in E]. Qed.
Lemma last_ptr_app p l1 l2 : last_ptr p (l1 ++ l2) = last_ptr (last_ptr p l1) l2.
Proof.
  revert p. induction l1 as [|a l1 IH]; intros p; [done|].
  rewrite <- app_comm_cons, !last_ptr_cons. apply IH.
Qed.
Lemma last_ptr_snoc p l a : last_ptr p (l ++ [a]) = Some a.
Proof. by rewrite last_ptr_app. Qed.
Lemma last_ptr_elem l a : last_ptr None l = Some a -> a ∈ l.
Proof.
  unfold last_ptr. destruct (last l) eqn:E; [|done].
  intros [= ->]. by apply last_Some_elem_of.
Qed.
Lemma head_ptr_elem l a : head_ptr l None = Some a -> a ∈ l.
Proof. destruct l; [done|]. simpl. intros [= ->]. left. Qed.
Lemma head_ptr_None l : head_ptr l None = None <-> l = [].
Proof. by destruct l. Qed.
Lemma last_ptr_None l : last_ptr None l = None <-> l = [].
Proof.
  unfold last_ptr. destruct (last l) eqn:E.
  - split; [done|]. intros ->. done.
  - apply last_None in E. done.
Qed.

Section Seg.
Context {B : Type} (L : links B).
Implicit Types (m : gmap addr B) (l : list addr) (a : addr) (b : B).

Fixpoint seg (m : gmap addr B) (p : ptr) (l : list addr) (n : ptr) : Prop :=
  match l with
  | [] => True
  | a :: l' => exists b, m !! a = Some b /\ pv L b = p /\
               nx L b = head_ptr l' n /\ seg m (Some a) l' n
  end.

Lemma seg_app m p l1 l2 n :
  seg m p (l1 ++ l2) n <->
  seg m p l1 (head_ptr l2 n) /\ seg m (last_ptr p l1) l2 n.
Proof.
  revert p. induction l1 as [|a l1 IH]; intros p; [naive_solver|].
  rewrite last_ptr_cons. simpl. setoid_rewrite IH. setoid_rewrite head_ptr_app.
  naive_solver.
Qed.

Lemma seg_lookup m p l n a : seg m p l n -> a ∈ l -> is_Some (m !! a).
Proof.
  revert p. induction l as [|x l IH]; intros p Hs Ha; [by apply elem_of_nil in Ha|].
  destruct Hs as (b & Hb & _ & _ & Hs). apply elem_of_cons in Ha as [->|Ha]; eauto.
Qed.

(** What the fields of the middle record are. *)
Lemma seg_mid m p l1 a l2 n :
  seg m p (l1 ++ a :: l2) n ->
  exists b, m !! a = Some b /\ pv L b = last_ptr p l1 /\ nx L b = head_ptr l2 n.
Proof. rewrite seg_app. intros [_ (b & ? & ? & ? & _)]. eauto. Qed.

(** A segment depends only on the link fields of its own records. *)
Lemma seg_ext m m' p l n :
  (forall a, a ∈ l -> (fun b => (nx L b, pv L b)) <$> m' !! a
                 = (fun b => (nx L b, pv L b)) <$> m !! a) ->
  seg m p l n -> seg m' p l n.
Proof.
  revert p. induction l as [|a l IH]; intros p He; [done|].
  intros (b & Hb & Hp & Hn & Hs).
  pose proof (He a (list_elem_of_here _ _)) as Ha. rewrite Hb in Ha.
  destruct (m' !! a) as [b'|] eqn:Hb'; [|done]. simpl in Ha. simplify_eq.
  exists b'. split_and!; [done|congruence|congruence|].
  apply IH; [|done]. intros x Hx. apply He. by right.
Qed.

Lemma seg_alter_frame m p l n f a :
  (forall b, nx L (f b) = nx L b /\ pv L (f b) = pv L b) ->
  seg m p l n -> seg (alter f a m) p l n.
Proof.
  intros Hf. apply seg_ext. intros x _. rewrite lookup_alter. case_decide; [|done].
  subst. destruct (m !! x) as [b|]; [|done]. simpl. by destruct (Hf b) as [-> ->].
Qed.

Lemma seg_opt_alter_frame m p l n f q :
  (forall b, nx L (f b) = nx L b /\ pv L (f b) = pv L b) ->
  seg m p l n -> seg (opt_alter q f m) p l n.
Proof. destruct q; [apply seg_alter_frame|done]. Qed.

Lemma seg_alter_ne m p l n f a : a ∉ l -> seg m p l n -> seg (alter f a m) p l n.
Proof.
  intros Ha. apply seg_ext. intros x Hx. rewrite lookup_alter_ne; [done|]. by intros ->.
Qed.

Lemma seg_opt_alter_ne m p l n f q :
  (forall a, q = Some a -> a ∉ l) -> seg m p l n -> seg (opt_alter q f m) p l n.
Proof. destruct q; [intros H; apply seg_alter_ne, H; done|done]. Qed.

Lemma seg_insert_ne m p l n b a : a ∉ l -> seg m p l n -> seg (<[a := b]> m) p l n.
Proof.
  intros Ha. apply seg_ext. intros x Hx. rewrite lookup_insert_ne; [done|]. by intros ->.
Qed.

Lemma seg_delete_ne m p l n a : a ∉ l -> seg m p l n -> seg (delete a m) p l n.
Proof.
  intros Ha. apply seg_ext. intros x Hx. rewrite lookup_delete_ne; [done|]. by intros ->.
Qed.

(** Redirecting the outer links of a segment. *)
Lemma seg_set_next m p l n n' :
  NoDup l -> seg m p l n ->
  seg (opt_alter (last_ptr None l) (set_nx L n') m) p l n'.
Proof.
  destruct l as [|a l _] using rev_ind; [done|].
  rewrite last_ptr_snoc. intros [_ [Ha _]]%NoDup_app.
  assert (a ∉ l) by (intros Hx; by apply (Ha a Hx), list_elem_of_singleton).
  rewrite !seg_app. intros [Hl (b & Hb & Hp & Hn & _)]. split.
  - by apply seg_alter_ne.
  - exists (set_nx L n' b). simpl. rewrite lookup_alter_eq, Hb.
    by autorewrite with links.
Qed.

Lemma seg_set_prev m p p' l n :
  NoDup l -> seg m p l n ->
  seg (opt_alter (head_ptr l None) (set_pv L p') m) p' l n.
Proof.
  destruct l as [|a l]; [done|]. intros [Ha _]%NoDup_cons (b & Hb & Hp & Hn & Hs).
  exists (set_pv L p' b). simpl. rewrite lookup_alter_eq, Hb.
  autorewrite with links. split_and!; [done..|]. by apply seg_alter_ne.
Qed.

(** Inserting a fresh record at the front, as [CONNECT_TO_BUCKET_DLLIST]
    and [zend_llist_prepend_element] do. *)
Lemma seg_push_front m l a b :
  NoDup (a :: l) -> m !! a = Some b -> nx L b = head_ptr l None -> pv L b = None ->
  seg m None l None ->
  seg (opt_alter (head_ptr l None) (set_pv L (Some a)) m) None (a :: l) None.
Proof.
  intros Hnd Hb Hn Hp Hs. assert (a ∉ l) by (by apply NoDup_cons in Hnd as [??]).
  exists b. split_and!; [|done..|].
  - destruct l as [|c l]; [done|]. simpl. rewrite lookup_alter_ne; [done|]. set_solver.
  - eapply seg_set_prev; [by apply NoDup_cons in Hnd as [??]|done].
Qed.

(** Appending a fresh record, as [CONNECT_TO_GLOBAL_DLLIST] and
    [zend_llist_add_element] do. *)
Lemma seg_push_back m l a b :
  NoDup (l ++ [a]) -> m !! a = Some b -> nx L b = None -> pv L b = last_ptr None l ->
  seg m None l None ->
  seg (opt_alter (last_ptr None l) (set_nx L (Some a)) m) None (l ++ [a]) None.
Proof.
  intros Hnd Hb Hn Hp Hs.
  apply NoDup_app in Hnd as (Hl & Ha & _).
  assert (a ∉ l) by (intros Hx; by apply (Ha a Hx), list_elem_of_singleton).
  apply seg_app. split.
  - by eapply seg_set_next.
  - exists b. split_and!; [|done..].
    destruct (last_ptr None l) as [c|] eqn:E; [|done]. simpl.
    rewrite lookup_alter_ne; [done|]. intros ->. by apply last_ptr_elem in E.
Qed.

(** Unlinking the record [a]: [prev->next = a->next; next->prev = a->prev]. *)
Lemma seg_unlink m l1 a l2 :
  NoDup (l1 ++ a :: l2) -> seg m None (l1 ++ a :: l2) None ->
  seg (opt_alter (head_ptr l2 None) (set_pv L (last_ptr None l1))
        (opt_alter (last_ptr None l1) (set_nx L (head_ptr l2 None)) m))
      None (l1 ++ l2) None.
Proof.
  intros Hnd. rewrite !seg_app. intros [H1 (b & _ & _ & _ & H2)].
  apply NoDup_app in Hnd as (Hl1 & Hd & [Ha Hl2]%NoDup_cons). split.
  - apply seg_opt_alter_ne; [|by eapply seg_set_next].
    intros x Hx%head_ptr_elem Hx'. apply (Hd x Hx'). by right.
  - eapply seg_set_prev; [done|]. apply seg_opt_alter_ne; [|done].
    intros x Hx%last_ptr_elem Hx'. apply (Hd x Hx). by right.
Qed.

(** Another record takes the place of [a]. *)
Lemma seg_replace m l1 a l2 a' b' :
  NoDup (l1 ++ a :: l2) -> a' ∉ l1 ++ a :: l2 -> seg m None (l1 ++ a :: l2) None ->
  m !! a' = Some b' -> pv L b' = last_ptr None l1 -> nx L b' = head_ptr l2 None ->
  seg (opt_alter (last_ptr None l1) (set_nx L (Some a'))
        (opt_alter (head_ptr l2 None) (set_pv L (Some a')) m)) None (l1 ++ a' :: l2) None.
Proof.
  intros Hnd Ha' Hs Hb' Hp Hn. rewrite seg_app in Hs. destruct Hs as [H1 (b & _ & _ & _ & H2)].
  apply NoDup_app in Hnd as (Hl1 & Hd & [Ha Hl2]%NoDup_cons).
  rewrite seg_app. split; [|exists b'; split_and!; [|done|done|]].
  - eapply seg_set_next; [done|]. apply seg_opt_alter_ne; [|exact H1].
    intros x Hx%head_ptr_elem Hx'. apply (Hd x Hx'). by right.
  - destruct (last_ptr None l1) as [x|] eqn:E; destruct (head_ptr l2 None) as [y|] eqn:E2; simpl;
      rewrite ?lookup_alter_ne; try done;
      try (apply last_ptr_elem in E); try (apply head_ptr_elem in E2); set_solver.
  - apply seg_opt_alter_ne; [|by eapply seg_set_prev].
    intros x Hx%last_ptr_elem Hx'. apply (Hd x Hx). by right.
Qed.

(** Two segments from the same first record to NULL are the same list. *)
Lemma seg_inj m p l1 l2 :
  seg m p l1 None -> seg m p l2 None -> head_ptr l1 None = head_ptr l2 None -> l1 = l2.
Proof.
  revert p l2. induction l1 as [|a l1 IH]; intros p [|c l2]; simpl; try done.
  intros (b & Hb & _ & Hn & H1) (b' & Hb' & _ & Hn' & H2) [= ->].
  simplify_eq. f_equal. eapply IH; [done..|congruence].
Qed.
End Seg.
