(* ===== verification/ZendHash.v ===== *)
(** * Zend/zend_hash.c, Zend/zend_hash.h: the hash table

    Data and operations.  A [HashTable] is the C struct; the [Bucket]s it
    links together live in the heap [buckets] of the state.  [V] is the type
    of the values the table stores (what [pData] points to) and [W] the
    environment the callbacks (destructors, apply functions, copy
    constructors) act on.  Callbacks do not re-enter the table.

    A C pair [(arKey, nKeyLength)] is the list of its [nKeyLength] bytes.
    A [void **pDest] result is the address of the bucket that holds the data,
    through which the data can be read and written. *)

From S2P Require Import Prelude Dll.
Open Scope Z_scope.

(** Constants of zend_hash.h. *)
Definition HASH_KEY_IS_STRING : Z := 1.
Definition HASH_KEY_IS_LONG : Z := 2.
Definition HASH_KEY_NON_EXISTANT : Z := 3.
Definition HASH_UPDATE : Z := 1.
Definition HASH_ADD : Z := 2.
Definition HASH_NEXT_INSERT : Z := 4.
Definition HASH_DEL_KEY : Z := 0.
Definition HASH_DEL_INDEX : Z := 1.
Definition HASH_DEL_KEY_QUICK : Z := 2.
Definition HASH_UPDATE_KEY_IF_BEFORE : Z := 1.
Definition HASH_UPDATE_KEY_IF_AFTER : Z := 2.
Definition HASH_UPDATE_KEY_ANYWAY : Z := 3.
Definition ZEND_HASH_APPLY_KEEP : Z := 0.
Definition ZEND_HASH_APPLY_REMOVE : Z := 1.
Definition ZEND_HASH_APPLY_STOP : Z := 2.
Definition sizeof_ptr : Z := 8.
Definition sizeof_Bucket : Z := 72.
Definition MAX_LENGTH_OF_LONG : Z := 20.

(** ** The hash function *)

(** [hash = ((hash << 5) + hash) + *arKey++], [*arKey] being a signed char. *)
Definition hash_step (hash : Z) (c : byte) : Z :=
  u64 (u64 (u64 (Z.shiftl hash 5) + hash) + sc c).

Section UnrolledLoop.
Context (step : Z -> byte -> Z).

(** The fall-through switch on the 0 to 7 bytes left. *)
Definition zend_inline_hash_switch (hash : Z) (arKey : list byte) : Z :=
  match arKey with
  | [c1; c2; c3; c4; c5; c6; c7] =>
      step (step (step (step (step (step (step hash c1) c2) c3) c4) c5) c6) c7
  | [c1; c2; c3; c4; c5; c6] =>
      step (step (step (step (step (step hash c1) c2) c3) c4) c5) c6
  | [c1; c2; c3; c4; c5] =>
      step (step (step (step (step hash c1) c2) c3) c4) c5
  | [c1; c2; c3; c4] => step (step (step (step hash c1) c2) c3) c4
  | [c1; c2; c3] => step (step (step hash c1) c2) c3
  | [c1; c2] => step (step hash c1) c2
  | [c1] => step hash c1
  | _ => hash
  end.

(** [for (; nKeyLength >= 8; nKeyLength -= 8)], then the switch. *)
Fixpoint zend_inline_hash_loop (hash : Z) (arKey : list byte) : Z :=
  match arKey with
  | c1 :: c2 :: c3 :: c4 :: c5 :: c6 :: c7 :: c8 :: rest =>
      zend_inline_hash_loop
        (step (step (step (step (step (step (step (step hash
          c1) c2) c3) c4) c5) c6) c7) c8) rest
  | k => zend_inline_hash_switch hash k
  end.
End UnrolledLoop.

Definition zend_inline_hash_func (arKey : list byte) : Z :=
  zend_inline_hash_loop hash_step 5381 arKey.
Definition zend_hash_func (arKey : list byte) : Z := zend_inline_hash_func arKey.
Definition zend_get_hash_value (arKey : list byte) : Z := zend_inline_hash_func arKey.

(** ** Buckets and tables *)

(** Where [pData] points: at [pDataPtr] inside the bucket, or at a block of
    its own. *)
Inductive hdata (V : Type) : Type :=
  | InDataPtr (v : V)
  | OwnBlock (v : V).
Arguments InDataPtr {V} v.
Arguments OwnBlock {V} v.

Definition data_value {V} (d : hdata V) : V :=
  match d with InDataPtr v => v | OwnBlock v => v end.
Definition data_set {V} (v : V) (d : hdata V) : hdata V :=
  match d with InDataPtr _ => InDataPtr v | OwnBlock _ => OwnBlock v end.

Record Bucket (V : Type) : Type := mkBucket {
  h : Z;
  nKeyLength : Z;
  pData : hdata V;
  pListNext : ptr;
  pListLast : ptr;
  pNext : ptr;
  pLast : ptr;
  arKey : list byte
}.
Arguments mkBucket {V}. Arguments h {V}. Arguments nKeyLength {V}.
Arguments pData {V}. Arguments pListNext {V}. Arguments pListLast {V}.
Arguments pNext {V}. Arguments pLast {V}. Arguments arKey {V}.

Section BucketFields.
Context {V : Type}.
Implicit Types b : Bucket V.

Definition set_h x b : Bucket V := mkBucket x (nKeyLength b) (pData b) (pListNext b)
  (pListLast b) (pNext b) (pLast b) (arKey b).
Definition set_nKeyLength x b : Bucket V := mkBucket (h b) x (pData b) (pListNext b)
  (pListLast b) (pNext b) (pLast b) (arKey b).
Definition set_pData (x : hdata V) b : Bucket V := mkBucket (h b) (nKeyLength b) x (pListNext b)
  (pListLast b) (pNext b) (pLast b) (arKey b).
Definition set_pListNext x b : Bucket V := mkBucket (h b) (nKeyLength b) (pData b) x
  (pListLast b) (pNext b) (pLast b) (arKey b).
Definition set_pListLast x b : Bucket V := mkBucket (h b) (nKeyLength b) (pData b)
  (pListNext b) x (pNext b) (pLast b) (arKey b).
Definition set_pNext x b : Bucket V := mkBucket (h b) (nKeyLength b) (pData b)
  (pListNext b) (pListLast b) x (pLast b) (arKey b).
Definition set_pLast x b : Bucket V := mkBucket (h b) (nKeyLength b) (pData b)
  (pListNext b) (pListLast b) (pNext b) x (arKey b).
Definition set_arKey x b : Bucket V := mkBucket (h b) (nKeyLength b) (pData b)
  (pListNext b) (pListLast b) (pNext b) (pLast b) x.

(** The two lists a bucket is on: the global order and its chain. *)
Definition order_links : links (Bucket V) :=
  Links _ pListNext pListLast set_pListNext set_pListLast
    (fun _ _ => eq_refl) (fun _ _ => eq_refl) (fun _ _ => eq_refl) (fun _ _ => eq_refl).
Definition chain_links : links (Bucket V) :=
  Links _ pNext pLast set_pNext set_pLast
    (fun _ _ => eq_refl) (fun _ _ => eq_refl) (fun _ _ => eq_refl) (fun _ _ => eq_refl).

(** A block just returned by [pemalloc], holding the data to be stored:
    the other fields are assigned before they are read. *)
Definition raw_bucket (d : hdata V) : Bucket V :=
  mkBucket 0 0 d None None None None [].
End BucketFields.

Record HashTable (V W : Type) : Type := mkHashTable {
  nTableSize : Z;
  nTableMask : Z;
  nNumOfElements : Z;
  nNextFreeElement : Z;
  pInternalPointer : ptr;
  pListHead : ptr;
  pListTail : ptr;
  arBuckets : list ptr;
  pDestructor : option (V -> W -> W);
  persistent : bool;
  nApplyCount : Z;
  bApplyProtection : bool
}.
Arguments mkHashTable {V W}.
Arguments nTableSize {V W}. Arguments nTableMask {V W}.
Arguments nNumOfElements {V W}. Arguments nNextFreeElement {V W}.
Arguments pInternalPointer {V W}. Arguments pListHead {V W}.
Arguments pListTail {V W}. Arguments arBuckets {V W}.
Arguments pDestructor {V W}. Arguments persistent {V W}.
Arguments nApplyCount {V W}. Arguments bApplyProtection {V W}.

(** One table, the heap its buckets live in and the callbacks' environment. *)
Record hstate (V W : Type) : Type := HState {
  ht : HashTable V W;
  buckets : gmap addr (Bucket V);
  env : W
}.
Arguments HState {V W}. Arguments ht {V W}. Arguments buckets {V W}. Arguments env {V W}.

#[global] Instance hstate_heap {V W} : HasHeap (hstate V W) (Bucket V) := {|
  heap_of s := buckets s;
  upd_heap f s := HState (ht s) (f (buckets s)) (env s);
  heap_of_upd f s := eq_refl
|}.

Section TableFields.
Context {V W : Type}.
Implicit Types t : HashTable V W.

Definition set_table_size sz t : HashTable V W :=
  mkHashTable sz (sz - 1) (nNumOfElements t) (nNextFreeElement t)
    (pInternalPointer t) (pListHead t) (pListTail t) (arBuckets t)
    (pDestructor t) (persistent t) (nApplyCount t) (bApplyProtection t).
Definition set_nNumOfElements x t : HashTable V W :=
  mkHashTable (nTableSize t) (nTableMask t) x (nNextFreeElement t)
    (pInternalPointer t) (pListHead t) (pListTail t) (arBuckets t)
    (pDestructor t) (persistent t) (nApplyCount t) (bApplyProtection t).
Definition set_nNextFreeElement x t : HashTable V W :=
  mkHashTable (nTableSize t) (nTableMask t) (nNumOfElements t) x
    (pInternalPointer t) (pListHead t) (pListTail t) (arBuckets t)
    (pDestructor t) (persistent t) (nApplyCount t) (bApplyProtection t).
Definition set_pInternalPointer x t : HashTable V W :=
  mkHashTable (nTableSize t) (nTableMask t) (nNumOfElements t) (nNextFreeElement t)
    x (pListHead t) (pListTail t) (arBuckets t)
    (pDestructor t) (persistent t) (nApplyCount t) (bApplyProtection t).
Definition set_pListHead x t : HashTable V W :=
  mkHashTable (nTableSize t) (nTableMask t) (nNumOfElements t) (nNextFreeElement t)
    (pInternalPointer t) x (pListTail t) (arBuckets t)
    (pDestructor t) (persistent t) (nApplyCount t) (bApplyProtection t).
Definition set_pListTail x t : HashTable V W :=
  mkHashTable (nTableSize t) (nTableMask t) (nNumOfElements t) (nNextFreeElement t)
    (pInternalPointer t) (pListHead t) x (arBuckets t)
    (pDestructor t) (persistent t) (nApplyCount t) (bApplyProtection t).
Definition set_arBuckets x t : HashTable V W :=
  mkHashTable (nTableSize t) (nTableMask t) (nNumOfElements t) (nNextFreeElement t)
    (pInternalPointer t) (pListHead t) (pListTail t) x
    (pDestructor t) (persistent t) (nApplyCount t) (bApplyProtection t).
Definition set_nApplyCount x t : HashTable V W :=
  mkHashTable (nTableSize t) (nTableMask t) (nNumOfElements t) (nNextFreeElement t)
    (pInternalPointer t) (pListHead t) (pListTail t) (arBuckets t)
    (pDestructor t) (persistent t) x (bApplyProtection t).
Definition set_bApplyProtection x t : HashTable V W :=
  mkHashTable (nTableSize t) (nTableMask t) (nNumOfElements t) (nNextFreeElement t)
    (pInternalPointer t) (pListHead t) (pListTail t) (arBuckets t)
    (pDestructor t) (persistent t) (nApplyCount t) x.

Definition upd_ht (f : HashTable V W -> HashTable V W) (s : hstate V W) : hstate V W :=
  HState (f (ht s)) (buckets s) (env s).
Definition upd_env (f : W -> W) (s : hstate V W) : hstate V W :=
  HState (ht s) (buckets s) (f (env s)).
End TableFields.

Section Operations.
Context {V W : Type} `{Allocator}.

(** [ht->field = v]. *)
Definition set_ht (f : HashTable V W -> HashTable V W) : M (hstate V W) unit :=
  modify (upd_ht f).

(** [ht->arBuckets[i]], and the assignment to it. *)
Definition arBuckets_at (i : Z) (s : hstate V W) : res ptr :=
  match arBuckets (ht s) !! Z.to_nat i with
  | Some p => Ok p
  | None => Err OutOfBounds
  end.
Definition set_arBuckets_at (i : Z) (p : ptr) : M (hstate V W) unit := fun s =>
  match arBuckets (ht s) !! Z.to_nat i with
  | Some _ => Ok (tt, upd_ht (set_arBuckets (<[Z.to_nat i := p]> (arBuckets (ht s)))) s)
  | None => Err OutOfBounds
  end.

(** [if (p) p->field = v;] *)
Definition assign_if (p : ptr) (f : Bucket V -> Bucket V) : M (hstate V W) unit :=
  match p with None => mret tt | Some _ => assign p f end.

(** Fuel for a walk over the buckets: one more than there are. *)
Definition walk_fuel (s : hstate V W) : nat := S (size (buckets s)).

(** [if (ht->pDestructor) ht->pDestructor(p->pData);] *)
Definition run_dtor (p : ptr) : M (hstate V W) unit :=
  s ← get_st;
  match pDestructor (ht s) with
  | None => mret tt
  | Some d => b ← reading (deref p); modify (upd_env (d (data_value (pData b))))
  end.

(** [if (pCopyConstructor) pCopyConstructor(data);]: the callback may
    change the value it is given. *)
Definition run_copy_ctor (ctor : option (V -> W -> V * W)) (p : ptr) : M (hstate V W) unit :=
  match ctor with
  | None => mret tt
  | Some f =>
      b ← reading (deref p);
      s ← get_st;
      let '(v, w) := f (data_value (pData b)) (env s) in
      assign p (set_pData (data_set v (pData b)));; modify (upd_env (fun _ => w))
  end.

(** ** Linking *)

Definition CONNECT_TO_BUCKET_DLLIST (element list_head : ptr) : M (hstate V W) unit :=
  assign element (set_pNext list_head);;
  assign element (set_pLast None);;
  e ← reading (deref element);
  assign_if (pNext e) (set_pLast element).

Definition CONNECT_TO_GLOBAL_DLLIST (element : ptr) : M (hstate V W) unit :=
  s ← get_st;
  assign element (set_pListLast (pListTail (ht s)));;
  set_ht (set_pListTail element);;
  assign element (set_pListNext None);;
  e ← reading (deref element);
  assign_if (pListLast e) (set_pListNext element);;
  s ← get_st;
  (match pListHead (ht s) with
   | None => set_ht (set_pListHead element)
   | Some _ => mret tt
   end);;
  s ← get_st;
  (match pInternalPointer (ht s) with
   | None => set_ht (set_pInternalPointer element)
   | Some _ => mret tt
   end).

(** The unlinking from the global list, written out in
    [zend_hash_del_key_or_index], [zend_hash_apply_deleter] and twice in
    [zend_hash_update_current_key_ex]. *)
Definition unlink_global (p : ptr) : M (hstate V W) unit :=
  b ← reading (deref p);
  (match pListLast b with
   | Some _ => assign (pListLast b) (set_pListNext (pListNext b))
   | None => set_ht (set_pListHead (pListNext b))
   end);;
  (match pListNext b with
   | Some _ => assign (pListNext b) (set_pListLast (pListLast b))
   | None => set_ht (set_pListTail (pListLast b))
   end);;
  s ← get_st;
  if decide (pInternalPointer (ht s) = p)
  then set_ht (set_pInternalPointer (pListNext b)) else mret tt.

(** [if (p == ht->arBuckets[i]) ... else p->pLast->pNext = p->pNext; if
    (p->pNext) ...], written out in the same functions. *)
Definition unlink_chain (i : Z) (p : ptr) : M (hstate V W) unit :=
  b ← reading (deref p);
  hd ← reading (arBuckets_at i);
  (if decide (p = hd) then set_arBuckets_at i (pNext b)
   else assign (pLast b) (set_pNext (pNext b)));;
  assign_if (pNext b) (set_pLast (pLast b)).

(** [ht->pDestructor(p->pData); pefree(p->pData); pefree(p)]. *)
Definition destroy_bucket (p : ptr) : M (hstate V W) unit :=
  run_dtor p;; release p.

(** ** Creation *)

Fixpoint init_shift (fuel : nat) (i nSize : Z) : Z :=
  match fuel with
  | O => i
  | S fuel' => if Z.shiftl 1 i <? nSize then init_shift fuel' (i + 1) nSize else i
  end.

(** [_zend_hash_init].  The table starts in the heap [m]; 29 steps of the
    loop reach [1U << 31], which is not below any [nSize] it is run on. *)
Definition zend_hash_init (nSize : Z) (dtor : option (V -> W -> W)) (pers : bool)
    (m : gmap addr (Bucket V)) (w : W) : Z * hstate V W :=
  let sz := if 2147483648 <=? nSize then 2147483648
            else u32 (Z.shiftl 1 (init_shift 29 3 nSize)) in
  let t := mkHashTable sz (sz - 1) 0 0 None None None [] dtor pers 0 true in
  if mem_ok m (sz * sizeof_ptr)
  then (SUCCESS, HState (set_arBuckets (replicate (Z.to_nat sz) None) t) m w)
  else (if pers then FAILURE else SUCCESS, HState t m w).

Definition zend_hash_init_ex (nSize : Z) (dtor : option (V -> W -> W)) (pers : bool)
    (protect : bool) (m : gmap addr (Bucket V)) (w : W) : Z * hstate V W :=
  let '(retval, s) := zend_hash_init nSize dtor pers m w in
  (retval, upd_ht (set_bApplyProtection protect) s).

Definition zend_hash_set_apply_protection (protect : bool) : M (hstate V W) unit :=
  set_ht (set_bApplyProtection protect).

(** ** Growing *)

Fixpoint rehash_loop (fuel : nat) (p : ptr) : M (hstate V W) unit :=
  match fuel with
  | O => throw OutOfFuel
  | S fuel' =>
      match p with
      | None => mret tt
      | Some _ =>
          b ← reading (deref p);
          s ← get_st;
          let nIndex := Z.land (h b) (nTableMask (ht s)) in
          hd ← reading (arBuckets_at nIndex);
          CONNECT_TO_BUCKET_DLLIST p hd;;
          set_arBuckets_at nIndex p;;
          b ← reading (deref p);
          rehash_loop fuel' (pListNext b)
      end
  end.

(** [memset(ht->arBuckets, 0, ht->nTableSize * sizeof(Bucket * ))]. *)
Definition clear_arBuckets : M (hstate V W) unit :=
  s ← get_st;
  if decide (length (arBuckets (ht s)) = Z.to_nat (nTableSize (ht s)))
  then set_ht (set_arBuckets (replicate (Z.to_nat (nTableSize (ht s))) None))
  else throw OutOfBounds.

Definition zend_hash_rehash : M (hstate V W) Z :=
  clear_arBuckets;;
  s ← get_st;
  rehash_loop (walk_fuel s) (pListHead (ht s));;
  mret SUCCESS.

(** The reallocated array keeps its old part; what follows is cleared by
    [zend_hash_rehash] before it is read. *)
Definition zend_hash_do_resize : M (hstate V W) Z :=
  s ← get_st;
  let sz := u32 (Z.shiftl (nTableSize (ht s)) 1) in
  if 0 <? sz then
    if mem_ok (buckets s) (sz * sizeof_ptr) then
      set_ht (set_arBuckets
        (arBuckets (ht s) ++ replicate (Z.to_nat sz - length (arBuckets (ht s))) None));;
      set_ht (set_table_size sz);;
      zend_hash_rehash;;
      mret SUCCESS
    else mret FAILURE
  else mret SUCCESS.

Definition ZEND_HASH_IF_FULL_DO_RESIZE : M (hstate V W) unit :=
  s ← get_st;
  if nTableSize (ht s) <? nNumOfElements (ht s)
  then zend_hash_do_resize;; mret tt else mret tt.

(** ** Storing data *)

(** [INIT_DATA] on the way into a new bucket: the data it starts with, or
    nothing when the block for it cannot be had. *)
Definition INIT_DATA (v : V) (nDataSize : Z) (s : hstate V W) : option (hdata V) :=
  if nDataSize =? sizeof_ptr then Some (InDataPtr v)
  else if mem_ok (buckets s) nDataSize then Some (OwnBlock v) else None.

(** [UPDATE_DATA].  The result of [pemalloc] is not tested there: a
    request that is not granted ends in [memcpy] to NULL. *)
Definition UPDATE_DATA (p : ptr) (v : V) (nDataSize : Z) : M (hstate V W) unit :=
  s ← get_st;
  if nDataSize =? sizeof_ptr then assign p (set_pData (InDataPtr v))
  else if mem_ok (buckets s) nDataSize then assign p (set_pData (OwnBlock v))
  else throw NullDeref.

(** [pemalloc] of a bucket, [nDataSize] and [nKeyLength] deciding the sizes. *)
Definition new_bucket (size : Z) (v : V) (nDataSize : Z) : M (hstate V W) ptr :=
  s ← get_st;
  match alloc (buckets s) size, INIT_DATA v nDataSize s with
  | Some a, Some d => modify (upd_heap (<[a := raw_bucket d]>));; mret (Some a)
  | _, _ => mret None
  end.

(** The chain walk [p = ht->arBuckets[nIndex]; while (p != NULL) { if
    (test) ...; p = p->pNext; }] up to the first bucket that passes. *)
Fixpoint chain_walk (fuel : nat) (test : Bucket V -> bool) (p : ptr)
    (s : hstate V W) : res ptr :=
  match fuel with
  | O => Err OutOfFuel
  | S fuel' =>
      match p with
      | None => Ok None
      | Some _ =>
          match deref p s with
          | Err e => Err e
          | Ok b => if test b then Ok p else chain_walk fuel' test (pNext b) s
          end
      end
  end.
Definition chain_find (nIndex : Z) (test : Bucket V -> bool) (s : hstate V W) : res ptr :=
  match arBuckets_at nIndex s with
  | Ok p => chain_walk (walk_fuel s) test p s
  | Err e => Err e
  end.

(** The two tests made on a bucket. *)
Definition is_key (hv : Z) (key : list byte) (b : Bucket V) : bool :=
  (h b =? hv) && (nKeyLength b =? Z.of_nat (length key)) &&
  (memcmp (arKey b) key (length key) =? 0).
Definition is_index (hv : Z) (b : Bucket V) : bool :=
  (h b =? hv) && (nKeyLength b =? 0).

(** ** Insertion and update *)

(** What the three insertion functions do once the bucket [p] exists with
    its key and data: put it on its chain and at the end of the order,
    count it and grow the table if it is full. *)
Definition connect_new_bucket (nIndex : Z) (p : ptr) : M (hstate V W) unit :=
  hd ← reading (arBuckets_at nIndex);
  CONNECT_TO_BUCKET_DLLIST p hd;;
  set_arBuckets_at nIndex p;;
  CONNECT_TO_GLOBAL_DLLIST p.
Definition count_new_bucket : M (hstate V W) unit :=
  s ← get_st;
  set_ht (set_nNumOfElements (u32 (nNumOfElements (ht s) + 1)));;
  ZEND_HASH_IF_FULL_DO_RESIZE.

(** [_zend_hash_add_or_update] after the hash value is known; it is also
    the body of [_zend_hash_quick_add_or_update] for a non-empty key. *)
Definition add_or_update_key (key : list byte) (hv : Z) (v : V) (nDataSize flag : Z)
    : M (hstate V W) (Z * ptr) :=
  s ← get_st;
  let nIndex := Z.land hv (nTableMask (ht s)) in
  p ← reading (chain_find nIndex (is_key hv key));
  match p with
  | Some _ =>
      if has_flag flag HASH_ADD then mret (FAILURE, None)
      else
        run_dtor p;;
        UPDATE_DATA p v nDataSize;;
        mret (SUCCESS, p)
  | None =>
      p ← new_bucket (sizeof_Bucket - 1 + Z.of_nat (length key)) v nDataSize;
      match p with
      | None => mret (FAILURE, None)
      | Some _ =>
          assign p (set_arKey key);;
          assign p (set_nKeyLength (Z.of_nat (length key)));;
          assign p (set_h hv);;
          connect_new_bucket nIndex p;;
          count_new_bucket;;
          mret (SUCCESS, p)
      end
  end.

Definition zend_hash_add_or_update (key : list byte) (v : V) (nDataSize flag : Z)
    : M (hstate V W) (Z * ptr) :=
  if Z.of_nat (length key) <=? 0 then mret (FAILURE, None)
  else add_or_update_key key (zend_inline_hash_func key) v nDataSize flag.

(** [if ((long)h >= (long)ht->nNextFreeElement) ht->nNextFreeElement = ...] *)
Definition advance_next_free (hv : Z) : M (hstate V W) unit :=
  s ← get_st;
  if s64 (nNextFreeElement (ht s)) <=? s64 hv
  then set_ht (set_nNextFreeElement (if hv <? LONG_MAX then u64 (hv + 1) else LONG_MAX))
  else mret tt.

Definition zend_hash_index_update_or_next_insert (hv : Z) (v : V) (nDataSize flag : Z)
    : M (hstate V W) (Z * ptr) :=
  s ← get_st;
  let hv := if has_flag flag HASH_NEXT_INSERT then nNextFreeElement (ht s) else hv in
  let nIndex := Z.land hv (nTableMask (ht s)) in
  p ← reading (chain_find nIndex (is_index hv));
  match p with
  | Some _ =>
      if has_flag flag HASH_NEXT_INSERT || has_flag flag HASH_ADD
      then mret (FAILURE, None)
      else
        run_dtor p;;
        UPDATE_DATA p v nDataSize;;
        advance_next_free hv;;
        mret (SUCCESS, p)
  | None =>
      p ← new_bucket (sizeof_Bucket - 1) v nDataSize;
      match p with
      | None => mret (FAILURE, None)
      | Some _ =>
          assign p (set_nKeyLength 0);;
          assign p (set_h hv);;
          connect_new_bucket nIndex p;;
          advance_next_free hv;;
          count_new_bucket;;
          mret (SUCCESS, p)
      end
  end.

Definition zend_hash_quick_add_or_update (key : list byte) (hv : Z) (v : V)
    (nDataSize flag : Z) : M (hstate V W) (Z * ptr) :=
  if Z.of_nat (length key) =? 0
  then zend_hash_index_update_or_next_insert hv v nDataSize HASH_UPDATE
  else add_or_update_key key hv v nDataSize flag.

(** The macros over them. *)
Definition zend_hash_update key v nDataSize :=
  zend_hash_add_or_update key v nDataSize HASH_UPDATE.
Definition zend_hash_add key v nDataSize :=
  zend_hash_add_or_update key v nDataSize HASH_ADD.
Definition zend_hash_quick_update key hv v nDataSize :=
  zend_hash_quick_add_or_update key hv v nDataSize HASH_UPDATE.
Definition zend_hash_quick_add key hv v nDataSize :=
  zend_hash_quick_add_or_update key hv v nDataSize HASH_ADD.
Definition zend_hash_index_update hv v nDataSize :=
  zend_hash_index_update_or_next_insert hv v nDataSize HASH_UPDATE.
Definition zend_hash_next_index_insert v nDataSize :=
  zend_hash_index_update_or_next_insert 0 v nDataSize HASH_NEXT_INSERT.
(** [dummy] is the value [(void * ) 1] as one of the table's values. *)
Definition zend_hash_add_empty_element (dummy : V) (key : list byte) :=
  zend_hash_add key dummy sizeof_ptr.

(** ** Look-up *)

Definition zend_hash_find (key : list byte) (s : hstate V W) : res ptr :=
  let hv := zend_inline_hash_func key in
  chain_find (Z.land hv (nTableMask (ht s))) (is_key hv key) s.
Definition zend_hash_index_find (hv : Z) (s : hstate V W) : res ptr :=
  chain_find (Z.land hv (nTableMask (ht s))) (is_index hv) s.
Definition zend_hash_quick_find (key : list byte) (hv : Z) (s : hstate V W) : res ptr :=
  if Z.of_nat (length key) =? 0 then zend_hash_index_find hv s
  else chain_find (Z.land hv (nTableMask (ht s))) (is_key hv key) s.

(** [return 1] in the loop and [return 0] after it. *)
Definition found (r : res ptr) : res Z :=
  match r with
  | Ok (Some _) => Ok 1
  | Ok None => Ok 0
  | Err e => Err e
  end.
Definition zend_hash_exists (key : list byte) (s : hstate V W) : res Z :=
  let hv := zend_inline_hash_func key in
  found (chain_find (Z.land hv (nTableMask (ht s))) (is_key hv key) s).
Definition zend_hash_index_exists (hv : Z) (s : hstate V W) : res Z :=
  found (chain_find (Z.land hv (nTableMask (ht s))) (is_index hv) s).
Definition zend_hash_quick_exists (key : list byte) (hv : Z) (s : hstate V W) : res Z :=
  if Z.of_nat (length key) =? 0 then zend_hash_index_exists hv s
  else found (chain_find (Z.land hv (nTableMask (ht s))) (is_key hv key) s).

Definition zend_hash_num_elements (s : hstate V W) : Z := nNumOfElements (ht s).
Definition zend_hash_next_free_element (s : hstate V W) : Z := nNextFreeElement (ht s).

(** ** Deletion *)

Definition decrement_count : M (hstate V W) unit :=
  s ← get_st; set_ht (set_nNumOfElements (u32 (nNumOfElements (ht s) - 1))).

(** The test of [zend_hash_del_key_or_index]: no [memcmp] for an index. *)
Definition is_deleted (hv : Z) (key : list byte) (b : Bucket V) : bool :=
  (h b =? hv) && (nKeyLength b =? Z.of_nat (length key)) &&
  ((nKeyLength b =? 0) || (memcmp (arKey b) key (length key) =? 0)).

Definition zend_hash_del_key_or_index (key : list byte) (hv flag : Z)
    : M (hstate V W) Z :=
  let hv := if flag =? HASH_DEL_KEY then zend_inline_hash_func key else hv in
  s ← get_st;
  let nIndex := Z.land hv (nTableMask (ht s)) in
  p ← reading (chain_find nIndex (is_deleted hv key));
  match p with
  | Some _ =>
      unlink_chain nIndex p;;
      unlink_global p;;
      destroy_bucket p;;
      decrement_count;;
      mret SUCCESS
  | None => mret FAILURE
  end.
Definition zend_hash_del key := zend_hash_del_key_or_index key 0 HASH_DEL_KEY.
Definition zend_hash_quick_del key hv := zend_hash_del_key_or_index key hv HASH_DEL_KEY_QUICK.
Definition zend_hash_index_del hv := zend_hash_del_key_or_index [] hv HASH_DEL_INDEX.

(** Unlike the other deletions it goes by [p->pLast], not by the array. *)
Definition zend_hash_apply_deleter (p : ptr) : M (hstate V W) ptr :=
  b ← reading (deref p);
  s ← get_st;
  (match pLast b with
   | Some _ => assign (pLast b) (set_pNext (pNext b))
   | None => set_arBuckets_at (Z.land (h b) (nTableMask (ht s))) (pNext b)
   end);;
  assign_if (pNext b) (set_pLast (pLast b));;
  unlink_global p;;
  decrement_count;;
  run_dtor p;;
  b ← reading (deref p);
  release p;;
  mret (pListNext b).

(** [pefree(ht->arBuckets)]: no entry can be read any more. *)
Definition free_arBuckets : M (hstate V W) unit := set_ht (set_arBuckets []).

Fixpoint destroy_loop (fuel : nat) (p : ptr) : M (hstate V W) unit :=
  match fuel with
  | O => throw OutOfFuel
  | S fuel' =>
      match p with
      | None => mret tt
      | Some _ =>
          b ← reading (deref p);
          destroy_bucket p;;
          destroy_loop fuel' (pListNext b)
      end
  end.

Definition zend_hash_destroy : M (hstate V W) unit :=
  s ← get_st;
  destroy_loop (walk_fuel s) (pListHead (ht s));;
  free_arBuckets.

Definition zend_hash_clean : M (hstate V W) unit :=
  s ← get_st;
  let p := pListHead (ht s) in
  clear_arBuckets;;
  set_ht (set_pListHead None);;
  set_ht (set_pListTail None);;
  set_ht (set_nNumOfElements 0);;
  set_ht (set_nNextFreeElement 0);;
  set_ht (set_pInternalPointer None);;
  destroy_loop (walk_fuel s) p.

Fixpoint graceful_loop (fuel : nat) (p : ptr) : M (hstate V W) unit :=
  match fuel with
  | O => throw OutOfFuel
  | S fuel' =>
      match p with
      | None => mret tt
      | Some _ => q ← zend_hash_apply_deleter p; graceful_loop fuel' q
      end
  end.
Definition zend_hash_graceful_destroy : M (hstate V W) unit :=
  s ← get_st;
  graceful_loop (walk_fuel s) (pListHead (ht s));;
  free_arBuckets.

Fixpoint graceful_reverse_loop (fuel : nat) (p : ptr) : M (hstate V W) unit :=
  match fuel with
  | O => throw OutOfFuel
  | S fuel' =>
      match p with
      | None => mret tt
      | Some _ =>
          zend_hash_apply_deleter p;;
          s ← get_st;
          graceful_reverse_loop fuel' (pListTail (ht s))
      end
  end.
Definition zend_hash_graceful_reverse_destroy : M (hstate V W) unit :=
  s ← get_st;
  graceful_reverse_loop (walk_fuel s) (pListTail (ht s));;
  free_arBuckets.

(** ** Applying a function to the elements *)

(** [HASH_PROTECT_RECURSION]: the fourth nested application ends in
    [E_ERROR]; [nApplyCount] is an [unsigned char]. *)
Definition HASH_PROTECT_RECURSION : M (hstate V W) unit :=
  s ← get_st;
  if bApplyProtection (ht s) then
    set_ht (set_nApplyCount (u8 (nApplyCount (ht s) + 1)));;
    if 3 <=? nApplyCount (ht s) then throw Bailout else mret tt
  else mret tt.
Definition HASH_UNPROTECT_RECURSION : M (hstate V W) unit :=
  s ← get_st;
  if bApplyProtection (ht s)
  then set_ht (set_nApplyCount (u8 (nApplyCount (ht s) - 1))) else mret tt.

(** [zend_hash_key], as the callbacks with arguments see it. *)
Record zend_hash_key : Type := HashKey { hk_arKey : list byte; hk_nKeyLength : Z; hk_h : Z }.

(** A callback gets the element (its key and the data, which it may
    change) and the environment, and returns its code. *)
Definition callback : Type := zend_hash_key -> V -> W -> Z * V * W.

Definition call_apply (f : callback) (p : ptr) : M (hstate V W) Z :=
  b ← reading (deref p);
  s ← get_st;
  let '(result, v, w) :=
    f (HashKey (arKey b) (nKeyLength b) (h b)) (data_value (pData b)) (env s) in
  assign p (set_pData (data_set v (pData b)));;
  modify (upd_env (fun _ => w));;
  mret result.

Fixpoint apply_loop (fuel : nat) (f : callback) (p : ptr) : M (hstate V W) unit :=
  match fuel with
  | O => throw OutOfFuel
  | S fuel' =>
      match p with
      | None => mret tt
      | Some _ =>
          result ← call_apply f p;
          q ← (if has_flag result ZEND_HASH_APPLY_REMOVE
               then zend_hash_apply_deleter p
               else b ← reading (deref p); mret (pListNext b));
          if has_flag result ZEND_HASH_APPLY_STOP then mret tt
          else apply_loop fuel' f q
      end
  end.

Definition zend_hash_apply_with_arguments (f : callback) : M (hstate V W) unit :=
  HASH_PROTECT_RECURSION;;
  s ← get_st;
  apply_loop (walk_fuel s) f (pListHead (ht s));;
  HASH_UNPROTECT_RECURSION.
(** The variants whose callback does not see the key. *)
Definition zend_hash_apply_with_argument {A} (f : V -> A -> W -> Z * V * W) (argument : A)
    : M (hstate V W) unit :=
  zend_hash_apply_with_arguments (fun _ v w => f v argument w).
Definition zend_hash_apply (f : V -> W -> Z * V * W) : M (hstate V W) unit :=
  zend_hash_apply_with_arguments (fun _ v w => f v w).

Fixpoint reverse_apply_loop (fuel : nat) (f : callback) (p : ptr) : M (hstate V W) unit :=
  match fuel with
  | O => throw OutOfFuel
  | S fuel' =>
      match p with
      | None => mret tt
      | Some _ =>
          result ← call_apply f p;
          b ← reading (deref p);
          (if has_flag result ZEND_HASH_APPLY_REMOVE
           then zend_hash_apply_deleter p;; mret tt else mret tt);;
          if has_flag result ZEND_HASH_APPLY_STOP then mret tt
          else reverse_apply_loop fuel' f (pListLast b)
      end
  end.
Definition zend_hash_reverse_apply (f : V -> W -> Z * V * W) : M (hstate V W) unit :=
  HASH_PROTECT_RECURSION;;
  s ← get_st;
  reverse_apply_loop (walk_fuel s) (fun _ v w => f v w) (pListTail (ht s));;
  HASH_UNPROTECT_RECURSION.

(** ** Copying and merging

    The source table is another table, with a heap of its own; it is read
    through the state [src]. *)

Fixpoint copy_loop (fuel : nat) (src : hstate V W) (setTargetPointer : bool)
    (ctor : option (V -> W -> V * W)) (size : Z) (p : ptr) : M (hstate V W) unit :=
  match fuel with
  | O => throw OutOfFuel
  | S fuel' =>
      match p with
      | None => mret tt
      | Some _ =>
          match deref p src with
          | Err e => throw e
          | Ok b =>
              (if setTargetPointer && bool_decide (pInternalPointer (ht src) = p)
               then set_ht (set_pInternalPointer None) else mret tt);;
              '(_, new_entry) ←
                (if negb (nKeyLength b =? 0)
                 then zend_hash_quick_update (arKey b) (h b) (data_value (pData b)) size
                 else zend_hash_index_update (h b) (data_value (pData b)) size);
              run_copy_ctor ctor new_entry;;
              copy_loop fuel' src setTargetPointer ctor size (pListNext b)
          end
      end
  end.
Definition zend_hash_copy (src : hstate V W) (ctor : option (V -> W -> V * W)) (size : Z)
    : M (hstate V W) unit :=
  s ← get_st;
  let setTargetPointer := bool_decide (pInternalPointer (ht s) = None) in
  copy_loop (walk_fuel src) src setTargetPointer ctor size (pListHead (ht src));;
  s ← get_st;
  match pInternalPointer (ht s) with
  | None => set_ht (set_pInternalPointer (pListHead (ht s)))
  | Some _ => mret tt
  end.

Fixpoint merge_loop (fuel : nat) (src : hstate V W) (ctor : option (V -> W -> V * W))
    (size mode : Z) (p : ptr) : M (hstate V W) unit :=
  match fuel with
  | O => throw OutOfFuel
  | S fuel' =>
      match p with
      | None => mret tt
      | Some _ =>
          match deref p src with
          | Err e => throw e
          | Ok b =>
              (if 0 <? nKeyLength b then
                 '(r, t) ← zend_hash_quick_add_or_update (arKey b) (h b)
                             (data_value (pData b)) size mode;
                 if r =? SUCCESS then run_copy_ctor ctor t else mret tt
               else
                 there ← (if mode =? HASH_UPDATE then mret 0
                          else reading (zend_hash_index_exists (h b)));
                 if (mode =? HASH_UPDATE) || (there =? 0) then
                   '(r, t) ← zend_hash_index_update (h b) (data_value (pData b)) size;
                   if r =? SUCCESS then run_copy_ctor ctor t else mret tt
                 else mret tt);;
              merge_loop fuel' src ctor size mode (pListNext b)
          end
      end
  end.
Definition zend_hash_merge (src : hstate V W) (ctor : option (V -> W -> V * W))
    (size : Z) (overwrite : bool) : M (hstate V W) unit :=
  let mode := if overwrite then HASH_UPDATE else HASH_ADD in
  merge_loop (walk_fuel src) src ctor size mode (pListHead (ht src));;
  s ← get_st;
  set_ht (set_pInternalPointer (pListHead (ht s))).

(** [zend_hash_replace_checker_wrapper]: the checker is asked about the
    target as it is, the source's data and key. *)
Definition zend_hash_replace_checker_wrapper
    (checker : hstate V W -> V -> zend_hash_key -> bool) (p : Bucket V) (s : hstate V W) : bool :=
  checker s (data_value (pData p)) (HashKey (arKey p) (nKeyLength p) (h p)).
Fixpoint merge_ex_loop (fuel : nat) (src : hstate V W) (ctor : option (V -> W -> V * W))
    (size : Z) (checker : hstate V W -> V -> zend_hash_key -> bool) (p : ptr)
    : M (hstate V W) unit :=
  match fuel with
  | O => throw OutOfFuel
  | S fuel' =>
      match p with
      | None => mret tt
      | Some _ =>
          match deref p src with
          | Err e => throw e
          | Ok b =>
              s ← get_st;
              (if zend_hash_replace_checker_wrapper checker b s then
                 '(r, t) ← zend_hash_quick_update (take (Z.to_nat (nKeyLength b)) (arKey b)) (h b)
                             (data_value (pData b)) size;
                 if r =? SUCCESS then run_copy_ctor ctor t else mret tt
               else mret tt);;
              merge_ex_loop fuel' src ctor size checker (pListNext b)
          end
      end
  end.
Definition zend_hash_merge_ex (src : hstate V W) (ctor : option (V -> W -> V * W))
    (size : Z) (checker : hstate V W -> V -> zend_hash_key -> bool) : M (hstate V W) unit :=
  merge_ex_loop (walk_fuel src) src ctor size checker (pListHead (ht src));;
  s ← get_st;
  set_ht (set_pInternalPointer (pListHead (ht s))).

(** ** Traversal

    A position argument [pos] is [None] for the table's own
    [pInternalPointer]; otherwise the position is the caller's variable,
    passed in and returned. *)

Record HashPointer : Type := mkHashPointer { hp_pos : ptr; hp_h : Z }.

Definition zend_hash_get_pointer (s : hstate V W) : res (Z * HashPointer) :=
  match pInternalPointer (ht s) with
  | Some a =>
      match deref (Some a) s with
      | Ok b => Ok (1, mkHashPointer (Some a) (h b))
      | Err e => Err e
      end
  | None => Ok (0, mkHashPointer None 0)
  end.

(** The walk [while (p != NULL) { if (p == ptr->pos) ...; p = p->pNext; }]. *)
Fixpoint chain_has (fuel : nat) (pos p : ptr) (s : hstate V W) : res bool :=
  match fuel with
  | O => Err OutOfFuel
  | S fuel' =>
      match p with
      | None => Ok false
      | Some _ =>
          if decide (p = pos) then Ok true
          else match deref p s with
               | Err e => Err e
               | Ok b => chain_has fuel' pos (pNext b) s
               end
      end
  end.
Definition zend_hash_set_pointer (hp : HashPointer) : M (hstate V W) Z :=
  s ← get_st;
  match hp_pos hp with
  | None => set_ht (set_pInternalPointer None);; mret 1
  | Some _ =>
      if decide (pInternalPointer (ht s) = hp_pos hp) then mret 1
      else
        p ← reading (arBuckets_at (Z.land (hp_h hp) (nTableMask (ht s))));
        there ← reading (chain_has (walk_fuel s) (hp_pos hp) p);
        if (there : bool) then set_ht (set_pInternalPointer (hp_pos hp));; mret 1
        else mret 0
  end.

Definition zend_hash_internal_pointer_reset_ex (pos : option ptr)
    : M (hstate V W) (option ptr) :=
  s ← get_st;
  match pos with
  | Some _ => mret (Some (pListHead (ht s)))
  | None => set_ht (set_pInternalPointer (pListHead (ht s)));; mret None
  end.
Definition zend_hash_internal_pointer_end_ex (pos : option ptr)
    : M (hstate V W) (option ptr) :=
  s ← get_st;
  match pos with
  | Some _ => mret (Some (pListTail (ht s)))
  | None => set_ht (set_pInternalPointer (pListTail (ht s)));; mret None
  end.

(** [*current = ...] with [current = pos ? pos : &ht->pInternalPointer]. *)
Definition store_position (pos : option ptr) (p : ptr) : M (hstate V W) (option ptr) :=
  match pos with
  | Some _ => mret (Some p)
  | None => set_ht (set_pInternalPointer p);; mret None
  end.
Definition position (pos : option ptr) (s : hstate V W) : ptr :=
  match pos with Some p => p | None => pInternalPointer (ht s) end.

Definition zend_hash_move_forward_ex (pos : option ptr)
    : M (hstate V W) (Z * option ptr) :=
  s ← get_st;
  match position pos s with
  | Some a =>
      b ← reading (deref (Some a));
      pos ← store_position pos (pListNext b);
      mret (SUCCESS, pos)
  | None => mret (FAILURE, pos)
  end.
Definition zend_hash_move_backwards_ex (pos : option ptr)
    : M (hstate V W) (Z * option ptr) :=
  s ← get_st;
  match position pos s with
  | Some a =>
      b ← reading (deref (Some a));
      pos ← store_position pos (pListLast b);
      mret (SUCCESS, pos)
  | None => mret (FAILURE, pos)
  end.

(** The key of the current element: [str_index], [str_length], [num_index]
    are returned as they are set. *)
Definition zend_hash_get_current_key_ex (duplicate : bool) (pos : option ptr)
    (s : hstate V W) : res (Z * option (list byte * Z) * option Z) :=
  match position pos s with
  | Some a =>
      match deref (Some a) s with
      | Err e => Err e
      | Ok b =>
          if negb (nKeyLength b =? 0) then
            let str := if duplicate then take (Z.to_nat (nKeyLength b - 1)) (arKey b)
                       else arKey b in
            Ok (HASH_KEY_IS_STRING, Some (str, nKeyLength b), None)
          else Ok (HASH_KEY_IS_LONG, None, Some (h b))
      end
  | None => Ok (HASH_KEY_NON_EXISTANT, None, None)
  end.
Definition zend_hash_get_current_key_type_ex (pos : option ptr) (s : hstate V W) : res Z :=
  match position pos s with
  | Some a =>
      match deref (Some a) s with
      | Err e => Err e
      | Ok b => Ok (if negb (nKeyLength b =? 0) then HASH_KEY_IS_STRING else HASH_KEY_IS_LONG)
      end
  | None => Ok HASH_KEY_NON_EXISTANT
  end.
Definition zend_hash_get_current_data_ex (pos : option ptr) (s : hstate V W) : Z * ptr :=
  match position pos s with
  | Some a => (SUCCESS, Some a)
  | None => (FAILURE, None)
  end.

(** ** Changing the key of the current element *)

(** [while (r) { if (r == q) ...; r = r->pListLast; }] from [p->pListLast]. *)
Fixpoint comes_before (fuel : nat) (q r : ptr) (s : hstate V W) : res bool :=
  match fuel with
  | O => Err OutOfFuel
  | S fuel' =>
      match r with
      | None => Ok false
      | Some _ =>
          if decide (r = q) then Ok true
          else match deref r s with
               | Err e => Err e
               | Ok b => comes_before fuel' q (pListLast b) s
               end
      end
  end.

(** [p] gives way to a block of another size that keeps its data and its
    place in the order. *)
Definition replace_bucket (p : ptr) (str_length : Z) (pos : option ptr)
    : M (hstate V W) (ptr * option ptr) :=
  s ← get_st;
  b ← reading (deref p);
  match alloc (buckets s) (sizeof_Bucket - 1 + str_length) with
  | None => throw NullDeref
  | Some a =>
      let q := Some a in
      modify (upd_heap (<[a := raw_bucket (pData b)]>));;
      assign q (set_nKeyLength str_length);;
      assign q (set_pListNext (pListNext b));;
      assign q (set_pListLast (pListLast b));;
      (match pListNext b with
       | Some _ => assign (pListNext b) (set_pListLast q)
       | None => set_ht (set_pListTail q)
       end);;
      (match pListLast b with
       | Some _ => assign (pListLast b) (set_pListNext q)
       | None => set_ht (set_pListHead q)
       end);;
      (if decide (pInternalPointer (ht s) = p)
       then set_ht (set_pInternalPointer q) else mret tt);;
      release p;;
      mret (q, match pos with Some _ => Some q | None => None end)
  end.

(** The bucket [p] leaves its chain, whatever its key. *)
Definition leave_chain (p : ptr) : M (hstate V W) unit :=
  s ← get_st;
  b ← reading (deref p);
  assign_if (pNext b) (set_pLast (pLast b));;
  match pLast b with
  | Some _ => assign (pLast b) (set_pNext (pNext b))
  | None => set_arBuckets_at (Z.land (h b) (nTableMask (ht s))) (pNext b)
  end.

(** Deletion of a bucket reached otherwise than by its chain. *)
Definition delete_bucket (p : ptr) : M (hstate V W) unit :=
  s ← get_st;
  b ← reading (deref p);
  unlink_chain (Z.land (h b) (nTableMask (ht s))) p;;
  unlink_global p;;
  destroy_bucket p;;
  decrement_count.

(** From the removal of [p] from its chain on. *)
Definition rekey (p : ptr) (key_type : Z) (str : list byte) (num_index : Z)
    (pos : option ptr) : M (hstate V W) (Z * option ptr) :=
  let str_length := Z.of_nat (length str) in
  leave_chain p;;
  b ← reading (deref p);
  '(p, pos) ← (if negb (nKeyLength b =? str_length)
               then replace_bucket p str_length pos else mret (p, pos));
  (if key_type =? HASH_KEY_IS_LONG then assign p (set_h num_index)
   else assign p (set_arKey str);; assign p (set_h (zend_inline_hash_func str)));;
  b ← reading (deref p);
  s ← get_st;
  let nIndex := Z.land (h b) (nTableMask (ht s)) in
  hd ← reading (arBuckets_at nIndex);
  CONNECT_TO_BUCKET_DLLIST p hd;;
  set_arBuckets_at nIndex p;;
  mret (SUCCESS, pos).

(** With the other bucket [q] that has the key, if there is one. *)
Definition update_key_conflict (p q : ptr) (key_type : Z) (str : list byte)
    (num_index mode : Z) (pos : option ptr) : M (hstate V W) (Z * option ptr) :=
  match q with
  | None => rekey p key_type str num_index pos
  | Some _ =>
      s ← get_st;
      b ← reading (deref p);
      before ← (if mode =? HASH_UPDATE_KEY_ANYWAY then mret false
                else reading (comes_before (walk_fuel s) q (pListLast b)));
      let found := if (before : bool) then HASH_UPDATE_KEY_IF_AFTER
                   else HASH_UPDATE_KEY_IF_BEFORE in
      if negb (mode =? HASH_UPDATE_KEY_ANYWAY) && has_flag mode found
      then delete_bucket p;; mret (FAILURE, pos)
      else delete_bucket q;; rekey p key_type str num_index pos
  end.

Definition zend_hash_update_current_key_ex (key_type : Z) (str : list byte)
    (num_index mode : Z) (pos : option ptr) : M (hstate V W) (Z * option ptr) :=
  s ← get_st;
  match position pos s with
  | None => mret (FAILURE, pos)
  | Some a =>
      let p := Some a in
      b ← reading (deref p);
      if key_type =? HASH_KEY_IS_LONG then
        if (nKeyLength b =? 0) && (h b =? num_index) then mret (SUCCESS, pos)
        else
          q ← reading (chain_find (Z.land num_index (nTableMask (ht s))) (is_index num_index));
          update_key_conflict p q key_type [] num_index mode pos
      else if key_type =? HASH_KEY_IS_STRING then
        if (nKeyLength b =? Z.of_nat (length str)) &&
           (memcmp (arKey b) str (length str) =? 0) then mret (SUCCESS, pos)
        else
          let hv := zend_inline_hash_func str in
          q ← reading (chain_find (Z.land hv (nTableMask (ht s))) (is_key hv str));
          update_key_conflict p q key_type str num_index mode pos
      else mret (FAILURE, pos)
  end.

(** ** Sorting, comparing, extrema *)

(** The addresses of the buckets in order: the array [arTmp]. *)
Fixpoint collect (fuel : nat) (p : ptr) (s : hstate V W) : res (list addr) :=
  match fuel with
  | O => Err OutOfFuel
  | S fuel' =>
      match p with
      | None => Ok []
      | Some a =>
          match deref p s with
          | Err e => Err e
          | Ok b => match collect fuel' (pListNext b) s with
                    | Ok l => Ok (a :: l)
                    | Err e => Err e
                    end
          end
      end
  end.

(** [arTmp[j]->pListLast = arTmp[j-1]; arTmp[j]->pListNext = arTmp[j+1];]
    for each [j], with NULL at the two ends. *)
Fixpoint relink (prev : ptr) (arTmp : list addr) : M (hstate V W) unit :=
  match arTmp with
  | [] => mret tt
  | a :: rest =>
      assign (Some a) (set_pListLast prev);;
      assign (Some a) (set_pListNext (head_ptr rest None));;
      relink (Some a) rest
  end.

(** [p->nKeyLength = 0; p->h = i++;] *)
Fixpoint renumber_loop (fuel : nat) (i : Z) (p : ptr) : M (hstate V W) Z :=
  match fuel with
  | O => throw OutOfFuel
  | S fuel' =>
      match p with
      | None => mret i
      | Some _ =>
          assign p (set_nKeyLength 0);;
          assign p (set_h (u64 i));;
          b ← reading (deref p);
          renumber_loop fuel' (i + 1) (pListNext b)
      end
  end.

(** [compar] as the sort calls it, on the elements of [arTmp].  They all
    point to buckets; a pointer that did not would come first. *)
Definition compar_at (compar : Bucket V -> Bucket V -> Z) (s : hstate V W) (a1 a2 : addr) : Z :=
  match buckets s !! a1, buckets s !! a2 with
  | Some b1, Some b2 => compar b1 b2
  | None, Some _ => -1
  | Some _, None => 1
  | None, None => 0
  end.

Definition zend_hash_sort (sort_func : (addr -> addr -> Z) -> list addr -> res (list addr))
    (compar : Bucket V -> Bucket V -> Z) (renumber : bool) : M (hstate V W) Z :=
  s ← get_st;
  if negb (1 <? nNumOfElements (ht s)) && negb (renumber && (0 <? nNumOfElements (ht s)))
  then mret SUCCESS
  else if negb (mem_ok (buckets s) (nNumOfElements (ht s) * sizeof_ptr)) then mret FAILURE
  else
    arTmp ← reading (collect (walk_fuel s) (pListHead (ht s)));
    if nNumOfElements (ht s) <? Z.of_nat (length arTmp) then throw OutOfBounds
    else
      arTmp ← reading (fun _ => sort_func (compar_at compar s) arTmp);
      match arTmp with
      | [] => throw OutOfBounds
      | a0 :: _ =>
          set_ht (set_pListHead (Some a0));;
          set_ht (set_pListTail None);;
          set_ht (set_pInternalPointer (Some a0));;
          relink None arTmp;;
          set_ht (set_pListTail (last_ptr None arTmp));;
          if renumber then
            s ← get_st;
            i ← renumber_loop (walk_fuel s) 0 (pListHead (ht s));
            set_ht (set_nNextFreeElement (u64 i));;
            zend_hash_rehash;;
            mret SUCCESS
          else mret SUCCESS
      end.

(** The loop of [zend_hash_compare], between the protections. *)
Fixpoint compare_loop (fuel : nat) (compar : V -> V -> Z) (ordered : bool)
    (s1 s2 : hstate V W) (p1 p2 : ptr) : res Z :=
  match fuel with
  | O => Err OutOfFuel
  | S fuel' =>
      match p1 with
      | None => Ok 0
      | Some _ =>
          b1 ← deref p1 s1;
          if ordered && bool_decide (p2 = None) then Ok 1
          else
            '(early, other) ←
              (if ordered then
                 b2 ← deref p2 s2;
                 if (nKeyLength b1 =? 0) && (nKeyLength b2 =? 0) then
                   Ok (s32 (u64 (h b1 - h b2)), p2)
                 else
                   let result := s32 (u32 (nKeyLength b1 - nKeyLength b2)) in
                   if negb (result =? 0) then Ok (result, p2)
                   else Ok (memcmp (arKey b1) (arKey b2) (Z.to_nat (nKeyLength b1)), p2)
               else
                 q ← (if nKeyLength b1 =? 0 then zend_hash_index_find (h b1) s2
                      else zend_hash_quick_find (arKey b1) (h b1) s2);
                 match q with
                 | None => Ok (1, None)
                 | Some _ => Ok (0, q)
                 end);
            if negb (early =? 0) then Ok early
            else
              d2 ← deref other s2;
              let result := compar (data_value (pData b1)) (data_value (pData d2)) in
              if negb (result =? 0) then Ok result
              else
                p2' ← (if ordered then b2 ← deref p2 s2; Ok (pListNext b2) else Ok p2);
                compare_loop fuel' compar ordered s1 s2 (pListNext b1) p2'
      end
  end.

Definition zend_hash_compare (compar : V -> V -> Z) (ordered : bool) (s1 s2 : hstate V W)
    : res (Z * hstate V W * hstate V W) :=
  '(_, s1) ← HASH_PROTECT_RECURSION s1;
  '(_, s2) ← HASH_PROTECT_RECURSION s2;
  let result := s32 (u32 (nNumOfElements (ht s1) - nNumOfElements (ht s2))) in
  result ←
    (if negb (result =? 0) then Ok result
     else compare_loop (walk_fuel s1) compar ordered s1 s2 (pListHead (ht s1))
            (if ordered then pListHead (ht s2) else None));
  '(_, s1) ← HASH_UNPROTECT_RECURSION s1;
  '(_, s2) ← HASH_UNPROTECT_RECURSION s2;
  Ok (result, s1, s2).

(** [flag] asks for the maximum; the comparison is between buckets. *)
Fixpoint minmax_loop (fuel : nat) (compar : Bucket V -> Bucket V -> Z) (flag : bool)
    (res_ p : ptr) (s : hstate V W) : res ptr :=
  match fuel with
  | O => Err OutOfFuel
  | S fuel' =>
      match p with
      | None => Ok res_
      | Some _ =>
          br ← deref res_ s;
          bp ← deref p s;
          let better := if flag then compar br bp <? 0 else 0 <? compar br bp in
          minmax_loop fuel' compar flag (if better then p else res_) (pListNext bp) s
      end
  end.
Definition zend_hash_minmax (compar : Bucket V -> Bucket V -> Z) (flag : bool)
    (s : hstate V W) : res (Z * ptr) :=
  if nNumOfElements (ht s) =? 0 then Ok (FAILURE, None)
  else
    b ← deref (pListHead (ht s)) s;
    r ← minmax_loop (walk_fuel s) compar flag (pListHead (ht s)) (pListNext b) s;
    Ok (SUCCESS, r).
End Operations.

(** ** Numeric string keys *)

Definition byte_at (key : list byte) (i : Z) : res Z :=
  if i <? 0 then Err OutOfBounds
  else match key !! Z.to_nat i with
       | Some c => Ok (uc c)
       | None => Err OutOfBounds
       end.
Definition is_digit (c : Z) : bool := (48 <=? c) && (c <=? 57).

(** [while (++tmp != end && *tmp >= '0' && *tmp <= '9')]: the index and
    where [tmp] stops. *)
Fixpoint numeric_loop (fuel : nat) (key : list byte) (tmp end_ idx : Z) : res (Z * Z) :=
  match fuel with
  | O => Err OutOfFuel
  | S fuel' =>
      let tmp := tmp + 1 in
      if tmp =? end_ then Ok (idx, tmp)
      else
        c ← byte_at key tmp;
        if is_digit c then numeric_loop fuel' key tmp end_ (u64 (u64 (idx * 10) + (c - 48)))
        else Ok (idx, tmp)
  end.

(** [ZEND_HANDLE_NUMERIC(key, length, func)]: the index [func] is called
    with, or nothing when the macro falls through ([SIZEOF_LONG] is 8). *)
Definition ZEND_HANDLE_NUMERIC (key : list byte) : res (option Z) :=
  let length := Z.of_nat (length key) in
  c0 ← byte_at key 0;
  let tmp := if c0 =? 45 then 1 else 0 in
  ct ← byte_at key tmp;
  if is_digit ct then
    let end_ := length - 1 in
    ce ← byte_at key end_;
    if negb (ce =? 0) || ((ct =? 48) && (2 <? length)) ||
       (MAX_LENGTH_OF_LONG - 1 <? end_ - tmp)
    then Ok None
    else
      '(idx, tmp) ← numeric_loop (Z.to_nat length) key tmp end_ (ct - 48);
      if tmp =? end_ then
        if c0 =? 45 then
          if LONG_MAX <? u64 (idx - 1) then Ok None else Ok (Some (u64 (0 - idx)))
        else if LONG_MAX <? idx then Ok None
        else Ok (Some idx)
      else Ok None
  else Ok None.

Section Symtable.
Context {V W : Type} `{Allocator}.

(** The function called on the index, or on the string. *)
Definition numeric_or_string {A} (key : list byte) (on_index : Z -> A) (on_string : A)
    (bad : fault -> A) : A :=
  match ZEND_HANDLE_NUMERIC key with
  | Ok (Some idx) => on_index idx
  | Ok None => on_string
  | Err e => bad e
  end.

Definition zend_symtable_update (key : list byte) (v : V) (nDataSize : Z)
    : M (hstate V W) (Z * ptr) :=
  numeric_or_string key (fun idx => zend_hash_index_update idx v nDataSize)
    (zend_hash_update key v nDataSize) throw.
Definition zend_symtable_del (key : list byte) : M (hstate V W) Z :=
  numeric_or_string key zend_hash_index_del (zend_hash_del key) throw.
Definition zend_symtable_find (key : list byte) (s : hstate V W) : res ptr :=
  numeric_or_string key (fun idx => zend_hash_index_find idx s) (zend_hash_find key s) Err.
Definition zend_symtable_exists (key : list byte) (s : hstate V W) : res Z :=
  numeric_or_string key (fun idx => zend_hash_index_exists idx s) (zend_hash_exists key s) Err.
Definition zend_symtable_update_current_key_ex (key : list byte) (mode : Z) (pos : option ptr)
    : M (hstate V W) (Z * option ptr) :=
  numeric_or_string key
    (fun idx => zend_hash_update_current_key_ex HASH_KEY_IS_LONG [] idx mode pos)
    (zend_hash_update_current_key_ex HASH_KEY_IS_STRING key 0 mode pos) throw.
End Symtable.
