(* ===== verification/ZendHashInv.v ===== *)
(** * The hash table's invariant and its abstraction

    [repr s l kvs]: the state [s] is a well-formed table whose buckets, in
    insertion order, are at the addresses [l] and hold the entries [kvs].
    The global list and the collision chains are treated separately: a step
    on one of them is framed over the other ([chain_frame], [order_frame]). *)

From S2P Require Import Prelude Dll ZendHash.
Open Scope Z_scope.

(** ** Abstract keys and entries *)

Inductive hkey : Set :=
  | KInt (i : Z)
  | KStr (k : list byte).

#[global] Instance hkey_eq_dec : EqDecision hkey.
Proof. solve_decision. Defined.

Definition hash_of (k : hkey) : Z :=
  match k with KInt i => i | KStr s => zend_inline_hash_func s end.

(** The keys the API can be asked for. *)
Definition valid_key (k : hkey) : Prop :=
  match k with KInt i => 0 <= i < 2 ^ 64 | KStr s => s <> [] end.

(** ** The hash function: the unrolled loop is the plain one *)

Lemma unrolled_loop_fold (step : Z -> byte -> Z) (key : list byte) :
  forall hash, zend_inline_hash_loop step hash key = fold_left step key hash.
Proof.
  remember (length key) as n eqn:Hn. revert key Hn.
  induction n as [n IH] using lt_wf_ind. intros key -> hash.
  destruct key as [|c1 [|c2 [|c3 [|c4 [|c5 [|c6 [|c7 [|c8 rest]]]]]]]]; try done.
  cbn [zend_inline_hash_loop fold_left]. apply (IH (length rest)); [simpl; lia|reflexivity].
Qed.

Lemma hash_func_fold (key : list byte) :
  zend_inline_hash_func key = fold_left hash_step key 5381.
Proof. apply unrolled_loop_fold. Qed.

Lemma hash_func_range (key : list byte) : 0 <= zend_inline_hash_func key < 2 ^ 64.
Proof.
  rewrite hash_func_fold. induction key as [|c key IH] using rev_ind; [simpl; lia|].
  rewrite fold_left_app. apply u64_range.
Qed.

Section Inv.
Context {V W : Type} `{Allocator}.
Implicit Types (s : hstate V W) (b : Bucket V) (m : gmap addr (Bucket V)) (l : list addr)
  (kvs : list (hkey * V)) (arr : list ptr).

Definition bucket_key b : hkey :=
  if nKeyLength b =? 0 then KInt (h b) else KStr (arKey b).
Definition entry b : hkey * V := (bucket_key b, data_value (pData b)).

Definition bucket_ok b : Prop :=
  0 <= h b < 2 ^ 64 /\
  (nKeyLength b <> 0 ->
   nKeyLength b = Z.of_nat (length (arKey b)) /\ h b = zend_inline_hash_func (arKey b)).

(** The bucket at [a] is a good one and holds the entry [kv]. *)
Definition holds m (a : addr) (kv : hkey * V) : Prop :=
  exists b, m !! a = Some b /\ bucket_ok b /\ entry b = kv.

(** The array and the chains, for the buckets [l]. *)
Definition chain_of m (mask : Z) l (i : nat) (c : list addr) : Prop :=
  seg chain_links m None c None /\ NoDup c /\
  forall a, a ∈ c <-> a ∈ l /\ exists b, m !! a = Some b /\ Z.land (h b) mask = Z.of_nat i.
Definition chains m arr (mask : Z) l : Prop :=
  forall i p, arr !! i = Some p -> exists c, p = head_ptr c None /\ chain_of m mask l i c.

(** Heaps equal but for the chain links, or but for the order links. *)
Definition strip_chain b := set_pNext None (set_pLast None b).
Definition strip_order b := set_pListNext None (set_pListLast None b).
Definition chain_frame m m' : Prop :=
  forall a, strip_chain <$> m' !! a = strip_chain <$> m !! a.
Definition order_frame m m' : Prop :=
  forall a, strip_order <$> m' !! a = strip_order <$> m !! a.

(** A table size and its mask. *)
Definition size_ok (t : HashTable V W) : Prop :=
  (exists k, 3 <= k <= 31 /\ nTableSize t = 2 ^ k) /\
  nTableMask t = nTableSize t - 1 /\
  length (arBuckets t) = Z.to_nat (nTableSize t).

(** [reprn s l kvs n]: the element count is [n], as it is in the middle of an
    operation; [repr] has the count of the entries (a [uint]). *)
Record reprn s l kvs (n : Z) : Prop := {
  r_size : size_ok (ht s);
  r_nodup : NoDup l;
  r_dom : forall a, is_Some (buckets s !! a) -> a ∈ l;
  r_order : seg order_links (buckets s) None l None;
  r_head : pListHead (ht s) = head_ptr l None;
  r_tail : pListTail (ht s) = last_ptr None l;
  r_chains : chains (buckets s) (arBuckets (ht s)) (nTableMask (ht s)) l;
  r_holds : Forall2 (holds (buckets s)) l kvs;
  r_keys : NoDup kvs.*1;
  r_count : nNumOfElements (ht s) = n;
  r_cursor : forall a, pInternalPointer (ht s) = Some a -> a ∈ l
}.
Definition repr s l kvs : Prop := reprn s l kvs (u32 (Z.of_nat (length l))).

(** The fields that only the initialisation functions set. *)
Definition same_config s s' : Prop :=
  pDestructor (ht s') = pDestructor (ht s) /\ persistent (ht s') = persistent (ht s) /\
  nApplyCount (ht s') = nApplyCount (ht s) /\
  bApplyProtection (ht s') = bApplyProtection (ht s).

(** ** The abstract table: an association list in insertion order *)

Fixpoint kv_lookup (k : hkey) kvs : option V :=
  match kvs with
  | [] => None
  | (k', v) :: kvs' => if decide (k' = k) then Some v else kv_lookup k kvs'
  end.
Fixpoint kv_update (k : hkey) (v : V) kvs : list (hkey * V) :=
  match kvs with
  | [] => []
  | (k', v') :: kvs' => if decide (k' = k) then (k', v) :: kvs' else (k', v') :: kv_update k v kvs'
  end.
Fixpoint kv_delete (k : hkey) kvs : list (hkey * V) :=
  match kvs with
  | [] => []
  | (k', v') :: kvs' => if decide (k' = k) then kvs' else (k', v') :: kv_delete k kvs'
  end.
(** Replace in place, or append. *)
Definition kv_set (k : hkey) (v : V) kvs : list (hkey * V) :=
  match kv_lookup k kvs with
  | Some _ => kv_update k v kvs
  | None => kvs ++ [(k, v)]
  end.

Lemma kv_lookup_None k kvs : kv_lookup k kvs = None <-> k ∉ kvs.*1.
Proof.
  induction kvs as [|[k' v] kvs IH]; simpl; [set_solver|].
  case_decide; set_solver.
Qed.
Lemma kv_lookup_split k v kvs1 kvs2 :
  k ∉ kvs1.*1 -> kv_lookup k (kvs1 ++ (k, v) :: kvs2) = Some v.
Proof.
  induction kvs1 as [|[k' v'] kvs1 IH]; simpl; intros Hk; [by rewrite decide_True|].
  rewrite decide_False by set_solver. apply IH. set_solver.
Qed.
Lemma kv_update_split k v v' kvs1 kvs2 :
  k ∉ kvs1.*1 -> kv_update k v (kvs1 ++ (k, v') :: kvs2) = kvs1 ++ (k, v) :: kvs2.
Proof.
  induction kvs1 as [|[k1 v1] kvs1 IH]; simpl; intros Hk; [by rewrite decide_True|].
  rewrite decide_False by set_solver. f_equal. apply IH. set_solver.
Qed.
Lemma kv_delete_split k v' kvs1 kvs2 :
  k ∉ kvs1.*1 -> kv_delete k (kvs1 ++ (k, v') :: kvs2) = kvs1 ++ kvs2.
Proof.
  induction kvs1 as [|[k1 v1] kvs1 IH]; simpl; intros Hk; [by rewrite decide_True|].
  rewrite decide_False by set_solver. f_equal. apply IH. set_solver.
Qed.
Lemma kv_update_keys k v kvs : (kv_update k v kvs).*1 = kvs.*1.
Proof. induction kvs as [|[k' v'] kvs IH]; simpl; [done|]. case_decide; simpl; by f_equal. Qed.

(** ** Frames *)

#[global] Instance chain_frame_preorder : PreOrder chain_frame.
Proof. split; [by intros m a|]. intros m1 m2 m3 H1 H2 a. by rewrite H2. Qed.
#[global] Instance order_frame_preorder : PreOrder order_frame.
Proof. split; [by intros m a|]. intros m1 m2 m3 H1 H2 a. by rewrite H2. Qed.

Lemma chain_frame_lookup m m' a b :
  chain_frame m m' -> m !! a = Some b ->
  exists b', m' !! a = Some b' /\ strip_chain b' = strip_chain b.
Proof.
  intros Hf Hb. specialize (Hf a). rewrite Hb in Hf.
  destruct (m' !! a) as [b'|]; [|done]. exists b'. split; [done|]. simpl in Hf. congruence.
Qed.
Lemma order_frame_lookup m m' a b :
  order_frame m m' -> m !! a = Some b ->
  exists b', m' !! a = Some b' /\ strip_order b' = strip_order b.
Proof.
  intros Hf Hb. specialize (Hf a). rewrite Hb in Hf.
  destruct (m' !! a) as [b'|]; [|done]. exists b'. split; [done|]. simpl in Hf. congruence.
Qed.

Lemma chain_frame_sym m m' : chain_frame m m' -> chain_frame m' m.
Proof. intros Hf a. by rewrite Hf. Qed.
Lemma order_frame_sym m m' : order_frame m m' -> order_frame m' m.
Proof. intros Hf a. by rewrite Hf. Qed.

Lemma chain_frame_is_Some m m' a :
  chain_frame m m' -> is_Some (m' !! a) <-> is_Some (m !! a).
Proof. intros Hf. rewrite <- (fmap_is_Some strip_chain), (Hf a). by rewrite fmap_is_Some. Qed.
Lemma order_frame_is_Some m m' a :
  order_frame m m' -> is_Some (m' !! a) <-> is_Some (m !! a).
Proof. intros Hf. rewrite <- (fmap_is_Some strip_order), (Hf a). by rewrite fmap_is_Some. Qed.

Lemma chain_frame_insert m a b b' :
  m !! a = Some b -> strip_chain b' = strip_chain b -> chain_frame m (<[a := b']> m).
Proof.
  intros Hb He x. rewrite lookup_insert. case_decide; [subst; rewrite Hb; simpl; by rewrite He|done].
Qed.
Lemma order_frame_insert m a b b' :
  m !! a = Some b -> strip_order b' = strip_order b -> order_frame m (<[a := b']> m).
Proof.
  intros Hb He x. rewrite lookup_insert. case_decide; [subst; rewrite Hb; simpl; by rewrite He|done].
Qed.
Lemma chain_frame_opt_alter m p f :
  (forall b, strip_chain (f b) = strip_chain b) -> chain_frame m (opt_alter p f m).
Proof.
  intros Hf x. destruct p as [a|]; [|done]. simpl. rewrite lookup_alter.
  case_decide; [|done]. subst. destruct (m !! x); [|done]. simpl. by rewrite Hf.
Qed.
Lemma order_frame_opt_alter m p f :
  (forall b, strip_order (f b) = strip_order b) -> order_frame m (opt_alter p f m).
Proof.
  intros Hf x. destruct p as [a|]; [|done]. simpl. rewrite lookup_alter.
  case_decide; [|done]. subst. destruct (m !! x); [|done]. simpl. by rewrite Hf.
Qed.

(** Equality up to links means equality of everything else. *)
Lemma strip_chain_inv b b' :
  strip_chain b' = strip_chain b ->
  h b' = h b /\ nKeyLength b' = nKeyLength b /\ pData b' = pData b /\ arKey b' = arKey b /\
  pListNext b' = pListNext b /\ pListLast b' = pListLast b.
Proof. destruct b, b'. unfold strip_chain, set_pNext, set_pLast. simpl. intros [=]. by subst. Qed.
Lemma strip_order_inv b b' :
  strip_order b' = strip_order b ->
  h b' = h b /\ nKeyLength b' = nKeyLength b /\ pData b' = pData b /\ arKey b' = arKey b /\
  pNext b' = pNext b /\ pLast b' = pLast b.
Proof.
  destruct b, b'. unfold strip_order, set_pListNext, set_pListLast. simpl. intros [=]. by subst.
Qed.

Lemma holds_payload m m' a kv :
  (forall b, m !! a = Some b -> exists b', m' !! a = Some b' /\ h b' = h b /\
     nKeyLength b' = nKeyLength b /\ pData b' = pData b /\ arKey b' = arKey b) ->
  holds m a kv -> holds m' a kv.
Proof.
  intros Hf (b & Hb & Hok & He). destruct (Hf b Hb) as (b' & Hb' & H1 & H2 & H3 & H4).
  exists b'. split; [done|]. unfold bucket_ok, entry, bucket_key in *.
  by rewrite H1, H2, H3, H4.
Qed.
Lemma holds_chain_frame m m' a kv : chain_frame m m' -> holds m a kv -> holds m' a kv.
Proof.
  intros Hf. apply holds_payload. intros b Hb.
  destruct (chain_frame_lookup _ _ _ _ Hf Hb) as (b' & ? & ?%strip_chain_inv). naive_solver.
Qed.
Lemma holds_order_frame m m' a kv : order_frame m m' -> holds m a kv -> holds m' a kv.
Proof.
  intros Hf. apply holds_payload. intros b Hb.
  destruct (order_frame_lookup _ _ _ _ Hf Hb) as (b' & ? & ?%strip_order_inv). naive_solver.
Qed.
Lemma holds_insert_ne m a a' b kv : a <> a' -> holds m a' kv -> holds (<[a := b]> m) a' kv.
Proof.
  intros Hne. apply holds_payload. intros b' Hb'. exists b'. by rewrite lookup_insert_ne.
Qed.
Lemma holds_delete_ne m a a' kv : a <> a' -> holds m a' kv -> holds (delete a m) a' kv.
Proof.
  intros Hne. apply holds_payload. intros b' Hb'. exists b'. by rewrite lookup_delete_ne.
Qed.

Lemma order_seg_chain_frame m m' p l n :
  chain_frame m m' -> seg order_links m p l n -> seg order_links m' p l n.
Proof.
  intros Hf. apply seg_ext. intros a _. specialize (Hf a).
  destruct (m' !! a), (m !! a); try done. simpl in *. apply (inj Some), strip_chain_inv in Hf.
  naive_solver (congruence).
Qed.

(** [chains] reads the chain links and hash values of its own buckets. *)
Lemma chains_ext m m' arr mask l :
  (forall a, a ∈ l -> (fun b => (pNext b, pLast b, h b)) <$> m' !! a
                 = (fun b => (pNext b, pLast b, h b)) <$> m !! a) ->
  chains m arr mask l -> chains m' arr mask l.
Proof.
  intros He Hc i p Hp. destruct (Hc i p Hp) as (c & -> & Hs & Hnd & Hin).
  exists c. split; [done|]. split_and!; [|done|].
  - eapply seg_ext; [|done]. intros a [Ha _]%Hin. specialize (He a Ha).
    destruct (m' !! a), (m !! a); simpl in *; congruence.
  - intros a. rewrite Hin. split; intros [Ha (b & Hb & Hm)]; (split; [done|]);
      specialize (He a Ha); rewrite Hb in He;
      [destruct (m' !! a) as [b'|] eqn:Hb'|destruct (m !! a) as [b'|] eqn:Hb'];
      try done; exists b'; split; simpl in He; congruence.
Qed.
Lemma chains_order_frame m m' arr mask l :
  order_frame m m' -> chains m arr mask l -> chains m' arr mask l.
Proof.
  intros Hf. apply chains_ext. intros a _. specialize (Hf a).
  destruct (m' !! a), (m !! a); try done. simpl in *. apply (inj Some), strip_order_inv in Hf.
  naive_solver (congruence).
Qed.
End Inv.
