(* ===== verification/ZendHashSteps.v ===== *)
(** * The hash table's linking steps

    What [CONNECT_TO_BUCKET_DLLIST], [CONNECT_TO_GLOBAL_DLLIST] and the
    unlinking sequences do to the two list structures of a table, as
    equations for the executable steps and lemmas on [chains] and [seg]. *)

From S2P Require Import Prelude Dll ZendHash ZendHashInv.
Open Scope Z_scope.

Section Steps.
Context {V W : Type} `{Allocator}.
Implicit Types (t : HashTable V W) (m : gmap addr (Bucket V)) (w : W) (b : Bucket V)
  (l c : list addr) (arr : list ptr).

(** ** Stepping through the primitive commands *)

Lemma bind_assign {B} a f b t m w (k : unit -> M (hstate V W) B) :
  m !! a = Some b ->
  (assign (Some a) f ≫= k) (HState t m w) = k tt (HState t (<[a := f b]> m) w).
Proof.
  intros Hb. unfold mbind, M_bind, assign. simpl. rewrite Hb. simpl.
  by rewrite (alter_insert _ _ _ _ Hb).
Qed.
Lemma bind_deref {B} a b t m w (k : Bucket V -> M (hstate V W) B) :
  m !! a = Some b ->
  (reading (deref (Some a)) ≫= k) (HState t m w) = k b (HState t m w).
Proof. intros Hb. unfold mbind, M_bind, reading, deref. simpl. by rewrite Hb. Qed.
Lemma bind_set_ht {B} f t m w (k : unit -> M (hstate V W) B) :
  (set_ht f ≫= k) (HState t m w) = k tt (HState (f t) m w).
Proof. done. Qed.
Lemma bind_get {B} t m w (k : hstate V W -> M (hstate V W) B) :
  (get_st ≫= k) (HState t m w) = k (HState t m w) (HState t m w).
Proof. done. Qed.
Lemma bind_arBuckets_at {B} i p t m w (k : ptr -> M (hstate V W) B) :
  arBuckets t !! Z.to_nat i = Some p ->
  (reading (arBuckets_at i) ≫= k) (HState t m w) = k p (HState t m w).
Proof. intros Hp. unfold mbind, M_bind, reading, arBuckets_at. simpl. by rewrite Hp. Qed.
Lemma run_set_arBuckets_at i p t m w :
  is_Some (arBuckets t !! Z.to_nat i) ->
  set_arBuckets_at i p (HState t m w) =
  Ok (tt, HState (set_arBuckets (<[Z.to_nat i := p]> (arBuckets t)) t) m w).
Proof. intros [q Hq]. unfold set_arBuckets_at. simpl. by rewrite Hq. Qed.
Lemma run_assign_if p f t m w :
  (forall a, p = Some a -> is_Some (m !! a)) ->
  assign_if p f (HState t m w) = Ok (tt, HState t (opt_alter p f m) w).
Proof.
  intros Hp. destruct p as [a|]; [|done]. destruct (Hp a eq_refl) as [b Hb].
  unfold assign_if, assign. simpl. by rewrite Hb.
Qed.
Lemma set_pListHead_id t : set_pListHead (pListHead t) t = t.
Proof. by destruct t. Qed.
Lemma set_pInternalPointer_id t : set_pInternalPointer (pInternalPointer t) t = t.
Proof. by destruct t. Qed.

(** ** Chains: inserting *)

Lemma frame_index m m' a (mask z : Z) :
  chain_frame m m' ->
  (exists b, m' !! a = Some b /\ Z.land (h b) mask = z) <->
  (exists b, m !! a = Some b /\ Z.land (h b) mask = z).
Proof.
  intros Hf. split; intros (b & Hb & Hz).
  - destruct (chain_frame_lookup _ _ _ _ (chain_frame_sym _ _ Hf) Hb)
      as (b' & Hb' & (? & _)%strip_chain_inv). exists b'. split; congruence.
  - destruct (chain_frame_lookup _ _ _ _ Hf Hb) as (b' & Hb' & (? & _)%strip_chain_inv).
    exists b'. split; congruence.
Qed.

Definition chain_inserted a (hd : ptr) b m : gmap addr (Bucket V) :=
  opt_alter hd (set_pLast (Some a)) (<[a := set_pLast None (set_pNext hd b)]> m).

Lemma chain_inserted_frame a hd b m :
  m !! a = Some b -> chain_frame m (chain_inserted a hd b m).
Proof.
  intros Hb. etrans; [by eapply (chain_frame_insert _ _ _ (set_pLast None (set_pNext hd b)))|].
  by apply chain_frame_opt_alter.
Qed.

Lemma chain_insert m arr mask l a b i p :
  chains m arr mask l -> a ∉ l -> m !! a = Some b -> arr !! i = Some p ->
  Z.land (h b) mask = Z.of_nat i ->
  chains (chain_inserted a p b m) (<[i := Some a]> arr) mask (l ++ [a]).
Proof.
  intros Hc Ha Hb Hi Hh j q Hq.
  destruct (Hc i p Hi) as (c & -> & Hs & Hnd & Hin).
  pose proof (chain_inserted_frame a (head_ptr c None) b m Hb) as Hf.
  assert (Ha' : a ∉ c) by (intros [??]%Hin; done).
  destruct (decide (j = i)) as [->|Hji].
  - rewrite list_lookup_insert_eq in Hq by (by eapply lookup_lt_Some). simplify_eq.
    exists (a :: c). split; [done|]. split_and!.
    + eapply seg_push_front with (L := chain_links);
        [by apply NoDup_cons|apply lookup_insert_eq|done|done|by apply seg_insert_ne].
    + by apply NoDup_cons.
    + intros x. rewrite (frame_index _ _ _ _ _ Hf), elem_of_cons, Hin, elem_of_app,
        list_elem_of_singleton. naive_solver.
  - rewrite list_lookup_insert_ne in Hq by done.
    destruct (Hc j q Hq) as (c' & -> & Hs' & Hnd' & Hin').
    exists c'. split; [done|].
    assert (Hdis : forall x, x ∈ c -> x ∉ c').
    { intros x (_ & b1 & ? & ?)%Hin (_ & b2 & ? & ?)%Hin'. simplify_eq. lia. }
    split_and!; [|done|].
    + apply seg_opt_alter_ne; [|apply seg_insert_ne; [|done]].
      * intros x Hx%head_ptr_elem. by apply Hdis.
      * intros [??]%Hin'. done.
    + intros x. rewrite (frame_index _ _ _ _ _ Hf), Hin', elem_of_app,
        list_elem_of_singleton. split; [naive_solver|].
      intros [[?| ->] Hx]; [done|]. destruct Hx as (b' & ? & ?). simplify_eq. lia.
Qed.

Lemma run_connect_bucket a hd b t m w :
  m !! a = Some b -> (forall x, hd = Some x -> is_Some (m !! x)) ->
  CONNECT_TO_BUCKET_DLLIST (Some a) hd (HState t m w) =
  Ok (tt, HState t (chain_inserted a hd b m) w).
Proof.
  intros Hb Hhd. unfold CONNECT_TO_BUCKET_DLLIST.
  rewrite (bind_assign _ _ b) by done.
  erewrite bind_assign by apply lookup_insert_eq.
  erewrite bind_deref by apply lookup_insert_eq.
  rewrite insert_insert_eq. simpl. apply run_assign_if.
  intros x Hx. rewrite lookup_insert. case_decide; [done|by apply Hhd].
Qed.

(** ** Chains: removing *)

Definition chain_removed b m : gmap addr (Bucket V) :=
  opt_alter (pNext b) (set_pLast (pLast b)) (opt_alter (pLast b) (set_pNext (pNext b)) m).
Definition arr_removed b (i : nat) arr : list ptr :=
  match pLast b with None => <[i := pNext b]> arr | Some _ => arr end.

Lemma chain_removed_frame b m : chain_frame m (chain_removed b m).
Proof.
  etrans; [by apply (chain_frame_opt_alter _ (pLast b) (set_pNext (pNext b)))|].
  by apply chain_frame_opt_alter.
Qed.

(** The chain a bucket is on, and its neighbours there. *)
Lemma chain_split m arr mask l a b i p :
  chains m arr mask l -> a ∈ l -> m !! a = Some b -> arr !! i = Some p ->
  Z.land (h b) mask = Z.of_nat i ->
  exists c1 c2, p = head_ptr (c1 ++ a :: c2) None /\
    chain_of m mask l i (c1 ++ a :: c2) /\
    pLast b = last_ptr None c1 /\ pNext b = head_ptr c2 None.
Proof.
  intros Hc Ha Hb Hi Hh. destruct (Hc i p Hi) as (c & -> & Hco).
  pose proof Hco as (Hs & Hnd & Hin).
  destruct (elem_of_split c a) as (c1 & c2 & ->); [apply Hin; eauto|].
  exists c1, c2. split; [done|]. split; [done|].
  destruct (seg_mid _ _ _ _ _ _ _ Hs) as (b' & ? & ? & ?). by simplify_eq.
Qed.

Lemma chain_remove m arr mask l1 l2 a b i p :
  chains m arr mask (l1 ++ a :: l2) -> NoDup (l1 ++ a :: l2) ->
  m !! a = Some b -> arr !! i = Some p -> Z.land (h b) mask = Z.of_nat i ->
  chains (chain_removed b m) (arr_removed b i arr) mask (l1 ++ l2).
Proof.
  intros Hc Hnd Hb Hi Hh j q Hq.
  destruct (chain_split _ _ _ _ a _ _ _ Hc ltac:(set_solver) Hb Hi Hh)
    as (c1 & c2 & -> & (Hs & Hcnd & Hin) & Hl & Hn).
  pose proof (chain_removed_frame b m) as Hf.
  pose proof (NoDup_app_mid _ _ _ Hnd) as (Ha1 & Ha2 & _).
  pose proof (NoDup_app_mid _ _ _ Hcnd) as (Hc1 & Hc2 & Hcnd').
  assert (Hel : forall x, x ∈ l1 ++ l2 <-> x ∈ l1 ++ a :: l2 /\ x <> a) by set_solver.
  destruct (decide (j = i)) as [->|Hji].
  - assert (q = head_ptr (c1 ++ c2) None) as ->.
    { unfold arr_removed in Hq. rewrite Hl in Hq. destruct c1 as [|x c1].
      - simpl in Hq. rewrite list_lookup_insert_eq in Hq by (by eapply lookup_lt_Some).
        simplify_eq. done.
      - destruct (last_ptr None (x :: c1)) eqn:E; [|by apply last_ptr_None in E].
        rewrite Hi in Hq. simplify_eq. done. }
    exists (c1 ++ c2). split; [done|]. split_and!; [|done|].
    + unfold chain_removed. rewrite Hl, Hn. by apply (seg_unlink chain_links m c1 a c2).
    + intros x. rewrite (frame_index _ _ _ _ _ Hf), Hel. specialize (Hin x). set_solver.
  - assert (Hq' : arr !! j = Some q).
    { unfold arr_removed in Hq. destruct (pLast b); [done|].
      by rewrite list_lookup_insert_ne in Hq. }
    destruct (Hc j q Hq') as (c' & -> & Hs' & Hnd' & Hin').
    assert (Hdis : forall x, x ∈ c1 ++ a :: c2 -> x ∉ c').
    { intros x (_ & b1 & ? & ?)%Hin (_ & b2 & ? & ?)%Hin'. simplify_eq. lia. }
    exists c'. split; [done|]. split_and!; [|done|].
    + unfold chain_removed. rewrite Hl, Hn.
      apply seg_opt_alter_ne; [|apply seg_opt_alter_ne; [|done]].
      * intros x Hx%head_ptr_elem. apply Hdis. set_solver.
      * intros x Hx%last_ptr_elem. apply Hdis. set_solver.
    + intros x. rewrite (frame_index _ _ _ _ _ Hf), Hel, Hin'.
      assert (a ∉ c') by (apply Hdis; set_solver). rewrite Hin' in H0. naive_solver.
Qed.

(** The neighbours of a linked bucket are live. *)
Lemma chain_neighbours m arr mask l a b i p x :
  chains m arr mask l -> a ∈ l -> m !! a = Some b -> arr !! i = Some p ->
  Z.land (h b) mask = Z.of_nat i ->
  pNext b = Some x \/ pLast b = Some x -> is_Some (m !! x).
Proof.
  intros Hc Ha Hb Hi Hh Hx.
  destruct (chain_split _ _ _ _ _ _ _ _ Hc Ha Hb Hi Hh) as (c1 & c2 & _ & (Hs & _) & Hl & Hn).
  eapply seg_lookup; [done|]. rewrite Hl, Hn in Hx.
  destruct Hx as [Hx%head_ptr_elem|Hx%last_ptr_elem]; set_solver.
Qed.

(** The bucket heads its chain exactly when it has no predecessor. *)
Lemma chain_head_iff m arr mask l a b i p :
  chains m arr mask l -> a ∈ l -> m !! a = Some b -> arr !! i = Some p ->
  Z.land (h b) mask = Z.of_nat i ->
  Some a = p <-> pLast b = None.
Proof.
  intros Hc Ha Hb Hi Hh.
  destruct (chain_split _ _ _ _ _ _ _ _ Hc Ha Hb Hi Hh)
    as (c1 & c2 & -> & (_ & Hnd & _) & -> & _).
  rewrite last_ptr_None. destruct c1 as [|x c1]; [done|]. simpl.
  split; [|done]. intros [= ->]. apply NoDup_cons in Hnd as [Hnd _]. set_solver.
Qed.

Lemma run_unlink_chain t m w l a b (i : Z) p :
  chains m (arBuckets t) (nTableMask t) l -> a ∈ l -> m !! a = Some b ->
  arBuckets t !! Z.to_nat i = Some p -> 0 <= i -> Z.land (h b) (nTableMask t) = i ->
  unlink_chain i (Some a) (HState t m w) =
  Ok (tt, HState (set_arBuckets (arr_removed b (Z.to_nat i) (arBuckets t)) t)
            (chain_removed b m) w).
Proof.
  intros Hc Ha Hb Hi Hpos Hh. rewrite <- (Z2Nat.id i Hpos) in Hh.
  pose proof (chain_head_iff _ _ _ _ _ _ _ _ Hc Ha Hb Hi Hh) as Hiff.
  pose proof (fun x => chain_neighbours _ _ _ _ _ _ _ _ x Hc Ha Hb Hi Hh) as Hnb.
  unfold unlink_chain. erewrite bind_deref by done. erewrite bind_arBuckets_at by done.
  unfold chain_removed, arr_removed.
  case_decide as Hd.
  - rewrite (proj1 Hiff Hd). erewrite mbind_ok by (by apply run_set_arBuckets_at).
    apply run_assign_if. intros x Hx.
    apply Hnb. by left.
  - destruct (pLast b) as [y|] eqn:Hl; [|by destruct Hd; apply Hiff].
    destruct (Hnb y) as [by_ Hby]; [by right|].
    erewrite bind_assign by done. simpl. rewrite (alter_insert _ _ _ _ Hby).
    replace (set_arBuckets (arBuckets t) t) with t by (by destruct t).
    apply run_assign_if. intros x Hx. rewrite lookup_insert. case_decide; [done|].
    apply Hnb. by left.
Qed.

(** [leave_chain], and the first half of [zend_hash_apply_deleter], go by
    [p->pLast] instead and reach the same state. *)
Lemma opt_alter_comm (p q : ptr) f g m :
  (forall b, f (g b) = g (f b)) ->
  opt_alter p f (opt_alter q g m) = opt_alter q g (opt_alter p f m) :> gmap addr (Bucket V).
Proof.
  intros Hfg. destruct p as [x|], q as [y|]; simpl; try done.
  apply map_eq. intros z. rewrite !lookup_alter. repeat case_decide; subst; try done.
  destruct (m !! _); simpl; by rewrite ?Hfg.
Qed.

Lemma is_Some_opt_alter (p : ptr) f m a :
  is_Some (m !! a) -> is_Some (opt_alter p f m !! a :> option (Bucket V)).
Proof.
  intros Ha. destruct p; [|done]. simpl. rewrite lookup_alter.
  case_decide; [subst; by apply fmap_is_Some|done].
Qed.

Lemma run_leave_chain t m w l a b p :
  chains m (arBuckets t) (nTableMask t) l -> a ∈ l -> m !! a = Some b ->
  0 <= Z.land (h b) (nTableMask t) ->
  arBuckets t !! Z.to_nat (Z.land (h b) (nTableMask t)) = Some p ->
  leave_chain (Some a) (HState t m w) =
  Ok (tt, HState (set_arBuckets (arr_removed b (Z.to_nat (Z.land (h b) (nTableMask t)))
                    (arBuckets t)) t) (chain_removed b m) w).
Proof.
  intros Hc Ha Hb Hpos Hi.
  pose proof (fun x => chain_neighbours _ _ _ _ _ _ _ _ x Hc Ha Hb Hi
    (eq_sym (Z2Nat.id _ Hpos))) as Hnb.
  unfold leave_chain. rewrite bind_get. erewrite bind_deref by done.
  erewrite mbind_ok by (apply run_assign_if; eauto).
  unfold chain_removed, arr_removed. destruct (pLast b) as [y|] eqn:Hl.
  - destruct (Hnb y) as [by_ Hby]; [by right|].
    rewrite (opt_alter_comm (pNext b)) by done. unfold assign. simpl.
    destruct (is_Some_opt_alter (pNext b) (set_pLast (Some y)) m y (mk_is_Some _ _ Hby)) as [z Hz].
    rewrite Hz. simpl. by destruct t.
  - rewrite run_set_arBuckets_at by (simpl; by eexists). done.
Qed.

(** ** The global order *)

Definition order_inserted a b (tail : ptr) m : gmap addr (Bucket V) :=
  opt_alter tail (set_pListNext (Some a)) (<[a := set_pListNext None (set_pListLast tail b)]> m).
Definition or_else (p q : ptr) : ptr := match p with None => q | Some _ => p end.

Lemma order_inserted_frame a b tail m :
  m !! a = Some b -> order_frame m (order_inserted a b tail m).
Proof.
  intros Hb.
  etrans; [by eapply (order_frame_insert _ _ _ (set_pListNext None (set_pListLast tail b)))|].
  by apply order_frame_opt_alter.
Qed.

Lemma order_insert m l a b :
  seg order_links m None l None -> NoDup (l ++ [a]) -> m !! a = Some b ->
  seg order_links (order_inserted a b (last_ptr None l) m) None (l ++ [a]) None.
Proof.
  intros Hs Hnd Hb. assert (a ∉ l) by (by apply NoDup_app_mid in Hnd as (?&_)).
  eapply (seg_push_back order_links);
    [done|apply lookup_insert_eq|done|done|by apply seg_insert_ne].
Qed.

Lemma run_connect_global a b t m w l :
  m !! a = Some b -> seg order_links m None l None -> pListTail t = last_ptr None l ->
  CONNECT_TO_GLOBAL_DLLIST (Some a) (HState t m w) =
  Ok (tt, HState
    (set_pInternalPointer (or_else (pInternalPointer t) (Some a))
      (set_pListHead (or_else (pListHead t) (Some a)) (set_pListTail (Some a) t)))
    (order_inserted a b (pListTail t) m) w).
Proof.
  intros Hb Hs Ht. unfold CONNECT_TO_GLOBAL_DLLIST.
  rewrite bind_get. rewrite (bind_assign _ _ b) by done. rewrite bind_set_ht.
  erewrite bind_assign by apply lookup_insert_eq.
  erewrite bind_deref by apply lookup_insert_eq. rewrite insert_insert_eq.
  erewrite mbind_ok; [|apply run_assign_if].
  2:{ intros x Hx. simpl in Hx. rewrite lookup_insert. case_decide; [done|].
      rewrite Ht in Hx. eapply seg_lookup; [done|by apply last_ptr_elem]. }
  rewrite bind_get. destruct t as [? ? ? ? ip hd ? ? ? ? ? ?]. simpl.
  destruct hd; rewrite ?mbind_ret, ?bind_set_ht, bind_get; simpl; by destruct ip.
Qed.

Definition order_removed b m : gmap addr (Bucket V) :=
  opt_alter (pListNext b) (set_pListLast (pListLast b))
    (opt_alter (pListLast b) (set_pListNext (pListNext b)) m).
(** The table fields after the unlinking of [a]. *)
Definition unlinked a b t : HashTable V W :=
  set_pInternalPointer
    (if decide (pInternalPointer t = Some a) then pListNext b else pInternalPointer t)
    (set_pListTail (match pListNext b with None => pListLast b | Some _ => pListTail t end)
      (set_pListHead (match pListLast b with None => pListNext b | Some _ => pListHead t end) t)).

Lemma order_removed_frame b m : order_frame m (order_removed b m).
Proof.
  etrans; [by apply (order_frame_opt_alter _ (pListLast b) (set_pListNext (pListNext b)))|].
  by apply order_frame_opt_alter.
Qed.

Lemma order_remove m l1 a l2 b :
  seg order_links m None (l1 ++ a :: l2) None -> NoDup (l1 ++ a :: l2) -> m !! a = Some b ->
  pListLast b = last_ptr None l1 /\ pListNext b = head_ptr l2 None /\
  seg order_links (order_removed b m) None (l1 ++ l2) None.
Proof.
  intros Hs Hnd Hb. destruct (seg_mid _ _ _ _ _ _ _ Hs) as (b' & Hb' & Hl & Hn).
  simplify_eq. simpl in Hl, Hn. split_and!; [done..|].
  unfold order_removed. rewrite Hl, Hn. by apply (seg_unlink order_links m l1 a l2).
Qed.

Lemma run_unlink_global t m w l1 a l2 b :
  seg order_links m None (l1 ++ a :: l2) None -> NoDup (l1 ++ a :: l2) -> m !! a = Some b ->
  unlink_global (Some a) (HState t m w) =
  Ok (tt, HState (unlinked a b t) (order_removed b m) w).
Proof.
  intros Hs Hnd Hb. destruct (order_remove _ _ _ _ _ Hs Hnd Hb) as (Hl & Hn & _).
  assert (Hlive : forall x, x ∈ l1 ++ a :: l2 -> is_Some (m !! x))
    by (intros; by eapply seg_lookup).
  unfold unlink_global, order_removed, unlinked. erewrite bind_deref by done.
  destruct (pListLast b) as [x|] eqn:HL.
  - destruct (Hlive x) as [bx Hx]; [symmetry in Hl; apply last_ptr_elem in Hl; set_solver|].
    rewrite (bind_assign _ _ bx) by done. simpl. rewrite (alter_insert _ _ _ _ Hx).
    destruct (pListNext b) as [y|] eqn:HN.
    + assert (is_Some (<[x:=set_pListNext (Some y) bx]> m !! y)) as [by_ Hy].
      { rewrite lookup_insert. case_decide; [done|]. apply Hlive.
        symmetry in Hn. apply head_ptr_elem in Hn. set_solver. }
      rewrite (bind_assign _ _ by_) by done. rewrite bind_get.
      simpl. rewrite (alter_insert _ _ _ _ Hy). by case_decide; destruct t.
    + rewrite bind_set_ht, bind_get. simpl. by case_decide; destruct t.
  - rewrite bind_set_ht. destruct (pListNext b) as [y|] eqn:HN.
    + destruct (Hlive y) as [by_ Hy]; [symmetry in Hn; apply head_ptr_elem in Hn; set_solver|].
      rewrite (bind_assign _ _ by_) by done. rewrite bind_get.
      simpl. rewrite (alter_insert _ _ _ _ Hy). by case_decide; destruct t.
    + rewrite bind_set_ht, bind_get. simpl. by case_decide; destruct t.
Qed.
End Steps.
