(* ===== verification/ZendHashOps.v ===== *)
(** * The hash table refines an ordered dictionary

    Every look-up, insertion, update, deletion and growth of the table,
    from any well-formed state, returns, and leaves a well-formed state
    whose entries are those of the corresponding operation on an association
    list in insertion order ([kv_lookup], [kv_update], [kv_delete], append). *)

From S2P Require Import Prelude Dll ZendHash ZendHashInv ZendHashSteps.
Open Scope Z_scope.

Section Ops.
Context {V W : Type} `{Allocator}.
Implicit Types (s : hstate V W) (t : HashTable V W) (m : gmap addr (Bucket V)) (w : W)
  (b : Bucket V) (l : list addr) (kvs : list (hkey * V)) (arr : list ptr).

(** ** Indices into the array *)

Lemma index_range t hv : size_ok t ->
  0 <= Z.land hv (nTableMask t) < nTableSize t.
Proof.
  intros ((k & Hk & Hs) & Hm & _). rewrite Hm, Hs, land_mask by lia.
  apply Z.mod_pos_bound. lia.
Qed.
Lemma index_lookup t hv : size_ok t ->
  exists p, arBuckets t !! Z.to_nat (Z.land hv (nTableMask t)) = Some p.
Proof.
  intros Hs. pose proof (index_range _ hv Hs). destruct Hs as (_ & _ & Hl).
  apply lookup_lt_is_Some. lia.
Qed.
Lemma index_nat t hv : size_ok t ->
  Z.of_nat (Z.to_nat (Z.land hv (nTableMask t))) = Z.land hv (nTableMask t).
Proof. intros Hs. pose proof (index_range _ hv Hs). lia. Qed.

(** ** Fuel: distinct live addresses are no more than the heap's size *)

Lemma live_length (m : gmap addr (Bucket V)) (c : list addr) :
  NoDup c -> (forall a, a ∈ c -> is_Some (m !! a)) -> (length c <= size m)%nat.
Proof.
  intros Hnd Hc. rewrite <- (size_list_to_set (C := gset addr) c) by done.
  rewrite <- size_dom. apply subseteq_size. intros a Ha%elem_of_list_to_set.
  by apply elem_of_dom, Hc.
Qed.

(** ** Searching a chain *)

Lemma memcmp_eq (x y : list byte) :
  length x = length y -> memcmp x y (length y) = 0 <-> x = y.
Proof.
  revert y. induction x as [|c x IH]; intros [|d y]; simpl; try done.
  intros [= Hl]. case_decide as Hcd.
  - subst. rewrite (IH y Hl). naive_solver.
  - split; [|naive_solver]. intros He. destruct Hcd. apply uc_inj. lia.
Qed.

Lemma is_key_spec (key : list byte) b :
  bucket_ok b -> key <> [] ->
  is_key (zend_inline_hash_func key) key b = true <-> bucket_key b = KStr key.
Proof.
  intros [_ Hok] Hk. unfold is_key, bucket_key. rewrite !andb_true_iff, !Z.eqb_eq.
  destruct (Z.eqb_spec (nKeyLength b) 0) as [H0|H0].
  - split; [|done]. intros [[_ Hl] _]. destruct key; [done|simpl in Hl; lia].
  - destruct (Hok H0) as [Hl Hh]. split.
    + intros [[_ Hl'] Hm]. f_equal. apply memcmp_eq; [lia|done].
    + intros [= <-]. split_and!; [done|done|]. by apply memcmp_eq.
Qed.
Lemma is_index_spec hv b :
  is_index hv b = true <-> bucket_key b = KInt hv.
Proof.
  unfold is_index, bucket_key. rewrite andb_true_iff, !Z.eqb_eq.
  destruct (Z.eqb_spec (nKeyLength b) 0); naive_solver.
Qed.

Lemma bucket_key_hash b : bucket_ok b -> h b = hash_of (bucket_key b).
Proof. intros [_ Hok]. unfold bucket_key. destruct (Z.eqb_spec (nKeyLength b) 0); naive_solver. Qed.

Lemma chain_walk_spec test c : forall fuel p t m w,
  seg chain_links m p c None -> (length c < fuel)%nat ->
  exists r, chain_walk fuel test (head_ptr c None) (HState t m w) = Ok r /\
    match r with
    | None => forall a b, a ∈ c -> m !! a = Some b -> test b = false
    | Some a => a ∈ c /\ exists b, m !! a = Some b /\ test b = true
    end.
Proof.
  induction c as [|a c IH]; intros fuel p t m w Hs Hf; destruct fuel as [|fuel];
    try (simpl in Hf; lia).
  - exists None. split; [done|]. intros x b Hx. by apply elem_of_nil in Hx.
  - destruct Hs as (b & Hb & _ & Hn & Hs). simpl. rewrite Hb.
    destruct (test b) eqn:Ht.
    + exists (Some a). split; [done|]. split; [left|]. eauto.
    + simpl in Hn. rewrite Hn.
      destruct (IH fuel _ t m w Hs) as (r & -> & Hr); [simpl in Hf; lia|].
      exists r. split; [done|]. destruct r as [x|].
      * destruct Hr as [Hx Hb']. split; [by right|done].
      * intros x bx [->|Hx]%elem_of_cons Hbx; [congruence|by eapply Hr].
Qed.

(** The bucket at [a] within the table: what comes before and after it. *)
Record focus m l kvs (k : hkey) a b (l1 l2 : list addr) (kvs1 kvs2 : list (hkey * V)) : Prop := {
  f_l : l = l1 ++ a :: l2;
  f_kvs : kvs = kvs1 ++ (k, data_value (pData b)) :: kvs2;
  f_holds1 : Forall2 (holds m) l1 kvs1;
  f_holds2 : Forall2 (holds m) l2 kvs2;
  f_bucket : m !! a = Some b;
  f_ok : bucket_ok b;
  f_key : bucket_key b = k
}.

Lemma focus_at m l kvs a b :
  Forall2 (holds m) l kvs -> a ∈ l -> m !! a = Some b ->
  exists l1 l2 kvs1 kvs2, focus m l kvs (bucket_key b) a b l1 l2 kvs1 kvs2.
Proof.
  intros Hh (l1 & l2 & ->)%elem_of_split Hb.
  apply Forall2_app_inv_l in Hh as (kvs1 & r & H1 & Hr & ->).
  apply Forall2_cons_inv_l in Hr as (kv & kvs2 & (b' & Hb' & Hok & <-) & H2 & ->).
  simplify_eq. exists l1, l2, kvs1, kvs2. by split.
Qed.

(** Searching for a key: a test that recognises exactly the buckets with
    that key finds its bucket, or finds that there is none. *)
Lemma chain_find_spec s l kvs n k test :
  reprn s l kvs n ->
  (forall b, bucket_ok b -> test b = true <-> bucket_key b = k) ->
  exists r, chain_find (Z.land (hash_of k) (nTableMask (ht s))) test s = Ok r /\
    match r with
    | None => k ∉ kvs.*1
    | Some a => exists b l1 l2 kvs1 kvs2, focus (buckets s) l kvs k a b l1 l2 kvs1 kvs2
    end.
Proof.
  intros R Ht. destruct s as [t m w].
  destruct (index_lookup t (hash_of k) (r_size _ _ _ _ R)) as [p Hp].
  destruct (r_chains _ _ _ _ R _ p Hp) as (c & -> & Hs & Hnd & Hin).
  unfold chain_find, arBuckets_at. simpl in *. rewrite Hp.
  destruct (chain_walk_spec test c (walk_fuel (HState t m w)) None t m w Hs) as (r & Hr & Hsp).
  { apply Nat.lt_succ_r, live_length; [done|]. intros a Ha. by eapply seg_lookup. }
  exists r. split; [done|]. destruct r as [a|].
  - destruct Hsp as [[Ha _]%Hin (b & Hb & Htb)].
    destruct (focus_at _ _ _ _ _ (r_holds _ _ _ _ R) Ha Hb) as (l1 & l2 & kvs1 & kvs2 & F).
    assert (bucket_key b = k) as <- by (apply Ht; [by eapply f_ok|done]).
    exists b, l1, l2, kvs1, kvs2. done.
  - intros Hk. apply list_elem_of_fmap in Hk as ([k' v] & Hkk & Hkv). simpl in Hkk. subst k'.
    apply list_elem_of_split in Hkv as (kvs1 & kvs2 & ->).
    pose proof (r_holds _ _ _ _ R) as Hh.
    apply Forall2_app_inv_r in Hh as (l1 & r & _ & Hr' & ->).
    apply Forall2_cons_inv_r in Hr' as (a & l2 & (b & Hb & Hok & He) & _ & ->).
    injection He as Hkey Hv. simpl in *.
    assert (test b = false) as Hf.
    { eapply (Hsp a); [|done]. apply Hin. split; [set_solver|]. exists b. split; [done|].
      rewrite (bucket_key_hash _ Hok), Hkey. symmetry. by apply index_nat, (r_size _ _ _ _ R). }
    apply Ht in Hkey; [congruence|done].
Qed.

Lemma focus_lookup m l kvs k a b l1 l2 kvs1 kvs2 :
  focus m l kvs k a b l1 l2 kvs1 kvs2 -> NoDup kvs.*1 ->
  kv_lookup k kvs = Some (data_value (pData b)) /\
  (forall v, kv_update k v kvs = kvs1 ++ (k, v) :: kvs2) /\
  kv_delete k kvs = kvs1 ++ kvs2.
Proof.
  intros F Hnd. rewrite (f_kvs _ _ _ _ _ _ _ _ _ _ F) in Hnd |- *.
  rewrite fmap_app in Hnd. simpl in Hnd. apply NoDup_app_mid in Hnd as (Hk & _).
  split_and!; [by apply kv_lookup_split| |by apply kv_delete_split].
  intros v. by apply kv_update_split.
Qed.

(** ** Rebuilding the chains *)

Lemma rehash_loop_spec l2 : forall fuel l1 t m w arr,
  size_ok t -> length arr = length (arBuckets t) ->
  chains m arr (nTableMask t) l1 -> NoDup (l1 ++ l2) ->
  seg order_links m (last_ptr None l1) l2 None ->
  (length l2 < fuel)%nat ->
  (forall a, a ∈ l1 -> is_Some (m !! a)) ->
  exists m' arr', rehash_loop fuel (head_ptr l2 None) (HState (set_arBuckets arr t) m w) =
    Ok (tt, HState (set_arBuckets arr' t) m' w) /\
    length arr' = length arr /\ chain_frame m m' /\
    chains m' arr' (nTableMask t) (l1 ++ l2).
Proof.
  induction l2 as [|a l2 IH]; intros fuel l1 t m w arr Hsz Hla Hc Hnd Hs Hf Hlive;
    destruct fuel as [|fuel]; try (simpl in Hf; lia).
  - exists m, arr. rewrite app_nil_r. by split_and!.
  - pose proof Hs as (b & Hb & _ & Hn & Hs2). simpl in Hn.
    pose proof (NoDup_app_mid _ _ _ Hnd) as (Ha1 & _ & _).
    pose proof (index_range t (h b) Hsz) as Hr. pose proof Hsz as (_ & _ & Hlen).
    destruct (lookup_lt_is_Some_2 arr (Z.to_nat (Z.land (h b) (nTableMask t)))) as [p Hp]; [lia|].
    pose proof (chain_insert _ _ _ _ _ _ _ _ Hc Ha1 Hb Hp (eq_sym (index_nat _ _ Hsz))) as Hc'.
    set (m1 := chain_inserted a p b m) in *. set (arr1 := <[_:=_]> arr) in *.
    pose proof (chain_inserted_frame a p b m Hb) as Hfr. fold m1 in Hfr.
    destruct (chain_frame_lookup _ _ _ _ Hfr Hb) as (b1 & Hb1 & Hst).
    apply strip_chain_inv in Hst as (_ & _ & _ & _ & Hn1 & _).
    cbn [rehash_loop head_ptr]. erewrite bind_deref by done. rewrite bind_get.
    erewrite bind_arBuckets_at by done.
    erewrite mbind_ok; [|apply run_connect_bucket; [done|]].
    2:{ intros x ->. destruct (Hc _ _ Hp) as (c & Hx & _ & _ & Hin).
        symmetry in Hx. apply head_ptr_elem, Hin in Hx as [Hx _]. by apply Hlive. }
    erewrite mbind_ok by (by apply run_set_arBuckets_at).
    erewrite bind_deref by done. rewrite Hn1, Hn. fold m1.
    destruct (IH fuel (l1 ++ [a]) t m1 w arr1) as (m' & arr' & Hrun & Hl' & Hfr' & Hc2).
    + done.
    + unfold arr1. by rewrite length_insert.
    + done.
    + by rewrite <- app_assoc.
    + rewrite last_ptr_snoc. by eapply order_seg_chain_frame.
    + simpl in Hf. lia.
    + intros x Hx. apply (chain_frame_is_Some _ _ _ Hfr).
      apply elem_of_app in Hx as [Hx|Hx%list_elem_of_singleton]; [by apply Hlive|by subst].
    + exists m', arr'. rewrite <- app_assoc in Hc2. split; [exact Hrun|].
      split_and!; [|by etrans|done]. rewrite Hl'. unfold arr1. by rewrite length_insert.
Qed.

Lemma chains_empty m mask n : chains m (replicate n None) mask [].
Proof.
  intros i p Hp. apply lookup_replicate in Hp as [-> _]. exists []. split; [done|].
  split_and!; [done|by apply NoDup_nil|]. intros a. set_solver.
Qed.

(** [reprn] but for the chains, which [zend_hash_rehash] builds anew. *)
Lemma rehash_spec t m w l kvs n :
  size_ok t -> NoDup l -> (forall a, is_Some (m !! a) -> a ∈ l) ->
  seg order_links m None l None -> pListHead t = head_ptr l None ->
  exists m' arr', zend_hash_rehash (HState t m w) =
    Ok (SUCCESS, HState (set_arBuckets arr' t) m' w) /\
    length arr' = length (arBuckets t) /\ chain_frame m m' /\
    chains m' arr' (nTableMask t) l /\
    (pListTail t = last_ptr None l -> Forall2 (holds m) l kvs -> NoDup kvs.*1 ->
     nNumOfElements t = n -> (forall a, pInternalPointer t = Some a -> a ∈ l) ->
     reprn (HState (set_arBuckets arr' t) m' w) l kvs n).
Proof.
  intros Hsz Hnd Hdom Hs Hh. pose proof Hsz as (Hk & Hm & Hlen).
  unfold zend_hash_rehash, clear_arBuckets. rewrite mbind_assoc, bind_get. simpl.
  rewrite decide_True by done. rewrite bind_set_ht, bind_get.
  cbn [ht pListHead set_arBuckets]. rewrite Hh.
  change (walk_fuel _) with (S (size m)).
  set (arr := replicate _ None).
  destruct (rehash_loop_spec l (S (size m)) [] t m w arr)
    as (m' & arr' & Hrun & Hl' & Hfr & Hc); try done.
  - unfold arr. by rewrite length_replicate.
  - apply chains_empty.
  - apply Nat.lt_succ_r, live_length; [done|]. intros a Ha. by eapply seg_lookup.
  - intros a Ha. by apply elem_of_nil in Ha.
  - assert (Hl2 : length arr' = length (arBuckets t)).
    { rewrite Hl'. unfold arr. by rewrite length_replicate. }
    exists m', arr'. split_and!; [by erewrite mbind_ok by exact Hrun|done|done|done|].
    intros Ht Hho Hkeys Hcnt Hcur. split; simpl; try done.
    + split_and!; [done|done|]. simpl. congruence.
    + intros a Ha. by apply Hdom, (chain_frame_is_Some _ _ _ Hfr).
    + by eapply order_seg_chain_frame.
    + eapply Forall2_impl; [done|]. intros a kv. by apply holds_chain_frame.
Qed.

(** ** Growing the table *)

(** What growing does not touch. *)
Definition quiet s s' : Prop :=
  env s' = env s /\ same_config s s' /\
  nNextFreeElement (ht s') = nNextFreeElement (ht s) /\
  pInternalPointer (ht s') = pInternalPointer (ht s).

Lemma double_size k : 3 <= k <= 31 ->
  u32 (Z.shiftl (2 ^ k) 1) = if k =? 31 then 0 else 2 ^ (k + 1).
Proof.
  intros Hk. rewrite Z.shiftl_mul_pow2 by lia. change (2 ^ 1) with 2.
  destruct (Z.eqb_spec k 31) as [->|Hn]; [done|].
  rewrite Z.pow_add_r by lia. change (2 ^ 1) with 2.
  apply u32_small. split; [lia|].
  assert (2 ^ k <= 2 ^ 30) by (apply Z.pow_le_mono_r; lia). lia.
Qed.

Lemma resize_spec s l kvs n :
  reprn s l kvs n ->
  exists r s', zend_hash_do_resize s = Ok (r, s') /\ reprn s' l kvs n /\ quiet s s' /\
    (nTableSize (ht s') = nTableSize (ht s) \/ nTableSize (ht s') = 2 * nTableSize (ht s)).
Proof.
  intros R. destruct s as [t m w]. pose proof (r_size _ _ _ _ R) as Hsz.
  pose proof Hsz as ((k & Hk & Hs2) & Hm & Hlen). simpl in Hs2, Hm, Hlen.
  unfold zend_hash_do_resize. rewrite bind_get. cbn [ht buckets].
  rewrite Hs2, (double_size k Hk).
  destruct (Z.eqb_spec k 31) as [->|Hk31]; simpl.
  { exists SUCCESS, (HState t m w). unfold quiet, same_config. split_and!; try done. by left. }
  rewrite (proj2 (Z.ltb_lt 0 (2 ^ (k + 1)))) by lia.
  destruct (mem_ok m _).
  2:{ exists FAILURE, (HState t m w). unfold quiet, same_config. split_and!; try done. by left. }
  rewrite !bind_set_ht. set (t1 := set_table_size _ _).
  assert (Hpow : 2 ^ (k + 1) = 2 * 2 ^ k) by (rewrite Z.pow_add_r; lia).
  assert (Hsz1 : size_ok t1).
  { split_and!; [exists (k + 1); split; [lia|done]|done|].
    simpl. rewrite length_app, length_replicate, Hlen, Hs2. lia. }
  destruct (rehash_spec t1 m w l kvs n Hsz1 (r_nodup _ _ _ _ R) (r_dom _ _ _ _ R)
    (r_order _ _ _ _ R) (r_head _ _ _ _ R)) as (m' & arr' & Hrun & _ & _ & _ & HR).
  exists SUCCESS, (HState (set_arBuckets arr' t1) m' w). split_and!.
  - by erewrite mbind_ok by exact Hrun.
  - apply HR; [apply R..|]. apply (r_cursor _ _ _ _ R).
  - by unfold quiet, same_config.
  - right. simpl. lia.
Qed.

Lemma count_new_bucket_spec s l kvs n :
  reprn s l kvs n ->
  exists s', count_new_bucket s = Ok (tt, s') /\ reprn s' l kvs (u32 (n + 1)) /\ quiet s s'.
Proof.
  intros R. destruct s as [t m w]. unfold count_new_bucket. rewrite bind_get, bind_set_ht.
  unfold ZEND_HASH_IF_FULL_DO_RESIZE. rewrite bind_get. cbn [ht].
  set (t1 := set_nNumOfElements _ t).
  assert (R1 : reprn (HState t1 m w) l kvs (u32 (n + 1))).
  { destruct R. split; try done. simpl in *. by subst n. }
  case_match.
  - destruct (resize_spec _ _ _ _ R1) as (r & s' & Hrun & R' & Hq & _).
    exists s'. split; [|done]. by erewrite mbind_ok by exact Hrun.
  - eexists. split; [done|]. split; [done|]. by unfold quiet, same_config.
Qed.

(** ** Linking a new bucket *)

Lemma connect_new_bucket_spec t m w l kvs n a b k :
  reprn (HState t m w) l kvs n -> m !! a = None ->
  bucket_ok b -> bucket_key b = k -> k ∉ kvs.*1 ->
  exists s', connect_new_bucket (Z.land (h b) (nTableMask t)) (Some a)
      (HState t (<[a := b]> m) w) = Ok (tt, s') /\
    reprn s' (l ++ [a]) (kvs ++ [(k, data_value (pData b))]) n /\
    env s' = w /\ same_config (HState t m w) s' /\
    nNextFreeElement (ht s') = nNextFreeElement t /\
    pInternalPointer (ht s') = or_else (pInternalPointer t) (Some a).
Proof.
  intros R Ha Hok Hk Hnk.
  pose proof (r_size _ _ _ _ R) as Hsz. simpl in Hsz.
  assert (Hal : forall x, x ∈ l -> is_Some (m !! x) /\ a <> x).
  { intros x Hx. pose proof (seg_lookup _ _ _ _ _ _ (r_order _ _ _ _ R) Hx) as Hs. simpl in Hs.
    split; [done|]. intros ->. rewrite Ha in Hs. by destruct Hs. }
  assert (Hna : a ∉ l) by (intros Hx; by destruct (Hal a Hx)).
  destruct (index_lookup t (h b) Hsz) as [p Hp].
  set (i := Z.to_nat (Z.land (h b) (nTableMask t))) in *.
  set (m0 := <[a:=b]> m). assert (Hb : m0 !! a = Some b) by apply lookup_insert_eq.
  assert (Hc0 : chains m0 (arBuckets t) (nTableMask t) l).
  { eapply chains_ext; [|apply (r_chains _ _ _ _ R)]. intros x Hx.
    unfold m0. by rewrite lookup_insert_ne by (by apply Hal). }
  assert (Ho0 : seg order_links m0 None l None)
    by (apply seg_insert_ne; [done|apply (r_order _ _ _ _ R)]).
  pose proof (chain_insert _ _ _ _ _ _ _ _ Hc0 Hna Hb Hp (eq_sym (index_nat _ _ Hsz))) as Hc1.
  fold i in Hc1. set (m1 := chain_inserted a p b m0) in *.
  pose proof (chain_inserted_frame a p b m0 Hb) as Hf1. fold m1 in Hf1.
  destruct (chain_frame_lookup _ _ _ _ Hf1 Hb) as (b1 & Hb1 & Hst1).
  set (t1 := set_arBuckets (<[i := Some a]> (arBuckets t)) t).
  pose proof (order_seg_chain_frame _ _ _ _ _ Hf1 Ho0) as Ho1.
  assert (Hnd : NoDup (l ++ [a])).
  { apply NoDup_app. split_and!; [apply (r_nodup _ _ _ _ R)|set_solver|apply NoDup_singleton]. }
  pose proof (order_insert _ _ _ _ Ho1 Hnd Hb1) as Ho2.
  pose proof (order_inserted_frame a b1 (last_ptr None l) m1 Hb1) as Hf2.
  set (m2 := order_inserted a b1 (last_ptr None l) m1) in *.
  pose proof (run_connect_global a b1 t1 m1 w l Hb1 Ho1 (r_tail _ _ _ _ R)) as Hrun.
  change (pListTail t1) with (pListTail t) in Hrun.
  pose proof (r_tail _ _ _ _ R) as Ht. simpl in Ht. rewrite Ht in Hrun. fold m2 in Hrun.
  eexists. split.
  { unfold connect_new_bucket. erewrite bind_arBuckets_at by done.
    erewrite mbind_ok; [|apply run_connect_bucket; [exact Hb|]].
    2:{ intros x ->. destruct (r_chains _ _ _ _ R _ _ Hp) as (c & Hx & _ & _ & Hin).
        symmetry in Hx. apply head_ptr_elem, Hin in Hx as [Hx _].
        unfold m0. rewrite lookup_insert_ne by (by apply Hal). by apply Hal. }
    erewrite mbind_ok by (apply run_set_arBuckets_at; by eexists).
    exact Hrun. }
  split; [|unfold same_config; by split_and!].
  assert (Hh0 : forall x kv, holds m0 x kv -> holds m2 x kv).
  { intros x kv Hx. eapply holds_order_frame; [done|]. by eapply holds_chain_frame. }
  destruct R as [Rsz Rnd Rdom Ro Rhd Rtl Rch Rho Rk Rn Rcu]. split; simpl in *; try done.
  - destruct Rsz as (? & ? & ?). split_and!; [done|done|]. simpl. by rewrite length_insert.
  - intros x Hx. apply (order_frame_is_Some _ _ _ Hf2), (chain_frame_is_Some _ _ _ Hf1) in Hx.
    unfold m0 in Hx. rewrite lookup_insert in Hx. case_decide; set_solver.
  - rewrite Rhd, head_ptr_app. by destruct l.
  - by rewrite last_ptr_snoc.
  - by eapply chains_order_frame.
  - apply Forall2_app; [|constructor; [|constructor]].
    + eapply Forall2_impl_in; [done|].
      intros x kv Hx Hxk. apply Hh0, holds_insert_ne; [by apply Hal|done].
    + apply Hh0. exists b. split_and!; [done|done|]. by rewrite <- Hk.
  - rewrite fmap_app. apply NoDup_app. split_and!; [done| |apply NoDup_singleton].
    simpl. set_solver.
  - intros x Hx. destruct (pInternalPointer t) as [y|] eqn:Hy; simpl in Hx; simplify_eq.
    + apply elem_of_app. left. by apply Rcu.
    + set_solver.
Qed.

(** ** Overwriting the data of a bucket *)

Definition dtor_env t (v : V) w : W :=
  match pDestructor t with None => w | Some d => d v w end.
(** The allocator grants a block for data of this size, if one is needed. *)
Definition data_granted m (nDataSize : Z) : Prop :=
  nDataSize = sizeof_ptr \/ mem_ok m nDataSize = true.

Lemma set_data_spec t m w w' l kvs n k a b l1 l2 kvs1 kvs2 d :
  reprn (HState t m w) l kvs n -> focus m l kvs k a b l1 l2 kvs1 kvs2 ->
  reprn (HState t (<[a := set_pData d b]> m) w') l (kv_update k (data_value d) kvs) n.
Proof.
  intros R F. pose proof (focus_lookup _ _ _ _ _ _ _ _ _ _ F (r_keys _ _ _ _ R)) as (_ & Hu & _).
  destruct F as [-> Hkvs H1 H2 Hb Hok Hk].
  destruct R as [Rsz Rnd Rdom Ro Rhd Rtl Rch Rho Rk Rn Rcu]. simpl in *.
  assert (Hne : forall x, x ∈ l1 \/ x ∈ l2 -> a <> x).
  { apply NoDup_app_mid in Rnd as (? & ? & _). set_solver. }
  split; simpl; try done.
  - intros x Hx. rewrite lookup_insert in Hx. case_decide; [set_solver|by apply Rdom].
  - eapply seg_ext; [|done]. intros x _. rewrite lookup_insert.
    case_decide; [|done]. subst. by rewrite Hb.
  - eapply chains_ext; [|done]. intros x _. rewrite lookup_insert.
    case_decide; [|done]. subst. by rewrite Hb.
  - rewrite Hu. apply Forall2_app; [|constructor].
    + eapply Forall2_impl_in; [done|]. intros x kv Hx. apply holds_insert_ne. eauto.
    + exists (set_pData d b). rewrite lookup_insert_eq. split_and!; [done|done|].
      unfold entry, bucket_key in *. simpl. by rewrite Hk.
    + eapply Forall2_impl_in; [done|]. intros x kv Hx. apply holds_insert_ne. eauto.
  - by rewrite kv_update_keys.
Qed.

Lemma update_data_spec {B} t m w l kvs n k a b l1 l2 kvs1 kvs2 v size
    (c : M (hstate V W) B) :
  reprn (HState t m w) l kvs n -> focus m l kvs k a b l1 l2 kvs1 kvs2 ->
  data_granted m size ->
  exists s', (run_dtor (Some a);; UPDATE_DATA (Some a) v size;; c) (HState t m w) = c s' /\
    reprn s' l (kv_update k v kvs) n /\ ht s' = t /\
    env s' = dtor_env t (data_value (pData b)) w.
Proof.
  intros R F Hg. pose proof (f_bucket _ _ _ _ _ _ _ _ _ _ F) as Hb.
  set (w' := dtor_env t (data_value (pData b)) w).
  assert (Hd : run_dtor (Some a) (HState t m w) = Ok (tt, HState t m w')).
  { unfold run_dtor, w', dtor_env. rewrite bind_get. simpl.
    destruct (pDestructor t); [|done]. by rewrite (bind_deref _ b). }
  erewrite mbind_ok by exact Hd.
  assert (exists d, data_value d = v /\
    UPDATE_DATA (Some a) v size (HState t m w') = Ok (tt, HState t (<[a := set_pData d b]> m) w'))
    as (d & <- & Hup).
  { unfold UPDATE_DATA. rewrite bind_get. cbn [buckets].
    assert (Has : forall d, assign (Some a) (set_pData d) (HState t m w') =
      Ok (tt, HState t (<[a := set_pData d b]> m) w')).
    { intros d. unfold assign. simpl. rewrite Hb. simpl. by rewrite (alter_insert _ _ _ _ Hb). }
    case_match eqn:Es; [by exists (InDataPtr v)|].
    destruct Hg as [->|Hg]; [done|]. rewrite Hg. by exists (OwnBlock v). }
  erewrite mbind_ok by exact Hup.
  eexists. split; [done|]. split_and!; [by eapply set_data_spec|done|done].
Qed.

(** ** Allocating *)

Lemma new_bucket_spec t m w size v nDataSize :
  (exists a d, new_bucket size v nDataSize (HState t m w) =
     Ok (Some a, HState t (<[a := raw_bucket d]> m) w) /\ m !! a = None /\ data_value d = v) \/
  (new_bucket size v nDataSize (HState t m w) = Ok (None, HState t m w) /\
   (alloc m size = None \/ ~ data_granted m nDataSize)).
Proof.
  unfold new_bucket. rewrite bind_get. cbn [buckets].
  destruct (alloc m size) as [a|] eqn:Ha; [|right; eauto].
  unfold INIT_DATA, data_granted. simpl.
  destruct (Z.eqb_spec nDataSize sizeof_ptr) as [->|Hne].
  - left. exists a, (InDataPtr v). split; [done|]. split; [by eapply alloc_fresh|done].
  - destruct (mem_ok m nDataSize) eqn:Hm.
    + left. exists a, (OwnBlock v). split; [done|]. split; [by eapply alloc_fresh|done].
    + right. split; [done|]. right. naive_solver.
Qed.

(** ** Adding and updating under a string key *)

(** The allocator turns the request for a new element down. *)
Definition denied s (size nDataSize : Z) : Prop :=
  alloc (buckets s) size = None \/ ~ data_granted (buckets s) nDataSize.

(** What a step of the API did to the parts of the state it need not touch. *)
Definition appended s s' a : Prop :=
  env s' = env s /\ same_config s s' /\
  pInternalPointer (ht s') = or_else (pInternalPointer (ht s)) (Some a).

Lemma length_snoc_count l (a : addr) :
  u32 (u32 (Z.of_nat (length l)) + 1) = u32 (Z.of_nat (length (l ++ [a]))).
Proof. unfold u32. rewrite Zplus_mod_idemp_l, length_app. f_equal. simpl. lia. Qed.

(** The fields of a fresh bucket are set, it is linked, counted, and the
    table grows if need be; [set] is what happens in between. *)
Lemma append_bucket_spec {B} t m w l kvs a b k (between : M (hstate V W) unit)
    (f : Z -> Z) (c : M (hstate V W) B) :
  repr (HState t m w) l kvs -> m !! a = None ->
  bucket_ok b -> bucket_key b = k -> k ∉ kvs.*1 ->
  (forall t' m' w', between (HState t' m' w') =
     Ok (tt, HState (set_nNextFreeElement (f (nNextFreeElement t')) t') m' w')) ->
  exists s', (connect_new_bucket (Z.land (h b) (nTableMask t)) (Some a);; between;;
      count_new_bucket;; c) (HState t (<[a := b]> m) w) = c s' /\
    repr s' (l ++ [a]) (kvs ++ [(k, data_value (pData b))]) /\
    appended (HState t m w) s' a /\ nNextFreeElement (ht s') = f (nNextFreeElement t).
Proof.
  intros R Ha Hok Hk Hnk Hbt.
  destruct (connect_new_bucket_spec _ _ _ _ _ _ _ _ _ R Ha Hok Hk Hnk)
    as ([t1 m1 w1] & Hrun & R1 & He & Hc & Hnf & Hip).
  erewrite mbind_ok by exact Hrun. erewrite mbind_ok by apply Hbt.
  set (t2 := set_nNextFreeElement _ t1).
  assert (R2 : reprn (HState t2 m1 w1) (l ++ [a]) (kvs ++ [(k, data_value (pData b))])
                 (u32 (Z.of_nat (length l)))) by (by destruct R1; split).
  destruct (count_new_bucket_spec _ _ _ _ R2) as (s3 & Hrun3 & R3 & (He3 & Hc3 & Hnf3 & Hip3)).
  erewrite mbind_ok by exact Hrun3.
  exists s3. split; [done|]. split; [by rewrite (length_snoc_count l a) in R3|].
  unfold appended, same_config in *. simpl in *.
  destruct Hc as (? & ? & ? & ?), Hc3 as (? & ? & ? & ?).
  split_and!; try congruence.
Qed.

Lemma set_nNextFreeElement_id t : set_nNextFreeElement (nNextFreeElement t) t = t.
Proof. by destruct t. Qed.

(** The outcome of storing [v] under [k], for any of the storing functions:
    [add] forbids replacing, [size] is the block asked for and [f] says what
    becomes of [nNextFreeElement]. *)
Definition stored s l kvs (k : hkey) (v : V) (add : bool) (size nDataSize : Z) (f : Z -> Z)
    (r : res (Z * ptr * hstate V W)) : Prop :=
  match kv_lookup k kvs with
  | Some old =>
      if add then r = Ok (FAILURE, None, s)
      else data_granted (buckets s) nDataSize ->
        exists a s', r = Ok (SUCCESS, Some a, s') /\ repr s' l (kv_update k v kvs) /\
          a ∈ l /\ holds (buckets s') a (k, v) /\
          env s' = dtor_env (ht s) old (env s) /\
          ht s' = set_nNextFreeElement (f (nNextFreeElement (ht s))) (ht s)
  | None =>
      (exists a s', r = Ok (SUCCESS, Some a, s') /\
         repr s' (l ++ [a]) (kvs ++ [(k, v)]) /\ appended s s' a /\
         nNextFreeElement (ht s') = f (nNextFreeElement (ht s))) \/
      (r = Ok (FAILURE, None, s) /\ denied s size nDataSize)
  end.

Lemma focus_holds_updated s l kvs k a b l1 l2 kvs1 kvs2 v s' n :
  focus (buckets s) l kvs k a b l1 l2 kvs1 kvs2 -> NoDup kvs.*1 ->
  reprn s' l (kv_update k v kvs) n -> holds (buckets s') a (k, v).
Proof.
  intros F Hnd R. destruct (focus_lookup _ _ _ _ _ _ _ _ _ _ F Hnd) as (_ & Hu & _).
  pose proof (r_holds _ _ _ _ R) as Hh. rewrite Hu, (f_l _ _ _ _ _ _ _ _ _ _ F) in Hh.
  apply Forall2_app_inv in Hh as [_ Hh]; [by apply Forall2_cons in Hh as [Hh _]|].
  eapply Forall2_length, F.
Qed.

Lemma add_or_update_key_spec s l kvs (key : list byte) v nDataSize flag :
  repr s l kvs -> key <> [] ->
  stored s l kvs (KStr key) v (has_flag flag HASH_ADD)
    (sizeof_Bucket - 1 + Z.of_nat (length key)) nDataSize id
    (add_or_update_key key (zend_inline_hash_func key) v nDataSize flag s).
Proof.
  intros R Hkey. destruct s as [t m w]. unfold add_or_update_key. rewrite bind_get.
  destruct (chain_find_spec _ _ _ _ (KStr key) (is_key (zend_inline_hash_func key) key) R)
    as (r & Hr & Hsp); [intros b Hok; by apply is_key_spec|].
  erewrite mbind_reading by exact Hr. unfold stored. destruct r as [a|].
  - destruct Hsp as (b & l1 & l2 & kvs1 & kvs2 & F). simpl in F.
    destruct (focus_lookup _ _ _ _ _ _ _ _ _ _ F (r_keys _ _ _ _ R)) as (-> & _ & _).
    destruct (has_flag flag HASH_ADD); [done|]. intros Hg.
    destruct (update_data_spec t m w l kvs _ _ _ _ _ _ _ _ v nDataSize
      (mret (SUCCESS, Some a)) R F Hg) as (s' & -> & R' & Ht & He).
    exists a, s'. split; [done|]. split_and!; [done| | |done|].
    + rewrite (f_l _ _ _ _ _ _ _ _ _ _ F). set_solver.
    + by eapply (focus_holds_updated (HState t m w)); [|apply R|].
    + rewrite Ht. by destruct t.
  - rewrite (proj2 (kv_lookup_None _ _) Hsp).
    destruct (new_bucket_spec t m w (sizeof_Bucket - 1 + Z.of_nat (length key)) v nDataSize)
      as [(a & d & Hnew & Ha & <-)|[Hnew Hden]].
    + left. erewrite mbind_ok by exact Hnew. cbv beta iota.
      rewrite (bind_assign _ _ (raw_bucket d)) by apply lookup_insert_eq.
      erewrite bind_assign by apply lookup_insert_eq.
      erewrite bind_assign by apply lookup_insert_eq. rewrite !insert_insert_eq.
      set (b := set_h _ _).
      destruct (append_bucket_spec t m w l kvs a b (KStr key) (mret tt) id
        (mret (SUCCESS, Some a)) R Ha) as (s' & Hrun & R' & Happ & Hnf).
      * unfold bucket_ok. simpl. split; [apply hash_func_range|done].
      * unfold bucket_key. simpl. rewrite (proj2 (Z.eqb_neq _ _)); [done|].
        destruct key; [done|simpl; lia].
      * done.
      * intros t' m' w'. by destruct t'.
      * exists a, s'. split; [exact Hrun|done].
    + right. split; [|done]. by erewrite mbind_ok by exact Hnew.
Qed.

(** ** Adding and updating under an index *)

(** What [nNextFreeElement] becomes after a store at [hv]. *)
Definition next_free (hv nf : Z) : Z :=
  if s64 nf <=? s64 hv then (if hv <? LONG_MAX then u64 (hv + 1) else LONG_MAX) else nf.

Lemma advance_next_free_run hv t m w :
  advance_next_free hv (HState t m w) =
  Ok (tt, HState (set_nNextFreeElement (next_free hv (nNextFreeElement t)) t) m w).
Proof.
  unfold advance_next_free, next_free. rewrite bind_get. simpl. case_match; [done|].
  by rewrite set_nNextFreeElement_id.
Qed.

Definition store_index s (hv flag : Z) : Z :=
  if has_flag flag HASH_NEXT_INSERT then nNextFreeElement (ht s) else hv.

Lemma index_update_or_next_insert_spec s l kvs hv v nDataSize flag :
  repr s l kvs -> 0 <= store_index s hv flag < 2 ^ 64 ->
  stored s l kvs (KInt (store_index s hv flag)) v
    (has_flag flag HASH_NEXT_INSERT || has_flag flag HASH_ADD)
    (sizeof_Bucket - 1) nDataSize (next_free (store_index s hv flag))
    (zend_hash_index_update_or_next_insert hv v nDataSize flag s).
Proof.
  intros R Hrange. unfold zend_hash_index_update_or_next_insert. rewrite mbind_get.
  fold (store_index s hv flag). set (i := store_index s hv flag) in *. clearbody i. cbv zeta.
  destruct s as [t m w].
  destruct (chain_find_spec _ _ _ _ (KInt i) (is_index i) R)
    as (r & Hr & Hsp); [intros b Hok; by apply is_index_spec|].
  erewrite mbind_reading by exact Hr. unfold stored. destruct r as [a|].
  - destruct Hsp as (b & l1 & l2 & kvs1 & kvs2 & F). simpl in F.
    destruct (focus_lookup _ _ _ _ _ _ _ _ _ _ F (r_keys _ _ _ _ R)) as (-> & _ & _).
    destruct (_ || _); [done|]. intros Hg.
    destruct (update_data_spec t m w l kvs _ _ _ _ _ _ _ _ v nDataSize
      (advance_next_free i;; mret (SUCCESS, Some a)) R F Hg) as ([t' m' w'] & -> & R' & Ht & He).
    simpl in Ht, He. subst t'. erewrite mbind_ok by apply advance_next_free_run.
    eexists a, _. split; [done|]. split_and!; [by destruct R'; split| | |done|done].
    + rewrite (f_l _ _ _ _ _ _ _ _ _ _ F). set_solver.
    + by eapply (focus_holds_updated (HState t m w) _ _ _ _ _ _ _ _ _ _ (HState t m' w'));
        [|apply R|].
  - rewrite (proj2 (kv_lookup_None _ _) Hsp).
    destruct (new_bucket_spec t m w (sizeof_Bucket - 1) v nDataSize)
      as [(a & d & Hnew & Ha & <-)|[Hnew Hden]].
    + left. erewrite mbind_ok by exact Hnew. cbv beta iota.
      rewrite (bind_assign _ _ (raw_bucket d)) by apply lookup_insert_eq.
      erewrite bind_assign by apply lookup_insert_eq. rewrite !insert_insert_eq.
      set (b := set_h _ _).
      destruct (append_bucket_spec t m w l kvs a b (KInt i) (advance_next_free i)
        (next_free i) (mret (SUCCESS, Some a)) R Ha) as (s' & Hrun & R' & Happ & Hnf).
      * unfold bucket_ok. simpl. done.
      * done.
      * done.
      * intros. apply advance_next_free_run.
      * exists a, s'. split; [exact Hrun|done].
    + right. split; [|done]. by erewrite mbind_ok by exact Hnew.
Qed.

(** ** Removing a bucket *)

Lemma chain_removed_self m arr mask l a b i p :
  chains m arr mask l -> a ∈ l -> m !! a = Some b -> arr !! i = Some p ->
  Z.land (h b) mask = Z.of_nat i -> chain_removed b m !! a = Some b.
Proof.
  intros Hc Ha Hb Hi Hh.
  destruct (chain_split _ _ _ _ _ _ _ _ Hc Ha Hb Hi Hh)
    as (c1 & c2 & _ & (_ & Hnd & _) & Hl & Hn).
  apply NoDup_app_mid in Hnd as (H1 & H2 & _).
  assert (forall q f x, (forall y, q = Some y -> y <> a) ->
    x !! a = Some b -> opt_alter q f x !! a = Some b :> option (Bucket V)) as Hop.
  { intros [y|] f x Hq Hx; [|done]. simpl. rewrite lookup_alter_ne; [done|]. by apply Hq. }
  unfold chain_removed. apply Hop; [|apply Hop; [|done]]; intros y Hy ->.
  - rewrite Hn in Hy. by apply head_ptr_elem in Hy.
  - rewrite Hl in Hy. by apply last_ptr_elem in Hy.
Qed.

(** The table and heap after [a] has left both lists and been freed. *)
Definition removed_ht a b t : HashTable V W :=
  unlinked a b
    (set_arBuckets (arr_removed b (Z.to_nat (Z.land (h b) (nTableMask t))) (arBuckets t)) t).
Definition removed_heap a b m : gmap addr (Bucket V) :=
  delete a (order_removed b (chain_removed b m)).

Lemma remove_spec t m w l kvs n k a b l1 l2 kvs1 kvs2 :
  reprn (HState t m w) l kvs n -> focus m l kvs k a b l1 l2 kvs1 kvs2 ->
  reprn (HState (removed_ht a b t) (removed_heap a b m) w) (l1 ++ l2) (kvs1 ++ kvs2) n.
Proof.
  intros R F. pose proof (r_size _ _ _ _ R) as Hsz. simpl in Hsz.
  destruct F as [-> -> H1 H2 Hb Hok Hk].
  destruct R as [Rsz Rnd Rdom Ro Rhd Rtl Rch Rho Rk Rn Rcu]. simpl in *.
  destruct (index_lookup t (h b) Hsz) as [p Hp].
  pose proof (chain_remove _ _ _ _ _ _ _ _ _ Rch Rnd Hb Hp
    (eq_sym (index_nat _ _ Hsz))) as Hc.
  pose proof (chain_removed_frame b m) as Hf1.
  pose proof (order_removed_frame b (chain_removed b m)) as Hf2.
  pose proof (order_seg_chain_frame _ _ _ _ _ Hf1 Ro) as Ho1.
  assert (Hb1 : chain_removed b m !! a = Some b).
  { eapply chain_removed_self; [exact Rch|set_solver|done|done|].
    symmetry. by apply index_nat. }
  destruct (order_remove _ _ _ _ _ Ho1 Rnd Hb1) as (Hl & Hn & Ho2).
  pose proof (NoDup_app_mid _ _ _ Rnd) as (Ha1 & Ha2 & Rnd').
  assert (Hho : forall x kv, x ∈ l1 \/ x ∈ l2 -> holds m x kv -> holds (removed_heap a b m) x kv).
  { intros x kv Hx Hkv. apply holds_delete_ne; [set_solver|].
    eapply holds_order_frame; [done|]. by eapply holds_chain_frame. }
  split; simpl; try done.
  - destruct Hsz as (? & ? & ?). split_and!; [done|done|]. simpl. unfold arr_removed.
    case_match; [done|]. by rewrite length_insert.
  - intros x Hx. unfold removed_heap in Hx. rewrite lookup_delete in Hx.
    case_decide; [by destruct Hx|].
    apply (order_frame_is_Some _ _ _ Hf2), (chain_frame_is_Some _ _ _ Hf1), Rdom in Hx.
    set_solver.
  - apply seg_delete_ne; [set_solver|done].
  - rewrite Hl, Hn, Rhd. destruct l1 as [|x l1]; [done|].
    destruct (last_ptr None (x :: l1)) eqn:E; [done|by apply last_ptr_None in E].
  - rewrite Hl, Hn, Rtl, !last_ptr_app, last_ptr_cons. destruct l2 as [|x l2]; [done|].
    by rewrite !last_ptr_cons.
  - eapply chains_ext; [|by eapply chains_order_frame]. intros x Hx.
    unfold removed_heap. rewrite lookup_delete_ne; [done|set_solver].
  - apply Forall2_app; (eapply Forall2_impl_in; [done|]); eauto.
  - rewrite fmap_app in Rk |- *. simpl in Rk. by apply NoDup_app_mid in Rk as (_ & _ & ?).
  - intros x Hx. case_decide as Hd.
    + rewrite Hn in Hx. apply head_ptr_elem in Hx. set_solver.
    + apply Rcu in Hx as Hx'. set_solver.
Qed.

Lemma length_del_count l1 l2 (a : addr) :
  u32 (u32 (Z.of_nat (length (l1 ++ a :: l2))) - 1) = u32 (Z.of_nat (length (l1 ++ l2))).
Proof. unfold u32. rewrite Zminus_mod_idemp_l, !length_app. f_equal. simpl. lia. Qed.

(** What a deletion does besides removing the entry: the destructor has run
    on the value, the cursor has moved off the bucket. *)
Definition deleted s s' a b : Prop :=
  env s' = dtor_env (ht s) (data_value (pData b)) (env s) /\ same_config s s' /\
  nNextFreeElement (ht s') = nNextFreeElement (ht s) /\
  pInternalPointer (ht s') =
    (if decide (pInternalPointer (ht s) = Some a) then pListNext b else pInternalPointer (ht s)).

Lemma run_dtor_run t m w a b :
  m !! a = Some b ->
  run_dtor (Some a) (HState t m w) = Ok (tt, HState t m (dtor_env t (data_value (pData b)) w)).
Proof.
  intros Hb. unfold run_dtor, dtor_env. rewrite bind_get. simpl.
  destruct (pDestructor t); [|done]. by rewrite (bind_deref _ b).
Qed.

Lemma order_removed_self m l1 a l2 b :
  NoDup (l1 ++ a :: l2) -> pListLast b = last_ptr None l1 -> pListNext b = head_ptr l2 None ->
  m !! a = Some b -> order_removed b m !! a = Some b.
Proof.
  intros (H1 & H2 & _)%NoDup_app_mid Hl Hn Hb.
  assert (forall q f x, (forall y, q = Some y -> y <> a) ->
    x !! a = Some b -> opt_alter q f x !! a = Some b :> option (Bucket V)) as Hop.
  { intros [y|] f x Hq Hx; [|done]. simpl. rewrite lookup_alter_ne; [done|]. by apply Hq. }
  unfold order_removed. apply Hop; [|apply Hop; [|done]]; intros y Hy ->.
  - rewrite Hn in Hy. by apply head_ptr_elem in Hy.
  - rewrite Hl in Hy. by apply last_ptr_elem in Hy.
Qed.

(** The facts about a focused bucket that the deletions share. *)
Lemma focus_links t m w l kvs n k a b l1 l2 kvs1 kvs2 :
  reprn (HState t m w) l kvs n -> focus m l kvs k a b l1 l2 kvs1 kvs2 ->
  exists p, let i := Z.land (h b) (nTableMask t) in
    arBuckets t !! Z.to_nat i = Some p /\ 0 <= i /\ a ∈ l /\ m !! a = Some b /\
    pListLast b = last_ptr None l1 /\ pListNext b = head_ptr l2 None /\
    chain_removed b m !! a = Some b /\
    seg order_links (chain_removed b m) None (l1 ++ a :: l2) None /\
    NoDup (l1 ++ a :: l2) /\ order_removed b (chain_removed b m) !! a = Some b.
Proof.
  intros R F. pose proof (r_size _ _ _ _ R) as Hsz. simpl in Hsz.
  destruct F as [-> -> H1 H2 Hb Hok Hk].
  destruct (index_lookup t (h b) Hsz) as [p Hp].
  pose proof (chain_removed_frame b m) as Hf1.
  pose proof (order_seg_chain_frame _ _ _ _ _ Hf1 (r_order _ _ _ _ R)) as Ho1.
  assert (Hb1 : chain_removed b m !! a = Some b).
  { eapply chain_removed_self; [exact (r_chains _ _ _ _ R)|set_solver|done|exact Hp|].
    symmetry. by apply index_nat. }
  destruct (order_remove _ _ _ _ _ Ho1 (r_nodup _ _ _ _ R) Hb1) as (Hl & Hn & _).
  exists p. cbv zeta. split_and!; try done; try apply index_range, Hsz.
  - set_solver.
  - apply (r_nodup _ _ _ _ R).
  - by eapply order_removed_self; [apply (r_nodup _ _ _ _ R)|..].
Qed.

Lemma reprn_ht_env t m w w' l kvs n n' :
  reprn (HState t m w) l kvs n ->
  reprn (HState (set_nNumOfElements n' t) m w') l kvs n'.
Proof. intros []. by split. Qed.

Lemma del_at_spec t m w l kvs k a b l1 l2 kvs1 kvs2 :
  repr (HState t m w) l kvs -> focus m l kvs k a b l1 l2 kvs1 kvs2 ->
  exists s', (unlink_chain (Z.land (h b) (nTableMask t)) (Some a);;
      unlink_global (Some a);; destroy_bucket (Some a);; decrement_count) (HState t m w)
      = Ok (tt, s') /\
    repr s' (l1 ++ l2) (kvs1 ++ kvs2) /\ deleted (HState t m w) s' a b.
Proof.
  intros R F. pose proof (remove_spec _ _ _ _ _ _ _ _ _ _ _ _ _ R F) as R'.
  destruct (focus_links _ _ _ _ _ _ _ _ _ _ _ _ _ R F)
    as (p & Hp & Hi & Ha & Hb & Hl & Hn & Hb1 & Ho1 & Hnd & Hb2).
  erewrite mbind_ok by (eapply run_unlink_chain; [apply (r_chains _ _ _ _ R)|done..]).
  erewrite mbind_ok by (by eapply run_unlink_global).
  unfold destroy_bucket. rewrite mbind_assoc.
  erewrite mbind_ok by (by apply run_dtor_run).
  erewrite mbind_ok by (apply release_ok; by eexists).
  unfold decrement_count. rewrite mbind_get. eexists. split; [done|]. split.
  - unfold repr. rewrite <- (length_del_count l1 l2 a), <- (f_l _ _ _ _ _ _ _ _ _ _ F).
    simpl. rewrite <- (r_count _ _ _ _ R). simpl. eapply reprn_ht_env. exact R'.
  - unfold deleted, same_config. done.
Qed.

Lemma is_deleted_spec hv (key : list byte) b :
  bucket_ok b -> (key <> [] -> hv = zend_inline_hash_func key) ->
  is_deleted hv key b = true <->
  bucket_key b = match key with [] => KInt hv | _ => KStr key end.
Proof.
  intros Hok Hhv. destruct key as [|c key].
  - rewrite <- is_index_spec. unfold is_deleted, is_index.
    change (Z.of_nat (length [])) with 0.
    destruct (h b =? hv), (nKeyLength b =? 0); simpl; tauto.
  - rewrite <- (is_key_spec _ _ Hok), Hhv by done. unfold is_deleted, is_key.
    rewrite !andb_true_iff, orb_true_iff, !Z.eqb_eq. simpl length. split; [|naive_solver].
    intros [[? ?] [?|?]]; [lia|done].
Qed.

Definition key_of (key : list byte) (hv : Z) : hkey :=
  match key with [] => KInt hv | _ => KStr key end.

Lemma del_spec s l kvs (key : list byte) hv flag :
  repr s l kvs ->
  (flag <> HASH_DEL_KEY -> key <> [] -> hv = zend_inline_hash_func key) ->
  (flag = HASH_DEL_KEY -> key <> []) ->
  match kv_lookup (key_of key hv) kvs with
  | Some old =>
      exists a b s' l1 l2, zend_hash_del_key_or_index key hv flag s = Ok (SUCCESS, s') /\
        l = l1 ++ a :: l2 /\ repr s' (l1 ++ l2) (kv_delete (key_of key hv) kvs) /\
        data_value (pData b) = old /\ pListNext b = head_ptr l2 None /\ deleted s s' a b
  | None => zend_hash_del_key_or_index key hv flag s = Ok (FAILURE, s)
  end.
Proof.
  intros R Hq Hne. unfold zend_hash_del_key_or_index. cbv zeta. rewrite mbind_get.
  set (hv' := if flag =? HASH_DEL_KEY then zend_inline_hash_func key else hv).
  assert (Hk : key <> [] -> hv' = zend_inline_hash_func key).
  { intros Hk. unfold hv'. destruct (Z.eqb_spec flag HASH_DEL_KEY); auto. }
  assert (Hh : hv' = hash_of (key_of key hv)).
  { destruct key as [|c key]; [|by apply Hk]. unfold hv'. simpl.
    destruct (Z.eqb_spec flag HASH_DEL_KEY); [by destruct Hne|done]. }
  destruct s as [t m w].
  destruct (chain_find_spec _ _ _ _ (key_of key hv) (is_deleted hv' key) R) as (r & Hr & Hsp).
  { intros b Hok. rewrite (is_deleted_spec _ _ _ Hok Hk).
    destruct key; [|done]. simpl in Hh. by rewrite Hh. }
  rewrite <- Hh in Hr. erewrite mbind_reading by exact Hr. destruct r as [a|].
  - destruct Hsp as (b & l1 & l2 & kvs1 & kvs2 & F). simpl in F.
    destruct (focus_lookup _ _ _ _ _ _ _ _ _ _ F (r_keys _ _ _ _ R)) as (-> & _ & ->).
    destruct (del_at_spec _ _ _ _ _ _ _ _ _ _ _ _ R F) as (s' & Hrun & R' & Hd).
    rewrite <- (f_key _ _ _ _ _ _ _ _ _ _ F), <- (bucket_key_hash b) in Hh
      by apply (f_ok _ _ _ _ _ _ _ _ _ _ F).
    rewrite Hh. exists a, b, s', l1, l2. split_and!; try done.
    + cbn [ht]. rewrite <- !mbind_assoc. erewrite mbind_ok; [done|]. rewrite !mbind_assoc.
      by rewrite <- Hrun.
    + apply (f_l _ _ _ _ _ _ _ _ _ _ F).
    + by destruct (focus_links _ _ _ _ _ _ _ _ _ _ _ _ _ R F) as (?&?&?&?&?&?&?&?).
  - by rewrite (proj2 (kv_lookup_None _ _) Hsp).
Qed.
End Ops.
