(* ===== verification/ZendHashIter.v ===== *)
(** * Walks over the hash table: apply functions, destruction, traversal *)

From S2P Require Import Prelude Dll ZendHash ZendHashInv ZendHashSteps ZendHashOps.
Open Scope Z_scope.

Section Iter.
Context {V W : Type} `{Allocator}.
Implicit Types (s : hstate V W) (t : HashTable V W) (m : gmap addr (Bucket V)) (w : W)
  (b : Bucket V) (l : list addr) (kvs : list (hkey * V)).

(** ** The deleter of the apply functions *)

Lemma run_deleter_chain {B} t m w l a b p (c : M (hstate V W) B) :
  chains m (arBuckets t) (nTableMask t) l -> a ∈ l -> m !! a = Some b ->
  0 <= Z.land (h b) (nTableMask t) ->
  arBuckets t !! Z.to_nat (Z.land (h b) (nTableMask t)) = Some p ->
  ((match pLast b with
    | Some _ => assign (pLast b) (set_pNext (pNext b))
    | None => set_arBuckets_at (Z.land (h b) (nTableMask t)) (pNext b)
    end);;
   assign_if (pNext b) (set_pLast (pLast b));; c) (HState t m w) =
  c (HState (set_arBuckets (arr_removed b (Z.to_nat (Z.land (h b) (nTableMask t)))
                    (arBuckets t)) t) (chain_removed b m) w).
Proof.
  intros Hc Ha Hb Hpos Hi.
  pose proof (fun x => chain_neighbours _ _ _ _ _ _ _ _ x Hc Ha Hb Hi
    (eq_sym (Z2Nat.id _ Hpos))) as Hnb.
  unfold chain_removed, arr_removed. destruct (pLast b) as [y|] eqn:Hl.
  - destruct (Hnb y) as [by_ Hby]; [by right|].
    erewrite bind_assign by done. simpl. rewrite (alter_insert _ _ _ _ Hby).
    replace (set_arBuckets (arBuckets t) t) with t by (by destruct t).
    erewrite mbind_ok; [done|]. apply run_assign_if. intros x Hx.
    rewrite lookup_insert. case_decide; [done|]. apply Hnb. by left.
  - erewrite mbind_ok by (by apply run_set_arBuckets_at).
    erewrite mbind_ok; [done|]. apply run_assign_if. intros x Hx. apply Hnb. by left.
Qed.

Lemma deleter_spec t m w l kvs k a b l1 l2 kvs1 kvs2 :
  repr (HState t m w) l kvs -> focus m l kvs k a b l1 l2 kvs1 kvs2 ->
  exists s', zend_hash_apply_deleter (Some a) (HState t m w) = Ok (head_ptr l2 None, s') /\
    repr s' (l1 ++ l2) (kvs1 ++ kvs2) /\ deleted (HState t m w) s' a b.
Proof.
  intros R F. pose proof (remove_spec _ _ _ _ _ _ _ _ _ _ _ _ _ R F) as R'.
  destruct (focus_links _ _ _ _ _ _ _ _ _ _ _ _ _ R F)
    as (p & Hp & Hi & Ha & Hb & Hl & Hn & Hb1 & Ho1 & Hnd & Hb2).
  unfold zend_hash_apply_deleter. erewrite bind_deref by done. rewrite bind_get. cbn [ht].
  erewrite run_deleter_chain by first [apply (r_chains _ _ _ _ R) | done].
  erewrite mbind_ok by (by eapply run_unlink_global).
  unfold decrement_count. rewrite mbind_assoc, mbind_get. rewrite bind_set_ht.
  erewrite mbind_ok by (by apply run_dtor_run). erewrite bind_deref by done.
  erewrite mbind_ok by (apply release_ok; by eexists).
  rewrite Hn. eexists. split; [done|]. split.
  - unfold repr. rewrite <- (length_del_count l1 l2 a), <- (f_l _ _ _ _ _ _ _ _ _ _ F).
    simpl. rewrite <- (r_count _ _ _ _ R). simpl. eapply reprn_ht_env. exact R'.
  - unfold deleted, same_config. done.
Qed.

(** ** Apply functions *)

(** A callback that sees of a bucket only its key. *)
Definition sees_key (f : callback) (g : hkey -> V -> W -> Z * V * W) : Prop :=
  forall b v w, bucket_ok b ->
    f (HashKey (arKey b) (nKeyLength b) (h b)) v w = g (bucket_key b) v w.

(** The abstract run: entries left, and the environment. *)
Fixpoint apply_entries (t : HashTable V W) (g : hkey -> V -> W -> Z * V * W) kvs w
    : list (hkey * V) * W :=
  match kvs with
  | [] => ([], w)
  | (k, v) :: rest =>
      let '(r, v', w1) := g k v w in
      let kept := if has_flag r ZEND_HASH_APPLY_REMOVE then [] else [(k, v')] in
      let w2 := if has_flag r ZEND_HASH_APPLY_REMOVE then dtor_env t v' w1 else w1 in
      if has_flag r ZEND_HASH_APPLY_STOP then (kept ++ rest, w2)
      else let '(rest', w3) := apply_entries t g rest w2 in (kept ++ rest', w3)
  end.

(** The head of the part of the table that is left to walk. *)
Lemma focus_head m lp a lr kp kr :
  Forall2 (holds m) (lp ++ a :: lr) (kp ++ kr) -> length lp = length kp ->
  exists b kr', kr = (bucket_key b, data_value (pData b)) :: kr' /\
    focus m (lp ++ a :: lr) (kp ++ kr) (bucket_key b) a b lp lr kp kr'.
Proof.
  intros Hh Hlen. apply Forall2_app_inv in Hh as [H1 H2]; [|done].
  apply Forall2_cons_inv_l in H2 as (kv & kr' & (b & Hb & Hok & <-) & H2 & ->).
  exists b, kr'. done.
Qed.

Lemma focus_set_data m l kvs k a b l1 l2 kvs1 kvs2 d :
  focus m l kvs k a b l1 l2 kvs1 kvs2 -> NoDup l -> NoDup kvs.*1 ->
  focus (<[a := set_pData d b]> m) l (kvs1 ++ (k, data_value d) :: kvs2) k a
    (set_pData d b) l1 l2 kvs1 kvs2.
Proof.
  intros [-> -> H1 H2 Hb Hok Hk] Hnd Hk'. apply NoDup_app_mid in Hnd as (Ha1 & Ha2 & _).
  split; try done.
  - eapply Forall2_impl_in; [done|]. intros x kv Hx. apply holds_insert_ne. by intros ->.
  - eapply Forall2_impl_in; [done|]. intros x kv Hx. apply holds_insert_ne. by intros ->.
  - apply lookup_insert_eq.
Qed.

Lemma data_value_set v (d : hdata V) : data_value (data_set v d) = v.
Proof. by destruct d. Qed.

Lemma call_apply_spec {B} f g t m w l kvs n k a b l1 l2 kvs1 kvs2
    (c : Z -> M (hstate V W) B) :
  sees_key f g -> reprn (HState t m w) l kvs n -> focus m l kvs k a b l1 l2 kvs1 kvs2 ->
  let '(r, v', w1) := g k (data_value (pData b)) w in
  let b' := set_pData (data_set v' (pData b)) b in
  (call_apply f (Some a) ≫= c) (HState t m w) = c r (HState t (<[a := b']> m) w1) /\
  reprn (HState t (<[a := b']> m) w1) l (kvs1 ++ (k, v') :: kvs2) n /\
  focus (<[a := b']> m) l (kvs1 ++ (k, v') :: kvs2) k a b' l1 l2 kvs1 kvs2.
Proof.
  intros Hf R F. pose proof F as [Hl Hkv H1 H2 Hb Hok Hk].
  destruct (g k (data_value (pData b)) w) as [[r v'] w1] eqn:Hg. cbv zeta. split_and!.
  - unfold call_apply. rewrite mbind_assoc. erewrite bind_deref by done.
    rewrite mbind_assoc, bind_get. cbn [env]. rewrite (Hf b) by done. rewrite Hk, Hg.
    rewrite mbind_assoc. erewrite bind_assign by done. done.
  - pose proof (set_data_spec t m w w1 _ _ _ _ _ _ _ _ _ _ (data_set v' (pData b)) R F) as R'.
    destruct (focus_lookup _ _ _ _ _ _ _ _ _ _ F (r_keys _ _ _ _ R)) as (_ & Hu & _).
    by rewrite data_value_set, Hu in R'.
  - pose proof (focus_set_data _ _ _ _ _ _ _ _ _ _ (data_set v' (pData b)) F
      (r_nodup _ _ _ _ R) (r_keys _ _ _ _ R)) as F'.
    by rewrite data_value_set in F'.
Qed.

Lemma dtor_env_config s s' v w : same_config s s' -> dtor_env (ht s') v w = dtor_env (ht s) v w.
Proof. intros [Hd _]. unfold dtor_env. by rewrite Hd. Qed.
Lemma apply_entries_config s s' g kvs w :
  same_config s s' -> apply_entries (ht s') g kvs w = apply_entries (ht s) g kvs w.
Proof.
  intros Hc. revert w. induction kvs as [|[k v] kvs IH]; intros w; [done|]. simpl.
  destruct (g k v w) as [[r v'] w1]. rewrite (dtor_env_config _ _ _ _ Hc).
  by rewrite IH.
Qed.
Lemma same_config_trans s1 s2 s3 : same_config s1 s2 -> same_config s2 s3 -> same_config s1 s3.
Proof. unfold same_config. intros (?&?&?&?) (?&?&?&?). split_and!; congruence. Qed.
Lemma same_config_refl s : same_config s s.
Proof. done. Qed.

Lemma apply_loop_spec f g lr : forall fuel lp kp kr t m w,
  sees_key f g -> repr (HState t m w) (lp ++ lr) (kp ++ kr) -> length lp = length kp ->
  (length lr < fuel)%nat ->
  exists s' l', apply_loop fuel f (head_ptr lr None) (HState t m w) = Ok (tt, s') /\
    repr s' (lp ++ l') (kp ++ (apply_entries t g kr w).1) /\
    env s' = (apply_entries t g kr w).2 /\ same_config (HState t m w) s' /\
    nNextFreeElement (ht s') = nNextFreeElement t.
Proof.
  induction lr as [|a lr IH]; intros fuel lp kp kr t m w Hf R Hlen Hfu;
    destruct fuel as [|fuel]; try (simpl in Hfu; lia).
  - exists (HState t m w), []. pose proof (Forall2_length _ _ _ (r_holds _ _ _ _ R)) as Hl.
    rewrite !length_app in Hl. destruct kr; [|simpl in Hl; lia]. done.
  - destruct (focus_head _ _ _ _ _ _ (r_holds _ _ _ _ R) Hlen) as (b & kr' & -> & F).
    cbn [apply_loop head_ptr]. cbn [buckets] in F.
    pose proof (fun B c => call_apply_spec (B := B) f g t m w _ _ _ _ _ _ _ _ _ _ c Hf R F) as Hcall.
    cbn [apply_entries]. destruct (g _ _ w) as [[r v'] w1] eqn:Hg.
    destruct (Hcall _ (fun _ => mret tt)) as (_ & R1 & F1).
    rewrite (proj1 (Hcall _ _)). clear Hcall. set (b' := set_pData _ b) in *.
    set (m1 := <[a:=b']> m) in *.
    destruct (has_flag r ZEND_HASH_APPLY_REMOVE).
    + destruct (deleter_spec _ _ _ _ _ _ _ _ _ _ _ _ R1 F1)
        as ([t2 m2 w2] & Hrun & R2 & He & Hc & Hnf & _).
      erewrite mbind_ok by exact Hrun. simpl in He, Hnf. rewrite data_value_set in He.
      destruct (has_flag r ZEND_HASH_APPLY_STOP).
      * exists (HState t2 m2 w2), lr. simpl. by rewrite He in *.
      * destruct (IH fuel lp kp kr' t2 m2 w2 Hf R2 Hlen) as (s' & l' & Hr & R' & He' & Hc' & Hn');
          [simpl in Hfu; lia|].
        pose proof (apply_entries_config (HState t m1 w1) (HState t2 m2 w2) g kr' w2 Hc) as Heq.
        simpl in Heq. rewrite Heq, He in R', He'. clear Heq.
        exists s', l'. destruct (apply_entries _ _ kr' _). simpl in *.
        split_and!; try done; [|congruence]. by eapply same_config_trans.
    + rewrite mbind_assoc. erewrite bind_deref by apply F1. rewrite mbind_ret.
      assert (Hnx : pListNext b' = head_ptr lr None).
      { by destruct (focus_links _ _ _ _ _ _ _ _ _ _ _ _ _ R1 F1) as (?&?&?&?&?&?&?&?). }
      rewrite Hnx. destruct (has_flag r ZEND_HASH_APPLY_STOP).
      * exists (HState t m1 w1), (a :: lr). by split_and!.
      * destruct (IH fuel (lp ++ [a]) (kp ++ [(bucket_key b, v')]) kr' t m1 w1 Hf)
          as (s' & l' & Hr & R' & He' & Hc' & Hn').
        { by rewrite <- !app_assoc. }
        { rewrite !length_app. simpl. lia. }
        { simpl in Hfu. lia. }
        exists s', (a :: l'). destruct (apply_entries _ _ kr' _). simpl in *.
        rewrite <- !app_assoc in R'. by split_and!.
Qed.

Lemma reverse_apply_loop_spec f g lp : forall fuel lr kp kr t m w,
  sees_key f g -> repr (HState t m w) (lp ++ lr) (kp ++ kr) -> length lp = length kp ->
  (length lp < fuel)%nat ->
  exists s' l', reverse_apply_loop fuel f (last_ptr None lp) (HState t m w) = Ok (tt, s') /\
    repr s' (l' ++ lr) (reverse (apply_entries t g (reverse kp) w).1 ++ kr) /\
    env s' = (apply_entries t g (reverse kp) w).2 /\ same_config (HState t m w) s' /\
    nNextFreeElement (ht s') = nNextFreeElement t.
Proof.
  induction lp as [|a lp IH] using rev_ind; intros fuel lr kp kr t m w Hf R Hlen Hfu;
    destruct fuel as [|fuel]; try (simpl in Hfu; lia).
  - exists (HState t m w), []. destruct kp; [|done]. done.
  - rewrite <- app_assoc in R. cbn [app] in R.
    destruct kp as [|kv kp _] using rev_ind;
      [rewrite length_app in Hlen; simpl in Hlen; lia|].
    rewrite !length_app in Hlen. simpl in Hlen. rewrite <- app_assoc in R. cbn [app] in R.
    destruct (focus_head _ _ _ _ _ _ (r_holds _ _ _ _ R)) as (b & kr' & Hkv & F); [lia|].
    injection Hkv as -> <-. rewrite last_ptr_snoc, reverse_snoc.
    cbn [reverse_apply_loop]. cbn [buckets] in F.
    pose proof (fun B c => call_apply_spec (B := B) f g t m w _ _ _ _ _ _ _ _ _ _ c Hf R F) as Hcall.
    cbn [apply_entries]. destruct (g _ _ w) as [[r v'] w1] eqn:Hg.
    destruct (Hcall _ (fun _ => mret tt)) as (_ & R1 & F1).
    rewrite (proj1 (Hcall _ _)). clear Hcall. set (b' := set_pData _ b) in *.
    set (m1 := <[a:=b']> m) in *.
    erewrite bind_deref by apply F1.
    assert (Hlx : pListLast b' = last_ptr None lp).
    { by destruct (focus_links _ _ _ _ _ _ _ _ _ _ _ _ _ R1 F1) as (?&?&?&?&?&?&?). }
    rewrite Hlx. destruct (has_flag r ZEND_HASH_APPLY_REMOVE).
    + destruct (deleter_spec _ _ _ _ _ _ _ _ _ _ _ _ R1 F1)
        as ([t2 m2 w2] & Hrun & R2 & He & Hc & Hnf & _).
      rewrite mbind_assoc. erewrite mbind_ok by exact Hrun. rewrite mbind_ret.
      simpl in He, Hnf. rewrite data_value_set in He.
      destruct (has_flag r ZEND_HASH_APPLY_STOP).
      * exists (HState t2 m2 w2), lp. simpl. rewrite reverse_involutive. by rewrite He in *.
      * destruct (IH fuel lr kp kr t2 m2 w2 Hf R2) as (s' & l' & Hr & R' & He' & Hc' & Hn');
          [lia|rewrite length_app in Hfu; simpl in Hfu; lia|].
        pose proof (apply_entries_config (HState t m1 w1) (HState t2 m2 w2) g (reverse kp) w2 Hc)
          as Heq.
        simpl in Heq. rewrite Heq, He in R', He'. clear Heq.
        exists s', l'. destruct (apply_entries _ _ (reverse kp) _). simpl in *.
        split_and!; try done; [|congruence]. by eapply same_config_trans.
    + rewrite mbind_ret. destruct (has_flag r ZEND_HASH_APPLY_STOP).
      * exists (HState t m1 w1), (lp ++ [a]). rewrite <- app_assoc.
        cbn [fst snd app]. rewrite reverse_cons, reverse_involutive, <- app_assoc. by split_and!.
      * destruct (IH fuel (a :: lr) kp ((bucket_key b, v') :: kr) t m1 w1 Hf)
          as (s' & l' & Hr & R' & He' & Hc' & Hn').
        { done. } { lia. } { rewrite length_app in Hfu; simpl in Hfu; lia. }
        exists s', (l' ++ [a]). destruct (apply_entries _ _ (reverse kp) _). cbn [fst snd app] in *.
        rewrite reverse_cons, <- !app_assoc. by split_and!.
Qed.

(** ** The recursion protection *)

Lemma u8_incr_decr c : 0 <= c < 256 -> u8 (u8 (c + 1) - 1) = c.
Proof.
  intros Hc. unfold u8. change (2 ^ 8) with 256. rewrite Zminus_mod_idemp_l.
  replace (c + 1 - 1) with c by lia. by apply Z.mod_small.
Qed.

Definition count_ok t : Prop := 0 <= nApplyCount t < 256.
(** The protection lets another nested application in. *)
Definition may_apply t : Prop := bApplyProtection t = false \/ nApplyCount t < 3.

(** A body run under the protection, from a state that differs from the
    caller's in the count only. *)
Definition protected_ht t : HashTable V W :=
  if bApplyProtection t then set_nApplyCount (u8 (nApplyCount t + 1)) t else t.

Lemma protect_run t m w :
  HASH_PROTECT_RECURSION (HState t m w) =
  if bApplyProtection t && (3 <=? nApplyCount t) then Err Bailout
  else Ok (tt, HState (protected_ht t) m w).
Proof.
  unfold HASH_PROTECT_RECURSION, protected_ht. rewrite bind_get. cbn [ht].
  destruct (bApplyProtection t); [|done]. rewrite bind_set_ht. by destruct (3 <=? _).
Qed.

Lemma may_apply_run t m w : may_apply t ->
  HASH_PROTECT_RECURSION (HState t m w) = Ok (tt, HState (protected_ht t) m w).
Proof.
  intros Ha. rewrite protect_run. destruct Ha as [-> |Hlt]; [done|].
  rewrite (proj2 (Z.leb_gt 3 (nApplyCount t))) by done. by rewrite andb_false_r.
Qed.

Lemma reprn_config t t' m w l kvs n :
  nTableSize t' = nTableSize t -> nTableMask t' = nTableMask t ->
  nNumOfElements t' = nNumOfElements t -> pInternalPointer t' = pInternalPointer t ->
  pListHead t' = pListHead t -> pListTail t' = pListTail t -> arBuckets t' = arBuckets t ->
  reprn (HState t m w) l kvs n -> reprn (HState t' m w) l kvs n.
Proof.
  intros H1 H2 H3 H4 H5 H6 H7 [Rsz Rnd Rdom Ro Rhd Rtl Rch Rho Rk Rn Rcu].
  unfold size_ok in *. simpl in *.
  split; simpl; unfold size_ok; rewrite ?H1, ?H2, ?H3, ?H4, ?H5, ?H6, ?H7; done.
Qed.

Lemma protected_repr t m w l kvs n :
  reprn (HState t m w) l kvs n -> reprn (HState (protected_ht t) m w) l kvs n.
Proof. unfold protected_ht. case_match; [|done]. by apply reprn_config. Qed.
Lemma protected_dtor t v w : dtor_env (protected_ht t) v w = dtor_env t v w.
Proof. unfold protected_ht. by case_match. Qed.
Lemma protected_apply_entries t g kvs w :
  apply_entries (protected_ht t) g kvs w = apply_entries t g kvs w.
Proof. unfold protected_ht. case_match; [|done]. revert w.
  induction kvs as [|[k v] kvs IH]; intros w; [done|]. simpl.
  destruct (g k v w) as [[r v'] w1]. unfold dtor_env in *. simpl. by rewrite IH.
Qed.

Lemma unprotect_run t0 m0 w0 t m w :
  count_ok t0 -> same_config (HState (protected_ht t0) m0 w0) (HState t m w) ->
  HASH_UNPROTECT_RECURSION (HState t m w) =
  Ok (tt, HState (set_nApplyCount (nApplyCount t0) t) m w).
Proof.
  intros Hc (_ & _ & Hn & Hb). unfold HASH_UNPROTECT_RECURSION. rewrite bind_get. cbn [ht] in *.
  unfold protected_ht in *. destruct (bApplyProtection t0) eqn:Ep; simpl in Hb, Hn;
    rewrite Hb, Ep.
  - rewrite Hn, u8_incr_decr by exact Hc. done.
  - rewrite <- Hn. by destruct t.
Qed.

Lemma apply_spec f g s l kvs :
  repr s l kvs -> sees_key f g -> count_ok (ht s) -> may_apply (ht s) ->
  exists s' l', zend_hash_apply_with_arguments f s = Ok (tt, s') /\
    repr s' l' (apply_entries (ht s) g kvs (env s)).1 /\
    env s' = (apply_entries (ht s) g kvs (env s)).2 /\ same_config s s'.
Proof.
  intros R Hf Hc Ha. destruct s as [t m w]. cbn [ht env] in *.
  unfold zend_hash_apply_with_arguments. erewrite mbind_ok by (by apply may_apply_run).
  rewrite bind_get. pose proof (protected_repr _ _ _ _ _ _ R) as R1.
  rewrite (r_head _ _ _ _ R1).
  destruct (apply_loop_spec f g l (walk_fuel (HState (protected_ht t) m w)) [] [] kvs
    (protected_ht t) m w Hf R1 eq_refl) as ([t' m' w'] & l' & Hrun & R' & He & Hcf & _).
  { apply Nat.lt_succ_r, live_length; [apply (r_nodup _ _ _ _ R)|]. intros a Hal.
    eapply (seg_lookup order_links); [apply (r_order _ _ _ _ R)|done]. }
  erewrite mbind_ok by exact Hrun. rewrite (unprotect_run t m w) by done.
  rewrite protected_apply_entries in R', He.
  eexists _, l'. split; [done|]. split_and!; [by eapply reprn_config; [..|exact R']|done|].
  unfold same_config, protected_ht in *. cbn [ht] in *.
  destruct (bApplyProtection t) eqn:Ep; simpl in *; destruct Hcf as (?&?&?&?);
    split_and!; congruence.
Qed.

(** ** Destruction *)

(** The destructor run on the values, in the order of the list. *)
Definition dtor_all t (vs : list V) w : W := fold_left (fun w v => dtor_env t v w) vs w.

Lemma dtor_all_config s s' vs w : same_config s s' -> dtor_all (ht s') vs w = dtor_all (ht s) vs w.
Proof.
  intros Hc. revert w. induction vs as [|v vs IH]; intros w; [done|]. simpl.
  by rewrite (dtor_env_config _ _ _ _ Hc), IH.
Qed.

Lemma destroy_loop_spec l : forall fuel t m w p kvs,
  seg order_links m p l None -> NoDup l -> Forall2 (holds m) l kvs -> (length l < fuel)%nat ->
  exists m', destroy_loop fuel (head_ptr l None) (HState t m w) =
    Ok (tt, HState t m' (dtor_all t kvs.*2 w)) /\
    (forall a, m' !! a = if decide (a ∈ l) then None else m !! a).
Proof.
  induction l as [|a l IH]; intros fuel t m w p kvs Hs Hnd Hh Hf;
    destruct fuel as [|fuel]; try (simpl in Hf; lia).
  - apply Forall2_nil_inv_l in Hh as ->. exists m. split; [done|].
    intros a. by rewrite decide_False by set_solver.
  - destruct Hs as (b & Hb & _ & Hn & Hs). apply NoDup_cons in Hnd as [Ha Hnd].
    apply Forall2_cons_inv_l in Hh as (kv & kvs' & (b' & Hb' & _ & <-) & Hh & ->). simplify_eq.
    cbn [destroy_loop head_ptr]. erewrite bind_deref by done.
    unfold destroy_bucket. rewrite mbind_assoc. erewrite mbind_ok by (by apply run_dtor_run).
    erewrite mbind_ok by (apply release_ok; by eexists). simpl in Hn. rewrite Hn.
    destruct (IH fuel t (delete a m) (dtor_env t (data_value (pData b)) w) (Some a) kvs')
      as (m' & Hrun & Hm'); [by apply seg_delete_ne|done| |simpl in Hf; lia|].
    { eapply Forall2_impl_in; [done|]. intros x kv Hx. apply holds_delete_ne. by intros ->. }
    exists m'. split; [exact Hrun|]. intros x. rewrite Hm', lookup_delete.
    repeat case_decide; set_solver.
Qed.

Lemma destroy_all s l kvs n :
  reprn s l kvs n ->
  destroy_loop (walk_fuel s) (pListHead (ht s)) s =
    Ok (tt, HState (ht s) ∅ (dtor_all (ht s) kvs.*2 (env s))).
Proof.
  intros R. destruct s as [t m w]. rewrite (r_head _ _ _ _ R).
  destruct (destroy_loop_spec l (walk_fuel (HState t m w)) t m w None kvs)
    as (m' & Hrun & Hm'); try apply R.
  - apply Nat.lt_succ_r, live_length; [apply (r_nodup _ _ _ _ R)|]. intros a Hal.
    eapply (seg_lookup order_links); [apply (r_order _ _ _ _ R)|done].
  - replace ∅ with m'; [exact Hrun|]. apply map_eq. intros a. rewrite Hm', lookup_empty.
    case_decide as Ha; [done|]. destruct (m !! a) eqn:E; [|done].
    destruct Ha. apply (r_dom _ _ _ _ R). by eexists.
Qed.

Lemma graceful_loop_spec l : forall fuel kvs t m w,
  repr (HState t m w) l kvs -> (length l < fuel)%nat ->
  exists s', graceful_loop fuel (head_ptr l None) (HState t m w) = Ok (tt, s') /\
    repr s' [] [] /\ env s' = dtor_all t kvs.*2 w.
Proof.
  induction l as [|a l IH]; intros fuel kvs t m w R Hf;
    destruct fuel as [|fuel]; try (simpl in Hf; lia).
  - pose proof (r_holds _ _ _ _ R) as Hh. apply Forall2_nil_inv_l in Hh as ->.
    by exists (HState t m w).
  - destruct (focus_head m [] a l [] kvs (r_holds _ _ _ _ R) eq_refl) as (b & kvs' & -> & F).
    destruct (deleter_spec _ _ _ _ _ _ _ _ _ _ _ _ R F)
      as ([t2 m2 w2] & Hrun & R2 & He & Hc & _).
    cbn [graceful_loop head_ptr]. erewrite mbind_ok by exact Hrun.
    destruct (IH fuel kvs' t2 m2 w2 R2) as (s' & Hr & R' & He'); [simpl in Hf; lia|].
    exists s'. split; [exact Hr|]. split; [done|]. rewrite He'.
    pose proof (dtor_all_config _ _ kvs'.*2 w2 Hc) as Hd. simpl in *. by rewrite Hd, He.
Qed.

Lemma graceful_reverse_loop_spec l : forall fuel kvs t m w,
  repr (HState t m w) l kvs -> (length l < fuel)%nat ->
  exists s', graceful_reverse_loop fuel (last_ptr None l) (HState t m w) = Ok (tt, s') /\
    repr s' [] [] /\ env s' = dtor_all t (reverse kvs).*2 w.
Proof.
  induction l as [|a l IH] using rev_ind; intros fuel kvs t m w R Hf;
    destruct fuel as [|fuel]; try (simpl in Hf; lia).
  - pose proof (r_holds _ _ _ _ R) as Hh. apply Forall2_nil_inv_l in Hh as ->.
    by exists (HState t m w).
  - pose proof (r_holds _ _ _ _ R) as Hh.
    apply Forall2_app_inv_l in Hh as (kvs1 & kr & _ & Hh & ->).
    apply Forall2_cons_inv_l in Hh as (kv & kr' & _ & Hh & ->).
    apply Forall2_nil_inv_l in Hh as ->.
    destruct (focus_head m l a [] kvs1 [kv] (r_holds _ _ _ _ R)) as (b & kvs' & Hkv & F).
    { pose proof (Forall2_length _ _ _ (r_holds _ _ _ _ R)) as Hl.
      rewrite !length_app in Hl. simpl in Hl. lia. }
    injection Hkv as -> <-. rewrite last_ptr_snoc, reverse_snoc.
    destruct (deleter_spec _ _ _ _ _ _ _ _ _ _ _ _ R F)
      as ([t2 m2 w2] & Hrun & R2 & He & Hc & _). rewrite !app_nil_r in R2.
    cbn [graceful_reverse_loop]. erewrite mbind_ok by exact Hrun. rewrite bind_get.
    rewrite (r_tail _ _ _ _ R2).
    destruct (IH fuel kvs1 t2 m2 w2 R2) as (s' & Hr & R' & He');
      [rewrite length_app in Hf; simpl in Hf; lia|].
    exists s'. split; [exact Hr|]. split; [done|]. rewrite He'.
    pose proof (dtor_all_config _ _ (reverse kvs1).*2 w2 Hc) as Hd. simpl in *. by rewrite Hd, He.
Qed.

(** ** Traversal *)

(** The entry at a position. *)
Lemma position_entry s l kvs n l1 a l2 :
  reprn s l kvs n -> l = l1 ++ a :: l2 ->
  exists b, deref (Some a) s = Ok b /\ bucket_ok b /\
    kvs !! length l1 = Some (entry b) /\
    pListNext b = head_ptr l2 None /\ pListLast b = last_ptr None l1.
Proof.
  intros R ->. pose proof (r_holds _ _ _ _ R) as Hh.
  apply Forall2_app_inv_l in Hh as (kvs1 & kr & H1 & Hh & ->).
  apply Forall2_cons_inv_l in Hh as (kv & kr' & (b & Hb & Hok & He) & _ & ->).
  destruct (seg_mid _ _ _ _ _ _ _ (r_order _ _ _ _ R)) as (b' & Hb' & Hl & Hn).
  simplify_eq. exists b. split_and!; try done.
  - unfold deref. simpl. by rewrite Hb.
  - rewrite (Forall2_length _ _ _ H1). by rewrite list_lookup_middle.
Qed.
End Iter.

Arguments dtor_all {V W} t vs w.
