(* ===== verification/ZendHashBulk.v ===== *)
(** * Copying, merging and sorting hash tables *)

From S2P Require Import Prelude Dll ZendHash ZendHashInv ZendHashSteps ZendHashOps ZendHashIter.
Open Scope Z_scope.

Section Bulk.
Context {V W : Type} `{Allocator}.
Implicit Types (s : hstate V W) (t : HashTable V W) (m : gmap addr (Bucket V)) (w : W)
  (b : Bucket V) (l : list addr) (kvs : list (hkey * V)).

Lemma deref_at a s b : buckets s !! a = Some b -> deref (Some a) s = Ok b.
Proof. intros Hb. unfold deref. simpl. by rewrite Hb. Qed.

(** No request is turned down.  ([emalloc] does not return NULL: a request
    that cannot be met ends the process.) *)
Definition plentiful : Prop :=
  forall (m : gmap addr (Bucket V)) size, alloc m size <> None /\ mem_ok m size = true.

Lemma not_denied s size nDataSize : plentiful -> ~ denied s size nDataSize.
Proof.
  intros Hp [Hd|Hd]; [by apply (Hp (buckets s) size)|].
  apply Hd. right. apply Hp.
Qed.

Lemma kv_lookup_Some_elem k v kvs : kv_lookup k kvs = Some v -> k ∈ kvs.*1.
Proof.
  intros Hk. destruct (decide (k ∈ kvs.*1)); [done|].
  apply kv_lookup_None in n. congruence.
Qed.

Lemma kv_update_set k v v' kvs : kv_update k v' (kv_set k v kvs) = kv_set k v' kvs.
Proof.
  unfold kv_set. destruct (kv_lookup k kvs) as [old|] eqn:Hk.
  - clear Hk. induction kvs as [|[k' u] kvs IH]; simpl; [done|].
    case_decide; simpl; [by rewrite decide_True|rewrite decide_False by done; by f_equal].
  - apply kv_lookup_None in Hk. by rewrite kv_update_split.
Qed.

(** The environment after a store: the destructor has run on what it replaced. *)
Definition replaced_env t k kvs w : W :=
  match kv_lookup k kvs with Some old => dtor_env t old w | None => w end.

Definition cursor_after t a k kvs : ptr :=
  match kv_lookup k kvs with
  | Some _ => pInternalPointer t
  | None => or_else (pInternalPointer t) (Some a)
  end.

(** What a store that replaces leaves: the value is at [a]. *)
Definition updated s l kvs k v (a : addr) s' l' : Prop :=
  repr s' l' (kv_set k v kvs) /\ a ∈ l' /\ holds (buckets s') a (k, v) /\
  env s' = replaced_env (ht s) k kvs (env s) /\ same_config s s' /\
  pInternalPointer (ht s') = cursor_after (ht s) a k kvs /\ l `prefix_of` l'.

Lemma stored_update s l kvs k v size nDataSize f r :
  repr s l kvs -> plentiful -> stored s l kvs k v false size nDataSize f r ->
  exists a s' l', r = Ok (SUCCESS, Some a, s') /\ updated s l kvs k v a s' l'.
Proof.
  intros R Hp. unfold stored, updated, kv_set, replaced_env, cursor_after.
  destruct (kv_lookup k kvs) as [old|] eqn:Hk.
  - intros Hs. destruct Hs as (a & s' & -> & R' & Ha & Hh & He & Ht); [right; apply Hp|].
    exists a, s', l. split_and!; try done; unfold same_config; by rewrite Ht.
  - intros [(a & s' & -> & R' & (He & Hc & Hip) & _)|[_ Hd]];
      [|by apply not_denied in Hd].
    exists a, s', (l ++ [a]). split_and!; try done; [set_solver| |by eexists].
    pose proof (r_holds _ _ _ _ R') as Hh.
    apply Forall2_app_inv in Hh as [_ Hh]; [by apply Forall2_cons in Hh as [Hh _]|].
    eapply Forall2_length, R.
Qed.

(** A store under the key of a well-formed bucket [b] of another table. *)
Lemma quick_update_spec s l kvs b v size :
  repr s l kvs -> plentiful -> bucket_ok b ->
  exists a s' l',
    (if negb (nKeyLength b =? 0) then zend_hash_quick_update (arKey b) (h b) v size
     else zend_hash_index_update (h b) v size) s = Ok (SUCCESS, Some a, s') /\
    updated s l kvs (bucket_key b) v a s' l'.
Proof.
  intros R Hp [Hr Hok]. unfold bucket_key. destruct (Z.eqb_spec (nKeyLength b) 0) as [H0|H0]; simpl.
  - pose proof (index_update_or_next_insert_spec s l kvs (h b) v size HASH_UPDATE R Hr) as Hs.
    by apply stored_update in Hs.
  - destruct (Hok H0) as [Hl Hh]. assert (arKey b <> []) as Hne.
    { intros He. rewrite He in Hl. simpl in Hl. lia. }
    pose proof (add_or_update_key_spec s l kvs (arKey b) v size HASH_UPDATE R Hne) as Hs.
    apply stored_update in Hs; [|done..].
    unfold zend_hash_quick_update, zend_hash_quick_add_or_update.
    rewrite (proj2 (Z.eqb_neq _ _)) by lia. by rewrite Hh.
Qed.

(** Running the copy constructor on the entry just stored. *)
Definition ctor_value (ctor : option (V -> W -> V * W)) (v : V) w : V * W :=
  match ctor with None => (v, w) | Some f => f v w end.

Lemma copy_ctor_spec ctor s l kvs a k v :
  repr s l kvs -> a ∈ l -> holds (buckets s) a (k, v) ->
  exists s', run_copy_ctor ctor (Some a) s = Ok (tt, s') /\
    repr s' l (kv_update k (ctor_value ctor v (env s)).1 kvs) /\
    env s' = (ctor_value ctor v (env s)).2 /\ ht s' = ht s.
Proof.
  intros R Ha (b & Hb & Hok & He). destruct s as [t m w]. injection He as Hk Hv. simpl in *.
  destruct (focus_at _ _ _ _ _ (r_holds _ _ _ _ R) Ha Hb) as (l1 & l2 & kvs1 & kvs2 & F).
  rewrite Hk in F. destruct (focus_lookup _ _ _ _ _ _ _ _ _ _ F (r_keys _ _ _ _ R))
    as (_ & Hu & _).
  unfold run_copy_ctor, ctor_value. destruct ctor as [f|].
  - erewrite bind_deref by done. rewrite bind_get. cbn [env]. rewrite Hv.
    destruct (f v w) as [v' w'] eqn:Hf. erewrite bind_assign by done.
    eexists. split; [done|]. split_and!; [|done..].
    pose proof (set_data_spec t m w w' _ _ _ _ _ _ _ _ _ _ (data_set v' (pData b)) R F) as R'.
    by rewrite data_value_set in R'.
  - exists (HState t m w). split; [done|]. split_and!; [|done..]. simpl.
    by rewrite Hu, <- Hv, <- (f_kvs _ _ _ _ _ _ _ _ _ _ F).
Qed.

(** ** [zend_hash_copy] *)

Fixpoint copy_entries t (ctor : option (V -> W -> V * W)) (src tgt : list (hkey * V)) w
    : list (hkey * V) * W :=
  match src with
  | [] => (tgt, w)
  | (k, v) :: src' =>
      let '(v', w') := ctor_value ctor v (replaced_env t k tgt w) in
      copy_entries t ctor src' (kv_set k v' tgt) w'
  end.

Lemma replaced_env_config s s' k kvs w :
  same_config s s' -> replaced_env (ht s') k kvs w = replaced_env (ht s) k kvs w.
Proof. intros Hc. unfold replaced_env. case_match; [|done]. by apply dtor_env_config. Qed.
Lemma copy_entries_config s s' ctor src tgt w :
  same_config s s' -> copy_entries (ht s') ctor src tgt w = copy_entries (ht s) ctor src tgt w.
Proof.
  intros Hc. revert tgt w. induction src as [|[k v] src IH]; intros tgt w; [done|]. simpl.
  rewrite (replaced_env_config _ _ _ _ _ Hc). by destruct (ctor_value _ _ _).
Qed.

(** The key of the bucket [pInternalPointer] points to. *)
Definition cursor_key s : option hkey :=
  match pInternalPointer (ht s) with Some a => bucket_key <$> buckets s !! a | None => None end.

Lemma cursor_key_at s l kvs n a i :
  reprn s l kvs n -> pInternalPointer (ht s) = Some a -> l !! i = Some a ->
  exists k, kvs.*1 !! i = Some k /\ cursor_key s = Some k.
Proof.
  intros R Ha Hi. destruct (Forall2_lookup_l _ _ _ _ _ (r_holds _ _ _ _ R) Hi) as (kv & Hkv & b & Hb & _ & He).
  exists (bucket_key b). unfold cursor_key. rewrite Ha, Hb, list_lookup_fmap, Hkv, <- He. done.
Qed.
Lemma cursor_key_None s l kvs n :
  reprn s l kvs n -> cursor_key s = None <-> pInternalPointer (ht s) = None.
Proof.
  intros R. split; [|unfold cursor_key; by intros ->]. intros Hc.
  destruct (pInternalPointer (ht s)) as [a|] eqn:Ha; [|done].
  destruct (proj1 (list_elem_of_lookup _ _) (r_cursor _ _ _ _ R a Ha)) as [i Hi].
  destruct (cursor_key_at _ _ _ _ _ _ R Ha Hi) as (k & _ & ?). congruence.
Qed.
(** The cursor stays on its entry when entries are added at the end. *)
Lemma cursor_key_kept s s' l l' kvs kvs' n n' :
  reprn s l kvs n -> reprn s' l' kvs' n' -> pInternalPointer (ht s') = pInternalPointer (ht s) ->
  l `prefix_of` l' -> kvs.*1 `prefix_of` kvs'.*1 -> cursor_key s' = cursor_key s.
Proof.
  intros R R' Hp Hl Hk. destruct (pInternalPointer (ht s)) as [a|] eqn:Ha.
  - destruct (proj1 (list_elem_of_lookup _ _) (r_cursor _ _ _ _ R a Ha)) as [i Hi].
    destruct (cursor_key_at _ _ _ _ _ _ R Ha Hi) as (k & Hki & ->).
    destruct (cursor_key_at _ _ _ _ a i R' Hp) as (k' & Hk' & ->); [by eapply prefix_lookup_Some|].
    pose proof (prefix_lookup_Some _ _ _ _ Hki Hk). congruence.
  - rewrite (proj2 (cursor_key_None _ _ _ _ R) Ha). by apply (cursor_key_None _ _ _ _ R').
Qed.

Lemma kv_set_keys k v kvs :
  (kv_set k v kvs).*1 = kvs.*1 ++ match kv_lookup k kvs with Some _ => [] | None => [k] end.
Proof.
  unfold kv_set. destruct (kv_lookup k kvs); [by rewrite kv_update_keys, app_nil_r|by rewrite fmap_app].
Qed.
Lemma cursor_key_updated s l kvs k v a s' l' :
  repr s l kvs -> updated s l kvs k v a s' l' ->
  cursor_key s' = match cursor_key s with
                  | Some k' => Some k'
                  | None => if decide (k ∈ kvs.*1) then None else Some k
                  end.
Proof.
  intros R (R' & Ha & (b & Hb & _ & He) & _ & _ & Hc & Hl). injection He as Hk _.
  assert (Hkeys : kvs.*1 `prefix_of` (kv_set k v kvs).*1) by (rewrite kv_set_keys; by eexists).
  unfold cursor_after in Hc. destruct (pInternalPointer (ht s)) as [p|] eqn:Hp.
  - assert (Hsame : pInternalPointer (ht s') = pInternalPointer (ht s)).
    { rewrite Hc, Hp. by destruct (kv_lookup k kvs). }
    rewrite (cursor_key_kept _ _ _ _ _ _ _ _ R R' Hsame Hl Hkeys).
    destruct (cursor_key s) eqn:E; [done|]. apply (cursor_key_None _ _ _ _ R) in E. congruence.
  - rewrite (proj2 (cursor_key_None _ _ _ _ R) Hp). case_decide as Hin.
    + apply (cursor_key_None _ _ _ _ R'). rewrite Hc.
      destruct (kv_lookup k kvs) eqn:E; [done|]. by apply kv_lookup_None in E.
    + rewrite (proj2 (kv_lookup_None _ _) Hin) in Hc. simpl in Hc. unfold cursor_key.
      by rewrite Hc, Hb, <- Hk.
Qed.

(** Where the copy of the entries with the keys [ks] leaves the cursor: a new
    entry takes it when there is none; at [mark], the position of the
    source's, it is given up first. *)
Fixpoint copied_cursor (mark : option hkey) (ks tgt : list hkey) (cur : option hkey) : option hkey :=
  match ks with
  | [] => cur
  | k :: ks' =>
      copied_cursor mark ks' tgt
        (match (if decide (mark = Some k) then None else cur) with
         | Some k' => Some k'
         | None => if decide (k ∈ tgt) then None else Some k
         end)
  end.
(** The keys from the cursor on, all without one, and the first not in [tgt]. *)
Fixpoint from_key (mark : option hkey) (ks : list hkey) : list hkey :=
  match mark, ks with
  | None, _ => ks
  | Some k, [] => []
  | Some k, k' :: ks' => if decide (k' = k) then ks else from_key mark ks'
  end.
Fixpoint first_new (ks tgt : list hkey) : option hkey :=
  match ks with
  | [] => None
  | k :: ks' => if decide (k ∈ tgt) then first_new ks' tgt else Some k
  end.

Lemma copied_cursor_ext mark ks tgt tgt' : forall cur,
  (forall k, k ∈ ks -> k ∈ tgt' <-> k ∈ tgt) ->
  copied_cursor mark ks tgt' cur = copied_cursor mark ks tgt cur.
Proof.
  induction ks as [|k ks IH]; intros cur Hk; [done|]. simpl.
  rewrite (decide_ext (k ∈ tgt') (k ∈ tgt)) by (apply Hk; left).
  apply IH. intros k' Hin. apply Hk. by right.
Qed.
Lemma copied_cursor_stays ks tgt cur mark :
  (forall k, mark = Some k -> k ∉ ks) ->
  copied_cursor mark ks tgt cur = match cur with Some k => Some k | None => first_new ks tgt end.
Proof.
  intros Hm. revert cur. induction ks as [|k ks IH]; intros cur; [by destruct cur|]. simpl.
  rewrite decide_False by (intros He; apply (Hm k He); left).
  rewrite IH by (intros k' He Hin; apply (Hm k' He); by right).
  destruct cur; [done|]. by case_decide.
Qed.
Lemma copied_cursor_first mark ks tgt : forall cur,
  NoDup ks -> (forall k, mark = Some k -> k ∈ ks) -> (mark = None -> cur = None) ->
  copied_cursor mark ks tgt cur = first_new (from_key mark ks) tgt.
Proof.
  intros cur Hnd Hm Hcur. destruct mark as [k0|].
  2:{ rewrite copied_cursor_stays, Hcur by done. by destruct ks. }
  specialize (Hm k0 eq_refl). clear Hcur. revert cur.
  induction ks as [|k ks IH]; intros cur; [by apply elem_of_nil in Hm|]. simpl.
  apply NoDup_cons in Hnd as [Hk Hnd]. destruct (decide (k = k0)) as [->|Hne].
  - rewrite decide_True by done. rewrite copied_cursor_stays by (by intros ? [= <-]). simpl. by case_decide.
  - rewrite decide_False by congruence. apply IH; [done|]. by apply elem_of_cons in Hm as [->|].
Qed.

(** The source's cursor is on [a] when it is on the key of [a]. *)
Lemma cursor_on s l kvs n a b :
  reprn s l kvs n -> a ∈ l -> buckets s !! a = Some b ->
  pInternalPointer (ht s) = Some a <-> cursor_key s = Some (bucket_key b).
Proof.
  intros R Ha Hb. split; [unfold cursor_key; intros ->; by rewrite Hb|]. intros Hc.
  destruct (pInternalPointer (ht s)) as [a'|] eqn:Hp.
  2:{ rewrite (proj2 (cursor_key_None _ _ _ _ R) Hp) in Hc. done. }
  destruct (proj1 (list_elem_of_lookup _ _) Ha) as [i Hi].
  destruct (proj1 (list_elem_of_lookup _ _) (r_cursor _ _ _ _ R a' Hp)) as [j Hj].
  destruct (cursor_key_at _ _ _ _ _ _ R Hp Hj) as (k & Hk & Hc'). rewrite Hc in Hc'. injection Hc' as <-.
  destruct (Forall2_lookup_l _ _ _ _ _ (r_holds _ _ _ _ R) Hi) as (kv & Hkv & b' & Hb' & _ & He). simplify_eq.
  assert (i = j) as ->; [|congruence].
  apply (NoDup_lookup kvs.*1 i j (bucket_key b)); [apply R|by rewrite list_lookup_fmap, Hkv|done].
Qed.

Lemma set_cursor_repr t m w l kvs n p :
  (forall a, p = Some a -> a ∈ l) ->
  reprn (HState t m w) l kvs n -> reprn (HState (set_pInternalPointer p t) m w) l kvs n.
Proof. intros Hp []. by split. Qed.

(** The turn of the loop that meets the source's cursor. *)
Lemma give_up_cursor src ls ks (stp : bool) a b s l kvs :
  repr src ls ks -> a ∈ ls -> buckets src !! a = Some b -> repr s l kvs ->
  exists s0, (if stp && bool_decide (pInternalPointer (ht src) = Some a)
      then set_ht (set_pInternalPointer None) else mret tt) s = Ok (tt, s0) /\
    repr s0 l kvs /\ same_config s s0 /\ env s0 = env s /\
    cursor_key s0 = if decide ((if stp then cursor_key src else None) = Some (bucket_key b)) then None
                    else cursor_key s.
Proof.
  intros Rs Ha Hb R. pose proof (cursor_on src ls ks _ a b Rs Ha Hb) as Hon.
  destruct stp; cbn [andb]; [|exists s; by rewrite decide_False by done].
  case_bool_decide as Hcur; [rewrite decide_True by (by apply Hon)|exists s; by rewrite decide_False by (by rewrite <- Hon)].
  eexists. split; [done|]. split; [|done]. destruct s. by apply set_cursor_repr.
Qed.

Lemma copy_loop_spec src ls ks ctor size stp lr (Rs : repr src ls ks) : forall fuel p kr s l kvs,
  seg order_links (buckets src) p lr None -> Forall2 (holds (buckets src)) lr kr ->
  (forall a, a ∈ lr -> a ∈ ls) -> NoDup kr.*1 ->
  repr s l kvs -> plentiful -> (length lr < fuel)%nat ->
  exists s' l', copy_loop fuel src stp ctor size (head_ptr lr None) s = Ok (tt, s') /\
    repr s' l' (copy_entries (ht s) ctor kr kvs (env s)).1 /\
    env s' = (copy_entries (ht s) ctor kr kvs (env s)).2 /\ same_config s s' /\
    cursor_key s' = copied_cursor (if stp : bool then cursor_key src else None) kr.*1 kvs.*1 (cursor_key s).
Proof.
  induction lr as [|a lr IH]; intros fuel p kr s l kvs Hs Hh Hls Hnd R Hp Hf;
    destruct fuel as [|fuel]; try (simpl in Hf; lia).
  - apply Forall2_nil_inv_l in Hh as ->. by exists s, l.
  - destruct Hs as (b & Hb & _ & Hn & Hs).
    apply Forall2_cons_inv_l in Hh as (kv & kr' & (b' & Hb' & Hok & <-) & Hh & ->). simplify_eq.
    cbn [copy_loop head_ptr]. rewrite (deref_at _ _ _ Hb). simpl in Hn. rewrite Hn.
    destruct (give_up_cursor src ls ks stp a b s l kvs Rs (Hls a ltac:(left)) Hb R)
      as (s0 & H0 & R0 & Hc0 & He0 & Hk0). erewrite mbind_ok by exact H0.
    destruct (quick_update_spec s0 l kvs b (data_value (pData b)) size R0 Hp Hok)
      as (x & s1 & l1 & Hrun & Hupd). pose proof (cursor_key_updated _ _ _ _ _ _ _ _ R0 Hupd) as Hk1.
    destruct Hupd as (R1 & Hx & Hh1 & He1 & Hc1 & _). erewrite mbind_ok by exact Hrun. cbv beta iota.
    destruct (copy_ctor_spec ctor _ _ _ _ _ _ R1 Hx Hh1) as (s2 & Hrun2 & R2 & He2 & Ht2).
    erewrite mbind_ok by exact Hrun2. rewrite kv_update_set in R2.
    assert (Hc2 : same_config s s2).
    { eapply same_config_trans; [exact Hc0|]. eapply same_config_trans; [exact Hc1|].
      unfold same_config. by rewrite Ht2. }
    assert (Hk2 : cursor_key s2 = cursor_key s1).
    { apply (cursor_key_kept _ _ _ _ _ _ _ _ R1 R2); [by rewrite Ht2|done|].
      by rewrite !kv_set_keys. }
    apply NoDup_cons in Hnd as [Hnk Hnd].
    destruct (IH fuel (Some a) kr' s2 l1 (kv_set (bucket_key b) (ctor_value ctor (data_value (pData b)) (env s1)).1 kvs) Hs Hh) as (s' & l' & Hr & R' & He' & Hc' & Hk');
      [intros y Hy; apply Hls; by right|done|exact R2|done|simpl in Hf; lia|].
    exists s', l'. split; [exact Hr|]. rewrite (copy_entries_config _ _ _ _ _ _ Hc2) in R', He'.
    simpl. rewrite He2 in R', He'. rewrite He1, He0 in *.
    rewrite (replaced_env_config _ _ _ _ _ Hc0) in *.
    destruct (ctor_value _ _ _) as [v' w'] eqn:Hcv. simpl in *.
    split_and!; try done; [by eapply same_config_trans|].
    rewrite Hk', Hk2, Hk1, Hk0. apply copied_cursor_ext. intros k Hk. rewrite kv_set_keys, elem_of_app.
    destruct (kv_lookup _ kvs); set_solver.
Qed.

(** ** [zend_hash_merge] and [zend_hash_merge_ex] *)

(** With [takes k v kvs] the condition under which the source's entry is
    stored. *)
Fixpoint merge_entries t (ctor : option (V -> W -> V * W))
    (takes : hkey -> V -> list (hkey * V) -> bool) (src tgt : list (hkey * V)) w
    : list (hkey * V) * W :=
  match src with
  | [] => (tgt, w)
  | (k, v) :: src' =>
      if takes k v tgt then
        let '(v', w') := ctor_value ctor v (replaced_env t k tgt w) in
        merge_entries t ctor takes src' (kv_set k v' tgt) w'
      else merge_entries t ctor takes src' tgt w
  end.
Lemma merge_entries_config s s' ctor takes src tgt w :
  same_config s s' ->
  merge_entries (ht s') ctor takes src tgt w = merge_entries (ht s) ctor takes src tgt w.
Proof.
  intros Hc. revert tgt w. induction src as [|[k v] src IH]; intros tgt w; [done|]. simpl.
  case_match; [|done]. rewrite (replaced_env_config _ _ _ _ _ Hc).
  by destruct (ctor_value _ _ _).
Qed.

Definition merge_takes (overwrite : bool) (k : hkey) (_ : V) kvs : bool :=
  overwrite || bool_decide (kv_lookup k kvs = None).

(** One turn of the loop of [zend_hash_merge]. *)
Definition merge_step b (ctor : option (V -> W -> V * W)) (size mode : Z)
    : M (hstate V W) unit :=
  if 0 <? nKeyLength b then
    '(r, t) ← zend_hash_quick_add_or_update (arKey b) (h b) (data_value (pData b)) size mode;
    if r =? SUCCESS then run_copy_ctor ctor t else mret tt
  else
    there ← (if mode =? HASH_UPDATE then mret 0 else reading (zend_hash_index_exists (h b)));
    if (mode =? HASH_UPDATE) || (there =? 0) then
      '(r, t) ← zend_hash_index_update (h b) (data_value (pData b)) size;
      if r =? SUCCESS then run_copy_ctor ctor t else mret tt
    else mret tt.

Lemma store_ctor_spec ctor s l kvs k v r (c : M (hstate V W) (Z * ptr)) :
  c s = r -> (exists a s' l', r = Ok (SUCCESS, Some a, s') /\ updated s l kvs k v a s' l') ->
  exists s' l', ('(r, t) ← c; if r =? SUCCESS then run_copy_ctor ctor t else mret tt) s
      = Ok (tt, s') /\
    let '(v', w') := ctor_value ctor v (replaced_env (ht s) k kvs (env s)) in
    repr s' l' (kv_set k v' kvs) /\ env s' = w' /\ same_config s s'.
Proof.
  intros Hcs (a & s1 & l1 & -> & R1 & Ha & Hh & He & Hc & _).
  erewrite mbind_ok by exact Hcs. cbv beta iota. change (SUCCESS =? SUCCESS) with true. cbv iota.
  destruct (copy_ctor_spec ctor _ _ _ _ _ _ R1 Ha Hh) as (s2 & Hrun2 & R2 & He2 & Ht2).
  rewrite kv_update_set in R2. exists s2, l1. split; [done|]. rewrite He in R2, He2.
  destruct (ctor_value _ _ _) as [v' w']. simpl in *. split_and!; try done.
  unfold same_config in *. by rewrite Ht2.
Qed.

Lemma merge_step_spec overwrite ctor size s l kvs b :
  repr s l kvs -> plentiful -> bucket_ok b ->
  let k := bucket_key b in let v := data_value (pData b) in
  exists s' l', merge_step b ctor size (if overwrite : bool then HASH_UPDATE else HASH_ADD) s
      = Ok (tt, s') /\ same_config s s' /\
    (if merge_takes overwrite k v kvs then
       let '(v', w') := ctor_value ctor v (replaced_env (ht s) k kvs (env s)) in
       repr s' l' (kv_set k v' kvs) /\ env s' = w'
     else s' = s /\ l' = l).
Proof.
  intros R Hp Hok k v. unfold merge_step. destruct Hok as [Hr Hok].
  assert (Hst : forall c : M (hstate V W) (Z * ptr),
    (exists a s' l', c s = Ok (SUCCESS, Some a, s') /\ updated s l kvs k v a s' l') ->
    exists s' l', ('(r, t) ← c; if r =? SUCCESS then run_copy_ctor ctor t else mret tt) s
      = Ok (tt, s') /\ same_config s s' /\
      let '(v', w') := ctor_value ctor v (replaced_env (ht s) k kvs (env s)) in
      repr s' l' (kv_set k v' kvs) /\ env s' = w').
  { intros c Hc. destruct (store_ctor_spec ctor s l kvs k v _ c eq_refl Hc) as (s' & l' & Hrun & Hs).
    exists s', l'. destruct (ctor_value _ _ _). naive_solver. }
  unfold k, bucket_key in *. destruct (Z.eqb_spec (nKeyLength b) 0) as [H0|H0].
  - rewrite H0. simpl.
    pose proof (index_update_or_next_insert_spec s l kvs (h b) v size HASH_UPDATE R Hr) as Hs.
    destruct overwrite; simpl.
    + rewrite mbind_ret. apply Hst. by eapply stored_update.
    + destruct (chain_find_spec _ _ _ _ (KInt (h b)) (is_index (h b)) R)
        as (r & Hf & Hsp); [intros b' Hok'; apply is_index_spec|].
      assert (zend_hash_index_exists (h b) s = Ok (if r then 1 else 0)) as He.
      { unfold zend_hash_index_exists. cbn [hash_of] in Hf. rewrite Hf. by destruct r. }
      erewrite mbind_reading by exact He. clear He. destruct r as [a|]; simpl.
      * destruct Hsp as (b' & l1 & l2 & kvs1 & kvs2 & F).
        destruct (focus_lookup _ _ _ _ _ _ _ _ _ _ F (r_keys _ _ _ _ R)) as (-> & _).
        exists s, l. done.
      * rewrite (proj2 (kv_lookup_None _ _) Hsp). simpl. apply Hst. by eapply stored_update.
  - destruct (Hok H0) as [Hl Hh]. assert (arKey b <> []) as Hne.
    { intros He. rewrite He in Hl. simpl in Hl. lia. }
    rewrite (proj2 (Z.ltb_lt 0 _)) by lia.
    unfold zend_hash_quick_add_or_update. rewrite (proj2 (Z.eqb_neq _ _)) by lia. rewrite Hh.
    unfold merge_takes. destruct overwrite; simpl.
    + apply Hst. eapply stored_update; [exact R|exact Hp|].
      exact (add_or_update_key_spec s l kvs (arKey b) v size HASH_UPDATE R Hne).
    + pose proof (add_or_update_key_spec s l kvs (arKey b) v size HASH_ADD R Hne) as Hs.
      destruct (kv_lookup (KStr (arKey b)) kvs) as [old|] eqn:Hk.
      * unfold stored in Hs. rewrite Hk in Hs. simpl in Hs. exists s, l.
        by erewrite mbind_ok by exact Hs.
      * apply Hst. eapply stored_update; [done..|].
        unfold stored in *. rewrite Hk in *. exact Hs.
Qed.

Lemma merge_loop_spec src ctor size overwrite lr : forall fuel p kr s l kvs,
  seg order_links (buckets src) p lr None -> Forall2 (holds (buckets src)) lr kr ->
  repr s l kvs -> plentiful -> (length lr < fuel)%nat ->
  exists s' l', merge_loop fuel src ctor size (if overwrite : bool then HASH_UPDATE else HASH_ADD)
      (head_ptr lr None) s = Ok (tt, s') /\
    repr s' l' (merge_entries (ht s) ctor (merge_takes overwrite) kr kvs (env s)).1 /\
    env s' = (merge_entries (ht s) ctor (merge_takes overwrite) kr kvs (env s)).2 /\
    same_config s s'.
Proof.
  induction lr as [|a lr IH]; intros fuel p kr s l kvs Hs Hh R Hp Hf;
    destruct fuel as [|fuel]; try (simpl in Hf; lia).
  - apply Forall2_nil_inv_l in Hh as ->. by exists s, l.
  - destruct Hs as (b & Hb & _ & Hn & Hs). simpl in Hn, Hf.
    apply Forall2_cons_inv_l in Hh as (kv & kr' & (b' & Hb' & Hok & <-) & Hh & ->). simplify_eq.
    cbn [merge_loop head_ptr]. rewrite (deref_at _ _ _ Hb), Hn.
    destruct (merge_step_spec overwrite ctor size s l kvs b R Hp Hok)
      as (s1 & l1 & Hrun & Hc1 & Hres).
    unfold merge_step in Hrun. erewrite mbind_ok by exact Hrun.
    assert (Hgo : forall kvs1, repr s1 l1 kvs1 -> exists s' l',
      merge_loop fuel src ctor size (if overwrite then HASH_UPDATE else HASH_ADD)
        (head_ptr lr None) s1 = Ok (tt, s') /\
      repr s' l' (merge_entries (ht s) ctor (merge_takes overwrite) kr' kvs1 (env s1)).1 /\
      env s' = (merge_entries (ht s) ctor (merge_takes overwrite) kr' kvs1 (env s1)).2 /\
      same_config s s').
    { intros kvs1 R1. destruct (IH fuel _ kr' s1 l1 kvs1 Hs Hh R1 Hp)
        as (s' & l' & Hr & R' & He' & Hc'); [lia|].
      exists s', l'. rewrite (merge_entries_config _ _ _ _ _ _ _ Hc1) in R', He'.
      split_and!; try done. by eapply same_config_trans. }
    cbn [merge_entries entry fst snd]. unfold entry. destruct (merge_takes _ _ _ _).
    + destruct (ctor_value _ _ _) as [v' w']. destruct Hres as [R1 He1].
      rewrite <- He1. by apply Hgo.
    + destruct Hres as [-> ->]. by apply Hgo.
Qed.

(** A replace checker that goes by what the target table contains. *)
Definition sees_entries (checker : hstate V W -> V -> zend_hash_key -> bool)
    (g : hkey -> V -> list (hkey * V) -> bool) : Prop :=
  forall s l kvs b, repr s l kvs -> bucket_ok b ->
    zend_hash_replace_checker_wrapper checker b s = g (bucket_key b) (data_value (pData b)) kvs.

Lemma quick_update_any s b v size :
  bucket_ok b ->
  zend_hash_quick_update (take (Z.to_nat (nKeyLength b)) (arKey b)) (h b) v size s =
  (if negb (nKeyLength b =? 0) then zend_hash_quick_update (arKey b) (h b) v size
   else zend_hash_index_update (h b) v size) s.
Proof.
  intros [_ Hok]. destruct (Z.eqb_spec (nKeyLength b) 0) as [->|H0]; [done|].
  destruct (Hok H0) as [-> _]. by rewrite Nat2Z.id, firstn_all.
Qed.

Lemma merge_ex_loop_spec src ctor size checker g lr : forall fuel p kr s l kvs,
  sees_entries checker g ->
  seg order_links (buckets src) p lr None -> Forall2 (holds (buckets src)) lr kr ->
  repr s l kvs -> plentiful -> (length lr < fuel)%nat ->
  exists s' l', merge_ex_loop fuel src ctor size checker (head_ptr lr None) s = Ok (tt, s') /\
    repr s' l' (merge_entries (ht s) ctor g kr kvs (env s)).1 /\
    env s' = (merge_entries (ht s) ctor g kr kvs (env s)).2 /\ same_config s s'.
Proof.
  induction lr as [|a lr IH]; intros fuel p kr s l kvs Hg Hs Hh R Hp Hf;
    destruct fuel as [|fuel]; try (simpl in Hf; lia).
  - apply Forall2_nil_inv_l in Hh as ->. by exists s, l.
  - destruct Hs as (b & Hb & _ & Hn & Hs). simpl in Hn, Hf.
    apply Forall2_cons_inv_l in Hh as (kv & kr' & (b' & Hb' & Hok & <-) & Hh & ->). simplify_eq.
    cbn [merge_ex_loop head_ptr]. rewrite (deref_at _ _ _ Hb), Hn, mbind_get.
    rewrite (Hg s l kvs b R Hok). cbn [merge_entries]. unfold entry. destruct (g _ _ kvs).
    + pose proof (quick_update_spec s l kvs b (data_value (pData b)) size R Hp Hok) as Hst.
      rewrite <- (quick_update_any s b (data_value (pData b)) size Hok) in Hst.
      destruct (store_ctor_spec ctor s l kvs (bucket_key b) (data_value (pData b)) _ _ eq_refl Hst)
        as (s1 & l1 & Hrun & Hres).
      erewrite mbind_ok by exact Hrun.
      destruct (ctor_value _ _ _) as [v' w']. destruct Hres as (R1 & He1 & Hc1).
      destruct (IH fuel _ kr' s1 l1 _ Hg Hs Hh R1 Hp) as (s' & l' & Hr & R' & He' & Hc'); [lia|].
      exists s', l'. rewrite (merge_entries_config _ _ _ _ _ _ _ Hc1), He1 in R', He'.
      split_and!; try done. by eapply same_config_trans.
    + rewrite mbind_ret. destruct (IH fuel _ kr' s l kvs Hg Hs Hh R Hp)
        as (s' & l' & Hr & R' & He' & Hc'); [lia|]. by exists s', l'.
Qed.

(** The walks over the source have fuel enough. *)
Lemma walk_fuel_enough s l kvs n : reprn s l kvs n -> (length l < walk_fuel s)%nat.
Proof.
  intros R. apply Nat.lt_succ_r, live_length; [apply (r_nodup _ _ _ _ R)|]. intros a Hal.
  eapply (seg_lookup order_links); [apply (r_order _ _ _ _ R)|done].
Qed.

Lemma cursor_to_head s l kvs :
  repr s l kvs -> repr (upd_ht (set_pInternalPointer (pListHead (ht s))) s) l kvs.
Proof.
  intros R. destruct s as [t m w]. apply set_cursor_repr; [|done].
  pose proof (r_head _ _ _ _ R) as Hh. simpl in *. rewrite Hh. apply head_ptr_elem.
Qed.

Lemma copy_spec src ls ks ctor size s l kvs :
  repr src ls ks -> repr s l kvs -> plentiful ->
  exists s' l', zend_hash_copy src ctor size s = Ok (tt, s') /\
    repr s' l' (copy_entries (ht s) ctor ks kvs (env s)).1 /\
    env s' = (copy_entries (ht s) ctor ks kvs (env s)).2 /\ same_config s s' /\
    cursor_key s' =
      match cursor_key s with
      | Some k => Some k
      | None =>
          match first_new (from_key (cursor_key src) ks.*1) kvs.*1 with
          | Some k => Some k
          | None => list.head (copy_entries (ht s) ctor ks kvs (env s)).1.*1
          end
      end.
Proof.
  intros Rs R Hp. unfold zend_hash_copy. rewrite mbind_get. cbv zeta.
  rewrite (r_head _ _ _ _ Rs).
  destruct (copy_loop_spec src ls ks ctor size (bool_decide (pInternalPointer (ht s) = None)) ls Rs
    (walk_fuel src) None ks s l kvs (r_order _ _ _ _ Rs) (r_holds _ _ _ _ Rs) ltac:(done) (r_keys _ _ _ _ Rs) R Hp
    (walk_fuel_enough _ _ _ _ Rs)) as (s1 & l1 & Hrun & R1 & He1 & Hc1 & Hk1).
  erewrite mbind_ok by exact Hrun. rewrite mbind_get.
  assert (Hk : cursor_key s1 = match cursor_key s with
      | Some k => Some k | None => first_new (from_key (cursor_key src) ks.*1) kvs.*1 end).
  { rewrite Hk1. case_bool_decide as Hcur; destruct (cursor_key s) as [k|] eqn:E.
    - apply (cursor_key_None _ _ _ _ R) in Hcur. congruence.
    - apply copied_cursor_first; [apply Rs| |done]. intros k Hks.
      destruct (pInternalPointer (ht src)) as [a|] eqn:Ha.
      2:{ rewrite (proj2 (cursor_key_None _ _ _ _ Rs) Ha) in Hks. done. }
      destruct (proj1 (list_elem_of_lookup _ _) (r_cursor _ _ _ _ Rs a Ha)) as [i Hi].
      destruct (cursor_key_at _ _ _ _ _ _ Rs Ha Hi) as (k' & Hk' & ?). simplify_eq. by eapply list_elem_of_lookup_2.
    - by apply copied_cursor_stays.
    - by apply (cursor_key_None _ _ _ _ R) in E. }
  destruct (pInternalPointer (ht s1)) as [c|] eqn:Hip.
  - exists s1, l1. split_and!; try done. rewrite Hk.
    destruct (cursor_key s); [done|]. destruct (first_new _ _); [done|].
    apply (cursor_key_None _ _ _ _ R1) in Hk. congruence.
  - rewrite (proj2 (cursor_key_None _ _ _ _ R1) Hip) in Hk. pose proof (cursor_to_head _ _ _ R1) as R2.
    eexists _, l1. split; [done|]. split_and!; [done..|].
    destruct (cursor_key s); [done|]. destruct (first_new _ _); [done|].
    destruct l1 as [|a l1'].
    + pose proof (r_holds _ _ _ _ R1) as Hh. apply Forall2_nil_inv_l in Hh. rewrite Hh.
      apply (cursor_key_None _ _ _ _ R2). simpl. apply (r_head _ _ _ _ R1).
    + assert (Ha : pInternalPointer (ht (upd_ht (set_pInternalPointer (pListHead (ht s1))) s1)) = Some a).
      { simpl. apply (r_head _ _ _ _ R1). }
      destruct (cursor_key_at _ _ _ _ _ 0%nat R2 Ha eq_refl) as (k & Hk0 & ->).
      symmetry. rewrite <- Hk0. by destruct ((copy_entries _ _ _ _ _).1.*1).
Qed.

Lemma merge_spec src ls ks ctor size overwrite s l kvs :
  repr src ls ks -> repr s l kvs -> plentiful ->
  exists s' l', zend_hash_merge src ctor size overwrite s = Ok (tt, s') /\
    repr s' l' (merge_entries (ht s) ctor (merge_takes overwrite) ks kvs (env s)).1 /\
    env s' = (merge_entries (ht s) ctor (merge_takes overwrite) ks kvs (env s)).2 /\
    same_config s s' /\ pInternalPointer (ht s') = head_ptr l' None.
Proof.
  intros Rs R Hp. unfold zend_hash_merge. cbv zeta. rewrite (r_head _ _ _ _ Rs).
  destruct (merge_loop_spec src ctor size overwrite ls (walk_fuel src) None ks s l kvs
    (r_order _ _ _ _ Rs) (r_holds _ _ _ _ Rs) R Hp (walk_fuel_enough _ _ _ _ Rs))
    as (s1 & l1 & Hrun & R1 & He1 & Hc1).
  erewrite mbind_ok by exact Hrun. rewrite mbind_get.
  eexists _, l1. split; [done|]. split_and!; [by apply cursor_to_head|done..|].
  apply (r_head _ _ _ _ R1).
Qed.

Lemma merge_ex_spec src ls ks ctor size checker g s l kvs :
  repr src ls ks -> repr s l kvs -> plentiful -> sees_entries checker g ->
  exists s' l', zend_hash_merge_ex src ctor size checker s = Ok (tt, s') /\
    repr s' l' (merge_entries (ht s) ctor g ks kvs (env s)).1 /\
    env s' = (merge_entries (ht s) ctor g ks kvs (env s)).2 /\
    same_config s s' /\ pInternalPointer (ht s') = head_ptr l' None.
Proof.
  intros Rs R Hp Hg. unfold zend_hash_merge_ex. rewrite (r_head _ _ _ _ Rs).
  destruct (merge_ex_loop_spec src ctor size checker g ls (walk_fuel src) None ks s l kvs Hg
    (r_order _ _ _ _ Rs) (r_holds _ _ _ _ Rs) R Hp (walk_fuel_enough _ _ _ _ Rs))
    as (s1 & l1 & Hrun & R1 & He1 & Hc1).
  erewrite mbind_ok by exact Hrun. rewrite mbind_get.
  eexists _, l1. split; [done|]. split_and!; [by apply cursor_to_head|done..|].
  apply (r_head _ _ _ _ R1).
Qed.

(** Without a destructor and a copy constructor the result of a copy is the
    dictionary update of the target by the source. *)
Fixpoint kv_update_all (src tgt : list (hkey * V)) : list (hkey * V) :=
  match src with [] => tgt | (k, v) :: src' => kv_update_all src' (kv_set k v tgt) end.
Lemma copy_entries_plain t src : forall tgt w,
  pDestructor t = None -> copy_entries t None src tgt w = (kv_update_all src tgt, w).
Proof.
  induction src as [|[k v] src IH]; intros tgt w Hd; [done|]. simpl.
  unfold replaced_env, dtor_env. rewrite Hd.
  destruct (kv_lookup k tgt); apply IH, Hd.
Qed.

Lemma kv_lookup_set k k' v kvs :
  kv_lookup k' (kv_set k v kvs) = if decide (k = k') then Some v else kv_lookup k' kvs.
Proof.
  unfold kv_set. destruct (kv_lookup k kvs) as [old|] eqn:Hk.
  - revert Hk. induction kvs as [|[k1 v1] kvs IH]; simpl; [done|]. intros Hk.
    destruct (decide (k1 = k)) as [->|H1]; simpl; [by repeat case_decide|].
    rewrite (IH Hk). repeat case_decide; congruence.
  - induction kvs as [|[k1 v1] kvs IH]; simpl in *; [done|].
    destruct (decide (k1 = k)) as [->|H1]; [done|].
    rewrite (IH Hk). repeat case_decide; congruence.
Qed.
Lemma kv_lookup_update_all src k : forall tgt, NoDup src.*1 ->
  kv_lookup k (kv_update_all src tgt) =
    match kv_lookup k src with Some v => Some v | None => kv_lookup k tgt end.
Proof.
  induction src as [|[k1 v1] src IH]; intros tgt Hnd; [done|]. simpl in *.
  apply NoDup_cons in Hnd as [Hk1 Hnd]. rewrite (IH _ Hnd), kv_lookup_set. case_decide; [|done].
  subst. by rewrite (proj2 (kv_lookup_None _ _) Hk1).
Qed.
End Bulk.

Arguments plentiful V {_}.
