(* ===== verification/ZendHashOrder.v ===== *)
(** * Creation, sorting and traversal of hash tables *)

From S2P Require Import Prelude Dll ZendHash ZendHashInv ZendHashSteps ZendHashOps ZendHashIter ZendHashBulk.
Open Scope Z_scope.

Section Order.
Context {V W : Type} `{Allocator}.
Implicit Types (s : hstate V W) (t : HashTable V W) (m : gmap addr (Bucket V)) (w : W)
  (b : Bucket V) (l : list addr) (kvs : list (hkey * V)).

(** ** Creation *)

Lemma init_shift_spec nSize : forall fuel i, 3 <= i -> nSize <= 2 ^ (i + Z.of_nat fuel) ->
  let r := init_shift fuel i nSize in
  i <= r <= i + Z.of_nat fuel /\ nSize <= 2 ^ r /\ (r = i \/ 2 ^ (r - 1) < nSize).
Proof.
  induction fuel as [|fuel IH]; intros i Hi Hn; cbv zeta; simpl init_shift.
  { rewrite Z.add_0_r in Hn. split_and!; [lia|lia|done|by left]. }
  rewrite Z.shiftl_1_l. destruct (Z.ltb_spec (2 ^ i) nSize) as [Hlt|Hge].
  - destruct (IH (i + 1)) as (H1 & H2 & H3); [lia| |].
    { by replace (i + 1 + Z.of_nat fuel) with (i + Z.of_nat (S fuel)) by lia. }
    split_and!; [lia|lia|done|]. right. destruct H3 as [-> |H3]; [|done].
    by replace (i + 1 - 1) with i by lia.
  - split_and!; [lia|lia|lia|by left].
Qed.

Lemma init_size nSize : 0 <= nSize ->
  exists k, 3 <= k <= 31 /\
    (if 2147483648 <=? nSize then 2147483648 else u32 (Z.shiftl 1 (init_shift 29 3 nSize)))
      = 2 ^ k /\
    (nSize <= 2 ^ 31 -> nSize <= 2 ^ k) /\ (k = 3 \/ 2 ^ (k - 1) < nSize).
Proof.
  intros Hn. destruct (Z.leb_spec 2147483648 nSize) as [Hge|Hlt].
  - exists 31. split_and!; [lia|lia|done|done|]. right. simpl. lia.
  - destruct (init_shift_spec nSize 29 3) as (H1 & H2 & H3); [lia|simpl; lia|].
    set (r := init_shift 29 3 nSize) in *.
    assert (r <= 31).
    { destruct H3 as [-> |H3]; [lia|]. assert (2 ^ (r - 1) < 2 ^ 31) as Hr by lia.
      apply Z.pow_lt_mono_r_iff in Hr; lia. }
    exists r. rewrite Z.shiftl_1_l, u32_small; [split_and!; try done; lia|].
    assert (2 ^ r <= 2 ^ 31) by (apply Z.pow_le_mono_r; lia). lia.
Qed.

Lemma init_spec nSize dtor pers w :
  0 <= nSize -> mem_ok (B := Bucket V) ∅
    ((if 2147483648 <=? nSize then 2147483648 else u32 (Z.shiftl 1 (init_shift 29 3 nSize)))
      * sizeof_ptr) = true ->
  exists s k, zend_hash_init nSize dtor pers ∅ w = (SUCCESS, s) /\ repr s [] [] /\
    env s = w /\ nNextFreeElement (ht s) = 0 /\ pDestructor (ht s) = dtor /\
    nTableSize (ht s) = 2 ^ k /\ 3 <= k <= 31 /\ (nSize <= 2 ^ 31 -> nSize <= 2 ^ k) /\
    (k = 3 \/ 2 ^ (k - 1) < nSize).
Proof.
  intros Hn Hm. destruct (init_size nSize Hn) as (k & Hk & Hsz & Hle & Hmin).
  unfold zend_hash_init. cbv zeta. rewrite Hm, Hsz.
  eexists _, k. split; [done|]. split_and!; try done; try lia. split; simpl; try done.
  - split_and!; [exists k; done|done|]. simpl. by rewrite length_replicate.
  - by apply NoDup_nil.
  - intros a Ha. rewrite lookup_empty in Ha. by destruct Ha.
  - apply chains_empty.
  - by apply NoDup_nil.
Qed.

(** ** Destruction: the four ways *)

Lemma repr_nil_heap s : repr s [] [] -> buckets s = ∅.
Proof.
  intros R. apply map_eq. intros a. rewrite lookup_empty.
  destruct (buckets s !! a) eqn:E; [|done].
  assert (a ∈ []) by (apply (r_dom _ _ _ _ R); by eexists). set_solver.
Qed.

Lemma destroy_spec s l kvs :
  repr s l kvs ->
  exists s', zend_hash_destroy s = Ok (tt, s') /\ buckets s' = ∅ /\ arBuckets (ht s') = [] /\
    env s' = dtor_all (ht s) kvs.*2 (env s).
Proof.
  intros R. unfold zend_hash_destroy. rewrite mbind_get. erewrite mbind_ok by (exact (destroy_all _ _ _ _ R)).
  by eexists.
Qed.

Lemma clean_spec s l kvs :
  repr s l kvs ->
  exists s', zend_hash_clean s = Ok (tt, s') /\ repr s' [] [] /\
    env s' = dtor_all (ht s) kvs.*2 (env s) /\ same_config s s' /\
    nNextFreeElement (ht s') = 0 /\ nTableSize (ht s') = nTableSize (ht s).
Proof.
  intros R. destruct s as [t m w]. unfold zend_hash_clean. rewrite bind_get. cbv zeta.
  destruct (r_size _ _ _ _ R) as (Hsz & Hmask & Hlen). cbn [ht] in *.
  unfold clear_arBuckets at 1. rewrite mbind_assoc, bind_get. cbn [ht]. rewrite decide_True by done.
  rewrite !bind_set_ht. pose proof (r_head _ _ _ _ R) as Hh. cbn [ht] in Hh |- *. rewrite Hh.
  set (t' := set_pInternalPointer None _).
  destruct (destroy_loop_spec l (walk_fuel (HState t m w)) t' m w None kvs)
    as (m' & Hrun & Hm'); try apply R; [exact (walk_fuel_enough _ _ _ _ R)|].
  eexists. split; [exact Hrun|]. split.
  - split; cbn [ht buckets t']; try done.
    + split; [done|]. split; [done|]. exact (length_replicate _ _).
    + apply NoDup_nil_2.
    + intros a [b Hb]. rewrite Hm' in Hb. case_decide as Ha; [done|].
      destruct Ha. apply (r_dom _ _ _ _ R). by eexists.
    + apply chains_empty.
    + apply NoDup_nil_2.
  - split_and!; done.
Qed.

Lemma graceful_destroy_spec s l kvs :
  repr s l kvs ->
  exists s', zend_hash_graceful_destroy s = Ok (tt, s') /\ buckets s' = ∅ /\ arBuckets (ht s') = [] /\
    env s' = dtor_all (ht s) kvs.*2 (env s).
Proof.
  intros R. unfold zend_hash_graceful_destroy. rewrite mbind_get.
  pose proof (walk_fuel_enough _ _ _ _ R) as Hf. rewrite (r_head _ _ _ _ R). destruct s as [t m w].
  destruct (graceful_loop_spec l _ kvs t m w R Hf) as (s' & Hrun & R' & He).
  erewrite mbind_ok by exact Hrun. eexists. split; [done|]. split; [|done].
  by apply (repr_nil_heap s').
Qed.

Lemma graceful_reverse_destroy_spec s l kvs :
  repr s l kvs ->
  exists s', zend_hash_graceful_reverse_destroy s = Ok (tt, s') /\ buckets s' = ∅ /\ arBuckets (ht s') = [] /\
    env s' = dtor_all (ht s) (reverse kvs).*2 (env s).
Proof.
  intros R. unfold zend_hash_graceful_reverse_destroy. rewrite mbind_get.
  pose proof (walk_fuel_enough _ _ _ _ R) as Hf. rewrite (r_tail _ _ _ _ R). destruct s as [t m w].
  destruct (graceful_reverse_loop_spec l _ kvs t m w R Hf) as (s' & Hrun & R' & He).
  erewrite mbind_ok by exact Hrun. eexists. split; [done|]. split; [|done].
  by apply (repr_nil_heap s').
Qed.

(** ** Applying in reverse *)

Lemma unprotected_repr t0 m0 w0 t m w l kvs :
  count_ok t0 -> same_config (HState (protected_ht t0) m0 w0) (HState t m w) ->
  repr (HState t m w) l kvs ->
  exists s', HASH_UNPROTECT_RECURSION (HState t m w) = Ok (tt, s') /\ repr s' l kvs /\ env s' = w /\
    same_config (HState t0 m0 w0) s'.
Proof.
  intros Hc Hcf R. rewrite (unprotect_run t0 m0 w0) by done.
  eexists. split; [done|]. split_and!; [by eapply reprn_config; [..|exact R]|done|].
  unfold same_config, protected_ht in *. cbn [ht] in *.
  destruct (bApplyProtection t0) eqn:Ep; simpl in *; destruct Hcf as (?&?&?&?); split_and!; congruence.
Qed.

Lemma reverse_apply_spec (f : V -> W -> Z * V * W) s l kvs :
  repr s l kvs -> count_ok (ht s) -> may_apply (ht s) ->
  let run := apply_entries (ht s) (fun _ v w => f v w) (reverse kvs) (env s) in
  exists s' l', zend_hash_reverse_apply f s = Ok (tt, s') /\
    repr s' l' (reverse run.1) /\ env s' = run.2 /\ same_config s s'.
Proof.
  intros R Hc Ha. destruct s as [t m w]. cbn [ht env] in *. cbv zeta.
  unfold zend_hash_reverse_apply. erewrite mbind_ok by (by apply may_apply_run).
  rewrite bind_get. pose proof (protected_repr _ _ _ _ _ _ R) as R1.
  rewrite (r_tail _ _ _ _ R1). rewrite <- (app_nil_r l), <- (app_nil_r kvs) in R1.
  pose proof (walk_fuel_enough _ _ _ _ R1) as Hf. rewrite app_nil_r in Hf.
  assert (Hlen : length l = length kvs) by apply (Forall2_length _ _ _ (r_holds _ _ _ _ R)).
  destruct (reverse_apply_loop_spec (fun _ v w => f v w) (fun _ v w => f v w) l _ [] kvs []
    (protected_ht t) m w ltac:(done) R1 Hlen Hf) as ([t' m' w'] & l' & Hrun & R' & He & Hcf & _).
  erewrite mbind_ok by exact Hrun. rewrite !app_nil_r, protected_apply_entries in R'.
  rewrite protected_apply_entries in He. cbn [env] in He.
  destruct (unprotected_repr _ _ _ _ _ _ _ _ Hc Hcf R') as (s' & Hu & R2 & He2 & Hcf2).
  exists s', l'. split; [exact Hu|]. split_and!; [done|by rewrite He2|done].
Qed.

(** The fourth nested application does not return. *)
Lemma apply_refused f s :
  bApplyProtection (ht s) = true -> 3 <= nApplyCount (ht s) ->
  zend_hash_apply_with_arguments f s = Err Bailout.
Proof.
  intros Hp Hn. destruct s as [t m w]. unfold zend_hash_apply_with_arguments.
  unfold mbind at 1, M_bind at 1. rewrite protect_run. cbn [ht] in *.
  by rewrite Hp, (proj2 (Z.leb_le _ _)).
Qed.

(** ** Sorting *)

Lemma collect_spec s l : forall fuel p,
  seg order_links (buckets s) p l None -> (length l < fuel)%nat ->
  collect fuel (head_ptr l None) s = Ok l.
Proof.
  induction l as [|a l IH]; intros fuel p Hs Hf; destruct fuel as [|fuel];
    try (simpl in Hf; lia); [done|].
  destruct Hs as (b & Hb & _ & Hn & Hs). simpl in Hn, Hf.
  cbn [collect head_ptr]. rewrite (deref_at _ _ _ Hb), Hn.
  by rewrite (IH fuel (Some a)) by (done || lia).
Qed.

Lemma relink_spec arr : forall prev t m w,
  NoDup arr -> (forall a, a ∈ arr -> is_Some (m !! a)) ->
  exists m', relink prev arr (HState t m w) = Ok (tt, HState t m' w) /\
    order_frame m m' /\ seg order_links m' prev arr None /\
    (forall a, a ∉ arr -> m' !! a = m !! a).
Proof.
  induction arr as [|a arr IH]; intros prev t m w Hnd Hlive.
  - by exists m.
  - apply NoDup_cons in Hnd as [Ha Hnd]. destruct (Hlive a) as [b Hb]; [left|].
    cbn [relink]. erewrite bind_assign by exact Hb.
    erewrite bind_assign by apply lookup_insert_eq. rewrite insert_insert_eq.
    set (b1 := set_pListNext _ _).
    destruct (IH (Some a) t (<[a:=b1]> m) w Hnd) as (m' & Hrun & Hf & Hs & Hout).
    { intros x Hx. rewrite lookup_insert. case_decide; [done|]. apply Hlive. by right. }
    exists m'. split; [exact Hrun|]. split_and!.
    + etrans; [|exact Hf]. by apply (order_frame_insert _ _ b).
    + exists b1. split_and!; [|done|done|done]. by rewrite Hout, lookup_insert_eq.
    + intros x Hx. rewrite Hout by set_solver. rewrite lookup_insert_ne; [done|set_solver].
Qed.

Lemma chains_Permutation m arr mask l l' : l ≡ₚ l' -> chains m arr mask l -> chains m arr mask l'.
Proof.
  intros Hp Hc i p Hi. destruct (Hc i p Hi) as (c & -> & Hs & Hnd & Hin).
  exists c. split; [done|]. split_and!; [done..|]. intros a. by rewrite Hin, Hp.
Qed.

(** The entries of a renumbered table. *)
Fixpoint renumbered (i : Z) kvs : list (hkey * V) :=
  match kvs with [] => [] | (_, v) :: kvs' => (KInt (u64 i), v) :: renumbered (i + 1) kvs' end.
Lemma renumbered_values i kvs : (renumbered i kvs).*2 = kvs.*2.
Proof. revert i. induction kvs as [|[k v] kvs IH]; intros i; simpl; by f_equal. Qed.
Lemma renumbered_keys kvs : forall i, 0 <= i -> i + Z.of_nat (length kvs) <= 2 ^ 64 ->
  (renumbered i kvs).*1 = KInt <$> seqZ i (Z.of_nat (length kvs)).
Proof.
  induction kvs as [|[k v] kvs IH]; intros i Hi Hn; [done|]. cbn [renumbered length] in *.
  rewrite seqZ_cons by lia. simpl. rewrite u64_small by lia. f_equal.
  rewrite IH by lia. do 2 f_equal; lia.
Qed.
#[local] Instance KInt_inj : Inj (=) (=) KInt.
Proof. by intros ?? [= ->]. Qed.
Lemma renumbered_nodup kvs : Z.of_nat (length kvs) < 2 ^ 64 -> NoDup (renumbered 0 kvs).*1.
Proof.
  intros Hn. rewrite renumbered_keys by lia. apply (NoDup_fmap_2 KInt), NoDup_seqZ.
Qed.

Lemma renumber_loop_spec l : forall fuel i p t m w kvs,
  NoDup l -> seg order_links m p l None -> Forall2 (holds m) l kvs -> (length l < fuel)%nat ->
  exists m', renumber_loop fuel i (head_ptr l None) (HState t m w) =
      Ok (i + Z.of_nat (length l), HState t m' w) /\
    (forall x, is_Some (m' !! x) <-> is_Some (m !! x)) /\
    (forall x, x ∉ l -> m' !! x = m !! x) /\
    seg order_links m' p l None /\ Forall2 (holds m') l (renumbered i kvs).
Proof.
  induction l as [|a l IH]; intros fuel i p t m w kvs Hnd Hs Hh Hf;
    destruct fuel as [|fuel]; try (simpl in Hf; lia).
  - apply Forall2_nil_inv_l in Hh as ->. exists m. simpl. rewrite Z.add_0_r. done.
  - destruct Hs as (b & Hb & Hpv & Hn & Hs). simpl in Hn, Hf.
    apply Forall2_cons_inv_l in Hh as (kv & kvs' & (b' & Hb' & Hok & <-) & Hh & ->). simplify_eq.
    apply NoDup_cons in Hnd as [Ha Hnd].
    cbn [renumber_loop head_ptr]. erewrite bind_assign by exact Hb.
    erewrite bind_assign by apply lookup_insert_eq.
    erewrite bind_deref by apply lookup_insert_eq. rewrite insert_insert_eq.
    set (b1 := set_h _ _). change (pListNext b1) with (pListNext b). rewrite Hn.
    destruct (IH fuel (i + 1) (Some a) t (<[a:=b1]> m) w kvs' Hnd) as (m' & Hrun & Hd & Hout & Hs' & Hh').
    { by apply seg_insert_ne. }
    { eapply Forall2_impl_in; [done|]. intros x kv Hx. apply holds_insert_ne. by intros ->. }
    { lia. }
    exists m'. split_and!.
    + etrans; [exact Hrun|]. cbn [length].
      by replace (i + 1 + Z.of_nat (length l)) with (i + Z.of_nat (S (length l))) by lia.
    + intros x. rewrite Hd, lookup_insert. case_decide; [|done]. subst. rewrite Hb.
      split; intros _; by eexists.
    + intros x Hx. rewrite Hout by set_solver. rewrite lookup_insert_ne; [done|set_solver].
    + exists b1. rewrite Hout, lookup_insert_eq by done. done.
    + constructor; [|done]. exists b1. rewrite Hout, lookup_insert_eq by done.
      split_and!; [done| |done]. split; [apply u64_range|done].
Qed.

(** The first half of [zend_hash_sort]: collecting, sorting, relinking. *)
Definition sorted_ht t (arr : list addr) : HashTable V W :=
  set_pListTail (last_ptr None arr)
    (set_pInternalPointer (head_ptr arr None)
      (set_pListTail None (set_pListHead (head_ptr arr None) t))).

Lemma relinked_repr t m w l kvs n arr m' :
  reprn (HState t m w) l kvs n -> l ≡ₚ arr -> order_frame m m' ->
  seg order_links m' None arr None ->
  exists kvs', kvs ≡ₚ kvs' /\ Forall2 (holds m) arr kvs' /\
    reprn (HState (sorted_ht t arr) m' w) arr kvs' n.
Proof.
  intros R Hp Hf Hs. destruct (Forall2_Permutation_pick _ _ _ _ Hp (r_holds _ _ _ _ R))
    as (kvs' & Hpk & Hh). exists kvs'. split_and!; [done..|].
  destruct R as [Rsz Rnd Rdom Ro Rhd Rtl Rch Rho Rk Rn Rcu]. split; simpl in *; try done.
  - by rewrite <- Hp.
  - intros a Ha. rewrite <- Hp. apply Rdom. by apply (order_frame_is_Some _ _ _ Hf).
  - eapply chains_Permutation; [done|]. by eapply chains_order_frame.
  - eapply Forall2_impl; [done|]. intros a kv. by apply holds_order_frame.
  - by rewrite <- Hpk.
  - apply head_ptr_elem.
Qed.

#[export] Instance compar_at_comparison compar s `{!Comparison compar} :
  Comparison (compar_at compar s).
Proof.
  split; intros; unfold compar_at in *; repeat case_match; try lia.
  - apply cmp_opposite.
  - by eapply cmp_trans.
Qed.

Lemma u32_count (n : nat) : Z.of_nat n < 2 ^ 32 -> u32 (Z.of_nat n) = Z.of_nat n.
Proof. intros. apply u32_small. lia. Qed.

Lemma sort_spec s l kvs sort_func compar renumber arr :
  repr s l kvs -> Z.of_nat (length l) < 2 ^ 32 -> plentiful V ->
  sort_func (compar_at compar s) l = Ok arr -> l ≡ₚ arr ->
  exists s', zend_hash_sort sort_func compar renumber s = Ok (SUCCESS, s') /\
    env s' = env s /\ same_config s s' /\
    if (length l <=? 1)%nat && negb (renumber && (0 <? length l)%nat) then s' = s
    else exists kvs', kvs ≡ₚ kvs' /\ Forall2 (holds (buckets s)) arr kvs' /\
      repr s' arr (if renumber then renumbered 0 kvs' else kvs') /\
      pInternalPointer (ht s') = head_ptr arr None /\
      nNextFreeElement (ht s') =
        (if renumber then Z.of_nat (length l) else nNextFreeElement (ht s)).
Proof.
  intros R Hlen Hp Hsort Hperm. unfold zend_hash_sort. rewrite mbind_get.
  rewrite (r_count _ _ _ _ R), (u32_count _ Hlen).
  replace (1 <? Z.of_nat (length l)) with (negb (length l <=? 1)%nat)
    by (destruct (Nat.leb_spec (length l) 1), (Z.ltb_spec 1 (Z.of_nat (length l))); simpl; lia).
  replace (0 <? Z.of_nat (length l)) with (0 <? length l)%nat
    by (destruct (Nat.ltb_spec 0 (length l)), (Z.ltb_spec 0 (Z.of_nat (length l))); simpl; lia).
  rewrite negb_involutive.
  destruct (_ && _) eqn:Hearly; [by exists s|].
  rewrite (proj2 (Hp _ _)). cbn [negb]. rewrite (r_head _ _ _ _ R).
  erewrite mbind_reading by (eapply collect_spec;
    [apply (r_order _ _ _ _ R)|apply (walk_fuel_enough _ _ _ _ R)]).
  rewrite (proj2 (Z.ltb_ge _ _)) by lia.
  erewrite mbind_reading by exact Hsort.
  assert (l <> []) as Hne by (intros ->; by destruct renumber).
  destruct arr as [|a0 arr'] eqn:Harr; [by apply Permutation_nil_r in Hperm|].
  rewrite <- Harr in *. destruct s as [t m w].
  rewrite !bind_set_ht. change (Some a0) with (head_ptr (a0 :: arr') None). rewrite <- Harr.
  assert (NoDup arr) as Hnd by (rewrite <- Hperm; apply (r_nodup _ _ _ _ R)).
  destruct (relink_spec arr None (set_pInternalPointer (head_ptr arr None)
      (set_pListTail None (set_pListHead (head_ptr arr None) t))) m w Hnd)
    as (m1 & Hrun & Hf & Hs1 & _).
  { intros a Ha. rewrite <- Hperm in Ha. eapply (seg_lookup order_links);
      [apply (r_order _ _ _ _ R)|done]. }
  destruct (relinked_repr t m w l kvs _ arr m1 R Hperm Hf Hs1) as (kvs' & Hpk & Hh & R1).
  erewrite mbind_ok by exact Hrun. rewrite bind_set_ht. fold (sorted_ht t arr).
  assert (Hll : length l = length arr) by (by apply Permutation_length).
  destruct renumber.
  - rewrite bind_get. cbn [pListHead sorted_ht ht set_pListTail set_pInternalPointer set_pListHead].
    destruct (renumber_loop_spec arr (walk_fuel (HState (sorted_ht t arr) m1 w)) 0 None
      (sorted_ht t arr) m1 w kvs' Hnd) as (m2 & Hrun2 & Hd2 & Hout2 & Hs2 & Hh2);
      [exact Hs1|apply R1|by eapply walk_fuel_enough|].
    erewrite mbind_ok by exact Hrun2. rewrite bind_set_ht.
    set (t2 := set_nNextFreeElement _ _).
    destruct (rehash_spec t2 m2 w arr (renumbered 0 kvs') (u32 (Z.of_nat (length l))))
      as (m3 & arr3 & Hrun3 & _ & _ & _ & HR); try done.
    { apply (r_size _ _ _ _ R1). }
    { intros a Ha%Hd2. by apply (r_dom _ _ _ _ R1). }
    erewrite mbind_ok by exact Hrun3. eexists. split; [done|].
    split_and!; [done|done|]. exists kvs'. split_and!; try done.
    + unfold repr. rewrite <- Hll. apply HR; try done; [| |apply (r_cursor _ _ _ _ R1)].
      * apply renumbered_nodup. rewrite <- Hpk.
        rewrite <- (Forall2_length _ _ _ (r_holds _ _ _ _ R)). lia.
      * apply (r_count _ _ _ _ R).
    + simpl. rewrite u64_small by lia. lia.
  - eexists. split; [done|]. split_and!; [done|done|]. exists kvs'. split_and!; try done.
    unfold repr. by rewrite <- Hll.
Qed.
End Order.
