(* ===== verification/ZendHashCursor.v ===== *)
(** * Positions in a hash table, extrema, and the next free index *)

From S2P Require Import Prelude Dll ZendHash ZendHashInv ZendHashSteps ZendHashOps ZendHashIter ZendHashBulk ZendHashOrder.
Open Scope Z_scope.

Section Cursor.
Context {V W : Type} `{Allocator}.
Implicit Types (s : hstate V W) (t : HashTable V W) (m : gmap addr (Bucket V)) (w : W)
  (b : Bucket V) (l : list addr) (kvs : list (hkey * V)) (pos : option ptr).

(** ** A client: reading the table from a position on *)

(** The key and the data at a position, as a client reads them. *)
Definition current_entry pos s : res (option (hkey * V)) :=
  match zend_hash_get_current_key_ex false pos s, zend_hash_get_current_data_ex pos s with
  | Ok (ty, str, num), (_, d) =>
      if ty =? HASH_KEY_NON_EXISTANT then Ok None
      else
        b ← deref d s;
        match str, num with
        | Some (key, _), _ => Ok (Some (KStr key, data_value (pData b)))
        | None, Some hv => Ok (Some (KInt hv, data_value (pData b)))
        | None, None => Ok None
        end
  | Err e, _ => Err e
  end.

(** [for (; type(pos) != HASH_KEY_NON_EXISTANT; move(&pos)) ...] *)
Fixpoint foreach (move : option ptr -> M (hstate V W) (Z * option ptr)) (fuel : nat)
    pos s : res (list (hkey * V)) :=
  match fuel with
  | O => Err OutOfFuel
  | S fuel' =>
      e ← current_entry pos s;
      match e with
      | None => Ok []
      | Some kv =>
          '(_, pos', s') ← move pos s;
          kvs ← foreach move fuel' pos' s';
          Ok (kv :: kvs)
      end
  end.
(** The loop from where [start] (a reset, to either end) puts the position. *)
Definition traverse (start : option ptr -> M (hstate V W) (option ptr))
    (move : option ptr -> M (hstate V W) (Z * option ptr)) pos s : res (list (hkey * V)) :=
  '(pos', s') ← start pos s;
  foreach move (walk_fuel s') pos' s'.

Lemma current_entry_at s l kvs n l1 a l2 pos :
  reprn s l kvs n -> l = l1 ++ a :: l2 -> position pos s = Some a ->
  exists kv, kvs !! length l1 = Some kv /\ current_entry pos s = Ok (Some kv).
Proof.
  intros R Hl Hpos. destruct (position_entry _ _ _ _ _ _ _ R Hl) as (b & Hb & Hok & He & _).
  exists (entry b). split; [done|].
  unfold current_entry, zend_hash_get_current_key_ex, zend_hash_get_current_data_ex. rewrite Hpos. simpl.
  unfold deref in Hb. simpl in Hb. destruct (buckets s !! a) as [b'|]; [|done].
  injection Hb as ->. unfold entry, bucket_key.
  by destruct (nKeyLength b =? 0).
Qed.
Lemma current_entry_end s pos : position pos s = None -> current_entry pos s = Ok None.
Proof.
  intros Hpos. unfold current_entry, zend_hash_get_current_key_ex, zend_hash_get_current_data_ex. by rewrite Hpos.
Qed.

(** A position is moved, the table's own or another. *)
Lemma store_position_run s l kvs n pos p :
  reprn s l kvs n -> (forall a, p = Some a -> a ∈ l) ->
  exists pos' s', store_position pos p s = Ok (pos', s') /\ reprn s' l kvs n /\ position pos' s' = p /\
    buckets s' = buckets s.
Proof.
  intros R Hp. destruct pos as [q|]; [by exists (Some p), s|].
  eexists None, _. split; [done|]. split; [|done]. destruct s as [t m w]. by apply set_cursor_repr.
Qed.
Lemma step_from s l kvs n l1 a l2 pos :
  reprn s l kvs n -> l = l1 ++ a :: l2 -> position pos s = Some a ->
  (exists pos' s', zend_hash_move_forward_ex pos s = Ok (SUCCESS, pos', s') /\
     reprn s' l kvs n /\ position pos' s' = head_ptr l2 None) /\
  (exists pos' s', zend_hash_move_backwards_ex pos s = Ok (SUCCESS, pos', s') /\
     reprn s' l kvs n /\ position pos' s' = last_ptr None l1).
Proof.
  intros R Hl Hpos. destruct (position_entry _ _ _ _ _ _ _ R Hl) as (b & Hb & _ & _ & Hn & Hp).
  split.
  - destruct (store_position_run s l kvs n pos (head_ptr l2 None) R) as (pos' & s' & Hs & R' & Hq & _).
    { intros x Hx%head_ptr_elem. subst l. set_solver. }
    exists pos', s'. split; [|done]. unfold zend_hash_move_forward_ex. rewrite mbind_get, Hpos.
    erewrite mbind_reading by exact Hb. rewrite Hn. by rewrite (mbind_ok _ _ _ _ _ Hs).
  - destruct (store_position_run s l kvs n pos (last_ptr None l1) R) as (pos' & s' & Hs & R' & Hq & _).
    { intros x Hx%last_ptr_elem. subst l. set_solver. }
    exists pos', s'. split; [|done]. unfold zend_hash_move_backwards_ex. rewrite mbind_get, Hpos.
    erewrite mbind_reading by exact Hb. rewrite Hp. by rewrite (mbind_ok _ _ _ _ _ Hs).
Qed.
Lemma move_forward_at s l kvs n l1 a l2 :
  reprn s l kvs n -> l = l1 ++ a :: l2 ->
  zend_hash_move_forward_ex (Some (Some a)) s = Ok (SUCCESS, Some (head_ptr l2 None), s).
Proof.
  intros R Hl. destruct (position_entry _ _ _ _ _ _ _ R Hl) as (b & Hb & _ & _ & Hn & _).
  unfold zend_hash_move_forward_ex. rewrite mbind_get. cbn [position].
  erewrite mbind_reading by exact Hb. cbn [store_position]. by rewrite mbind_ret, Hn.
Qed.

Lemma foreach_forward kvs n l2 : forall fuel l1 pos s,
  reprn s (l1 ++ l2) kvs n -> position pos s = head_ptr l2 None -> (length l2 < fuel)%nat ->
  foreach zend_hash_move_forward_ex fuel pos s = Ok (drop (length l1) kvs).
Proof.
  induction l2 as [|a l2 IH]; intros fuel l1 pos s R Hpos Hf; destruct fuel as [|fuel];
    try (simpl in Hf; lia); simpl in Hf; cbn [foreach].
  - rewrite (res_bind_ok _ _ _ (current_entry_end _ _ Hpos)).
    rewrite drop_ge; [done|]. rewrite <- (Forall2_length _ _ _ (r_holds _ _ _ _ R)), length_app.
    simpl. lia.
  - destruct (current_entry_at _ _ _ _ _ _ _ _ R eq_refl Hpos) as (kv & Hkv & He).
    rewrite (res_bind_ok _ _ _ He). cbv iota.
    destruct (step_from _ _ _ _ _ _ _ _ R eq_refl Hpos) as [(pos' & s' & Hm & R' & Hpos') _].
    rewrite (res_bind_ok _ _ _ Hm). rewrite cons_middle, app_assoc in R'.
    rewrite (res_bind_ok _ _ _ (IH fuel (l1 ++ [a]) pos' s' R' Hpos' ltac:(lia))).
    rewrite length_app. simpl. rewrite Nat.add_1_r. by rewrite (drop_S _ _ _ Hkv).
Qed.

Lemma foreach_backwards kvs n l1 : forall fuel l2 pos s,
  reprn s (l1 ++ l2) kvs n -> position pos s = last_ptr None l1 -> (length l1 < fuel)%nat ->
  foreach zend_hash_move_backwards_ex fuel pos s = Ok (reverse (take (length l1) kvs)).
Proof.
  induction l1 as [|a l1 IH] using rev_ind; intros fuel l2 pos s R Hpos Hf; destruct fuel as [|fuel];
    try (simpl in Hf; lia); cbn [foreach].
  { by rewrite (res_bind_ok _ _ _ (current_entry_end _ _ Hpos)). }
  rewrite length_app in Hf |- *. simpl in Hf. rewrite last_ptr_snoc in Hpos.
  rewrite <- app_assoc in R. simpl in R.
  destruct (current_entry_at _ _ _ _ _ _ _ _ R eq_refl Hpos) as (kv & Hkv & He).
  rewrite (res_bind_ok _ _ _ He). cbv iota.
  destruct (step_from _ _ _ _ _ _ _ _ R eq_refl Hpos) as [_ (pos' & s' & Hm & R' & Hpos')].
  rewrite (res_bind_ok _ _ _ Hm), (res_bind_ok _ _ _ (IH fuel (a :: l2) pos' s' R' Hpos' ltac:(lia))).
  simpl. rewrite Nat.add_1_r, (take_S_r _ _ _ Hkv), reverse_snoc. done.
Qed.

(** From either end, whatever the position was before. *)
Lemma traverse_forward s l kvs pos :
  repr s l kvs -> traverse zend_hash_internal_pointer_reset_ex zend_hash_move_forward_ex pos s = Ok kvs.
Proof.
  intros R. unfold traverse.
  destruct (store_position_run s l kvs _ pos (pListHead (ht s)) R) as (pos' & s' & Hs & R' & Hpos & _).
  { rewrite (r_head _ _ _ _ R). apply head_ptr_elem. }
  assert (Hr : zend_hash_internal_pointer_reset_ex pos s = Ok (pos', s')) by (rewrite <- Hs; by destruct pos).
  rewrite (res_bind_ok _ _ _ Hr). rewrite (r_head _ _ _ _ R) in Hpos.
  by apply (foreach_forward kvs _ l _ [] pos' s' R' Hpos), (walk_fuel_enough _ _ _ _ R').
Qed.
Lemma traverse_backwards s l kvs pos :
  repr s l kvs -> traverse zend_hash_internal_pointer_end_ex zend_hash_move_backwards_ex pos s = Ok (reverse kvs).
Proof.
  intros R. unfold traverse.
  destruct (store_position_run s l kvs _ pos (pListTail (ht s)) R) as (pos' & s' & Hs & R' & Hpos & _).
  { rewrite (r_tail _ _ _ _ R). apply last_ptr_elem. }
  assert (Hr : zend_hash_internal_pointer_end_ex pos s = Ok (pos', s')) by (rewrite <- Hs; by destruct pos).
  rewrite (res_bind_ok _ _ _ Hr). rewrite (r_tail _ _ _ _ R) in Hpos.
  pose proof (walk_fuel_enough _ _ _ _ R') as Hf. rewrite <- (app_nil_r l) in R'.
  rewrite (foreach_backwards kvs _ l _ [] pos' s' R' Hpos Hf). do 2 f_equal.
  rewrite (Forall2_length _ _ _ (r_holds _ _ _ _ R)). by apply firstn_all.
Qed.

(** ** Restoring a saved position *)

Lemma chain_has_spec c (q : addr) : forall fuel p t m w,
  seg chain_links m p c None -> (length c < fuel)%nat ->
  chain_has fuel (Some q) (head_ptr c None) (HState t m w) = Ok (bool_decide (q ∈ c)).
Proof.
  induction c as [|a c IH]; intros fuel p t m w Hs Hf; destruct fuel as [|fuel];
    try (simpl in Hf; lia); [done|].
  destruct Hs as (b & Hb & _ & Hn & Hs). simpl in Hn, Hf. cbn [chain_has head_ptr].
  destruct (decide (Some a = Some q)) as [[= ->]|Hd].
  - rewrite bool_decide_true; [done|]. by left.
  - rewrite (deref_at _ (HState t m w) b Hb), Hn, (IH fuel (Some a)) by (done || lia).
    f_equal. apply bool_decide_ext. rewrite elem_of_cons. naive_solver.
Qed.

(** The saved bucket is still one of the table's, with the saved hash value
    as far as the mask goes. *)
Definition still_there s l (hp : HashPointer) (a : addr) : Prop :=
  a ∈ l /\ exists b, buckets s !! a = Some b /\
    Z.land (h b) (nTableMask (ht s)) = Z.land (hp_h hp) (nTableMask (ht s)).

Lemma set_pointer_spec s l kvs n hp :
  reprn s l kvs n ->
  match hp_pos hp with
  | None => zend_hash_set_pointer hp s = Ok (1, upd_ht (set_pInternalPointer None) s)
  | Some a =>
      (pInternalPointer (ht s) = Some a \/ still_there s l hp a) /\
        zend_hash_set_pointer hp s = Ok (1, upd_ht (set_pInternalPointer (Some a)) s) \/
      (pInternalPointer (ht s) <> Some a /\ ~ still_there s l hp a) /\
        zend_hash_set_pointer hp s = Ok (0, s)
  end.
Proof.
  intros R. destruct s as [t m w]. unfold zend_hash_set_pointer. rewrite bind_get. cbn [ht].
  destruct (hp_pos hp) as [a|]; [|done].
  case_decide as Hd.
  { left. split; [by left|]. unfold upd_ht. cbn [ht buckets env].
    rewrite <- Hd. by rewrite set_pInternalPointer_id. }
  pose proof (r_size _ _ _ _ R) as Hsz. simpl in Hsz.
  destruct (index_lookup t (hp_h hp) Hsz) as [p Hp].
  destruct (r_chains _ _ _ _ R _ p Hp) as (c & -> & Hs & Hnd & Hin). simpl in Hs, Hin.
  erewrite bind_arBuckets_at by exact Hp.
  erewrite mbind_reading by (eapply chain_has_spec; [exact Hs|]; apply Nat.lt_succ_r, live_length;
    [done|]; intros x Hx; by eapply (seg_lookup chain_links)).
  cbv iota. assert (a ∈ c <-> still_there (HState t m w) l hp a) as Hiff.
  { unfold still_there. rewrite Hin. cbn [ht buckets]. by rewrite (index_nat _ _ Hsz). }
  case_bool_decide as Hc; [left|right].
  - split; [right; by apply Hiff|done].
  - split; [|done]. split; [done|]. by rewrite <- Hiff.
Qed.

(** ** Extrema *)

Lemma minmax_loop_spec compar flag s `{!Comparison compar} l2 : forall fuel p r br,
  seg order_links (buckets s) p l2 None -> buckets s !! r = Some br ->
  (length l2 < fuel)%nat ->
  exists r' br', minmax_loop fuel compar flag (Some r) (head_ptr l2 None) s = Ok (Some r') /\
    (r' = r \/ r' ∈ l2) /\ buckets s !! r' = Some br' /\
    (if flag then compar br br' <= 0 else compar br' br <= 0) /\
    (forall x bx, x ∈ l2 -> buckets s !! x = Some bx ->
      if flag then compar bx br' <= 0 else compar br' bx <= 0).
Proof.
  induction l2 as [|a l2 IH]; intros fuel p r br Hs Hr Hf; destruct fuel as [|fuel];
    try (simpl in Hf; lia).
  - exists r, br. split; [done|]. split_and!; [by left|done| |].
    + rewrite (cmp_refl compar br). by destruct flag.
    + intros x bx Hx. by apply elem_of_nil in Hx.
  - destruct Hs as (b & Hb & _ & Hn & Hs). simpl in Hn, Hf. cbn [minmax_loop head_ptr].
    rewrite (res_bind_ok _ _ _ (deref_at _ _ _ Hr)), (res_bind_ok _ _ _ (deref_at _ _ _ Hb)), Hn.
    cbv zeta. set (better := if flag then compar br b <? 0 else 0 <? compar br b).
    assert (Hbest : if better then (if flag then compar br b <= 0 else compar b br <= 0)
      else (if flag then compar b br <= 0 else compar br b <= 0)).
    { unfold better. pose proof (cmp_opposite br b). pose proof (cmp_opposite b br).
      destruct flag; case_match eqn:E; rewrite ?Z.ltb_lt, ?Z.ltb_ge in E; lia. }
    replace (if better then Some a else Some r) with (Some (if better then a else r))
      by (by destruct better).
    destruct (IH fuel (Some a) (if better then a else r) (if better then b else br))
      as (r' & br' & Hrun & Hin & Hr' & Hle & Hall); [done|by destruct better|lia|].
    exists r', br'. split; [exact Hrun|]. split_and!.
    + destruct better; set_solver.
    + done.
    + destruct better, flag; try done; by eapply cmp_trans.
    + intros x bx [->|Hx]%elem_of_cons Hbx; [|by eapply Hall]. simplify_eq.
      destruct better, flag; try done; by eapply cmp_trans.
Qed.

Lemma minmax_spec s l kvs compar flag `{!Comparison compar} :
  repr s l kvs -> Z.of_nat (length l) < 2 ^ 32 -> l <> [] ->
  exists a b, zend_hash_minmax compar flag s = Ok (SUCCESS, Some a) /\ a ∈ l /\
    buckets s !! a = Some b /\
    (forall x bx, x ∈ l -> buckets s !! x = Some bx ->
      if flag : bool then compar bx b <= 0 else compar b bx <= 0).
Proof.
  intros R Hlen Hne. unfold zend_hash_minmax.
  rewrite (r_count _ _ _ _ R), (u32_count _ Hlen), (r_head _ _ _ _ R).
  destruct l as [|a l]; [done|]. rewrite (proj2 (Z.eqb_neq _ _)) by (simpl; lia).
  pose proof (r_order _ _ _ _ R) as (b & Hb & _ & Hn & Hs). simpl in Hn.
  cbn [head_ptr]. rewrite (res_bind_ok _ _ _ (deref_at _ _ _ Hb)), Hn.
  destruct (minmax_loop_spec compar flag s l (walk_fuel s) (Some a) a b Hs Hb)
    as (r & br & Hrun & Hin & Hr & Hle & Hall).
  { pose proof (walk_fuel_enough _ _ _ _ R). simpl in *. lia. }
  rewrite (res_bind_ok _ _ _ Hrun). exists r, br. split; [done|]. split_and!; [set_solver|done|].
  intros x bx [->|Hx]%elem_of_cons Hbx; [by simplify_eq|by eapply Hall].
Qed.

(** ** The next free index *)

(** Every index in use, read as a [long], is below [nNextFreeElement],
    until that reaches [LONG_MAX]. *)
Definition next_above (nf : Z) kvs : Prop :=
  0 <= nf <= LONG_MAX /\
  forall i, KInt i ∈ kvs.*1 -> s64 i < nf \/ nf = LONG_MAX.

Lemma s64_id z : 0 <= z <= LONG_MAX -> s64 z = z.
Proof. intros. apply s64_small. unfold LONG_MIN. lia. Qed.

Lemma next_free_above hv nf : 0 <= hv < 2 ^ 64 -> 0 <= nf <= LONG_MAX ->
  nf <= next_free hv nf <= LONG_MAX /\ (s64 hv < next_free hv nf \/ next_free hv nf = LONG_MAX).
Proof.
  intros Hh Hn. unfold next_free. rewrite (s64_id _ Hn).
  destruct (Z.leb_spec nf (s64 hv)) as [Hle|Hgt]; [|lia].
  rewrite s64_u64 in * by done. unfold LONG_MAX in *.
  destruct (Z.leb_spec hv 9223372036854775807); [|lia].
  destruct (Z.ltb_spec hv 9223372036854775807); [|lia].
  rewrite u64_small by lia. lia.
Qed.

Lemma next_above_store hv nf kvs kvs' :
  next_above nf kvs -> 0 <= hv < 2 ^ 64 ->
  (forall i, KInt i ∈ kvs'.*1 -> i = hv \/ KInt i ∈ kvs.*1) ->
  next_above (next_free hv nf) kvs'.
Proof.
  intros [Hn Hi] Hh Hsub. destruct (next_free_above hv nf Hh Hn) as [Hr Hhv].
  split; [lia|]. intros i [->|Hin]%Hsub; [done|]. destruct (Hi i Hin); lia.
Qed.
Lemma next_above_mono nf kvs kvs' :
  next_above nf kvs -> (forall i, KInt i ∈ kvs'.*1 -> KInt i ∈ kvs.*1) -> next_above nf kvs'.
Proof. intros [Hn Hi] Hsub. split; [done|]. intros i Hin%Hsub. by apply Hi. Qed.

Lemma next_above_fresh nf kvs : next_above nf kvs -> nf <> LONG_MAX -> KInt nf ∉ kvs.*1.
Proof. intros [Hn Hi] Hne Hin. destruct (Hi _ Hin) as [Hlt|?]; [|done]. rewrite s64_id in Hlt; lia. Qed.
End Cursor.
