(* ===== verification/ZendHashNumeric.v ===== *)
(** * Numeric string keys

    [ZEND_HANDLE_NUMERIC] turns a key into an index exactly when the key is
    the decimal spelling of a [long], as PHP would print it. *)

From S2P Require Import Prelude Dll ZendHash.
Open Scope Z_scope.

Definition NUL : byte := Byte.x00.
Definition MINUS : byte := Byte.x2d.
Definition ZERO : byte := Byte.x30.

Definition digit (c : byte) : bool := is_digit (uc c).
Definition dec_from (z : Z) (ds : list byte) : Z :=
  fold_left (fun acc c => acc * 10 + (uc c - 48)) ds z.
Definition dec_value (ds : list byte) : Z := dec_from 0 ds.

(** Digits without a superfluous leading zero. *)
Definition canonical (ds : list byte) : bool :=
  match ds with
  | [] => false
  | c :: rest => forallb digit ds && (bool_decide (c <> ZERO) || bool_decide (rest = []))
  end.

(** The decimal spelling, with the terminating NUL the keys carry. *)
Inductive spells : list byte -> Z -> Prop :=
  | spells_pos ds : canonical ds = true -> spells (ds ++ [NUL]) (dec_value ds)
  | spells_neg ds : canonical ds = true -> ds <> [ZERO] ->
      spells (MINUS :: ds ++ [NUL]) (- dec_value ds).

(** ** Values of digit strings *)

Lemma digit_range c : digit c = true -> 48 <= uc c <= 57.
Proof. unfold digit, is_digit. rewrite andb_true_iff, !Z.leb_le. done. Qed.

Lemma dec_from_app z ds1 ds2 : dec_from z (ds1 ++ ds2) = dec_from (dec_from z ds1) ds2.
Proof. apply fold_left_app. Qed.

Lemma dec_from_bounds ds : forall z, forallb digit ds = true -> 0 <= z ->
  z * 10 ^ Z.of_nat (length ds) <= dec_from z ds < (z + 1) * 10 ^ Z.of_nat (length ds).
Proof.
  induction ds as [|c ds IH]; intros z Hd Hz; [simpl; lia|].
  cbn [forallb length dec_from fold_left] in *. apply andb_true_iff in Hd as [Hc%digit_range Hd].
  specialize (IH (z * 10 + (uc c - 48)) Hd ltac:(lia)). unfold dec_from in IH.
  rewrite Nat2Z.inj_succ, Z.pow_succ_r by lia.
  assert (0 < 10 ^ Z.of_nat (length ds)) by lia. nia.
Qed.

Lemma dec_from_u64 ds : forall z, u64 (dec_from (u64 z) ds) = u64 (dec_from z ds).
Proof.
  induction ds as [|c ds IH]; intros z; [apply Zmod_mod|]. cbn [dec_from fold_left] in *.
  unfold dec_from in IH. rewrite <- IH. rewrite <- (IH (z * 10 + _)). do 2 f_equal.
  unfold u64. by rewrite <- Zplus_mod_idemp_l, Zmult_mod_idemp_l, Zplus_mod_idemp_l.
Qed.

Lemma canonical_bounds c rest :
  canonical (c :: rest) = true -> c <> ZERO ->
  10 ^ Z.of_nat (length rest) <= dec_value (c :: rest) < 10 ^ Z.of_nat (S (length rest)).
Proof.
  intros Hd Hc. unfold canonical in Hd. apply andb_true_iff in Hd as [Hd _].
  pose proof Hd as Hd'. simpl in Hd. apply andb_true_iff in Hd as [H1%digit_range H2].
  assert (uc c <> 48). { intros He. apply Hc, uc_inj. by rewrite He. }
  pose proof (dec_from_bounds rest (uc c - 48) H2 ltac:(lia)) as Hb.
  change (dec_value (c :: rest)) with (dec_from (uc c - 48) rest).
  rewrite Nat2Z.inj_succ, Z.pow_succ_r by lia.
  assert (0 < 10 ^ Z.of_nat (length rest)) by lia. nia.
Qed.

(** ** The macro *)

Lemma byte_at_app pre c post :
  byte_at (pre ++ c :: post) (Z.of_nat (length pre)) = Ok (uc c).
Proof.
  unfold byte_at. rewrite (proj2 (Z.ltb_ge _ _)) by lia. rewrite Nat2Z.id.
  by rewrite list_lookup_middle.
Qed.

(** The loop, on the bytes [rest] that it has yet to see. *)
Lemma numeric_loop_spec e rest : forall fuel pre idx,
  (length rest < fuel)%nat ->
  let key := pre ++ rest ++ [e] in
  let end_ := Z.of_nat (length pre + length rest) in
  exists idx' tmp', numeric_loop fuel key (Z.of_nat (length pre) - 1) end_ idx = Ok (idx', tmp') /\
    (tmp' =? end_) = forallb digit rest /\
    (forallb digit rest = true -> 0 <= idx < 2 ^ 64 -> idx' = u64 (dec_from idx rest)).
Proof.
  induction rest as [|c rest IH]; intros fuel pre idx Hf key end_;
    destruct fuel as [|fuel]; try (simpl in Hf; lia); cbn [numeric_loop]; cbv zeta;
    replace (Z.of_nat (length pre) - 1 + 1) with (Z.of_nat (length pre)) by lia.
  - unfold end_. rewrite Nat.add_0_r, Z.eqb_refl. eexists _, _. split; [done|]. split; [apply Z.eqb_refl|].
    intros _ Hi. by rewrite u64_small.
  - rewrite (proj2 (Z.eqb_neq _ _)) by (unfold end_; simpl; lia).
    unfold key. cbn [app]. rewrite (res_bind_ok _ _ _ (byte_at_app pre c (rest ++ [e]))).
    fold (digit c). cbn [forallb]. destruct (digit c) eqn:Hd; cbn [andb].
    + destruct (IH fuel (pre ++ [c]) (u64 (u64 (idx * 10) + (uc c - 48)))) as (idx' & tmp' & Hrun & Ht & Hi);
        [simpl in Hf; lia|].
      exists idx', tmp'. rewrite length_app in Hrun, Ht. simpl length in Hrun, Ht.
      rewrite <- app_assoc in Hrun. cbn [app] in Hrun.
      replace (Z.of_nat (length pre + 1) - 1) with (Z.of_nat (length pre)) in Hrun by lia.
      replace (length pre + 1 + length rest)%nat with (length pre + length (c :: rest))%nat
        in Hrun, Ht by (simpl; lia).
      split_and!; [exact Hrun|exact Ht|].
      intros Hr _. rewrite Hi; [|done|apply u64_range]. rewrite dec_from_u64. simpl.
      rewrite <- (dec_from_u64 rest). rewrite <- (dec_from_u64 rest (idx * 10 + _)). do 2 f_equal.
      unfold u64. by rewrite Zplus_mod_idemp_l.
    + eexists _, _. split; [done|]. split; [|done]. apply Z.eqb_neq. unfold end_. simpl. lia.
Qed.

Definition sign_bytes (neg : bool) : list byte := if neg then [MINUS] else [].
Definition signed (neg : bool) (z : Z) : Z := if neg then - z else z.

(** The value of at most nineteen digits fits an [unsigned long]. *)
Lemma nineteen_fit c rest : digit c = true -> forallb digit rest = true -> (length (c :: rest) <= 19)%nat ->
  0 <= dec_value (c :: rest) < 2 ^ 64 /\ (c <> ZERO -> 1 <= dec_value (c :: rest)).
Proof.
  intros Hdr%digit_range Hfa Hl. pose proof (dec_from_bounds rest (uc c - 48) Hfa ltac:(lia)) as Hb.
  change (dec_value (c :: rest)) with (dec_from (uc c - 48) rest).
  assert (10 ^ Z.of_nat (length rest) <= 10 ^ 18) as Hp by (apply Z.pow_le_mono_r; simpl in Hl; lia).
  assert (0 < 10 ^ Z.of_nat (length rest)) by lia.
  change (10 ^ 18) with 1000000000000000000 in Hp. split; [nia|].
  intros Hc. assert (uc c <> 48) by (intros He; apply Hc, uc_inj, He). nia.
Qed.
(** A zero leads only itself, and has no sign. *)
Lemma canonical_head neg c rest : digit c = true ->
  canonical (c :: rest) && negb (neg && bool_decide (c :: rest = [ZERO])) =
  forallb digit rest && negb (bool_decide (c = ZERO) && (neg || negb (bool_decide (rest = [])))).
Proof.
  intros Hd. unfold canonical. cbn [forallb]. rewrite Hd. cbn [andb].
  destruct neg; repeat case_bool_decide; rewrite ?andb_true_r, ?andb_false_r;
    simpl; rewrite ?andb_true_r, ?andb_false_r; congruence.
Qed.
(** The checks of the macro against overflow, on the magnitude. *)
Lemma index_in_range (neg : bool) v : 0 <= v < 2 ^ 64 -> (neg = true -> 1 <= v) ->
  (if neg then if LONG_MAX <? u64 (v - 1) then Ok None else Ok (Some (u64 (0 - v)))
   else if LONG_MAX <? v then Ok None else Ok (Some v)) =
  Ok (if (LONG_MIN <=? signed neg v) && (signed neg v <=? LONG_MAX) then Some (u64 (signed neg v)) else None).
Proof.
  intros Hv Hpos. unfold LONG_MAX, LONG_MIN. destruct neg; cbn [signed].
  - specialize (Hpos eq_refl). rewrite (u64_small (_ - 1)) by lia.
    rewrite (proj2 (Z.leb_le (- v) _)), andb_true_r, Z.sub_0_l by lia.
    destruct (Z.ltb_spec 9223372036854775807 (v - 1)), (Z.leb_spec (-9223372036854775808) (- v)); (done || lia).
  - rewrite (proj2 (Z.leb_le (-9223372036854775808) _)), u64_small by lia. cbn [andb].
    destruct (Z.ltb_spec 9223372036854775807 v), (Z.leb_spec v 9223372036854775807); (done || lia).
Qed.

(** What the macro computes on a key split into sign and rest. *)
Lemma handle_numeric_run neg ds :
  (neg = false -> head ds <> Some MINUS) ->
  ZEND_HANDLE_NUMERIC (sign_bytes neg ++ ds ++ [NUL]) =
  Ok (if canonical ds && negb (neg && bool_decide (ds = [ZERO])) && (length ds <=? 19)%nat &&
         (LONG_MIN <=? signed neg (dec_value ds)) && (signed neg (dec_value ds) <=? LONG_MAX)
      then Some (u64 (signed neg (dec_value ds))) else None).
Proof.
  intros Hneg. destruct ds as [|c rest]; [by destruct neg|].
  set (key := sign_bytes neg ++ (c :: rest) ++ [NUL]).
  set (sg := Z.of_nat (length (sign_bytes neg))).
  assert (Hsg : (if neg then 1 else 0) = sg) by (by destruct neg).
  assert (exists c0, byte_at key 0 = Ok c0 /\ (c0 =? 45) = neg) as (c0 & H0 & Hc0).
  { destruct neg; [by exists 45|]. exists (uc c). split; [done|]. apply Z.eqb_neq.
    intros Hc. apply (Hneg eq_refl). simpl. f_equal. by apply uc_inj. }
  assert (Hlen : Z.of_nat (length key) = sg + 2 + Z.of_nat (length rest)).
  { unfold key, sg. rewrite !length_app. simpl. lia. }
  pose proof (byte_at_app (sign_bytes neg) c (rest ++ [NUL])) as Hct.
  change (byte_at key sg = Ok (uc c)) in Hct.
  pose proof (byte_at_app (sign_bytes neg ++ c :: rest) NUL []) as Hce.
  rewrite <- app_assoc in Hce. fold key in Hce. rewrite length_app in Hce.
  replace (Z.of_nat (length (sign_bytes neg) + length (c :: rest)))
    with (sg + 1 + Z.of_nat (length rest)) in Hce by (unfold sg; simpl; lia).
  unfold ZEND_HANDLE_NUMERIC. cbv zeta.
  rewrite (res_bind_ok _ _ _ H0), Hc0, Hsg, (res_bind_ok _ _ _ Hct), Hlen.
  fold (digit c).
  replace (sg + 2 + Z.of_nat (length rest) - 1) with (sg + 1 + Z.of_nat (length rest)) by lia.
  destruct (digit c) eqn:Hd; [|unfold canonical; simpl; by rewrite Hd].
  rewrite (res_bind_ok _ _ _ Hce). change (uc NUL =? 0) with true. cbn [negb orb].
  (* leading zeros *)
  assert (Hzero : (uc c =? 48) = bool_decide (c = ZERO)).
  { case_bool_decide as Hz; [by rewrite Hz|]. apply Z.eqb_neq. intros He. by apply Hz, uc_inj. }
  rewrite Hzero.
  replace (2 <? sg + 2 + Z.of_nat (length rest)) with (neg || negb (bool_decide (rest = []))).
  2:{ rewrite <- Hsg. destruct neg, rest; symmetry; simpl; rewrite ?Z.ltb_lt, ?Z.ltb_ge; lia. }
  replace (MAX_LENGTH_OF_LONG - 1 <? sg + 1 + Z.of_nat (length rest) - sg)
    with (negb (length (c :: rest) <=? 19)%nat).
  2:{ unfold MAX_LENGTH_OF_LONG. destruct (Nat.leb_spec (length (c :: rest)) 19);
      symmetry; simpl in *; rewrite ?Z.ltb_lt, ?Z.ltb_ge; lia. }
  rewrite canonical_head by done.
  destruct (bool_decide (c = ZERO) && _) eqn:Hz; cbn [orb negb]; rewrite ?andb_false_r; [done|].
  rewrite andb_true_r. destruct (length (c :: rest) <=? 19)%nat eqn:Hl; cbn [negb];
    [|by rewrite andb_false_r].
  rewrite andb_true_r. apply Nat.leb_le in Hl.
  destruct (numeric_loop_spec NUL rest (Z.to_nat (sg + 2 + Z.of_nat (length rest)))
    (sign_bytes neg ++ [c]) (uc c - 48)) as (idx & tmp & Hrun & Htmp & Hidx); [lia|].
  rewrite <- app_assoc in Hrun. change (sign_bytes neg ++ [c] ++ rest ++ [NUL]) with key in Hrun.
  rewrite length_app in Hrun, Htmp.
  replace (Z.of_nat (length (sign_bytes neg) + length [c]) - 1) with sg in Hrun
    by (unfold sg; simpl; lia).
  replace (Z.of_nat (length (sign_bytes neg) + length [c] + length rest))
    with (sg + 1 + Z.of_nat (length rest)) in Hrun, Htmp by (unfold sg; simpl; lia).
  rewrite (res_bind_ok _ _ _ Hrun), Htmp.
  destruct (forallb digit rest) eqn:Hfa; [|done]. cbn [andb].
  pose proof (digit_range _ Hd) as Hdr. rewrite Hidx by (done || lia).
  change (dec_from (uc c - 48) rest) with (dec_value (c :: rest)).
  destruct (nineteen_fit c rest Hd Hfa Hl) as [Hrange Hpos]. rewrite (u64_small _ Hrange).
  apply index_in_range; [done|]. intros ->. apply Hpos. rewrite andb_true_r in Hz. by apply bool_decide_eq_false in Hz.
Qed.

(** Splitting a NUL-terminated key. *)
Lemma key_split key : last key = Some NUL ->
  exists neg ds, key = sign_bytes neg ++ ds ++ [NUL] /\ (neg = false -> head ds <> Some MINUS).
Proof.
  intros Hl. apply last_Some in Hl as [k ->]. destruct k as [|c k].
  - by exists false, [].
  - destruct (decide (c = MINUS)) as [->|Hc].
    + by exists true, k.
    + exists false, (c :: k). split; [done|]. intros _. simpl. congruence.
Qed.

Lemma spells_split neg ds i :
  (neg = false -> head ds <> Some MINUS) ->
  spells (sign_bytes neg ++ ds ++ [NUL]) i <->
  canonical ds = true /\ negb (neg && bool_decide (ds = [ZERO])) = true /\
  i = signed neg (dec_value ds).
Proof.
  intros Hneg. assert (Hm : forall ds', canonical ds' = true -> head ds' <> Some MINUS).
  { intros [|c r]; [done|]. simpl. intros Hc [= ->]. by rewrite andb_false_l in Hc. }
  split.
  - intros Hs. inversion Hs as [ds' Hc Hk Hi|ds' Hc Hz Hk Hi]; destruct neg; simpl in Hk.
    + exfalso. destruct ds' as [|c ds']; [done|]. injection Hk as -> Hk. by apply (Hm _ Hc).
    + apply app_inj_2 in Hk as [-> _]; [|done]. done.
    + injection Hk as Hk. apply app_inj_2 in Hk as [-> _]; [|done].
      split_and!; [done| |done]. by rewrite bool_decide_false.
    + exfalso. destruct ds as [|c ds]; [done|]. injection Hk as <- Hk. by apply Hneg.
  - intros (Hc & Hz & ->). destruct neg; simpl.
    + constructor; [done|]. by case_bool_decide.
    + by constructor.
Qed.

(** More than 19 digits are more than a [long] holds. *)
Lemma canonical_long ds : canonical ds = true -> (19 < length ds)%nat -> LONG_MAX + 1 < dec_value ds.
Proof.
  destruct ds as [|c rest]; [done|]. intros Hc Hl. simpl in Hl.
  destruct (decide (c = ZERO)) as [->|Hne].
  - unfold canonical in Hc. apply andb_true_iff in Hc as [_ Hc]. destruct rest; [simpl in Hl; lia|done].
  - destruct (canonical_bounds _ _ Hc Hne) as [Hb _].
    assert (10 ^ 19 <= 10 ^ Z.of_nat (length rest)) by (apply Z.pow_le_mono_r; lia).
    unfold LONG_MAX. lia.
Qed.

Lemma handle_numeric_spec key : last key = Some NUL ->
  exists r, ZEND_HANDLE_NUMERIC key = Ok r /\
    (forall idx, r = Some idx <->
       exists i, spells key i /\ LONG_MIN <= i <= LONG_MAX /\ idx = u64 i).
Proof.
  intros (neg & ds & -> & Hneg)%key_split. rewrite (handle_numeric_run _ _ Hneg).
  eexists. split; [done|]. intros idx. setoid_rewrite (spells_split _ _ _ Hneg).
  destruct (canonical ds) eqn:Hc; cbn [andb]; [|naive_solver].
  destruct (negb _) eqn:Hz; cbn [andb]; [|naive_solver].
  destruct (Nat.leb_spec (length ds) 19) as [Hl|Hl]; cbn [andb].
  - destruct (Z.leb_spec LONG_MIN (signed neg (dec_value ds)));
      destruct (Z.leb_spec (signed neg (dec_value ds)) LONG_MAX); cbn [andb];
      (split; [intros [= <-] || (intros; discriminate)|intros (i & (_ & _ & ->) & ? & ->)]);
      try (done || lia). eexists. by split_and!.
  - pose proof (canonical_long _ Hc Hl). split; [done|].
    intros (i & (_ & _ & ->) & Hr & _). unfold LONG_MIN, LONG_MAX in *.
    destruct neg; simpl in Hr; lia.
Qed.
