(* ===== verification/ZendHashRefine.v ===== *)
(** * The hash table as an ordered dictionary: a simulation

    A client of the table makes [call]s; [run_call] executes one on a table,
    [dict_step] on the abstract dictionary: the entries in insertion order,
    the next free index and the environment of the destructor.  [refines]
    relates the two; every call from related states returns, gives the same
    answer and leaves related states. *)

From S2P Require Import Prelude Dll ZendHash ZendHashInv ZendHashSteps ZendHashOps ZendHashIter ZendHashBulk ZendHashOrder ZendHashCursor ZendHashNumeric.
Open Scope Z_scope.

(** ** Calls and the abstract dictionary *)

Inductive call (V : Type) : Type :=
  | Update (key : list byte) (v : V)
  | Add (key : list byte) (v : V)
  | IndexUpdate (hv : Z) (v : V)
  | NextInsert (v : V)
  | Del (key : list byte)
  | IndexDel (hv : Z)
  | Find (key : list byte)
  | IndexFind (hv : Z)
  | Exists (key : list byte)
  | IndexExists (hv : Z)
  | SymUpdate (key : list byte) (v : V)
  | SymDel (key : list byte)
  | SymFind (key : list byte)
  | NumElements
  | NextFreeElement
  | QuickUpdate (key : list byte) (v : V)
  | QuickAdd (key : list byte) (v : V)
  | QuickFind (key : list byte)
  | QuickExists (key : list byte)
  | QuickDel (key : list byte)
  | SymExists (key : list byte)
  | Clean.
Arguments Update {V}. Arguments Add {V}. Arguments IndexUpdate {V}. Arguments NextInsert {V}.
Arguments Del {V}. Arguments IndexDel {V}. Arguments Find {V}. Arguments IndexFind {V}.
Arguments Exists {V}. Arguments IndexExists {V}. Arguments SymUpdate {V}. Arguments SymDel {V}.
Arguments SymFind {V}. Arguments NumElements {V}. Arguments NextFreeElement {V}.
Arguments QuickUpdate {V}. Arguments QuickAdd {V}. Arguments QuickFind {V}. Arguments QuickExists {V}.
Arguments QuickDel {V}. Arguments SymExists {V}. Arguments Clean {V}.

(** The key a symbol-table function files a string under. *)
Definition sym_key (key : list byte) : hkey :=
  match ZEND_HANDLE_NUMERIC key with Ok (Some i) => KInt i | _ => KStr key end.

Record dict (V W : Type) : Type := Dict {
  entries : list (hkey * V);
  next_index : Z;
  world : W
}.
Arguments Dict {V W}. Arguments entries {V W}. Arguments next_index {V W}. Arguments world {V W}.

Section Refine.
Context {V W : Type} `{Allocator}.
Implicit Types (s : hstate V W) (d : dict V W) (c : call V) (dtor : option (V -> W -> W)).

Definition answer : Type := Z * option V.

(** ** Execution on a table *)

Definition status (c : M (hstate V W) (Z * ptr)) : M (hstate V W) answer :=
  '(r, _) ← c; mret (r, None).
Definition result (c : M (hstate V W) Z) : M (hstate V W) answer := r ← c; mret (r, None).
Definition data (f : hstate V W -> res ptr) : M (hstate V W) answer :=
  p ← reading f;
  match p with
  | None => mret (FAILURE, None)
  | Some _ => b ← reading (deref p); mret (SUCCESS, Some (data_value (pData b)))
  end.

Definition run_call (size : Z) c : M (hstate V W) answer :=
  match c with
  | Update key v => status (zend_hash_update key v size)
  | Add key v => status (zend_hash_add key v size)
  | IndexUpdate hv v => status (zend_hash_index_update hv v size)
  | NextInsert v => status (zend_hash_next_index_insert v size)
  | Del key => result (zend_hash_del key)
  | IndexDel hv => result (zend_hash_index_del hv)
  | Find key => data (zend_hash_find key)
  | IndexFind hv => data (zend_hash_index_find hv)
  | Exists key => result (reading (zend_hash_exists key))
  | IndexExists hv => result (reading (zend_hash_index_exists hv))
  | SymUpdate key v => status (zend_symtable_update key v size)
  | SymDel key => result (zend_symtable_del key)
  | SymFind key => data (zend_symtable_find key)
  | NumElements => result (reading (fun s => Ok (zend_hash_num_elements s)))
  | NextFreeElement => result (reading (fun s => Ok (zend_hash_next_free_element s)))
  | QuickUpdate key v => status (zend_hash_quick_update key (zend_get_hash_value key) v size)
  | QuickAdd key v => status (zend_hash_quick_add key (zend_get_hash_value key) v size)
  | QuickFind key => data (zend_hash_quick_find key (zend_get_hash_value key))
  | QuickExists key => result (reading (zend_hash_quick_exists key (zend_get_hash_value key)))
  | QuickDel key => result (zend_hash_quick_del key (zend_get_hash_value key))
  | SymExists key => result (reading (zend_symtable_exists key))
  | Clean => zend_hash_clean;; mret (SUCCESS, None)
  end.
Fixpoint run_calls (size : Z) (cs : list (call V)) : M (hstate V W) (list answer) :=
  match cs with
  | [] => mret []
  | c :: cs' => a ← run_call size c; l ← run_calls size cs'; mret (a :: l)
  end.

(** ** Execution on the dictionary *)

Definition destroyed dtor (old : V) (w : W) : W :=
  match dtor with None => w | Some f => f old w end.

(** Storing [v] under [k], and what it makes of the next free index. *)
Definition dict_store dtor (k : hkey) (v : V) (add : bool) d : answer * dict V W :=
  let next := match k with KInt i => next_free i (next_index d) | KStr _ => next_index d end in
  match kv_lookup k (entries d) with
  | Some old =>
      if add then ((FAILURE, None), d)
      else ((SUCCESS, None),
            Dict (kv_update k v (entries d)) next (destroyed dtor old (world d)))
  | None => ((SUCCESS, None), Dict (entries d ++ [(k, v)]) next (world d))
  end.
Definition dict_del dtor (k : hkey) d : answer * dict V W :=
  match kv_lookup k (entries d) with
  | Some old =>
      ((SUCCESS, None),
       Dict (kv_delete k (entries d)) (next_index d) (destroyed dtor old (world d)))
  | None => ((FAILURE, None), d)
  end.
Definition dict_find (k : hkey) d : answer * dict V W :=
  match kv_lookup k (entries d) with
  | Some v => ((SUCCESS, Some v), d)
  | None => ((FAILURE, None), d)
  end.
Definition dict_exists (k : hkey) d : answer * dict V W :=
  ((b2z (bool_decide (k ∈ (entries d).*1)), None), d).
(** Every value is destroyed, in insertion order. *)
Definition dict_destroyed dtor d : W := fold_left (fun w v => destroyed dtor v w) (entries d).*2 (world d).

Definition dict_step dtor c d : answer * dict V W :=
  match c with
  | Update key v => dict_store dtor (KStr key) v false d
  | Add key v => dict_store dtor (KStr key) v true d
  | IndexUpdate hv v => dict_store dtor (KInt hv) v false d
  | NextInsert v => dict_store dtor (KInt (next_index d)) v true d
  | Del key => dict_del dtor (KStr key) d
  | IndexDel hv => dict_del dtor (KInt hv) d
  | Find key => dict_find (KStr key) d
  | IndexFind hv => dict_find (KInt hv) d
  | Exists key => dict_exists (KStr key) d
  | IndexExists hv => dict_exists (KInt hv) d
  | SymUpdate key v => dict_store dtor (sym_key key) v false d
  | SymDel key => dict_del dtor (sym_key key) d
  | SymFind key => dict_find (sym_key key) d
  | NumElements => ((u32 (Z.of_nat (length (entries d))), None), d)
  | NextFreeElement => ((next_index d, None), d)
  | QuickUpdate key v => dict_store dtor (KStr key) v false d
  | QuickAdd key v => dict_store dtor (KStr key) v true d
  | QuickFind key => dict_find (KStr key) d
  | QuickExists key => dict_exists (KStr key) d
  | QuickDel key => dict_del dtor (KStr key) d
  | SymExists key => dict_exists (sym_key key) d
  | Clean => ((SUCCESS, None), Dict [] 0 (dict_destroyed dtor d))
  end.
Fixpoint dict_steps dtor (cs : list (call V)) d : list answer * dict V W :=
  match cs with
  | [] => ([], d)
  | c :: cs' =>
      let '(a, d1) := dict_step dtor c d in
      let '(l, d2) := dict_steps dtor cs' d1 in (a :: l, d2)
  end.

(** What the C signatures and the callers guarantee: keys are not empty,
    indices are [ulong]s, symbol names carry their terminating NUL. *)
Definition valid_call c : Prop :=
  match c with
  | Update key _ | Add key _ | Del key | Find key | Exists key
  | QuickUpdate key _ | QuickAdd key _ | QuickDel key | QuickFind key | QuickExists key => key <> []
  | IndexUpdate hv _ | IndexDel hv | IndexFind hv | IndexExists hv => 0 <= hv < 2 ^ 64
  | SymUpdate key _ | SymDel key | SymFind key | SymExists key => last key = Some NUL
  | NextInsert _ | NumElements | NextFreeElement | Clean => True
  end.

(** ** The simulation relation *)

Record refines dtor s d : Prop := {
  rf_repr : exists l, repr s l (entries d);
  rf_next : nNextFreeElement (ht s) = next_index d;
  rf_world : env s = world d;
  rf_dtor : pDestructor (ht s) = dtor;
  rf_above : next_above (next_index d) (entries d)
}.

Lemma destroyed_dtor_env s dtor v w :
  pDestructor (ht s) = dtor -> dtor_env (ht s) v w = destroyed dtor v w.
Proof. intros <-. done. Qed.

Lemma kv_update_elem k v kvs k' : k' ∈ (kv_update k v kvs).*1 <-> k' ∈ (kvs : list (hkey * V)).*1.
Proof. by rewrite kv_update_keys. Qed.
Lemma kv_delete_elem k kvs k' : k' ∈ (kv_delete k kvs).*1 -> k' ∈ (kvs : list (hkey * V)).*1.
Proof.
  induction kvs as [|[k1 v1] kvs IH]; simpl; [done|]. case_decide; simpl; rewrite ?elem_of_cons; naive_solver.
Qed.

(** What [next_free] or [id] leaves above the keys after a store. *)
Lemma next_above_stored dtor k v add d :
  next_above (next_index d) (entries d) -> (forall i, k = KInt i -> 0 <= i < 2 ^ 64) ->
  next_above (next_index (dict_store dtor k v add d).2) (entries (dict_store dtor k v add d).2).
Proof.
  intros Ha Hk. unfold dict_store.
  assert (Hstr : forall key kvs, k = KStr key -> (forall k', k' ∈ kvs.*1 -> k' = k \/ k' ∈ (entries d).*1) ->
    next_above (next_index d) (kvs : list (hkey * V))).
  { intros key kvs -> Hin. eapply next_above_mono; [exact Ha|]. intros i [?|?]%Hin; [done|done]. }
  assert (Hint : forall i kvs, k = KInt i -> (forall k', k' ∈ kvs.*1 -> k' = k \/ k' ∈ (entries d).*1) ->
    next_above (next_free i (next_index d)) (kvs : list (hkey * V))).
  { intros i kvs -> Hin. eapply next_above_store; [exact Ha|by apply Hk|].
    intros j [[= ->]|?]%Hin; [by left|by right]. }
  destruct (kv_lookup k (entries d)) as [old|] eqn:E.
  - destruct add; [done|]. simpl. destruct k as [i|key].
    + apply Hint; [done|]. intros k'. rewrite kv_update_elem. by right.
    + eapply Hstr; [done|]. intros k'. rewrite kv_update_elem. by right.
  - simpl. destruct k as [i|key].
    + apply Hint; [done|]. intros k'. rewrite fmap_app, elem_of_app. simpl. set_solver.
    + eapply Hstr; [done|]. intros k'. rewrite fmap_app, elem_of_app. simpl. set_solver.
Qed.

Lemma store_refines dtor s d l k v add size nDataSize f (cmd : M (hstate V W) (Z * ptr)) :
  plentiful V -> refines dtor s d -> repr s l (entries d) ->
  (forall i, k = KInt i -> 0 <= i < 2 ^ 64) ->
  f (next_index d) = match k with KInt i => next_free i (next_index d) | KStr _ => next_index d end ->
  stored s l (entries d) k v add size nDataSize f (cmd s) ->
  exists s', status cmd s = Ok ((dict_store dtor k v add d).1, s') /\
    refines dtor s' (dict_store dtor k v add d).2.
Proof.
  intros Hp HR Hr Hk Hf Hst.
  pose proof (next_above_stored dtor k v add d (rf_above _ _ _ HR) Hk) as Habove.
  destruct HR as [_ Hn Hw Hd _]. unfold stored in Hst.
  unfold dict_store in *. destruct (kv_lookup k (entries d)) as [old|] eqn:E.
  - destruct add.
    + exists s. unfold status, mbind, M_bind. rewrite Hst. split; [done|]. constructor; eauto.
    + destruct Hst as (a & s' & Hc & Hr' & _ & _ & He & Ht).
      { unfold data_granted. right. apply (Hp (buckets s) nDataSize). }
      exists s'. unfold status, mbind, M_bind. rewrite Hc. split; [done|].
      constructor; simpl; [by exists l| | | |done].
      * rewrite Ht, <- Hf, Hn. done.
      * rewrite He, Hw. by apply destroyed_dtor_env.
      * by rewrite Ht.
  - destruct Hst as [(a & s' & Hc & Hr' & (He & Hcfg & _) & Hnf)|[_ Hden]].
    2:{ exfalso. by eapply not_denied. }
    exists s'. unfold status, mbind, M_bind. rewrite Hc. split; [done|].
    constructor; simpl; [by eexists| | | |done].
    + by rewrite Hnf, Hn, Hf.
    + by rewrite He.
    + destruct Hcfg as [-> _]. done.
Qed.

Lemma del_refines dtor s d l (key : list byte) hv flag :
  refines dtor s d -> repr s l (entries d) ->
  (flag <> HASH_DEL_KEY -> key <> [] -> hv = zend_inline_hash_func key) ->
  (flag = HASH_DEL_KEY -> key <> []) ->
  exists s', result (zend_hash_del_key_or_index key hv flag) s =
      Ok ((dict_del dtor (key_of key hv) d).1, s') /\
    refines dtor s' (dict_del dtor (key_of key hv) d).2.
Proof.
  intros HR Hr H1 H2. destruct HR as [_ Hn Hw Hd Ha].
  pose proof (del_spec s l (entries d) key hv flag Hr H1 H2) as Hdel. unfold dict_del.
  destruct (kv_lookup _ _) as [old|] eqn:E.
  - destruct Hdel as (a & b & s' & l1 & l2 & Hc & _ & Hr' & <- & _ & He & Hcfg & Hnf & _).
    exists s'. unfold result, mbind, M_bind. rewrite Hc. split; [done|].
    constructor; simpl; [by eexists| | | |].
    + by rewrite Hnf.
    + rewrite He, Hw. by apply destroyed_dtor_env.
    + destruct Hcfg as [-> _]. done.
    + eapply next_above_mono; [exact Ha|]. intros i. apply kv_delete_elem.
  - exists s. unfold result, mbind, M_bind. rewrite Hdel. split; [done|]. by constructor; eauto.
Qed.

(** Finding, for the tests of the look-up functions. *)
Lemma search_spec s l d k test :
  repr s l (entries d) -> (forall b, bucket_ok b -> test b = true <-> bucket_key b = k) ->
  exists r, chain_find (Z.land (hash_of k) (nTableMask (ht s))) test s = Ok r /\
    match kv_lookup k (entries d), r with
    | Some v, Some a => exists b, deref (Some a) s = Ok b /\ data_value (pData b) = v
    | None, None => k ∉ (entries d).*1
    | _, _ => False
    end.
Proof.
  intros Hr Ht. destruct (chain_find_spec _ _ _ _ _ _ Hr Ht) as (r & Hc & Hres).
  exists r. split; [done|]. destruct r as [a|].
  - destruct Hres as (b & l1 & l2 & k1 & k2 & Hf).
    destruct (focus_lookup _ _ _ _ _ _ _ _ _ _ Hf (r_keys _ _ _ _ Hr)) as [-> _].
    exists b. split; [|done]. apply deref_at, Hf.
  - apply kv_lookup_None in Hres as Hno. by rewrite Hno.
Qed.

Lemma find_refines s d l k test :
  repr s l (entries d) -> (forall b, bucket_ok b -> test b = true <-> bucket_key b = k) ->
  data (chain_find (Z.land (hash_of k) (nTableMask (ht s))) test) s =
    Ok ((dict_find k d).1, s).
Proof.
  intros Hr Ht. destruct (search_spec s l d k test Hr Ht) as (r & Hc & Hres).
  unfold data, mbind, M_bind, reading, dict_find. rewrite Hc.
  destruct (kv_lookup k (entries d)) as [v|], r as [a|]; try done.
  destruct Hres as (b & -> & <-). done.
Qed.
Lemma exists_refines s d l k test :
  repr s l (entries d) -> (forall b, bucket_ok b -> test b = true <-> bucket_key b = k) ->
  found (chain_find (Z.land (hash_of k) (nTableMask (ht s))) test s) =
    Ok (b2z (bool_decide (k ∈ (entries d).*1))).
Proof.
  intros Hr Ht. destruct (search_spec s l d k test Hr Ht) as (r & -> & Hres). simpl.
  destruct (kv_lookup k (entries d)) as [v|] eqn:E, r as [a|]; try done.
  - rewrite bool_decide_eq_true_2; [done|]. by eapply kv_lookup_Some_elem.
  - by rewrite bool_decide_eq_false_2.
Qed.

Lemma sym_key_cases key : last key = Some NUL ->
  (exists i, ZEND_HANDLE_NUMERIC key = Ok (Some i) /\ sym_key key = KInt i /\ 0 <= i < 2 ^ 64) \/
  (ZEND_HANDLE_NUMERIC key = Ok None /\ sym_key key = KStr key /\ key <> []).
Proof.
  intros Hl. destruct (handle_numeric_spec key Hl) as (r & Hr & Hspec). unfold sym_key. rewrite Hr.
  destruct r as [i|].
  - left. exists i. split; [done|]. split; [done|].
    destruct (proj1 (Hspec i) eq_refl) as (z & _ & _ & ->). apply u64_range.
  - right. split; [done|]. split; [done|]. by intros ->.
Qed.

(** ** Emptying *)

Lemma dtor_all_destroyed s dtor vs w :
  pDestructor (ht s) = dtor -> dtor_all (ht s) vs w = fold_left (fun w v => destroyed dtor v w) vs w.
Proof. intros <-. done. Qed.
Lemma clean_refines dtor s d :
  refines dtor s d ->
  exists s', zend_hash_clean s = Ok (tt, s') /\ refines dtor s' (Dict [] 0 (dict_destroyed dtor d)).
Proof.
  intros [[l Hr] Hn Hw Hd _]. destruct (clean_spec s l _ Hr) as (s' & Hs & Hr' & He & Hc & Hnf & _).
  exists s'. split; [done|]. rewrite (dtor_all_destroyed _ dtor), Hw in He by done.
  constructor; simpl; [by eexists|done|done|by destruct Hc as [-> _]|].
  split; [unfold LONG_MAX; lia|]. intros i Hi. simpl in Hi. set_solver.
Qed.
Lemma destroy_refines dtor s d :
  refines dtor s d ->
  exists s', zend_hash_destroy s = Ok (tt, s') /\ buckets s' = ∅ /\ arBuckets (ht s') = [] /\
    env s' = dict_destroyed dtor d.
Proof.
  intros [[l Hr] Hn Hw Hd _]. destruct (destroy_spec s l _ Hr) as (s' & Hs & Hb & Ha & He).
  exists s'. rewrite (dtor_all_destroyed _ dtor), Hw in He by done. done.
Qed.

(** ** One call *)

Lemma call_refines dtor size s d c :
  plentiful V -> refines dtor s d -> valid_call c ->
  exists s', run_call size c s = Ok ((dict_step dtor c d).1, s') /\
    refines dtor s' (dict_step dtor c d).2.
Proof.
  intros Hp HR Hv. pose proof HR as [[l Hr] Hn Hw Hd Ha].
  assert (Hkey : forall key v flag, key <> [] ->
    exists s', status (zend_hash_add_or_update key v size flag) s =
        Ok ((dict_store dtor (KStr key) v (has_flag flag HASH_ADD) d).1, s') /\
      refines dtor s' (dict_store dtor (KStr key) v (has_flag flag HASH_ADD) d).2).
  { intros key v flag Hne. eapply (store_refines _ _ _ l _ _ _ _ size id); eauto; [done|].
    unfold zend_hash_add_or_update. rewrite (proj2 (Z.leb_gt _ _)).
    - by apply add_or_update_key_spec.
    - destruct key; [done|]. simpl. lia. }
  assert (Hadd : forall key v flag, key <> [] ->
    status (zend_hash_add_or_update key v size flag) s =
    status (zend_hash_quick_add_or_update key (zend_get_hash_value key) v size flag) s).
  { intros key v flag Hne. unfold zend_hash_add_or_update, zend_hash_quick_add_or_update.
    destruct key; [done|]. rewrite (proj2 (Z.leb_gt _ _)), (proj2 (Z.eqb_neq _ _)) by (simpl; lia). done. }
  assert (Hidx : forall hv v flag, 0 <= store_index s hv flag < 2 ^ 64 ->
    let add := has_flag flag HASH_NEXT_INSERT || has_flag flag HASH_ADD in
    exists s', status (zend_hash_index_update_or_next_insert hv v size flag) s =
        Ok ((dict_store dtor (KInt (store_index s hv flag)) v add d).1, s') /\
      refines dtor s' (dict_store dtor (KInt (store_index s hv flag)) v add d).2).
  { intros hv v flag Hrange. cbv zeta.
    eapply (store_refines _ _ _ l _ _ _ _ size (next_free (store_index s hv flag))); eauto.
    - by intros i [= <-].
    - by apply index_update_or_next_insert_spec. }
  assert (Hdel : forall key, key <> [] -> exists s', result (zend_hash_del key) s =
      Ok ((dict_del dtor (KStr key) d).1, s') /\ refines dtor s' (dict_del dtor (KStr key) d).2).
  { intros key Hne. destruct (del_refines dtor s d l key 0 HASH_DEL_KEY HR Hr) as (s' & Hs'); [done|done|].
    exists s'. unfold key_of in Hs'. by destruct key. }
  assert (Hidel : forall hv, exists s', result (zend_hash_index_del hv) s =
      Ok ((dict_del dtor (KInt hv) d).1, s') /\ refines dtor s' (dict_del dtor (KInt hv) d).2).
  { intros hv. by apply (del_refines dtor s d l [] hv HASH_DEL_INDEX). }
  assert (Hfind : forall key, key <> [] -> data (zend_hash_find key) s = Ok ((dict_find (KStr key) d).1, s)).
  { intros key Hne. apply (find_refines s d l (KStr key)); [done|]. intros b Hb. by apply is_key_spec. }
  assert (Hifind : forall hv, data (zend_hash_index_find hv) s = Ok ((dict_find (KInt hv) d).1, s)).
  { intros hv. apply (find_refines s d l (KInt hv)); [done|]. intros b Hb. by apply is_index_spec. }
  assert (Hex : forall key, key <> [] -> zend_hash_exists key s = Ok (b2z (bool_decide (KStr key ∈ (entries d).*1)))).
  { intros key Hne. apply (exists_refines s d l (KStr key)); [done|]. intros b Hb. by apply is_key_spec. }
  assert (Hiex : forall hv, zend_hash_index_exists hv s = Ok (b2z (bool_decide (KInt hv ∈ (entries d).*1)))).
  { intros hv. apply (exists_refines s d l (KInt hv)); [done|]. intros b Hb. by apply is_index_spec. }
  assert (Hquick : forall key : list byte, key <> [] -> Z.eqb (Z.of_nat (length key)) 0 = false).
  { intros key Hne. apply Z.eqb_neq. destruct key; [done|simpl; lia]. }
  assert (Hquiet : forall k, (dict_find k d).2 = d).
  { intros k. unfold dict_find. by destruct (kv_lookup k (entries d)). }
  destruct c; simpl in Hv |- *.
  - by apply (Hkey key v HASH_UPDATE).
  - by apply (Hkey key v HASH_ADD).
  - by apply (Hidx hv v HASH_UPDATE).
  - destruct (Hidx 0 v HASH_NEXT_INSERT) as (s' & Hs').
    { unfold store_index. simpl. destruct Ha as [Hb _]. unfold LONG_MAX in Hb. lia. }
    exists s'. unfold store_index in Hs'. simpl in Hs'. by rewrite Hn in Hs'.
  - by apply Hdel.
  - by apply Hidel.
  - exists s. rewrite Hquiet. by split; [apply Hfind|].
  - exists s. rewrite Hquiet. by split; [apply Hifind|].
  - exists s. split; [|done]. unfold result, mbind, M_bind, reading.
    by rewrite Hex.
  - exists s. split; [|done]. unfold result, mbind, M_bind, reading.
    by rewrite Hiex.
  - unfold zend_symtable_update, numeric_or_string.
    destruct (sym_key_cases key Hv) as [(i & -> & -> & Hi)|(-> & -> & Hne)].
    + by apply (Hidx i v HASH_UPDATE).
    + by apply (Hkey key v HASH_UPDATE).
  - unfold zend_symtable_del, numeric_or_string.
    destruct (sym_key_cases key Hv) as [(i & -> & -> & Hi)|(-> & -> & Hne)]; [apply Hidel|by apply Hdel].
  - exists s. rewrite Hquiet. split; [|done].
    unfold zend_symtable_find, numeric_or_string, data.
    destruct (sym_key_cases key Hv) as [(i & -> & -> & Hi)|(-> & -> & Hne)]; [apply Hifind|by apply Hfind].
  - exists s. split; [|done]. unfold result, mbind, M_bind, reading, zend_hash_num_elements.
    rewrite (r_count _ _ _ _ Hr), (Forall2_length _ _ _ (r_holds _ _ _ _ Hr)). done.
  - exists s. split; [|done]. unfold result, mbind, M_bind, reading, zend_hash_next_free_element. by rewrite Hn.
  - destruct (Hkey key v HASH_UPDATE Hv) as (s' & Hs'). exists s'. rewrite (Hadd key v HASH_UPDATE Hv) in Hs'. exact Hs'.
  - destruct (Hkey key v HASH_ADD Hv) as (s' & Hs'). exists s'. rewrite (Hadd key v HASH_ADD Hv) in Hs'. exact Hs'.
  - exists s. rewrite Hquiet. split; [|done]. unfold zend_hash_quick_find. rewrite Hquick by done. by apply Hfind.
  - exists s. split; [|done]. unfold result, mbind, M_bind, reading, zend_hash_quick_exists. rewrite Hquick by done.
    pose proof (Hex key Hv) as He. unfold zend_hash_exists in He. unfold zend_get_hash_value. by rewrite He.
  - destruct (del_refines dtor s d l key (zend_get_hash_value key) HASH_DEL_KEY_QUICK HR Hr) as (s' & Hs'); [done|done|].
    exists s'. unfold key_of in Hs'. by destruct key.
  - exists s. split; [|done]. unfold result, mbind, M_bind, reading, zend_symtable_exists, numeric_or_string.
    destruct (sym_key_cases key Hv) as [(i & -> & -> & Hi)|(-> & -> & Hne)]; [by rewrite Hiex|by rewrite Hex].
  - destruct (clean_refines dtor s d HR) as (s' & Hs' & HR'). exists s'. split; [|done].
    by rewrite (mbind_ok _ _ _ _ _ Hs').
Qed.

(** ** Every sequence of calls *)

Lemma calls_refine dtor size cs : forall s d,
  plentiful V -> refines dtor s d -> Forall valid_call cs ->
  exists s', run_calls size cs s = Ok ((dict_steps dtor cs d).1, s') /\
    refines dtor s' (dict_steps dtor cs d).2.
Proof.
  induction cs as [|c cs IH]; intros s d Hp HR Hv; [by exists s|].
  apply Forall_cons in Hv as [Hc Hcs].
  destruct (call_refines dtor size s d c Hp HR Hc) as (s1 & Hs1 & HR1). simpl.
  unfold mbind at 1, M_bind at 1. rewrite Hs1.
  destruct (dict_step dtor c d) as [a d1]. simpl in HR1.
  destruct (IH s1 d1 Hp HR1 Hcs) as (s2 & Hs2 & HR2).
  destruct (dict_steps dtor cs d1) as [al d2]. exists s2.
  unfold mbind, M_bind. rewrite Hs2. by split.
Qed.

Lemma init_refines nSize dtor pers (w : W) :
  0 <= nSize -> plentiful V ->
  exists s, zend_hash_init nSize dtor pers (∅ : gmap addr (Bucket V)) w = (SUCCESS, s) /\
    refines dtor s (Dict [] 0 w).
Proof.
  intros Hn Hp. destruct (init_spec nSize dtor pers w Hn) as (s & k & Hs & Hr & He & Hnf & Hd & _).
  { apply Hp. }
  exists s. split; [done|]. constructor; simpl; try done; [by exists []|].
  split; [unfold LONG_MAX; lia|]. intros i Hi. simpl in Hi. set_solver.
Qed.
End Refine.
