(* ===== verification/ZendHashRekey.v ===== *)
(** * Changing the key of an entry in place

    [zend_hash_update_current_key_ex] takes a bucket off its chain, replaces
    it by a block of another size if the key's length changes, and puts it on
    the chain of its new key; the order is that of before.  [off_chain] is
    the invariant in between. *)

From S2P Require Import Prelude Dll ZendHash ZendHashInv ZendHashSteps ZendHashOps ZendHashIter ZendHashBulk ZendHashOrder.
Open Scope Z_scope.

Section Rekey.
Context {V W : Type} `{Allocator}.
Implicit Types (s : hstate V W) (t : HashTable V W) (m : gmap addr (Bucket V)) (w : W)
  (b : Bucket V) (l : list addr) (kvs : list (hkey * V)).

(** The bucket [b], at [a], is in the order but on no chain. *)
Record off_chain t m l1 a l2 b kvs1 kvs2 (n : Z) : Prop := {
  oc_size : size_ok t;
  oc_nodup : NoDup (l1 ++ a :: l2);
  oc_dom : forall x, is_Some (m !! x) -> x ∈ l1 ++ a :: l2;
  oc_order : seg order_links m None (l1 ++ a :: l2) None;
  oc_head : pListHead t = head_ptr (l1 ++ a :: l2) None;
  oc_tail : pListTail t = last_ptr None (l1 ++ a :: l2);
  oc_chains : chains m (arBuckets t) (nTableMask t) (l1 ++ l2);
  oc_bucket : m !! a = Some b;
  oc_holds1 : Forall2 (holds m) l1 kvs1;
  oc_holds2 : Forall2 (holds m) l2 kvs2;
  oc_keys : NoDup (kvs1 ++ kvs2).*1;
  oc_count : nNumOfElements t = n;
  oc_cursor : forall x, pInternalPointer t = Some x -> x ∈ l1 ++ a :: l2
}.

(** What the steps leave alone. *)
Definition kept t t' : Prop :=
  pDestructor t' = pDestructor t /\ persistent t' = persistent t /\ nApplyCount t' = nApplyCount t /\
  bApplyProtection t' = bApplyProtection t /\ nNextFreeElement t' = nNextFreeElement t.

Lemma leave_spec t m w l kvs n k a b l1 l2 kvs1 kvs2 :
  reprn (HState t m w) l kvs n -> focus m l kvs k a b l1 l2 kvs1 kvs2 ->
  exists t' m', leave_chain (Some a) (HState t m w) = Ok (tt, HState t' m' w) /\
    off_chain t' m' l1 a l2 b kvs1 kvs2 n /\ kept t t' /\ pInternalPointer t' = pInternalPointer t.
Proof.
  intros R F. destruct (focus_links _ _ _ _ _ _ _ _ _ _ _ _ _ R F)
    as (p & Hp & Hi & Ha & Hb & Hl & Hn & Hb1 & Ho1 & Hnd & _).
  do 2 eexists. split; [eapply run_leave_chain; [apply (r_chains _ _ _ _ R)|done..]|].
  split; [|done]. destruct F as [-> -> H1 H2 _ Hok Hk].
  destruct R as [Rsz Rnd Rdom Ro Rhd Rtl Rch Rho Rk Rn Rcu]. simpl in *.
  pose proof (chain_removed_frame b m) as Hf.
  split; simpl; try done.
  - destruct Rsz as (? & ? & ?). split_and!; [done|done|]. simpl. unfold arr_removed.
    case_match; [done|]. by rewrite length_insert.
  - intros x Hx. by apply Rdom, (chain_frame_is_Some _ _ _ Hf).
  - eapply chain_remove; [exact Rch|done|done|done|]. symmetry. by apply index_nat.
  - eapply Forall2_impl; [done|]. intros x kv. by apply holds_chain_frame.
  - eapply Forall2_impl; [done|]. intros x kv. by apply holds_chain_frame.
  - rewrite fmap_app in Rk |- *. simpl in Rk. by apply NoDup_app_mid in Rk as (_ & _ & ?).
Qed.

(** The entries at other addresses, after steps that change there nothing
    but the order links. *)
Lemma elsewhere_holds m m' l (kvs : list (hkey * V)) :
  (forall x, x ∈ l -> strip_order <$> m' !! x = strip_order <$> m !! x) ->
  Forall2 (holds m) l kvs -> Forall2 (holds m') l kvs.
Proof.
  intros He Hh. eapply Forall2_impl_in; [exact Hh|]. intros x kv Hx. apply holds_payload.
  intros b Hb. specialize (He x Hx). rewrite Hb in He. destruct (m' !! x) as [b'|]; [|done].
  injection He as He. exists b'. naive_solver.
Qed.
Lemma elsewhere_chains m m' arr mask l :
  (forall x, x ∈ l -> strip_order <$> m' !! x = strip_order <$> m !! x) ->
  chains m arr mask l -> chains m' arr mask l.
Proof.
  intros He. apply chains_ext. intros x Hx. specialize (He x Hx).
  destruct (m' !! x), (m !! x); try done. simpl in *. apply (inj Some), strip_order_inv in He.
  naive_solver (congruence).
Qed.

(** ** Another block for the bucket *)

Definition new_block (len : Z) b : Bucket V :=
  set_pListLast (pListLast b) (set_pListNext (pListNext b) (set_nKeyLength len (raw_bucket (pData b)))).
Definition replaced_heap a a' (len : Z) b m : gmap addr (Bucket V) :=
  delete a (opt_alter (pListLast b) (set_pListNext (Some a'))
    (opt_alter (pListNext b) (set_pListLast (Some a')) (<[a' := new_block len b]> m))).
Definition replaced_ht a a' b t : HashTable V W :=
  set_pInternalPointer
    (if decide (pInternalPointer t = Some a) then Some a' else pInternalPointer t)
    (set_pListHead (match pListLast b with None => Some a' | Some _ => pListHead t end)
      (set_pListTail (match pListNext b with None => Some a' | Some _ => pListTail t end) t)).

Lemma replaced_frame a' len b m :
  order_frame (<[a' := new_block len b]> m)
    (opt_alter (pListLast b) (set_pListNext (Some a'))
      (opt_alter (pListNext b) (set_pListLast (Some a')) (<[a' := new_block len b]> m))).
Proof.
  etrans; [apply (order_frame_opt_alter _ (pListNext b) (set_pListLast (Some a'))); done|].
  by apply order_frame_opt_alter.
Qed.

Lemma run_replace t m w a b a' len pos :
  m !! a = Some b -> alloc m (sizeof_Bucket - 1 + len) = Some a' ->
  (forall x, pListNext b = Some x \/ pListLast b = Some x -> is_Some (m !! x)) ->
  pListNext b <> Some a -> pListLast b <> Some a ->
  replace_bucket (Some a) len pos (HState t m w) =
  Ok ((Some a', match pos with Some _ => Some (Some a') | None => None end),
      HState (replaced_ht a a' b t) (replaced_heap a a' len b m) w).
Proof.
  intros Hb Hal Hlive Hna Hpa. pose proof (alloc_fresh _ _ _ Hal) as Hfresh.
  assert (Hne : a <> a') by congruence.
  unfold replace_bucket. rewrite bind_get. erewrite bind_deref by done. cbn [buckets ht]. rewrite Hal.
  rewrite mbind_modify. unfold upd_heap. simpl.
  erewrite bind_assign by apply lookup_insert_eq. rewrite insert_insert_eq.
  erewrite bind_assign by apply lookup_insert_eq. rewrite insert_insert_eq.
  erewrite bind_assign by apply lookup_insert_eq. rewrite insert_insert_eq. fold (new_block len b).
  set (m1 := <[a' := new_block len b]> m).
  assert (Hlive1 : forall x, pListNext b = Some x \/ pListLast b = Some x -> is_Some (m1 !! x)).
  { intros x Hx. unfold m1. rewrite lookup_insert. case_decide; [done|by apply Hlive]. }
  assert (H1 : (match pListNext b with
       | Some _ => assign (pListNext b) (set_pListLast (Some a'))
       | None => set_ht (set_pListTail (Some a'))
       end) (HState t m1 w) =
     Ok (tt, HState (set_pListTail (match pListNext b with None => Some a' | Some _ => pListTail t end) t)
        (opt_alter (pListNext b) (set_pListLast (Some a')) m1) w)).
  { destruct (pListNext b) as [y|] eqn:E; [|done].
    rewrite (assign_ok y) by (apply Hlive1; by left). by destruct t. }
  erewrite mbind_ok by exact H1. set (m2 := opt_alter _ _ m1). set (t1 := set_pListTail _ t).
  assert (H2 : (match pListLast b with
       | Some _ => assign (pListLast b) (set_pListNext (Some a'))
       | None => set_ht (set_pListHead (Some a'))
       end) (HState t1 m2 w) =
     Ok (tt, HState (set_pListHead (match pListLast b with None => Some a' | Some _ => pListHead t end) t1)
        (opt_alter (pListLast b) (set_pListNext (Some a')) m2) w)).
  { destruct (pListLast b) as [y|] eqn:E; [|done].
    rewrite (assign_ok y) by (apply is_Some_opt_alter, Hlive1; by right). by destruct t. }
  erewrite mbind_ok by exact H2. set (m3 := opt_alter _ _ m2). set (t2 := set_pListHead _ t1).
  assert (H3 : (if decide (pInternalPointer t = Some a) then set_ht (set_pInternalPointer (Some a')) else mret tt)
      (HState t2 m3 w) = Ok (tt, HState (replaced_ht a a' b t) m3 w)).
  { unfold replaced_ht. case_decide; [done|]. unfold t2, t1. by destruct t. }
  erewrite mbind_ok by exact H3.
  erewrite mbind_ok; [|apply release_ok; simpl]; [done|].
  unfold m3. apply is_Some_opt_alter. unfold m2. apply is_Some_opt_alter.
  unfold m1. rewrite lookup_insert_ne by done. by eexists.
Qed.

Lemma replace_spec t m w l1 a l2 b kvs1 kvs2 n a' len pos :
  off_chain t m l1 a l2 b kvs1 kvs2 n -> alloc m (sizeof_Bucket - 1 + len) = Some a' ->
  exists t' m', replace_bucket (Some a) len pos (HState t m w) =
      Ok ((Some a', match pos with Some _ => Some (Some a') | None => None end), HState t' m' w) /\
    off_chain t' m' l1 a' l2 (new_block len b) kvs1 kvs2 n /\ kept t t' /\
    pInternalPointer t' =
      (if decide (pInternalPointer t = Some a) then Some a' else pInternalPointer t).
Proof.
  intros [Osz Ond Odom Oo Ohd Otl Och Ob O1 O2 Ok On Ocu] Hal.
  pose proof (alloc_fresh _ _ _ Hal) as Hfresh.
  destruct (seg_mid _ _ _ _ _ _ _ Oo) as (b0 & Hb0 & Hl & Hn). simplify_eq. simpl in Hl, Hn.
  pose proof (NoDup_app_mid _ _ _ Ond) as (Ha1 & Ha2 & Ond').
  assert (Ha' : a' ∉ l1 ++ a :: l2).
  { intros Hin. pose proof (seg_lookup _ _ _ _ _ _ Oo Hin) as [? ?]. congruence. }
  assert (Hlive : forall x, pListNext b = Some x \/ pListLast b = Some x -> x ∈ l1 ++ l2).
  { rewrite Hl, Hn. intros x [Hx%head_ptr_elem|Hx%last_ptr_elem]; set_solver. }
  assert (Hne : forall x, pListNext b = Some x \/ pListLast b = Some x -> x <> a /\ x <> a').
  { intros x Hx%Hlive. split; intros ->; set_solver. }
  do 2 eexists. split.
  { apply run_replace; [done|done| | |].
    - intros x Hx. eapply seg_lookup; [exact Oo|]. apply Hlive in Hx. set_solver.
    - intros Hx. by destruct (Hne a (or_introl Hx)).
    - intros Hx. by destruct (Hne a (or_intror Hx)). }
  split; [|done].
  assert (Helse : forall x, x ∈ l1 ++ l2 ->
    strip_order <$> replaced_heap a a' len b m !! x = strip_order <$> m !! x).
  { intros x Hx. unfold replaced_heap. rewrite lookup_delete_ne by set_solver.
    rewrite (replaced_frame a' len b m x). by rewrite lookup_insert_ne by set_solver. }
  assert (Hnew : replaced_heap a a' len b m !! a' = Some (new_block len b)).
  { unfold replaced_heap. rewrite lookup_delete_ne by set_solver.
    destruct (pListLast b) as [x|] eqn:E1; destruct (pListNext b) as [y|] eqn:E2; simpl;
      rewrite ?lookup_alter_ne; try apply lookup_insert_eq; by apply Hne; eauto. }
  split; simpl; try done.
  - rewrite <- Permutation_middle. apply NoDup_cons. split; [set_solver|done].
  - intros x Hx. unfold replaced_heap in Hx. rewrite lookup_delete in Hx.
    case_decide; [by destruct Hx|].
    apply (order_frame_is_Some _ _ _ (replaced_frame a' len b m)) in Hx.
    rewrite lookup_insert in Hx. case_decide; [set_solver|]. apply Odom in Hx. set_solver.
  - apply seg_delete_ne; [set_solver|]. rewrite Hl, Hn.
    apply (seg_replace order_links _ l1 a l2 a' (new_block len b)); try done.
    + by apply seg_insert_ne.
    + apply lookup_insert_eq.
  - rewrite Hl, Ohd. destruct l1 as [|x l1]; [done|].
    destruct (last_ptr None (x :: l1)) eqn:E; [done|by apply last_ptr_None in E].
  - rewrite Hn, Otl, !last_ptr_app, !last_ptr_cons. destruct l2; [done|by rewrite !last_ptr_cons].
  - by eapply elsewhere_chains.
  - eapply elsewhere_holds; [|done]. set_solver.
  - eapply elsewhere_holds; [|done]. set_solver.
  - intros x. case_decide as Hd; [intros [= <-]; set_solver|]. intros Hx. apply Ocu in Hx as Hx'.
    set_solver.
Qed.

(** ** Back on a chain *)

Lemma rekey_relink_spec t m w l1 a l2 b kvs1 kvs2 n b3 k :
  off_chain t m l1 a l2 b kvs1 kvs2 n ->
  pListNext b3 = pListNext b -> pListLast b3 = pListLast b -> bucket_ok b3 -> bucket_key b3 = k ->
  k ∉ (kvs1 ++ kvs2).*1 ->
  exists p m', arBuckets t !! Z.to_nat (Z.land (h b3) (nTableMask t)) = Some p /\
    CONNECT_TO_BUCKET_DLLIST (Some a) p (HState t (<[a := b3]> m) w) = Ok (tt, HState t m' w) /\
    reprn (HState (set_arBuckets (<[Z.to_nat (Z.land (h b3) (nTableMask t)) := Some a]> (arBuckets t)) t) m' w)
      (l1 ++ a :: l2) (kvs1 ++ (k, data_value (pData b3)) :: kvs2) n.
Proof.
  intros [Osz Ond Odom Oo Ohd Otl Och Ob O1 O2 Ok On Ocu] HN HL Hok Hk Hnk.
  pose proof (NoDup_app_mid _ _ _ Ond) as (Ha1 & Ha2 & Ond').
  destruct (index_lookup t (h b3) Osz) as [p Hp].
  set (i := Z.to_nat (Z.land (h b3) (nTableMask t))) in *. set (m0 := <[a := b3]> m).
  assert (Hb3 : m0 !! a = Some b3) by apply lookup_insert_eq.
  assert (Hm0 : forall x, x ∈ l1 ++ l2 -> m0 !! x = m !! x)
    by (intros x Hx; apply lookup_insert_ne; set_solver).
  assert (Hc0 : chains m0 (arBuckets t) (nTableMask t) (l1 ++ l2)).
  { eapply elsewhere_chains; [|exact Och]. intros x Hx. by rewrite Hm0. }
  assert (Ho0 : seg order_links m0 None (l1 ++ a :: l2) None).
  { eapply seg_ext; [|exact Oo]. intros x _. unfold m0. rewrite lookup_insert.
    case_decide; [|done]. subst. rewrite Ob. simpl. by rewrite HN, HL. }
  pose proof (chain_insert _ _ _ _ a b3 i p Hc0 ltac:(set_solver) Hb3 Hp
    (eq_sym (index_nat _ _ Osz))) as Hc1.
  pose proof (chain_inserted_frame a p b3 m0 Hb3) as Hf.
  exists p, (chain_inserted a p b3 m0). split; [done|]. split.
  { apply run_connect_bucket; [done|]. intros x ->.
    destruct (Hc0 i _ Hp) as (c & Hx & Hs & _). eapply seg_lookup; [exact Hs|].
    by apply head_ptr_elem. }
  split; simpl; try done.
  - destruct Osz as (? & ? & ?). split_and!; [done|done|]. simpl. by rewrite length_insert.
  - intros x Hx. apply (chain_frame_is_Some _ _ _ Hf) in Hx. unfold m0 in Hx.
    rewrite lookup_insert in Hx. case_decide; [set_solver|by apply Odom].
  - by apply (order_seg_chain_frame _ _ _ _ _ Hf).
  - eapply chains_Permutation; [|exact Hc1]. rewrite <- app_assoc. apply Permutation_app_head.
    by rewrite Permutation_app_comm.
  - apply Forall2_app; [|constructor].
    + eapply Forall2_impl_in; [exact O1|]. intros x kv Hx Hkv. apply (holds_chain_frame _ _ _ _ Hf).
      apply holds_insert_ne; [set_solver|done].
    + apply (holds_chain_frame _ _ _ _ Hf). exists b3. split_and!; [done|done|]. by rewrite <- Hk.
    + eapply Forall2_impl_in; [exact O2|]. intros x kv Hx Hkv. apply (holds_chain_frame _ _ _ _ Hf).
      apply holds_insert_ne; [set_solver|done].
  - rewrite fmap_app in *. simpl. rewrite <- Permutation_middle. by apply NoDup_cons.
Qed.

(** ** The whole change *)

(** The new key as the caller gives it. *)
Definition new_key (key_type : Z) (str : list byte) (num_index : Z) : hkey :=
  if key_type =? HASH_KEY_IS_LONG then KInt num_index else KStr str.
Definition new_key_ok (key_type : Z) (str : list byte) (num_index : Z) : Prop :=
  key_type = HASH_KEY_IS_LONG /\ str = [] /\ 0 <= num_index < 2 ^ 64 \/
  key_type = HASH_KEY_IS_STRING /\ str <> [].

(** The bucket with the new key written into it. *)
Definition rekeyed (key_type : Z) (str : list byte) (num_index : Z) b : Bucket V :=
  if key_type =? HASH_KEY_IS_LONG then set_h num_index b
  else set_h (zend_inline_hash_func str) (set_arKey str b).
Lemma rekeyed_rest key_type str num_index b :
  let b' := rekeyed key_type str num_index b in
  pListNext b' = pListNext b /\ pListLast b' = pListLast b /\ pData b' = pData b.
Proof. unfold rekeyed. cbv zeta. by destruct (key_type =? HASH_KEY_IS_LONG). Qed.
Lemma rekeyed_key key_type str num_index b :
  new_key_ok key_type str num_index -> nKeyLength b = Z.of_nat (length str) ->
  bucket_ok (rekeyed key_type str num_index b) /\
  bucket_key (rekeyed key_type str num_index b) = new_key key_type str num_index.
Proof.
  intros [(-> & -> & Hn)|[-> Hs]] Hl; unfold rekeyed, new_key, bucket_ok, bucket_key; simpl; rewrite Hl; simpl.
  - done.
  - rewrite (proj2 (Z.eqb_neq _ _)) by (destruct str; [done|simpl; lia]).
    split; [|done]. split; [apply hash_func_range|done].
Qed.

Lemma rekey_spec t m w l kvs n k a b l1 l2 kvs1 kvs2 key_type str num_index pos :
  plentiful V -> reprn (HState t m w) l kvs n -> focus m l kvs k a b l1 l2 kvs1 kvs2 ->
  new_key_ok key_type str num_index -> new_key key_type str num_index ∉ (kvs1 ++ kvs2).*1 ->
  exists a' s', rekey (Some a) key_type str num_index pos (HState t m w) =
      Ok ((SUCCESS, if decide (a' = a) then pos
                    else match pos with Some _ => Some (Some a') | None => None end), s') /\
    reprn s' (l1 ++ a' :: l2) (kvs1 ++ (new_key key_type str num_index, data_value (pData b)) :: kvs2) n /\
    env s' = w /\ kept t (ht s') /\
    pInternalPointer (ht s') =
      (if decide (pInternalPointer t = Some a) then Some a' else pInternalPointer t).
Proof.
  intros Hp R F Hkey Hnk. unfold rekey. cbv zeta.
  destruct (leave_spec _ _ _ _ _ _ _ _ _ _ _ _ _ R F) as (t1 & m1 & H1 & O1 & K1 & P1).
  rewrite (mbind_ok _ _ _ _ _ H1). erewrite bind_deref by apply (oc_bucket _ _ _ _ _ _ _ _ _ O1).
  set (len := Z.of_nat (length str)).
  assert (Hblock : exists a2 b2 t2 m2,
    (if negb (nKeyLength b =? len) then replace_bucket (Some a) len pos else mret (Some a, pos)) (HState t1 m1 w) =
      Ok ((Some a2, if decide (a2 = a) then pos else match pos with Some _ => Some (Some a2) | None => None end),
          HState t2 m2 w) /\
    off_chain t2 m2 l1 a2 l2 b2 kvs1 kvs2 n /\ kept t1 t2 /\ nKeyLength b2 = len /\ pData b2 = pData b /\
    pInternalPointer t2 = (if decide (pInternalPointer t1 = Some a) then Some a2 else pInternalPointer t1)).
  { destruct (Z.eqb_spec (nKeyLength b) len) as [He|He]; simpl.
    - exists a, b, t1, m1. split; [by rewrite decide_True|]. split; [done|]. split; [done|].
      split; [done|]. split; [done|]. by case_decide.
    - destruct (alloc m1 (sizeof_Bucket - 1 + len)) as [a2|] eqn:Hal.
      + destruct (replace_spec t1 m1 w l1 a l2 b kvs1 kvs2 n a2 len pos O1 Hal) as (t2 & m2 & H2 & O2 & K2 & P2).
        assert (a2 <> a).
        { intros ->. pose proof (oc_bucket _ _ _ _ _ _ _ _ _ O1). by rewrite (alloc_fresh _ _ _ Hal) in *. }
        exists a2, (new_block len b), t2, m2. split; [by rewrite decide_False|]. done.
      + by destruct (proj1 (Hp m1 _) Hal). }
  destruct Hblock as (a2 & b2 & t2 & m2 & H2 & O2 & K2 & Hlen & Hdata & P2).
  rewrite (mbind_ok _ _ _ _ _ H2). cbn beta iota.
  destruct (rekeyed_key key_type str num_index b2 Hkey Hlen) as [Hok3 Hk3].
  destruct (rekeyed_rest key_type str num_index b2) as (HN3 & HL3 & HD3).
  set (b3 := rekeyed key_type str num_index b2) in *.
  assert (H3 : (if key_type =? HASH_KEY_IS_LONG then assign (Some a2) (set_h num_index)
     else assign (Some a2) (set_arKey str);; assign (Some a2) (set_h (zend_inline_hash_func str)))
     (HState t2 m2 w) = Ok (tt, HState t2 (<[a2 := b3]> m2) w)).
  { pose proof (oc_bucket _ _ _ _ _ _ _ _ _ O2) as Hb2. unfold b3, rekeyed. destruct (key_type =? HASH_KEY_IS_LONG).
    - rewrite assign_ok by (by eexists). unfold upd_heap. simpl. by rewrite (alter_insert _ _ _ _ Hb2).
    - erewrite bind_assign by exact Hb2. rewrite assign_ok by (simpl; rewrite lookup_insert_eq; by eexists).
      unfold upd_heap. simpl. erewrite alter_insert by apply lookup_insert_eq. by rewrite insert_insert_eq. }
  rewrite (mbind_ok _ _ _ _ _ H3). erewrite bind_deref by apply lookup_insert_eq. rewrite bind_get. cbn [ht].
  destruct (rekey_relink_spec t2 m2 w l1 a2 l2 b2 kvs1 kvs2 n b3 (new_key key_type str num_index) O2) as (hd & m4 & Hhd & H4 & R4);
    [exact HN3|exact HL3|exact Hok3|exact Hk3|exact Hnk|].
  rewrite bind_arBuckets_at with (p := hd) by exact Hhd. rewrite (mbind_ok _ _ _ _ _ H4).
  erewrite mbind_ok by (apply run_set_arBuckets_at; by eexists).
  exists a2. eexists. split; [done|].
  assert (pData b3 = pData b) as <- by congruence.
  split; [exact R4|]. split; [done|]. unfold kept in *. simpl. split; [naive_solver congruence|].
  rewrite P2, P1. done.
Qed.

(** ** The other entry with the new key *)

Lemma kv_delete_absent k kvs : k ∉ kvs.*1 -> kv_delete k kvs = kvs.
Proof.
  induction kvs as [|[k' v] kvs IH]; simpl; [done|]. intros Hk.
  rewrite decide_False by set_solver. f_equal. apply IH. set_solver.
Qed.
Lemma kv_delete_gone k kvs : NoDup kvs.*1 -> k ∉ (kv_delete k kvs).*1.
Proof.
  induction kvs as [|[k' v] kvs IH]; simpl; [set_solver|]. intros [Hk Hnd]%NoDup_cons.
  case_decide; [by subst|]. simpl. apply not_elem_of_cons. split; [done|by apply IH].
Qed.

Lemma other_side m l1 a l2 kvs1 k v kvs2 nk q bq lq1 lq2 kq1 kq2 :
  Forall2 (holds m) (l1 ++ a :: l2) (kvs1 ++ (k, v) :: kvs2) -> length l1 = length kvs1 ->
  NoDup (l1 ++ a :: l2) -> NoDup (kvs1 ++ (k, v) :: kvs2).*1 ->
  focus m (l1 ++ a :: l2) (kvs1 ++ (k, v) :: kvs2) nk q bq lq1 lq2 kq1 kq2 -> nk <> k ->
  (q ∈ l1 <-> nk ∈ kvs1.*1) /\
  kq1 ++ kq2 = kv_delete nk kvs1 ++ (k, v) :: kv_delete nk kvs2 /\
  exists p1 p2, lq1 ++ lq2 = p1 ++ a :: p2 /\ length p1 = length (kv_delete nk kvs1).
Proof.
  intros Hh Hlen Hnd Hkd F Hne. apply Forall2_app_inv in Hh as [H1 H2]; [|done].
  apply Forall2_cons in H2 as [Ha H2].
  pose proof (focus_lookup _ _ _ _ _ _ _ _ _ _ F Hkd) as (_ & _ & Hdel).
  destruct F as [Hl Hk _ _ Hq Hok Hkq].
  rewrite fmap_app in Hkd. simpl in Hkd. pose proof (NoDup_app_mid _ _ _ Hkd) as (Hk1 & Hk2 & Hkd').
  assert (Hqk : forall kv, holds m q kv -> kv = (nk, data_value (pData bq))).
  { intros kv (b' & Hb' & _ & <-). simplify_eq. unfold entry. done. }
  apply List.app_eq_app in Hl as (r & [[Hl1 Hr]|[Hlq Hr]]).
  - destruct r as [|x r]; simpl in Hr; injection Hr as -> ->.
    { apply Hqk in Ha. congruence. }
    subst l1. apply Forall2_app_inv_l in H1 as (kx1 & ky & Hx1 & Hy & ->).
    apply Forall2_cons_inv_l in Hy as (kvq & kx2 & Hkvq & Hx2 & ->). apply Hqk in Hkvq as ->.
    rewrite fmap_app in Hkd. simpl in Hkd. apply NoDup_app in Hkd as (Hkd1 & Hdis & _).
    apply NoDup_app_mid in Hkd1 as Hkx. destruct Hkx as (Hx1k & _ & _).
    rewrite kv_delete_split by done.
    assert (Hn2 : nk ∉ kvs2.*1).
    { intros Hin. apply (Hdis nk); [|by right]. rewrite elem_of_app. right. by left. }
    split_and!.
    + rewrite fmap_app. simpl. set_solver.
    + rewrite <- Hdel, <- app_assoc. simpl. rewrite kv_delete_split by done.
      by rewrite (kv_delete_absent nk kvs2), <- app_assoc.
    + exists (lq1 ++ r), l2. rewrite <- app_assoc. split; [done|].
      rewrite !length_app, (Forall2_length _ _ _ Hx1), (Forall2_length _ _ _ Hx2). done.
  - destruct r as [|x r]; simpl in Hr; injection Hr as -> ->.
    { apply Hqk in Ha. congruence. }
    subst lq1. apply Forall2_app_inv_l in H2 as (kx1 & ky & Hx1 & Hy & ->).
    apply Forall2_cons_inv_l in Hy as (kvq & kx2 & Hkvq & Hx2 & ->). apply Hqk in Hkvq as ->.
    apply NoDup_app in Hkd as (_ & Hdis & Hkd2). rewrite fmap_app in Hkd2. simpl in Hkd2.
    apply NoDup_cons in Hkd2 as [_ Hkd2]. apply NoDup_app_mid in Hkd2 as (Hx1k & _ & _).
    assert (Hn1 : nk ∉ kvs1.*1).
    { intros Hin. apply (Hdis nk Hin). right. rewrite fmap_app. set_solver. }
    split_and!.
    + split; [|done]. intros Hin. exfalso. apply NoDup_app in Hnd as (_ & Hd & _).
      apply (Hd q Hin). set_solver.
    + rewrite <- Hdel. rewrite (kv_delete_absent nk kvs1), kv_delete_split by done.
      rewrite app_comm_cons, app_assoc. rewrite kv_delete_split by (rewrite fmap_app; set_solver).
      by rewrite <- app_assoc.
    + exists l1, (r ++ lq2). rewrite <- app_assoc. split; [done|].
      by rewrite (kv_delete_absent nk kvs1).
Qed.

Lemma comes_before_spec t m w (q : addr) l1 : forall fuel l2,
  seg order_links m None (l1 ++ l2) None -> NoDup (l1 ++ l2) -> (length l1 < fuel)%nat ->
  comes_before fuel (Some q) (last_ptr None l1) (HState t m w) = Ok (bool_decide (q ∈ l1)).
Proof.
  induction l1 as [|x l1 IH] using rev_ind; intros fuel l2 Hs Hnd Hf; destruct fuel as [|fuel];
    try (rewrite ?length_app in Hf; simpl in Hf; lia).
  - rewrite bool_decide_eq_false_2; [done|set_solver].
  - rewrite length_app in Hf. simpl in Hf. rewrite <- app_assoc in Hs, Hnd. simpl in Hs, Hnd.
    destruct (seg_mid _ _ _ _ _ _ _ Hs) as (b & Hb & Hl & _). rewrite last_ptr_snoc. cbn [comes_before].
    destruct (decide (Some x = Some q)) as [Hd|Hd].
    + injection Hd as ->. rewrite bool_decide_eq_true_2; [done|set_solver].
    + unfold deref. simpl. rewrite Hb. simpl in Hl. rewrite Hl, (IH fuel (x :: l2)) by (done || lia).
      f_equal. apply bool_decide_ext. set_solver.
Qed.

(** ** All outcomes *)

(** Whether the entry gives way to the other one with the new key: [before]
    says that the other comes first. *)
Definition gives_way (mode : Z) (before : bool) : bool :=
  negb (mode =? HASH_UPDATE_KEY_ANYWAY) &&
  has_flag mode (if before then HASH_UPDATE_KEY_IF_AFTER else HASH_UPDATE_KEY_IF_BEFORE).

(** The entry [(k, v)] at [a] has got the key [nk]; [old] is the value of the
    entry that had it, [s0] the table before. *)
Definition key_changed s0 (kvs1 kvs2 : list (hkey * V)) (nk : hkey) (v : V) (old : option V) (pos : option ptr)
    (r : res (Z * option ptr * hstate V W)) : Prop :=
  exists s' l' a' pos', r = Ok (SUCCESS, pos', s') /\
    repr s' l' (kv_delete nk kvs1 ++ (nk, v) :: kv_delete nk kvs2) /\
    env s' = match old with Some o => dtor_env (ht s0) o (env s0) | None => env s0 end /\
    same_config s0 s' /\ nNextFreeElement (ht s') = nNextFreeElement (ht s0) /\
    (is_Some pos' <-> is_Some pos) /\ position pos' s' = Some a' /\ holds (buckets s') a' (nk, v).

Lemma rekeyed_at s0 s l1 a l2 kvs1 k v kvs2 key_type str num_index pos old :
  plentiful V -> repr s (l1 ++ a :: l2) (kvs1 ++ (k, v) :: kvs2) -> length l1 = length kvs1 ->
  position pos s = Some a -> new_key_ok key_type str num_index ->
  let nk := new_key key_type str num_index in
  nk ∉ (kvs1 ++ kvs2).*1 ->
  env s = match old with Some o => dtor_env (ht s0) o (env s0) | None => env s0 end ->
  same_config s0 s -> nNextFreeElement (ht s) = nNextFreeElement (ht s0) ->
  forall kvs1' kvs2', kv_delete nk kvs1' = kvs1 -> kv_delete nk kvs2' = kvs2 ->
  key_changed s0 kvs1' kvs2' nk v old pos (rekey (Some a) key_type str num_index pos s).
Proof.
  intros Hp R Hlen Hpos Hkey nk Hnk He Hc Hn kvs1' kvs2' <- <-. destruct s as [t m w].
  destruct (focus_head m l1 a l2 _ _ (r_holds _ _ _ _ R) Hlen) as (b & kr & [= -> -> <-] & F).
  destruct (rekey_spec t m w _ _ _ _ a b l1 l2 _ _ key_type str num_index pos Hp R F Hkey Hnk)
    as (a' & s' & Hrun & R' & He' & K & P). fold nk in R'.
  exists s', (l1 ++ a' :: l2), a'. eexists. split; [exact Hrun|]. split.
  { unfold repr in *. rewrite length_app in *. exact R'. }
  simpl in He. split; [congruence|]. split.
  { destruct Hc as (C1 & C2 & C3 & C4), K as (K1 & K2 & K3 & K4 & _). simpl in *.
    unfold same_config. split_and!; congruence. }
  split; [destruct K as (_ & _ & _ & _ & K5); simpl in Hn; congruence|].
  split; [destruct (decide (a' = a)); [tauto|by destruct pos; split]|]. split.
  - simpl in P. destruct pos as [q|]; simpl in Hpos |- *.
    + destruct (decide (a' = a)) as [->|]; simpl; congruence.
    + rewrite Hpos, decide_True in P by done. by destruct (decide (a' = a)).
  - pose proof (r_holds _ _ _ _ R') as Hh. apply Forall2_app_inv in Hh as [_ Hh]; [|done].
    by apply Forall2_cons in Hh as [? _].
Qed.

Lemma delete_other s l1 a l2 kvs1 k v kvs2 key_type str num_index pos q bq lq1 lq2 kq1 kq2 :
  plentiful V -> repr s (l1 ++ a :: l2) (kvs1 ++ (k, v) :: kvs2) -> length l1 = length kvs1 ->
  position pos s = Some a -> new_key_ok key_type str num_index ->
  let nk := new_key key_type str num_index in nk <> k ->
  focus (buckets s) (l1 ++ a :: l2) (kvs1 ++ (k, v) :: kvs2) nk q bq lq1 lq2 kq1 kq2 ->
  key_changed s kvs1 kvs2 nk v (Some (data_value (pData bq))) pos
    ((delete_bucket (Some q);; rekey (Some a) key_type str num_index pos) s).
Proof.
  intros Hp R Hlen Hpos Hkey nk Hne Fq. pose proof (r_keys _ _ _ _ R) as Hkd.
  pose proof (r_nodup _ _ _ _ R) as Hnd.
  destruct (other_side _ _ _ _ _ _ _ _ _ _ _ _ _ _ _ (r_holds _ _ _ _ R) Hlen Hnd Hkd Fq Hne)
    as (_ & Hdel & p1 & p2 & Hsplit & Hp1).
  destruct s as [t m w].
  destruct (del_at_spec _ _ _ _ _ _ _ _ _ _ _ _ R Fq) as (s' & Hrun & R' & Hd & Hc & Hnf & Hip).
  assert (Hdq : delete_bucket (Some q) (HState t m w) = Ok (tt, s')).
  { unfold delete_bucket. rewrite bind_get.
    erewrite bind_deref by apply (f_bucket _ _ _ _ _ _ _ _ _ _ Fq). exact Hrun. }
  rewrite (mbind_ok _ _ _ _ _ Hdq). rewrite Hsplit, Hdel in R'.
  assert (Hqa : q <> a).
  { intros ->. pose proof (f_l _ _ _ _ _ _ _ _ _ _ Fq) as Hl. rewrite Hl in Hnd.
    apply NoDup_app_mid in Hnd as (Hn1 & Hn2 & _). assert (Ha : a ∈ lq1 ++ lq2) by (rewrite Hsplit; set_solver).
    set_solver. }
  apply (rekeyed_at (HState t m w) s' p1 a p2 (kv_delete nk kvs1) k v (kv_delete nk kvs2)
    key_type str num_index pos (Some (data_value (pData bq)))); try done.
  - destruct pos as [p|]; [done|]. simpl in Hpos |- *. rewrite Hip. simpl. rewrite decide_False by congruence. done.
  - fold nk. rewrite !fmap_app in *. simpl in Hkd. apply NoDup_app_mid in Hkd as (_ & _ & Hkd).
    apply NoDup_app in Hkd as (Hk1 & _ & Hk2).
    rewrite elem_of_app. intros [Hin|Hin]; revert Hin; by apply kv_delete_gone.
Qed.

Lemma conflict_spec s l1 a l2 kvs1 k v kvs2 key_type str num_index mode pos r :
  plentiful V -> repr s (l1 ++ a :: l2) (kvs1 ++ (k, v) :: kvs2) -> length l1 = length kvs1 ->
  position pos s = Some a -> new_key_ok key_type str num_index ->
  let nk := new_key key_type str num_index in nk <> k ->
  match r with
  | None => nk ∉ (kvs1 ++ (k, v) :: kvs2).*1
  | Some q => exists bq lq1 lq2 kq1 kq2,
      focus (buckets s) (l1 ++ a :: l2) (kvs1 ++ (k, v) :: kvs2) nk q bq lq1 lq2 kq1 kq2
  end ->
  let other := kv_lookup nk (kvs1 ++ (k, v) :: kvs2) in
  let res := update_key_conflict (Some a) r key_type str num_index mode pos s in
  if bool_decide (is_Some other) && gives_way mode (bool_decide (nk ∈ kvs1.*1)) then
    exists s', res = Ok (FAILURE, pos, s') /\ repr s' (l1 ++ l2) (kvs1 ++ kvs2) /\
      env s' = dtor_env (ht s) v (env s) /\ same_config s s' /\
      nNextFreeElement (ht s') = nNextFreeElement (ht s)
  else key_changed s kvs1 kvs2 nk v other pos res.
Proof.
  intros Hp R Hlen Hpos Hkey nk Hne Hr other res. unfold update_key_conflict in res.
  pose proof (r_keys _ _ _ _ R) as Hkd. destruct r as [q|].
  - destruct Hr as (bq & lq1 & lq2 & kq1 & kq2 & Fq).
    destruct (focus_lookup _ _ _ _ _ _ _ _ _ _ Fq Hkd) as (Ho & _ & _).
    unfold other. rewrite Ho, bool_decide_eq_true_2 by done. cbn [andb].
    pose proof (r_holds _ _ _ _ R) as Hh.
    destruct (other_side _ _ _ _ _ _ _ _ _ _ _ _ _ _ _ Hh Hlen (r_nodup _ _ _ _ R) Hkd Fq Hne)
      as (Hside & Hdel & p1 & p2 & Hsplit & Hp1).
    destruct s as [t m w]. destruct (focus_head m l1 a l2 _ _ Hh Hlen) as (b & kr & [= -> -> <-] & F).
    destruct (focus_links _ _ _ _ _ _ _ _ _ _ _ _ _ R F) as (hd & _ & _ & _ & Hb & HL & _).
    assert (Hbefore : (if mode =? HASH_UPDATE_KEY_ANYWAY then mret false
        else reading (comes_before (walk_fuel (HState t m w)) (Some q) (pListLast b))) (HState t m w) =
      Ok (if mode =? HASH_UPDATE_KEY_ANYWAY then false else bool_decide (nk ∈ kvs1.*1), HState t m w)).
    { destruct (mode =? HASH_UPDATE_KEY_ANYWAY); [done|]. unfold reading. rewrite HL.
      rewrite (comes_before_spec t m w q l1 _ (a :: l2) (r_order _ _ _ _ R) (r_nodup _ _ _ _ R)).
      - by rewrite (bool_decide_ext _ _ Hside).
      - pose proof (walk_fuel_enough _ _ _ _ R) as Hf. rewrite length_app in Hf. simpl in *. lia. }
    unfold res. rewrite bind_get. erewrite bind_deref by exact Hb. rewrite (mbind_ok _ _ _ _ _ Hbefore).
    pose proof (delete_other _ _ _ _ _ _ _ _ _ _ _ pos _ _ _ _ _ _ Hp R Hlen Hpos Hkey Hne Fq) as Hother.
    unfold gives_way. set (before := bool_decide (nk ∈ kvs1.*1)).
    assert (Hfound : negb (mode =? HASH_UPDATE_KEY_ANYWAY) &&
        has_flag mode (if (if mode =? HASH_UPDATE_KEY_ANYWAY then false else before)
          then HASH_UPDATE_KEY_IF_AFTER else HASH_UPDATE_KEY_IF_BEFORE) =
      negb (mode =? HASH_UPDATE_KEY_ANYWAY) &&
        has_flag mode (if before then HASH_UPDATE_KEY_IF_AFTER else HASH_UPDATE_KEY_IF_BEFORE))
      by (by destruct (mode =? HASH_UPDATE_KEY_ANYWAY)).
    cbv zeta. rewrite Hfound.
    destruct (negb (mode =? HASH_UPDATE_KEY_ANYWAY) &&
      has_flag mode (if before then HASH_UPDATE_KEY_IF_AFTER else HASH_UPDATE_KEY_IF_BEFORE)); [|exact Hother].
    destruct (del_at_spec _ _ _ _ _ _ _ _ _ _ _ _ R F) as (s' & Hrun & R' & Hd & Hc & Hnf & _).
    exists s'. split; [|done].
    assert (Hda : delete_bucket (Some a) (HState t m w) = Ok (tt, s')).
    { unfold delete_bucket. rewrite bind_get. erewrite bind_deref by exact Hb. exact Hrun. }
    by rewrite (mbind_ok _ _ _ _ _ Hda).
  - assert (nk ∉ kvs1.*1 /\ nk ∉ kvs2.*1) as [Hn1 Hn2].
    { rewrite fmap_app in Hr. simpl in Hr. set_solver. }
    unfold other. rewrite (proj2 (kv_lookup_None _ _) Hr), bool_decide_eq_false_2 by (by intros [? ?]).
    cbn [andb]. unfold res.
    apply (rekeyed_at s s l1 a l2 kvs1 k v kvs2 key_type str num_index pos None); try done.
    + fold nk. rewrite fmap_app. set_solver.
    + by apply kv_delete_absent.
    + by apply kv_delete_absent.
Qed.

Lemma same_string_spec (str : list byte) b :
  bucket_ok b -> str <> [] ->
  (nKeyLength b =? Z.of_nat (length str)) && (memcmp (arKey b) str (length str) =? 0) = true <->
  bucket_key b = KStr str.
Proof.
  intros Hok Hs. rewrite <- (is_key_spec str b Hok Hs). unfold is_key.
  split; [|rewrite !andb_true_iff; tauto]. intros Hb. rewrite <- andb_assoc, Hb, andb_true_r.
  apply andb_true_iff in Hb as [Hl%Z.eqb_eq Hm%Z.eqb_eq]. apply Z.eqb_eq.
  assert (Hnz : nKeyLength b <> 0) by (destruct str; [done|simpl in *; lia]).
  destruct (proj2 Hok Hnz) as [Hl2 Hh]. rewrite Hh. f_equal.
  apply memcmp_eq in Hm; [done|lia].
Qed.

Lemma update_key_spec s l1 a l2 kvs1 k v kvs2 key_type str num_index mode pos :
  plentiful V -> repr s (l1 ++ a :: l2) (kvs1 ++ (k, v) :: kvs2) -> length l1 = length kvs1 ->
  position pos s = Some a -> new_key_ok key_type str num_index ->
  let nk := new_key key_type str num_index in
  let other := kv_lookup nk (kvs1 ++ kvs2) in
  let r := zend_hash_update_current_key_ex key_type str num_index mode pos s in
  if decide (nk = k) then r = Ok (SUCCESS, pos, s)
  else if bool_decide (is_Some other) && gives_way mode (bool_decide (nk ∈ kvs1.*1)) then
    exists s', r = Ok (FAILURE, pos, s') /\ repr s' (l1 ++ l2) (kvs1 ++ kvs2) /\
      env s' = dtor_env (ht s) v (env s) /\ same_config s s' /\
      nNextFreeElement (ht s') = nNextFreeElement (ht s)
  else key_changed s kvs1 kvs2 nk v other pos r.
Proof.
  intros Hp R Hlen Hpos Hkey nk other r.
  assert (Hother : nk <> k -> other = kv_lookup nk (kvs1 ++ (k, v) :: kvs2)).
  { intros Hne. unfold other. clear -Hne. induction kvs1 as [|[k' v'] kvs1 IH]; simpl.
    - by rewrite decide_False.
    - case_decide; [done|exact IH]. }
  pose proof (conflict_spec s l1 a l2 kvs1 k v kvs2 key_type str num_index mode pos) as Hconf.
  destruct s as [t m w].
  destruct (focus_head m l1 a l2 _ _ (r_holds _ _ _ _ R) Hlen) as (b & kr & [= -> -> <-] & F).
  pose proof (f_bucket _ _ _ _ _ _ _ _ _ _ F) as Hb. pose proof (f_ok _ _ _ _ _ _ _ _ _ _ F) as Hok.
  unfold r, zend_hash_update_current_key_ex. rewrite bind_get, Hpos. erewrite bind_deref by exact Hb.
  pose proof Hkey as Hkey'. destruct Hkey as [(-> & -> & Hn)|[-> Hs]].
  - change nk with (KInt num_index) in *. rewrite Z.eqb_refl.
    assert (Hsame : (nKeyLength b =? 0) && (h b =? num_index) = true <-> bucket_key b = KInt num_index).
    { rewrite andb_comm. apply is_index_spec. }
    destruct (_ && _) eqn:E; [rewrite decide_True by (symmetry; by apply Hsame); done|].
    assert (Hne : KInt num_index <> bucket_key b) by (intros Hk; symmetry in Hk; apply Hsame in Hk; done).
    rewrite decide_False by done.
    destruct (chain_find_spec _ _ _ _ (KInt num_index) (is_index num_index) R (fun b _ => is_index_spec num_index b))
      as (q & Hq & Hsp). cbn [hash_of] in Hq. erewrite mbind_reading by exact Hq.
    rewrite Hother by done. by apply Hconf.
  - change nk with (KStr str) in *. rewrite (Z.eqb_refl HASH_KEY_IS_STRING).
    change (HASH_KEY_IS_STRING =? HASH_KEY_IS_LONG) with false. cbn iota.
    pose proof (same_string_spec str b Hok Hs) as Hsame.
    destruct (_ && _) eqn:E; [rewrite decide_True by (symmetry; by apply Hsame); done|].
    assert (Hne : KStr str <> bucket_key b) by (intros Hk; symmetry in Hk; apply Hsame in Hk; done).
    rewrite decide_False by done. cbv zeta.
    destruct (chain_find_spec _ _ _ _ (KStr str) (is_key (zend_inline_hash_func str) str) R
      (fun b Hb => is_key_spec str b Hb Hs)) as (q & Hq & Hsp).
    cbn [hash_of] in Hq. erewrite mbind_reading by exact Hq.
    rewrite Hother by done. by apply Hconf.
Qed.
End Rekey.
