(* ===== verification/ZendHashClient.v ===== *)
(** * What the hash table promises its clients

    Single calls of the hash table's interface, stated against the ordered
    dictionary of ZendHashRefine: the resource lists and the JSON parser are
    proved against these lemmas. *)

From S2P Require Import Prelude Dll ZendHash ZendHashInv ZendHashSteps ZendHashOps ZendHashIter ZendHashBulk ZendHashOrder ZendHashCursor ZendHashNumeric ZendHashRefine.
Open Scope Z_scope.

Section Client.
Context {V W : Type} `{Allocator}.
Implicit Types (s : hstate V W) (d : dict V W).

Lemma status_inv (c : M (hstate V W) (Z * ptr)) s r v s' :
  status c s = Ok ((r, v), s') -> exists p, c s = Ok ((r, p), s').
Proof.
  unfold status, mbind, M_bind. destruct (c s) as [[[r1 p] s1]|]; [|done].
  intros [= -> _ ->]. by exists p.
Qed.
Lemma result_inv (c : M (hstate V W) Z) s r v s' : result c s = Ok ((r, v), s') -> c s = Ok (r, s').
Proof.
  unfold result, mbind, M_bind. destruct (c s) as [[r1 s1]|]; [|done]. by intros [= -> _ ->].
Qed.

Lemma index_store_run dtor s d hv v size flag :
  plentiful V -> refines dtor s d -> 0 <= hv < 2 ^ 64 ->
  flag = HASH_UPDATE ->
  exists p s', zend_hash_index_update_or_next_insert hv v size flag s =
      Ok ((dict_store dtor (KInt hv) v false d).1.1, p, s') /\
    refines dtor s' (dict_store dtor (KInt hv) v false d).2.
Proof.
  intros Hp HR Hv ->. destruct (call_refines dtor size s d (IndexUpdate hv v) Hp HR Hv) as (s' & Hs & HR').
  cbn [run_call dict_step] in Hs, HR'. destruct (dict_store _ _ _ _ _) as [[r x] d'] eqn:E.
  destruct (status_inv _ _ _ _ _ Hs) as [p Hc]. by exists p, s'.
Qed.
Lemma next_insert_run dtor s d v size :
  plentiful V -> refines dtor s d ->
  exists p s', zend_hash_next_index_insert v size s =
      Ok ((dict_store dtor (KInt (next_index d)) v true d).1.1, p, s') /\
    refines dtor s' (dict_store dtor (KInt (next_index d)) v true d).2.
Proof.
  intros Hp HR. destruct (call_refines dtor size s d (NextInsert v) Hp HR I) as (s' & Hs & HR').
  cbn [run_call dict_step] in Hs, HR'. destruct (dict_store _ _ _ _ _) as [[r x] d'] eqn:E.
  destruct (status_inv _ _ _ _ _ Hs) as [p Hc]. by exists p, s'.
Qed.
Lemma index_del_run dtor s d hv :
  plentiful V -> refines dtor s d -> 0 <= hv < 2 ^ 64 ->
  exists s', zend_hash_index_del hv s = Ok ((dict_del dtor (KInt hv) d).1.1, s') /\
    refines dtor s' (dict_del dtor (KInt hv) d).2.
Proof.
  intros Hp HR Hv. destruct (call_refines dtor 0 s d (IndexDel hv) Hp HR Hv) as (s' & Hs & HR').
  cbn [run_call dict_step] in Hs, HR'. destruct (dict_del _ _ _) as [[r x] d'] eqn:E.
  exists s'. split; [by eapply result_inv|done].
Qed.

(** A look-up gives the address of the bucket, through which the value can be
    changed in place. *)
Definition found_at dtor s d (k : hkey) (r : res ptr) : Prop :=
  match kv_lookup k (entries d) with
  | None => r = Ok None
  | Some v => exists a b, r = Ok (Some a) /\ deref (Some a) s = Ok b /\
      data_value (pData b) = v /\
      forall g, exists s',
        assign (Some a) (fun b => set_pData (data_set (g (data_value (pData b))) (pData b)) b) s =
          Ok (tt, s') /\ env s' = env s /\
        refines dtor s' (Dict (kv_update k (g v) (entries d)) (next_index d) (world d))
  end.
Lemma find_run dtor s d k test :
  refines dtor s d -> (forall b, bucket_ok b -> test b = true <-> bucket_key b = k) ->
  found_at dtor s d k (chain_find (Z.land (hash_of k) (nTableMask (ht s))) test s).
Proof.
  intros [[l Hr] Hn Hw Hd Ha] Ht. unfold found_at.
  destruct (chain_find_spec s l (entries d) _ k test Hr Ht) as (r & Hc & Hres).
  destruct r as [a|].
  - destruct Hres as (b & l1 & l2 & k1 & k2 & F).
    destruct (focus_lookup _ _ _ _ _ _ _ _ _ _ F (r_keys _ _ _ _ Hr)) as (-> & _ & _).
    pose proof (f_bucket _ _ _ _ _ _ _ _ _ _ F) as Hb.
    exists a, b. split; [exact Hc|]. split; [by apply deref_at|]. split; [done|]. intros g.
    set (v' := g (data_value (pData b))). destruct s as [t m w]. simpl in *.
    exists (HState t (<[a := set_pData (data_set v' (pData b)) b]> m) w). split; [|split; [done|]].
    + unfold assign. simpl. rewrite Hb. unfold upd_heap. simpl.
      by rewrite (alter_insert _ _ _ _ Hb).
    + constructor; simpl; try done.
      * exists l. pose proof (set_data_spec t m w w l _ _ _ _ _ _ _ _ _ (data_set v' (pData b)) Hr F) as R.
        by rewrite data_value_set in R.
      * eapply next_above_mono; [exact Ha|]. intros i. by rewrite kv_update_elem.
  - apply kv_lookup_None in Hres. by rewrite Hres.
Qed.
Lemma index_find_run dtor s d hv :
  refines dtor s d -> found_at dtor s d (KInt hv) (zend_hash_index_find hv s).
Proof. intros HR. by apply (find_run dtor s d (KInt hv)); [|intros b _; apply is_index_spec]. Qed.
Lemma quick_find_run dtor s d key :
  refines dtor s d -> key <> [] ->
  found_at dtor s d (KStr key) (zend_hash_quick_find key (zend_inline_hash_func key) s).
Proof.
  intros HR Hk. unfold zend_hash_quick_find. rewrite (proj2 (Z.eqb_neq _ _)); [|destruct key; [done|simpl; lia]].
  apply (find_run dtor s d (KStr key)); [done|]. intros b Hb. by apply is_key_spec.
Qed.

(** Storing, under a string key and as a symbol table does. *)
Lemma dict_store_set dtor k v d :
  entries (dict_store dtor k v false d).2 = kv_set k v (entries d) /\
  (dict_store dtor k v false d).1 = (SUCCESS, None).
Proof. unfold dict_store, kv_set. by destruct (kv_lookup k (entries d)). Qed.
Lemma symtable_update_run dtor s d key v size :
  plentiful V -> refines dtor s d -> last key = Some NUL ->
  exists p s', zend_symtable_update key v size s = Ok ((SUCCESS, p), s') /\
    refines dtor s' (dict_store dtor (sym_key key) v false d).2.
Proof.
  intros Hp HR Hk. destruct (call_refines dtor size s d (SymUpdate key v) Hp HR Hk) as (s' & Hs & HR').
  cbn [run_call dict_step] in Hs, HR'. destruct (dict_store_set dtor (sym_key key) v d) as [_ E].
  rewrite E in Hs. destruct (status_inv _ _ _ _ _ Hs) as [p Hc]. by exists p, s'.
Qed.
Lemma quick_update_run dtor s d key v size :
  plentiful V -> refines dtor s d -> key <> [] ->
  exists p s', zend_hash_quick_update key (zend_inline_hash_func key) v size s = Ok ((SUCCESS, p), s') /\
    refines dtor s' (dict_store dtor (KStr key) v false d).2.
Proof.
  intros Hp HR Hk. destruct (call_refines dtor size s d (Update key v) Hp HR Hk) as (s' & Hs & HR').
  cbn [run_call dict_step] in Hs, HR'. destruct (dict_store_set dtor (KStr key) v d) as [_ E].
  rewrite E in Hs. destruct (status_inv _ _ _ _ _ Hs) as [p Hc]. exists p, s'. split; [|done]. rewrite <- Hc.
  unfold zend_hash_quick_update, zend_hash_quick_add_or_update, zend_hash_update, zend_hash_add_or_update.
  destruct key; [done|]. rewrite (proj2 (Z.eqb_neq _ _)), (proj2 (Z.leb_gt _ _)) by (simpl; lia). done.
Qed.

Lemma refines_from dtor s w n :
  0 <= n <= LONG_MAX -> repr s [] [] -> env s = w -> pDestructor (ht s) = dtor ->
  refines dtor (upd_ht (set_nNextFreeElement n) s) (Dict [] n w).
Proof.
  intros Hn Hr Hw Hd. destruct s as [t m w']. simpl in *. constructor; simpl; try done.
  - exists []. destruct Hr. by constructor.
  - split; [done|]. intros i Hi. simpl in Hi. set_solver.
Qed.

(** A table stands for one dictionary only. *)
Lemma order_fun {L : links (Bucket V)} m l : forall p p' l', seg L m p l None -> seg L m p' l' None ->
  head_ptr l None = head_ptr l' None -> l = l'.
Proof.
  induction l as [|a l IH]; intros p p' [|a' l'] H1 H2 Hh; try done. injection Hh as <-.
  destruct H1 as (b & Hb & _ & Hn & H1), H2 as (b' & Hb' & _ & Hn' & H2). simplify_eq. f_equal.
  eapply IH; [exact H1|exact H2|congruence].
Qed.
Lemma refines_entries_fun dtor dtor' s d d' : refines dtor s d -> refines dtor' s d' -> entries d = entries d'.
Proof.
  intros HR HR'. destruct (rf_repr _ _ _ HR) as [l Hl], (rf_repr _ _ _ HR') as [l' Hl'].
  assert (l = l') as <-.
  { eapply order_fun; [exact (r_order _ _ _ _ Hl)|exact (r_order _ _ _ _ Hl')|].
    rewrite <- (r_head _ _ _ _ Hl). apply (r_head _ _ _ _ Hl'). }
  pose proof (r_holds _ _ _ _ Hl) as H1. pose proof (r_holds _ _ _ _ Hl') as H2. clear -H1 H2. revert H2.
  generalize (entries d'). induction H1 as [|a kv l kvs (b & Hb & _ & <-) _ IH]; intros kvs' H2; inversion H2; subst; [done|].
  match goal with H : holds _ _ _ |- _ => destruct H as (b' & Hb' & _ & <-) end. simplify_eq. f_equal. by apply IH.
Qed.
End Client.
