(* ===== verification/ZendQsort.v ===== *)
(** * Zend/zend_qsort.c: the hybrid quicksort of the engine

    [base] is the list of its [nmemb] elements and a [char *] into it is the
    index of the element it points to, [p += siz] being [p + 1].  The size
    [siz] matters to [offset], a [uint], which is computed in bytes.
    [begin_stack] and [end_stack] are the list of the pairs below [loop]: a
    write at an index that is not below [QSORT_STACK_SIZE] is a fault. *)

From S2P Require Import Prelude.
Open Scope Z_scope.

Definition QSORT_STACK_SIZE : Z := 64.

Section Qsort.
Context {A : Type} (compare : A -> A -> Z) (siz : Z).
Implicit Types (arr : list A) (frames : list (Z * Z)).

Definition elem (arr : list A) (i : Z) : res A :=
  if i <? 0 then Err OutOfBounds
  else match arr !! Z.to_nat i with Some x => Ok x | None => Err OutOfBounds end.

(** [_zend_qsort_swap] of the [siz] bytes at [a] and at [b]. *)
Definition zend_qsort_swap (a b : Z) (arr : list A) : res (list A) :=
  x ← elem arr a;
  y ← elem arr b;
  Ok (<[Z.to_nat a := y]> (<[Z.to_nat b := x]> arr)).

(** [for (; seg1 < seg2 && compare(begin, seg1) > 0; seg1 += siz);] *)
Fixpoint scan_up (fuel : nat) (begin_ seg1 seg2 : Z) (arr : list A) : res Z :=
  match fuel with
  | O => Err OutOfFuel
  | S fuel' =>
      if seg1 <? seg2 then
        x ← elem arr begin_;
        y ← elem arr seg1;
        if 0 <? compare x y then scan_up fuel' begin_ (seg1 + 1) seg2 arr else Ok seg1
      else Ok seg1
  end.

(** [for (; seg2 >= seg1 && compare(seg2, begin) > 0; seg2 -= siz);] *)
Fixpoint scan_down (fuel : nat) (begin_ seg1 seg2 : Z) (arr : list A) : res Z :=
  match fuel with
  | O => Err OutOfFuel
  | S fuel' =>
      if seg1 <=? seg2 then
        y ← elem arr seg2;
        x ← elem arr begin_;
        if 0 <? compare y x then scan_down fuel' begin_ seg1 (seg2 - 1) arr else Ok seg2
      else Ok seg2
  end.

(** [while (1) { ... }]: the array and [seg2] at the [break]. *)
Fixpoint partition_loop (fuel : nat) (begin_ seg1 seg2 : Z) (arr : list A) : res (list A * Z) :=
  match fuel with
  | O => Err OutOfFuel
  | S fuel' =>
      seg1 ← scan_up (S (length arr)) begin_ seg1 seg2 arr;
      seg2 ← scan_down (S (length arr)) begin_ seg1 seg2 arr;
      if seg2 <=? seg1 then Ok (arr, seg2)
      else
        arr ← zend_qsort_swap seg1 seg2 arr;
        partition_loop fuel' begin_ (seg1 + 1) (seg2 - 1) arr
  end.

(** From [offset] to the swap that puts the pivot in its place. *)
Definition partition (begin_ end_ : Z) (arr : list A) : res (list A * Z) :=
  let offset := u32 (Z.shiftr ((end_ - begin_) * siz) 1) in
  arr ← zend_qsort_swap begin_ (begin_ + (offset - offset %c siz) /c siz) arr;
  '(arr, seg2) ← partition_loop (S (length arr)) begin_ (begin_ + 1) end_ arr;
  arr ← zend_qsort_swap begin_ seg2 arr;
  Ok (arr, seg2).

(** [begin_stack[loop] = b; end_stack[loop++] = e;] *)
Definition push (b e : Z) (frames : list (Z * Z)) : res (list (Z * Z)) :=
  if Z.of_nat (length frames) <? QSORT_STACK_SIZE then Ok ((b, e) :: frames)
  else Err OutOfBounds.

Fixpoint sort_loop (fuel : nat) (frames : list (Z * Z)) (begin_ end_ : Z) (arr : list A)
    : res (list A) :=
  match fuel with
  | O => Err OutOfFuel
  | S fuel' =>
      if begin_ <? end_ then
        '(arr, seg2p) ← partition begin_ end_ arr;
        if seg2p - begin_ <=? end_ - seg2p then
          frames ← (if seg2p + 1 <? end_ then push (seg2p + 1) end_ frames else Ok frames);
          sort_loop fuel' frames begin_ (seg2p - 1) arr
        else
          frames ← (if begin_ <? seg2p - 1 then push begin_ (seg2p - 1) frames else Ok frames);
          sort_loop fuel' frames (seg2p + 1) end_ arr
      else
        match frames with
        | [] => Ok arr
        | (b, e) :: frames' => sort_loop fuel' frames' b e arr
        end
  end.

Definition zend_qsort (base : list A) : res (list A) :=
  let nmemb := Z.of_nat (length base) in
  sort_loop (2 * length base + 2) [] 0 (nmemb - 1) base.
End Qsort.

Example sort_small :
  zend_qsort (fun x y => x - y) 8 [5; 3; 9; 1; 5; 2; 8; -4; 7; 0]
  = Ok [-4; 0; 1; 2; 3; 5; 5; 7; 8; 9].
Proof. reflexivity. Qed.
