(* ===== verification/ZendQsortSpec.v ===== *)
(** * The quicksort of zend_qsort.c sorts

    [zend_qsort] returns, on every array and for every comparison function
    that orders totally: the fuel is enough, no access is out of bounds,
    the stack of 64 pending segments does not overflow, and the result is
    the sorted permutation of the input. *)

From S2P Require Import Prelude ZendQsort.
From Stdlib Require Import Sorted.
Open Scope Z_scope.

Section Spec.
Context {A : Type} (compare : A -> A -> Z) `{!Comparison compare} (siz : Z) (Hsiz : 0 < siz).
Implicit Types (arr : list A) (frames : list (Z * Z)).

Definition get (k : Z) arr : option A := arr !! Z.to_nat k.

Lemma elem_ok arr i : 0 <= i < Z.of_nat (length arr) ->
  exists x, elem arr i = Ok x /\ get i arr = Some x.
Proof.
  intros Hi. unfold elem, get. rewrite (proj2 (Z.ltb_ge _ _)) by lia.
  destruct (lookup_lt_is_Some_2 arr (Z.to_nat i)) as [x Hx]; [lia|].
  exists x. by rewrite Hx.
Qed.
Lemma elem_get arr i x : 0 <= i -> get i arr = Some x -> elem arr i = Ok x.
Proof.
  intros Hi Hx. unfold elem, get in *. rewrite (proj2 (Z.ltb_ge _ _)) by lia. by rewrite Hx.
Qed.
Lemma get_Some arr k x : 0 <= k -> get k arr = Some x -> k < Z.of_nat (length arr).
Proof. intros Hk Hx. apply lookup_lt_Some in Hx. lia. Qed.

(** [arr'] is [arr] with the elements of the segment [b..e] rearranged. *)
Record within (b e : Z) arr arr' : Prop := {
  w_perm : arr ≡ₚ arr';
  w_out : forall k, 0 <= k -> k < b \/ e < k -> get k arr' = get k arr;
  w_in : forall k, b <= k <= e -> exists k', b <= k' <= e /\ get k arr' = get k' arr
}.

Lemma within_refl b e arr : within b e arr arr.
Proof. split; [done|done|]. intros k Hk. by exists k. Qed.
Lemma within_trans b e arr1 arr2 arr3 :
  within b e arr1 arr2 -> within b e arr2 arr3 -> within b e arr1 arr3.
Proof.
  intros [P1 O1 I1] [P2 O2 I2]. split.
  - by etrans.
  - intros k Hk Ho. by rewrite O2, O1.
  - intros k Hk. destruct (I2 k Hk) as (k2 & Hk2 & ->). by apply I1.
Qed.
Lemma within_mono b e b' e' arr arr' :
  0 <= b -> b <= b' -> e' <= e -> within b' e' arr arr' -> within b e arr arr'.
Proof.
  intros H0 Hb He [P O I]. split; [done| |].
  - intros k Hk Ho. apply O; lia.
  - intros k Hk. destruct (decide (b' <= k <= e')) as [Hin|Hout].
    + destruct (I k Hin) as (k' & ? & ?). exists k'. split; [lia|done].
    + exists k. split; [done|]. apply O; lia.
Qed.
Lemma within_length b e arr arr' : within b e arr arr' -> length arr' = length arr.
Proof. intros [P _ _]. by rewrite P. Qed.

Lemma swap_spec b e i j arr :
  0 <= b -> b <= i <= e -> b <= j <= e -> e < Z.of_nat (length arr) ->
  exists arr', zend_qsort_swap i j arr = Ok arr' /\ within b e arr arr' /\
    get i arr' = get j arr /\ get j arr' = get i arr /\
    (forall k, 0 <= k -> k <> i -> k <> j -> get k arr' = get k arr).
Proof.
  intros Hb Hi Hj He. unfold zend_qsort_swap.
  destruct (elem_ok arr i) as (x & Hx & Hgx); [lia|].
  destruct (elem_ok arr j) as (y & Hy & Hgy); [lia|].
  rewrite (res_bind_ok _ _ _ Hx), (res_bind_ok _ _ _ Hy). eexists. split; [done|].
  set (arr' := <[_:=_]> _).
  assert (Hi' : get i arr' = get j arr).
  { unfold get, arr'. rewrite list_lookup_insert_eq by (rewrite length_insert; lia). done. }
  assert (Hj' : get j arr' = get i arr).
  { destruct (decide (i = j)) as [->|Hne]; [done|]. unfold get, arr'.
    rewrite list_lookup_insert_ne by lia. rewrite list_lookup_insert_eq by lia. done. }
  assert (Hk' : forall k, 0 <= k -> k <> i -> k <> j -> get k arr' = get k arr).
  { intros k Hk Hki Hkj. unfold get, arr'. by rewrite !list_lookup_insert_ne by lia. }
  split_and!; [|done..]. split.
  - symmetry. by apply Permutation_insert_swap.
  - intros k Hk Ho. apply Hk'; lia.
  - intros k Hk. destruct (decide (k = i)) as [->|]; [by exists j|].
    destruct (decide (k = j)) as [->|]; [by exists i|]. exists k. split; [done|]. apply Hk'; lia.
Qed.

(** ** Partitioning *)

(** All elements at the positions from [lo] to [hi - 1]. *)
Definition on (lo hi : Z) (P : A -> Prop) arr : Prop :=
  forall k y, lo <= k < hi -> get k arr = Some y -> P y.

Lemma on_within lo hi b e P arr arr' :
  0 <= lo -> hi <= b \/ e < lo -> within b e arr arr' -> on lo hi P arr -> on lo hi P arr'.
Proof.
  intros H0 Hd [_ O _] Ho k y Hk Hy. apply (Ho k y Hk). rewrite <- O; [done|lia|lia].
Qed.
Lemma on_snoc lo hi P arr x : lo <= hi -> get hi arr = Some x -> P x -> on lo hi P arr ->
  on lo (hi + 1) P arr.
Proof.
  intros Hle Hx HP Ho k y Hk Hy. destruct (decide (k = hi)) as [->|]; [congruence|].
  apply (Ho k); [lia|done].
Qed.
Lemma on_cons lo hi P arr x : get lo arr = Some x -> P x -> on (lo + 1) hi P arr -> on lo hi P arr.
Proof.
  intros Hx HP Ho k y Hk Hy. destruct (decide (k = lo)) as [->|]; [congruence|].
  apply (Ho k); [lia|done].
Qed.

Lemma scan_up_spec x begin_ seg2 arr : forall fuel seg1,
  0 <= begin_ -> get begin_ arr = Some x -> begin_ < seg1 ->
  seg2 < Z.of_nat (length arr) -> Z.max 0 (seg2 - seg1) < Z.of_nat fuel ->
  on (begin_ + 1) seg1 (fun y => compare y x <= 0) arr ->
  exists r, scan_up compare fuel begin_ seg1 seg2 arr = Ok r /\ seg1 <= r /\
    (r <= seg2 \/ r = seg1) /\ on (begin_ + 1) r (fun y => compare y x <= 0) arr /\
    (r < seg2 -> exists y, get r arr = Some y /\ compare x y <= 0).
Proof.
  induction fuel as [|fuel IH]; intros seg1 Hb Hx Hs1 Hs2 Hf Ho.
  { lia. }
  cbn [scan_up]. destruct (Z.ltb_spec seg1 seg2) as [Hlt|Hge].
  - destruct (elem_ok arr seg1) as (y & Hy & Hgy); [lia|].
    rewrite (res_bind_ok _ _ _ (elem_get _ _ _ Hb Hx)), (res_bind_ok _ _ _ Hy).
    destruct (Z.ltb_spec 0 (compare x y)) as [Hgt|Hle].
    + destruct (IH (seg1 + 1)) as (r & Hrun & H1 & H2 & H3 & H4); try lia; [done| |].
      { eapply on_snoc; [lia|done| |done]. apply cmp_opposite in Hgt. lia. }
      exists r. split; [done|]. split_and!; [lia|lia|done|done].
    + exists seg1. split; [done|]. split_and!; [lia|by right|done|eauto].
  - exists seg1. split; [done|]. split_and!; [lia|by right|done|lia].
Qed.

Lemma scan_down_spec x begin_ end_ seg1 arr : forall fuel seg2,
  0 <= begin_ -> get begin_ arr = Some x -> begin_ < seg1 -> seg1 <= seg2 + 1 -> seg2 <= end_ ->
  end_ < Z.of_nat (length arr) -> seg2 - seg1 + 1 < Z.of_nat fuel ->
  on (seg2 + 1) (end_ + 1) (fun y => compare x y <= 0) arr ->
  exists r, scan_down compare fuel begin_ seg1 seg2 arr = Ok r /\ seg1 <= r + 1 /\ r <= seg2 /\
    on (r + 1) (end_ + 1) (fun y => compare x y <= 0) arr /\
    (seg1 <= r -> exists y, get r arr = Some y /\ compare y x <= 0).
Proof.
  induction fuel as [|fuel IH]; intros seg2 Hb Hx Hs1 Hs2 He Hl Hf Ho; [lia|].
  cbn [scan_down]. destruct (Z.leb_spec seg1 seg2) as [Hle|Hgt].
  - destruct (elem_ok arr seg2) as (y & Hy & Hgy); [lia|].
    rewrite (res_bind_ok _ _ _ Hy), (res_bind_ok _ _ _ (elem_get _ _ _ Hb Hx)).
    destruct (Z.ltb_spec 0 (compare y x)) as [Hgt|Hle'].
    + destruct (IH (seg2 - 1)) as (r & Hrun & H1 & H2 & H3 & H4); try lia; [done| |].
      { replace (seg2 - 1 + 1) with seg2 by lia. eapply on_cons; [done| |done].
        apply cmp_opposite in Hgt. lia. }
      exists r. split; [done|]. split_and!; [lia|lia|done|done].
    + exists seg2. split; [done|]. split_and!; [lia|lia|done|eauto].
  - exists seg2. split; [done|]. split_and!; [lia|lia|done|lia].
Qed.

Lemma partition_loop_spec x begin_ end_ : forall fuel seg1 seg2 arr,
  0 <= begin_ -> get begin_ arr = Some x -> begin_ < seg1 -> seg1 <= seg2 + 1 -> seg2 <= end_ ->
  end_ < Z.of_nat (length arr) -> Z.max 0 (seg2 - seg1) < Z.of_nat fuel ->
  on (begin_ + 1) seg1 (fun y => compare y x <= 0) arr ->
  on (seg2 + 1) (end_ + 1) (fun y => compare x y <= 0) arr ->
  exists arr' p, partition_loop compare fuel begin_ seg1 seg2 arr = Ok (arr', p) /\
    within (begin_ + 1) end_ arr arr' /\ begin_ <= p <= end_ /\
    on (begin_ + 1) (p + 1) (fun y => compare y x <= 0) arr' /\
    on (p + 1) (end_ + 1) (fun y => compare x y <= 0) arr'.
Proof.
  induction fuel as [|fuel IH]; intros seg1 seg2 arr Hb Hx Hs1 Hs2 He Hl Hf Hlo Hhi; [lia|].
  cbn [partition_loop].
  destruct (scan_up_spec x begin_ seg2 arr (S (length arr)) seg1)
    as (r1 & Hrun1 & Hr1 & Hr1' & Hlo1 & Hge); try done; [lia..|].
  rewrite (res_bind_ok _ _ _ Hrun1).
  destruct (scan_down_spec x begin_ end_ r1 arr (S (length arr)) seg2)
    as (r2 & Hrun2 & Hr2 & Hr2' & Hhi2 & Hle); try done; [lia..|].
  rewrite (res_bind_ok _ _ _ Hrun2).
  destruct (Z.leb_spec r2 r1) as [Hstop|Hgo].
  - exists arr, r2. split; [done|]. split_and!; [apply within_refl|lia|lia| |done].
    assert (r2 = r1 \/ r2 = r1 - 1) as [-> | ->] by lia.
    + destruct (Hle ltac:(lia)) as (y & Hy & Hyx). eapply on_snoc; [lia|done|done|done].
    + by replace (r1 - 1 + 1) with r1 by lia.
  - destruct (Hge ltac:(lia)) as (y1 & Hy1 & Hxy1). destruct (Hle ltac:(lia)) as (y2 & Hy2 & Hxy2).
    destruct (swap_spec (begin_ + 1) end_ r1 r2 arr)
      as (arr1 & Hsw & Hw & Hg1 & Hg2 & Hgk); [lia..|].
    rewrite (res_bind_ok _ _ _ Hsw). pose proof (within_length _ _ _ _ Hw) as Hlen.
    destruct (IH (r1 + 1) (r2 - 1) arr1) as (arr' & p & Hrun & Hw' & Hp & Hlo' & Hhi'); try lia.
    + rewrite (w_out _ _ _ _ Hw); [done|lia|lia].
    + eapply on_snoc; [lia|by rewrite Hg1|done|].
      intros k y Hk Hy. apply (Hlo1 k y Hk). rewrite <- Hgk; [done|lia..].
    + replace (r2 - 1 + 1) with r2 by lia. eapply on_cons; [by rewrite Hg2|done|].
      intros k y Hk Hy. apply (Hhi2 k y Hk). rewrite <- Hgk; [done|lia..].
    + exists arr', p. split; [done|]. split_and!; [by eapply within_trans|lia|lia|done|done].
Qed.

(** The index [offset] leads to. *)
Lemma offset_range n : 0 <= n ->
  let offset := u32 (Z.shiftr (n * siz) 1) in
  0 <= (offset - offset %c siz) /c siz <= n.
Proof.
  intros Hn offset. assert (0 <= offset <= n * siz) as [H0 H1].
  { unfold offset, u32. rewrite Z.shiftr_div_pow2 by lia. change (2 ^ 1) with 2.
    assert (0 <= n * siz) by nia. assert (0 <= n * siz / 2 <= n * siz) as Hd.
    { split; [apply Z.div_pos; lia|]. apply Z.div_le_upper_bound; lia. }
    pose proof (Z.mod_pos_bound (n * siz / 2) (2 ^ 32) ltac:(lia)).
    pose proof (Z.mod_le (n * siz / 2) (2 ^ 32) ltac:(lia) ltac:(lia)). lia. }
  clearbody offset. rewrite Z.rem_mod_nonneg by lia.
  replace (offset - offset mod siz) with (siz * (offset / siz)) by (pose proof (Z.div_mod offset siz); lia).
  rewrite Z.mul_comm, Z.quot_mul by lia. split; [apply Z.div_pos; lia|].
  apply Z.div_le_upper_bound; lia.
Qed.

Lemma partition_spec begin_ end_ arr :
  0 <= begin_ < end_ -> end_ < Z.of_nat (length arr) ->
  exists arr' p x, partition compare siz begin_ end_ arr = Ok (arr', p) /\
    within begin_ end_ arr arr' /\ begin_ <= p <= end_ /\ get p arr' = Some x /\
    on begin_ p (fun y => compare y x <= 0) arr' /\
    on (p + 1) (end_ + 1) (fun y => compare x y <= 0) arr'.
Proof.
  intros Hb He. unfold partition. cbv zeta.
  pose proof (offset_range (end_ - begin_) ltac:(lia)) as Hoff. cbv zeta in Hoff.
  set (mid := begin_ + _ /c siz).
  destruct (swap_spec begin_ end_ begin_ mid arr)
    as (arr1 & Hsw & Hw & _); [lia|lia|unfold mid; lia|lia|].
  rewrite (res_bind_ok _ _ _ Hsw). pose proof (within_length _ _ _ _ Hw) as Hlen.
  destruct (elem_ok arr1 begin_) as (x & _ & Hx); [lia|].
  destruct (partition_loop_spec x begin_ end_ (S (length arr1)) (begin_ + 1) end_ arr1)
    as (arr2 & p & Hrun & Hw2 & Hp & Hlo & Hhi); try done; try lia.
  { intros k y Hk. lia. } { intros k y Hk. lia. }
  rewrite (res_bind_ok _ _ _ Hrun). pose proof (within_length _ _ _ _ Hw2) as Hlen2.
  assert (Hx2 : get begin_ arr2 = Some x) by (rewrite (w_out _ _ _ _ Hw2); [done|lia|lia]).
  destruct (swap_spec begin_ end_ begin_ p arr2)
    as (arr3 & Hsw3 & Hw3 & Hg1 & Hg2 & Hgk); [lia..|].
  rewrite (res_bind_ok _ _ _ Hsw3). exists arr3, p, x. split; [done|]. split_and!; try lia.
  - eapply within_trans; [exact Hw|]. eapply within_trans; [|exact Hw3].
    eapply within_mono; [..|exact Hw2]; lia.
  - by rewrite Hg2.
  - intros k y Hk Hy. destruct (decide (k = begin_)) as [->|Hkb].
    + rewrite Hg1 in Hy. apply (Hlo p); [lia|done].
    + rewrite Hgk in Hy by lia. apply (Hlo k); [lia|done].
  - intros k y Hk Hy. rewrite Hgk in Hy by lia. by apply (Hhi k).
Qed.

(** ** The loop over pending segments *)

(** Every pair out of order lies within one pending segment. *)
Definition unsorted_in arr (segs : list (Z * Z)) : Prop :=
  forall i j x y, 0 <= i < j -> get i arr = Some x -> get j arr = Some y ->
    compare x y <= 0 \/ exists f, f ∈ segs /\ f.1 <= i /\ j <= f.2.

Definition apart (f g : Z * Z) : Prop := f.2 < g.1 \/ g.2 < f.1.

(** The pending segments are within the array and apart, and halving leaves
    room for them on the stack: [n] is the length of the array. *)
Fixpoint frames_ok (n : Z) frames : Prop :=
  match frames with
  | [] => True
  | f :: frames' =>
      0 <= f.1 <= f.2 + 1 /\ f.2 < n /\ Forall (apart f) frames' /\
      (f.2 - f.1 + 1) * 2 ^ Z.of_nat (length frames') <= n /\ frames_ok n frames'
  end.

Definition weight (f : Z * Z) : Z := 2 * Z.max 0 (f.2 - f.1 + 1).
Fixpoint weights frames : Z :=
  match frames with [] => 0 | f :: frames' => weight f + 1 + weights frames' end.
Lemma weights_nonneg frames : 0 <= weights frames.
Proof. induction frames; simpl; unfold weight; lia. Qed.

Lemma apart_sub b e b' e' frames :
  b <= b' -> e' <= e -> Forall (apart (b, e)) frames -> Forall (apart (b', e')) frames.
Proof. intros Hb He Hap. eapply Forall_impl; [exact Hap|]. intros f. unfold apart. simpl. lia. Qed.

(** Partitioning the current segment leaves the order of the rest alone. *)
Lemma unsorted_partition arr arr' b e frames p x :
  0 <= b -> unsorted_in arr ((b, e) :: frames) -> Forall (apart (b, e)) frames ->
  within b e arr arr' -> b <= p <= e -> get p arr' = Some x ->
  on b p (fun y => compare y x <= 0) arr' ->
  on (p + 1) (e + 1) (fun y => compare x y <= 0) arr' ->
  unsorted_in arr' ((b, p - 1) :: (p + 1, e) :: frames).
Proof.
  intros Hb Hu Hap Hw Hp Hx Hlo Hhi i j y z Hij Hy Hz.
  assert (Hnot : forall f k, f ∈ frames -> f.1 <= k <= f.2 -> ~ (b <= k <= e)).
  { intros f k Hf Hk. rewrite Forall_forall in Hap. specialize (Hap f Hf). unfold apart in Hap.
    simpl in Hap. lia. }
  destruct (decide (b <= i <= e)) as [Hi|Hi], (decide (b <= j <= e)) as [Hj|Hj].
  - (* both in the segment *)
    destruct (decide (j < p)); [right; exists (b, p - 1); simpl; split; [left|lia]|].
    destruct (decide (p < i)); [right; exists (p + 1, e); simpl; split; [right; left|lia]|].
    left. destruct (decide (i = p)) as [->|].
    + simplify_eq. apply (Hhi j); [lia|done].
    + assert (compare y x <= 0) by (apply (Hlo i); [lia|done]).
      destruct (decide (j = p)) as [->|]; [by simplify_eq|].
      eapply cmp_trans; [done|]. apply (Hhi j); [lia|done].
  - destruct (w_in _ _ _ _ Hw i Hi) as (i' & Hi' & Hgi). rewrite Hgi in Hy.
    rewrite (w_out _ _ _ _ Hw) in Hz by lia.
    destruct (Hu i' j y z ltac:(lia) Hy Hz) as [?|(f & Hf & H1 & H2)]; [by left|].
    apply elem_of_cons in Hf as [->|Hf]; simpl in *; [lia|].
    exfalso. apply (Hnot f i' Hf); lia.
  - destruct (w_in _ _ _ _ Hw j Hj) as (j' & Hj' & Hgj). rewrite Hgj in Hz.
    rewrite (w_out _ _ _ _ Hw) in Hy by lia.
    destruct (Hu i j' y z ltac:(lia) Hy Hz) as [?|(f & Hf & H1 & H2)]; [by left|].
    apply elem_of_cons in Hf as [->|Hf]; simpl in *; [lia|].
    exfalso. apply (Hnot f j' Hf); lia.
  - rewrite (w_out _ _ _ _ Hw) in Hy, Hz by lia.
    destruct (Hu i j y z Hij Hy Hz) as [?|(f & Hf & H1 & H2)]; [by left|].
    apply elem_of_cons in Hf as [->|Hf]; simpl in *; [lia|].
    right. exists f. split; [|done]. by do 2 right.
Qed.

(** Segments of less than two elements can be dropped. *)
Lemma unsorted_drop arr b e segs1 segs2 :
  e <= b -> unsorted_in arr (segs1 ++ (b, e) :: segs2) -> unsorted_in arr (segs1 ++ segs2).
Proof.
  intros He Hu i j x y Hij Hx Hy. destruct (Hu i j x y Hij Hx Hy) as [?|(f & Hf & H1 & H2)]; [by left|].
  right. exists f. split; [|done]. apply elem_of_app in Hf as [Hf|[->|Hf]%elem_of_cons];
    simpl in *; [set_solver|lia|set_solver].
Qed.
Lemma unsorted_swap arr f g segs : unsorted_in arr (f :: g :: segs) -> unsorted_in arr (g :: f :: segs).
Proof.
  intros Hu i j x y Hij Hx Hy. destruct (Hu i j x y Hij Hx Hy) as [?|(q & Hq & ?)]; [by left|].
  right. exists q. split; [set_solver|done].
Qed.

Lemma segments_push_spec n b e frames :
  n < 2 ^ 64 -> 2 * 2 ^ Z.of_nat (length frames) <= n ->
  push b e frames = Ok ((b, e) :: frames).
Proof.
  intros Hn Hle. unfold push, QSORT_STACK_SIZE. rewrite (proj2 (Z.ltb_lt _ _)); [done|].
  apply (Z.pow_lt_mono_r_iff 2); lia.
Qed.

(** One turn: the other half is pushed when it has two elements or more. *)
Lemma push_half n b e frames (c : bool) :
  n < 2 ^ 64 -> 0 <= b <= e + 1 -> e < n -> (c = false -> e <= b) ->
  Forall (apart (b, e)) frames -> frames_ok n frames ->
  2 * 2 ^ Z.of_nat (length frames) <= n ->
  (e - b + 1) * 2 ^ Z.of_nat (length frames) <= n ->
  (if c then push b e frames else Ok frames) = Ok (if c then (b, e) :: frames else frames) /\
  frames_ok n (if c then (b, e) :: frames else frames) /\
  weights (if c then (b, e) :: frames else frames) <= weight (b, e) + 1 + weights frames.
Proof.
  intros Hn Hb He Hc Hap Hok Hroom Hsz. destruct c.
  - rewrite (segments_push_spec n) by done. split; [done|]. simpl. split_and!; try done; lia.
  - split; [done|]. split; [done|]. unfold weight. lia.
Qed.

Lemma sort_loop_spec n : n < 2 ^ 64 -> forall fuel frames b e arr,
  Z.of_nat (length arr) = n -> frames_ok n ((b, e) :: frames) ->
  unsorted_in arr ((b, e) :: frames) ->
  weight (b, e) + weights frames < Z.of_nat fuel ->
  exists arr', sort_loop compare siz fuel frames b e arr = Ok arr' /\
    arr ≡ₚ arr' /\ unsorted_in arr' [].
Proof.
  intros Hn. induction fuel as [|fuel IH]; intros frames b e arr Hlen Hok Hu Hf.
  { pose proof (weights_nonneg frames). unfold weight in Hf. lia. }
  cbn [sort_loop]. pose proof Hok as (Hb & He & Hap & Hsz & Hfr). simpl in Hb, He, Hsz.
  destruct (Z.ltb_spec b e) as [Hlt|Hge].
  - destruct (partition_spec b e arr) as (arr1 & p & x & Hrun & Hw & Hp & Hx & Hlo & Hhi); [lia|lia|].
    rewrite (res_bind_ok _ _ _ Hrun).
    pose proof (unsorted_partition _ _ _ _ _ _ _ (proj1 Hb) Hu Hap Hw Hp Hx Hlo Hhi) as Hu1.
    pose proof (within_length _ _ _ _ Hw) as Hlen1.
    assert (Hpow : 0 < 2 ^ Z.of_nat (length frames)) by lia.
    destruct (Z.leb_spec (p - b) (e - p)) as [Hsmall|Hsmall].
    + destruct (push_half n (p + 1) e frames (p + 1 <? e)) as (-> & Hok1 & Hwt);
        [done|lia|lia|rewrite Z.ltb_ge; lia|eapply apart_sub; [..|exact Hap]; lia|done|nia|nia|].
      cbn [mbind res_bind].
      destruct (IH (if p + 1 <? e then (p + 1, e) :: frames else frames) b (p - 1) arr1)
        as (arr' & Hr & Hpm & Hu'); try lia.
      * simpl. split_and!; [lia|lia|lia| | |done].
        -- assert (Forall (apart (b, p - 1)) frames) by (eapply apart_sub; [..|exact Hap]; lia).
           case_match; [constructor; [unfold apart; simpl; lia|done]|done].
        -- case_match; simpl length; [|nia]. rewrite Nat2Z.inj_succ, Z.pow_succ_r by lia. nia.
      * case_match eqn:Hc; [done|]. apply Z.ltb_ge in Hc.
        apply (unsorted_drop arr1 (p + 1) e [(b, p - 1)]); [lia|done].
      * unfold weight in *. simpl in *. lia.
      * exists arr'. split; [done|]. split; [|done]. etrans; [apply Hw|done].
    + destruct (push_half n b (p - 1) frames (b <? p - 1)) as (-> & Hok1 & Hwt);
        [done|lia|lia|rewrite Z.ltb_ge; lia|eapply apart_sub; [..|exact Hap]; lia|done|nia|nia|].
      cbn [mbind res_bind].
      destruct (IH (if b <? p - 1 then (b, p - 1) :: frames else frames) (p + 1) e arr1)
        as (arr' & Hr & Hpm & Hu'); try lia.
      * simpl. split_and!; [lia|lia|lia| | |done].
        -- assert (Forall (apart (p + 1, e)) frames) by (eapply apart_sub; [..|exact Hap]; lia).
           case_match; [constructor; [unfold apart; simpl; lia|done]|done].
        -- case_match; simpl length; [|nia]. rewrite Nat2Z.inj_succ, Z.pow_succ_r by lia. nia.
      * apply unsorted_swap in Hu1. case_match eqn:Hc; [done|]. apply Z.ltb_ge in Hc.
        apply (unsorted_drop arr1 b (p - 1) [(p + 1, e)]); [lia|done].
      * unfold weight in *. simpl in *. lia.
      * exists arr'. split; [done|]. split; [|done]. etrans; [apply Hw|done].
  - apply (unsorted_drop arr b e []) in Hu; [|lia]. simpl in Hu.
    destruct frames as [|[b' e'] frames]; [by exists arr|].
    destruct (IH frames b' e' arr) as (arr' & Hr & Hpm & Hu'); try done.
    + unfold weight in *. simpl in *. unfold weight in *. simpl in *. lia.
    + by exists arr'.
Qed.

Lemma unsorted_in_nil arr : unsorted_in arr [] -> StronglySorted (fun x y => compare x y <= 0) arr.
Proof.
  induction arr as [|x arr IH]; intros Hu; constructor.
  - apply IH. intros i j y z Hij Hy Hz.
    destruct (Hu (i + 1) (j + 1) y z) as [?|(f & Hf & _)]; [lia| | |by left|by apply elem_of_nil in Hf];
      unfold get in *; by rewrite Z2Nat.inj_add, Nat.add_1_r by lia.
  - apply Stdlib.Lists.List.Forall_forall. intros y Hy.
    apply list_elem_of_In, list_elem_of_lookup in Hy as [j Hy].
    assert (0 <= 0 < Z.of_nat (S j)) as Hj by lia.
    assert (get (Z.of_nat (S j)) (x :: arr) = Some y) as Hg by (unfold get; by rewrite Nat2Z.id).
    destruct (Hu 0 (Z.of_nat (S j)) x y Hj eq_refl Hg) as [?|(f & Hf & _)]; [done|].
    by apply elem_of_nil in Hf.
Qed.

Lemma qsort_spec base :
  Z.of_nat (length base) < 2 ^ 64 ->
  exists arr, zend_qsort compare siz base = Ok arr /\ base ≡ₚ arr /\
    StronglySorted (fun x y => compare x y <= 0) arr.
Proof.
  intros Hn. unfold zend_qsort. cbv zeta.
  destruct (sort_loop_spec (Z.of_nat (length base)) Hn (2 * length base + 2) [] 0
    (Z.of_nat (length base) - 1) base) as (arr & Hr & Hp & Hu); [done| | | |].
  - simpl. split_and!; try lia; done.
  - intros i j x y Hij Hx Hy. right. exists (0, Z.of_nat (length base) - 1).
    apply get_Some in Hy; [|lia]. simpl. split; [left|lia].
  - unfold weight. simpl. lia.
  - exists arr. split_and!; [done|done|]. by apply unsorted_in_nil.
Qed.
End Spec.
