(* ===== verification/ZendHashThms.v ===== *)
(** * Theorems about the hash table

    The statements of the library about Zend/zend_hash.c and zend_hash.h,
    each with a concrete instance of its hypotheses. *)

From S2P Require Import Prelude Dll ZendHash ZendHashInv ZendHashSteps ZendHashOps ZendHashIter ZendHashBulk ZendHashOrder ZendHashCursor ZendHashNumeric ZendHashRefine ZendHashRekey ZendQsort ZendQsortSpec.
From Stdlib Require Import Sorted.
Open Scope Z_scope.

(** ** A sample table *)

Lemma bump_plentiful V : @plentiful V bump_allocator.
Proof. intros m size. done. Qed.

(** The destructor of the samples keeps a log of the values destroyed. *)
Definition log (v : Z) (w : list Z) : list Z := w ++ [v].
Definition sample_calls : list (call Z) :=
  [Update (bs "b") 20; IndexUpdate 7 30; Add (bs "a") 11; Update (bs "a") 10].
Definition sample_entries : list (hkey * Z) := [(KStr (bs "b"), 20); (KInt 7, 30); (KStr (bs "a"), 10)].
Definition sample : hstate Z (list Z) :=
  let s0 := (zend_hash_init 8 (Some log) false ∅ []).2 in
  match run_calls 16 sample_calls s0 with Ok (_, s) => s | Err _ => s0 end.

Lemma sample_refines : refines (Some log) sample (Dict sample_entries 8 [11]).
Proof.
  unfold sample. destruct (init_refines 8 (Some log) false ([] : list Z) ltac:(lia) (bump_plentiful Z))
    as (s0 & -> & HR). cbv zeta. cbn [snd].
  destruct (calls_refine (Some log) 16 sample_calls s0 _ (bump_plentiful Z) HR) as (s & -> & HR').
  { repeat constructor; simpl; try done; lia. }
  exact HR'.
Qed.
Lemma sample_repr : exists l, repr sample l sample_entries /\ length l = 3%nat.
Proof.
  destruct (rf_repr _ _ _ sample_refines) as [l Hl]. exists l. split; [done|].
  by rewrite (Forall2_length _ _ _ (r_holds _ _ _ _ Hl)).
Qed.
Lemma sample_config :
  pDestructor (ht sample) = Some log /\ bApplyProtection (ht sample) = true /\ nApplyCount (ht sample) = 0 /\
  nNextFreeElement (ht sample) = 8 /\ env sample = [11].
Proof. vm_compute. split_and!; reflexivity. Qed.
Lemma sample_quiet : count_ok (ht sample) /\ may_apply (ht sample).
Proof.
  destruct sample_config as (_ & _ & Hn & _). split; [|right]; unfold count_ok; rewrite Hn; lia.
Qed.
#[local] Opaque sample.

(** Evaluates what a statement says of the sample's fields. *)
Ltac sample_in H :=
  let Hd := fresh in let Hp := fresh in let Hn := fresh in let Hf := fresh in let He := fresh in
  destruct sample_config as (Hd & Hp & Hn & Hf & He);
  repeat first
    [ progress rewrite ?Hd, ?Hp, ?Hn, ?Hf, ?He in H
    | progress unfold dtor_all, dtor_env, replaced_env, ctor_value, merge_takes, store_index in H
    | progress simpl in H ].

(** ** The table as a whole *)


(** ** Sorting *)


#[local] Instance entry_comparison {V} (cmp : hkey * V -> hkey * V -> Z) `{!Comparison cmp} :
  Comparison (fun b1 b2 : Bucket V => cmp (entry b1) (entry b2)).
Proof. split; intros; [by apply cmp_opposite|by eapply cmp_trans]. Qed.

Definition by_value (x y : hkey * Z) : Z := x.2 - y.2.
#[local] Instance by_value_comparison : Comparison by_value.
Proof. split; unfold by_value; intros; lia. Qed.

(** ** Storing and deleting, with every outcome *)

(** C21: storing under a string key: an empty key is refused; [HASH_ADD] never
    replaces; replacing runs the destructor on the old value and keeps the
    place; a new entry goes to the end; a refused allocation leaves the table
    as it was.  Storing under an index, given or the next free one, does the
    same, and [nNextFreeElement] moves past the index, up to [LONG_MAX]. *)
Theorem store_outcome {V W : Type} `{Allocator} (s : hstate V W) l kvs
    (key : list byte) hv (v : V) nDataSize flag :
  repr s l kvs -> 0 <= store_index s hv flag < 2 ^ 64 ->
  (if decide (key = []) then zend_hash_add_or_update key v nDataSize flag s = Ok (FAILURE, None, s)
   else stored s l kvs (KStr key) v (has_flag flag HASH_ADD)
     (sizeof_Bucket - 1 + Z.of_nat (length key)) nDataSize id
     (zend_hash_add_or_update key v nDataSize flag s)) /\
  stored s l kvs (KInt (store_index s hv flag)) v
    (has_flag flag HASH_NEXT_INSERT || has_flag flag HASH_ADD)
    (sizeof_Bucket - 1) nDataSize (next_free (store_index s hv flag))
    (zend_hash_index_update_or_next_insert hv v nDataSize flag s).
Proof.
  intros R Hr. split; [|by apply index_update_or_next_insert_spec].
  case_decide as Hk; [by subst|]. unfold zend_hash_add_or_update.
  rewrite (proj2 (Z.leb_gt _ _)); [by apply add_or_update_key_spec|]. destruct key; [done|simpl; lia].
Qed.
Lemma store_outcome_witness :
  exists l, repr sample l sample_entries /\
    zend_hash_add_or_update (bs "a") 12 16 HASH_ADD sample = Ok (FAILURE, None, sample) /\
    stored sample l sample_entries (KInt 8) 1 true (sizeof_Bucket - 1) 16 (next_free 8)
      (zend_hash_next_index_insert 1 16 sample).
Proof.
  destruct sample_repr as (l & R & _). exists l. split; [exact R|].
  assert (Hi : store_index sample 0 HASH_NEXT_INSERT = 8) by (destruct sample_config as (_ & _ & _ & Hf & _); exact Hf).
  assert (Hr : 0 <= store_index sample 0 HASH_NEXT_INSERT < 2 ^ 64) by (rewrite Hi; lia).
  assert (Ha : 0 <= store_index sample 0 HASH_ADD < 2 ^ 64) by (unfold store_index; simpl; lia).
  split; [exact (proj1 (store_outcome sample l sample_entries (bs "a") 0 12 16 HASH_ADD R Ha))|].
  pose proof (proj2 (store_outcome sample l sample_entries [] 0 1 16 HASH_NEXT_INSERT R Hr)) as H.
  rewrite Hi in H. exact H.
Defined.

(** C22: deletion of a key that is there removes that entry and no other, runs
    the destructor on its value, and moves a cursor that stood on it to the
    entry after; a key that is not there is a failure without effect. *)
Theorem delete_outcome {V W : Type} `{Allocator} (s : hstate V W) l kvs (key : list byte) hv flag :
  repr s l kvs ->
  (flag <> HASH_DEL_KEY -> key <> [] -> hv = zend_inline_hash_func key) ->
  (flag = HASH_DEL_KEY -> key <> []) ->
  match kv_lookup (key_of key hv) kvs with
  | Some old =>
      exists a b s' l1 l2, zend_hash_del_key_or_index key hv flag s = Ok (SUCCESS, s') /\
        l = l1 ++ a :: l2 /\ repr s' (l1 ++ l2) (kv_delete (key_of key hv) kvs) /\
        data_value (pData b) = old /\ pListNext b = head_ptr l2 None /\ deleted s s' a b
  | None => zend_hash_del_key_or_index key hv flag s = Ok (FAILURE, s)
  end.
Proof. apply del_spec. Qed.
Lemma delete_outcome_witness :
  exists l a b s' l1 l2, repr sample l sample_entries /\
    zend_hash_index_del 7 sample = Ok (SUCCESS, s') /\ l = l1 ++ a :: l2 /\
    repr s' (l1 ++ l2) [(KStr (bs "b"), 20); (KStr (bs "a"), 10)] /\
    data_value (pData b) = 30 /\ pListNext b = head_ptr l2 None /\ deleted sample s' a b.
Proof.
  destruct sample_repr as (l & R & _). exists l.
  assert (H1 : HASH_DEL_INDEX <> HASH_DEL_KEY -> @nil byte <> [] -> 7 = zend_inline_hash_func []) by done.
  assert (H2 : HASH_DEL_INDEX = HASH_DEL_KEY -> @nil byte <> []) by done.
  destruct (delete_outcome sample l sample_entries [] 7 HASH_DEL_INDEX R H1 H2) as (a & b & s' & l1 & l2 & H).
  exists a, b, s', l1, l2. split; [exact R|exact H].
Defined.

(** C23: changing the key of the current entry to one no other entry has keeps
    its value and its place; when another entry has it, [mode] says, by which
    of the two comes first, whether the current entry gives way (it is
    destroyed, and the answer is FAILURE) or the other one is destroyed; the
    position follows the entry, whose block may have moved. *)
Theorem update_key_outcome {V W : Type} `{Allocator} (s : hstate V W) l1 a l2 kvs1 k v kvs2
    key_type str num_index mode pos :
  plentiful V -> repr s (l1 ++ a :: l2) (kvs1 ++ (k, v) :: kvs2) -> length l1 = length kvs1 ->
  position pos s = Some a -> new_key_ok key_type str num_index ->
  let nk := new_key key_type str num_index in
  let other := kv_lookup nk (kvs1 ++ kvs2) in
  let r := zend_hash_update_current_key_ex key_type str num_index mode pos s in
  if decide (nk = k) then r = Ok (SUCCESS, pos, s)
  else if bool_decide (is_Some other) && gives_way mode (bool_decide (nk ∈ kvs1.*1)) then
    exists s', r = Ok (FAILURE, pos, s') /\ repr s' (l1 ++ l2) (kvs1 ++ kvs2) /\
      env s' = dtor_env (ht s) v (env s) /\ same_config s s' /\
      nNextFreeElement (ht s') = nNextFreeElement (ht s)
  else key_changed s kvs1 kvs2 nk v other pos r.
Proof. apply update_key_spec. Qed.
Lemma update_key_outcome_witness :
  exists a s' l' a' pos', zend_hash_update_current_key_ex HASH_KEY_IS_STRING (bs "b") 0 HASH_UPDATE_KEY_ANYWAY
      (Some (Some a)) sample = Ok (SUCCESS, pos', s') /\
    repr s' l' [(KStr (bs "b"), 30); (KStr (bs "a"), 10)] /\ env s' = [11; 20] /\
    same_config sample s' /\ nNextFreeElement (ht s') = nNextFreeElement (ht sample) /\
    (is_Some pos' <-> is_Some (Some (Some a))) /\ position pos' s' = Some a' /\
    holds (buckets s') a' (KStr (bs "b"), 30).
Proof.
  destruct sample_repr as (l & R & Hl). destruct l as [|x [|a [|y [|]]]]; try done. exists a.
  assert (Hk : new_key_ok HASH_KEY_IS_STRING (bs "b") 0) by (right; done).
  pose proof (update_key_outcome sample [x] a [y] [(KStr (bs "b"), 20)] (KInt 7) 30 [(KStr (bs "a"), 10)]
    HASH_KEY_IS_STRING (bs "b") 0 HASH_UPDATE_KEY_ANYWAY (Some (Some a)) (bump_plentiful Z) R eq_refl eq_refl Hk)
    as (s' & l' & a' & pos' & H).
  sample_in H. exists s', l', a', pos'. exact H.
Defined.

(** ** Walks *)

(** C24: [zend_hash_apply_with_arguments] calls the function on every entry
    in insertion order until it answers STOP, removes (and destroys) those
    for which it answers REMOVE, keeps what it wrote to the others, and
    restores the recursion count; the fourth nested call ends in an error.
    [zend_hash_reverse_apply] does the same from the last entry to the first. *)
Theorem apply_walks {V W : Type} `{Allocator} (f : callback) (g : hkey -> V -> W -> Z * V * W)
    (f' : V -> W -> Z * V * W) (s : hstate V W) l kvs :
  repr s l kvs -> sees_key f g -> count_ok (ht s) ->
  (if bApplyProtection (ht s) && (3 <=? nApplyCount (ht s))
   then zend_hash_apply_with_arguments f s = Err Bailout
   else exists s' l', zend_hash_apply_with_arguments f s = Ok (tt, s') /\
     repr s' l' (apply_entries (ht s) g kvs (env s)).1 /\
     env s' = (apply_entries (ht s) g kvs (env s)).2 /\ same_config s s') /\
  (may_apply (ht s) ->
   let run := apply_entries (ht s) (fun _ v w => f' v w) (reverse kvs) (env s) in
   exists s' l', zend_hash_reverse_apply f' s = Ok (tt, s') /\
     repr s' l' (reverse run.1) /\ env s' = run.2 /\ same_config s s').
Proof.
  intros R Hf Hc. split; [|intros Hm; by apply (reverse_apply_spec f' s l)]. destruct (bApplyProtection (ht s)) eqn:Ep; cbn [andb].
  - destruct (Z.leb_spec 3 (nApplyCount (ht s))); [by apply apply_refused|].
    by apply (apply_spec f g s l); [..|right].
  - by apply (apply_spec f g s l); [..|left].
Qed.
(** Remove the values above 15, stop at the entry 30. *)
Definition sample_apply (v : Z) (w : list Z) : Z * Z * list Z :=
  (if 15 <? v then (if v =? 30 then 3 else ZEND_HASH_APPLY_REMOVE) else ZEND_HASH_APPLY_KEEP, v + 1, w).
Lemma apply_walks_witness :
  exists l, repr sample l sample_entries /\
    (exists s' l', zend_hash_apply sample_apply sample = Ok (tt, s') /\ repr s' l' [(KStr (bs "a"), 10)] /\
       env s' = [11; 21; 31] /\ same_config sample s') /\
    (exists s' l', zend_hash_reverse_apply sample_apply sample = Ok (tt, s') /\
       repr s' l' [(KStr (bs "b"), 20); (KStr (bs "a"), 11)] /\ env s' = [11; 31] /\ same_config sample s').
Proof.
  destruct sample_repr as (l & R & _). exists l. split; [exact R|].
  assert (Hs : sees_key (V := Z) (fun _ v w => sample_apply v w) (fun _ v w => sample_apply v w)) by done.
  destruct (apply_walks _ _ sample_apply sample l sample_entries R Hs (proj1 sample_quiet)) as [H1 H2].
  specialize (H2 (proj2 sample_quiet)). sample_in H1. sample_in H2. split; [exact H1|exact H2].
Defined.

(** C25: the four ways to empty a table run the destructor once on every
    value, the reverse one from the last entry to the first.  The three that
    destroy it free every bucket and the bucket array; [zend_hash_clean] frees
    the buckets and leaves an empty table of the same size that can be used
    again. *)
Theorem destroy_everything {V W : Type} `{Allocator} (s : hstate V W) l kvs :
  repr s l kvs ->
  let forward := dtor_all (ht s) kvs.*2 (env s) in
  let backward := dtor_all (ht s) (reverse kvs).*2 (env s) in
  (exists s', zend_hash_destroy s = Ok (tt, s') /\ buckets s' = ∅ /\ arBuckets (ht s') = [] /\ env s' = forward) /\
  (exists s', zend_hash_graceful_destroy s = Ok (tt, s') /\ buckets s' = ∅ /\ arBuckets (ht s') = [] /\ env s' = forward) /\
  (exists s', zend_hash_graceful_reverse_destroy s = Ok (tt, s') /\ buckets s' = ∅ /\ arBuckets (ht s') = [] /\ env s' = backward) /\
  (exists s', zend_hash_clean s = Ok (tt, s') /\ repr s' [] [] /\ env s' = forward /\ same_config s s' /\
     nNextFreeElement (ht s') = 0 /\ nTableSize (ht s') = nTableSize (ht s)).
Proof.
  intros R. split_and!; [by apply (destroy_spec s l)|by apply (graceful_destroy_spec s l)
    |by apply (graceful_reverse_destroy_spec s l)|by apply (clean_spec s l)].
Qed.
Lemma destroy_everything_witness :
  exists l s', repr sample l sample_entries /\
    zend_hash_graceful_reverse_destroy sample = Ok (tt, s') /\ buckets s' = ∅ /\ arBuckets (ht s') = [] /\
    env s' = [11; 10; 30; 20].
Proof.
  destruct sample_repr as (l & R & _). exists l.
  pose proof (destroy_everything sample l sample_entries R) as H. sample_in H.
  destruct H as (_ & _ & (s' & H) & _).
  exists s'. split; [exact R|exact H].
Defined.

(** C26: resetting a position, the table's own ([None]) or another, with
    [zend_hash_internal_pointer_reset_ex], and reading key and data while there
    is an entry and moving with [zend_hash_move_forward_ex] yields the entries
    in insertion order; from [zend_hash_internal_pointer_end_ex] on and with
    [zend_hash_move_backwards_ex], in reverse.  Both loops end. *)
Theorem traversal_yields {V W : Type} `{Allocator} (s : hstate V W) l kvs (pos : option ptr) :
  repr s l kvs ->
  traverse zend_hash_internal_pointer_reset_ex zend_hash_move_forward_ex pos s = Ok kvs /\
  traverse zend_hash_internal_pointer_end_ex zend_hash_move_backwards_ex pos s = Ok (reverse kvs).
Proof. intros R. split; [by eapply traverse_forward|by eapply traverse_backwards]. Qed.
Lemma traversal_yields_witness :
  exists l, repr sample l sample_entries /\
    traverse zend_hash_internal_pointer_reset_ex zend_hash_move_forward_ex None sample = Ok sample_entries /\
    traverse zend_hash_internal_pointer_end_ex zend_hash_move_backwards_ex None sample =
      Ok (reverse sample_entries).
Proof.
  destruct sample_repr as (l & R & _). exists l. split; [exact R|].
  apply (traversal_yields sample l sample_entries None R).
Defined.

(** A saved position is restored exactly when it is NULL, is the cursor
    already, or its bucket is still on the chain of the saved hash value;
    a stale position is refused without effect and without being followed. *)
Theorem set_pointer_restores {V W : Type} `{Allocator} (s : hstate V W) l kvs n hp :
  reprn s l kvs n ->
  match hp_pos hp with
  | None => zend_hash_set_pointer hp s = Ok (1, upd_ht (set_pInternalPointer None) s)
  | Some a =>
      (pInternalPointer (ht s) = Some a \/ still_there s l hp a) /\
        zend_hash_set_pointer hp s = Ok (1, upd_ht (set_pInternalPointer (Some a)) s) \/
      (pInternalPointer (ht s) <> Some a /\ ~ still_there s l hp a) /\
        zend_hash_set_pointer hp s = Ok (0, s)
  end.
Proof. apply set_pointer_spec. Qed.
Lemma set_pointer_restores_witness :
  exists l, repr sample l sample_entries /\
    match hp_pos (mkHashPointer None 7) with
    | None => zend_hash_set_pointer (mkHashPointer None 7) sample =
        Ok (1, upd_ht (set_pInternalPointer None) sample)
    | Some _ => False
    end.
Proof.
  destruct sample_repr as (l & R & _). exists l. split; [exact R|].
  apply (set_pointer_restores sample l sample_entries _ (mkHashPointer None 7) R).
Defined.

(** [zend_hash_minmax] returns an element that no other exceeds (with
    the flag) or undercuts (without), for any total order. *)
Theorem minmax_extreme {V W : Type} `{Allocator} (compar : Bucket V -> Bucket V -> Z) `{!Comparison compar}
    (flag : bool) (s : hstate V W) l kvs :
  repr s l kvs -> Z.of_nat (length l) < 2 ^ 32 -> l <> [] ->
  exists a b, zend_hash_minmax compar flag s = Ok (SUCCESS, Some a) /\ a ∈ l /\
    buckets s !! a = Some b /\
    (forall x bx, x ∈ l -> buckets s !! x = Some bx ->
      if flag then compar bx b <= 0 else compar b bx <= 0).
Proof. apply minmax_spec. done. Qed.
Lemma minmax_extreme_witness :
  exists l a b, repr sample l sample_entries /\
    zend_hash_minmax (fun b1 b2 => by_value (entry b1) (entry b2)) true sample = Ok (SUCCESS, Some a) /\
    a ∈ l /\ buckets sample !! a = Some b /\
    (forall x bx, x ∈ l -> buckets sample !! x = Some bx -> by_value (entry bx) (entry b) <= 0).
Proof.
  destruct sample_repr as (l & R & Hl). exists l.
  assert (Hlen : Z.of_nat (length l) < 2 ^ 32) by (rewrite Hl; reflexivity).
  assert (Hne : l <> []) by (intros ->; discriminate Hl).
  destruct (minmax_extreme (fun b1 b2 => by_value (entry b1) (entry b2)) true sample l sample_entries
    R Hlen Hne) as (a & b & H).
  exists a, b. split; [exact R|exact H].
Defined.

(** ** Copying and merging *)

(** C27: [zend_hash_copy] files every entry of the source in the target, in
    order, replacing what was under the same key; the copy constructor runs on
    each value copied and the destructor on each replaced; without either, a
    look-up in the result finds the source's value, or else the target's.
    [zend_hash_merge] files the source's entries whose key is new, and the
    others too when [overwrite] is set; [zend_hash_merge_ex] those its checker
    accepts.  The merges put the cursor on the first entry; the copy keeps the
    target's cursor on its entry, or, when it had none, puts it on the first
    entry that is new from the source's cursor on, or else on the first. *)
Theorem copy_and_merge {V W : Type} `{Allocator} (src s : hstate V W) ls ks l kvs ctor size
    (overwrite : bool) checker g :
  repr src ls ks -> repr s l kvs -> plentiful V -> sees_entries checker g ->
  (exists s' l', zend_hash_copy src ctor size s = Ok (tt, s') /\
    let '(kvs', w') := copy_entries (ht s) ctor ks kvs (env s) in
    repr s' l' kvs' /\ env s' = w' /\ same_config s s' /\
    (pDestructor (ht s) = None -> ctor = None ->
     forall k, kv_lookup k kvs' = match kv_lookup k ks with Some v => Some v | None => kv_lookup k kvs end) /\
    cursor_key s' =
      match cursor_key s with
      | Some k => Some k
      | None =>
          match first_new (from_key (cursor_key src) ks.*1) kvs.*1 with
          | Some k => Some k
          | None => list.head kvs'.*1
          end
      end) /\
  (exists s' l', zend_hash_merge src ctor size overwrite s = Ok (tt, s') /\
    let '(kvs', w') := merge_entries (ht s) ctor (merge_takes overwrite) ks kvs (env s) in
    repr s' l' kvs' /\ env s' = w' /\ same_config s s' /\ pInternalPointer (ht s') = head_ptr l' None) /\
  (exists s' l', zend_hash_merge_ex src ctor size checker s = Ok (tt, s') /\
    let '(kvs', w') := merge_entries (ht s) ctor g ks kvs (env s) in
    repr s' l' kvs' /\ env s' = w' /\ same_config s s' /\ pInternalPointer (ht s') = head_ptr l' None).
Proof.
  intros Rs R Hp Hg. split; [|split].
  - destruct (copy_spec src ls ks ctor size s l kvs Rs R Hp) as (s' & l' & Hc & R' & He & Hcf & Hcur).
    exists s', l'. split; [done|]. destruct (copy_entries _ _ _ _ _) as [kvs' w'] eqn:E.
    split_and!; [done|done|done| |done]. intros Hd ->. rewrite copy_entries_plain in E by done. injection E as <- _.
    intros k. by apply kv_lookup_update_all, (r_keys _ _ _ _ Rs).
  - destruct (merge_spec src ls ks ctor size overwrite s l kvs Rs R Hp) as (s' & l' & Hc & R' & He & Hr).
    exists s', l'. split; [done|]. by destruct (merge_entries _ _ _ _ _ _).
  - destruct (merge_ex_spec src ls ks ctor size checker g s l kvs Rs R Hp Hg) as (s' & l' & Hc & R' & He & Hr).
    exists s', l'. split; [done|]. by destruct (merge_entries _ _ _ _ _ _).
Qed.
Definition take_big (t : hstate Z (list Z)) (v : Z) (k : zend_hash_key) : bool := 15 <? v.
Lemma copy_and_merge_witness :
  exists l, repr sample l sample_entries /\
    (exists s' l', zend_hash_copy sample (Some (fun v w => (v + 100, w))) 16 sample = Ok (tt, s') /\
       repr s' l' [(KStr (bs "b"), 120); (KInt 7, 130); (KStr (bs "a"), 110)] /\
       env s' = [11; 20; 30; 10]) /\
    (exists s' l', zend_hash_merge_ex sample (Some (fun v w => (v + 100, w))) 16 take_big sample = Ok (tt, s') /\
       repr s' l' [(KStr (bs "b"), 120); (KInt 7, 130); (KStr (bs "a"), 10)] /\ env s' = [11; 20; 30]).
Proof.
  destruct sample_repr as (l & R & _). exists l. split; [exact R|].
  assert (Hg : sees_entries take_big (fun _ v _ => 15 <? v)) by done.
  destruct (copy_and_merge sample sample l sample_entries l sample_entries (Some (fun v w => (v + 100, w))) 16
    false take_big _ R R (bump_plentiful Z) Hg) as (H1 & _ & H2). sample_in H1. sample_in H2. split.
  - destruct H1 as (s' & l' & Hc & R' & He & _). exists s', l'. split; [exact Hc|]. split; [exact R'|exact He].
  - destruct H2 as (s' & l' & Hc & R' & He & _). exists s', l'. split; [exact Hc|]. split; [exact R'|exact He].
Defined.

(** ** Hash values and numeric keys *)

(** C28: the hash function, unrolled eight times, is DJBX33A: the left fold
    of [hash * 33 + c] over the key from 5381, modulo 2^64. *)
Theorem hash_func_is_djb (key : list byte) :
  zend_hash_func key = fold_left (fun hash c => u64 (hash * 33 + sc c)) key 5381.
Proof.
  unfold zend_hash_func. rewrite hash_func_fold. generalize 5381.
  induction key as [|c key IH]; intros hash; [done|]. simpl. rewrite IH. f_equal.
  unfold hash_step. rewrite Z.shiftl_mul_pow2 by lia. unfold u64.
  rewrite Z.add_mod_idemp_l, <- Z.add_assoc, Z.add_mod_idemp_l by done. f_equal. lia.
Qed.

(** C29: [ZEND_HANDLE_NUMERIC] returns on every NUL-terminated key, and files
    it under an index exactly when it is the decimal spelling, without
    leading zeros, plus sign or minus zero, of a [long]. *)
Theorem numeric_keys (key : list byte) :
  last key = Some NUL ->
  exists r, ZEND_HANDLE_NUMERIC key = Ok r /\
    (forall idx, r = Some idx <-> exists i, spells key i /\ LONG_MIN <= i <= LONG_MAX /\ idx = u64 i).
Proof. apply handle_numeric_spec. Qed.
Lemma numeric_keys_witness :
  exists r, ZEND_HANDLE_NUMERIC (bs "-9223372036854775808" ++ [NUL]) = Ok r /\
    (forall idx, r = Some idx <->
       exists i, spells (bs "-9223372036854775808" ++ [NUL]) i /\ LONG_MIN <= i <= LONG_MAX /\ idx = u64 i).
Proof. apply (numeric_keys (bs "-9223372036854775808" ++ [NUL])). reflexivity. Defined.
