(* ===== verification/ZendLlist.v ===== *)
(** * Zend/zend_llist.c, Zend/zend_llist.h: the doubly linked list

    Elements live in the heap [elems]; [V] is the type of the [size] bytes an
    element carries, [W] the environment of the callbacks.  A [void *] result
    is the address of the element whose data it points to. *)

From S2P Require Import Prelude Dll ZendQsort.
Open Scope Z_scope.

Record zend_llist_element (V : Type) : Type := mkElement { next : ptr; prev : ptr; data : V }.
Arguments mkElement {V}. Arguments next {V}. Arguments prev {V}. Arguments data {V}.

Definition set_next {V} x (e : zend_llist_element V) := mkElement x (prev e) (data e).
Definition set_prev {V} x (e : zend_llist_element V) := mkElement (next e) x (data e).
Definition set_data {V} (x : V) (e : zend_llist_element V) := mkElement (next e) (prev e) x.

Definition llist_links {V} : links (zend_llist_element V) :=
  Links _ next prev set_next set_prev
    (fun _ _ => eq_refl) (fun _ _ => eq_refl) (fun _ _ => eq_refl) (fun _ _ => eq_refl).

Record zend_llist (V W : Type) : Type := mkLlist {
  head : ptr;
  tail : ptr;
  count : Z;
  size : Z;
  dtor : option (V -> W -> W);
  persistent : bool;
  traverse_ptr : ptr
}.
Arguments mkLlist {V W}. Arguments head {V W}. Arguments tail {V W}. Arguments count {V W}.
Arguments size {V W}. Arguments dtor {V W}. Arguments persistent {V W}.
Arguments traverse_ptr {V W}.

Definition sizeof_zend_llist_element : Z := 24.

Record lstate (V W : Type) : Type := LState {
  ll : zend_llist V W;
  elems : gmap addr (zend_llist_element V);
  lenv : W
}.
Arguments LState {V W}. Arguments ll {V W}. Arguments elems {V W}. Arguments lenv {V W}.

#[global] Instance lstate_heap {V W} : HasHeap (lstate V W) (zend_llist_element V) := {|
  heap_of s := elems s;
  upd_heap f s := LState (ll s) (f (elems s)) (lenv s);
  heap_of_upd f s := eq_refl
|}.

Section Llist.
Context {V W : Type} `{Allocator}.
Implicit Types (l : zend_llist V W) (s : lstate V W).

Definition set_head x l : zend_llist V W :=
  mkLlist x (tail l) (count l) (size l) (dtor l) (persistent l) (traverse_ptr l).
Definition set_tail x l : zend_llist V W :=
  mkLlist (head l) x (count l) (size l) (dtor l) (persistent l) (traverse_ptr l).
Definition set_count x l : zend_llist V W :=
  mkLlist (head l) (tail l) x (size l) (dtor l) (persistent l) (traverse_ptr l).
Definition set_traverse_ptr x l : zend_llist V W :=
  mkLlist (head l) (tail l) (count l) (size l) (dtor l) (persistent l) x.

(** [l->field = v]. *)
Definition set_l (f : zend_llist V W -> zend_llist V W) : M (lstate V W) unit :=
  modify (fun s => LState (f (ll s)) (elems s) (lenv s)).
Definition set_env (f : W -> W) : M (lstate V W) unit :=
  modify (fun s => LState (ll s) (elems s) (f (lenv s))).

Definition list_fuel s : nat := S (base.size (elems s)).

(** [zend_llist_init]: [traverse_ptr] is not assigned. *)
Definition zend_llist_init (sz : Z) (d : option (V -> W -> W)) (pers : bool) (l : zend_llist V W)
    : zend_llist V W :=
  mkLlist None None 0 sz d pers (traverse_ptr l).

(** [tmp = pemalloc(...)]; the result is not tested for NULL. *)
Definition new_element (element : V) : M (lstate V W) ptr :=
  s ← get_st;
  match alloc (elems s) (sizeof_zend_llist_element + size (ll s) - 1) with
  | Some a => modify (upd_heap (<[a := mkElement None None element]>));; mret (Some a)
  | None => mret None
  end.

Definition zend_llist_add_element (element : V) : M (lstate V W) unit :=
  tmp ← new_element element;
  s ← get_st;
  assign tmp (set_prev (tail (ll s)));;
  assign tmp (set_next None);;
  (match tail (ll s) with
   | Some _ => assign (tail (ll s)) (set_next tmp)
   | None => set_l (set_head tmp)
   end);;
  set_l (set_tail tmp);;
  set_l (fun l => set_count (u64 (count l + 1)) l).

Definition zend_llist_prepend_element (element : V) : M (lstate V W) unit :=
  tmp ← new_element element;
  s ← get_st;
  assign tmp (set_next (head (ll s)));;
  assign tmp (set_prev None);;
  (match head (ll s) with
   | Some _ => assign (head (ll s)) (set_prev tmp)
   | None => set_l (set_tail tmp)
   end);;
  set_l (set_head tmp);;
  set_l (fun l => set_count (u64 (count l + 1)) l).

(** [if (l->dtor) l->dtor(p->data);] *)
Definition call_dtor (p : ptr) : M (lstate V W) unit :=
  s ← get_st;
  match dtor (ll s) with
  | None => mret tt
  | Some d => e ← reading (deref p); set_env (d (data e))
  end.

Definition DEL_LLIST_ELEMENT (current : ptr) : M (lstate V W) unit :=
  e ← reading (deref current);
  (match prev e with
   | Some _ => assign (prev e) (set_next (next e))
   | None => set_l (set_head (next e))
   end);;
  (match next e with
   | Some _ => assign (next e) (set_prev (prev e))
   | None => set_l (set_tail (prev e))
   end);;
  call_dtor current;;
  release current;;
  set_l (fun l => set_count (u64 (count l - 1)) l).

Fixpoint del_loop (fuel : nat) (compare : V -> V -> Z) (element : V) (current : ptr)
    : M (lstate V W) unit :=
  match fuel with
  | O => throw OutOfFuel
  | S fuel' =>
      match current with
      | None => mret tt
      | Some _ =>
          e ← reading (deref current);
          if negb (compare (data e) element =? 0) then DEL_LLIST_ELEMENT current
          else del_loop fuel' compare element (next e)
      end
  end.
Definition zend_llist_del_element (element : V) (compare : V -> V -> Z) : M (lstate V W) unit :=
  s ← get_st; del_loop (list_fuel s) compare element (head (ll s)).

Fixpoint destroy_elements (fuel : nat) (current : ptr) : M (lstate V W) unit :=
  match fuel with
  | O => throw OutOfFuel
  | S fuel' =>
      match current with
      | None => mret tt
      | Some _ =>
          e ← reading (deref current);
          call_dtor current;;
          release current;;
          destroy_elements fuel' (next e)
      end
  end.
Definition zend_llist_destroy : M (lstate V W) unit :=
  s ← get_st;
  destroy_elements (list_fuel s) (head (ll s));;
  set_l (set_count 0).
Definition zend_llist_clean : M (lstate V W) unit :=
  zend_llist_destroy;;
  set_l (set_tail None);;
  set_l (set_head None).

(** The result is [old_tail->data], a pointer into the element just freed. *)
Definition zend_llist_remove_tail : M (lstate V W) ptr :=
  s ← get_st;
  let old_tail := tail (ll s) in
  match old_tail with
  | Some _ =>
      e ← reading (deref old_tail);
      (match prev e with
       | Some _ => assign (prev e) (set_next None)
       | None => set_l (set_head None)
       end);;
      set_l (set_tail (prev e));;
      call_dtor old_tail;;
      release old_tail;;
      set_l (fun l => set_count (u64 (count l - 1)) l);;
      mret old_tail
  | None => mret None
  end.

(** [zend_llist_copy]; the source is another list with its own heap. *)
Fixpoint copy_elements (fuel : nat) (src : lstate V W) (p : ptr) : M (lstate V W) unit :=
  match fuel with
  | O => throw OutOfFuel
  | S fuel' =>
      match p with
      | None => mret tt
      | Some _ =>
          match deref p src with
          | Err e => throw e
          | Ok e => zend_llist_add_element (data e);; copy_elements fuel' src (next e)
          end
      end
  end.
Definition zend_llist_copy (src : lstate V W) : M (lstate V W) unit :=
  set_l (zend_llist_init (size (ll src)) (dtor (ll src)) (persistent (ll src)));;
  copy_elements (list_fuel src) src (head (ll src)).

(** The callback may change the element's data in place. *)
Definition call_func {B} (func : V -> W -> B * V * W) (p : ptr) : M (lstate V W) B :=
  e ← reading (deref p);
  s ← get_st;
  let '(r, v, w) := func (data e) (lenv s) in
  assign p (set_data v);;
  set_env (fun _ => w);;
  mret r.

Fixpoint apply_with_del_loop (fuel : nat) (func : V -> W -> Z * V * W) (element : ptr)
    : M (lstate V W) unit :=
  match fuel with
  | O => throw OutOfFuel
  | S fuel' =>
      match element with
      | None => mret tt
      | Some _ =>
          e ← reading (deref element);
          r ← call_func func element;
          (if negb (r =? 0) then DEL_LLIST_ELEMENT element else mret tt);;
          apply_with_del_loop fuel' func (next e)
      end
  end.
Definition zend_llist_apply_with_del (func : V -> W -> Z * V * W) : M (lstate V W) unit :=
  s ← get_st; apply_with_del_loop (list_fuel s) func (head (ll s)).

Fixpoint apply_elements (fuel : nat) (func : V -> W -> unit * V * W) (element : ptr)
    : M (lstate V W) unit :=
  match fuel with
  | O => throw OutOfFuel
  | S fuel' =>
      match element with
      | None => mret tt
      | Some _ =>
          call_func func element;;
          e ← reading (deref element);
          apply_elements fuel' func (next e)
      end
  end.
Definition zend_llist_apply (func : V -> W -> unit * V * W) : M (lstate V W) unit :=
  s ← get_st; apply_elements (list_fuel s) func (head (ll s)).
Definition zend_llist_apply_with_argument {B} (func : V -> B -> W -> unit * V * W) (arg : B)
    : M (lstate V W) unit :=
  zend_llist_apply (fun v w => func v arg w).
Definition zend_llist_apply_with_arguments {B} (func : V -> list B -> W -> unit * V * W)
    (args : list B) : M (lstate V W) unit :=
  zend_llist_apply (fun v w => func v args w).

(** The array [elements] of [zend_llist_sort]. *)
Fixpoint collect_elements (fuel : nat) (element : ptr) (s : lstate V W) : res (list addr) :=
  match fuel with
  | O => Err OutOfFuel
  | S fuel' =>
      match element with
      | None => Ok []
      | Some a =>
          e ← deref element s;
          r ← collect_elements fuel' (next e) s;
          Ok (a :: r)
      end
  end.

(** [for (i = 1; ...) { elements[i]->prev = elements[i-1];
    elements[i-1]->next = elements[i]; } elements[i-1]->next = NULL;] from
    [last = elements[i-1]] on. *)
Fixpoint relink_elements (last : addr) (rest : list addr) : M (lstate V W) unit :=
  match rest with
  | [] => assign (Some last) (set_next None)
  | a :: rest' =>
      assign (Some a) (set_prev (Some last));;
      assign (Some last) (set_next (Some a));;
      relink_elements a rest'
  end.

(** [comp_func] on two elements of the array. *)
Definition comp_at (comp_func : V -> V -> Z) s (a1 a2 : addr) : Z :=
  match elems s !! a1, elems s !! a2 with
  | Some e1, Some e2 => comp_func (data e1) (data e2)
  | None, Some _ => -1
  | Some _, None => 1
  | None, None => 0
  end.

Definition zend_llist_sort (comp_func : V -> V -> Z) : M (lstate V W) unit :=
  s ← get_st;
  if count (ll s) <=? 0 then mret tt
  else
    elements ← reading (collect_elements (list_fuel s) (head (ll s)));
    if count (ll s) <? Z.of_nat (length elements) then throw OutOfBounds
    else
      elements ← reading (fun s => zend_qsort (comp_at comp_func s) 8 elements);
      match elements with
      | [] => throw OutOfBounds
      | a :: rest =>
          set_l (set_head (Some a));;
          assign (Some a) (set_prev None);;
          relink_elements a rest;;
          set_l (set_tail (last_ptr None elements))
      end.

Definition zend_llist_count s : Z := count (ll s).

(** Traversal: [pos] is [None] for the list's own [traverse_ptr]. *)
Definition position (pos : option ptr) s : ptr :=
  match pos with Some p => p | None => traverse_ptr (ll s) end.
Definition store_position (pos : option ptr) (p : ptr) : M (lstate V W) (option ptr) :=
  match pos with
  | Some _ => mret (Some p)
  | None => set_l (set_traverse_ptr p);; mret None
  end.
Definition zend_llist_get_first_ex (pos : option ptr) : M (lstate V W) (ptr * option ptr) :=
  s ← get_st;
  pos ← store_position pos (head (ll s));
  mret (head (ll s), pos).
Definition zend_llist_get_last_ex (pos : option ptr) : M (lstate V W) (ptr * option ptr) :=
  s ← get_st;
  pos ← store_position pos (tail (ll s));
  mret (tail (ll s), pos).
Definition zend_llist_get_next_ex (pos : option ptr) : M (lstate V W) (ptr * option ptr) :=
  s ← get_st;
  match position pos s with
  | Some a =>
      e ← reading (deref (Some a));
      pos ← store_position pos (next e);
      mret (next e, pos)
  | None => mret (None, pos)
  end.
Definition zend_llist_get_prev_ex (pos : option ptr) : M (lstate V W) (ptr * option ptr) :=
  s ← get_st;
  match position pos s with
  | Some a =>
      e ← reading (deref (Some a));
      pos ← store_position pos (prev e);
      mret (prev e, pos)
  | None => mret (None, pos)
  end.
End Llist.
