(* ===== verification/ZendLlistSpec.v ===== *)
(** * The linked list of zend_llist.c implements sequences

    [lrepr s l vs]: the list's elements are at the addresses [l] and carry
    the values [vs].  Every operation returns and acts on [vs] as the
    corresponding operation on sequences. *)

From S2P Require Import Prelude Dll ZendQsort ZendQsortSpec ZendLlist.
From Stdlib Require Import Sorted.
Open Scope Z_scope.

Section Spec.
Context {V W : Type} `{Allocator}.
Implicit Types (t : zend_llist V W) (s : lstate V W) (m : gmap addr (zend_llist_element V)) (w : W)
  (e : zend_llist_element V) (l : list addr) (vs : list V).

Definition carries m (a : addr) (v : V) : Prop := exists e, m !! a = Some e /\ data e = v.

Record lrepr s l vs : Prop := {
  lr_nodup : NoDup l;
  lr_dom : forall a, is_Some (elems s !! a) -> a ∈ l;
  lr_seg : seg llist_links (elems s) None l None;
  lr_head : head (ll s) = head_ptr l None;
  lr_tail : tail (ll s) = last_ptr None l;
  lr_data : Forall2 (carries (elems s)) l vs;
  lr_count : count (ll s) = u64 (Z.of_nat (length l))
}.

(** ** Steps *)

Lemma lbind_assign {B} a f e t m w (k : unit -> M (lstate V W) B) :
  m !! a = Some e ->
  (assign (Some a) f ≫= k) (LState t m w) = k tt (LState t (<[a := f e]> m) w).
Proof.
  intros Hb. unfold mbind, M_bind, assign. simpl. rewrite Hb. simpl.
  by rewrite (alter_insert _ _ _ _ Hb).
Qed.
Lemma lbind_deref {B} a e t m w (k : zend_llist_element V -> M (lstate V W) B) :
  m !! a = Some e ->
  (reading (deref (Some a)) ≫= k) (LState t m w) = k e (LState t m w).
Proof. intros Hb. unfold mbind, M_bind, reading, deref. simpl. by rewrite Hb. Qed.
Lemma lbind_set {B} f t m w (k : unit -> M (lstate V W) B) :
  (set_l f ≫= k) (LState t m w) = k tt (LState (f t) m w).
Proof. done. Qed.
Lemma lbind_get {B} t m w (k : lstate V W -> M (lstate V W) B) :
  (get_st ≫= k) (LState t m w) = k (LState t m w) (LState t m w).
Proof. done. Qed.
Lemma lbind_release {B} a t m w (k : unit -> M (lstate V W) B) :
  is_Some (m !! a) -> (release (Some a) ≫= k) (LState t m w) = k tt (LState t (delete a m) w).
Proof. intros [e He]. unfold mbind, M_bind, release. simpl. by rewrite He. Qed.
(** [if (p) p->field = v; else l->field' = v';] *)
Lemma lbind_either {B} (p : ptr) f (g : zend_llist V W -> zend_llist V W) t m w
    (k : unit -> M (lstate V W) B) :
  (forall a, p = Some a -> is_Some (m !! a)) ->
  ((match p with Some _ => assign p f | None => set_l g end) ≫= k) (LState t m w) =
  k tt (LState (match p with None => g t | Some _ => t end) (opt_alter p f m) w).
Proof.
  intros Hp. destruct p as [a|]; [|done]. destruct (Hp a eq_refl) as [e He].
  rewrite (lbind_assign _ _ e) by done. simpl. by rewrite (alter_insert _ _ _ _ He).
Qed.

Definition dtor_run t (v : V) w : W := match dtor t with None => w | Some d => d v w end.
Lemma lbind_dtor {B} a e t m w (k : unit -> M (lstate V W) B) :
  m !! a = Some e ->
  (call_dtor (Some a) ≫= k) (LState t m w) = k tt (LState t m (dtor_run t (data e) w)).
Proof.
  intros He. unfold call_dtor, dtor_run. rewrite mbind_assoc, lbind_get. cbn [ll].
  destruct (dtor t); [|done]. rewrite mbind_assoc. by erewrite lbind_deref.
Qed.

(** ** Data frames *)

Lemma carries_alter m a f x v :
  (forall e, data (f e) = data e) -> carries m x v -> carries (alter f a m) x v.
Proof.
  intros Hf (e & He & <-). unfold carries. rewrite lookup_alter. case_decide; [|eauto].
  subst. rewrite He. simpl. eauto.
Qed.
Lemma carries_opt_alter m p f x v :
  (forall e, data (f e) = data e) -> carries m x v -> carries (opt_alter p f m) x v.
Proof. destruct p; [apply carries_alter|done]. Qed.
Lemma carries_insert_ne m a e x v : a <> x -> carries m x v -> carries (<[a := e]> m) x v.
Proof. intros Hne (e' & He & Hv). exists e'. by rewrite lookup_insert_ne. Qed.
Lemma carries_delete_ne m a x v : a <> x -> carries m x v -> carries (delete a m) x v.
Proof. intros Hne (e' & He & Hv). exists e'. by rewrite lookup_delete_ne. Qed.

Lemma dom_opt_alter (m : gmap addr (zend_llist_element V)) (p : ptr) f a :
  is_Some (opt_alter p f m !! a) <-> is_Some (m !! a).
Proof.
  destruct p; [|done]. simpl. rewrite lookup_alter. case_decide; [|done]. subst.
  by rewrite fmap_is_Some.
Qed.

Lemma u64_succ (n : nat) : u64 (u64 (Z.of_nat n) + 1) = u64 (Z.of_nat (S n)).
Proof. unfold u64. rewrite Zplus_mod_idemp_l. f_equal. lia. Qed.
Lemma u64_pred (n : nat) : u64 (u64 (Z.of_nat (S n)) - 1) = u64 (Z.of_nat n).
Proof. unfold u64. rewrite Zminus_mod_idemp_l. f_equal. lia. Qed.

Lemma live s l vs a : lrepr s l vs -> a ∈ l -> is_Some (elems s !! a).
Proof. intros R Ha. eapply (seg_lookup llist_links); [apply (lr_seg _ _ _ R)|done]. Qed.

Lemma fuel_enough s l vs : lrepr s l vs -> (length l < list_fuel s)%nat.
Proof.
  intros R. apply Nat.lt_succ_r. rewrite <- (size_list_to_set (C := gset addr) l) by apply R.
  rewrite <- size_dom. apply subseteq_size. intros a Ha%elem_of_list_to_set.
  apply elem_of_dom. by eapply live.
Qed.

(** ** Adding *)

Definition alloc_request s : ptr :=
  alloc (elems s) (sizeof_zend_llist_element + size (ll s) - 1).

Lemma add_spec s l vs v a :
  lrepr s l vs -> alloc_request s = Some a ->
  exists s', zend_llist_add_element v s = Ok (tt, s') /\ lrepr s' (l ++ [a]) (vs ++ [v]) /\
    lenv s' = lenv s /\ dtor (ll s') = dtor (ll s) /\ size (ll s') = size (ll s).
Proof.
  intros R Ha. destruct s as [t m w]. unfold alloc_request in Ha. cbn [elems ll] in Ha.
  pose proof (alloc_fresh _ _ _ Ha) as Hfr.
  assert (Hal : a ∉ l).
  { intros Hin. destruct (live _ _ _ _ R Hin) as [e He]. simpl in He. congruence. }
  unfold zend_llist_add_element, new_element. rewrite mbind_assoc, lbind_get. cbn [elems ll].
  rewrite Ha, mbind_assoc, mbind_modify, mbind_ret.
  change (upd_heap ?f (LState t m w)) with (LState t (f m) w). rewrite lbind_get. cbn [ll].
  erewrite lbind_assign by apply lookup_insert_eq.
  erewrite lbind_assign by apply lookup_insert_eq. rewrite !insert_insert_eq.
  set (e0 := set_next None _).
  pose proof (lr_tail _ _ _ R) as Htl. cbn [ll] in Htl. rewrite Htl.
  assert (Hin : forall x, x ∈ l -> is_Some (<[a:=e0]> m !! x)).
  { intros x Hx. rewrite lookup_insert_ne by set_solver. by apply (live _ _ _ _ R). }
  rewrite lbind_either by (intros x Hx%last_ptr_elem; by apply Hin).
  rewrite lbind_set. eexists. split; [done|].
  destruct R as [Rnd Rdom Rseg Rh Rt Rd Rc]. cbn [ll elems lenv] in *.
  assert (Hnd : NoDup (l ++ [a])).
  { apply NoDup_app. split_and!; [done|set_solver|apply NoDup_singleton]. }
  split; [split; cbn [ll elems lenv]|by destruct (last_ptr None l)].
  - done.
  - intros x Hx%dom_opt_alter. rewrite lookup_insert in Hx. case_decide; set_solver.
  - eapply (seg_push_back llist_links); [done|apply lookup_insert_eq|done| |by apply seg_insert_ne].
    simpl. by rewrite Rt.
  - simpl. rewrite head_ptr_app. destruct l as [|y l]; [done|].
    destruct (last_ptr None (y :: l)) eqn:El; [done|by apply last_ptr_None in El].
  - simpl. by rewrite last_ptr_snoc.
  - apply Forall2_app; [|constructor; [|constructor]].
    + eapply Forall2_impl_in; [exact Rd|]. intros x v' Hx Hv. apply carries_opt_alter; [done|].
      apply carries_insert_ne; [set_solver|done].
    + apply carries_opt_alter; [done|]. exists e0. by rewrite lookup_insert_eq.
  - simpl. replace (count _) with (count t) by (by destruct (last_ptr None l)).
    rewrite Rc, u64_succ, length_app, Nat.add_1_r. done.
Qed.

Lemma prepend_spec s l vs v a :
  lrepr s l vs -> alloc_request s = Some a ->
  exists s', zend_llist_prepend_element v s = Ok (tt, s') /\ lrepr s' (a :: l) (v :: vs) /\
    lenv s' = lenv s /\ dtor (ll s') = dtor (ll s) /\ size (ll s') = size (ll s).
Proof.
  intros R Ha. destruct s as [t m w]. unfold alloc_request in Ha. cbn [elems ll] in Ha.
  pose proof (alloc_fresh _ _ _ Ha) as Hfr.
  assert (Hal : a ∉ l).
  { intros Hin. destruct (live _ _ _ _ R Hin) as [e He]. simpl in He. congruence. }
  unfold zend_llist_prepend_element, new_element. rewrite mbind_assoc, lbind_get. cbn [elems ll].
  rewrite Ha, mbind_assoc, mbind_modify, mbind_ret.
  change (upd_heap ?f (LState t m w)) with (LState t (f m) w). rewrite lbind_get. cbn [ll].
  erewrite lbind_assign by apply lookup_insert_eq.
  erewrite lbind_assign by apply lookup_insert_eq. rewrite !insert_insert_eq.
  set (e0 := set_prev None _).
  pose proof (lr_head _ _ _ R) as Hhd. cbn [ll] in Hhd. rewrite Hhd.
  assert (Hin : forall x, x ∈ l -> is_Some (<[a:=e0]> m !! x)).
  { intros x Hx. rewrite lookup_insert_ne by set_solver. by apply (live _ _ _ _ R). }
  rewrite lbind_either by (intros x Hx%head_ptr_elem; by apply Hin).
  rewrite lbind_set. eexists. split; [done|].
  destruct R as [Rnd Rdom Rseg Rh Rt Rd Rc]. cbn [ll elems lenv] in *.
  assert (Hnd : NoDup (a :: l)) by (by apply NoDup_cons).
  split; [split; cbn [ll elems lenv]|by destruct (head_ptr l None)].
  - done.
  - intros x Hx%dom_opt_alter. rewrite lookup_insert in Hx. case_decide; set_solver.
  - eapply (seg_push_front llist_links);
      [done|apply lookup_insert_eq| |done|by apply seg_insert_ne]. simpl. by rewrite Rh.
  - done.
  - simpl. rewrite last_ptr_cons. destruct l as [|y l]; [done|]. simpl. by rewrite Rt, !last_ptr_cons.
  - constructor.
    + apply carries_opt_alter; [done|]. exists e0. by rewrite lookup_insert_eq.
    + eapply Forall2_impl_in; [exact Rd|]. intros x v' Hx Hv. apply carries_opt_alter; [done|].
      apply carries_insert_ne; [set_solver|done].
  - simpl. replace (count _) with (count t) by (by destruct (head_ptr l None)).
    by rewrite Rc, u64_succ.
Qed.

(** ** Deleting *)

Definition llist_unlinked e t : zend_llist V W :=
  let t1 := match prev e with None => set_head (next e) t | Some _ => t end in
  let t2 := match next e with None => set_tail (prev e) t1 | Some _ => t1 end in
  set_count (u64 (count t - 1)) t2.
Definition llist_removed a e m : gmap addr (zend_llist_element V) :=
  delete a (opt_alter (next e) (set_prev (prev e)) (opt_alter (prev e) (set_next (next e)) m)).

Lemma unlink_repr t m w w' l1 a l2 vs1 v vs2 e :
  lrepr (LState t m w) (l1 ++ a :: l2) (vs1 ++ v :: vs2) -> length l1 = length vs1 ->
  m !! a = Some e ->
  data e = v /\ next e = head_ptr l2 None /\ prev e = last_ptr None l1 /\
  opt_alter (next e) (set_prev (prev e)) (opt_alter (prev e) (set_next (next e)) m) !! a = Some e /\
  lrepr (LState (llist_unlinked e t) (llist_removed a e m) w') (l1 ++ l2) (vs1 ++ vs2).
Proof.
  intros [Rnd Rdom Rseg Rh Rt Rd Rc] Hlen He. cbn [ll elems] in *.
  destruct (seg_mid _ _ _ _ _ _ _ Rseg) as (e' & He' & Hp & Hn).
  rewrite He in He'. injection He' as <-. simpl in Hp, Hn.
  apply Forall2_app_inv in Rd as [Rd1 Rd2]; [|done].
  apply Forall2_cons in Rd2 as [(e' & He'' & Hv) Rd2].
  rewrite He in He''. injection He'' as <-.
  pose proof (NoDup_app_mid _ _ _ Rnd) as (Ha1 & Ha2 & Hnd).
  assert (Hself : opt_alter (next e) (set_prev (prev e))
    (opt_alter (prev e) (set_next (next e)) m) !! a = Some e).
  { assert (forall p f (x : gmap addr (zend_llist_element V)), (forall y, p = Some y -> y <> a) ->
      x !! a = Some e -> opt_alter p f x !! a = Some e) as Hop.
    { intros [y|] f x Hy Hx; [|done]. simpl. rewrite lookup_alter_ne; [done|by apply Hy]. }
    apply Hop; [|apply Hop; [|done]].
    - intros y Hy ->. rewrite Hn in Hy. by apply head_ptr_elem in Hy.
    - intros y Hy ->. rewrite Hp in Hy. by apply last_ptr_elem in Hy. }
  split_and!; try done.
  split; unfold llist_removed, llist_unlinked; cbn [ll elems].
  - done.
  - intros x Hx. rewrite lookup_delete in Hx. case_decide; [by destruct Hx|].
    rewrite !dom_opt_alter in Hx. apply Rdom in Hx. set_solver.
  - apply seg_delete_ne; [set_solver|]. rewrite Hp, Hn.
    by apply (seg_unlink llist_links m l1 a l2).
  - rewrite Hp, Hn. destruct l1 as [|x l1].
    + simpl. by destruct (head_ptr l2 None).
    + destruct (last_ptr None (x :: l1)) eqn:E; [|by apply last_ptr_None in E].
      simpl. by destruct (head_ptr l2 None).
  - rewrite Hp, Hn, !last_ptr_app. rewrite last_ptr_app, last_ptr_cons in Rt.
    destruct l2 as [|x l2]; simpl; [by destruct (last_ptr None l1)|].
    rewrite last_ptr_cons in *. by destruct (last_ptr None l1).
  - apply Forall2_app; (eapply Forall2_impl_in; [eassumption|]); intros x u Hx Hu;
      (apply carries_delete_ne; [set_solver|]); by repeat apply carries_opt_alter.
  - simpl. rewrite Rc, !length_app. simpl. rewrite Nat.add_succ_r.
    by rewrite <- (u64_pred (length l1 + length l2)).
Qed.

Lemma del_element_at {B} t m w l1 a l2 vs1 v vs2 (k : unit -> M (lstate V W) B) :
  lrepr (LState t m w) (l1 ++ a :: l2) (vs1 ++ v :: vs2) -> length l1 = length vs1 ->
  exists s', (DEL_LLIST_ELEMENT (Some a) ≫= k) (LState t m w) = k tt s' /\
    lrepr s' (l1 ++ l2) (vs1 ++ vs2) /\ lenv s' = dtor_run t v w /\
    dtor (ll s') = dtor t /\ size (ll s') = size t /\ traverse_ptr (ll s') = traverse_ptr t.
Proof.
  intros R Hlen. destruct (live _ _ _ a R) as [e He]; [set_solver|]. simpl in He.
  destruct (unlink_repr t m w (dtor_run t v w) _ _ _ _ _ _ _ R Hlen He)
    as (Hv & Hn & Hp & Hself & R').
  assert (Hlive : forall x, x ∈ l1 ++ a :: l2 -> is_Some (m !! x))
    by (intros x Hx; by apply (live _ _ _ _ R)).
  unfold DEL_LLIST_ELEMENT. rewrite mbind_assoc. erewrite lbind_deref by done.
  rewrite mbind_assoc, lbind_either.
  2:{ intros x Hx. rewrite Hp in Hx. apply last_ptr_elem in Hx. apply Hlive. set_solver. }
  rewrite mbind_assoc, lbind_either.
  2:{ intros x Hx. rewrite Hn in Hx. apply head_ptr_elem in Hx. apply dom_opt_alter, Hlive. set_solver. }
  rewrite mbind_assoc. erewrite lbind_dtor by exact Hself.
  rewrite mbind_assoc, lbind_release by (by eexists).
  rewrite lbind_set. eexists. split; [done|].
  assert (Hd : forall A (f : zend_llist V W -> A), (forall x y, f (set_head x y) = f y) ->
    (forall x y, f (set_tail x y) = f y) ->
    f (match next e with
       | Some _ => match prev e with Some _ => t | None => set_head (next e) t end
       | None => set_tail (prev e) (match prev e with Some _ => t | None => set_head (next e) t end)
       end) = f t).
  { intros A f H1 H2. destruct (next e), (prev e); rewrite ?H2, ?H1; done. }
  unfold dtor_run in *. rewrite (Hd _ (@dtor V W)) by done. rewrite Hv.
  split; [|split_and!; [done|by apply Hd..]].
  unfold llist_unlinked, llist_removed in R'.
  rewrite (Hd _ (@count V W)) by done. exact R'.
Qed.

(** The head of the part of the list that is left to walk. *)
Lemma at_head m w t lp a lr vp vr :
  lrepr (LState t m w) (lp ++ a :: lr) (vp ++ vr) -> length lp = length vp ->
  exists e vr', m !! a = Some e /\ vr = data e :: vr' /\ next e = head_ptr lr None /\
    prev e = last_ptr None lp.
Proof.
  intros R Hlen. destruct (live _ _ _ a R) as [e He]; [set_solver|]. simpl in He.
  pose proof (lr_data _ _ _ R) as Rd. apply Forall2_app_inv in Rd as [_ Rd]; [|done].
  apply Forall2_cons_inv_l in Rd as (v & vr' & (e' & He' & Hv) & _ & ->). cbn [elems] in He'.
  rewrite He in He'. injection He' as <-. exists e, vr'. rewrite Hv.
  destruct (seg_mid _ _ _ _ _ _ _ (lr_seg _ _ _ R)) as (e' & He' & Hp & Hn). cbn [elems] in He'.
  rewrite He in He'. injection He' as <-. done.
Qed.

(** [zend_llist_del_element] deletes the first element that matches. *)
Fixpoint remove_first (test : V -> bool) vs : list V :=
  match vs with [] => [] | v :: vs' => if test v then vs' else v :: remove_first test vs' end.
Fixpoint first_match (test : V -> bool) vs : option V :=
  match vs with [] => None | v :: vs' => if test v then Some v else first_match test vs' end.

Lemma del_loop_spec compare x lr : forall fuel lp vp vr t m w,
  lrepr (LState t m w) (lp ++ lr) (vp ++ vr) -> length lp = length vp -> (length lr < fuel)%nat ->
  let test v := negb (compare v x =? 0) in
  exists s' l', del_loop fuel compare x (head_ptr lr None) (LState t m w) = Ok (tt, s') /\
    lrepr s' (lp ++ l') (vp ++ remove_first test vr) /\ dtor (ll s') = dtor t /\
    lenv s' = match first_match test vr with Some v => dtor_run t v w | None => w end.
Proof.
  induction lr as [|a lr IH]; intros fuel lp vp vr t m w R Hlen Hf test;
    destruct fuel as [|fuel]; try (simpl in Hf; lia); simpl in Hf.
  - exists (LState t m w), [].
    pose proof (lr_data _ _ _ R) as Rd. apply Forall2_app_inv in Rd as [_ Rd]; [|done].
    apply Forall2_nil_inv_l in Rd as ->. done.
  - destruct (at_head _ _ _ _ _ _ _ _ R Hlen) as (e & vr' & He & -> & Hn & _).
    cbn [del_loop head_ptr]. erewrite lbind_deref by done. fold (test (data e)).
    cbn [remove_first first_match]. destruct (test (data e)).
    + destruct (del_element_at t m w lp a lr vp (data e) vr' mret R Hlen)
        as (s' & Hrun & R' & He' & Hd' & _).
      exists s', lr. split; [|done]. unfold mbind, M_bind in Hrun.
      destruct (DEL_LLIST_ELEMENT _ _) as [[[] s'']|]; [|done]. by injection Hrun as ->.
    + rewrite Hn. destruct (IH fuel (lp ++ [a]) (vp ++ [data e]) vr' t m w)
        as (s' & l' & Hrun & R' & Hd' & He').
      { by rewrite <- !app_assoc. } { rewrite !length_app. simpl. lia. } { lia. }
      exists s', (a :: l'). rewrite <- !app_assoc in R'. by split_and!.
Qed.

Lemma del_element_spec compare x s l vs :
  lrepr s l vs ->
  let test v := negb (compare v x =? 0) in
  exists s' l', zend_llist_del_element x compare s = Ok (tt, s') /\
    lrepr s' l' (remove_first test vs) /\ dtor (ll s') = dtor (ll s) /\
    lenv s' = match first_match test vs with Some v => dtor_run (ll s) v (lenv s) | None => lenv s end.
Proof.
  intros R test. pose proof (fuel_enough _ _ _ R) as Hf. destruct s as [t m w].
  unfold zend_llist_del_element. rewrite lbind_get.
  pose proof (lr_head _ _ _ R) as Hh. cbn [ll] in Hh |- *. rewrite Hh.
  by apply (del_loop_spec compare x l _ [] [] vs).
Qed.

(** [zend_llist_apply_with_del]: the elements for which [func] returns 0 stay. *)
Fixpoint apply_values (func : V -> W -> Z * V * W) t vs w : list V * W :=
  match vs with
  | [] => ([], w)
  | v :: vs' =>
      let '(r, v', w1) := func v w in
      if r =? 0 then let '(vs'', w2) := apply_values func t vs' w1 in (v' :: vs'', w2)
      else apply_values func t vs' (dtor_run t v' w1)
  end.
Lemma apply_values_dtor func t t' vs w : dtor t' = dtor t -> apply_values func t' vs w = apply_values func t vs w.
Proof.
  intros Hd. revert w. induction vs as [|v vs IH]; intros w; [done|]. simpl.
  destruct (func v w) as [[r v'] w1]. unfold dtor_run. rewrite Hd. by rewrite !IH.
Qed.

Lemma set_data_repr t m w w' lp a lr vp v v' vr e :
  lrepr (LState t m w) (lp ++ a :: lr) (vp ++ v :: vr) -> length lp = length vp -> m !! a = Some e ->
  lrepr (LState t (<[a := set_data v' e]> m) w') (lp ++ a :: lr) (vp ++ v' :: vr).
Proof.
  intros [Rnd Rdom Rseg Rh Rt Rd Rc] Hlen He. cbn [ll elems] in *.
  apply Forall2_app_inv in Rd as [Rd1 Rd2]; [|done]. apply Forall2_cons in Rd2 as [_ Rd2].
  pose proof (NoDup_app_mid _ _ _ Rnd) as (Ha1 & Ha2 & _). split; cbn [ll elems]; try done.
  - intros x Hx. rewrite lookup_insert in Hx. case_decide; [set_solver|by apply Rdom].
  - eapply seg_ext; [|done]. intros x _. rewrite lookup_insert. case_decide; [|done]. subst.
    by rewrite He.
  - apply Forall2_app; [|constructor].
    + eapply Forall2_impl_in; [done|]. intros x u Hx. apply carries_insert_ne. by intros ->.
    + exists (set_data v' e). by rewrite lookup_insert_eq.
    + eapply Forall2_impl_in; [done|]. intros x u Hx. apply carries_insert_ne. by intros ->.
Qed.

Lemma lbind_call {A B} (func : V -> W -> B * V * W) a e t m w (k : B -> M (lstate V W) A) :
  m !! a = Some e ->
  (call_func func (Some a) ≫= k) (LState t m w) =
  let '(r, v', w1) := func (data e) w in k r (LState t (<[a := set_data v' e]> m) w1).
Proof.
  intros He. unfold call_func. rewrite mbind_assoc. erewrite lbind_deref by done.
  rewrite mbind_assoc, lbind_get. cbn [lenv]. destruct (func (data e) w) as [[r v'] w1].
  rewrite mbind_assoc. erewrite lbind_assign by done. done.
Qed.

Lemma apply_with_del_loop_spec func lr : forall fuel lp vp vr t m w,
  lrepr (LState t m w) (lp ++ lr) (vp ++ vr) -> length lp = length vp -> (length lr < fuel)%nat ->
  exists s' l', apply_with_del_loop fuel func (head_ptr lr None) (LState t m w) = Ok (tt, s') /\
    lrepr s' (lp ++ l') (vp ++ (apply_values func t vr w).1) /\ dtor (ll s') = dtor t /\
    lenv s' = (apply_values func t vr w).2.
Proof.
  induction lr as [|a lr IH]; intros fuel lp vp vr t m w R Hlen Hf;
    destruct fuel as [|fuel]; try (simpl in Hf; lia); simpl in Hf.
  - exists (LState t m w), [].
    pose proof (lr_data _ _ _ R) as Rd. apply Forall2_app_inv in Rd as [_ Rd]; [|done].
    apply Forall2_nil_inv_l in Rd as ->. done.
  - destruct (at_head _ _ _ _ _ _ _ _ R Hlen) as (e & vr' & He & -> & Hn & _).
    cbn [apply_with_del_loop head_ptr apply_values]. erewrite lbind_deref by done.
    rewrite (lbind_call func a e) by done. destruct (func (data e) w) as [[r v'] w1].
    pose proof (set_data_repr t m w w1 _ _ _ _ _ v' _ _ R Hlen He) as R1.
    destruct (r =? 0); cbn [negb]; rewrite Hn.
    + rewrite mbind_ret.
      destruct (IH fuel (lp ++ [a]) (vp ++ [v']) vr' t (<[a:=set_data v' e]> m) w1)
        as (s' & l' & Hrun & R' & Hd' & He').
      { by rewrite <- !app_assoc. } { rewrite !length_app. simpl. lia. } { lia. }
      exists s', (a :: l'). rewrite <- !app_assoc in R'.
      destruct (apply_values func t vr' w1). by split_and!.
    + destruct (del_element_at t _ w1 lp a lr vp v' vr'
        (fun _ => apply_with_del_loop fuel func (head_ptr lr None)) R1 Hlen)
        as ([t2 m2 w2] & -> & R2 & He2 & Hd2 & _). cbn [ll lenv] in *.
      destruct (IH fuel lp vp vr' t2 m2 w2 R2 Hlen) as (s' & l' & Hrun & R' & Hd' & He'); [lia|].
      exists s', l'. rewrite (apply_values_dtor _ _ _ _ _ Hd2), He2 in R', He'.
      split_and!; try done. congruence.
Qed.

Lemma apply_with_del_spec func s l vs :
  lrepr s l vs ->
  exists s' l', zend_llist_apply_with_del func s = Ok (tt, s') /\
    lrepr s' l' (apply_values func (ll s) vs (lenv s)).1 /\ dtor (ll s') = dtor (ll s) /\
    lenv s' = (apply_values func (ll s) vs (lenv s)).2.
Proof.
  intros R. pose proof (fuel_enough _ _ _ R) as Hf. destruct s as [t m w].
  unfold zend_llist_apply_with_del. rewrite lbind_get.
  pose proof (lr_head _ _ _ R) as Hh. cbn [ll lenv] in Hh |- *. rewrite Hh.
  by apply (apply_with_del_loop_spec func l _ [] [] vs).
Qed.

(** [zend_llist_apply]: every element stays, with what [func] has written. *)
Fixpoint apply_all (func : V -> W -> unit * V * W) vs w : list V * W :=
  match vs with
  | [] => ([], w)
  | v :: vs' =>
      let '(_, v', w1) := func v w in
      let '(vs'', w2) := apply_all func vs' w1 in (v' :: vs'', w2)
  end.
Lemma apply_elements_spec func lr : forall fuel lp vp vr t m w,
  lrepr (LState t m w) (lp ++ lr) (vp ++ vr) -> length lp = length vp -> (length lr < fuel)%nat ->
  exists s', apply_elements fuel func (head_ptr lr None) (LState t m w) = Ok (tt, s') /\
    lrepr s' (lp ++ lr) (vp ++ (apply_all func vr w).1) /\ ll s' = t /\ lenv s' = (apply_all func vr w).2.
Proof.
  induction lr as [|a lr IH]; intros fuel lp vp vr t m w R Hlen Hf;
    destruct fuel as [|fuel]; try (simpl in Hf; lia); simpl in Hf.
  - exists (LState t m w).
    pose proof (lr_data _ _ _ R) as Rd. apply Forall2_app_inv in Rd as [_ Rd]; [|done].
    apply Forall2_nil_inv_l in Rd as ->. done.
  - destruct (at_head _ _ _ _ _ _ _ _ R Hlen) as (e & vr' & He & -> & Hn & _).
    cbn [apply_elements head_ptr apply_all]. rewrite (lbind_call func a e) by done.
    destruct (func (data e) w) as [[r v'] w1].
    pose proof (set_data_repr t m w w1 _ _ _ _ _ v' _ _ R Hlen He) as R1.
    erewrite lbind_deref by (by rewrite lookup_insert_eq). cbn [next set_data]. rewrite Hn.
    destruct (IH fuel (lp ++ [a]) (vp ++ [v']) vr' t (<[a:=set_data v' e]> m) w1) as (s' & Hrun & R' & Hl & He').
    { by rewrite <- !app_assoc. } { rewrite !length_app. simpl. lia. } { lia. }
    exists s'. rewrite <- !app_assoc in R'. by destruct (apply_all func vr' w1).
Qed.
Lemma llist_apply_spec func s l vs :
  lrepr s l vs ->
  exists s', zend_llist_apply func s = Ok (tt, s') /\ lrepr s' l (apply_all func vs (lenv s)).1 /\
    ll s' = ll s /\ lenv s' = (apply_all func vs (lenv s)).2.
Proof.
  intros R. pose proof (fuel_enough _ _ _ R) as Hf. destruct s as [t m w].
  unfold zend_llist_apply. rewrite lbind_get.
  pose proof (lr_head _ _ _ R) as Hh. cbn [ll lenv] in Hh |- *. rewrite Hh.
  by apply (apply_elements_spec func l _ [] [] vs).
Qed.

(** ** Removing the tail, copying *)

Lemma remove_tail_spec s l vs :
  lrepr s l vs ->
  match last l, last vs with
  | Some a, Some v =>
      exists s', zend_llist_remove_tail s = Ok (Some a, s') /\
        lrepr s' (removelast l) (removelast vs) /\ lenv s' = dtor_run (ll s) v (lenv s) /\
        elems s' !! a = None /\ dtor (ll s') = dtor (ll s)
  | None, None => zend_llist_remove_tail s = Ok (None, s)
  | _, _ => False
  end.
Proof.
  intros R. destruct s as [t m w]. pose proof (Forall2_length _ _ _ (lr_data _ _ _ R)) as Hlen.
  unfold zend_llist_remove_tail. rewrite lbind_get. pose proof (lr_tail _ _ _ R) as Ht.
  cbn [ll lenv] in *. cbv zeta.
  destruct l as [|a l _] using rev_ind; [destruct vs; [simpl in *; by rewrite Ht|done]|].
  destruct vs as [|v vs _] using rev_ind; [rewrite length_app in Hlen; simpl in Hlen; lia|].
  rewrite !length_app in Hlen. simpl in Hlen.
  rewrite !last_snoc. rewrite last_ptr_snoc in Ht. rewrite Ht, !removelast_last.
  destruct (live _ _ _ a R) as [e He]; [set_solver|]. cbn [elems] in He.
  destruct (unlink_repr t m w (dtor_run t v w) l a [] vs v [] e R) as (Hv & Hn & Hp & Hself & R'); [lia|done|].
  erewrite lbind_deref by done.
  rewrite lbind_either.
  2:{ intros x Hx. rewrite Hp in Hx. apply last_ptr_elem in Hx. apply (live _ _ _ _ R). set_solver. }
  simpl in Hn. rewrite Hn in Hself. simpl in Hself. unfold llist_unlinked, llist_removed in R'.
  rewrite Hn in R'. simpl in R'.
  rewrite lbind_set. erewrite lbind_dtor by exact Hself.
  rewrite lbind_release by (by eexists). rewrite lbind_set, Hv.
  eexists. split; [done|]. rewrite !app_nil_r in R'.
  destruct (prev e); (split; [exact R'|split; [done|split; [apply lookup_delete_eq|done]]]).
Qed.

Lemma copy_elements_spec (src : lstate V W) lr : forall fuel p vr s l vs,
  (forall m sz, exists a, alloc (B := zend_llist_element V) m sz = Some a) ->
  seg llist_links (elems src) p lr None -> Forall2 (carries (elems src)) lr vr ->
  lrepr s l vs -> (length lr < fuel)%nat ->
  exists s' l', copy_elements fuel src (head_ptr lr None) s = Ok (tt, s') /\
    lrepr s' l' (vs ++ vr) /\ lenv s' = lenv s /\ dtor (ll s') = dtor (ll s) /\
    size (ll s') = size (ll s).
Proof.
  induction lr as [|a lr IH]; intros fuel p vr s l vs Hal Hs Hd R Hf;
    destruct fuel as [|fuel]; try (simpl in Hf; lia); simpl in Hf.
  - apply Forall2_nil_inv_l in Hd as ->. exists s, l. by rewrite app_nil_r.
  - destruct Hs as (e & He & _ & Hn & Hs). simpl in Hn.
    apply Forall2_cons_inv_l in Hd as (v & vr' & (e' & He' & <-) & Hd & ->).
    rewrite He in He'. injection He' as <-. cbn [copy_elements head_ptr].
    unfold deref. cbn [heap_of lstate_heap]. rewrite He, Hn.
    destruct (Hal (elems s) (sizeof_zend_llist_element + size (ll s) - 1)) as [x Hx].
    destruct (add_spec s l vs (data e) x R Hx) as (s1 & Hrun & R1 & He1 & Hd1 & Hs1).
    erewrite mbind_ok by exact Hrun.
    destruct (IH fuel (Some a) vr' s1 _ _ Hal Hs Hd R1) as (s' & l' & Hr & R' & He2 & Hd2 & Hs2); [lia|].
    exists s', l'. rewrite <- app_assoc in R'. split_and!; try done; congruence.
Qed.

Lemma llist_copy_spec (src : lstate V W) l vs t w :
  (forall m sz, exists a, alloc (B := zend_llist_element V) m sz = Some a) -> lrepr src l vs ->
  exists s' l', zend_llist_copy src (LState t ∅ w) = Ok (tt, s') /\ lrepr s' l' vs /\
    lenv s' = w /\ dtor (ll s') = dtor (ll src) /\ size (ll s') = size (ll src).
Proof.
  intros Hal R. unfold zend_llist_copy. rewrite lbind_set, (lr_head _ _ _ R).
  set (s0 := LState (zend_llist_init _ _ _ t) ∅ w).
  apply (copy_elements_spec src l (list_fuel src) None vs s0 [] []); try done;
    [apply R|apply R| |by eapply fuel_enough].
  split; simpl; try done; [by apply NoDup_nil|].
  intros a Ha. rewrite lookup_empty in Ha. by destruct Ha.
Qed.

(** ** Destroying *)

Lemma destroy_elements_spec lr : forall fuel p vr t m w,
  NoDup lr -> seg llist_links m p lr None -> Forall2 (carries m) lr vr -> (length lr < fuel)%nat ->
  exists m', destroy_elements fuel (head_ptr lr None) (LState t m w) =
      Ok (tt, LState t m' (fold_left (fun w v => dtor_run t v w) vr w)) /\
    (forall x, m' !! x = if decide (x ∈ lr) then None else m !! x).
Proof.
  induction lr as [|a lr IH]; intros fuel p vr t m w Hnd Hs Hd Hf;
    destruct fuel as [|fuel]; try (simpl in Hf; lia); simpl in Hf.
  - apply Forall2_nil_inv_l in Hd as ->. exists m. split; [done|].
    intros x. by rewrite decide_False by set_solver.
  - destruct Hs as (e & He & _ & Hn & Hs). simpl in Hn. apply NoDup_cons in Hnd as [Ha Hnd].
    apply Forall2_cons_inv_l in Hd as (v & vr' & (e' & He' & <-) & Hd & ->).
    rewrite He in He'. injection He' as <-. cbn [destroy_elements head_ptr fold_left].
    erewrite lbind_deref by done. erewrite lbind_dtor by done.
    rewrite lbind_release by (by eexists). rewrite Hn.
    destruct (IH fuel (Some a) vr' t (delete a m) (dtor_run t (data e) w) Hnd)
      as (m' & Hrun & Hm'); [by apply seg_delete_ne| |lia|].
    { eapply Forall2_impl_in; [done|]. intros x u Hx. apply carries_delete_ne. by intros ->. }
    exists m'. split; [exact Hrun|]. intros x. rewrite Hm', lookup_delete.
    repeat case_decide; set_solver.
Qed.

Lemma llist_destroy_spec s l vs :
  lrepr s l vs ->
  exists t', zend_llist_destroy s =
      Ok (tt, LState t' ∅ (fold_left (fun w v => dtor_run (ll s) v w) vs (lenv s))) /\
    count t' = 0 /\ dtor t' = dtor (ll s).
Proof.
  intros R. pose proof (fuel_enough _ _ _ R) as Hf. destruct s as [t m w].
  destruct (destroy_elements_spec l (list_fuel (LState t m w)) None vs t m w)
    as (m' & Hrun & Hm'); try apply R; [done|].
  unfold zend_llist_destroy. rewrite lbind_get.
  pose proof (lr_head _ _ _ R) as Hh. cbn [ll lenv] in Hh |- *. rewrite Hh.
  erewrite mbind_ok by exact Hrun. assert (m' = ∅) as ->; [|by eexists].
  apply map_eq. intros a. rewrite Hm', lookup_empty. case_decide as Ha; [done|].
  destruct (m !! a) eqn:E; [|done]. destruct Ha. apply (lr_dom _ _ _ R). by eexists.
Qed.
Lemma llist_clean_spec s l vs :
  lrepr s l vs ->
  exists s', zend_llist_clean s = Ok (tt, s') /\ lrepr s' [] [] /\ elems s' = ∅ /\
    dtor (ll s') = dtor (ll s) /\ lenv s' = fold_left (fun w v => dtor_run (ll s) v w) vs (lenv s).
Proof.
  intros R. destruct (llist_destroy_spec s l vs R) as (t' & Hrun & Hc & Hd).
  unfold zend_llist_clean. erewrite mbind_ok by exact Hrun. rewrite !lbind_set.
  eexists. split; [done|]. split_and!; [|done|done|done]. split; simpl; try done.
  - by apply NoDup_nil.
  - intros a Ha. rewrite lookup_empty in Ha. by destruct Ha.
Qed.

(** ** Sorting *)

Definition data_frame m m' : Prop := forall x, data <$> m' !! x = data <$> m !! x.
Lemma data_frame_insert m a e e' :
  m !! a = Some e -> data e' = data e -> data_frame m (<[a := e']> m).
Proof. intros He Hd x. rewrite lookup_insert. case_decide; [subst; rewrite He; simpl; by rewrite Hd|done]. Qed.
Lemma data_frame_trans m1 m2 m3 : data_frame m1 m2 -> data_frame m2 m3 -> data_frame m1 m3.
Proof. intros H1 H2 x. by rewrite H2. Qed.
Lemma carries_frame m m' a v : data_frame m m' -> carries m a v -> carries m' a v.
Proof.
  intros Hf (e & He & <-). specialize (Hf a). rewrite He in Hf.
  destruct (m' !! a) as [e'|] eqn:E; [|done]. exists e'. simpl in Hf. split; [done|congruence].
Qed.

Lemma relink_elements_spec rest : forall last p e t m w,
  NoDup (last :: rest) -> (forall a, a ∈ rest -> is_Some (m !! a)) ->
  m !! last = Some e -> prev e = p ->
  exists m', relink_elements last rest (LState t m w) = Ok (tt, LState t m' w) /\
    data_frame m m' /\ seg llist_links m' p (last :: rest) None /\
    (forall a, a ∉ last :: rest -> m' !! a = m !! a).
Proof.
  induction rest as [|a rest IH]; intros last p e t m w Hnd Hlive He Hp.
  - exists (<[last := set_next None e]> m). split_and!.
    + cbn [relink_elements]. unfold assign. simpl. rewrite He. simpl.
      by rewrite (alter_insert _ _ _ _ He).
    + by eapply data_frame_insert.
    + exists (set_next None e). rewrite lookup_insert_eq. done.
    + intros a Ha. rewrite lookup_insert_ne; [done|set_solver].
  - apply NoDup_cons in Hnd as [Hla Hnd]. destruct (Hlive a) as [ea Hea]; [left|].
    assert (last <> a) as Hne by set_solver.
    cbn [relink_elements]. erewrite lbind_assign by exact Hea.
    rewrite (lbind_assign _ _ e) by (by rewrite lookup_insert_ne).
    set (m1 := <[last:=_]> _).
    destruct (IH a (Some last) (set_prev (Some last) ea) t m1 w Hnd) as (m' & Hrun & Hf & Hs & Hout).
    { intros x Hx. unfold m1. rewrite !lookup_insert. repeat case_decide; try done.
      apply Hlive. by right. }
    { unfold m1. rewrite lookup_insert_ne, lookup_insert_eq; done. }
    { done. }
    exists m'. split_and!; [exact Hrun| | |].
    + eapply data_frame_trans; [|exact Hf]. eapply data_frame_trans.
      * by apply (data_frame_insert m a ea (set_prev (Some last) ea)).
      * by apply (data_frame_insert _ last e); [rewrite lookup_insert_ne|].
    + exists (set_next (Some a) e). rewrite Hout by done. unfold m1.
      rewrite lookup_insert_eq. split_and!; [done|done|done|exact Hs].
    + intros x Hx. rewrite Hout by set_solver. unfold m1.
      rewrite !lookup_insert_ne; [done|set_solver|set_solver].
Qed.

Lemma collect_elements_spec s lr : forall fuel p,
  seg llist_links (elems s) p lr None -> (length lr < fuel)%nat ->
  collect_elements fuel (head_ptr lr None) s = Ok lr.
Proof.
  induction lr as [|a lr IH]; intros fuel p Hs Hf; destruct fuel as [|fuel];
    try (simpl in Hf; lia); [done|]. simpl in Hf.
  destruct Hs as (e & He & _ & Hn & Hs). simpl in Hn. cbn [collect_elements head_ptr].
  unfold deref. cbn [heap_of lstate_heap]. rewrite He. cbn [mbind res_bind]. rewrite Hn.
  by rewrite (IH fuel (Some a)) by (done || lia).
Qed.

#[export] Instance comp_at_comparison comp s `{!Comparison comp} : Comparison (comp_at comp s).
Proof.
  split; intros; unfold comp_at in *; repeat case_match; try lia.
  - apply cmp_opposite.
  - by eapply cmp_trans.
Qed.

Lemma sort_values comp s arr vs' `{!Comparison comp} :
  Forall2 (carries (elems s)) arr vs' ->
  StronglySorted (fun x y => comp_at comp s x y <= 0) arr ->
  StronglySorted (fun x y => comp x y <= 0) vs'.
Proof.
  intros Hd Hs. revert vs' Hd. induction Hs as [|a arr Hs IH Ha]; intros vs' Hd.
  - apply Forall2_nil_inv_l in Hd as ->. constructor.
  - apply Forall2_cons_inv_l in Hd as (v & vs1 & (e & He & <-) & Hd & ->). constructor; [by apply IH|].
    clear -Ha Hd He. induction Hd as [|b v arr vs1 (eb & Heb & <-) Hd IH]; constructor.
    + apply Forall_cons in Ha as [Ha _]. unfold comp_at in Ha. by rewrite He, Heb in Ha.
    + apply IH. by apply Forall_cons in Ha as [_ ?].
Qed.

Lemma llist_sort_spec comp s l vs `{!Comparison comp} :
  lrepr s l vs -> Z.of_nat (length l) < 2 ^ 64 ->
  exists s' l' vs', zend_llist_sort comp s = Ok (tt, s') /\ lrepr s' l' vs' /\
    vs ≡ₚ vs' /\ StronglySorted (fun x y => comp x y <= 0) vs' /\ lenv s' = lenv s.
Proof.
  intros R Hlen. pose proof (fuel_enough _ _ _ R) as Hf. destruct s as [t m w].
  unfold zend_llist_sort. rewrite lbind_get. pose proof (lr_count _ _ _ R) as Hc. cbn [ll] in *.
  rewrite Hc, u64_small by lia. destruct (Z.leb_spec (Z.of_nat (length l)) 0) as [H0|H0].
  { assert (l = []) as -> by (destruct l; [done|simpl in H0; lia]).
    pose proof (lr_data _ _ _ R) as Hd. apply Forall2_nil_inv_l in Hd as ->.
    exists (LState t m w), [], []. split_and!; try done. constructor. }
  pose proof (lr_head _ _ _ R) as Hh. cbn [ll] in Hh. rewrite Hh.
  erewrite mbind_reading by (eapply collect_elements_spec; [apply (lr_seg _ _ _ R)|exact Hf]).
  rewrite (proj2 (Z.ltb_ge _ _)) by lia.
  destruct (qsort_spec (comp_at comp (LState t m w)) 8 ltac:(lia) l Hlen) as (arr & Hq & Hperm & Hsorted).
  erewrite mbind_reading by exact Hq.
  destruct arr as [|a rest]; [apply Permutation_nil_r in Hperm as ->; simpl in H0; lia|].
  destruct (Forall2_Permutation_pick _ _ _ _ Hperm (lr_data _ _ _ R)) as (vs' & Hpv & Hd).
  destruct R as [Rnd Rdom Rseg Rh Rt Rd Rc]. cbn [ll elems lenv] in *.
  assert (Hlive : forall x, x ∈ a :: rest -> is_Some (m !! x)).
  { intros x Hx. rewrite <- Hperm in Hx. by eapply (seg_lookup llist_links). }
  assert (NoDup (a :: rest)) as Hnd by (by rewrite <- Hperm).
  destruct (Hlive a) as [ea Hea]; [left|]. pose proof (NoDup_cons_1_1 _ _ Hnd) as Ha.
  rewrite lbind_set. rewrite (lbind_assign _ _ ea) by done.
  destruct (relink_elements_spec rest a None (set_prev None ea) (set_head (Some a) t)
    (<[a:=set_prev None ea]> m) w Hnd) as (m' & Hrun & Hfr & Hs & Hout); try done.
  { intros x Hx. rewrite lookup_insert. case_decide; [done|]. apply Hlive. by right. }
  { apply lookup_insert_eq. }
  erewrite mbind_ok by exact Hrun. eexists _, (a :: rest), vs'. split; [done|].
  assert (Hfr' : data_frame m m').
  { eapply data_frame_trans; [|exact Hfr]. by apply (data_frame_insert m a ea). }
  split_and!; [split; cbn [ll elems]|done| |done].
  - done.
  - intros x [e' He']. rewrite <- Hperm. apply Rdom.
    specialize (Hfr' x). rewrite He' in Hfr'. destruct (m !! x); [by eexists|done].
  - done.
  - done.
  - done.
  - eapply Forall2_impl; [exact Hd|]. intros x u. by apply carries_frame.
  - simpl. rewrite Rc. f_equal. f_equal. by apply Permutation_length in Hperm.
  - by eapply (sort_values comp (LState t m w)).
Qed.

(** ** Traversal *)

(** [for (p = start(l, pos); p; p = move(l, pos)) ...], reading the data. *)
Fixpoint walk_values (move : option ptr -> M (lstate V W) (ptr * option ptr)) (fuel : nat)
    (p : ptr) (pos : option ptr) : M (lstate V W) (list V) :=
  match fuel with
  | O => throw OutOfFuel
  | S fuel' =>
      match p with
      | None => mret []
      | Some _ =>
          e ← reading (deref p);
          '(p, pos) ← move pos;
          vs ← walk_values move fuel' p pos;
          mret (data e :: vs)
      end
  end.
Definition traverse_list (start move : option ptr -> M (lstate V W) (ptr * option ptr)) (pos : option ptr)
    : M (lstate V W) (list V) :=
  '(p, pos) ← start pos;
  s ← get_st;
  walk_values move (list_fuel s) p pos.

(** Only the list's own [traverse_ptr] may change. *)
Definition moved s s' : Prop := exists p, s' = LState (set_traverse_ptr p (ll s)) (elems s) (lenv s).
Lemma moved_refl s : moved s s.
Proof. destruct s as [t m w]. exists (traverse_ptr t). by destruct t. Qed.
Lemma moved_trans s1 s2 s3 : moved s1 s2 -> moved s2 s3 -> moved s1 s3.
Proof. intros [p ->] [q ->]. by exists q. Qed.
Lemma moved_repr s s' l vs : moved s s' -> lrepr s l vs -> lrepr s' l vs.
Proof. intros [p ->] []. by split. Qed.
Lemma store_position_moved pos p s :
  exists pos' s', ZendLlist.store_position pos p s = Ok (pos', s') /\ position pos' s' = p /\ moved s s'.
Proof.
  destruct pos as [q|]; [by exists (Some p), s; split_and!; [| |apply moved_refl]|].
  eexists None, _. split; [done|]. split; [done|]. by exists p.
Qed.

Lemma walk_forward lr : forall fuel lp vp vr pos s,
  lrepr s (lp ++ lr) (vp ++ vr) -> length lp = length vp -> (length lr < fuel)%nat ->
  position pos s = head_ptr lr None ->
  exists s', walk_values zend_llist_get_next_ex fuel (head_ptr lr None) pos s = Ok (vr, s') /\ moved s s'.
Proof.
  induction lr as [|a lr IH]; intros fuel lp vp vr pos s R Hlen Hf Hpos; destruct fuel as [|fuel];
    try (simpl in Hf; lia); simpl in Hf.
  - pose proof (lr_data _ _ _ R) as Rd. apply Forall2_app_inv in Rd as [_ Rd]; [|done].
    apply Forall2_nil_inv_l in Rd as ->. exists s. split; [done|apply moved_refl].
  - destruct s as [t m w]. destruct (at_head _ _ _ _ _ _ _ _ R Hlen) as (e & vr' & He & -> & Hn & _).
    cbn [walk_values head_ptr]. erewrite lbind_deref by done.
    destruct (store_position_moved pos (next e) (LState t m w)) as (pos' & s' & Hs & Hp & Hmv).
    assert (zend_llist_get_next_ex pos (LState t m w) = Ok ((next e, pos'), s')) as Hnx.
    { unfold zend_llist_get_next_ex. rewrite lbind_get, Hpos. cbn [head_ptr].
      erewrite lbind_deref by done. by rewrite (mbind_ok _ _ _ _ _ Hs). }
    rewrite (mbind_ok _ _ _ _ _ Hnx). rewrite Hn in Hp |- *. cbn iota beta.
    destruct (IH fuel (lp ++ [a]) (vp ++ [data e]) vr' pos' s') as (s2 & Hr & Hm2); [|..|exact Hp|].
    + apply (moved_repr _ _ _ _ Hmv). by rewrite <- !app_assoc.
    + rewrite !length_app. simpl. lia.
    + lia.
    + exists s2. rewrite (mbind_ok _ _ _ _ _ Hr). split; [done|by eapply moved_trans].
Qed.
Lemma walk_backward lp : forall fuel lr vp vr pos s,
  lrepr s (lp ++ lr) (vp ++ vr) -> length lp = length vp -> (length lp < fuel)%nat ->
  position pos s = last_ptr None lp ->
  exists s', walk_values zend_llist_get_prev_ex fuel (last_ptr None lp) pos s = Ok (reverse vp, s') /\ moved s s'.
Proof.
  induction lp as [|a lp IH] using rev_ind; intros fuel lr vp vr pos s R Hlen Hf Hpos; destruct fuel as [|fuel];
    try (simpl in Hf; lia).
  - destruct vp; [|done]. exists s. split; [done|apply moved_refl].
  - rewrite length_app in Hlen, Hf. simpl in Hlen, Hf.
    destruct vp as [|v vp _] using rev_ind; [simpl in Hlen; lia|]. rewrite length_app in Hlen. simpl in Hlen.
    rewrite <- !app_assoc in R. simpl in R. destruct s as [t m w].
    destruct (at_head _ _ _ _ _ _ _ _ R) as (e & vr' & He & Hv & _ & Hn); [lia|].
    injection Hv as -> <-. rewrite last_ptr_snoc in *. cbn [walk_values]. erewrite lbind_deref by done.
    destruct (store_position_moved pos (prev e) (LState t m w)) as (pos' & s' & Hs & Hp & Hmv).
    assert (zend_llist_get_prev_ex pos (LState t m w) = Ok ((prev e, pos'), s')) as Hnx.
    { unfold zend_llist_get_prev_ex. rewrite lbind_get, Hpos.
      erewrite lbind_deref by done. by rewrite (mbind_ok _ _ _ _ _ Hs). }
    rewrite (mbind_ok _ _ _ _ _ Hnx). rewrite Hn in Hp |- *. cbn iota beta.
    destruct (IH fuel (a :: lr) vp (data e :: vr) pos' s') as (s2 & Hr & Hm2); [|lia|lia|exact Hp|].
    + by apply (moved_repr _ _ _ _ Hmv).
    + exists s2. rewrite (mbind_ok _ _ _ _ _ Hr), reverse_snoc. split; [done|by eapply moved_trans].
Qed.

(** From either end, with the list's own position or another. *)
Lemma traverse_list_spec pos s l vs :
  lrepr s l vs ->
  (exists s', traverse_list zend_llist_get_first_ex zend_llist_get_next_ex pos s = Ok (vs, s') /\ moved s s') /\
  (exists s', traverse_list zend_llist_get_last_ex zend_llist_get_prev_ex pos s = Ok (reverse vs, s') /\ moved s s').
Proof.
  intros R. pose proof (fuel_enough _ _ _ R) as Hf. split.
  - destruct (store_position_moved pos (head (ll s)) s) as (pos' & s1 & Hs & Hp & Hm).
    assert (Hst : zend_llist_get_first_ex pos s = Ok ((head (ll s), pos'), s1)).
    { unfold zend_llist_get_first_ex. rewrite mbind_get. by rewrite (mbind_ok _ _ _ _ _ Hs). }
    unfold traverse_list. rewrite (mbind_ok _ _ _ _ _ Hst). cbn iota beta. rewrite mbind_get.
    rewrite (lr_head _ _ _ R) in *.
    destruct (walk_forward l (list_fuel s1) [] [] vs pos' s1) as (s2 & Hr & Hm2); [by eapply moved_repr|done| |done|].
    { destruct Hm as [q ->]. exact Hf. }
    exists s2. split; [done|by eapply moved_trans].
  - destruct (store_position_moved pos (tail (ll s)) s) as (pos' & s1 & Hs & Hp & Hm).
    assert (Hst : zend_llist_get_last_ex pos s = Ok ((tail (ll s), pos'), s1)).
    { unfold zend_llist_get_last_ex. rewrite mbind_get. by rewrite (mbind_ok _ _ _ _ _ Hs). }
    unfold traverse_list. rewrite (mbind_ok _ _ _ _ _ Hst). cbn iota beta. rewrite mbind_get.
    rewrite (lr_tail _ _ _ R) in *. pose proof (Forall2_length _ _ _ (lr_data _ _ _ R)) as Hl.
    destruct (walk_backward l (list_fuel s1) [] vs [] pos' s1) as (s2 & Hr & Hm2); [|done| |done|].
    { rewrite !app_nil_r. by eapply moved_repr. } { destruct Hm as [q ->]. exact Hf. }
    exists s2. split; [done|by eapply moved_trans].
Qed.
End Spec.
