(* ===== verification/ZendLlistThms.v ===== *)
(** * The linked list as a sequence: a simulation, sorting, copying

    [lrun] executes an operation on a list, [seq_step] on a sequence; the
    theorems are stated on lists built through the API or on any well-formed
    list ([lrepr]). *)

From S2P Require Import Prelude Dll ZendQsort ZendQsortSpec ZendLlist ZendLlistSpec.
From Stdlib Require Import Sorted.
Open Scope Z_scope.

(** C30: the quicksort of zend_qsort.c, on any array of fewer than 2^64
    elements and any total preorder: it returns (the fuel, a bound on the
    steps, is enough), never indexes outside the array, never overflows its
    64 pending segments, and leaves a sorted permutation. *)
Theorem qsort_sorts {A : Type} (compare : A -> A -> Z) `{!Comparison compare} (siz : Z) (base : list A) :
  0 < siz -> Z.of_nat (length base) < 2 ^ 64 ->
  exists arr, zend_qsort compare siz base = Ok arr /\ base ≡ₚ arr /\
    StronglySorted (fun x y => compare x y <= 0) arr.
Proof. intros Hs Hl. by apply qsort_spec. Qed.
#[local] Instance difference_comparison : Comparison (fun x y : Z => x - y).
Proof. split; intros; lia. Qed.
Lemma qsort_sorts_witness :
  exists arr, zend_qsort (fun x y => x - y) 8 [3; 1; 4; 1; 5; 9; 2; 6] = Ok arr /\
    [3; 1; 4; 1; 5; 9; 2; 6] ≡ₚ arr /\ StronglySorted (fun x y => x - y <= 0) arr.
Proof. apply (qsort_sorts (fun x y => x - y) 8 [3; 1; 4; 1; 5; 9; 2; 6]); simpl; lia. Defined.

(** ** Operations on a list and on a sequence *)

Inductive lop (V W : Type) : Type :=
  | LAdd (v : V)
  | LPrepend (v : V)
  | LDel (compare : V -> V -> Z) (v : V)
  | LRemoveTail
  | LApplyWithDel (func : V -> W -> Z * V * W)
  | LApply (func : V -> W -> unit * V * W)
  | LWalk (own : bool)
  | LWalkBack (own : bool)
  | LClean
  | LCount.
Arguments LAdd {V W}. Arguments LPrepend {V W}. Arguments LDel {V W}. Arguments LRemoveTail {V W}.
Arguments LApplyWithDel {V W}. Arguments LApply {V W}. Arguments LWalk {V W}. Arguments LWalkBack {V W}.
Arguments LClean {V W}. Arguments LCount {V W}.

Section Refine.
Context {V W : Type} `{Allocator}.
Implicit Types (s : lstate V W) (vs : list V) (w : W) (o : lop V W) (d : option (V -> W -> W)).

(** The answers: a number (the count, or 1 for an element returned and 0 for
    none or nothing) and the values read.  A walk goes from one end to the
    other with the list's [own] position or with a variable of the caller's. *)
Definition walk_pos (own : bool) : option ptr := if own then None else Some None.
Definition lrun o : M (lstate V W) (Z * list V) :=
  match o with
  | LAdd v => zend_llist_add_element v;; mret (0, [])
  | LPrepend v => zend_llist_prepend_element v;; mret (0, [])
  | LDel compare v => zend_llist_del_element v compare;; mret (0, [])
  | LRemoveTail => p ← zend_llist_remove_tail; mret (if p is Some _ then 1 else 0, [])
  | LApplyWithDel func => zend_llist_apply_with_del func;; mret (0, [])
  | LApply func => zend_llist_apply func;; mret (0, [])
  | LWalk own =>
      vs ← traverse_list zend_llist_get_first_ex zend_llist_get_next_ex (walk_pos own); mret (0, vs)
  | LWalkBack own =>
      vs ← traverse_list zend_llist_get_last_ex zend_llist_get_prev_ex (walk_pos own); mret (0, vs)
  | LClean => zend_llist_clean;; mret (0, [])
  | LCount => n ← reading (fun s => Ok (zend_llist_count s)); mret (n, [])
  end.
Fixpoint lrun_all (os : list (lop V W)) : M (lstate V W) (list (Z * list V)) :=
  match os with
  | [] => mret []
  | o :: os' => a ← lrun o; l ← lrun_all os'; mret (a :: l)
  end.

Definition destroy d (v : V) w : W := match d with None => w | Some f => f v w end.
Definition destroy_all d (vs : list V) w : W := fold_left (fun w v => destroy d v w) vs w.
Fixpoint keep_values d (func : V -> W -> Z * V * W) vs w : list V * W :=
  match vs with
  | [] => ([], w)
  | v :: vs' =>
      let '(r, v', w1) := func v w in
      if r =? 0 then let '(vs'', w2) := keep_values d func vs' w1 in (v' :: vs'', w2)
      else keep_values d func vs' (destroy d v' w1)
  end.
Definition seq_step d o (st : list V * W) : (Z * list V) * (list V * W) :=
  let '(vs, w) := st in
  match o with
  | LAdd v => ((0, []), (vs ++ [v], w))
  | LPrepend v => ((0, []), (v :: vs, w))
  | LDel compare x =>
      let test v := negb (compare v x =? 0) in
      ((0, []), (remove_first test vs,
           match first_match test vs with Some v => destroy d v w | None => w end))
  | LRemoveTail =>
      match last vs with
      | Some v => ((1, []), (removelast vs, destroy d v w))
      | None => ((0, []), (vs, w))
      end
  | LApplyWithDel func => ((0, []), keep_values d func vs w)
  | LApply func => ((0, []), apply_all func vs w)
  | LWalk _ => ((0, vs), (vs, w))
  | LWalkBack _ => ((0, reverse vs), (vs, w))
  | LClean => ((0, []), ([], destroy_all d vs w))
  | LCount => ((u64 (Z.of_nat (length vs)), []), (vs, w))
  end.
Fixpoint seq_steps d (os : list (lop V W)) (st : list V * W) : list (Z * list V) * (list V * W) :=
  match os with
  | [] => ([], st)
  | o :: os' =>
      let '(a, st1) := seq_step d o st in
      let '(l, st2) := seq_steps d os' st1 in (a :: l, st2)
  end.

(** Requests for elements are met. *)
Definition elements_granted : Prop :=
  forall (m : gmap addr (zend_llist_element V)) sz, exists a, alloc m sz = Some a.

Definition lrefines d s (st : list V * W) : Prop :=
  (exists l, lrepr s l st.1) /\ lenv s = st.2 /\ dtor (ll s) = d.

Lemma keep_values_apply d func t vs w :
  dtor t = d -> apply_values func t vs w = keep_values d func vs w.
Proof.
  intros <-. revert w. induction vs as [|v vs IH]; intros w; [done|]. simpl.
  destruct (func v w) as [[r v'] w1]. unfold dtor_run, destroy. by rewrite !IH.
Qed.
Lemma fold_dtor_run t vs w :
  fold_left (fun w v => dtor_run t v w) vs w = destroy_all (dtor t) vs w.
Proof. done. Qed.

Lemma lop_refines d o s st :
  elements_granted -> lrefines d s st ->
  exists s', lrun o s = Ok ((seq_step d o st).1, s') /\ lrefines d s' (seq_step d o st).2.
Proof.
  intros Hg ([l R] & He & Hd). destruct st as [vs w]. simpl in *. unfold lrefines.
  destruct o as [v|v|compare x| |func|func|own|own| |]; simpl.
  - destruct (Hg (elems s) (sizeof_zend_llist_element + size (ll s) - 1)) as [a Ha].
    destruct (add_spec s l vs v a R Ha) as (s' & Hrun & R' & He' & Hd' & _).
    exists s'. rewrite (mbind_ok _ _ _ _ _ Hrun). split; [done|]. simpl.
    split; [by eexists|]. split; congruence.
  - destruct (Hg (elems s) (sizeof_zend_llist_element + size (ll s) - 1)) as [a Ha].
    destruct (prepend_spec s l vs v a R Ha) as (s' & Hrun & R' & He' & Hd' & _).
    exists s'. rewrite (mbind_ok _ _ _ _ _ Hrun). split; [done|]. simpl.
    split; [by eexists|]. split; congruence.
  - destruct (del_element_spec compare x s l vs R) as (s' & l' & Hrun & R' & Hd' & He').
    exists s'. rewrite (mbind_ok _ _ _ _ _ Hrun). split; [done|]. simpl.
    split; [by eexists|]. rewrite He', He. unfold dtor_run, destroy. rewrite Hd. by rewrite Hd', Hd.
  - pose proof (remove_tail_spec s l vs R) as Ht. pose proof (Forall2_length _ _ _ (lr_data _ _ _ R)) as Hl.
    destruct (last l) as [a|], (last vs) as [v|]; try done.
    + destruct Ht as (s' & Hrun & R' & He' & _ & Hd'). exists s'. rewrite (mbind_ok _ _ _ _ _ Hrun).
      split; [done|]. simpl. split; [by eexists|]. split; [|congruence].
      rewrite He', He. unfold dtor_run, destroy. by rewrite Hd.
    + exists s. rewrite (mbind_ok _ _ _ _ _ Ht). split; [done|]. split; [by eexists|done].
  - destruct (apply_with_del_spec func s l vs R) as (s' & l' & Hrun & R' & Hd' & He').
    rewrite (keep_values_apply d), He in * by done.
    exists s'. rewrite (mbind_ok _ _ _ _ _ Hrun). split; [done|]. split; [by eexists|]. split; congruence.
  - destruct (llist_apply_spec func s l vs R) as (s' & Hrun & R' & Hl & He').
    rewrite He in *. exists s'. rewrite (mbind_ok _ _ _ _ _ Hrun). split; [done|]. split; [by eexists|].
    split; [done|by rewrite Hl].
  - destruct (traverse_list_spec (walk_pos own) s l vs R) as [(s' & Hrun & Hm) _].
    exists s'. rewrite (mbind_ok _ _ _ _ _ Hrun). split; [done|]. split; [exists l; by eapply moved_repr|].
    by destruct Hm as [p ->].
  - destruct (traverse_list_spec (walk_pos own) s l vs R) as [_ (s' & Hrun & Hm)].
    exists s'. rewrite (mbind_ok _ _ _ _ _ Hrun). split; [done|]. split; [exists l; by eapply moved_repr|].
    by destruct Hm as [p ->].
  - destruct (llist_clean_spec s l vs R) as (s' & Hrun & R' & _ & Hd' & He').
    exists s'. rewrite (mbind_ok _ _ _ _ _ Hrun). split; [done|]. split; [by eexists|].
    rewrite fold_dtor_run, Hd, He in He'. split; simpl; congruence.
  - exists s. split; [|split; [by eexists|done]]. unfold zend_llist_count.
    erewrite mbind_reading by reflexivity. rewrite (lr_count _ _ _ R).
    by rewrite (Forall2_length _ _ _ (lr_data _ _ _ R)).
Qed.

Lemma lops_refine d os : forall s st,
  elements_granted -> lrefines d s st ->
  exists s', lrun_all os s = Ok ((seq_steps d os st).1, s') /\ lrefines d s' (seq_steps d os st).2.
Proof.
  induction os as [|o os IH]; intros s st Hg HR; [by exists s|].
  destruct (lop_refines d o s st Hg HR) as (s1 & Hs1 & HR1). simpl.
  rewrite (mbind_ok _ _ _ _ _ Hs1). destruct (seq_step d o st) as [a st1]. simpl in HR1.
  destruct (IH s1 st1 Hg HR1) as (s2 & Hs2 & HR2). rewrite (mbind_ok _ _ _ _ _ Hs2).
  destruct (seq_steps d os st1) as [al st2]. by exists s2.
Qed.

(** A list just initialised, whatever [traverse_ptr] held. *)
Definition fresh_list (sz : Z) d (pers : bool) (garbage : zend_llist V W) w : lstate V W :=
  LState (zend_llist_init sz d pers garbage) ∅ w.
Lemma fresh_refines sz d pers garbage w : lrefines d (fresh_list sz d pers garbage w) ([], w).
Proof.
  split; [|done]. exists []. split; try done.
  - apply NoDup_nil_2.
  - intros a [? Ha]. simpl in Ha; by rewrite lookup_empty in Ha.
Qed.
End Refine.

Definition no_list : zend_llist Z (list Z) := mkLlist None None 0 0 None false None.

Lemma sample_list : exists s l, @lrepr Z (list Z) s l [3; 1; 2].
Proof.
  destruct (lops_refine None [LAdd 3; LAdd 1; LAdd 2] _ _ ltac:(intros m sz; by eexists)
    (fresh_refines 8 None false no_list [])) as (s & _ & [l R] & _).
  by exists s, l.
Qed.

(** [zend_llist_sort] sorts by the comparison function: the values are
    permuted, nothing is destroyed, and the list is well formed.
    [zend_llist_copy] makes a list of its own with the same values in the same
    order. *)
Theorem llist_sort_and_copy {V W : Type} `{Allocator} (comp : V -> V -> Z) `{!Comparison comp}
    (s : lstate V W) l vs t (w : W) :
  @elements_granted V _ -> lrepr s l vs -> Z.of_nat (length l) < 2 ^ 64 ->
  (exists s' l' vs', zend_llist_sort comp s = Ok (tt, s') /\ lrepr s' l' vs' /\
     vs ≡ₚ vs' /\ StronglySorted (fun x y => comp x y <= 0) vs' /\ lenv s' = lenv s) /\
  (exists s' l', zend_llist_copy s (LState t ∅ w) = Ok (tt, s') /\ lrepr s' l' vs /\
     lenv s' = w /\ dtor (ll s') = dtor (ll s)).
Proof.
  intros Hg R Hl. split; [by apply (llist_sort_spec comp s l)|].
  destruct (llist_copy_spec s l vs t w Hg R) as (s' & l' & Hc & R' & He & Hd & _).
  by exists s', l'.
Qed.
Lemma llist_sort_and_copy_witness :
  exists (s : lstate Z (list Z)) l, lrepr s l [3; 1; 2] /\
    (exists s' l' vs', zend_llist_sort (fun x y => x - y) s = Ok (tt, s') /\ lrepr s' l' vs' /\
       [3; 1; 2] ≡ₚ vs' /\ StronglySorted (fun x y => x - y <= 0) vs' /\ lenv s' = lenv s) /\
    (exists s' l', zend_llist_copy s (LState no_list ∅ []) = Ok (tt, s') /\ lrepr s' l' [3; 1; 2] /\
       lenv s' = [] /\ dtor (ll s') = dtor (ll s)).
Proof.
  destruct sample_list as (s & l & R). pose proof (Forall2_length _ _ _ (lr_data _ _ _ R)) as Hl.
  assert (Hb : Z.of_nat (length l) < 2 ^ 64) by (rewrite Hl; reflexivity).
  assert (Hg : @elements_granted Z bump_allocator) by (intros m sz; by eexists).
  exists s, l. split; [exact R|].
  exact (llist_sort_and_copy (fun x y => x - y) s l [3; 1; 2] no_list [] Hg R Hb).
Defined.
