(* ===== verification/ZendStack.v ===== *)
(** * Zend/zend_stack.c, Zend/zend_ptr_stack.c and .h, Zend/zend_dynamic_array.c

    The engine's array-backed stacks.  The array is the list of its [max]
    cells; a cell that has not been written, or whose element has been freed,
    is [None].  [granted n] says whether a request for [n] bytes succeeds
    ([emalloc] and [erealloc] are not part of these files). *)

From S2P Require Import Prelude.
Open Scope Z_scope.

(** [array[i]], and the assignment to it. *)
Definition cell {A} (cells : list (option A)) (i : Z) : res A :=
  if i <? 0 then Err OutOfBounds
  else match cells !! Z.to_nat i with
       | Some (Some x) => Ok x
       | Some None => Err DanglingPointer
       | None => Err OutOfBounds
       end.
Definition set_cell {A} (cells : list (option A)) (i : Z) (x : option A) : res (list (option A)) :=
  if i <? 0 then Err OutOfBounds
  else match cells !! Z.to_nat i with
       | Some _ => Ok (<[Z.to_nat i := x]> cells)
       | None => Err OutOfBounds
       end.

(** [erealloc] of an array to [n] cells. *)
Definition regrow {A} (cells : list (option A)) (n : Z) : list (option A) :=
  take (Z.to_nat n) cells ++ replicate (Z.to_nat n - length cells) None.

Module Stack.
(** [top] and [max] are [int]s. *)
Definition STACK_BLOCK_SIZE : Z := 64.
Definition ZEND_STACK_APPLY_TOPDOWN : Z := 1.
Definition ZEND_STACK_APPLY_BOTTOMUP : Z := 2.

Record zend_stack (V : Type) : Type := mkStack {
  top : Z;
  max : Z;
  elements : option (list (option V))
}.
Arguments mkStack {V}. Arguments top {V}. Arguments max {V}. Arguments elements {V}.

Section Ops.
Context {V W : Type} (granted : Z -> bool).
Implicit Types (stack : zend_stack V).

Definition zend_stack_init (max0 : Z) : Z * zend_stack V :=
  if granted (8 * STACK_BLOCK_SIZE)
  then (SUCCESS, mkStack 0 STACK_BLOCK_SIZE (Some (replicate 64 None)))
  else (FAILURE, mkStack 0 max0 None).

(** [stack->elements], for indexing. *)
Definition cells_of stack : res (list (option V)) :=
  match elements stack with Some cs => Ok cs | None => Err NullDeref end.

Definition zend_stack_push (element : V) (sz : Z) : M (zend_stack V) Z := fun stack =>
  let full := max stack <=? top stack in
  let max' := if full then s32 (max stack + STACK_BLOCK_SIZE) else max stack in
  if full && negb (granted (u64 (8 * max'))) then Ok (FAILURE, mkStack (top stack) max' None)
  else
    cs ← cells_of stack;
    let cs := if full then regrow cs max' else cs in
    if negb (granted sz) then Err NullDeref
    else
      cs ← set_cell cs (top stack) (Some element);
      Ok (top stack, mkStack (s32 (top stack + 1)) max' (Some cs)).

Definition zend_stack_top stack : res (Z * option V) :=
  if 0 <? top stack then
    cs ← cells_of stack;
    v ← cell cs (top stack - 1);
    Ok (SUCCESS, Some v)
  else Ok (FAILURE, None).

Definition zend_stack_del_top : M (zend_stack V) Z := fun stack =>
  if 0 <? top stack then
    cs ← cells_of stack;
    _ ← cell cs (top stack - 1);
    cs ← set_cell cs (top stack - 1) None;
    Ok (SUCCESS, mkStack (top stack - 1) (max stack) (Some cs))
  else Ok (SUCCESS, stack).

(** The element read as an [int]. *)
Definition zend_stack_int_top (as_int : V -> Z) stack : res Z :=
  '(r, e) ← zend_stack_top stack;
  match e with
  | Some v => Ok (as_int v)
  | None => Ok FAILURE
  end.
Definition zend_stack_is_empty stack : Z := if top stack =? 0 then 1 else 0.
Definition zend_stack_count stack : Z := top stack.
Definition zend_stack_base stack : option (list (option V)) := elements stack.

(** [for (i = 0; i < stack->top; i++) efree(stack->elements[i]);] from
    [i = top - n] on: each element must be there to be freed. *)
Fixpoint free_elements (n : nat) (cs : list (option V)) (i : Z) : res (list (option V)) :=
  match n with
  | O => Ok cs
  | S n' =>
      _ ← cell cs i;
      cs ← set_cell cs i None;
      free_elements n' cs (i + 1)
  end.
Definition zend_stack_destroy : M (zend_stack V) Z := fun stack =>
  match elements stack with
  | Some cs =>
      _ ← free_elements (Z.to_nat (top stack)) cs 0;
      Ok (SUCCESS, mkStack (top stack) (max stack) None)
  | None => Ok (SUCCESS, stack)
  end.

(** The two loops of [zend_stack_apply]; [n] elements are left. *)
Fixpoint apply_topdown (n : nat) (f : V -> W -> Z * V * W) (cs : list (option V)) (w : W)
    : res (list (option V) * W) :=
  match n with
  | O => Ok (cs, w)
  | S n' =>
      let i := Z.of_nat n' in
      v ← cell cs i;
      let '(r, v', w') := f v w in
      cs ← set_cell cs i (Some v');
      if negb (r =? 0) then Ok (cs, w') else apply_topdown n' f cs w'
  end.
Fixpoint apply_bottomup (n : nat) (f : V -> W -> Z * V * W) (cs : list (option V)) (i : Z) (w : W)
    : res (list (option V) * W) :=
  match n with
  | O => Ok (cs, w)
  | S n' =>
      v ← cell cs i;
      let '(r, v', w') := f v w in
      cs ← set_cell cs i (Some v');
      if negb (r =? 0) then Ok (cs, w') else apply_bottomup n' f cs (i + 1) w'
  end.
Definition zend_stack_apply (type : Z) (f : V -> W -> Z * V * W) (w : W)
    : M (zend_stack V) W := fun stack =>
  if negb (0 <? top stack) || negb ((type =? ZEND_STACK_APPLY_TOPDOWN) || (type =? ZEND_STACK_APPLY_BOTTOMUP))
  then Ok (w, stack)
  else
    cs ← cells_of stack;
    '(cs, w) ←
      (if type =? ZEND_STACK_APPLY_TOPDOWN then apply_topdown (Z.to_nat (top stack)) f cs w
       else apply_bottomup (Z.to_nat (top stack)) f cs 0 w);
    Ok (w, mkStack (top stack) (max stack) (Some cs)).
Definition zend_stack_apply_with_argument {B} (type : Z) (f : V -> B -> W -> Z * V * W) (arg : B)
    (w : W) : M (zend_stack V) W :=
  zend_stack_apply type (fun v w => f v arg w) w.
End Ops.
End Stack.

Module PtrStack.
Definition PTR_STACK_BLOCK_SIZE : Z := 64.

(** [top] and [max] are [int]s; [top_element] is the index of the cell it
    points to. *)
Record zend_ptr_stack (P : Type) : Type := mkPtrStack {
  top : Z;
  max : Z;
  elements : list (option P);
  top_element : Z
}.
Arguments mkPtrStack {P}. Arguments top {P}. Arguments max {P}.
Arguments elements {P}. Arguments top_element {P}.

Section Ops.
Context {P W : Type}.
Implicit Types (stack : zend_ptr_stack P).

Definition zend_ptr_stack_init_ex : zend_ptr_stack P :=
  mkPtrStack 0 PTR_STACK_BLOCK_SIZE (replicate 64 None) 0.
Definition zend_ptr_stack_init : zend_ptr_stack P := zend_ptr_stack_init_ex.

Definition ZEND_PTR_STACK_RESIZE_IF_NEEDED (count : Z) stack : zend_ptr_stack P :=
  if max stack <? s32 (top stack + count) then
    let max' := s32 (s32 (max stack * 2) + count) in
    mkPtrStack (top stack) max' (regrow (elements stack) max') (top stack)
  else stack.

(** [*(stack->top_element++) = elem;] *)
Definition put_element (elem : P) stack : res (zend_ptr_stack P) :=
  cs ← set_cell (elements stack) (top_element stack) (Some elem);
  Ok (mkPtrStack (top stack) (max stack) cs (top_element stack + 1)).
(** [*elem = *(--stack->top_element);] *)
Definition take_element : M (zend_ptr_stack P) P := fun stack =>
  p ← cell (elements stack) (top_element stack - 1);
  Ok (p, mkPtrStack (top stack) (max stack) (elements stack) (top_element stack - 1)).
Definition add_top (n : Z) stack : zend_ptr_stack P :=
  mkPtrStack (s32 (top stack + n)) (max stack) (elements stack) (top_element stack).

Fixpoint push_all (elems : list P) stack : res (zend_ptr_stack P) :=
  match elems with
  | [] => Ok stack
  | e :: elems' => stack ← put_element e (add_top 1 stack); push_all elems' stack
  end.
Definition zend_ptr_stack_n_push (elems : list P) stack : res (zend_ptr_stack P) :=
  push_all elems (ZEND_PTR_STACK_RESIZE_IF_NEEDED (Z.of_nat (length elems)) stack).

Fixpoint zend_ptr_stack_n_pop (count : nat) : M (zend_ptr_stack P) (list P) :=
  match count with
  | O => mret []
  | S count' =>
      p ← take_element;
      modify (add_top (-1));;
      ps ← zend_ptr_stack_n_pop count';
      mret (p :: ps)
  end.

Definition zend_ptr_stack_3_push (a b c : P) stack : res (zend_ptr_stack P) :=
  let stack := add_top 3 (ZEND_PTR_STACK_RESIZE_IF_NEEDED 3 stack) in
  stack ← put_element a stack;
  stack ← put_element b stack;
  put_element c stack.
Definition zend_ptr_stack_2_push (a b : P) stack : res (zend_ptr_stack P) :=
  let stack := add_top 2 (ZEND_PTR_STACK_RESIZE_IF_NEEDED 2 stack) in
  stack ← put_element a stack;
  put_element b stack.
Definition zend_ptr_stack_3_pop : M (zend_ptr_stack P) (P * P * P) :=
  a ← take_element;
  b ← take_element;
  c ← take_element;
  modify (add_top (-3));;
  mret (a, b, c).
Definition zend_ptr_stack_2_pop : M (zend_ptr_stack P) (P * P) :=
  a ← take_element;
  b ← take_element;
  modify (add_top (-2));;
  mret (a, b).
Definition zend_ptr_stack_push (p : P) stack : res (zend_ptr_stack P) :=
  put_element p (add_top 1 (ZEND_PTR_STACK_RESIZE_IF_NEEDED 1 stack)).
Definition zend_ptr_stack_pop : M (zend_ptr_stack P) P :=
  modify (add_top (-1));;
  take_element.

(** [while (--i >= 0) func(stack->elements[i]);] *)
Fixpoint apply_down (n : nat) (func : P -> W -> W) (cs : list (option P)) (w : W) : res W :=
  match n with
  | O => Ok w
  | S n' => p ← cell cs (Z.of_nat n'); apply_down n' func cs (func p w)
  end.
Definition zend_ptr_stack_apply (func : P -> W -> W) (w : W) stack : res W :=
  apply_down (Z.to_nat (top stack)) func (elements stack) w.

(** [free] is the effect of [pefree] on the environment. *)
Definition zend_ptr_stack_clean (func free : P -> W -> W) (free_elements : bool) (w : W)
    : M (zend_ptr_stack P) W := fun stack =>
  w ← zend_ptr_stack_apply func w stack;
  w ← (if free_elements then apply_down (Z.to_nat (top stack)) free (elements stack) w else Ok w);
  Ok (w, mkPtrStack 0 (max stack) (elements stack) 0).
Definition zend_ptr_stack_num_elements stack : Z := top stack.
End Ops.
End PtrStack.

Module DynArray.
(** Offsets into [array], in bytes; [unsigned int] arithmetic. *)
Record dynamic_array : Type := mkDynArray {
  array : Z;  (** its size in bytes *)
  element_size : Z;
  current : Z;
  allocated : Z
}.

Definition zend_dynamic_array_init (granted : Z -> bool) (esize sz : Z) : Z * dynamic_array :=
  let n := u32 (sz * esize) in
  if granted n then (0, mkDynArray n esize 0 sz) else (1, mkDynArray 0 esize 0 sz).

Definition zend_dynamic_array_push (da : dynamic_array) : Z * dynamic_array :=
  let da := if current da =? allocated da then
              let al := u32 (allocated da * 2) in
              mkDynArray (u32 (al * element_size da)) (element_size da) (current da) al
            else da in
  (u32 (current da * element_size da),
   mkDynArray (array da) (element_size da) (u32 (current da + 1)) (allocated da)).
Definition zend_dynamic_array_pop (da : dynamic_array) : Z * dynamic_array :=
  let c := u32 (current da - 1) in
  (u32 (c * element_size da), mkDynArray (array da) (element_size da) c (allocated da)).
Definition zend_dynamic_array_get_element (da : dynamic_array) (index : Z) : option Z :=
  if current da <=? index then None else Some (u32 (index * element_size da)).
End DynArray.
