(* ===== verification/ZendStackSpec.v ===== *)
(** * The stacks of the engine implement sequences

    [repr stack vs]: the cells below [top] hold [vs], bottom first, and the
    array has [max] cells. *)

From S2P Require Import Prelude ZendStack.
Open Scope Z_scope.

(** ** Cells *)

Section Cells.
Context {A : Type}.
Implicit Types (cs rest : list (option A)) (xs : list A).

Definition stored xs rest : list (option A) := (Some <$> xs) ++ rest.

Lemma length_stored xs rest : length (stored xs rest) = (length xs + length rest)%nat.
Proof. unfold stored. by rewrite length_app, length_fmap. Qed.

Lemma cell_stored xs rest i x : xs !! i = Some x -> cell (stored xs rest) (Z.of_nat i) = Ok x.
Proof.
  intros Hx. unfold cell, stored. rewrite (proj2 (Z.ltb_ge _ _)) by lia. rewrite Nat2Z.id.
  rewrite lookup_app_l by (rewrite length_fmap; by eapply lookup_lt_Some).
  by rewrite list_lookup_fmap, Hx.
Qed.
Lemma cell_last xs x rest : cell (stored (xs ++ [x]) rest) (Z.of_nat (length xs)) = Ok x.
Proof. apply cell_stored. by rewrite lookup_app_r, Nat.sub_diag by lia. Qed.

(** Writing the first free cell. *)
Lemma set_cell_first xs c rest x :
  set_cell (stored xs (c :: rest)) (Z.of_nat (length xs)) (Some x) = Ok (stored (xs ++ [x]) rest).
Proof.
  unfold set_cell, stored. rewrite (proj2 (Z.ltb_ge _ _)) by lia. rewrite Nat2Z.id.
  rewrite lookup_app_r by (by rewrite length_fmap). rewrite length_fmap, Nat.sub_diag. simpl.
  f_equal. rewrite insert_app_r_alt by (by rewrite length_fmap).
  rewrite length_fmap, Nat.sub_diag. simpl. by rewrite fmap_app, <- app_assoc.
Qed.
(** Clearing the last cell in use. *)
Lemma clear_cell_last xs x rest :
  set_cell (stored (xs ++ [x]) rest) (Z.of_nat (length xs)) None = Ok (stored xs (None :: rest)).
Proof.
  unfold set_cell, stored. rewrite (proj2 (Z.ltb_ge _ _)) by lia. rewrite Nat2Z.id.
  rewrite fmap_app, <- app_assoc. simpl.
  rewrite lookup_app_r by (by rewrite length_fmap). rewrite length_fmap, Nat.sub_diag. simpl.
  f_equal. rewrite insert_app_r_alt by (by rewrite length_fmap).
  by rewrite length_fmap, Nat.sub_diag.
Qed.
Lemma set_cell_mid xs1 x xs2 rest y :
  set_cell (stored (xs1 ++ x :: xs2) rest) (Z.of_nat (length xs1)) (Some y) =
  Ok (stored (xs1 ++ y :: xs2) rest).
Proof.
  unfold set_cell, stored. rewrite (proj2 (Z.ltb_ge _ _)) by lia. rewrite Nat2Z.id.
  rewrite !fmap_app, <- !app_assoc. simpl.
  rewrite lookup_app_r by (by rewrite length_fmap). rewrite length_fmap, Nat.sub_diag. simpl.
  f_equal. rewrite insert_app_r_alt by (by rewrite length_fmap).
  by rewrite length_fmap, Nat.sub_diag.
Qed.
Lemma cell_mid xs1 x xs2 rest :
  cell (stored (xs1 ++ x :: xs2) rest) (Z.of_nat (length xs1)) = Ok x.
Proof. apply cell_stored. by rewrite list_lookup_middle. Qed.

Lemma regrow_stored xs rest n :
  (length xs + length rest <= Z.to_nat n)%nat ->
  exists rest', regrow (stored xs rest) n = stored xs (rest ++ rest') /\
    (length xs + length (rest ++ rest') = Z.to_nat n)%nat.
Proof.
  intros Hn. unfold regrow. rewrite take_ge by (rewrite length_stored; lia).
  exists (replicate (Z.to_nat n - length (stored xs rest)) None).
  split; [unfold stored; by rewrite app_assoc|].
  rewrite length_app, length_replicate, length_stored. lia.
Qed.
End Cells.

(** ** zend_stack *)

Module StackSpec.
Import Stack.
Section Spec.
Context {V W : Type} (granted : Z -> bool).
Implicit Types (stack : zend_stack V) (vs : list V).

Definition repr stack vs : Prop :=
  exists rest, elements stack = Some (stored vs rest) /\
    top stack = Z.of_nat (length vs) /\ max stack = Z.of_nat (length vs + length rest).

(** The array can grow by a block without [max] leaving [int]. *)
Definition room stack : Prop := max stack + STACK_BLOCK_SIZE <= INT_MAX.

Lemma stack_init_spec max0 :
  exists stack, zend_stack_init granted max0 =
      (if granted (8 * STACK_BLOCK_SIZE) then SUCCESS else FAILURE, stack) /\
    if granted (8 * STACK_BLOCK_SIZE) then repr stack [] /\ room stack else elements stack = None.
Proof.
  unfold zend_stack_init. destruct (granted (8 * STACK_BLOCK_SIZE)); eexists; (split; [done|]); [|done].
  split; [by exists (replicate 64 None)|unfold room, STACK_BLOCK_SIZE, INT_MAX; simpl; lia].
Qed.

Lemma stack_push_spec stack vs v sz :
  repr stack vs -> room stack ->
  (exists stack', zend_stack_push granted v sz stack = Ok (Z.of_nat (length vs), stack') /\
     repr stack' (vs ++ [v])) \/
  (zend_stack_push granted v sz stack = Err NullDeref /\ granted sz = false) \/
  (exists stack', zend_stack_push granted v sz stack = Ok (FAILURE, stack') /\
     granted (8 * (max stack + STACK_BLOCK_SIZE)) = false /\ elements stack' = None).
Proof.
  intros (rest & He & Ht & Hm) Hroom. unfold room, STACK_BLOCK_SIZE, INT_MAX in Hroom.
  unfold zend_stack_push, cells_of. rewrite He, Ht. unfold STACK_BLOCK_SIZE.
  assert (s32 (max stack + 64) = max stack + 64) as -> by (apply s32_small; unfold INT_MIN, INT_MAX; lia).
  assert (s32 (Z.of_nat (length vs) + 1) = Z.of_nat (length vs) + 1) as ->
    by (apply s32_small; unfold INT_MIN, INT_MAX; lia).
  assert (u64 (8 * (max stack + 64)) = 8 * (max stack + 64)) as Hu by (apply u64_small; lia).
  rewrite Hm in *.
  destruct rest as [|c rest].
  - cbn [length] in *. rewrite (proj2 (Z.leb_le _ _)) by lia. cbn [andb]. rewrite Hu.
    destruct (granted (8 * _)) eqn:Hg; cbn [negb].
    2:{ right; right. eexists. split; [done|]. split; [done|done]. }
    destruct (regrow_stored vs [] (Z.of_nat (length vs + 0) + 64)) as (rest' & Hrg & Hl); [simpl; lia|].
    cbn [mbind res_bind]. rewrite Hrg.
    destruct (granted sz) eqn:Hgs; cbn [negb]; [|right; left; done].
    left. destruct rest' as [|c rest']; [simpl in Hl; lia|]. cbn [app] in Hl |- *.
    rewrite set_cell_first. eexists. split; [done|]. exists rest'. cbn [elements top max].
    rewrite length_app. cbn [length] in *. split_and!; [done|lia|lia].
  - rewrite (proj2 (Z.leb_gt _ _)) by (simpl; lia). cbn [andb mbind res_bind].
    destruct (granted sz) eqn:Hgs; cbn [negb]; [|right; left; done].
    left. rewrite set_cell_first. eexists. split; [done|]. exists rest. cbn [elements top max].
    rewrite length_app. simpl. split_and!; [done|lia|lia].
Qed.

Lemma stack_top_spec stack vs :
  repr stack vs ->
  zend_stack_top stack = Ok (match last vs with Some v => (SUCCESS, Some v) | None => (FAILURE, None) end).
Proof.
  intros (rest & He & Ht & _). unfold zend_stack_top, cells_of. rewrite Ht, He.
  destruct vs as [|v vs _] using rev_ind; [done|]. rewrite last_snoc, length_app.
  rewrite (proj2 (Z.ltb_lt _ _)) by (simpl; lia). cbn [mbind res_bind].
  replace (Z.of_nat (length vs + length [v]) - 1) with (Z.of_nat (length vs)) by (simpl; lia).
  by rewrite cell_last.
Qed.

Lemma stack_queries_spec stack vs (as_int : V -> Z) :
  repr stack vs ->
  zend_stack_int_top as_int stack = Ok (match last vs with Some v => as_int v | None => FAILURE end) /\
  zend_stack_count stack = Z.of_nat (length vs) /\
  zend_stack_is_empty stack = (match vs with [] => 1 | _ :: _ => 0 end).
Proof.
  intros R. pose proof R as (rest & He & Ht & _). unfold zend_stack_int_top. rewrite (stack_top_spec _ _ R).
  unfold zend_stack_count, zend_stack_is_empty. rewrite Ht.
  split_and!; [by destruct (last vs) as [x|]|done|].
  by destruct vs.
Qed.

Lemma stack_del_top_spec stack vs :
  repr stack vs ->
  exists stack', zend_stack_del_top stack = Ok (SUCCESS, stack') /\ repr stack' (removelast vs).
Proof.
  intros R. pose proof R as (rest & He & Ht & Hm). unfold zend_stack_del_top, cells_of.
  rewrite Ht, He. destruct vs as [|v vs _] using rev_ind; [by exists stack|].
  rewrite removelast_last, length_app in *. rewrite (proj2 (Z.ltb_lt _ _)) by (simpl; lia).
  cbn [mbind res_bind].
  replace (Z.of_nat (length vs + length [v]) - 1) with (Z.of_nat (length vs)) by (simpl; lia).
  rewrite cell_last, clear_cell_last. eexists. split; [done|]. exists (None :: rest).
  cbn [elements top max length] in *. split_and!; [done|done|lia].
Qed.

Lemma free_elements_spec vs : forall pre (rest : list (option V)),
  exists cs, free_elements (length vs) (pre ++ stored vs rest) (Z.of_nat (length pre)) = Ok cs.
Proof.
  induction vs as [|v vs IH]; intros pre rest; [by eexists|].
  cbn [free_elements length]. unfold stored. cbn [fmap list_fmap app].
  unfold cell, set_cell. rewrite (proj2 (Z.ltb_ge _ _)) by lia. rewrite Nat2Z.id.
  rewrite list_lookup_middle by done. cbn [mbind res_bind].
  rewrite insert_app_r_alt by lia. rewrite Nat.sub_diag. cbn [insert list_insert].
  destruct (IH (pre ++ [None]) rest) as [cs Hcs]. exists cs.
  rewrite length_app, <- app_assoc in Hcs. cbn [app length] in Hcs.
  by replace (Z.of_nat (length pre) + 1) with (Z.of_nat (length pre + 1)) by lia.
Qed.
Lemma stack_destroy_spec stack vs :
  repr stack vs ->
  exists stack', zend_stack_destroy stack = Ok (SUCCESS, stack') /\ elements stack' = None.
Proof.
  intros (rest & He & Ht & Hm). unfold zend_stack_destroy. rewrite He, Ht, Nat2Z.id.
  destruct (free_elements_spec vs [] rest) as [cs Hcs]. cbn [app length] in Hcs. change (Z.of_nat 0) with 0 in Hcs. rewrite Hcs. by eexists.
Qed.

(** [zend_stack_apply]: a walk that stops at the first non-zero answer. *)
Fixpoint apply_walk (f : V -> W -> Z * V * W) vs (w : W) : list V * W :=
  match vs with
  | [] => ([], w)
  | v :: vs' =>
      let '(r, v', w') := f v w in
      if negb (r =? 0) then (v' :: vs', w')
      else let '(vs'', w'') := apply_walk f vs' w' in (v' :: vs'', w'')
  end.

Lemma apply_bottomup_spec f vs : forall pre rest w,
  apply_bottomup (length vs) f (stored (pre ++ vs) rest) (Z.of_nat (length pre)) w =
  Ok (stored (pre ++ (apply_walk f vs w).1) rest, (apply_walk f vs w).2).
Proof.
  induction vs as [|v vs IH]; intros pre rest w; [done|].
  cbn [apply_bottomup length apply_walk]. rewrite cell_mid. cbn [mbind res_bind].
  destruct (f v w) as [[r v'] w']. rewrite set_cell_mid. cbn [mbind res_bind].
  destruct (negb (r =? 0)); [done|].
  specialize (IH (pre ++ [v']) rest w'). rewrite length_app, <- !app_assoc in IH.
  cbn [app length] in IH.
  replace (Z.of_nat (length pre) + 1) with (Z.of_nat (length pre + 1)) by lia. rewrite IH.
  by destruct (apply_walk f vs w').
Qed.
Lemma apply_topdown_spec f vs : forall post rest w,
  apply_topdown (length vs) f (stored (vs ++ post) rest) w =
  Ok (stored (reverse (apply_walk f (reverse vs) w).1 ++ post) rest, (apply_walk f (reverse vs) w).2).
Proof.
  induction vs as [|v vs IH] using rev_ind; intros post rest w; [done|].
  rewrite length_app, Nat.add_1_r, reverse_snoc. cbn [apply_topdown apply_walk].
  rewrite <- app_assoc. cbn [app]. rewrite cell_mid. cbn [mbind res_bind].
  destruct (f v w) as [[r v'] w']. rewrite set_cell_mid. cbn [mbind res_bind].
  destruct (negb (r =? 0)); cbn [fst snd].
  - by rewrite reverse_cons, reverse_involutive, <- app_assoc.
  - rewrite IH. destruct (apply_walk f (reverse vs) w') as [vs' w'']. cbn [fst snd].
    by rewrite reverse_cons, <- app_assoc.
Qed.

Lemma apply_walk_length f vs : forall w, length (apply_walk f vs w).1 = length vs.
Proof.
  induction vs as [|v vs IH]; intros w; [done|]. simpl. destruct (f v w) as [[r v'] w'].
  case_match; [done|]. specialize (IH w'). destruct (apply_walk f vs w'). simpl in *. by f_equal.
Qed.

Lemma stack_apply_spec stack vs (f : V -> W -> Z * V * W) (w : W) (down : bool) :
  repr stack vs ->
  let vs1 := if down then reverse (apply_walk f (reverse vs) w).1 else (apply_walk f vs w).1 in
  let w1 := if down then (apply_walk f (reverse vs) w).2 else (apply_walk f vs w).2 in
  exists stack', zend_stack_apply (if down then ZEND_STACK_APPLY_TOPDOWN
      else ZEND_STACK_APPLY_BOTTOMUP) f w stack = Ok (w1, stack') /\ repr stack' vs1.
Proof.
  intros R vs1 w1. pose proof R as (rest & He & Ht & Hm). unfold zend_stack_apply, cells_of.
  rewrite He, Ht, Nat2Z.id.
  destruct (decide (vs = [])) as [->|Hne].
  { exists stack. unfold vs1, w1. simpl. by destruct down. }
  rewrite (proj2 (Z.ltb_lt _ _)) by (destruct vs; [done|simpl; lia]).
  assert (Hlen : length vs1 = length vs).
  { unfold vs1. destruct down; rewrite ?length_reverse, apply_walk_length, ?length_reverse; done. }
  assert (Hrepr : repr (mkStack (Z.of_nat (length vs)) (max stack) (Some (stored vs1 rest))) vs1).
  { exists rest. cbn [elements top max]. rewrite Hlen. done. }
  destruct down.
  - change (ZEND_STACK_APPLY_TOPDOWN =? ZEND_STACK_APPLY_TOPDOWN) with true.
    pose proof (apply_topdown_spec f vs [] rest w) as Hrun. rewrite !app_nil_r in Hrun.
    cbn [negb orb mbind res_bind]. rewrite Hrun. by eexists.
  - change (ZEND_STACK_APPLY_BOTTOMUP =? ZEND_STACK_APPLY_TOPDOWN) with false.
    change (ZEND_STACK_APPLY_BOTTOMUP =? ZEND_STACK_APPLY_BOTTOMUP) with true.
    pose proof (apply_bottomup_spec f vs [] rest w) as Hrun.
    cbn [negb orb mbind res_bind app length] in *. change (Z.of_nat 0) with 0 in Hrun.
    rewrite Hrun. by eexists.
Qed.

(** What an apply function [run] does to a stack that holds [vs], by the
    type it is given. *)
Definition applies vs (f : V -> W -> Z * V * W) (w : W) (run : Z -> res (W * zend_stack V)) stack : Prop :=
  (exists stack', run ZEND_STACK_APPLY_TOPDOWN = Ok ((apply_walk f (reverse vs) w).2, stack') /\
     repr stack' (reverse (apply_walk f (reverse vs) w).1)) /\
  (exists stack', run ZEND_STACK_APPLY_BOTTOMUP = Ok ((apply_walk f vs w).2, stack') /\
     repr stack' (apply_walk f vs w).1) /\
  (forall type, type <> ZEND_STACK_APPLY_TOPDOWN -> type <> ZEND_STACK_APPLY_BOTTOMUP ->
     run type = Ok (w, stack)).
Lemma stack_applies stack vs f (w : W) :
  repr stack vs -> applies vs f w (fun type => zend_stack_apply type f w stack) stack.
Proof.
  intros R. split; [exact (stack_apply_spec stack vs f w true R)|].
  split; [exact (stack_apply_spec stack vs f w false R)|]. intros type H1 H2. unfold zend_stack_apply.
  by rewrite (proj2 (Z.eqb_neq _ _) H1), (proj2 (Z.eqb_neq _ _) H2), orb_true_r.
Qed.
End Spec.
End StackSpec.

(** ** zend_ptr_stack *)

Module PtrStackSpec.
Import PtrStack.
Section Spec.
Context {P W : Type}.
Implicit Types (stack : zend_ptr_stack P) (ps : list P).

(** [top_element] is kept in step with [top]. *)
Definition repr stack ps : Prop :=
  exists rest, elements stack = stored ps rest /\ top stack = Z.of_nat (length ps) /\
    top_element stack = top stack /\ max stack = Z.of_nat (length ps + length rest) /\
    max stack <= INT_MAX.

(** In the middle of an operation [top] is ahead of [top_element] by [n],
    and there is room for [k] more. *)
Definition mid stack ps (n : Z) (k : nat) : Prop :=
  exists rest, elements stack = stored ps rest /\ top_element stack = Z.of_nat (length ps) /\
    top stack = Z.of_nat (length ps) + n /\ max stack = Z.of_nat (length ps + length rest) /\
    max stack <= INT_MAX /\ (k <= length rest)%nat.

Lemma repr_mid stack ps : mid stack ps 0 0 <-> repr stack ps.
Proof.
  split; intros (rest & He & H1 & H2 & H3); exists rest; split_and!; try done; try lia.
Qed.
Lemma ptr_stack_init_spec : repr (@zend_ptr_stack_init P) [].
Proof. by exists (replicate 64 None). Qed.

(** The array can grow for [count] more without [max] leaving [int]. *)
Definition room (count : Z) stack : Prop := 2 * max stack + count <= INT_MAX.
Lemma INT_bounds : INT_MIN <= 0 <= INT_MAX.
Proof. by vm_compute. Qed.

Lemma ptr_stack_resize_spec stack ps n :
  repr stack ps -> room (Z.of_nat n) stack -> mid (ZEND_PTR_STACK_RESIZE_IF_NEEDED (Z.of_nat n) stack) ps 0 n.
Proof.
  intros (rest & He & Ht & Hte & Hm & Hmax) Hroom. unfold room in Hroom. unfold ZEND_PTR_STACK_RESIZE_IF_NEEDED.
  pose proof INT_bounds. rewrite (s32_small (top stack + _)) by lia.
  destruct (Z.ltb_spec (max stack) (top stack + Z.of_nat n)) as [Hlt|Hge].
  - rewrite He, (s32_small (max stack * 2)), s32_small by lia. destruct (regrow_stored ps rest (max stack * 2 + Z.of_nat n)) as (rest' & -> & Hl); [lia|].
    exists (rest ++ rest'). cbn [elements top top_element max]. split_and!; try done; try lia.
  - exists rest. split_and!; try done; lia.
Qed.
Lemma add_top_spec stack ps n k d :
  mid stack ps n k -> 0 <= Z.of_nat (length ps) + n + d -> n + d <= Z.of_nat k -> mid (add_top d stack) ps (n + d) k.
Proof.
  intros (rest & He & H1 & H2 & H3 & H4 & H5) Hlo Hhi. pose proof INT_bounds. exists rest.
  unfold add_top. cbn [elements top top_element max]. rewrite s32_small by lia. split_and!; try done; lia.
Qed.

Lemma ptr_stack_put_spec stack ps n k p :
  mid stack ps n (S k) ->
  exists stack', put_element p stack = Ok stack' /\ mid stack' (ps ++ [p]) (n - 1) k.
Proof.
  intros (rest & He & H1 & H2 & H3 & Hmax & H4). unfold put_element. rewrite He, H1.
  destruct rest as [|c rest]; [simpl in H4; lia|]. rewrite set_cell_first.
  eexists. split; [done|]. exists rest. cbn [elements top top_element max] in *.
  rewrite length_app. cbn [length] in *. split_and!; try done; lia.
Qed.
Lemma take_spec stack ps n p :
  mid stack (ps ++ [p]) n 0 ->
  exists stack', take_element stack = Ok (p, stack') /\ mid stack' ps (n + 1) 0.
Proof.
  intros (rest & He & H1 & H2 & H3 & Hmax & H4). unfold take_element. rewrite length_app in *.
  replace (top_element stack - 1) with (Z.of_nat (length ps)) by (rewrite H1; simpl; lia).
  rewrite He, cell_last. eexists. split; [done|]. exists (Some p :: rest).
  cbn [elements top top_element max length] in *. split_and!; try lia.
  unfold stored. rewrite fmap_app, <- app_assoc. done.
Qed.

Lemma push_all_spec elems : forall stack ps,
  mid stack ps 0 (length elems) ->
  exists stack', push_all elems stack = Ok stack' /\ repr stack' (ps ++ elems).
Proof.
  induction elems as [|e elems IH]; intros stack ps Hm.
  - exists stack. rewrite app_nil_r. split; [done|by apply repr_mid].
  - cbn [push_all length] in *. apply (add_top_spec _ _ _ _ 1) in Hm; [|lia..].
    destruct (ptr_stack_put_spec _ _ _ _ e Hm) as (s1 & Hrun & Hm1). rewrite (res_bind_ok _ _ _ Hrun).
    destruct (IH s1 (ps ++ [e]) Hm1) as (s2 & Hrun2 & R2). exists s2. by rewrite <- app_assoc in R2.
Qed.
Lemma n_push_spec stack ps elems :
  repr stack ps -> room (Z.of_nat (length elems)) stack ->
  exists stack', zend_ptr_stack_n_push elems stack = Ok stack' /\ repr stack' (ps ++ elems).
Proof. intros R Hroom. apply push_all_spec. by apply ptr_stack_resize_spec. Qed.

Lemma n_pop_spec elems : forall stack ps,
  repr stack (ps ++ reverse elems) ->
  exists stack', zend_ptr_stack_n_pop (length elems) stack = Ok (elems, stack') /\ repr stack' ps.
Proof.
  induction elems as [|e elems IH]; intros stack ps R.
  - exists stack. by rewrite app_nil_r in R.
  - rewrite reverse_cons, app_assoc in R. apply repr_mid, take_spec in R as (s1 & Hrun & Hm1).
    cbn [zend_ptr_stack_n_pop length]. erewrite mbind_ok by exact Hrun. rewrite mbind_modify.
    apply (add_top_spec _ _ _ _ (-1)) in Hm1; [|lia..]. apply repr_mid in Hm1.
    destruct (IH _ ps Hm1) as (s2 & Hrun2 & R2). erewrite mbind_ok by exact Hrun2. by exists s2.
Qed.

(** The unrolled variants are the general ones. *)
Lemma push_fixed stack ps :
  repr stack ps -> room 3 stack ->
  (forall a, exists s', zend_ptr_stack_push a stack = Ok s' /\ repr s' (ps ++ [a])) /\
  (forall a b, exists s', zend_ptr_stack_2_push a b stack = Ok s' /\ repr s' (ps ++ [a; b])) /\
  (forall a b c, exists s', zend_ptr_stack_3_push a b c stack = Ok s' /\ repr s' (ps ++ [a; b; c])).
Proof.
  intros R Hroom. split_and!; intros.
  - unfold zend_ptr_stack_push. pose proof (ptr_stack_resize_spec _ _ 1 R ltac:(unfold room in *; lia)) as Hm.
    apply (add_top_spec _ _ _ _ 1) in Hm; [|lia..].
    destruct (ptr_stack_put_spec _ _ _ _ a Hm) as (s1 & Hrun & Hm1).
    exists s1. split; [exact Hrun|]. by apply repr_mid.
  - unfold zend_ptr_stack_2_push. pose proof (ptr_stack_resize_spec _ _ 2 R ltac:(unfold room in *; lia)) as Hm.
    apply (add_top_spec _ _ _ _ 2) in Hm; [|lia..].
    destruct (ptr_stack_put_spec _ _ _ _ a Hm) as (s1 & Hrun & Hm1). cbv zeta. rewrite (res_bind_ok _ _ _ Hrun).
    destruct (ptr_stack_put_spec _ _ _ _ b Hm1) as (s2 & Hrun2 & Hm2). rewrite <- app_assoc in Hm2.
    exists s2. split; [exact Hrun2|]. by apply repr_mid.
  - unfold zend_ptr_stack_3_push. pose proof (ptr_stack_resize_spec _ _ 3 R ltac:(unfold room in *; lia)) as Hm.
    apply (add_top_spec _ _ _ _ 3) in Hm; [|lia..].
    destruct (ptr_stack_put_spec _ _ _ _ a Hm) as (s1 & Hrun & Hm1). cbv zeta. rewrite (res_bind_ok _ _ _ Hrun).
    destruct (ptr_stack_put_spec _ _ _ _ b Hm1) as (s2 & Hrun2 & Hm2). rewrite (res_bind_ok _ _ _ Hrun2).
    destruct (ptr_stack_put_spec _ _ _ _ c Hm2) as (s3 & Hrun3 & Hm3). rewrite <- !app_assoc in Hm3.
    exists s3. split; [exact Hrun3|]. by apply repr_mid.
Qed.
Lemma pop_fixed stack ps :
  (forall a, repr stack (ps ++ [a]) ->
     exists s', zend_ptr_stack_pop stack = Ok (a, s') /\ repr s' ps) /\
  (forall a b, repr stack (ps ++ [b; a]) ->
     exists s', zend_ptr_stack_2_pop stack = Ok (a, b, s') /\ repr s' ps) /\
  (forall a b c, repr stack (ps ++ [c; b; a]) ->
     exists s', zend_ptr_stack_3_pop stack = Ok (a, b, c, s') /\ repr s' ps).
Proof.
  split_and!; intros.
  - unfold zend_ptr_stack_pop. rewrite mbind_modify.
    match goal with R : repr _ _ |- _ => apply repr_mid, (add_top_spec _ _ _ _ (-1)) in R;
      [apply take_spec in R as (s1 & Hrun & Hm1)|rewrite ?length_app; simpl; lia..] end.
    exists s1. split; [exact Hrun|]. by apply repr_mid.
  - match goal with R : repr _ _ |- _ => apply repr_mid in R;
      change [b; a] with ([b] ++ [a]) in R; rewrite app_assoc in R;
      apply take_spec in R as (s1 & Hrun & Hm1) end.
    apply take_spec in Hm1 as (s2 & Hrun2 & Hm2). unfold zend_ptr_stack_2_pop.
    erewrite mbind_ok by exact Hrun. erewrite mbind_ok by exact Hrun2. rewrite mbind_modify.
    eexists. split; [done|]. apply repr_mid. apply (add_top_spec _ _ _ _ (-2)) in Hm2; [done|lia..].
  - match goal with R : repr _ _ |- _ => apply repr_mid in R;
      change [c; b; a] with ([c] ++ [b] ++ [a]) in R; rewrite !app_assoc in R;
      apply take_spec in R as (s1 & Hrun & Hm1) end.
    apply take_spec in Hm1 as (s2 & Hrun2 & Hm2). apply take_spec in Hm2 as (s3 & Hrun3 & Hm3).
    unfold zend_ptr_stack_3_pop.
    erewrite mbind_ok by exact Hrun. erewrite mbind_ok by exact Hrun2.
    erewrite mbind_ok by exact Hrun3. rewrite mbind_modify.
    eexists. split; [done|]. apply repr_mid. apply (add_top_spec _ _ _ _ (-3)) in Hm3; [done|lia..].
Qed.

Lemma apply_down_spec (func : P -> W -> W) ps : forall post rest w,
  apply_down (length ps) func (stored (ps ++ post) rest) w =
  Ok (fold_left (fun w p => func p w) (reverse ps) w).
Proof.
  induction ps as [|p ps IH] using rev_ind; intros post rest w; [done|].
  rewrite length_app, Nat.add_1_r, reverse_snoc. cbn [apply_down fold_left].
  rewrite <- app_assoc. cbn [app]. rewrite cell_mid. cbn [mbind res_bind]. apply IH.
Qed.

Lemma ptr_stack_clean_spec stack ps func free fe (w : W) :
  repr stack ps ->
  let w1 := fold_left (fun w p => func p w) (reverse ps) w in
  exists stack', zend_ptr_stack_clean func free fe w stack =
      Ok (if fe : bool then fold_left (fun w p => free p w) (reverse ps) w1 else w1, stack') /\
    repr stack' [].
Proof.
  intros (rest & He & Ht & Hte & Hm & Hmax). cbv zeta.
  unfold zend_ptr_stack_clean, zend_ptr_stack_apply. rewrite He, Ht, Nat2Z.id.
  pose proof (fun f => apply_down_spec f ps [] rest) as Hap. rewrite app_nil_r in Hap.
  rewrite (res_bind_ok _ _ _ (Hap func w)).
  assert (Hr : repr (mkPtrStack 0 (max stack) (stored ps rest) 0) []).
  { exists (stored ps rest). cbn [elements top top_element max]. rewrite length_stored.
    split_and!; done. }
  destruct fe.
  - rewrite (res_bind_ok _ _ _ (Hap free _)). by eexists.
  - cbn [mbind res_bind]. by eexists.
Qed.
End Spec.
End PtrStackSpec.

(** ** dynamic_array *)

Module DynArraySpec.
Import DynArray.

(** Slots up to [current] are inside the array, and sizes are computed
    without wrap-around. *)
Definition da_ok (da : dynamic_array) : Prop :=
  0 <= current da <= allocated da /\ 0 < allocated da /\ 0 < element_size da /\
  array da = allocated da * element_size da /\ allocated da * element_size da < 2 ^ 31.

Lemma array_push_spec da :
  da_ok da ->
  let '(off, da') := zend_dynamic_array_push da in
  off = current da * element_size da /\ off + element_size da <= array da' /\
  current da' = current da + 1 /\ element_size da' = element_size da /\
  (allocated da' = allocated da \/ current da = allocated da /\ allocated da' = 2 * allocated da).
Proof.
  intros (Hc & Ha & He & Har & Hm). unfold zend_dynamic_array_push.
  assert (allocated da < 2 ^ 31) by nia.
  destruct (Z.eqb_spec (current da) (allocated da)) as [Hfull|Hroom];
    cbn [current element_size allocated array].
  - rewrite (u32_small (allocated da * 2)) by lia.
    rewrite (u32_small (_ * 2 * _)) by nia. rewrite (u32_small (current da * _)) by nia.
    rewrite u32_small by lia. split_and!; try nia; done.
  - rewrite (u32_small (current da * _)) by nia. rewrite u32_small by lia.
    split_and!; try nia; done.
Qed.

(** A pushed slot is the one popped and looked up. *)
Lemma push_pop da :
  da_ok da ->
  let '(off, da') := zend_dynamic_array_push da in
  zend_dynamic_array_get_element da' (current da) = Some off /\
  fst (zend_dynamic_array_pop da') = off /\ current (snd (zend_dynamic_array_pop da')) = current da.
Proof.
  intros Hok. pose proof (array_push_spec da Hok) as Hp.
  destruct (zend_dynamic_array_push da) as [off da']. destruct Hp as (-> & _ & Hc & Hes & _).
  destruct Hok as (Hcr & Ha & He & Har & Hm). assert (allocated da < 2 ^ 31) by nia.
  unfold zend_dynamic_array_get_element, zend_dynamic_array_pop. cbn [fst snd current].
  rewrite Hc, Hes. rewrite (proj2 (Z.leb_gt _ _)) by lia.
  replace (current da + 1 - 1) with (current da) by lia.
  rewrite (u32_small (current da)) by lia. rewrite (u32_small (_ * _)) by nia. done.
Qed.
End DynArraySpec.
