(* ===== verification/ZendStackThms.v ===== *)
(** * Theorems about zend_stack.c, zend_ptr_stack.c and zend_dynamic_array.c *)

From S2P Require Import Prelude ZendStack ZendStackSpec.
Open Scope Z_scope.

Definition all_granted (size : Z) : bool := true.

(** [zend_ptr_stack_n_push] pushes its arguments in order, growing the
    array as needed (as long as its size stays an [int]) and keeping [top_element] in step with [top]; the pops
    give back in reverse what was pushed; the unrolled variants for one, two
    and three pointers do the same; [zend_ptr_stack_clean] visits every
    pointer from the top and empties the stack. *)
Theorem ptr_stack_round_trip {P W : Type} (stack : PtrStack.zend_ptr_stack P) ps elems
    (func free : P -> W -> W) fe (w : W) :
  PtrStackSpec.repr stack ps -> PtrStackSpec.room (Z.max 3 (Z.of_nat (length elems))) stack ->
  (exists s1 s2, PtrStack.zend_ptr_stack_n_push elems stack = Ok s1 /\
     PtrStackSpec.repr s1 (ps ++ elems) /\
     PtrStack.zend_ptr_stack_n_pop (length elems) s1 = Ok (reverse elems, s2) /\
     PtrStackSpec.repr s2 ps) /\
  (forall a b c, exists s1 s2, PtrStack.zend_ptr_stack_3_push a b c stack = Ok s1 /\
     PtrStack.zend_ptr_stack_3_pop s1 = Ok (c, b, a, s2) /\ PtrStackSpec.repr s2 ps) /\
  (forall a b, exists s1 s2, PtrStack.zend_ptr_stack_2_push a b stack = Ok s1 /\
     PtrStack.zend_ptr_stack_2_pop s1 = Ok (b, a, s2) /\ PtrStackSpec.repr s2 ps) /\
  (forall a, exists s1 s2, PtrStack.zend_ptr_stack_push a stack = Ok s1 /\
     PtrStack.zend_ptr_stack_pop s1 = Ok (a, s2) /\ PtrStackSpec.repr s2 ps) /\
  (let w1 := fold_left (fun w p => func p w) (reverse ps) w in
   exists stack', PtrStack.zend_ptr_stack_clean func free fe w stack =
     Ok (if fe : bool then fold_left (fun w p => free p w) (reverse ps) w1 else w1, stack') /\
   PtrStackSpec.repr stack' []).
Proof.
  unfold PtrStackSpec.room. intros R Hroom.
  destruct (PtrStackSpec.push_fixed stack ps R) as (H1 & H2 & H3); [unfold PtrStackSpec.room; lia|]. split_and!.
  - destruct (PtrStackSpec.n_push_spec stack ps elems R) as (s1 & Hs1 & R1); [unfold PtrStackSpec.room; lia|]. exists s1.
    destruct (PtrStackSpec.n_pop_spec (reverse elems) s1 ps) as (s2 & Hs2 & R2).
    { by rewrite reverse_involutive. }
    rewrite length_reverse in Hs2. by exists s2.
  - intros a b c. destruct (H3 a b c) as (s1 & Hs1 & R1). exists s1.
    destruct (PtrStackSpec.pop_fixed s1 ps) as (_ & _ & Hp). destruct (Hp c b a R1) as (s2 & Hs2 & R2).
    by exists s2.
  - intros a b. destruct (H2 a b) as (s1 & Hs1 & R1). exists s1.
    destruct (PtrStackSpec.pop_fixed s1 ps) as (_ & Hp & _). destruct (Hp b a R1) as (s2 & Hs2 & R2).
    by exists s2.
  - intros a. destruct (H1 a) as (s1 & Hs1 & R1). exists s1.
    destruct (PtrStackSpec.pop_fixed s1 ps) as (Hp & _ & _). destruct (Hp a R1) as (s2 & Hs2 & R2).
    by exists s2.
  - by apply PtrStackSpec.ptr_stack_clean_spec.
Qed.
Lemma ptr_stack_round_trip_witness :
  exists s1 s2, PtrStackSpec.repr (@PtrStack.zend_ptr_stack_init Z) [] /\
     PtrStack.zend_ptr_stack_n_push [1; 2; 3] PtrStack.zend_ptr_stack_init = Ok s1 /\
     PtrStackSpec.repr s1 [1; 2; 3] /\
     PtrStack.zend_ptr_stack_n_pop 3 s1 = Ok ([3; 2; 1], s2) /\ PtrStackSpec.repr s2 [].
Proof.
  destruct (ptr_stack_round_trip (@PtrStack.zend_ptr_stack_init Z) [] [1; 2; 3] (fun _ w => w) (fun _ w => w)
    false tt PtrStackSpec.ptr_stack_init_spec ltac:(vm_compute; congruence)) as ((s1 & s2 & H) & _).
  exists s1, s2. split; [apply PtrStackSpec.ptr_stack_init_spec|exact H].
Defined.

(** A slot handed out by [zend_dynamic_array_push] lies wholly within
    the array, which doubles when it is full, and is the one that
    [zend_dynamic_array_get_element] finds and [zend_dynamic_array_pop]
    takes back. *)
Theorem dynamic_array_slots (da : DynArray.dynamic_array) :
  DynArraySpec.da_ok da ->
  let '(off, da') := DynArray.zend_dynamic_array_push da in
  off = DynArray.current da * DynArray.element_size da /\
  off + DynArray.element_size da <= DynArray.array da' /\
  DynArray.current da' = DynArray.current da + 1 /\
  (DynArray.allocated da' = DynArray.allocated da \/
   DynArray.current da = DynArray.allocated da /\ DynArray.allocated da' = 2 * DynArray.allocated da) /\
  DynArray.zend_dynamic_array_get_element da' (DynArray.current da) = Some off /\
  fst (DynArray.zend_dynamic_array_pop da') = off /\
  DynArray.current (snd (DynArray.zend_dynamic_array_pop da')) = DynArray.current da.
Proof.
  intros Hok. pose proof (DynArraySpec.array_push_spec da Hok) as H1.
  pose proof (DynArraySpec.push_pop da Hok) as H2.
  destruct (DynArray.zend_dynamic_array_push da) as [off da']. tauto.
Qed.
Definition sample_array : DynArray.dynamic_array := (DynArray.zend_dynamic_array_init all_granted 8 4).2.
Lemma dynamic_array_slots_witness :
  DynArraySpec.da_ok sample_array /\ fst (DynArray.zend_dynamic_array_push sample_array) = 0.
Proof.
  assert (Hok : DynArraySpec.da_ok sample_array) by (unfold DynArraySpec.da_ok, sample_array, DynArray.zend_dynamic_array_init; vm_compute; split_and!; congruence).
  split; [exact Hok|]. exact (proj1 (dynamic_array_slots sample_array Hok)).
Defined.
