(* ===== verification/Calendar.v ===== *)
(** * ext/calendar: gregor.c, julian.c, french.c, jewish.c, dow.c

    Conversions between serial day numbers ([long]) and dates.  [int]
    arithmetic whose result can leave the type is written with [s32] (the
    wrap-around of two's complement); the intermediate values that cannot are
    written plainly.  A date is returned as the triple of [*pYear],
    [*pMonth], [*pDay]. *)

From S2P Require Import Prelude.
Open Scope Z_scope.

Definition DAYS_PER_5_MONTHS : Z := 153.
Definition DAYS_PER_4_YEARS : Z := 1461.

(** The tail shared by [SdnToGregorian] and [SdnToJulian]: from the day of
    the year that starts in March to month and day, then "Convert to the
    normal beginning of the year" and "Adjust to the B.C./A.D. numbering". *)
Definition month_and_day (year dayOfYear : Z) : Z * Z * Z :=
  let temp := dayOfYear * 5 - 3 in
  let month := temp /c DAYS_PER_5_MONTHS in
  let day := (temp %c DAYS_PER_5_MONTHS) /c 5 + 1 in
  let '(year, month) := if month <? 10 then (year, month + 3) else (s32 (year + 1), month - 9) in
  let year := s32 (year - 4800) in
  let year := if year <=? 0 then s32 (year - 1) else year in
  (year, month, day).

(** "Make year always a positive number" and "Adjust the start of the year". *)
Definition march_year (inputYear inputMonth : Z) : Z * Z :=
  let year := if inputYear <? 0 then s32 (inputYear + 4801) else s32 (inputYear + 4800) in
  if 2 <? inputMonth then (year, inputMonth - 3) else (s32 (year - 1), inputMonth + 9).

(** ** gregor.c *)

Definition GREGOR_SDN_OFFSET : Z := 32045.
Definition DAYS_PER_400_YEARS : Z := 146097.

Definition SdnToGregorian (sdn : Z) : Z * Z * Z :=
  if (sdn <=? 0) || ((LONG_MAX - 4 * GREGOR_SDN_OFFSET) /c 4 <? sdn) then (0, 0, 0)
  else
    let temp := (sdn + GREGOR_SDN_OFFSET) * 4 - 1 in
    let century := s32 (temp /c DAYS_PER_400_YEARS) in
    let temp := ((temp %c DAYS_PER_400_YEARS) /c 4) * 4 + 3 in
    let year := s32 (s32 (century * 100) + temp /c DAYS_PER_4_YEARS) in
    let dayOfYear := (temp %c DAYS_PER_4_YEARS) /c 4 + 1 in
    month_and_day year dayOfYear.

Definition GregorianToSdn (inputYear inputMonth inputDay : Z) : Z :=
  if (inputYear =? 0) || (inputYear <? -4714) ||
     (inputMonth <=? 0) || (12 <? inputMonth) ||
     (inputDay <=? 0) || (31 <? inputDay) then 0
  else if (inputYear =? -4714) &&
     ((inputMonth <? 11) || ((inputMonth =? 11) && (inputDay <? 25))) then 0
  else
    let '(year, month) := march_year inputYear inputMonth in
    s32 (s32 ((year /c 100) * DAYS_PER_400_YEARS) /c 4
         + ((year %c 100) * DAYS_PER_4_YEARS) /c 4
         + (month * DAYS_PER_5_MONTHS + 2) /c 5
         + inputDay
         - GREGOR_SDN_OFFSET).

Definition MonthNameShort : list (list byte) :=
  [bs ""; bs "Jan"; bs "Feb"; bs "Mar"; bs "Apr"; bs "May"; bs "Jun"; bs "Jul"; bs "Aug";
   bs "Sep"; bs "Oct"; bs "Nov"; bs "Dec"].
Definition MonthNameLong : list (list byte) :=
  [bs ""; bs "January"; bs "February"; bs "March"; bs "April"; bs "May"; bs "June"; bs "July";
   bs "August"; bs "September"; bs "October"; bs "November"; bs "December"].

(** ** julian.c *)

Definition JULIAN_SDN_OFFSET : Z := 32083.

Definition SdnToJulian (sdn : Z) : Z * Z * Z :=
  if sdn <=? 0 then (0, 0, 0)
  else if ((LONG_MAX - JULIAN_SDN_OFFSET * 4 + 1) /c 4 <? sdn) || (sdn <? LONG_MIN /c 4)
  then (0, 0, 0)
  else
    let temp := sdn * 4 + (JULIAN_SDN_OFFSET * 4 - 1) in
    let yearl := temp /c DAYS_PER_4_YEARS in
    if (INT_MAX <? yearl) || (yearl <? INT_MIN) then (0, 0, 0)
    else
      let year := s32 yearl in
      let dayOfYear := (temp %c DAYS_PER_4_YEARS) /c 4 + 1 in
      month_and_day year dayOfYear.

Definition JulianToSdn (inputYear inputMonth inputDay : Z) : Z :=
  if (inputYear =? 0) || (inputYear <? -4713) ||
     (inputMonth <=? 0) || (12 <? inputMonth) ||
     (inputDay <=? 0) || (31 <? inputDay) then 0
  else if (inputYear =? -4713) && ((inputMonth =? 1) && (inputDay =? 1)) then 0
  else
    let '(year, month) := march_year inputYear inputMonth in
    s32 (s32 (year * DAYS_PER_4_YEARS) /c 4
         + (month * DAYS_PER_5_MONTHS + 2) /c 5
         + inputDay
         - JULIAN_SDN_OFFSET).

(** ** french.c *)

Definition FRENCH_SDN_OFFSET : Z := 2375474.
Definition DAYS_PER_MONTH : Z := 30.
Definition FIRST_VALID : Z := 2375840.
Definition LAST_VALID : Z := 2380952.

Definition SdnToFrench (sdn : Z) : Z * Z * Z :=
  if (sdn <? FIRST_VALID) || (LAST_VALID <? sdn) then (0, 0, 0)
  else
    let temp := (sdn - FRENCH_SDN_OFFSET) * 4 - 1 in
    let pYear := temp /c DAYS_PER_4_YEARS in
    let dayOfYear := (temp %c DAYS_PER_4_YEARS) /c 4 in
    (pYear, dayOfYear /c DAYS_PER_MONTH + 1, dayOfYear %c DAYS_PER_MONTH + 1).

Definition FrenchToSdn (year month day : Z) : Z :=
  if (year <? 1) || (14 <? year) || (month <? 1) || (13 <? month) || (day <? 1) || (30 <? day)
  then 0
  else (year * DAYS_PER_4_YEARS) /c 4 + (month - 1) * DAYS_PER_MONTH + day + FRENCH_SDN_OFFSET.

Definition FrenchMonthName : list (list byte) :=
  [bs ""; bs "Vendemiaire"; bs "Brumaire"; bs "Frimaire"; bs "Nivose"; bs "Pluviose"; bs "Ventose";
   bs "Germinal"; bs "Floreal"; bs "Prairial"; bs "Messidor"; bs "Thermidor"; bs "Fructidor";
   bs "Extra"].

(** ** dow.c *)

Definition DayOfWeek (sdn : Z) : Z :=
  let dow := s64 (sdn + 1) %c 7 in
  if 0 <=? dow then dow else dow + 7.

Definition DayNameShort : list (list byte) :=
  [bs "Sun"; bs "Mon"; bs "Tue"; bs "Wed"; bs "Thu"; bs "Fri"; bs "Sat"].
Definition DayNameLong : list (list byte) :=
  [bs "Sunday"; bs "Monday"; bs "Tuesday"; bs "Wednesday"; bs "Thursday"; bs "Friday";
   bs "Saturday"].

(** ** jewish.c *)

Definition HALAKIM_PER_HOUR : Z := 1080.
Definition HALAKIM_PER_DAY : Z := 25920.
Definition HALAKIM_PER_LUNAR_CYCLE : Z := 29 * HALAKIM_PER_DAY + 13753.
Definition HALAKIM_PER_METONIC_CYCLE : Z := HALAKIM_PER_LUNAR_CYCLE * (12 * 19 + 7).
Definition JEWISH_SDN_OFFSET : Z := 347997.
Definition JEWISH_SDN_MAX : Z := 324542846.
Definition NEW_MOON_OF_CREATION : Z := 31524.
Definition SUNDAY : Z := 0.
Definition MONDAY : Z := 1.
Definition TUESDAY : Z := 2.
Definition WEDNESDAY : Z := 3.
Definition FRIDAY : Z := 5.
Definition NOON : Z := 18 * HALAKIM_PER_HOUR.
Definition AM3_11_20 : Z := 9 * HALAKIM_PER_HOUR + 204.
Definition AM9_32_43 : Z := 15 * HALAKIM_PER_HOUR + 589.

Definition monthsPerYear : list Z :=
  [12; 12; 13; 12; 12; 13; 12; 13; 12; 12; 13; 12; 12; 13; 12; 12; 13; 12; 13].
Definition yearOffset : list Z :=
  [0; 12; 24; 37; 49; 61; 74; 86; 99; 111; 123; 136; 148; 160; 173; 185; 197; 210; 222].
(** [array[i]] of a constant array. *)
Definition at_index {A} (l : list A) (i : Z) : res A :=
  if i <? 0 then Err OutOfBounds
  else match l !! Z.to_nat i with Some x => Ok x | None => Err OutOfBounds end.

Definition JewishMonthName : list (list byte) :=
  [bs ""; bs "Tishri"; bs "Heshvan"; bs "Kislev"; bs "Tevet"; bs "Shevat"; bs "AdarI"; bs "AdarII";
   bs "Nisan"; bs "Iyyar"; bs "Sivan"; bs "Tammuz"; bs "Av"; bs "Elul"].

Definition Tishri1 (metonicYear moladDay moladHalakim : Z) : Z :=
  let tishri1 := moladDay in
  let dow := tishri1 %c 7 in
  let year_is y := metonicYear =? y in
  let leapYear := year_is 2 || year_is 5 || year_is 7 || year_is 10 || year_is 13 ||
    year_is 16 || year_is 18 in
  let lastWasLeapYear := year_is 3 || year_is 6 || year_is 8 || year_is 11 || year_is 14 ||
    year_is 17 || year_is 0 in
  let '(tishri1, dow) :=
    if (NOON <=? moladHalakim) ||
       (negb leapYear && (dow =? TUESDAY) && (AM3_11_20 <=? moladHalakim)) ||
       (lastWasLeapYear && (dow =? MONDAY) && (AM9_32_43 <=? moladHalakim))
    then (tishri1 + 1, if dow + 1 =? 7 then 0 else dow + 1)
    else (tishri1, dow) in
  if (dow =? WEDNESDAY) || (dow =? FRIDAY) || (dow =? SUNDAY) then tishri1 + 1 else tishri1.

(** The division of a product of up to 37 bits, in two steps on [unsigned
    long]; the products by [metonicCycle] are products of [int]s. *)
Definition MoladOfMetonicCycle (metonicCycle : Z) : Z * Z :=
  let r1 := NEW_MOON_OF_CREATION in
  let r1 := u64 (r1 + s32 (metonicCycle * Z.land HALAKIM_PER_METONIC_CYCLE 65535)) in
  let r2 := Z.shiftr r1 16 in
  let r2 := u64 (r2 + s32 (metonicCycle * Z.land (Z.shiftr HALAKIM_PER_METONIC_CYCLE 16) 65535)) in
  let d2 := r2 /c HALAKIM_PER_DAY in
  let r2 := r2 - d2 * HALAKIM_PER_DAY in
  let r1 := Z.lor (u64 (Z.shiftl r2 16)) (Z.land r1 65535) in
  let d1 := r1 /c HALAKIM_PER_DAY in
  let r1 := r1 - d1 * HALAKIM_PER_DAY in
  (s64 (Z.lor (u64 (Z.shiftl d2 16)) d1), r1).

(** [moladHalakim += n; moladDay += moladHalakim / HALAKIM_PER_DAY;
    moladHalakim = moladHalakim % HALAKIM_PER_DAY;] *)
Definition advance_molad (n : Z) (molad : Z * Z) : Z * Z :=
  let '(moladDay, moladHalakim) := molad in
  let moladHalakim := moladHalakim + n in
  (moladDay + moladHalakim /c HALAKIM_PER_DAY, moladHalakim %c HALAKIM_PER_DAY).

(** [while (moladDay < inputDay - 6940 + 310) ...] *)
Fixpoint cycle_loop (fuel : nat) (inputDay metonicCycle : Z) (molad : Z * Z) : res (Z * (Z * Z)) :=
  match fuel with
  | O => Err OutOfFuel
  | S fuel' =>
      if fst molad <? inputDay - 6940 + 310
      then cycle_loop fuel' inputDay (s32 (metonicCycle + 1))
             (advance_molad HALAKIM_PER_METONIC_CYCLE molad)
      else Ok (metonicCycle, molad)
  end.
(** [for (metonicYear = 0; metonicYear < 18; metonicYear++) ...] *)
Fixpoint year_loop (fuel : nat) (inputDay metonicYear : Z) (molad : Z * Z) : res (Z * (Z * Z)) :=
  match fuel with
  | O => Err OutOfFuel
  | S fuel' =>
      if metonicYear <? 18 then
        if inputDay - 74 <? fst molad then Ok (metonicYear, molad)
        else
          months ← at_index monthsPerYear metonicYear;
          year_loop fuel' inputDay (metonicYear + 1)
            (advance_molad (HALAKIM_PER_LUNAR_CYCLE * months) molad)
      else Ok (metonicYear, molad)
  end.
(** The result is ([metonicCycle], [metonicYear], ([moladDay], [moladHalakim])). *)
Definition FindTishriMolad (inputDay : Z) : res (Z * Z * (Z * Z)) :=
  let metonicCycle := s32 ((inputDay + 310) /c 6940) in
  '(metonicCycle, molad) ←
    cycle_loop 100 inputDay metonicCycle (MoladOfMetonicCycle metonicCycle);
  '(metonicYear, molad) ← year_loop 19 inputDay 0 molad;
  Ok (metonicCycle, metonicYear, molad).

(** With [*pTishri1], an [int]. *)
Definition FindStartOfYear (year : Z) : res (Z * Z * (Z * Z) * Z) :=
  let metonicCycle := s32 (year - 1) /c 19 in
  let metonicYear := s32 (year - 1) %c 19 in
  offset ← at_index yearOffset metonicYear;
  let molad := advance_molad (HALAKIM_PER_LUNAR_CYCLE * offset) (MoladOfMetonicCycle metonicCycle) in
  Ok (metonicCycle, metonicYear, molad, s32 (Tishri1 metonicYear (fst molad) (snd molad))).

(** From "yearLength = ..." to the end of [SdnToJewish]. *)
Definition heshvan_or_kislev (pYear inputDay tishri1 tishri1After : Z) : Z * Z * Z :=
  let yearLength := tishri1After - tishri1 in
  let day := inputDay - tishri1 - 29 in
  if (yearLength =? 355) || (yearLength =? 385) then
    if day <=? 30 then (pYear, 2, day) else (pYear, 3, day - 30)
  else
    if day <=? 29 then (pYear, 2, day) else (pYear, 3, day - 29).

Definition SdnToJewish (sdn : Z) : res (Z * Z * Z) :=
  if (sdn <=? JEWISH_SDN_OFFSET) || (JEWISH_SDN_MAX <? sdn) then Ok (0, 0, 0)
  else
    let inputDay := sdn - JEWISH_SDN_OFFSET in
    '(metonicCycle, metonicYear, molad) ← FindTishriMolad inputDay;
    let tishri1 := s32 (Tishri1 metonicYear (fst molad) (snd molad)) in
    if tishri1 <=? inputDay then
      let pYear := metonicCycle * 19 + metonicYear + 1 in
      if inputDay <? tishri1 + 59 then
        if inputDay <? tishri1 + 30 then Ok (pYear, 1, inputDay - tishri1 + 1)
        else Ok (pYear, 2, inputDay - tishri1 - 29)
      else
        months ← at_index monthsPerYear metonicYear;
        let '(day, halakim) := advance_molad (HALAKIM_PER_LUNAR_CYCLE * months) molad in
        let tishri1After := s32 (Tishri1 ((metonicYear + 1) %c 19) day halakim) in
        Ok (heshvan_or_kislev pYear inputDay tishri1 tishri1After)
    else
      let pYear := metonicCycle * 19 + metonicYear in
      let since := inputDay - tishri1 in
      if tishri1 - 177 <=? inputDay then
        Ok (if tishri1 - 30 <? inputDay then (pYear, 13, since + 30)
            else if tishri1 - 60 <? inputDay then (pYear, 12, since + 60)
            else if tishri1 - 89 <? inputDay then (pYear, 11, since + 89)
            else if tishri1 - 119 <? inputDay then (pYear, 10, since + 119)
            else if tishri1 - 148 <? inputDay then (pYear, 9, since + 148)
            else (pYear, 8, since + 178))
      else
        months ← at_index monthsPerYear ((pYear - 1) %c 19);
        (* AdarII (or Adar), AdarI and Shevat of 30 days, Tevet of 29 *)
        let pDay := since + 207 in
        if 0 <? pDay then Ok (pYear, if months =? 13 then 7 else 6, pDay)
        else if (months =? 13) && (0 <? pDay + 30) then Ok (pYear, 6, pDay + 30)
        else
          let pDay := if months =? 13 then pDay + 60 else pDay + 30 in
          if 0 <? pDay then Ok (pYear, 5, pDay)
          else if 0 <? pDay + 29 then Ok (pYear, 4, pDay + 29)
          else
            let tishri1After := tishri1 in
            '(_, metonicYear, molad) ← FindTishriMolad (fst molad - 365);
            let tishri1 := s32 (Tishri1 metonicYear (fst molad) (snd molad)) in
            Ok (heshvan_or_kislev pYear inputDay tishri1 tishri1After).

Definition JewishToSdn (year month day : Z) : res Z :=
  if (year <=? 0) || (day <=? 0) || (30 <? day) then Ok 0
  else if (month =? 1) || (month =? 2) then
    '(_, _, _, tishri1) ← FindStartOfYear year;
    Ok (s32 (if month =? 1 then tishri1 + day - 1 else tishri1 + day + 29) + JEWISH_SDN_OFFSET)
  else if month =? 3 then
    '(_, metonicYear, molad, tishri1) ← FindStartOfYear year;
    months ← at_index monthsPerYear metonicYear;
    let '(moladDay, moladHalakim) := advance_molad (HALAKIM_PER_LUNAR_CYCLE * months) molad in
    let tishri1After := s32 (Tishri1 ((metonicYear + 1) %c 19) moladDay moladHalakim) in
    let yearLength := tishri1After - tishri1 in
    Ok (s32 (if (yearLength =? 355) || (yearLength =? 385) then tishri1 + day + 59
             else tishri1 + day + 58) + JEWISH_SDN_OFFSET)
  else if (month =? 4) || (month =? 5) || (month =? 6) then
    '(_, _, _, tishri1After) ← FindStartOfYear (s32 (year + 1));
    months ← at_index monthsPerYear (s32 (year - 1) %c 19);
    let lengthOfAdarIAndII := if months =? 12 then 29 else 59 in
    Ok (s32 (if month =? 4 then tishri1After + day - lengthOfAdarIAndII - 237
             else if month =? 5 then tishri1After + day - lengthOfAdarIAndII - 208
             else tishri1After + day - lengthOfAdarIAndII - 178) + JEWISH_SDN_OFFSET)
  else
    '(_, _, _, tishri1After) ← FindStartOfYear (s32 (year + 1));
    let sdn n := Ok (s32 (tishri1After + day - n) + JEWISH_SDN_OFFSET) in
    if month =? 7 then sdn 207
    else if month =? 8 then sdn 178
    else if month =? 9 then sdn 148
    else if month =? 10 then sdn 119
    else if month =? 11 then sdn 89
    else if month =? 12 then sdn 60
    else if month =? 13 then sdn 30
    else Ok 0.

Example gregorian_today : SdnToGregorian 2451545 = (2000, 1, 1) /\ GregorianToSdn 2000 1 1 = 2451545.
Proof. split; reflexivity. Qed.
Example jewish_sample : SdnToJewish 2451545 = Ok (5760, 4, 23) /\ JewishToSdn 5760 4 23 = Ok 2451545.
Proof. split; reflexivity. Qed.
