(* ===== verification/CalendarExt.v ===== *)
(** * ext/calendar: calendar.c, easter.c, cal_unix.c

    The PHP functions, on their parsed arguments ([zend_parse_parameters]
    is another component): a [long] where the code has a [long], converted
    to [int] where the code passes it to an [int] parameter. *)

From S2P Require Import Prelude Calendar.
Open Scope Z_scope.

(** What a function returns to PHP. *)
Inductive retval : Type :=
  | RFalse
  | RLong (z : Z)
  | RString (s : list byte)
  | RArray (fields : list (list byte * retval)).

(** [%i]: the decimal digits of an [int]. *)
Fixpoint digits (fuel : nat) (n : Z) (acc : list byte) : list byte :=
  match fuel with
  | O => acc
  | S fuel' =>
      let acc := to_byte (48 + n `mod` 10) :: acc in
      if n <? 10 then acc else digits fuel' (n / 10) acc
  end.
Definition fmt_i (z : Z) : list byte :=
  if z <? 0 then bs "-" ++ digits 20 (- z) [] else digits 20 z [].
(** [snprintf(date, sizeof(date), "%i/%i/%i", month, day, year)] into 16 bytes. *)
Definition format_date (date : Z * Z * Z) : list byte :=
  let '(year, month, day) := date in
  take 15 (fmt_i month ++ bs "/" ++ fmt_i day ++ bs "/" ++ fmt_i year).

Definition CAL_GREGORIAN : Z := 0.
Definition CAL_JULIAN : Z := 1.
Definition CAL_JEWISH : Z := 2.
Definition CAL_FRENCH : Z := 3.
Definition CAL_NUM_CALS : Z := 4.
Definition CAL_DOW_DAYNO : Z := 0.
Definition CAL_DOW_SHORT : Z := 1.
Definition CAL_DOW_LONG : Z := 2.
Definition CAL_MONTH_GREGORIAN_SHORT : Z := 0.
Definition CAL_MONTH_GREGORIAN_LONG : Z := 1.
Definition CAL_MONTH_JULIAN_SHORT : Z := 2.
Definition CAL_MONTH_JULIAN_LONG : Z := 3.
Definition CAL_MONTH_JEWISH : Z := 4.
Definition CAL_MONTH_FRENCH : Z := 5.
Definition CAL_JEWISH_ADD_ALAFIM_GERESH : Z := 2.
Definition CAL_JEWISH_ADD_ALAFIM : Z := 4.
Definition CAL_JEWISH_ADD_GERESHAYIM : Z := 8.
Definition CAL_EASTER_DEFAULT : Z := 0.
Definition CAL_EASTER_ROMAN : Z := 1.
Definition CAL_EASTER_ALWAYS_GREGORIAN : Z := 2.
Definition CAL_EASTER_ALWAYS_JULIAN : Z := 3.

Record cal_entry_t : Type := mkCal {
  name : list byte;
  symbol : list byte;
  to_jd : Z -> Z -> Z -> res Z;
  from_jd : Z -> res (Z * Z * Z);
  num_months : nat;
  max_days_in_month : Z;
  month_name_short : list (list byte);
  month_name_long : list (list byte)
}.

Definition cal_conversion_table : list cal_entry_t :=
  [mkCal (bs "Gregorian") (bs "CAL_GREGORIAN") (fun y m d => Ok (GregorianToSdn y m d))
     (fun jd => Ok (SdnToGregorian jd)) 12 31 MonthNameShort MonthNameLong;
   mkCal (bs "Julian") (bs "CAL_JULIAN") (fun y m d => Ok (JulianToSdn y m d))
     (fun jd => Ok (SdnToJulian jd)) 12 31 MonthNameShort MonthNameLong;
   mkCal (bs "Jewish") (bs "CAL_JEWISH") JewishToSdn SdnToJewish 13 30
     JewishMonthName JewishMonthName;
   mkCal (bs "French") (bs "CAL_FRENCH") (fun y m d => Ok (FrenchToSdn y m d))
     (fun jd => Ok (SdnToFrench jd)) 13 30 FrenchMonthName FrenchMonthName].

Definition invalid_cal (cal : Z) : bool := (cal <? 0) || (CAL_NUM_CALS <=? cal).

(** [for (i = 1; i <= num_months; i++) add_index_string(months, i, names[i])] *)
Fixpoint month_list (n : nat) (names : list (list byte)) : res (list (list byte * retval)) :=
  match n with
  | O => Ok []
  | S n' =>
      ms ← month_list n' names;
      x ← at_index names (Z.of_nat n);
      Ok (ms ++ [(fmt_i (Z.of_nat n), RString x)])
  end.
Definition _php_cal_info (cal : Z) : res retval :=
  calendar ← at_index cal_conversion_table cal;
  months ← month_list (num_months calendar) (month_name_long calendar);
  smonths ← month_list (num_months calendar) (month_name_short calendar);
  Ok (RArray
    [(bs "months", RArray months);
     (bs "abbrevmonths", RArray smonths);
     (bs "maxdaysinmonth", RLong (max_days_in_month calendar));
     (bs "calname", RString (name calendar));
     (bs "calsymbol", RString (symbol calendar))]).

Definition cal_info (cal : Z) : res retval :=
  if cal =? -1 then
    i0 ← _php_cal_info 0;
    i1 ← _php_cal_info 1;
    i2 ← _php_cal_info 2;
    i3 ← _php_cal_info 3;
    Ok (RArray [(bs "0", i0); (bs "1", i1); (bs "2", i2); (bs "3", i3)])
  else if invalid_cal cal then Ok RFalse
  else _php_cal_info cal.

Definition cal_days_in_month (cal month year : Z) : res retval :=
  if invalid_cal cal then Ok RFalse
  else
    calendar ← at_index cal_conversion_table cal;
    sdn_start ← to_jd calendar (s32 year) (s32 month) 1;
    if sdn_start =? 0 then Ok RFalse
    else
      sdn_next ← to_jd calendar (s32 year) (s32 (s64 (1 + month))) 1;
      sdn_next ←
        (if sdn_next =? 0 then
           if year =? -1 then to_jd calendar 1 1 1
           else to_jd calendar (s32 (s64 (year + 1))) 1 1
         else Ok sdn_next);
      Ok (RLong (sdn_next - sdn_start)).

Definition cal_to_jd (cal month day year : Z) : res retval :=
  if invalid_cal cal then Ok RFalse
  else
    calendar ← at_index cal_conversion_table cal;
    jd ← to_jd calendar (s32 year) (s32 month) (s32 day);
    Ok (RLong jd).

Definition cal_from_jd (jd cal : Z) : res retval :=
  if invalid_cal cal then Ok RFalse
  else
    calendar ← at_index cal_conversion_table cal;
    '(year, month, day) ← from_jd calendar jd;
    let dow := DayOfWeek jd in
    dns ← at_index DayNameShort dow;
    dnl ← at_index DayNameLong dow;
    mns ← at_index (month_name_short calendar) month;
    mnl ← at_index (month_name_long calendar) month;
    Ok (RArray
      [(bs "date", RString (format_date (year, month, day)));
       (bs "month", RLong month); (bs "day", RLong day); (bs "year", RLong year);
       (bs "dow", RLong dow); (bs "abbrevdayname", RString dns); (bs "dayname", RString dnl);
       (bs "abbrevmonth", RString mns); (bs "monthname", RString mnl)]).

Definition jdtogregorian (julday : Z) : retval := RString (format_date (SdnToGregorian julday)).
Definition gregoriantojd (month day year : Z) : retval :=
  RLong (GregorianToSdn (s32 year) (s32 month) (s32 day)).
Definition jdtojulian (julday : Z) : retval := RString (format_date (SdnToJulian julday)).
Definition juliantojd (month day year : Z) : retval :=
  RLong (JulianToSdn (s32 year) (s32 month) (s32 day)).
Definition jdtofrench (julday : Z) : retval := RString (format_date (SdnToFrench julday)).
Definition frenchtojd (month day year : Z) : retval :=
  RLong (FrenchToSdn (s32 year) (s32 month) (s32 day)).
Definition jewishtojd (month day year : Z) : res retval :=
  jd ← JewishToSdn (s32 year) (s32 month) (s32 day); Ok (RLong jd).

(** ** Hebrew numerals (ISO-8859-8) *)

Definition alef_bet : list byte :=
  map to_byte [48; 224; 225; 226; 227; 228; 229; 230; 231; 232; 233; 235; 236; 238; 240; 241;
               242; 244; 246; 247; 248; 249; 250; 0; 0].
Definition alafim : list byte := map to_byte [32; 224; 236; 244; 233; 237; 32].
Definition geresh : byte := to_byte 39.
Definition double_quote : byte := to_byte 34.

Definition JewishMonthHebName : list (list byte) :=
  map (map to_byte)
  [[]; [250; 249; 248; 233]; [231; 249; 229; 239]; [235; 241; 236; 229]; [232; 225; 250];
   [249; 225; 232]; [224; 227; 248]; [39; 224; 227; 248; 32; 225]; [240; 233; 241; 239];
   [224; 233; 233; 248]; [241; 233; 229; 239]; [250; 238; 229; 230]; [224; 225];
   [224; 236; 229; 236]].

(** [while (n >= 400) { *p++ = alef_bet[22]; n -= 400; }]: what is written and left. *)
Fixpoint tav_loop (fuel : nat) (n : Z) (out : list byte) : res (list byte * Z) :=
  match fuel with
  | O => Err OutOfFuel
  | S fuel' =>
      if 400 <=? n then
        c ← at_index alef_bet 22;
        tav_loop fuel' (n - 400) (out ++ [c])
      else Ok (out, n)
  end.

(** The "alafim (thousands) case": the bytes up to [endofalafim], and [n]. *)
Definition heb_alafim (n fl : Z) : res (list byte * Z) :=
  if negb (n /c 1000 =? 0) then
    c ← at_index alef_bet (n /c 1000);
    Ok ([c] ++ (if has_flag CAL_JEWISH_ADD_ALAFIM_GERESH fl then [geresh] else [])
            ++ (if has_flag CAL_JEWISH_ADD_ALAFIM fl then alafim else []), n %c 1000)
  else Ok ([], n).
(** From the "tav-tav" case to the "yehidot (ones)" case: the bytes from [endofalafim] on. *)
Definition heb_below_1000 (n : Z) : res (list byte) :=
  '(out, n) ← tav_loop 3 n [];
  '(out, n) ←
    (if 100 <=? n then
       c ← at_index alef_bet (18 + n /c 100);
       Ok (out ++ [c], n %c 100)
     else Ok (out, n));
  if (n =? 15) || (n =? 16) then
    c9 ← at_index alef_bet 9;
    c ← at_index alef_bet (n - 9);
    Ok (out ++ [c9; c])
  else
    '(out, n) ←
      (if 10 <=? n then
         c ← at_index alef_bet (9 + n /c 10);
         Ok (out ++ [c], n %c 10)
       else Ok (out, n));
    if 0 <? n then c ← at_index alef_bet n; Ok (out ++ [c]) else Ok out.
(** [switch (p - endofalafim)] *)
Definition heb_gereshayim (out : list byte) : list byte :=
  match out with
  | [] => []
  | [c] => [c; geresh]
  | _ => match last out with
         | Some c => removelast out ++ [double_quote; c]
         | None => out
         end
  end.
(** The bytes written to [old] before the final NUL, or [None] for NULL. *)
Definition heb_number_to_chars (n fl : Z) : res (option (list byte)) :=
  if (9999 <? n) || (n <? 1) then Ok None
  else
    '(alafim, n) ← heb_alafim n fl;
    out ← heb_below_1000 n;
    Ok (Some (alafim ++ (if has_flag CAL_JEWISH_ADD_GERESHAYIM fl then heb_gereshayim out else out))).

(** [%s] of NULL prints as in PHP's own [snprintf]. *)
Definition fmt_s (s : option (list byte)) : list byte :=
  match s with Some x => x | None => bs "(null)" end.

Definition jdtojewish (julday : Z) (heb : bool) (fl : Z) : res retval :=
  '(year, month, day) ← SdnToJewish julday;
  if negb heb then Ok (RString (format_date (year, month, day)))
  else if (year <=? 0) || (9999 <? year) then Ok RFalse
  else
    d ← heb_number_to_chars day (s32 fl);
    m ← at_index JewishMonthHebName month;
    y ← heb_number_to_chars year (s32 fl);
    Ok (RString (take 31 (fmt_s d ++ bs " " ++ m ++ bs " " ++ fmt_s y))).

(** ** Names *)

Definition jddayofweek (julday mode : Z) : res retval :=
  let day := DayOfWeek julday in
  daynamel ← at_index DayNameLong day;
  daynames ← at_index DayNameShort day;
  Ok (if mode =? CAL_DOW_SHORT then RString daynamel
      else if mode =? CAL_DOW_LONG then RString daynames
      else RLong day).

Definition jdmonthname (julday mode : Z) : res retval :=
  let named (names : list (list byte)) (date : Z * Z * Z) :=
    monthname ← at_index names (snd (fst date)); Ok (RString monthname) in
  if mode =? CAL_MONTH_GREGORIAN_LONG then named MonthNameLong (SdnToGregorian julday)
  else if mode =? CAL_MONTH_JULIAN_SHORT then named MonthNameShort (SdnToJulian julday)
  else if mode =? CAL_MONTH_JULIAN_LONG then named MonthNameLong (SdnToJulian julday)
  else if mode =? CAL_MONTH_JEWISH then
    date ← SdnToJewish julday; named JewishMonthName date
  else if mode =? CAL_MONTH_FRENCH then named FrenchMonthName (SdnToFrench julday)
  else named MonthNameShort (SdnToGregorian julday).

(** ** easter.c *)

Definition uses_julian (year method : Z) : bool :=
  ((year <=? 1582) && negb (method =? CAL_EASTER_ALWAYS_GREGORIAN)) ||
  ((1583 <=? year) && (year <=? 1752) && negb (method =? CAL_EASTER_ROMAN) &&
   negb (method =? CAL_EASTER_ALWAYS_GREGORIAN)) ||
  (method =? CAL_EASTER_ALWAYS_JULIAN).

(** [x %= n; if (x < 0) x += n;] *)
Definition wrap_negative (x n : Z) : Z := let x := x %c n in if x <? 0 then x + n else x.

(** [easter]: the days after 21 March, from the year and the calendar. *)
Definition easter_of (year : Z) (julian : bool) : Z :=
  let golden := year %c 19 + 1 in
  let dom := if julian then wrap_negative (year + year /c 4 + 5) 7
             else wrap_negative (year + year /c 4 - year /c 100 + year /c 400) 7 in
  let pfm :=
    if julian then wrap_negative (3 - 11 * golden - 7) 30
    else
      let solar := (year - 1600) /c 100 - (year - 1600) /c 400 in
      let lunar := ((year - 1400) /c 100 * 8) /c 25 in
      wrap_negative (3 - 11 * golden + solar - lunar) 30 in
  let pfm := if (pfm =? 29) || ((pfm =? 28) && (11 <? golden)) then pfm - 1 else pfm in
  let tmp := wrap_negative (4 - pfm - dom) 7 in
  pfm + tmp + 1.

(** [mktime year month day] is libc's function of the same name, at midnight. *)
Definition _cal_easter (mktime : Z -> Z -> Z -> Z) (year method : Z) (gm : bool) : retval :=
  if gm && ((year <? 1970) || (2037 <? year)) then RFalse
  else
    let easter := easter_of year (uses_julian year method) in
    if gm then
      RLong (if easter <? 11 then mktime (year - 1900) 2 (easter + 21)
             else mktime (year - 1900) 3 (easter - 10))
    else RLong easter.
Definition easter_date (mktime : Z -> Z -> Z -> Z) (year method : Z) : retval :=
  _cal_easter mktime year method true.
Definition easter_days (mktime : Z -> Z -> Z -> Z) (year method : Z) : retval :=
  _cal_easter mktime year method false.

(** ** cal_unix.c *)

(** [localtime ts]: [tm_year], [tm_mon], [tm_mday], of the libc function;
    [now] is [time(NULL)]. *)
Definition unixtojd (localtime : Z -> option (Z * Z * Z)) (now ts : Z) : retval :=
  if negb (ts =? 0) && (ts <? 0) then RFalse
  else
    match localtime (if ts =? 0 then now else ts) with
    | None => RFalse
    | Some (tm_year, tm_mon, tm_mday) =>
        RLong (GregorianToSdn (s32 (tm_year + 1900)) (tm_mon + 1) tm_mday)
    end.
Definition jdtounix (uday : Z) : retval :=
  let uday := s64 (uday - 2440588) in
  if (uday <? 0) || (24755 <? uday) then RFalse else RLong (uday * 24 * 3600).

(* Easter 2000 was on 23 April. *)
Example easter_2000 : easter_of 2000 false = 33.
Proof. reflexivity. Qed.
Example easter_1700_julian : easter_of 1700 true = 10.
Proof. reflexivity. Qed.
