(* ===== verification/CalendarSpec.v ===== *)
(** * The calendar conversions are correct

    The Gregorian and Julian conversions against the calendar rules (leap
    years, month lengths, "the day after"), over the range in which their
    [int] arithmetic does not overflow; the French conversion over its
    declared range; the arithmetic of the Jewish molad. *)

From S2P Require Import Prelude Calendar.
Open Scope Z_scope.

(** ** The calendar rules *)

(** Years before 1 A.D. are counted -1, -2, ...; [astro] counts them 0, -1, ... *)
Definition astro (y : Z) : Z := if y <? 0 then y + 1 else y.
Definition is_leap (gregorian : bool) (y : Z) : bool :=
  (astro y `mod` 4 =? 0) &&
  (negb gregorian || negb (astro y `mod` 100 =? 0) || (astro y `mod` 400 =? 0)).
Definition month_length (gregorian : bool) (y m : Z) : Z :=
  if m =? 2 then (if is_leap gregorian y then 29 else 28)
  else if (m =? 4) || (m =? 6) || (m =? 9) || (m =? 11) then 30 else 31.
Definition valid_date (gregorian : bool) (date : Z * Z * Z) : Prop :=
  let '(y, m, d) := date in y <> 0 /\ 1 <= m <= 12 /\ 1 <= d <= month_length gregorian y m.
Definition next_day (gregorian : bool) (date : Z * Z * Z) : Z * Z * Z :=
  let '(y, m, d) := date in
  if d <? month_length gregorian y m then (y, m, d + 1)
  else if m <? 12 then (y, m + 1, 1)
  else (if y =? -1 then 1 else y + 1, 1, 1).

(** ** Quotients of the form [(4x + 3) / K] *)

Definition b3 (a : Z) : Z := if a `mod` 4 =? 3 then 1 else 0.

Lemma quarter_split (k a r : Z) :
  0 <= k -> 0 <= a -> 0 <= r <= k - 1 + b3 a ->
  let K := 4 * k + 1 in let x := K * a / 4 + r in
  (4 * x + 3) / K = a /\ ((4 * x + 3) mod K) / 4 = r.
Proof.
  intros Hk Ha Hr K x. unfold b3 in Hr.
  pose proof (Z.div_mod a 4 ltac:(lia)) as Hd. pose proof (Z.mod_pos_bound a 4 ltac:(lia)) as He.
  set (b := a / 4) in *. set (e := a mod 4) in *.
  assert (HKa : K * a / 4 = K * b + k * e).
  { rewrite Hd. unfold K. replace ((4 * k + 1) * (4 * b + e)) with (e + ((4 * k + 1) * b + k * e) * 4) by ring.
    rewrite Z.div_add by lia. rewrite (Z.div_small e) by lia. ring. }
  assert (Hb : 0 <= 4 * r + 3 - e < K).
  { unfold K. destruct (Z.eqb_spec e 3); lia. }
  assert (Hx : 4 * x + 3 = (4 * r + 3 - e) + a * K).
  { unfold x. rewrite HKa. clearbody b e. subst a. unfold K. ring. }
  rewrite Hx. rewrite Z.div_add, Z.mod_add by (unfold K; lia).
  rewrite Z.div_small, Z.mod_small by lia. split; [lia|].
  replace (4 * r + 3 - e) with ((3 - e) + r * 4) by ring.
  rewrite Z.div_add by lia. rewrite Z.div_small by lia. lia.
Qed.

Lemma quarter_join (k x : Z) :
  0 <= k -> 0 <= x ->
  let K := 4 * k + 1 in let a := (4 * x + 3) / K in let r := ((4 * x + 3) mod K) / 4 in
  0 <= a /\ 0 <= r <= k - 1 + b3 a /\ x = K * a / 4 + r.
Proof.
  intros Hk Hx K a r. assert (HK : 0 < K) by (unfold K; lia).
  pose proof (Z.div_mod (4 * x + 3) K ltac:(lia)) as Hd.
  pose proof (Z.mod_pos_bound (4 * x + 3) K HK) as Hs. fold a in Hd.
  unfold r. set (s := (4 * x + 3) mod K) in *.
  assert (Ha : 0 <= a) by (apply Z.div_pos; lia).
  pose proof (Z.div_mod a 4 ltac:(lia)) as Hda. pose proof (Z.mod_pos_bound a 4 ltac:(lia)) as He.
  unfold b3. clear r. clearbody a s. set (b := a / 4) in *. set (e := a mod 4) in *. clearbody b e.
  assert (Hse : exists t, s = 3 - e + t * 4).
  { exists (x - K * b - k * e). unfold K in *. nia. }
  destruct Hse as [t Ht].
  assert (Hst : s / 4 = t). { rewrite Ht, Z.div_add by lia. rewrite Z.div_small; lia. }
  assert (HKa : K * a / 4 = K * b + k * e).
  { rewrite Hda. unfold K. replace ((4 * k + 1) * (4 * b + e)) with (e + ((4 * k + 1) * b + k * e) * 4) by ring.
    rewrite Z.div_add by lia. rewrite (Z.div_small e) by lia. ring. }
  rewrite Hst, HKa. split; [done|]. split.
  - unfold K in Hs. destruct (Z.eqb_spec e 3); lia.
  - unfold K in *. nia.
Qed.

(** ** Day of the year, counted from March, to month and day *)

Definition march_length (mm : Z) : Z := (153 * (mm + 1) + 2) / 5 - (153 * mm + 2) / 5.

Lemma month_split mm dd :
  0 <= mm -> 1 <= dd <= march_length mm ->
  let yd := (153 * mm + 2) / 5 + dd - 1 in
  (5 * yd + 2) / 153 = mm /\ ((5 * yd + 2) mod 153) / 5 + 1 = dd.
Proof.
  intros Hm Hd yd. unfold march_length in Hd.
  assert (Hq : (5 * yd + 2) / 153 = mm).
  { symmetry. apply (Z.div_unique _ _ _ (5 * yd + 2 - 153 * mm)); unfold yd; [|lia]. left.
    Z.to_euclidean_division_equations. lia. }
  split; [done|]. rewrite Z.mod_eq, Hq by lia. unfold yd in *. clear Hq.
  Z.to_euclidean_division_equations. lia.
Qed.
Lemma month_join yd :
  0 <= yd ->
  let mm := (5 * yd + 2) / 153 in let dd := ((5 * yd + 2) mod 153) / 5 + 1 in
  0 <= mm /\ 1 <= dd <= march_length mm /\ yd = (153 * mm + 2) / 5 + dd - 1.
Proof.
  intros Hy mm dd. unfold mm, dd, march_length. Z.to_euclidean_division_equations. lia.
Qed.

(** ** From a year counted from March to a date and back *)

Definition to_date (Y mm dd : Z) : Z * Z * Z :=
  let '(y, m) := if mm <? 10 then (Y, mm + 3) else (Y + 1, mm - 9) in
  (if y - 4800 <=? 0 then y - 4801 else y - 4800, m, dd).

(** No year of these leaves an [int]. *)
Definition year_ok (Y : Z) : Prop := 0 <= Y < 2 ^ 31 - 1.

Ltac to_div := rewrite ?Z.quot_div_nonneg, ?Z.rem_mod_nonneg by lia.

Lemma month_and_day_spec Y yd :
  year_ok Y -> 0 <= yd <= 365 ->
  month_and_day Y (yd + 1) = to_date Y ((5 * yd + 2) / 153) (((5 * yd + 2) mod 153) / 5 + 1).
Proof.
  intros HY Hyd. unfold month_and_day, to_date, DAYS_PER_5_MONTHS, year_ok in *.
  replace ((yd + 1) * 5 - 3) with (5 * yd + 2) by lia. to_div.
  pose proof (Z.mod_pos_bound (5 * yd + 2) 153 ltac:(lia)). to_div.
  destruct (_ <? 10); rewrite ?(s32_small (Y + 1)), s32_small by (unfold INT_MIN, INT_MAX; lia);
    (destruct (_ <=? 0); [|done]); rewrite s32_small by (unfold INT_MIN, INT_MAX; lia);
    do 2 f_equal; lia.
Qed.

(** The year and month from which the date is recovered. *)
Definition march_of (y m : Z) : Z * Z :=
  let Y := astro y + 4800 in if 2 <? m then (Y, m - 3) else (Y - 1, m + 9).

Lemma march_year_spec y m :
  -4714 <= y -> y <> 0 -> y < 2 ^ 31 - 4801 -> march_year y m = march_of y m.
Proof.
  intros Hy H0 Hm. unfold march_year, march_of, astro.
  destruct (Z.ltb_spec y 0); rewrite !s32_small by (unfold INT_MIN, INT_MAX; lia);
    destruct (2 <? m); try (f_equal; lia);
    rewrite s32_small by (unfold INT_MIN, INT_MAX; lia); f_equal; lia.
Qed.

Lemma to_date_march y m d :
  y <> 0 -> 1 <= m <= 12 ->
  let '(Y, mm) := march_of y m in to_date Y mm d = (y, m, d) /\ 0 <= mm <= 11.
Proof.
  intros H0 Hm. unfold march_of, to_date, astro.
  destruct (Z.ltb_spec y 0), (Z.ltb_spec 2 m); cbn [fst snd].
  all: destruct (Z.ltb_spec (m - 3) 10), (Z.ltb_spec (m + 9) 10); try lia.
  all: match goal with |- context [?a <=? 0] => destruct (Z.leb_spec a 0); try lia end.
  all: split; [repeat f_equal; lia|lia].
Qed.
Lemma march_to_date Y mm dd :
  0 <= mm <= 11 ->
  let '(y, m, d) := to_date Y mm dd in march_of y m = (Y, mm) /\ d = dd /\ y <> 0 /\ 1 <= m <= 12.
Proof.
  intros Hm. unfold march_of, to_date, astro. destruct (Z.ltb_spec mm 10).
  all: match goal with |- context [?a <=? 0] => destruct (Z.leb_spec a 0) end.
  all: match goal with |- context [?a <? 0] => destruct (Z.ltb_spec a 0); try lia end.
  all: match goal with |- context [2 <? ?a] => destruct (Z.ltb_spec 2 a); try lia end.
  all: split_and!; try done; try lia; f_equal; lia.
Qed.

(** The length of the month [mm] of the year [Y] counted from March: the
    last one is the February of the civil year that follows. *)
Definition leap_day (gregorian : bool) (Y : Z) : Z :=
  if (Y `mod` 4 =? 3) && (negb gregorian || negb (Y `mod` 100 =? 99) || (Y `mod` 400 =? 399))
  then 1 else 0.
Definition march_month_length (gregorian : bool) (Y mm : Z) : Z :=
  if mm =? 11 then 28 + leap_day gregorian Y else march_length mm.
Lemma leap_day_range g Y : 0 <= leap_day g Y <= 1.
Proof. unfold leap_day. case_match; lia. Qed.

Lemma mod_succ_eq Y N : 0 < N -> ((Y + 1) mod N =? 0) = (Y mod N =? N - 1).
Proof.
  intros HN. pose proof (Z.mod_pos_bound Y N HN) as Hr. pose proof (Z.div_mod Y N ltac:(lia)) as Hd.
  destruct (Z.eqb_spec (Y mod N) (N - 1)) as [He|Hne]; [apply Z.eqb_eq|apply Z.eqb_neq].
  - symmetry. apply (Z.mod_unique _ _ (Y / N + 1)); [lia|]. rewrite He in Hd. lia.
  - rewrite <- (Z.mod_unique (Y + 1) N (Y / N) (Y mod N + 1)); lia.
Qed.

Lemma month_length_march g y m :
  y <> 0 -> 1 <= m <= 12 ->
  let '(Y, mm) := march_of y m in month_length g y m = march_month_length g Y mm.
Proof.
  intros H0 Hm. unfold march_of, month_length, march_month_length.
  destruct (Z.ltb_spec 2 m).
  - rewrite (proj2 (Z.eqb_neq m 2)) by lia. rewrite (proj2 (Z.eqb_neq (m - 3) 11)) by lia.
    assert (m = 3 \/ m = 4 \/ m = 5 \/ m = 6 \/ m = 7 \/ m = 8 \/ m = 9 \/ m = 10 \/ m = 11 \/ m = 12)
      as Hc by lia.
    repeat (destruct Hc as [-> |Hc]; [reflexivity|]). subst m. reflexivity.
  - assert (m = 1 \/ m = 2) as [-> | ->] by lia; [reflexivity|]. simpl.
    unfold is_leap, leap_day. change (4 - 1) with 3. rewrite <- !mod_succ_eq by lia.
    replace (astro y + 4800 - 1 + 1) with (astro y + 4800) by lia.
    pose proof (Z.mod_add (astro y) 1200 4 ltac:(lia)) as H4.
    pose proof (Z.mod_add (astro y) 48 100 ltac:(lia)) as H100.
    pose proof (Z.mod_add (astro y) 12 400 ltac:(lia)) as H400.
    change (1200 * 4) with 4800 in H4. change (48 * 100) with 4800 in H100.
    change (12 * 400) with 4800 in H400. rewrite H4, H100, H400.
    by destruct (_ && _).
Qed.

(** ** The Gregorian calendar *)

(** The largest day number whose date can be converted back. *)
Definition GREG_MAX : Z := 536874370.

(** [sdn + 32044] from the year counted from March, the month and the day. *)
Definition greg_day (Y mm dd : Z) : Z :=
  146097 * (Y / 100) / 4 + 1461 * (Y mod 100) / 4 + (153 * mm + 2) / 5 + dd - 1.
Definition greg_Y (n : Z) : Z :=
  let cd := ((4 * n + 3) mod 146097) / 4 in 100 * ((4 * n + 3) / 146097) + (4 * cd + 3) / 1461.
Definition greg_yd (n : Z) : Z :=
  let cd := ((4 * n + 3) mod 146097) / 4 in ((4 * cd + 3) mod 1461) / 4.

Lemma b3_range a : 0 <= b3 a <= 1.
Proof. unfold b3. case_match; lia. Qed.

(** The day of the year is at most 365, and 365 in a leap year only. *)
Definition year_days (gregorian : bool) (Y : Z) : Z := 364 + leap_day gregorian Y.

Lemma march_length_total Y mm dd g :
  0 <= mm <= 11 -> 1 <= dd <= march_month_length g Y mm ->
  1 <= dd <= march_length mm /\ 0 <= (153 * mm + 2) / 5 + dd - 1 <= year_days g Y.
Proof.
  intros Hm Hd. unfold march_month_length, year_days, march_length in *.
  destruct (Z.eqb_spec mm 11) as [->|Hne].
  - pose proof (leap_day_range g Y).
    change (153 * 11 + 2) with 1685. change (153 * (11 + 1) + 2) with 1838.
    change (1685 / 5) with 337. change (1838 / 5) with 367. lia.
  - pose proof (leap_day_range g Y).
    split; [done|]. Z.to_euclidean_division_equations. lia.
Qed.
Lemma march_length_split Y yd g :
  0 <= yd <= year_days g Y ->
  let mm := (5 * yd + 2) / 153 in let dd := ((5 * yd + 2) mod 153) / 5 + 1 in
  0 <= mm <= 11 /\ 1 <= dd <= march_month_length g Y mm.
Proof.
  intros Hyd. destruct (month_join yd ltac:(lia)) as (Hm & Hd & He). cbv zeta in *.
  set (mm := (5 * yd + 2) / 153) in *. set (dd := _ / 5 + 1) in *. clearbody mm dd.
  unfold march_month_length, year_days, march_length in *. pose proof (leap_day_range g Y).
  destruct (Z.eqb_spec mm 11) as [->|Hne].
  - change (153 * 11 + 2) with 1685 in *. change (1685 / 5) with 337 in *. lia.
  - split; [|done]. Z.to_euclidean_division_equations. lia.
Qed.

Lemma mod_400_99 Y : Y mod 100 = 99 -> (Y mod 400 =? 399) = ((Y / 100) mod 4 =? 3).
Proof.
  intros H. pose proof (Z.rem_mul_r Y 100 4 ltac:(lia) ltac:(lia)) as Hr.
  change (100 * 4) with 400 in Hr.
  destruct (Z.eqb_spec (Y mod 400) 399), (Z.eqb_spec ((Y / 100) mod 4) 3); try done; lia.
Qed.

Lemma mod_100_4 Y : Y mod 4 = (Y mod 100) mod 4.
Proof. rewrite <- Znumtheory.Zmod_div_mod; [done|lia|lia|]. by exists 25. Qed.

(** The day of the year and the years fit together within a century. *)
Lemma century_room Y yd :
  0 <= Y -> 0 <= yd <= year_days true Y ->
  0 <= 1461 * (Y mod 100) / 4 + yd <= 36524 - 1 + b3 (Y / 100) /\ yd <= 365 - 1 + b3 (Y mod 100).
Proof.
  intros HY Hyd. unfold year_days, leap_day, b3 in *. rewrite (mod_100_4 Y) in Hyd.
  pose proof (Z.mod_pos_bound Y 100 ltac:(lia)). cbn [negb orb] in Hyd.
  destruct (Z.eqb_spec (Y mod 100) 99) as [H99|Hn99].
  - rewrite (mod_400_99 Y H99) in Hyd. rewrite H99 in *.
    change (1461 * 99 / 4) with 36159. change (99 mod 4) with 3 in *. cbn [Z.eqb] in *.
    simpl in Hyd. destruct ((Y / 100) mod 4 =? 3); simpl in *; lia.
  - cbn [negb orb] in Hyd. rewrite andb_true_r in Hyd.
    assert (1461 * (Y mod 100) / 4 <= 1461 * 98 / 4) by (apply Z.div_le_mono; lia).
    assert (0 <= 1461 * (Y mod 100) / 4) by (apply Z.div_pos; lia).
    change (1461 * 98 / 4) with 35794 in *.
    destruct ((Y mod 100) mod 4 =? 3), ((Y / 100) mod 4 =? 3); lia.
Qed.

Lemma greg_decode Y mm dd :
  0 <= Y -> 0 <= mm <= 11 -> 1 <= dd <= march_month_length true Y mm ->
  let n := greg_day Y mm dd in
  greg_Y n = Y /\ (5 * greg_yd n + 2) / 153 = mm /\ ((5 * greg_yd n + 2) mod 153) / 5 + 1 = dd.
Proof.
  intros HY Hm Hd n. destruct (march_length_total _ _ _ _ Hm Hd) as [Hd' Hyd].
  destruct (century_room _ _ HY Hyd) as [Hcd Hyd'].
  set (yd := (153 * mm + 2) / 5 + dd - 1) in *.
  set (cd := 1461 * (Y mod 100) / 4 + yd) in *.
  assert (Hn : n = 146097 * (Y / 100) / 4 + cd) by (unfold n, greg_day, cd, yd; lia).
  assert (0 <= Y / 100) by (apply Z.div_pos; lia).
  pose proof (Z.mod_pos_bound Y 100 ltac:(lia)).
  destruct (quarter_split 36524 (Y / 100) cd) as [Hc Hcd2]; [lia..|].
  change (4 * 36524 + 1) with 146097 in Hc, Hcd2. rewrite <- Hn in Hc, Hcd2.
  destruct (quarter_split 365 (Y mod 100) yd) as [Hq Hyd2]; [lia..|].
  change (4 * 365 + 1) with 1461 in Hq, Hyd2. fold cd in Hq, Hyd2.
  unfold greg_Y, greg_yd. rewrite Hcd2, Hc, Hq, Hyd2.
  destruct (month_split mm dd) as [H1 H2]; [lia|done|]. fold yd in H1, H2. rewrite H1, H2.
  split_and!; try done. pose proof (Z.div_mod Y 100 ltac:(lia)). lia.
Qed.

Lemma greg_encode n :
  0 <= n ->
  0 <= greg_Y n /\ 0 <= greg_yd n <= year_days true (greg_Y n) /\
  greg_day (greg_Y n) ((5 * greg_yd n + 2) / 153) (((5 * greg_yd n + 2) mod 153) / 5 + 1) = n.
Proof.
  intros Hn. destruct (quarter_join 36524 n) as (Hc & Hcd & He); [lia..|].
  change (4 * 36524 + 1) with 146097 in *. cbv zeta in *.
  unfold greg_Y, greg_yd. set (c := (4 * n + 3) / 146097) in *.
  set (cd := ((4 * n + 3) mod 146097) / 4) in *. clearbody c cd.
  destruct (quarter_join 365 cd) as (Hq & Hyd & Hecd); [lia..|].
  change (4 * 365 + 1) with 1461 in *. cbv zeta in *.
  set (q := (4 * cd + 3) / 1461) in *. set (yd := ((4 * cd + 3) mod 1461) / 4) in *.
  assert (Hq99 : q <= 99).
  { unfold q. pose proof (b3_range c). assert ((4 * cd + 3) / 1461 < 100) by (apply Z.div_lt_upper_bound; lia). lia. }
  clearbody q yd.
  assert (Hdiv : (100 * c + q) / 100 = c).
  { symmetry. apply (Z.div_unique _ _ _ q); lia. }
  assert (Hmod : (100 * c + q) mod 100 = q).
  { symmetry. apply (Z.mod_unique _ _ c); lia. }
  split; [lia|]. split.
  - split; [lia|]. unfold year_days, leap_day. rewrite (mod_100_4 (100 * c + q)), Hmod. cbn [negb orb].
    unfold b3 in *. destruct (Z.eqb_spec q 99) as [->|].
    + rewrite mod_400_99, Hdiv by done. change (99 mod 4 =? 3) with true.
      change (1461 * 99 / 4) with 36159 in Hecd. cbn [negb orb andb].
      destruct (c mod 4 =? 3); lia.
    + cbn [negb orb]. rewrite andb_true_r. lia.
  - destruct (month_join yd ltac:(lia)) as (_ & _ & Hm). cbv zeta in Hm.
    unfold greg_day. rewrite Hdiv, Hmod. lia.
Qed.

Lemma greg_day_lower Y mm dd :
  88 <= Y -> 0 <= mm -> 1 <= dd -> 32044 < greg_day Y mm dd.
Proof.
  intros HY Hm Hd. unfold greg_day.
  assert (0 <= (153 * mm + 2) / 5) by (apply Z.div_pos; lia).
  pose proof (Z.mod_pos_bound Y 100 ltac:(lia)). pose proof (Z.div_mod Y 100 ltac:(lia)).
  assert (0 <= 1461 * (Y mod 100) / 4) by (apply Z.div_pos; lia).
  destruct (decide (1 <= Y / 100)).
  - assert (146097 * 1 / 4 <= 146097 * (Y / 100) / 4) by (apply Z.div_le_mono; lia).
    change (146097 * 1 / 4) with 36524 in *. lia.
  - assert (0 <= Y / 100) by (apply Z.div_pos; lia). assert (Y / 100 = 0) as E by lia.
    rewrite E in *. assert (1461 * 88 / 4 <= 1461 * (Y mod 100) / 4) by (apply Z.div_le_mono; lia).
    change (1461 * 88 / 4) with 32142 in *. change (146097 * 0 / 4) with 0. lia.
Qed.

Lemma greg_day_upper Y mm dd :
  0 <= Y <= 1469999 -> 0 <= mm <= 11 -> 1 <= dd <= 31 ->
  146097 * (Y / 100) <= 2147479803 /\ 0 <= greg_day Y mm dd <= 536906414 + 100.
Proof.
  intros HY Hm Hd. unfold greg_day.
  pose proof (Z.mod_pos_bound Y 100 ltac:(lia)).
  assert (0 <= Y / 100 <= 14699).
  { split; [apply Z.div_pos; lia|]. apply Z.lt_succ_r. apply Z.div_lt_upper_bound; lia. }
  split; [lia|].
  assert (0 <= 146097 * (Y / 100) / 4 <= 146097 * 14699 / 4).
  { split; [apply Z.div_pos; lia|apply Z.div_le_mono; lia]. }
  assert (0 <= 1461 * (Y mod 100) / 4 <= 1461 * 99 / 4).
  { split; [apply Z.div_pos; lia|apply Z.div_le_mono; lia]. }
  assert (0 <= (153 * mm + 2) / 5 <= (153 * 11 + 2) / 5).
  { split; [apply Z.div_pos; lia|apply Z.div_le_mono; lia]. }
  change (146097 * 14699 / 4) with 536869950 in *. change (1461 * 99 / 4) with 36159 in *.
  change ((153 * 11 + 2) / 5) with 337 in *. lia.
Qed.

Lemma GregorianToSdn_day y m d :
  -4714 <= y -> y <> 0 -> 1 <= m <= 12 -> 1 <= d <= 31 -> fst (march_of y m) <= 1469999 ->
  let '(Y, mm) := march_of y m in
  GregorianToSdn y m d =
    (if greg_day Y mm d <=? 32044 then 0 else greg_day Y mm d - 32044) /\ 0 <= Y <= 1469999.
Proof.
  intros Hy H0 Hm Hd HY1.
  assert (HY : 0 <= fst (march_of y m) <= 1469999 /\ y <= 1465200).
  { unfold march_of, astro in *. destruct (Z.ltb_spec y 0), (Z.ltb_spec 2 m); simpl in *; lia. }
  destruct HY as [HY Hy2]. clear HY1.
  pose proof (march_year_spec y m ltac:(lia) H0 ltac:(lia)) as HM.
  pose proof (to_date_march y m d H0 Hm) as Ht. unfold GregorianToSdn. rewrite HM. clear HM.
  destruct (march_of y m) as [Y mm] eqn:E. destruct Ht as [_ Hmm]. simpl in HY. split; [|done].
  rewrite (proj2 (Z.eqb_neq y 0)), (proj2 (Z.ltb_ge y (-4714))), (proj2 (Z.leb_gt m 0)),
    (proj2 (Z.ltb_ge 12 m)), (proj2 (Z.leb_gt d 0)), (proj2 (Z.ltb_ge 31 d)) by lia. cbn [orb].
  destruct (greg_day_upper Y mm d) as [Hmul Hup]; [lia..|].
  assert (Hval : s32 (s32 (Y /c 100 * DAYS_PER_400_YEARS) /c 4 + (Y %c 100 * DAYS_PER_4_YEARS) /c 4
      + (mm * DAYS_PER_5_MONTHS + 2) /c 5 + d - GREGOR_SDN_OFFSET) = greg_day Y mm d - 32044).
  { unfold DAYS_PER_400_YEARS, DAYS_PER_4_YEARS, DAYS_PER_5_MONTHS, GREGOR_SDN_OFFSET.
    pose proof (Z.mod_pos_bound Y 100 ltac:(lia)). assert (0 <= Y / 100) by (apply Z.div_pos; lia).
    rewrite (Z.quot_div_nonneg Y 100), (Z.rem_mod_nonneg Y 100) by lia.
    rewrite (s32_small (Y / 100 * 146097)) by (unfold INT_MIN, INT_MAX; lia).
    rewrite !Z.quot_div_nonneg by lia.
    rewrite (Z.mul_comm _ 146097), (Z.mul_comm _ 1461), (Z.mul_comm mm).
    unfold greg_day in *. rewrite s32_small by (unfold INT_MIN, INT_MAX; lia). lia. }
  rewrite Hval. clear Hval.
  destruct (Z.eqb_spec y (-4714)) as [->|Hne]; cbn [andb].
  - unfold march_of in E. change (astro (-4714) + 4800) with 87 in E. unfold greg_day.
    destruct (Z.ltb_spec 2 m); injection E as <- <-.
    + change (146097 * (87 / 100) / 4) with 0. change (1461 * (87 mod 100) / 4) with 31776.
      destruct (Z.ltb_spec m 11), (Z.eqb_spec m 11), (Z.ltb_spec d 25); cbn [orb andb]; try lia;
        subst; match goal with |- context [?a <=? 32044] => destruct (Z.leb_spec a 32044) end;
        try done; exfalso; Z.to_euclidean_division_equations; lia.
    + change (146097 * ((87 - 1) / 100) / 4) with 0. change (1461 * ((87 - 1) mod 100) / 4) with 31411.
      rewrite (proj2 (Z.ltb_lt m 11)) by lia. cbn [orb].
      match goal with |- context [?a <=? 32044] => destruct (Z.leb_spec a 32044) end; [done|].
      exfalso. Z.to_euclidean_division_equations. lia.
  - rewrite (proj2 (Z.leb_gt _ _)); [done|].
    unfold march_of, astro in E. destruct (Z.ltb_spec y 0), (Z.ltb_spec 2 m);
      injection E as <- <-; try (apply greg_day_lower; lia).
    destruct (decide (88 <= y + 1 + 4800 - 1)); [apply greg_day_lower; lia|].
    assert (y = -4713) as -> by lia. unfold greg_day.
    change (-4713 + 1 + 4800 - 1) with 87.
    change (146097 * (87 / 100) / 4) with 0. change (1461 * (87 mod 100) / 4) with 31776.
    Z.to_euclidean_division_equations. lia.
Qed.

Lemma SdnToGregorian_day sdn :
  1 <= sdn <= GREG_MAX ->
  let n := sdn + 32044 in
  SdnToGregorian sdn =
    to_date (greg_Y n) ((5 * greg_yd n + 2) / 153) (((5 * greg_yd n + 2) mod 153) / 5 + 1).
Proof.
  intros Hs n. unfold GREG_MAX in Hs. destruct (greg_encode n ltac:(unfold n; lia)) as (HY & Hyd & _).
  assert (Hyd' : 0 <= greg_yd n <= 365).
  { unfold year_days in Hyd. pose proof (leap_day_range true (greg_Y n)). lia. }
  unfold SdnToGregorian. rewrite (proj2 (Z.leb_gt sdn 0)) by lia.
  assert ((LONG_MAX - 4 * GREGOR_SDN_OFFSET) /c 4 = 2305843009213661906) as -> by reflexivity.
  rewrite (proj2 (Z.ltb_ge _ sdn)) by lia. cbn [orb]. cbv zeta.
  unfold GREGOR_SDN_OFFSET, DAYS_PER_400_YEARS, DAYS_PER_4_YEARS.
  replace ((sdn + 32045) * 4 - 1) with (4 * n + 3) by (unfold n; lia).
  pose proof (Z.mod_pos_bound (4 * n + 3) 146097 ltac:(lia)).
  assert (Hn4 : 0 <= 4 * n + 3) by (unfold n; lia).
  rewrite (Z.quot_div_nonneg (4 * n + 3)), (Z.rem_mod_nonneg (4 * n + 3)) by lia.
  rewrite (Z.quot_div_nonneg (_ mod 146097)) by lia.
  replace ((4 * n + 3) mod 146097 / 4 * 4 + 3) with (4 * ((4 * n + 3) mod 146097 / 4) + 3) by lia.
  assert (0 <= (4 * n + 3) mod 146097 / 4) by (apply Z.div_pos; lia).
  pose proof (Z.mod_pos_bound (4 * ((4 * n + 3) mod 146097 / 4) + 3) 1461 ltac:(lia)).
  rewrite (Z.quot_div_nonneg _ 1461), (Z.rem_mod_nonneg _ 1461) by lia.
  rewrite (Z.quot_div_nonneg (_ mod 1461)) by lia.
  assert (0 <= (4 * n + 3) / 146097 <= 14699).
  { split; [apply Z.div_pos; lia|]. apply Z.lt_succ_r, Z.div_lt_upper_bound; unfold n; lia. }
  assert (Hyear : greg_Y n = (4 * n + 3) / 146097 * 100 + (4 * ((4 * n + 3) mod 146097 / 4) + 3) / 1461).
  { unfold greg_Y. lia. }
  assert (0 <= (4 * ((4 * n + 3) mod 146097 / 4) + 3) / 1461 <= 100).
  { split; [apply Z.div_pos; lia|]. apply Z.lt_succ_r, Z.div_lt_upper_bound; [lia|].
    assert ((4 * n + 3) mod 146097 / 4 < 36525) by (apply Z.div_lt_upper_bound; lia). lia. }
  rewrite (s32_small ((4 * n + 3) / 146097)) by (unfold INT_MIN, INT_MAX; lia).
  rewrite (s32_small (_ * 100)) by (unfold INT_MIN, INT_MAX; lia). rewrite <- Hyear.
  rewrite (s32_small (greg_Y n)) by (unfold INT_MIN, INT_MAX; lia).
  apply month_and_day_spec; [unfold year_ok; lia|exact Hyd'].
Qed.

Lemma month_length_31 g y m : month_length g y m <= 31.
Proof. unfold month_length. repeat case_match; lia. Qed.

(** The first day the functions know of is 25 November 4714 B.C. *)
Lemma greg_first_year Y mm dd :
  0 <= Y -> 0 <= mm <= 11 -> 1 <= dd <= 31 -> 32045 <= greg_day Y mm dd ->
  87 <= Y \/ (Y = 86 /\ 10 <= mm).
Proof.
  intros HY Hm Hd Hn. destruct (decide (87 <= Y)); [by left|]. right.
  unfold greg_day in Hn. rewrite (Z.div_small Y 100), (Z.mod_small Y 100) in Hn by lia.
  change (146097 * 0 / 4) with 0 in Hn.
  assert ((153 * mm + 2) / 5 <= (153 * 11 + 2) / 5) by (apply Z.div_le_mono; lia).
  change ((153 * 11 + 2) / 5) with 337 in *.
  destruct (decide (Y = 86)) as [->|].
  - change (1461 * 86 / 4) with 31411 in Hn. split; [done|].
    destruct (decide (10 <= mm)); [done|].
    assert ((153 * mm + 2) / 5 <= (153 * 9 + 2) / 5) by (apply Z.div_le_mono; lia).
    change ((153 * 9 + 2) / 5) with 275 in *. lia.
  - assert (1461 * Y / 4 <= 1461 * 85 / 4) by (apply Z.div_le_mono; lia).
    change (1461 * 85 / 4) with 31046 in *. lia.
Qed.

Lemma to_date_year Y mm dd :
  0 <= mm <= 11 -> (87 <= Y \/ (Y = 86 /\ 10 <= mm)) -> -4714 <= fst (fst (to_date Y mm dd)).
Proof.
  intros Hm HY. unfold to_date. destruct (Z.ltb_spec mm 10); simpl; case_match; lia.
Qed.

Lemma greg_to_and_back sdn :
  1 <= sdn <= GREG_MAX ->
  let '(y, m, d) := SdnToGregorian sdn in
  valid_date true (y, m, d) /\ GregorianToSdn y m d = sdn /\ -4714 <= y /\
  fst (march_of y m) <= 1469999.
Proof.
  intros Hs. rewrite (SdnToGregorian_day sdn Hs). unfold GREG_MAX in Hs.
  set (n := sdn + 32044). destruct (greg_encode n ltac:(unfold n; lia)) as (HY & Hyd & Hn).
  destruct (march_length_split _ _ _ Hyd) as [Hm Hd]. cbv zeta in Hm, Hd.
  set (mm := (5 * greg_yd n + 2) / 153) in *. set (dd := _ / 5 + 1) in *. set (Y := greg_Y n) in *.
  pose proof (march_to_date Y mm dd Hm) as Hto.
  assert (HY2 : Y <= 1469999).
  { unfold Y, greg_Y. clear -Hs. assert ((4 * n + 3) / 146097 <= 14699).
    { apply Z.lt_succ_r, Z.div_lt_upper_bound; unfold n; lia. }
    pose proof (Z.mod_pos_bound (4 * n + 3) 146097 ltac:(lia)).
    destruct (quarter_join 36524 n ltac:(lia) ltac:(unfold n; lia)) as (_ & Hcd & _).
    change (4 * 36524 + 1) with 146097 in Hcd. pose proof (b3_range ((4 * n + 3) / 146097)).
    assert ((4 * ((4 * n + 3) mod 146097 / 4) + 3) / 1461 < 100) by (apply Z.div_lt_upper_bound; lia).
    lia. }
  pose proof (to_date_year Y mm dd Hm) as Hyear.
  destruct (to_date Y mm dd) as [[y m] d] eqn:E. destruct Hto as (Hmo & -> & H0 & Hm12).
  pose proof (month_length_march true y m H0 Hm12) as Hml. rewrite Hmo in Hml.
  assert (Hvalid : valid_date true (y, m, dd)) by (split; [done|split; [done|lia]]).
  assert (Hd31 : 1 <= dd <= 31) by (pose proof (month_length_31 true y m); lia).
  assert (Hy : -4714 <= y).
  { apply Hyear. apply (greg_first_year Y mm dd); [lia|lia|lia|]. unfold n in Hn. lia. }
  split_and!; [done| |done|by rewrite Hmo].
  pose proof (GregorianToSdn_day y m dd Hy H0 Hm12 Hd31) as Hg. rewrite Hmo in Hg.
  destruct (Hg HY2) as [-> _]. rewrite Hn. rewrite (proj2 (Z.leb_gt _ _)); unfold n; lia.
Qed.

Lemma greg_from_and_back y m d :
  valid_date true (y, m, d) -> 1 <= GregorianToSdn y m d <= GREG_MAX -> -4714 <= y ->
  fst (march_of y m) <= 1469999 ->
  SdnToGregorian (GregorianToSdn y m d) = (y, m, d).
Proof.
  intros (H0 & Hm & Hd) Hs Hy HY. rewrite (SdnToGregorian_day _ Hs).
  pose proof (month_length_31 true y m).
  pose proof (GregorianToSdn_day y m d Hy H0 Hm ltac:(lia) HY) as Hg.
  pose proof (month_length_march true y m H0 Hm) as Hml.
  pose proof (to_date_march y m d H0 Hm) as Hto.
  destruct (march_of y m) as [Y mm]. destruct Hg as [Hg HYr]. destruct Hto as [Hto Hmm].
  rewrite Hg in *. destruct (Z.leb_spec (greg_day Y mm d) 32044); [lia|].
  replace (greg_day Y mm d - 32044 + 32044) with (greg_day Y mm d) by lia.
  destruct (greg_decode Y mm d) as (-> & -> & ->); [lia|done|lia|]. exact Hto.
Qed.

(** ** The day after *)

Lemma quarter_succ k a : 0 <= k -> (4 * k + 1) * (a + 1) / 4 = (4 * k + 1) * a / 4 + k + b3 a.
Proof.
  intros Hk. pose proof (Z.div_mod a 4 ltac:(lia)) as Hd. pose proof (Z.mod_pos_bound a 4 ltac:(lia)) as He.
  unfold b3. set (b := a / 4) in *. set (e := a mod 4) in *. clearbody b e. subst a.
  replace ((4 * k + 1) * (4 * b + e + 1)) with (e + 1 + ((4 * k + 1) * b + k * (e + 1)) * 4) by ring.
  replace ((4 * k + 1) * (4 * b + e)) with (e + ((4 * k + 1) * b + k * e) * 4) by ring.
  rewrite !Z.div_add, (Z.div_small e) by lia.
  destruct (Z.eqb_spec e 3) as [->|]; [change ((3 + 1) / 4) with 1|rewrite Z.div_small by lia]; lia.
Qed.

Lemma greg_year_succ Y :
  0 <= Y -> greg_day (Y + 1) 0 1 = greg_day Y 11 (28 + leap_day true Y) + 1.
Proof.
  intros HY. unfold greg_day. change ((153 * 0 + 2) / 5) with 0. change ((153 * 11 + 2) / 5) with 337.
  pose proof (Z.mod_pos_bound Y 100 ltac:(lia)). pose proof (Z.div_mod Y 100 ltac:(lia)).
  unfold leap_day. rewrite (mod_100_4 Y). cbn [negb orb].
  destruct (Z.eqb_spec (Y mod 100) 99) as [H99|Hn].
  - rewrite (mod_400_99 Y H99), H99.
    replace ((Y + 1) / 100) with (Y / 100 + 1) by (apply (Z.div_unique _ _ _ 0); lia).
    replace ((Y + 1) mod 100) with 0 by (apply (Z.mod_unique _ _ (Y / 100 + 1)); lia).
    pose proof (quarter_succ 36524 (Y / 100) ltac:(lia)) as Hq. change (4 * 36524 + 1) with 146097 in Hq.
    rewrite Hq. unfold b3. change (1461 * 0 / 4) with 0. change (1461 * 99 / 4) with 36159.
    change (99 mod 4 =? 3) with true. cbn [negb orb andb]. destruct (_ =? 3); lia.
  - replace ((Y + 1) / 100) with (Y / 100) by (apply (Z.div_unique _ _ _ (Y mod 100 + 1)); lia).
    replace ((Y + 1) mod 100) with (Y mod 100 + 1) by (apply (Z.mod_unique _ _ (Y / 100)); lia).
    pose proof (quarter_succ 365 (Y mod 100) ltac:(lia)) as Hq. change (4 * 365 + 1) with 1461 in Hq.
    rewrite Hq. unfold b3. cbn [negb orb]. rewrite andb_true_r. destruct (_ =? 3); lia.
Qed.

(** Given the length of the year, the day after follows in the count of days. *)
Lemma next_day_march g (day : Z -> Z -> Z -> Z) y m d :
  (forall Y mm dd dd', day Y mm dd' = day Y mm dd + (dd' - dd)) ->
  (forall Y mm, 0 <= mm <= 10 -> day Y (mm + 1) 1 = day Y mm (march_length mm) + 1) ->
  (forall Y, 0 <= Y -> day (Y + 1) 0 1 = day Y 11 (28 + leap_day g Y) + 1) ->
  valid_date g (y, m, d) -> -4799 <= y ->
  let '(y', m', d') := next_day g (y, m, d) in
  valid_date g (y', m', d') /\ y <= y' /\
  (let '(Y, mm) := march_of y m in let '(Y', mm') := march_of y' m' in
   day Y' mm' d' = day Y mm d + 1).
Proof.
  intros Hlin Hmon Hyr (H0 & Hm & Hd) Hy. unfold next_day.
  pose proof (month_length_march g y m H0 Hm) as Hml. destruct (Z.ltb_spec d (month_length g y m)).
  { split; [split; [done|split; [done|lia]]|]. split; [lia|].
    destruct (march_of y m). rewrite (Hlin _ _ d (d + 1)). lia. }
  assert (d = month_length g y m) as -> by lia.
  assert (Hpos : forall y m, 1 <= month_length g y m).
  { intros. unfold month_length. repeat case_match; lia. }
  destruct (Z.ltb_spec m 12).
  - split; [split; [done|split; [lia|split; [lia|apply Hpos]]]|]. split; [lia|].
    unfold march_of in *. destruct (Z.ltb_spec 2 m), (Z.ltb_spec 2 (m + 1)); try lia; rewrite Hml.
    + replace (m + 1 - 3) with (m - 3 + 1) by lia. unfold march_month_length.
      rewrite (proj2 (Z.eqb_neq (m - 3) 11)) by lia. rewrite Hmon by lia. done.
    + assert (m = 2) as -> by lia. change (2 + 1 - 3) with 0. change (2 + 9) with 11.
      unfold march_month_length. cbn [Z.eqb].
      replace (astro y + 4800) with (astro y + 4800 - 1 + 1) at 1 by lia.
      rewrite Hyr; [done|]. unfold astro. case_match; lia.
    + assert (m = 1) as -> by lia. change (1 + 1 + 9) with (10 + 1). change (1 + 9) with 10.
      unfold march_month_length. cbn [Z.eqb]. by rewrite Hmon by lia.
  - assert (m = 12) as -> by lia.
    split; [split; [|split; [lia|split; [lia|apply Hpos]]]|].
    { destruct (Z.eqb_spec y (-1)); lia. }
    split; [destruct (Z.eqb_spec y (-1)); lia|].
    unfold march_of in *. change (2 <? 12) with true in *. change (2 <? 1) with false. cbv iota in *.
    rewrite Hml. change (12 - 3) with 9. change (1 + 9) with (9 + 1).
    replace (astro (if y =? -1 then 1 else y + 1) + 4800 - 1) with (astro y + 4800).
    2:{ unfold astro. destruct (Z.eqb_spec y (-1)) as [->|]; [done|].
        destruct (Z.ltb_spec y 0), (Z.ltb_spec (y + 1) 0); lia. }
    unfold march_month_length. cbn [Z.eqb]. by rewrite Hmon by lia.
Qed.

Lemma greg_day_large Y mm dd :
  1470000 <= Y -> 0 <= mm -> 1 <= dd -> GREG_MAX + 32044 < greg_day Y mm dd.
Proof.
  intros HY Hm Hd. unfold greg_day, GREG_MAX.
  assert (0 <= (153 * mm + 2) / 5) by (apply Z.div_pos; lia).
  pose proof (Z.mod_pos_bound Y 100 ltac:(lia)).
  assert (0 <= 1461 * (Y mod 100) / 4) by (apply Z.div_pos; lia).
  assert (14700 <= Y / 100) by (apply Z.div_le_lower_bound; lia).
  assert (146097 * 14700 / 4 <= 146097 * (Y / 100) / 4) by (apply Z.div_le_mono; lia).
  change (146097 * 14700 / 4) with 536906475 in *. lia.
Qed.

Lemma greg_next sdn :
  1 <= sdn < GREG_MAX -> SdnToGregorian (sdn + 1) = next_day true (SdnToGregorian sdn).
Proof.
  intros Hs. pose proof (greg_to_and_back sdn ltac:(unfold GREG_MAX in *; lia)) as Hb.
  destruct (SdnToGregorian sdn) as [[y m] d]. destruct Hb as (Hv & He & Hy & HY).
  pose proof (next_day_march true greg_day y m d) as Hnx.
  destruct (next_day true (y, m, d)) as [[y' m'] d'] eqn:En.
  destruct Hnx as (Hv' & Hyy & Hday); [| | |done|lia|].
  { intros. unfold greg_day. lia. }
  { intros. unfold greg_day, march_length. lia. }
  { apply greg_year_succ. }
  destruct Hv as (H0 & Hm & Hd). pose proof Hv' as (H0' & Hm' & Hd').
  pose proof (month_length_31 true y m). pose proof (month_length_31 true y' m').
  pose proof (GregorianToSdn_day y m d Hy H0 Hm ltac:(lia) HY) as Hg.
  assert (HY' : fst (march_of y' m') <= 1469999).
  { pose proof (to_date_march y' m' d' H0' Hm') as Ht.
    destruct (march_of y m) as [Y mm], (march_of y' m') as [Y' mm']. destruct Hg as [Hg _], Ht as [_ Ht].
    simpl. destruct (Z.le_gt_cases Y' 1469999) as [|Hbig]; [done|exfalso].
    pose proof (greg_day_large Y' mm' d' ltac:(lia) ltac:(lia) ltac:(lia)).
    rewrite Hg in He. destruct (Z.leb_spec (greg_day Y mm d) 32044); unfold GREG_MAX in *; lia. }
  pose proof (GregorianToSdn_day y' m' d' ltac:(lia) H0' Hm' ltac:(lia) HY') as Hg'.
  assert (He' : GregorianToSdn y' m' d' = sdn + 1).
  { destruct (march_of y m) as [Y mm], (march_of y' m') as [Y' mm'].
    destruct Hg as [Hg _], Hg' as [Hg' _]. rewrite Hg'. rewrite Hg in He.
    destruct (Z.leb_spec (greg_day Y mm d) 32044); [lia|].
    rewrite (proj2 (Z.leb_gt _ _)); lia. }
  rewrite <- He'. apply greg_from_and_back; [done|lia|lia|done].
Qed.

(** The first valid day number is 25 November 4714 B.C. *)
Lemma greg_first_day : SdnToGregorian 1 = (-4714, 11, 25).
Proof. reflexivity. Qed.

(** ** The Julian calendar *)

(** The largest day number whose date can be converted back: beyond it
    [year * DAYS_PER_4_YEARS] leaves an [int]. *)
Definition JULIAN_MAX : Z := 536839030.

(** [sdn + 32082] from the year counted from March, the month and the day. *)
Definition julian_day (Y mm dd : Z) : Z := 1461 * Y / 4 + (153 * mm + 2) / 5 + dd - 1.

Lemma julian_room Y yd : 0 <= yd <= year_days false Y -> yd <= 365 - 1 + b3 Y.
Proof. unfold year_days, leap_day, b3. cbn [negb orb]. rewrite andb_true_r. case_match; lia. Qed.

Lemma julian_decode Y mm dd :
  0 <= Y -> 0 <= mm <= 11 -> 1 <= dd <= march_month_length false Y mm ->
  let n := julian_day Y mm dd in let yd := ((4 * n + 3) mod 1461) / 4 in
  (4 * n + 3) / 1461 = Y /\ (5 * yd + 2) / 153 = mm /\ ((5 * yd + 2) mod 153) / 5 + 1 = dd.
Proof.
  intros HY Hm Hd. destruct (march_length_total _ _ _ _ Hm Hd) as [Hd' Hyd].
  pose proof (julian_room _ _ Hyd) as Hr. set (r := (153 * mm + 2) / 5 + dd - 1) in *.
  destruct (quarter_split 365 Y r) as [Hq Hyd2]; [lia..|].
  change (4 * 365 + 1) with 1461 in *.
  assert (julian_day Y mm dd = 1461 * Y / 4 + r) as -> by (unfold julian_day, r; lia).
  cbv zeta. rewrite Hq, Hyd2. destruct (month_split mm dd) as [H1 H2]; [lia|done|].
  fold r in H1, H2. by rewrite H1, H2.
Qed.

Lemma julian_encode n :
  0 <= n ->
  let Y := (4 * n + 3) / 1461 in let yd := ((4 * n + 3) mod 1461) / 4 in
  0 <= Y /\ 0 <= yd <= year_days false Y /\
  julian_day Y ((5 * yd + 2) / 153) (((5 * yd + 2) mod 153) / 5 + 1) = n.
Proof.
  intros Hn. destruct (quarter_join 365 n) as (Hq & Hyd & He); [lia..|].
  change (4 * 365 + 1) with 1461 in *. cbv zeta in *.
  set (Y := (4 * n + 3) / 1461) in *. set (yd := ((4 * n + 3) mod 1461) / 4) in *. clearbody Y yd.
  split; [done|]. split.
  - unfold year_days, leap_day, b3 in *. cbn [negb orb]. rewrite andb_true_r. case_match; lia.
  - destruct (month_join yd ltac:(lia)) as (_ & _ & Hm). cbv zeta in Hm. unfold julian_day. lia.
Qed.

Lemma JulianToSdn_day y m d :
  -4713 <= y -> y <> 0 -> 1 <= m <= 12 -> 1 <= d <= 31 -> fst (march_of y m) <= 1469872 ->
  let '(Y, mm) := march_of y m in
  JulianToSdn y m d = julian_day Y mm d - 32082 /\ 87 <= Y <= 1469872.
Proof.
  intros Hy H0 Hm Hd HY1.
  assert (HY : 87 <= fst (march_of y m) <= 1469872 /\ y <= 1465200).
  { unfold march_of, astro in *. destruct (Z.ltb_spec y 0), (Z.ltb_spec 2 m); simpl in *; lia. }
  destruct HY as [HY Hy2]. clear HY1.
  pose proof (march_year_spec y m ltac:(lia) H0 ltac:(lia)) as HM.
  pose proof (to_date_march y m d H0 Hm) as Ht. unfold JulianToSdn. rewrite HM. clear HM.
  destruct (march_of y m) as [Y mm] eqn:E. destruct Ht as [_ Hmm]. simpl in HY. split; [|done].
  rewrite (proj2 (Z.eqb_neq y 0)), (proj2 (Z.ltb_ge y (-4713))), (proj2 (Z.leb_gt m 0)),
    (proj2 (Z.ltb_ge 12 m)), (proj2 (Z.leb_gt d 0)), (proj2 (Z.ltb_ge 31 d)) by lia. cbn [orb].
  destruct (Z.eqb_spec y (-4713)) as [->|Hne], (Z.eqb_spec m 1) as [->|Hne1],
    (Z.eqb_spec d 1) as [->|Hne2]; cbn [andb].
  { injection E as <- <-. reflexivity. }
  all: unfold DAYS_PER_4_YEARS, DAYS_PER_5_MONTHS, JULIAN_SDN_OFFSET, julian_day;
    rewrite (s32_small (Y * 1461)) by (unfold INT_MIN, INT_MAX; lia);
    rewrite !Z.quot_div_nonneg by lia;
    rewrite (Z.mul_comm Y), (Z.mul_comm mm).
  all: assert (0 <= 1461 * Y / 4 <= 1461 * 1469872 / 4)
    by (split; [apply Z.div_pos; lia|apply Z.div_le_mono; lia]).
  all: assert (0 <= (153 * mm + 2) / 5 <= (153 * 11 + 2) / 5)
    by (split; [apply Z.div_pos; lia|apply Z.div_le_mono; lia]).
  all: change (1461 * 1469872 / 4) with 536870748 in *; change ((153 * 11 + 2) / 5) with 337 in *.
  all: rewrite s32_small by (unfold INT_MIN, INT_MAX; lia); lia.
Qed.

Lemma SdnToJulian_day sdn :
  1 <= sdn <= JULIAN_MAX ->
  let n := sdn + 32082 in let yd := ((4 * n + 3) mod 1461) / 4 in
  SdnToJulian sdn =
    to_date ((4 * n + 3) / 1461) ((5 * yd + 2) / 153) (((5 * yd + 2) mod 153) / 5 + 1).
Proof.
  intros Hs n yd. unfold JULIAN_MAX in Hs.
  destruct (julian_encode n ltac:(unfold n; lia)) as (HY & Hyd & _).
  assert (Hyd' : 0 <= yd <= 365).
  { unfold year_days in Hyd. pose proof (leap_day_range false ((4 * n + 3) / 1461)). fold yd in Hyd. lia. }
  assert (HY2 : (4 * n + 3) / 1461 <= 1469872).
  { apply Z.lt_succ_r, Z.div_lt_upper_bound; unfold n; lia. }
  unfold SdnToJulian. rewrite (proj2 (Z.leb_gt sdn 0)) by lia.
  assert ((LONG_MAX - JULIAN_SDN_OFFSET * 4 + 1) /c 4 = 2305843009213661869) as -> by reflexivity.
  assert (LONG_MIN /c 4 = -2305843009213693952) as -> by reflexivity.
  rewrite (proj2 (Z.ltb_ge _ sdn)), (proj2 (Z.ltb_ge sdn _)) by lia. cbn [orb]. cbv zeta.
  unfold JULIAN_SDN_OFFSET, DAYS_PER_4_YEARS.
  replace (sdn * 4 + (32083 * 4 - 1)) with (4 * n + 3) by (unfold n; lia).
  rewrite (Z.quot_div_nonneg (4 * n + 3)), (Z.rem_mod_nonneg (4 * n + 3)) by (unfold n; lia).
  pose proof (Z.mod_pos_bound (4 * n + 3) 1461 ltac:(lia)).
  rewrite (Z.quot_div_nonneg (_ mod 1461)) by lia. fold yd.
  rewrite (proj2 (Z.ltb_ge INT_MAX _)), (proj2 (Z.ltb_ge _ INT_MIN)) by (unfold INT_MIN, INT_MAX; lia).
  cbn [orb]. rewrite s32_small by (unfold INT_MIN, INT_MAX; lia).
  apply month_and_day_spec; [unfold year_ok; lia|exact Hyd'].
Qed.

Lemma julian_first_year Y mm dd :
  0 <= Y -> 0 <= mm <= 11 -> 1 <= dd <= 31 -> 32083 <= julian_day Y mm dd ->
  88 <= Y \/ (Y = 87 /\ 10 <= mm).
Proof.
  intros HY Hm Hd Hn. destruct (decide (88 <= Y)); [by left|]. right. unfold julian_day in Hn.
  assert ((153 * mm + 2) / 5 <= (153 * 11 + 2) / 5) by (apply Z.div_le_mono; lia).
  change ((153 * 11 + 2) / 5) with 337 in *.
  destruct (decide (Y = 87)) as [->|].
  - change (1461 * 87 / 4) with 31776 in Hn. split; [done|].
    destruct (decide (10 <= mm)); [done|].
    assert ((153 * mm + 2) / 5 <= (153 * 9 + 2) / 5) by (apply Z.div_le_mono; lia).
    change ((153 * 9 + 2) / 5) with 275 in *. lia.
  - assert (1461 * Y / 4 <= 1461 * 86 / 4) by (apply Z.div_le_mono; lia).
    change (1461 * 86 / 4) with 31411 in *. lia.
Qed.

Lemma julian_date_year Y mm dd :
  88 <= Y \/ (Y = 87 /\ 10 <= mm) -> -4713 <= fst (fst (to_date Y mm dd)).
Proof.
  intros HY. unfold to_date. destruct (Z.ltb_spec mm 10); simpl;
    match goal with |- context [?a <=? 0] => destruct (Z.leb_spec a 0) end; lia.
Qed.

Lemma julian_to_and_back sdn :
  1 <= sdn <= JULIAN_MAX ->
  let '(y, m, d) := SdnToJulian sdn in
  valid_date false (y, m, d) /\ JulianToSdn y m d = sdn /\ -4713 <= y /\
  fst (march_of y m) <= 1469872.
Proof.
  intros Hs. rewrite (SdnToJulian_day sdn Hs). unfold JULIAN_MAX in Hs.
  set (n := sdn + 32082). destruct (julian_encode n ltac:(unfold n; lia)) as (HY & Hyd & Hn).
  destruct (march_length_split _ _ _ Hyd) as [Hm Hd]. cbv zeta in *.
  assert (HY2 : (4 * n + 3) / 1461 <= 1469872).
  { apply Z.lt_succ_r, Z.div_lt_upper_bound; unfold n; lia. }
  set (yd := _ mod 1461 / 4) in *. set (Y := _ / 1461) in *.
  set (mm := _ / 153) in *. set (dd := _ / 5 + 1) in *.
  pose proof (march_to_date Y mm dd Hm) as Hto.
  pose proof (julian_date_year Y mm dd) as Hyear.
  destruct (to_date Y mm dd) as [[y m] d] eqn:E. destruct Hto as (Hmo & -> & H0 & Hm12).
  pose proof (month_length_march false y m H0 Hm12) as Hml. rewrite Hmo in Hml.
  assert (Hvalid : valid_date false (y, m, dd)) by (split; [done|split; [done|lia]]).
  assert (Hd31 : 1 <= dd <= 31) by (pose proof (month_length_31 false y m); lia).
  assert (Hy : -4713 <= y).
  { apply Hyear. apply (julian_first_year Y mm dd); [lia|lia|lia|]. unfold n in Hn. lia. }
  split_and!; [done| |done|by rewrite Hmo].
  pose proof (JulianToSdn_day y m dd Hy H0 Hm12 Hd31) as Hg. rewrite Hmo in Hg.
  destruct (Hg HY2) as [-> _]. rewrite Hn. unfold n. lia.
Qed.

Lemma julian_from_and_back y m d :
  valid_date false (y, m, d) -> 1 <= JulianToSdn y m d <= JULIAN_MAX -> -4713 <= y ->
  fst (march_of y m) <= 1469872 ->
  SdnToJulian (JulianToSdn y m d) = (y, m, d).
Proof.
  intros (H0 & Hm & Hd) Hs Hy HY. rewrite (SdnToJulian_day _ Hs).
  pose proof (month_length_31 false y m).
  pose proof (JulianToSdn_day y m d Hy H0 Hm ltac:(lia) HY) as Hg.
  pose proof (month_length_march false y m H0 Hm) as Hml.
  pose proof (to_date_march y m d H0 Hm) as Hto.
  destruct (march_of y m) as [Y mm]. destruct Hg as [Hg HYr]. destruct Hto as [Hto Hmm].
  rewrite Hg in *. replace (julian_day Y mm d - 32082 + 32082) with (julian_day Y mm d) by lia.
  destruct (julian_decode Y mm d) as (-> & -> & ->); [lia|done|lia|]. exact Hto.
Qed.

Lemma julian_year_succ Y :
  0 <= Y -> julian_day (Y + 1) 0 1 = julian_day Y 11 (28 + leap_day false Y) + 1.
Proof.
  intros HY. unfold julian_day. change ((153 * 0 + 2) / 5) with 0. change ((153 * 11 + 2) / 5) with 337.
  unfold leap_day. cbn [negb orb]. rewrite andb_true_r.
  pose proof (quarter_succ 365 Y ltac:(lia)) as Hq. change (4 * 365 + 1) with 1461 in Hq.
  rewrite Hq. unfold b3. destruct (_ =? 3); lia.
Qed.

Lemma julian_next sdn :
  1 <= sdn < JULIAN_MAX -> SdnToJulian (sdn + 1) = next_day false (SdnToJulian sdn).
Proof.
  intros Hs. pose proof (julian_to_and_back sdn ltac:(unfold JULIAN_MAX in *; lia)) as Hb.
  destruct (SdnToJulian sdn) as [[y m] d]. destruct Hb as (Hv & He & Hy & HY).
  pose proof (next_day_march false julian_day y m d) as Hnx.
  destruct (next_day false (y, m, d)) as [[y' m'] d'] eqn:En.
  destruct Hnx as (Hv' & Hyy & Hday); [| | |done|lia|].
  { intros. unfold julian_day. lia. }
  { intros. unfold julian_day, march_length. lia. }
  { apply julian_year_succ. }
  destruct Hv as (H0 & Hm & Hd). pose proof Hv' as (H0' & Hm' & Hd').
  pose proof (month_length_31 false y m). pose proof (month_length_31 false y' m').
  pose proof (JulianToSdn_day y m d Hy H0 Hm ltac:(lia) HY) as Hg.
  assert (HY' : fst (march_of y' m') <= 1469872).
  { pose proof (to_date_march y' m' d' H0' Hm') as Ht.
    destruct (march_of y m) as [Y mm], (march_of y' m') as [Y' mm']. destruct Hg as [Hg _], Ht as [_ Ht].
    simpl. destruct (Z.le_gt_cases Y' 1469872) as [|Hbig]; [done|exfalso].
    assert (1461 * 1469873 / 4 <= 1461 * Y' / 4) by (apply Z.div_le_mono; lia).
    change (1461 * 1469873 / 4) with 536871113 in *.
    assert (0 <= (153 * mm' + 2) / 5) by (apply Z.div_pos; lia).
    unfold JULIAN_MAX, julian_day in *. lia. }
  pose proof (JulianToSdn_day y' m' d' ltac:(lia) H0' Hm' ltac:(lia) HY') as Hg'.
  assert (He' : JulianToSdn y' m' d' = sdn + 1).
  { destruct (march_of y m) as [Y mm], (march_of y' m') as [Y' mm'].
    destruct Hg as [Hg _], Hg' as [Hg' _]. lia. }
  rewrite <- He'. apply julian_from_and_back; [done|lia|lia|done].
Qed.

(** ** The French republican calendar *)

(** The fifteen leap days of a year of 365 or 366 days of twelve months of
    30 days: the years 3, 7 and 11 have a sixth complementary day. *)
Definition french_month_length (year month : Z) : Z :=
  if month =? 13 then (if year mod 4 =? 3 then 6 else 5) else 30.
Definition french_valid (date : Z * Z * Z) : Prop :=
  let '(y, m, d) := date in
  1 <= y <= 14 /\ 1 <= m <= 13 /\ 1 <= d <= french_month_length y m.

Lemma french_to_and_back sdn :
  FIRST_VALID <= sdn <= LAST_VALID ->
  let '(y, m, d) := SdnToFrench sdn in french_valid (y, m, d) /\ FrenchToSdn y m d = sdn.
Proof.
  intros Hs. unfold SdnToFrench. rewrite (proj2 (Z.ltb_ge _ _)), (proj2 (Z.ltb_ge _ _)) by lia.
  cbn [orb]. unfold FIRST_VALID, LAST_VALID, FRENCH_SDN_OFFSET, DAYS_PER_4_YEARS, DAYS_PER_MONTH in *.
  set (n := sdn - 2375475). replace ((sdn - 2375474) * 4 - 1) with (4 * n + 3) by (unfold n; lia).
  rewrite (Z.quot_div_nonneg (4 * n + 3)), (Z.rem_mod_nonneg (4 * n + 3)) by (unfold n; lia).
  pose proof (Z.mod_pos_bound (4 * n + 3) 1461 ltac:(lia)).
  rewrite (Z.quot_div_nonneg (_ mod 1461)) by lia.
  destruct (quarter_join 365 n) as (Hq & Hyd & He); [unfold n; lia..|].
  change (4 * 365 + 1) with 1461 in *. cbv zeta in *.
  assert (1 <= (4 * n + 3) / 1461 <= 14).
  { split; [apply Z.div_le_lower_bound; unfold n; lia|].
    apply Z.lt_succ_r, Z.div_lt_upper_bound; unfold n; lia. }
  set (Y := (4 * n + 3) / 1461) in *. set (yd := _ mod 1461 / 4) in *. clearbody Y yd.
  pose proof (b3_range Y). rewrite Z.quot_div_nonneg, Z.rem_mod_nonneg by lia.
  pose proof (Z.div_mod yd 30 ltac:(lia)). pose proof (Z.mod_pos_bound yd 30 ltac:(lia)).
  assert (0 <= yd / 30) by (apply Z.div_pos; lia).
  set (q := yd / 30) in *. set (r := yd mod 30) in *. clearbody q r.
  assert (q <= 12) by lia.
  split.
  - split; [lia|]. split; [lia|]. unfold french_month_length, b3 in *.
    destruct (Z.eqb_spec (q + 1) 13); [|lia]. destruct (_ =? 3); lia.
  - unfold FrenchToSdn. rewrite !(proj2 (Z.ltb_ge _ _)) by lia. cbn [orb].
    unfold DAYS_PER_4_YEARS, DAYS_PER_MONTH, FRENCH_SDN_OFFSET.
    rewrite Z.quot_div_nonneg by lia. rewrite (Z.mul_comm Y). unfold n in *. lia.
Qed.

Lemma french_from_and_back y m d :
  french_valid (y, m, d) ->
  FIRST_VALID <= FrenchToSdn y m d <= LAST_VALID /\ SdnToFrench (FrenchToSdn y m d) = (y, m, d).
Proof.
  intros (Hy & Hm & Hd).
  assert (Hd30 : d <= 30) by (unfold french_month_length in Hd; repeat case_match; lia).
  assert (He : FrenchToSdn y m d = 1461 * y / 4 + ((m - 1) * 30 + (d - 1)) + 2375475).
  { unfold FrenchToSdn. rewrite !(proj2 (Z.ltb_ge _ _)) by lia. cbn [orb].
    unfold DAYS_PER_4_YEARS, DAYS_PER_MONTH, FRENCH_SDN_OFFSET.
    rewrite Z.quot_div_nonneg by lia. rewrite (Z.mul_comm y). lia. }
  assert (Hr : 0 <= (m - 1) * 30 + (d - 1) <= 365 - 1 + b3 y).
  { unfold french_month_length, b3 in *. destruct (Z.eqb_spec m 13), (_ =? 3); lia. }
  destruct (quarter_split 365 y ((m - 1) * 30 + (d - 1))) as [Hq Hyd]; [lia..|].
  change (4 * 365 + 1) with 1461 in *. set (r := (m - 1) * 30 + (d - 1)) in *.
  assert (Hb : FIRST_VALID <= FrenchToSdn y m d <= LAST_VALID).
  { rewrite He. unfold FIRST_VALID, LAST_VALID, b3 in *.
    assert (1461 * 1 / 4 <= 1461 * y / 4) by (apply Z.div_le_mono; lia).
    change (1461 * 1 / 4) with 365 in *.
    destruct (decide (y = 14)) as [->|].
    - change (1461 * 14 / 4) with 5113 in *. change (14 mod 4 =? 3) with false in *. cbv iota in Hr. lia.
    - assert (1461 * y / 4 <= 1461 * 13 / 4) by (apply Z.div_le_mono; lia).
      change (1461 * 13 / 4) with 4748 in *. destruct (_ =? 3); lia. }
  split; [exact Hb|]. unfold SdnToFrench. rewrite !(proj2 (Z.ltb_ge _ _)) by lia. cbn [orb]. cbv zeta.
  unfold FRENCH_SDN_OFFSET, DAYS_PER_4_YEARS, DAYS_PER_MONTH.
  set (n := 1461 * y / 4 + r) in *.
  replace ((FrenchToSdn y m d - 2375474) * 4 - 1) with (4 * n + 3) by lia.
  assert (0 <= n) by (unfold FIRST_VALID in Hb; lia).
  rewrite (Z.quot_div_nonneg (4 * n + 3)), (Z.rem_mod_nonneg (4 * n + 3)) by lia.
  pose proof (Z.mod_pos_bound (4 * n + 3) 1461 ltac:(lia)).
  rewrite (Z.quot_div_nonneg (_ mod 1461)) by lia. rewrite Hq, Hyd.
  rewrite Z.quot_div_nonneg, Z.rem_mod_nonneg by lia.
  assert (r / 30 = m - 1) as ->.
  { symmetry. apply (Z.div_unique _ _ _ (d - 1)); unfold r; lia. }
  assert (r mod 30 = d - 1) as ->.
  { symmetry. apply (Z.mod_unique _ _ (m - 1)); unfold r; lia. }
  f_equal; [f_equal|]; lia.
Qed.
