(* ===== verification/CalendarExtSpec.v ===== *)
(** * Days of the week, lengths of months, Easter, the molad, Hebrew numerals *)

From S2P Require Import Prelude Calendar CalendarExt CalendarSpec.
From Stdlib Require Import Zquot.
Open Scope Z_scope.

(** ** dow.c *)

Lemma DayOfWeek_mod sdn :
  LONG_MIN <= sdn < LONG_MAX -> DayOfWeek sdn = (sdn + 1) mod 7.
Proof.
  intros H. unfold DayOfWeek. rewrite s64_small by lia. cbv zeta.
  pose proof (Z.mod_pos_bound (sdn + 1) 7 ltac:(lia)) as Hb.
  pose proof (Z.div_mod (sdn + 1) 7 ltac:(lia)).
  pose proof (Z.quot_rem (sdn + 1) 7 ltac:(lia)).
  destruct (Z.le_gt_cases 0 (sdn + 1)).
  - rewrite Z.rem_mod_nonneg by lia. rewrite (proj2 (Z.leb_le _ _)); lia.
  - pose proof (Zrem_lt_neg (sdn + 1) 7 ltac:(lia) ltac:(lia)).
    destruct (Z.leb_spec 0 ((sdn + 1) %c 7)); lia.
Qed.

Lemma DayOfWeek_range sdn : 0 <= DayOfWeek sdn <= 6.
Proof.
  unfold DayOfWeek. cbv zeta. set (x := s64 (sdn + 1)). clearbody x.
  pose proof (Z.rem_bound_abs x 7 ltac:(lia)). destruct (Z.leb_spec 0 (x %c 7)); lia.
Qed.

(** ** cal_days_in_month *)

(** The conversions of the two calendars over the common range of years. *)
Definition to_sdn (gregorian : bool) : Z -> Z -> Z -> Z :=
  if gregorian then GregorianToSdn else JulianToSdn.
Definition day_of (gregorian : bool) : Z -> Z -> Z -> Z :=
  if gregorian then greg_day else julian_day.
Definition day_offset (gregorian : bool) : Z := if gregorian then 32044 else 32082.


Definition plain_year (y : Z) : Prop := -4711 <= y <= 1465000 /\ y <> 0.

Lemma to_sdn_day g y m d :
  plain_year y -> 1 <= m <= 12 -> 1 <= d <= 31 ->
  let '(Y, mm) := march_of y m in
  to_sdn g y m d = day_of g Y mm d - day_offset g /\ 0 < to_sdn g y m d.
Proof.
  intros [Hy H0] Hm Hd.
  assert (HY : 88 <= fst (march_of y m) <= 1469800).
  { unfold march_of, astro. destruct (Z.ltb_spec y 0), (Z.ltb_spec 2 m); simpl; lia. }
  pose proof (to_date_march y m d H0 Hm) as Ht. destruct g; simpl.
  - pose proof (GregorianToSdn_day y m d ltac:(lia) H0 Hm Hd ltac:(lia)) as Hg.
    destruct (march_of y m) as [Y mm]. destruct Hg as [-> _], Ht as [_ Ht]. simpl in HY.
    pose proof (greg_day_lower Y mm d ltac:(lia) ltac:(lia) ltac:(lia)).
    rewrite (proj2 (Z.leb_gt _ _)); lia.
  - pose proof (JulianToSdn_day y m d ltac:(lia) H0 Hm Hd ltac:(lia)) as Hg.
    destruct (march_of y m) as [Y mm]. destruct Hg as [-> _], Ht as [_ Ht]. simpl in HY.
    split; [done|]. unfold julian_day.
    assert (1461 * 88 / 4 <= 1461 * Y / 4) by (apply Z.div_le_mono; lia).
    change (1461 * 88 / 4) with 32142 in *.
    assert (0 <= (153 * mm + 2) / 5) by (apply Z.div_pos; lia). lia.
Qed.

Lemma month_length_pos g y m : 1 <= month_length g y m <= 31.
Proof. unfold month_length. repeat case_match; lia. Qed.

Lemma to_sdn_next g y m d :
  plain_year y -> y < 1465000 -> valid_date g (y, m, d) ->
  let '(y', m', d') := next_day g (y, m, d) in to_sdn g y' m' d' = to_sdn g y m d + 1.
Proof.
  intros Hy Hmax Hv. pose proof Hv as (H0 & Hm & Hd).
  pose proof (next_day_march g (day_of g) y m d) as Hn. pose proof (month_length_pos g y m).
  assert (Hy' : fst (fst (next_day g (y, m, d))) <= 1465000).
  { unfold next_day. destruct Hy. repeat case_match; simplify_eq; simpl; lia. }
  destruct (next_day g (y, m, d)) as [[y' m'] d']. simpl in Hy'. destruct Hy as [Hy _].
  destruct Hn as (Hv' & Hle & Hday); [| | |done|lia|].
  { intros. destruct g; simpl; unfold greg_day, julian_day; lia. }
  { intros. destruct g; simpl; unfold greg_day, julian_day, march_length; lia. }
  { destruct g; simpl; [apply greg_year_succ|apply julian_year_succ]. }
  destruct Hv' as (H0' & Hm' & Hd'). pose proof (month_length_pos g y' m').
  pose proof (to_sdn_day g y m d ltac:(split; lia) Hm ltac:(lia)) as HA.
  pose proof (to_sdn_day g y' m' d' ltac:(split; lia) Hm' ltac:(lia)) as HB.
  destruct (march_of y m), (march_of y' m'). lia.
Qed.

Lemma to_sdn_month g y m d :
  plain_year y -> 1 <= m <= 12 -> 1 <= d <= 31 -> to_sdn g y m d = to_sdn g y m 1 + (d - 1).
Proof.
  intros Hy Hm Hd. pose proof (to_sdn_day g y m d Hy Hm Hd) as H1.
  pose proof (to_sdn_day g y m 1 Hy Hm ltac:(lia)) as H2.
  destruct (march_of y m). destruct H1 as [-> _], H2 as [-> _].
  destruct g; simpl; unfold greg_day, julian_day; lia.
Qed.

Lemma to_sdn_month_13 g y : to_sdn g y 13 1 = 0.
Proof.
  destruct g; unfold to_sdn, GregorianToSdn, JulianToSdn; change (12 <? 13) with true;
    by rewrite !orb_true_r.
Qed.

Definition cal_of (gregorian : bool) : Z := if gregorian then CAL_GREGORIAN else CAL_JULIAN.
Lemma cal_of_entry g :
  exists e, at_index cal_conversion_table (cal_of g) = Ok e /\
    to_jd e = fun y m d => Ok (to_sdn g y m d).
Proof. destruct g; eexists; split; reflexivity. Qed.

Lemma cal_days_in_month_spec g y m :
  plain_year y -> y < 1465000 -> 1 <= m <= 12 ->
  cal_days_in_month (cal_of g) m y = Ok (RLong (month_length g y m)).
Proof.
  intros Hy Hmax Hm. unfold cal_days_in_month.
  replace (invalid_cal (cal_of g)) with false by (by destruct g).
  destruct (cal_of_entry g) as (e & -> & Hjd). simpl. rewrite !Hjd. destruct Hy as [Hy H0].
  rewrite !(s64_small), !s32_small by (unfold LONG_MIN, LONG_MAX, INT_MIN, INT_MAX; lia). simpl.
  pose proof (month_length_pos g y m) as Hl.
  pose proof (to_sdn_day g y m 1 (conj Hy H0) Hm ltac:(lia)) as H1.
  pose proof (to_sdn_month g y m (month_length g y m) (conj Hy H0) Hm Hl) as Hlast.
  pose proof (to_sdn_next g y m (month_length g y m) (conj Hy H0) Hmax ltac:(split; [done|lia])) as Hn.
  assert (Hpos : 0 < to_sdn g y m 1) by (destruct (march_of y m); tauto). clear H1.
  rewrite (proj2 (Z.eqb_neq _ 0)) by lia.
  unfold next_day in Hn. rewrite (proj2 (Z.ltb_ge _ _)) in Hn by lia.
  destruct (Z.ltb_spec m 12).
  - rewrite (Z.add_comm 1). rewrite (proj2 (Z.eqb_neq _ 0)) by lia. simpl. do 2 f_equal. lia.
  - assert (m = 12) as -> by lia. change (1 + 12) with 13. rewrite to_sdn_month_13. simpl.
    destruct (Z.eqb_spec y (-1)) as [->|]; simpl; do 2 f_equal; lia.
Qed.

(** ** easter.c *)

Lemma wrap_negative_mod x n : 0 < n -> wrap_negative x n = x mod n.
Proof.
  intros Hn. unfold wrap_negative. pose proof (Z.mod_pos_bound x n Hn).
  pose proof (Z.div_mod x n ltac:(lia)). pose proof (Z.quot_rem x n ltac:(lia)) as Hq.
  destruct (Z.le_gt_cases 0 x).
  - rewrite Z.rem_mod_nonneg by lia. rewrite (proj2 (Z.ltb_ge _ _)); lia.
  - pose proof (Zrem_lt_neg x n ltac:(lia) ltac:(lia)) as Hr.
    set (r := x %c n) in *. set (q := x /c n) in *. clearbody r q.
    assert (n * q + r = n * (x / n) + x mod n) as E by lia.
    destruct (Z.ltb_spec r 0).
    + assert (q = x / n + 1) by nia. nia.
    + assert (q = x / n) by nia. nia.
Qed.

(** The day of the week of 21 March. *)
Lemma div_quarter k a : 0 <= k -> (4 * k + 1) * a / 4 = k * a + a / 4.
Proof. intros. replace ((4 * k + 1) * a) with (a + k * a * 4) by ring. rewrite Z.div_add; lia. Qed.

Lemma march_21 g year :
  1 <= year <= 1465000 ->
  (to_sdn g year 3 21 + 1) mod 7 =
    (if g then year + year / 4 - year / 100 + year / 400 + 2 else year + year / 4) mod 7.
Proof.
  intros Hy. pose proof (to_sdn_day g year 3 21 ltac:(split; lia) ltac:(lia) ltac:(lia)) as H.
  unfold march_of, astro in H. rewrite (proj2 (Z.ltb_ge year 0)) in H by lia.
  change (2 <? 3) with true in H. cbv iota zeta in H. destruct H as [-> _].
  destruct g; simpl; unfold greg_day, julian_day; change (3 - 3) with 0;
    change ((153 * 0 + 2) / 5) with 0.
  - pose proof (Z.div_mod year 100 ltac:(lia)) as Hd. pose proof (Z.mod_pos_bound year 100 ltac:(lia)) as Hr.
    change 400 with (100 * 4). rewrite <- Z.div_div by lia.
    set (c := year / 100) in *. set (r := year mod 100) in *. clearbody c r.
    replace ((year + 4800) / 100) with (c + 48) by (apply (Z.div_unique _ _ _ r); lia).
    replace ((year + 4800) mod 100) with r by (apply (Z.mod_unique _ _ (c + 48)); lia).
    pose proof (div_quarter 36524 (c + 48) ltac:(lia)) as H1. change (4 * 36524 + 1) with 146097 in H1.
    pose proof (div_quarter 365 r ltac:(lia)) as H2. change (4 * 365 + 1) with 1461 in H2.
    rewrite H1, H2. replace (c + 48) with (c + 12 * 4) at 2 by lia. rewrite Z.div_add by lia.
    replace (year / 4) with (25 * c + r / 4).
    2:{ replace year with (r + 25 * c * 4) by lia. rewrite Z.div_add; lia. }
    symmetry. rewrite <- (Z.mod_add _ (5200 * c + 52 * r + 245877) 7) by lia. f_equal. lia.
  - pose proof (div_quarter 365 (year + 4800) ltac:(lia)) as H1. change (4 * 365 + 1) with 1461 in H1.
    rewrite H1. replace (year + 4800) with (year + 1200 * 4) at 2 by lia. rewrite Z.div_add by lia.
    symmetry. rewrite <- (Z.mod_add _ (52 * year + 245877) 7) by lia. f_equal. lia.
Qed.

Lemma easter_spec year julian :
  1 <= year <= 1465000 ->
  1 <= easter_of year julian <= 35 /\
  DayOfWeek (to_sdn (negb julian) year 3 21 + easter_of year julian) = SUNDAY.
Proof.
  intros Hy. unfold easter_of. cbv zeta.
  set (golden := year %c 19 + 1).
  set (pfm0 := if julian then wrap_negative (3 - _ - 7) 30 else _).
  set (dom := if julian then _ else _).
  set (pfm := if (pfm0 =? 29) || ((pfm0 =? 28) && (11 <? golden)) then pfm0 - 1 else pfm0).
  assert (Hdom : dom = (if julian then year + year / 4 + 5
                        else year + year / 4 - year / 100 + year / 400) mod 7).
  { unfold dom. destruct julian; rewrite wrap_negative_mod by lia; by rewrite !Z.quot_div_nonneg by lia. }
  assert (Hpfm : 0 <= pfm0 <= 29).
  { unfold pfm0. destruct julian; rewrite wrap_negative_mod by lia; cbv zeta;
      match goal with |- context [?a mod 30] => pose proof (Z.mod_pos_bound a 30 ltac:(lia)); lia end. }
  assert (Hpfm' : 0 <= pfm <= 28).
  { unfold pfm. destruct (Z.eqb_spec pfm0 29), (Z.eqb_spec pfm0 28), (11 <? golden); cbn [orb andb]; lia. }
  clearbody dom pfm. clear Hpfm pfm0. rewrite wrap_negative_mod by lia.
  pose proof (Z.mod_pos_bound (4 - pfm - dom) 7 ltac:(lia)). split; [lia|].
  pose proof (march_21 (negb julian) year Hy) as Hm.
  assert (Hsdn : INT_MIN <= to_sdn (negb julian) year 3 21 <= INT_MAX).
  { destruct julian; simpl; unfold JulianToSdn, GregorianToSdn; repeat case_match;
      try (unfold INT_MIN, INT_MAX; lia); apply s32_range. }
  set (w := to_sdn _ _ _ _) in *. clearbody w.
  rewrite DayOfWeek_mod by (unfold LONG_MIN, LONG_MAX, INT_MIN, INT_MAX in *; lia).
  rewrite (Z.mod_eq (4 - pfm - dom)) by lia. set (q := (4 - pfm - dom) / 7).
  destruct julian; cbn [negb] in Hm.
  - set (s := year + year / 4 + 5) in *. replace (year + year / 4) with (s - 5) in Hm by (unfold s; lia).
    clearbody s q. subst dom. unfold SUNDAY. Z.div_mod_to_equations. lia.
  - set (s := year + year / 4 - year / 100 + year / 400) in *.
    clearbody s q. subst dom. unfold SUNDAY. Z.div_mod_to_equations. lia.
Qed.

(** ** The molad: exact division of a 38-bit product *)

Lemma lor_shiftl_add a b : 0 <= b < 2 ^ 16 -> Z.lor (Z.shiftl a 16) b = a * 65536 + b.
Proof. intros Hb. by apply (lor_shiftl 16). Qed.

(** The last metonic cycle whose molad the 16-bit halves can carry. *)
Definition CYCLE_MAX : Z := 46713.

Lemma MoladOfMetonicCycle_spec c :
  0 <= c <= CYCLE_MAX ->
  let halakim := NEW_MOON_OF_CREATION + c * HALAKIM_PER_METONIC_CYCLE in
  MoladOfMetonicCycle c = (halakim / HALAKIM_PER_DAY, halakim mod HALAKIM_PER_DAY).
Proof.
  intros Hc halakim. unfold CYCLE_MAX in Hc. unfold MoladOfMetonicCycle. cbv zeta.
  change (Z.land HALAKIM_PER_METONIC_CYCLE 65535) with 45971.
  change (Z.land (Z.shiftr HALAKIM_PER_METONIC_CYCLE 16) 65535) with 2744.
  rewrite !s32_small by (unfold INT_MIN, INT_MAX; lia). unfold NEW_MOON_OF_CREATION in *.
  rewrite (u64_small (31524 + _)) by lia.
  change 65535 with (2 ^ 16 - 1). rewrite land_mask, Z.shiftr_div_pow2 by lia. change (2 ^ 16) with 65536.
  pose proof (Z.div_mod (31524 + c * 45971) 65536 ltac:(lia)) as Hd.
  pose proof (Z.mod_pos_bound (31524 + c * 45971) 65536 ltac:(lia)) as Hlo.
  assert (0 <= (31524 + c * 45971) / 65536 <= 32767).
  { split; [apply Z.div_pos; lia|]. apply Z.lt_succ_r, Z.div_lt_upper_bound; lia. }
  assert (Hh : halakim = 31524 + c * 45971 + c * 2744 * 65536).
  { unfold halakim. change HALAKIM_PER_METONIC_CYCLE with 179876755. lia. }
  set (hi := (31524 + c * 45971) / 65536) in *. set (lo := (31524 + c * 45971) mod 65536) in *.
  clearbody hi lo halakim. rewrite (u64_small (hi + _)) by lia.
  set (r2 := hi + c * 2744) in *. assert (Hr2 : 0 <= r2 < 2 ^ 28) by (unfold r2; lia).
  assert (Hh2 : halakim = r2 * 65536 + lo) by (unfold r2; lia). clearbody r2. clear Hh Hd.
  rewrite (Z.quot_div_nonneg r2) by (unfold HALAKIM_PER_DAY; lia). unfold HALAKIM_PER_DAY.
  pose proof (Z.div_mod r2 25920 ltac:(lia)) as Hd2. pose proof (Z.mod_pos_bound r2 25920 ltac:(lia)) as Hm2.
  replace (r2 - r2 / 25920 * 25920) with (r2 mod 25920) by lia.
  assert (0 <= r2 / 25920 < 2 ^ 14).
  { split; [apply Z.div_pos; lia|apply Z.div_lt_upper_bound; lia]. }
  set (q2 := r2 / 25920) in *. set (m2 := r2 mod 25920) in *. clearbody q2 m2.
  rewrite !u64_small by (rewrite Z.shiftl_mul_pow2; lia).
  rewrite (lor_shiftl_add m2 lo) by lia. rewrite Z.quot_div_nonneg by lia.
  pose proof (Z.div_mod (m2 * 65536 + lo) 25920 ltac:(lia)) as Hd1.
  pose proof (Z.mod_pos_bound (m2 * 65536 + lo) 25920 ltac:(lia)) as Hm1.
  assert (0 <= (m2 * 65536 + lo) / 25920 < 2 ^ 16).
  { split; [apply Z.div_pos; lia|apply Z.div_lt_upper_bound; lia]. }
  rewrite lor_shiftl_add by lia.
  set (q1 := (m2 * 65536 + lo) / 25920) in *. set (m1 := (m2 * 65536 + lo) mod 25920) in *.
  clearbody q1 m1. rewrite s64_small by (unfold LONG_MIN, LONG_MAX; lia).
  f_equal; [apply (Z.div_unique _ _ _ m1)|replace (_ - _) with m1 by lia; apply (Z.mod_unique _ _ (q2 * 65536 + q1))]; lia.
Qed.

(** The four postponements: the new year is at most two days after the molad
    and never on a Sunday, Wednesday or Friday. *)
Lemma Tishri1_spec metonicYear moladDay moladHalakim :
  0 <= moladDay ->
  let t := Tishri1 metonicYear moladDay moladHalakim in
  moladDay <= t <= moladDay + 2 /\
  t mod 7 <> SUNDAY /\ t mod 7 <> WEDNESDAY /\ t mod 7 <> FRIDAY.
Proof.
  intros Hd. unfold Tishri1. cbv zeta. rewrite Z.rem_mod_nonneg by lia.
  pose proof (Z.mod_pos_bound moladDay 7 ltac:(lia)) as Hb.
  assert (Hsucc : forall t, (t + 1) mod 7 = if t mod 7 + 1 =? 7 then 0 else t mod 7 + 1).
  { intros t. pose proof (Z.mod_pos_bound t 7 ltac:(lia)). pose proof (Z.div_mod t 7 ltac:(lia)).
    destruct (Z.eqb_spec (t mod 7 + 1) 7); symmetry.
    - apply (Z.mod_unique _ _ (t / 7 + 1)); lia.
    - apply (Z.mod_unique _ _ (t / 7)); lia. }
  set (late := (NOON <=? moladHalakim) || _ || _). clearbody late.
  unfold SUNDAY, WEDNESDAY, FRIDAY.
  destruct late.
  - rewrite <- Hsucc. set (t := moladDay + 1).
    pose proof (Hsucc t) as Hs. pose proof (Z.mod_pos_bound t 7 ltac:(lia)).
    destruct (Z.eqb_spec (t mod 7) 3), (Z.eqb_spec (t mod 7) 5), (Z.eqb_spec (t mod 7) 0); cbn [orb];
      rewrite ?Hs; destruct (Z.eqb_spec (t mod 7 + 1) 7); unfold t in *; lia.
  - set (t := moladDay). pose proof (Hsucc t) as Hs.
    destruct (Z.eqb_spec (t mod 7) 3), (Z.eqb_spec (t mod 7) 5), (Z.eqb_spec (t mod 7) 0); cbn [orb];
      rewrite ?Hs; destruct (Z.eqb_spec (t mod 7 + 1) 7); unfold t in *; lia.
Qed.

(** ** Hebrew numerals *)

(** The value of a letter, and of a numeral below a thousand. *)
Definition letter_value (c : byte) : Z :=
  match list_find (fun x => x = c) alef_bet with
  | Some (i, _) =>
      let i := Z.of_nat i in
      if i <? 10 then i else if i <? 19 then (i - 9) * 10 else (i - 18) * 100
  | None => 0
  end.
Definition letters_value (s : list byte) : Z := foldr (fun c v => letter_value c + v) 0 s.


(** At most five letters, of the value of [n], none of them a mark. *)
Definition is_mark (c : byte) : bool := bool_decide (c = geresh \/ c = double_quote).
Definition below_ok (n : Z) : bool :=
  match heb_below_1000 n with
  | Ok s => (letters_value s =? n) && (length s <=? 5)%nat && negb (existsb is_mark s)
  | Err _ => false
  end.
Lemma heb_below_1000_spec n :
  0 <= n < 1000 ->
  exists s, heb_below_1000 n = Ok s /\ letters_value s = n /\ (length s <= 5)%nat /\
    existsb is_mark s = false.
Proof.
  intros Hn. assert (Hall : forallb below_ok (map Z.of_nat (seq 0 1000)) = true) by reflexivity.
  rewrite forallb_forall in Hall. specialize (Hall n).
  assert (Hin : In n (map Z.of_nat (seq 0 1000))).
  { apply in_map_iff. exists (Z.to_nat n). split; [lia|]. apply in_seq. lia. }
  specialize (Hall Hin). unfold below_ok in Hall. destruct (heb_below_1000 n) as [s|]; [|done].
  exists s. apply andb_prop in Hall as [Hall ?]. apply andb_prop in Hall as [H1 H2].
  split_and!; [done|lia|by apply Nat.leb_le|by apply negb_true_iff].
Qed.

Definition without_marks (s : list byte) : list byte := List.filter (fun c => negb (is_mark c)) s.

Lemma without_marks_none s : existsb is_mark s = false -> without_marks s = s.
Proof.
  induction s as [|c s IH]; [done|]. simpl. intros [Hc Hs]%orb_false_elim. rewrite Hc. simpl. by rewrite IH.
Qed.
Lemma without_marks_app s t : without_marks (s ++ t) = without_marks s ++ without_marks t.
Proof. apply List.filter_app. Qed.

Lemma heb_gereshayim_spec s :
  existsb is_mark s = false ->
  without_marks (heb_gereshayim s) = s /\ (length (heb_gereshayim s) <= S (length s))%nat.
Proof.
  intros Hs. destruct s as [|c [|c' s]]; [split; [done|simpl; lia]| |].
  { simpl in *. apply orb_false_elim in Hs as [-> _]. simpl. split; [done|lia]. }
  set (l := c :: c' :: s) in *. destruct (@exists_last _ l) as (l' & x & Hl); [done|].
  assert (Hg : heb_gereshayim l = l' ++ [double_quote; x]).
  { unfold heb_gereshayim, l. fold l. rewrite Hl, last_snoc. by rewrite removelast_last. }
  rewrite Hg, Hl in *. rewrite existsb_app in Hs. simpl in Hs. apply orb_false_elim in Hs as [H1 H2].
  rewrite without_marks_app, (without_marks_none l') by done. simpl.
  apply orb_false_elim in H2 as [-> _]. split; [done|]. rewrite !length_app. simpl. lia.
Qed.

Definition alafim_marks (fl : Z) : list byte :=
  (if has_flag CAL_JEWISH_ADD_ALAFIM_GERESH fl then [geresh] else []) ++
  (if has_flag CAL_JEWISH_ADD_ALAFIM fl then alafim else []).

Lemma heb_alafim_spec n fl :
  1 <= n <= 9999 ->
  exists head, heb_alafim n fl = Ok (head, n mod 1000) /\
    if n <? 1000 then head = []
    else exists c, head = c :: alafim_marks fl /\ letter_value c = n / 1000.
Proof.
  intros Hn. unfold heb_alafim. rewrite Z.quot_div_nonneg, Z.rem_mod_nonneg by lia.
  destruct (Z.ltb_spec n 1000).
  - rewrite Z.div_small, Z.mod_small by lia. by exists [].
  - assert (1 <= n / 1000 <= 9).
    { split; [apply Z.div_le_lower_bound; lia|]. apply Z.lt_succ_r, Z.div_lt_upper_bound; lia. }
    rewrite (proj2 (Z.eqb_neq (n / 1000) 0)) by lia. simpl.
    assert (Hc : exists c, at_index alef_bet (n / 1000) = Ok c /\ letter_value c = n / 1000).
    { set (k := n / 1000) in *. clearbody k.
      assert (k = 1 \/ k = 2 \/ k = 3 \/ k = 4 \/ k = 5 \/ k = 6 \/ k = 7 \/ k = 8 \/ k = 9) as Hk by lia.
      repeat (destruct Hk as [-> |Hk]; [eexists; split; reflexivity|]). subst k. by eexists. }
    destruct Hc as (c & -> & Hc). simpl. eexists. split; [reflexivity|]. by exists c.
Qed.

Lemma heb_number_spec n fl :
  1 <= n <= 9999 ->
  exists head s, heb_number_to_chars n fl = Ok (Some (head ++ s)) /\
    (length (head ++ s) + 1 <= 18)%nat /\
    letters_value (without_marks s) = n mod 1000 /\
    if n <? 1000 then head = []
    else exists c, head = c :: alafim_marks fl /\ letter_value c = n / 1000.
Proof.
  intros Hn. unfold heb_number_to_chars. rewrite !(proj2 (Z.ltb_ge _ _)) by lia. simpl.
  destruct (heb_alafim_spec n fl Hn) as (head & -> & Hhead). simpl.
  destruct (heb_below_1000_spec (n mod 1000)) as (s & -> & Hv & Hl & Hm); [apply Z.mod_pos_bound; lia|].
  simpl. destruct (heb_gereshayim_spec s Hm) as [Hg Hgl].
  assert (Hlen : (length head <= 9)%nat).
  { destruct (n <? 1000); [subst head; simpl; lia|]. destruct Hhead as (c & -> & _). unfold alafim_marks.
    destruct (has_flag _ _), (has_flag _ _); simpl; lia. }
  eexists head, _. split; [reflexivity|]. rewrite length_app.
  destruct (has_flag CAL_JEWISH_ADD_GERESHAYIM fl).
  - rewrite Hg. split_and!; [lia|done|done].
  - rewrite without_marks_none by done. split_and!; [lia|done|done].
Qed.
