(* ===== verification/CalendarThms.v ===== *)
(** * Theorems about ext/calendar *)

From S2P Require Import Prelude Calendar CalendarExt CalendarSpec CalendarExtSpec.
Open Scope Z_scope.

(** C37: over the whole range in which the [int] arithmetic of gregor.c does
    not overflow, [SdnToGregorian] yields a valid date of the Gregorian
    calendar and [GregorianToSdn] is its inverse, on days and on dates; day 1
    is 25 November 4714 B.C., and each following day number is the day after:
    leap years, month ends and the missing year 0 included. *)
Theorem gregorian_round_trip :
  (forall sdn, 1 <= sdn <= GREG_MAX ->
     let '(y, m, d) := SdnToGregorian sdn in
     valid_date true (y, m, d) /\ -4714 <= y /\ GregorianToSdn y m d = sdn) /\
  (forall y m d, valid_date true (y, m, d) -> -4714 <= y -> fst (march_of y m) <= 1469999 ->
     1 <= GregorianToSdn y m d <= GREG_MAX -> SdnToGregorian (GregorianToSdn y m d) = (y, m, d)) /\
  SdnToGregorian 1 = (-4714, 11, 25) /\
  (forall sdn, 1 <= sdn < GREG_MAX -> SdnToGregorian (sdn + 1) = next_day true (SdnToGregorian sdn)).
Proof.
  split_and!.
  - intros sdn Hs. pose proof (greg_to_and_back sdn Hs) as Hb.
    destruct (SdnToGregorian sdn) as [[y m] d]. tauto.
  - intros y m d Hv Hy HY Hs. by apply greg_from_and_back.
  - apply greg_first_day.
  - apply greg_next.
Qed.
Lemma gregorian_round_trip_witness :
  valid_date true (SdnToGregorian 2456884) /\ SdnToGregorian (GregorianToSdn (-1) 2 29) = (-1, 2, 29) /\
  SdnToGregorian 2451545 = next_day true (SdnToGregorian 2451544).
Proof.
  split; [|split].
  - exact (proj1 (proj1 gregorian_round_trip 2456884 ltac:(unfold GREG_MAX; lia))).
  - apply (proj1 (proj2 gregorian_round_trip) (-1) 2 29); vm_compute; split_and?; congruence.
  - apply (proj2 (proj2 (proj2 gregorian_round_trip)) 2451544). unfold GREG_MAX. lia.
Defined.

(** C38: the same for julian.c: inverse conversions between the day numbers from
    1 to [JULIAN_MAX] and the valid dates they stand for, from the year -4713
    to the year 1469872 (begun in March), where no [int] overflows; and
    successive numbers are successive days. *)
Theorem julian_round_trip :
  (forall sdn, 1 <= sdn <= JULIAN_MAX ->
     let '(y, m, d) := SdnToJulian sdn in
     valid_date false (y, m, d) /\ -4713 <= y /\ JulianToSdn y m d = sdn) /\
  (forall y m d, valid_date false (y, m, d) -> -4713 <= y -> fst (march_of y m) <= 1469872 ->
     1 <= JulianToSdn y m d <= JULIAN_MAX -> SdnToJulian (JulianToSdn y m d) = (y, m, d)) /\
  (forall sdn, 1 <= sdn < JULIAN_MAX -> SdnToJulian (sdn + 1) = next_day false (SdnToJulian sdn)).
Proof.
  split_and!.
  - intros sdn Hs. pose proof (julian_to_and_back sdn Hs) as Hb.
    destruct (SdnToJulian sdn) as [[y m] d]. tauto.
  - intros y m d Hv Hy HY Hs. by apply julian_from_and_back.
  - apply julian_next.
Qed.
Lemma julian_round_trip_witness :
  SdnToJulian (JulianToSdn 1582 10 4) = (1582, 10, 4) /\
  SdnToJulian 2299161 = next_day false (SdnToJulian 2299160).
Proof.
  split.
  - apply (proj1 (proj2 julian_round_trip) 1582 10 4); vm_compute; split_and?; congruence.
  - apply (proj2 (proj2 julian_round_trip) 2299160). unfold JULIAN_MAX. lia.
Defined.

(** French.c: every day from 22 September 1792 to the end of year 14
    converts to a date with 30-day months and 5 or 6 complementary days, and
    the two conversions are inverse to each other. *)
Theorem french_round_trip :
  (forall sdn, FIRST_VALID <= sdn <= LAST_VALID ->
     let '(y, m, d) := SdnToFrench sdn in french_valid (y, m, d) /\ FrenchToSdn y m d = sdn) /\
  (forall y m d, french_valid (y, m, d) ->
     FIRST_VALID <= FrenchToSdn y m d <= LAST_VALID /\ SdnToFrench (FrenchToSdn y m d) = (y, m, d)).
Proof. split; [apply french_to_and_back|apply french_from_and_back]. Qed.
Lemma french_round_trip_witness :
  FIRST_VALID <= FrenchToSdn 3 13 6 <= LAST_VALID /\ SdnToFrench (FrenchToSdn 3 13 6) = (3, 13, 6).
Proof. apply (proj2 french_round_trip 3 13 6). vm_compute. split_and!; congruence. Defined.

(** [DayOfWeek] is the day number's residue, Sunday being 0, for
    negative numbers too, and always an index of the tables of day names. *)
Theorem day_of_week_cycles :
  (forall sdn, 0 <= DayOfWeek sdn <= 6) /\
  (forall sdn, LONG_MIN <= sdn < LONG_MAX -> DayOfWeek sdn = (sdn + 1) mod 7).
Proof. split; [apply DayOfWeek_range|apply DayOfWeek_mod]. Qed.
Lemma day_of_week_cycles_witness : DayOfWeek (-8) = (-8 + 1) mod 7.
Proof. apply (proj2 day_of_week_cycles (-8)). unfold LONG_MIN, LONG_MAX. lia. Defined.

(** [cal_days_in_month] returns the length of the month, for every month
    of the Gregorian and Julian calendars from 4711 B.C. to 1464999 A.D.,
    across the missing year 0. *)
Theorem days_in_month_correct (gregorian : bool) (y m : Z) :
  plain_year y -> y < 1465000 -> 1 <= m <= 12 ->
  cal_days_in_month (cal_of gregorian) m y = Ok (RLong (month_length gregorian y m)).
Proof. apply cal_days_in_month_spec. Qed.
Lemma days_in_month_correct_witness :
  cal_days_in_month CAL_GREGORIAN 2 1900 = Ok (RLong 28) /\
  cal_days_in_month CAL_JULIAN 12 (-1) = Ok (RLong 31).
Proof.
  split.
  - apply (days_in_month_correct true 1900 2); unfold plain_year; lia.
  - apply (days_in_month_correct false (-1) 12); unfold plain_year; lia.
Defined.

(** Easter, counted in days after 21 March, falls from 22 March to 25
    April and on a Sunday of the calendar it is computed for. *)
Theorem easter_is_sunday (year : Z) (julian : bool) :
  1 <= year <= 1465000 ->
  1 <= easter_of year julian <= 35 /\
  DayOfWeek (to_sdn (negb julian) year 3 21 + easter_of year julian) = SUNDAY.
Proof. apply easter_spec. Qed.
Lemma easter_is_sunday_witness :
  1 <= easter_of 2014 false <= 35 /\ DayOfWeek (GregorianToSdn 2014 3 21 + easter_of 2014 false) = SUNDAY.
Proof. apply (easter_is_sunday 2014 false). lia. Defined.

(** [MoladOfMetonicCycle] divides a 38-bit product exactly, in two
    16-bit steps on [unsigned long], for every cycle [SdnToJewish] starts from;
    the postponements of [Tishri1] put the new year zero to two days after the
    molad and never on a Sunday, a Wednesday or a Friday. *)
Theorem jewish_new_year (c metonicYear : Z) :
  0 <= c <= CYCLE_MAX ->
  let halakim := NEW_MOON_OF_CREATION + c * HALAKIM_PER_METONIC_CYCLE in
  let '(moladDay, moladHalakim) := MoladOfMetonicCycle c in
  moladDay = halakim / HALAKIM_PER_DAY /\ moladHalakim = halakim mod HALAKIM_PER_DAY /\
  forall day, 0 <= day ->
  let t := Tishri1 metonicYear day moladHalakim in
  day <= t <= day + 2 /\ t mod 7 <> SUNDAY /\ t mod 7 <> WEDNESDAY /\ t mod 7 <> FRIDAY.
Proof.
  intros Hc halakim. rewrite (MoladOfMetonicCycle_spec c Hc). split; [done|]. split; [done|].
  intros day Hd. by apply Tishri1_spec.
Qed.
Lemma jewish_new_year_witness :
  MoladOfMetonicCycle CYCLE_MAX =
    ((NEW_MOON_OF_CREATION + CYCLE_MAX * HALAKIM_PER_METONIC_CYCLE) / HALAKIM_PER_DAY,
     (NEW_MOON_OF_CREATION + CYCLE_MAX * HALAKIM_PER_METONIC_CYCLE) mod HALAKIM_PER_DAY) /\
  Tishri1 0 3 (snd (MoladOfMetonicCycle CYCLE_MAX)) mod 7 <> SUNDAY.
Proof.
  assert (Hc : 0 <= CYCLE_MAX <= CYCLE_MAX) by (unfold CYCLE_MAX; lia).
  pose proof (jewish_new_year CYCLE_MAX 0 Hc) as H. destruct (MoladOfMetonicCycle CYCLE_MAX) as [d h].
  destruct H as (-> & -> & H). split; [reflexivity|]. apply (H 3). lia.
Defined.

(** C39: [heb_number_to_chars] never overruns its 18 bytes; the letters after
    the thousands add up to the number modulo 1000, the letter before them is
    the number of thousands, and the marks are those the flags ask for. *)
Theorem hebrew_numerals (n fl : Z) :
  1 <= n <= 9999 ->
  exists head s, heb_number_to_chars n fl = Ok (Some (head ++ s)) /\
    (length (head ++ s) + 1 <= 18)%nat /\
    letters_value (without_marks s) = n mod 1000 /\
    if n <? 1000 then head = []
    else exists c, head = c :: alafim_marks fl /\ letter_value c = n / 1000.
Proof. apply heb_number_spec. Qed.
Lemma hebrew_numerals_witness :
  exists head s, heb_number_to_chars 5774 14 = Ok (Some (head ++ s)) /\
    (length (head ++ s) + 1 <= 18)%nat /\ letters_value (without_marks s) = 774 /\
    exists c, head = c :: alafim_marks 14 /\ letter_value c = 5.
Proof. apply (hebrew_numerals 5774 14). lia. Defined.
