(* ===== verification/CLib.v ===== *)
(** * C strings and numbers

    The functions of the C library the modelled code calls on strings, and
    the constant the engine compares digits with.  A string is the bytes
    before its terminating NUL, or a PHP string's bytes, which may hold
    further NULs.  Also the type tags of zend.h.  Then the facts about
    comparing and reading strings of digits. *)

From S2P Require Import Prelude Dll ZendHash ZendHashNumeric.
Open Scope Z_scope.

(** The types of a zval, in zend.h; [-1] stands for none yet. *)
Definition IS_NULL : Z := 0.
Definition IS_LONG : Z := 1.
Definition IS_DOUBLE : Z := 2.
Definition IS_BOOL : Z := 3.
Definition IS_STRING : Z := 6.

Definition NUL_byte : byte := Byte.x00.
(** The string a [char *] points to: what comes before the first NUL. *)
Fixpoint c_string (s : list byte) : list byte :=
  match s with
  | [] => []
  | c :: s' => if decide (c = NUL_byte) then [] else c :: c_string s'
  end.
(** [strcmp], on strings without their NUL: the sign of the result. *)
Fixpoint strcmp (a b : list byte) : Z :=
  match a, b with
  | [], [] => 0
  | [], _ => -1
  | _, [] => 1
  | x :: a', y :: b' => if decide (x = y) then strcmp a' b' else uc x - uc y
  end.
(** [strtol(s, NULL, 10)]: white space, a sign, digits; out of range, the
    nearest [long]. *)
Definition is_space (c : byte) : bool := (uc c =? 32) || ((9 <=? uc c) && (uc c <=? 13)).
Fixpoint strtol_digits (acc : Z) (s : list byte) : Z :=
  match s with
  | [] => acc
  | c :: s' => if is_digit (uc c) then strtol_digits (acc * 10 + (uc c - 48)) s' else acc
  end.
Definition clamp_long (z : Z) : Z := Z.max LONG_MIN (Z.min LONG_MAX z).
Fixpoint strtol (s : list byte) : Z :=
  match s with
  | [] => 0
  | c :: s' =>
      if is_space c then strtol s'
      else if uc c =? 45 then clamp_long (- strtol_digits 0 s')
      else if uc c =? 43 then clamp_long (strtol_digits 0 s')
      else clamp_long (strtol_digits 0 s)
  end.
Definition long_min_digits : list byte := bs "9223372036854775808".

(** [strtol(s, NULL, 16)], likewise, after an optional [0x]. *)
Definition is_xdigit (c : Z) : bool := is_digit c || ((65 <=? c) && (c <=? 70)) || ((97 <=? c) && (c <=? 102)).
Definition xdigit_value (c : Z) : Z := if c <=? 57 then c - 48 else if c <=? 70 then c - 55 else c - 87.
Fixpoint strtol16_digits (acc : Z) (s : list byte) : Z :=
  match s with
  | [] => acc
  | c :: s' => if is_xdigit (uc c) then strtol16_digits (acc * 16 + xdigit_value (uc c)) s' else acc
  end.
Definition skip_0x (s : list byte) : list byte :=
  match s with
  | z :: x :: c :: s' =>
      if (uc z =? 48) && ((uc x =? 120) || (uc x =? 88)) && is_xdigit (uc c) then c :: s' else s
  | _ => s
  end.
Fixpoint strtol16 (s : list byte) : Z :=
  match s with
  | [] => 0
  | c :: s' =>
      if is_space c then strtol16 s'
      else if uc c =? 45 then clamp_long (- strtol16_digits 0 (skip_0x s'))
      else if uc c =? 43 then clamp_long (strtol16_digits 0 (skip_0x s'))
      else clamp_long (strtol16_digits 0 (skip_0x s))
  end.

(** [strcasecmp(a, b) == 0], in the C locale. *)
Definition tolower (c : byte) : Z := if (65 <=? uc c) && (uc c <=? 90) then uc c + 32 else uc c.
Definition same_caseless (a b : list byte) : bool := bool_decide (tolower <$> a = tolower <$> b).

(** ** Facts about strings of digits *)


Lemma c_string_no_nul s : Forall (fun b => b <> NUL_byte) s -> c_string s = s.
Proof. induction 1 as [|b s Hb _ IH]; [done|]. cbn. by rewrite decide_False, IH. Qed.
Lemma strtol_digits_dec ds : forall acc, forallb digit ds = true -> strtol_digits acc ds = dec_from acc ds.
Proof.
  induction ds as [|c ds IH]; intros acc; [done|]. cbn. intros [Hc Hd]%andb_true_iff.
  unfold digit in Hc. rewrite Hc. by apply IH.
Qed.

(** Digit strings of one length compare as their values do. *)
Lemma strcmp_dec a : forall b x, length a = length b -> forallb digit a = true -> forallb digit b = true -> 0 <= x ->
  (strcmp a b < 0 <-> dec_from x a < dec_from x b) /\ (strcmp a b = 0 <-> dec_from x a = dec_from x b).
Proof.
  induction a as [|c a IH]; intros [|d b] x; try done.
  { intros _ _ _ _. cbn. lia. }
  cbn [length]. intros [= Hl] Ha Hb Hx. cbn [strcmp]. case_decide as Hcd.
  - subst d. cbn in Ha, Hb. apply andb_true_iff in Ha as [Hc Ha]. apply andb_true_iff in Hb as [_ Hb].
    apply digit_range in Hc. apply (IH b (x * 10 + (uc c - 48)) Hl Ha Hb). lia.
  - pose proof Ha as Ha1. pose proof Hb as Hb1.
    cbn in Ha1, Hb1. apply andb_true_iff in Ha1 as [Hc%digit_range Ha1]. apply andb_true_iff in Hb1 as [Hd%digit_range Hb1].
    pose proof (dec_from_bounds a (x * 10 + (uc c - 48)) Ha1 ltac:(lia)) as Ba.
    pose proof (dec_from_bounds b (x * 10 + (uc d - 48)) Hb1 ltac:(lia)) as Bb.
    change (dec_from x (c :: a)) with (dec_from (x * 10 + (uc c - 48)) a).
    change (dec_from x (d :: b)) with (dec_from (x * 10 + (uc d - 48)) b).
    rewrite Hl in Ba. set (p := 10 ^ Z.of_nat (length b)) in *. assert (0 < p) by (unfold p; lia).
    assert (uc c <> uc d) by (intros E; apply Hcd; by apply uc_inj).
    destruct (Z.lt_ge_cases (uc c) (uc d)); split; split; intros; try lia; nia.
Qed.

(** The digits of an integer. *)
Record digit_string (ds : list byte) (n : Z) : Prop := {
  ds_digits : forallb digit ds = true;
  ds_length : Z.of_nat (length ds) = n;
  ds_some : exists c ds', ds = c :: ds';
  ds_upper : 0 <= dec_value ds < 10 ^ n;
  ds_lower : 2 <= n -> 10 ^ (n - 1) <= dec_value ds
}.
(** The optional sign of a number. *)
Inductive sign_of : list byte -> bool -> Prop :=
  | no_sign : sign_of [] false
  | plus_sign : sign_of [Byte.x2b] false
  | minus_sign : sign_of [Byte.x2d] true.

Lemma strtol_signed sg (minus : bool) ds : sign_of sg minus -> forallb digit ds = true -> ds <> [] ->
  strtol (sg ++ ds) = clamp_long (signed minus (dec_value ds)).
Proof.
  intros Hs Hd Hne. destruct ds as [|c ds']; [done|]. pose proof Hd as Hd'. cbn in Hd'.
  apply andb_true_iff in Hd' as [Hc%digit_range _]. destruct Hs; cbn [app signed].
  - change (strtol (c :: ds') = clamp_long (dec_value (c :: ds'))). unfold strtol, is_space. fold strtol.
    rewrite (proj2 (Z.eqb_neq _ 32)), (proj2 (Z.leb_gt (uc c) 13)) by lia.
    rewrite andb_false_r. cbn [orb]. rewrite (proj2 (Z.eqb_neq _ 45)), (proj2 (Z.eqb_neq _ 43)) by lia.
    by rewrite strtol_digits_dec.
  - change (clamp_long (strtol_digits 0 (c :: ds')) = clamp_long (dec_value (c :: ds'))). by rewrite strtol_digits_dec.
  - change (clamp_long (- strtol_digits 0 (c :: ds')) = clamp_long (- dec_value (c :: ds'))). by rewrite strtol_digits_dec.
Qed.
Lemma digits_no_nul ds : forallb digit ds = true -> Forall (fun b => b <> NUL_byte) ds.
Proof.
  intros Hd. apply Forall_forall. intros b Hb ->. rewrite forallb_forall in Hd. by specialize (Hd _ (proj1 (list_elem_of_In _ _) Hb)).
Qed.
Lemma c_string_signed sg minus ds : sign_of sg minus -> forallb digit ds = true -> c_string (sg ++ ds) = sg ++ ds.
Proof. intros Hs Hd%digits_no_nul. apply c_string_no_nul. destruct Hs; [done|by constructor..]. Qed.
Lemma clamp_long_id z : LONG_MIN <= z <= LONG_MAX -> clamp_long z = z.
Proof. unfold clamp_long. lia. Qed.

(** Nineteen digits, compared as text, fit a [long]. *)
Lemma nineteen_digits (minus : bool) ds : forallb digit ds = true -> length ds = 19%nat ->
  (strcmp ds long_min_digits <? 0) || ((strcmp ds long_min_digits =? 0) && minus) =
  (LONG_MIN <=? signed minus (dec_value ds)) && (signed minus (dec_value ds) <=? LONG_MAX).
Proof.
  intros Hd Hl. destruct (strcmp_dec ds long_min_digits 0 Hl Hd eq_refl ltac:(lia)) as [Hlt Heq].
  change (dec_from 0 long_min_digits) with 9223372036854775808 in Hlt, Heq. fold (dec_value ds) in Hlt, Heq.
  pose proof (dec_from_bounds ds 0 Hd ltac:(lia)) as [Hpos _]. fold (dec_value ds) in Hpos. unfold LONG_MIN, LONG_MAX.
  destruct minus; cbn [signed];
    destruct (Z.ltb_spec (strcmp ds long_min_digits) 0), (Z.eqb_spec (strcmp ds long_min_digits) 0); cbn [orb andb];
    symmetry; first [apply andb_true_iff; lia|apply andb_false_iff; lia].
Qed.
