(* ===== verification/ZendNumeric.v ===== *)
(** * Zend/zend_operators.h: [is_numeric_string]

    Whether a string spells a number, and which.  The scan keeps a pointer
    into the string, counts digits and jumps between the labels
    [check_digits] and [process_double] of the C code; here it is a machine
    whose [label] says where it is.  A [char *] is an index into the bytes,
    the terminating NUL standing at their end; an access beyond it is a
    fault.  [zend_strtod] and [zend_hex_strtod] are parameters: what they make
    of a string, and how many characters they read. *)

From S2P Require Import Prelude Dll ZendHash CLib.
Open Scope Z_scope.

(** The C string [s] at index [i]. *)
Definition char_at (s : list byte) (i : Z) : res Z :=
  if i <? 0 then Err OutOfBounds
  else match s !! Z.to_nat i with
       | Some b => Ok (uc b)
       | None => if i =? Z.of_nat (length s) then Ok 0 else Err OutOfBounds
       end.
(** The string from [i] on, up to its NUL. *)
Definition string_at (s : list byte) (i : Z) : res (list byte) :=
  if (i <? 0) || (Z.of_nat (length s) <? i) then Err OutOfBounds
  else Ok (c_string (drop (Z.to_nat i) s)).

Section Numeric.
Context {D : Type}.

(** The conversions to [double], and where they stop. *)
Record double_reader : Type := {
  zend_strtod : list byte -> D;
  strtod_end : list byte -> Z;
  zend_hex_strtod : list byte -> D;
  hex_strtod_end : list byte -> Z
}.
Context (R : double_reader).

(** The local variables of the scan; [str] is the string from its first
    character that is no white space. *)
Record scan : Type := mkScan {
  ptr : Z;
  base : Z;
  digits : Z;
  dp_or_e : Z;
  ntype : Z;
  local_dval : option D
}.
Definition set_ptr p st := mkScan p (base st) (digits st) (dp_or_e st) (ntype st) (local_dval st).
Definition set_dp_or_e e st := mkScan (ptr st) (base st) (digits st) e (ntype st) (local_dval st).
Definition set_ntype t st := mkScan (ptr st) (base st) (digits st) (dp_or_e st) t (local_dval st).
Definition set_double d p st := mkScan p (base st) (digits st) (dp_or_e st) (ntype st) (Some d).
Definition next_digit st := mkScan (ptr st + 1) (base st) (digits st + 1) (dp_or_e st) (ntype st) (local_dval st).

Inductive label : Type :=
  | For_test          (* the condition of the for loop *)
  | Check_digits
  | After_loop
  | Process_double
  | Full_match.       (* if (ptr != str + length) *)

Section Scan.
Context (str : list byte) (dval : bool) (allow_errors : Z).

Definition check_digits st : res (label * scan) :=
  c ← char_at str (ptr st);
  if is_digit c || ((base st =? 16) && is_xdigit c) then Ok (For_test, next_digit st)
  else if base st =? 10 then
    if (c =? 46) && (dp_or_e st <? 1) then Ok (Process_double, st)
    else if ((c =? 101) || (c =? 69)) && (dp_or_e st <? 2) then
      e0 ← char_at str (ptr st + 1);
      let signed := (e0 =? 45) || (e0 =? 43) in
      let st := if signed then set_ptr (ptr st + 1) st else st in
      e1 ← char_at str (ptr st + 1);
      Ok (if is_digit e1 then Process_double else After_loop, st)
    else Ok (After_loop, st)
  else Ok (After_loop, st).

Definition after_loop st : res (label * scan) :=
  if base st =? 10 then
    if MAX_LENGTH_OF_LONG <=? digits st then Ok (Process_double, set_dp_or_e (-1) st) else Ok (Full_match, st)
  else
    fits ← (if digits st <? 16 then Ok true
            else if digits st =? 16 then c ← char_at str (ptr st - digits st); Ok (c <=? 55) else Ok false);
    Ok (Full_match,
        if (fits : bool) then st
        else let st := set_ntype IS_DOUBLE st in
             if dval then set_double (zend_hex_strtod R (c_string str)) (hex_strtod_end R (c_string str)) st else st).

Definition process_double st : res (label * scan) :=
  let st := set_ntype IS_DOUBLE st in
  if dval then Ok (Full_match, set_double (zend_strtod R (c_string str)) (strtod_end R (c_string str)) st)
  else if negb (allow_errors =? 1) && negb (dp_or_e st =? -1) then
    c ← char_at str (ptr st);
    Ok (Check_digits, set_dp_or_e (if c =? 46 then 1 else 2) (set_ptr (ptr st + 1) st))
  else Ok (Full_match, st).

Definition scan_step (l : label) st : res (label * scan) :=
  match l with
  | For_test =>
      Ok (if negb ((MAX_LENGTH_OF_LONG <=? digits st) && (dval || (allow_errors =? 1)))
          then Check_digits else After_loop, st)
  | Check_digits => check_digits st
  | After_loop => after_loop st
  | Process_double => process_double st
  | Full_match => Ok (Full_match, st)
  end.
Fixpoint scan_loop (fuel : nat) (l : label) st : res scan :=
  match fuel with
  | O => Err OutOfFuel
  | S fuel' =>
      '(l, st) ← scan_step l st;
      match l with Full_match => Ok st | _ => scan_loop fuel' l st end
  end.
(** A character is looked at in at most three steps. *)
Definition scan_fuel : nat := 3 * length str + 6.
End Scan.

Fixpoint skip_zeros (s : list byte) : Z :=
  match s with c :: s' => if uc c =? 48 then 1 + skip_zeros s' else 0 | [] => 0 end.

(** What is returned: the type, or 0; what is written to [*lval] and to
    [*dval]; whether the notice of an ill-formed number is raised. *)
Record numeric : Type := mkNumeric {
  num_type : Z;
  num_lval : option Z;
  num_dval : option D;
  num_notice : bool
}.
Definition not_numeric : numeric := mkNumeric 0 None None false.

(** After the scan: the match must be full, unless errors are allowed. *)
Definition finish_number (str : list byte) (length : Z) (lval dval : bool) (allow_errors : Z) (st : scan) : res numeric :=
  if negb (ptr st =? length) && (allow_errors =? 0) then Ok not_numeric
  else
    let notice := negb (ptr st =? length) && (allow_errors =? -1) in
    if ntype st =? IS_LONG then
      too_big ← (if digits st =? MAX_LENGTH_OF_LONG - 1 then
                   tail ← string_at str (ptr st - digits st);
                   c ← char_at str 0;
                   let cmp := strcmp tail long_min_digits in
                   Ok (negb ((cmp <? 0) || ((cmp =? 0) && (c =? 45))))
                 else Ok false);
      Ok (if (too_big : bool) then
            mkNumeric IS_DOUBLE None (if dval then Some (zend_strtod R (c_string str)) else None) notice
          else
            mkNumeric IS_LONG
              (if lval then Some (if base st =? 10 then strtol (c_string str) else strtol16 (c_string str)) else None)
              None notice)
    else if dval then
      match local_dval st with
      | Some d => Ok (mkNumeric IS_DOUBLE None (Some d) notice)
      | None => Err DanglingPointer
      end
    else Ok (mkNumeric IS_DOUBLE None None notice).

(** Where the scan starts, and with what; [None]: this is no number. *)
Definition start_scan (str : list byte) (length : Z) : res (option (label * scan)) :=
  c0 ← char_at str 0;
  let p := b2z ((c0 =? 45) || (c0 =? 43)) in
  c ← char_at str p;
  if is_digit c then
    x ← (if (2 <? length) && (c0 =? 48) then char_at str 1 else Ok 0);
    let hex := (2 <? length) && (c0 =? 48) && ((x =? 120) || (x =? 88)) in
    let p := if hex then p + 2 else p in
    Ok (Some (For_test, mkScan (p + skip_zeros (drop (Z.to_nat p) str)) (if hex then 16 else 10) 0 0 IS_LONG None))
  else if c =? 46 then
    c1 ← char_at str (p + 1);
    Ok (if is_digit c1 then Some (Process_double, mkScan p 10 0 0 IS_LONG None) else None)
  else Ok None.

Fixpoint skip_space (s : list byte) : list byte :=
  match s with c :: s' => if is_space c then skip_space s' else s | [] => [] end.

(** [lval] and [dval]: whether the pointers are given.  [s] has [length] bytes. *)
Definition is_numeric_string (s : list byte) (lval dval : bool) (allow_errors : Z) : res numeric :=
  if Z.of_nat (length s) =? 0 then Ok not_numeric
  else
    let str := skip_space s in
    let len := Z.of_nat (length str) in
    start ← start_scan str len;
    match start with
    | None => Ok not_numeric
    | Some (l, st) =>
        st ← scan_loop str dval allow_errors (scan_fuel str) l st;
        finish_number str len lval dval allow_errors st
    end.
End Numeric.
Arguments double_reader : clear implicits.
Arguments scan : clear implicits.
Arguments numeric : clear implicits.
