(* ===== verification/ZendNumericInt.v ===== *)
(** * Numeric strings: the integers

    The strings [is_numeric_string] takes for a [long]: white space, a sign
    and decimal digits, or white space and [0x] and hexadecimal digits.  The
    scan is followed along the digits to their end. *)

From S2P Require Import Prelude Dll ZendHash ZendHashNumeric CLib ZendNumeric ZendNumericSpec.
Open Scope Z_scope.

Definition xdigit (c : byte) : bool := is_xdigit (uc c).
Definition hex_from (z : Z) (hs : list byte) : Z := fold_left (fun z c => z * 16 + xdigit_value (uc c)) hs z.
Definition hex_value (hs : list byte) : Z := hex_from 0 hs.

(** [text] spells the integer [v], in base 16 if [hex]. *)
Inductive integer_text : list byte -> bool -> Z -> Prop :=
  | decimal_text ws sg minus ds : forallb is_space ws = true -> sign_of sg minus ->
      forallb digit ds = true -> ds <> [] -> integer_text (ws ++ sg ++ ds) false (signed minus (dec_value ds))
  | hex_text ws x hs : forallb is_space ws = true -> x = Byte.x78 \/ x = Byte.x58 ->
      forallb xdigit hs = true -> hs <> [] -> integer_text (ws ++ ZERO :: x :: hs) true (hex_value hs).

(** A digit of the base. *)
Definition num (b : Z) (c : byte) : bool := is_digit (uc c) || ((b =? 16) && is_xdigit (uc c)).
Definition stops (b : Z) (rest : list byte) : Prop := match rest with [] => True | c :: _ => num b c = false end.

Section Run.
Context {D : Type} (R : double_reader D) (str : list byte).
Notation len := (Z.of_nat (length str)).
Notation loop := (scan_loop R str true 0).

Definition advance (k : Z) (st : scan D) : scan D :=
  mkScan (ptr st + k) (base st) (digits st + k) (dp_or_e st) (ntype st) (local_dval st).

Lemma run_digits run : forall rest st f, drop (Z.to_nat (ptr st)) str = run ++ rest -> 0 <= ptr st ->
  forallb (num (base st)) run = true -> digits st + Z.of_nat (length run) <= MAX_LENGTH_OF_LONG ->
  loop (2 * length run + f) For_test st = loop f For_test (advance (Z.of_nat (length run)) st).
Proof.
  induction run as [|c run IH]; intros rest st f Hd Hp Hn Hm.
  { unfold advance. cbn [length Z.of_nat]. rewrite !Z.add_0_r. by destruct st. }
  cbn in Hn. apply andb_true_iff in Hn as [Hc Hn]. cbn [length] in *.
  replace (2 * S (length run) + f)%nat with (S (S (2 * length run + f))) by lia.
  rewrite (scan_next R str true 0 _ For_test st Check_digits st); [|cbn|done]; cycle 1.
  { rewrite (proj2 (Z.leb_gt _ _)) by lia. done. }
  rewrite (scan_next R str true 0 _ Check_digits st For_test (next_digit st)); [|cbn|done]; cycle 1.
  { unfold check_digits. rewrite (res_bind_ok _ _ _ (char_at_drop str (ptr st) c (run ++ rest) Hp Hd)).
    unfold num in Hc. by rewrite Hc. }
  rewrite (IH rest); cbn; [|by apply (drop_next str (ptr st) c)|lia|done|lia].
  f_equal. unfold advance. cbn. f_equal; lia.
Qed.

(** A character that is no digit leaves the loop before the end. *)
Lemma check_stops (st : scan D) c : base st = 10 -> char_at str (ptr st) = Ok c -> is_digit c = false -> 0 <= ptr st < len ->
  exists l st', check_digits str st = Ok (l, st') /\
    (l = Process_double \/ l = After_loop /\ ptr st' < len /\ base st' = 10 /\ digits st' = digits st /\ ntype st' = ntype st).
Proof.
  intros Hb Hc Hnum Hp. unfold check_digits. rewrite (res_bind_ok _ _ _ Hc), Hb, Hnum. cbn [orb andb Z.eqb Pos.eqb].
  destruct ((c =? 46) && _); [by eexists _, _; split; [|left]|].
  destruct (((c =? 101) || (c =? 69)) && _); cycle 1.
  { eexists _, _. split; [done|]. right. split; [done|]. split; [lia|done]. }
  destruct (char_at_ok str (ptr st + 1) ltac:(lia)) as (e0 & He & _ & Hlt). rewrite (res_bind_ok _ _ _ He). cbv zeta.
  set (sg := (e0 =? 45) || (e0 =? 43)). assert (Hsg : sg = true -> ptr st + 1 < len) by (unfold sg; intros; apply Hlt; lia).
  set (st1 := if sg then _ else _).
  assert (Hst1 : 0 <= ptr st1 < len /\ base st1 = 10 /\ digits st1 = digits st /\ ntype st1 = ntype st).
  { unfold st1. destruct sg; cbn; [specialize (Hsg eq_refl)|]; (split; [lia|done]). }
  destruct (char_at_ok str (ptr st1 + 1) ltac:(lia)) as (e1 & He1 & _). rewrite (res_bind_ok _ _ _ He1).
  eexists _, _. split; [done|]. destruct (is_digit e1); [by left|right]. split; [done|]. destruct Hst1 as (? & ? & ? & ?). split; [lia|done].
Qed.

Context (st : scan D) (run rest : list byte).
Hypothesis (Hfresh : digits st = 0 /\ dp_or_e st = 0 /\ ntype st = IS_LONG).
Hypothesis (Hptr : 0 <= ptr st <= len) (Hdrop : drop (Z.to_nat (ptr st)) str = run ++ rest).
Hypothesis (Hrun : forallb (num (base st)) run = true) (Hstop : stops (base st) rest).
Notation n := (Z.of_nat (length run)).

Lemma run_length : ptr st + n + Z.of_nat (length rest) = len.
Proof.
  pose proof (f_equal length Hdrop) as Hl. rewrite length_drop, length_app in Hl. lia.
Qed.
Lemma scan_long_run : MAX_LENGTH_OF_LONG <= n ->
  exists f, loop (scan_fuel str) For_test st = loop (S (S f)) After_loop (advance MAX_LENGTH_OF_LONG st).
Proof.
  intros Hn. pose proof run_length as Hl. destruct Hfresh as (Hd0 & _). set (k := Z.to_nat MAX_LENGTH_OF_LONG).
  assert (Hk : length (take k run) = k) by (rewrite length_take; unfold k; lia).
  exists (scan_fuel str - 2 * k - 3)%nat.
  replace (scan_fuel str) with (2 * length (take k run) + (S (S (S (scan_fuel str - 2 * k - 3)))))%nat
    at 1 by (assert (k <= length str)%nat by (unfold k; lia); unfold scan_fuel; lia).
  rewrite (run_digits (take k run) (drop k run ++ rest)); [|by rewrite app_assoc, take_drop|lia| |rewrite Hd0, Hk; done]; cycle 1.
  { apply forallb_forall. intros c Hc. apply (proj1 (forallb_forall _ _) Hrun). rewrite <- (take_drop k run). apply in_or_app. by left. }
  rewrite Hk. change (Z.of_nat k) with MAX_LENGTH_OF_LONG.
  apply (scan_next R str true 0); [|done]. cbn. by rewrite Hd0.
Qed.
Lemma scan_short_run : n < MAX_LENGTH_OF_LONG ->
  exists f, loop (scan_fuel str) For_test st = loop (S (S (S f))) Check_digits (advance n st).
Proof.
  intros Hn. pose proof run_length as Hl. destruct Hfresh as (Hd0 & _).
  exists (scan_fuel str - 2 * length run - 4)%nat.
  replace (scan_fuel str) with (2 * length run + (S (S (S (S (scan_fuel str - 2 * length run - 4))))))%nat
    at 1 by (unfold scan_fuel; lia).
  rewrite (run_digits run rest) by (try done; try lia; rewrite Hd0; lia).
  apply (scan_next R str true 0); [|done]. cbn. rewrite Hd0, (proj2 (Z.leb_gt _ _)) by lia. done.
Qed.

(** How the scan of a run of digits ends: at the end of the string, with a
    [long]; with too many digits; or before something else. *)
Inductive run_end (fits : bool) (d : D) (e : Z) (st' : scan D) : Prop :=
  | end_long : rest = [] -> fits = true -> st' = advance n st -> run_end fits d e st'
  | end_double : fits = false -> ntype st' = IS_DOUBLE -> ptr st' = e -> local_dval st' = Some d -> run_end fits d e st'
  | end_other : rest <> [] -> ~ (ntype st' = IS_LONG /\ ptr st' = len) ->
      (ntype st' <> IS_LONG -> exists d', local_dval st' = Some d') -> run_end fits d e st'.

(** What a short run ends before. *)
Lemma stop_char : (rest = [] /\ char_at str (ptr (advance n st)) = Ok 0) \/
  (exists c rest', rest = c :: rest' /\ char_at str (ptr (advance n st)) = Ok (uc c) /\ num (base st) c = false /\ ptr st + n < len).
Proof.
  cbn. assert (Hd : drop (Z.to_nat (ptr st + n)) str = rest).
  { replace (Z.to_nat (ptr st + n)) with (Z.to_nat (ptr st) + length run)%nat by lia. by rewrite <- drop_drop, Hdrop, drop_app_length. }
  pose proof run_length as Hl. destruct rest as [|c rest'].
  - left. split; [done|]. cbn in Hl. rewrite Z.add_0_r in Hl. rewrite Hl. apply char_at_end.
  - right. exists c, rest'. split; [done|]. split; [by apply (char_at_drop _ _ _ rest'); [lia|]|]. split; [done|].
    cbn [length] in Hl. lia.
Qed.

Lemma dec_scan : base st = 10 -> exists st', loop (scan_fuel str) For_test st = Ok st' /\
  run_end (n <? MAX_LENGTH_OF_LONG) (zend_strtod R (c_string str)) (strtod_end R (c_string str)) st'.
Proof.
  intros Hb. destruct Hfresh as (Hd0 & He0 & Ht0). destruct (Z.ltb_spec n MAX_LENGTH_OF_LONG) as [Hn|Hn].
  - destruct (scan_short_run Hn) as [f Hf]. rewrite Hf. clear Hf.
    assert (Hafter : forall st', base st' = 10 -> digits st' = n -> loop (S (S f)) After_loop st' = Ok st').
    { intros st' Hb' Hd'. apply scan_last. cbn. unfold after_loop. rewrite Hb', Hd', (proj2 (Z.leb_gt _ _)) by lia. done. }
    destruct stop_char as [[Hr Hc]|(c & rest' & Hr & Hc & Hnum & Hlt)].
    + exists (advance n st). split; [|by apply end_long].
      rewrite (scan_next R str true 0 _ Check_digits _ After_loop (advance n st)); [|cbn [scan_step]|done].
      { apply Hafter; cbn; lia. }
      unfold check_digits. rewrite (res_bind_ok _ _ _ Hc). cbn [advance base]. by rewrite Hb.
    + unfold num in Hnum. apply orb_false_iff in Hnum as [Hnum _]. assert (Hne : rest <> []) by (by rewrite Hr).
      destruct (check_stops (advance n st) _ Hb Hc Hnum ltac:(cbn; lia)) as (l & st1 & Hs & Hcase).
      rewrite (scan_next R str true 0 _ Check_digits _ l st1); [|done|by destruct Hcase as [->|[-> _]]].
      destruct Hcase as [->|(-> & Hlt1 & Hb1 & Hd1 & Ht1)].
      * eexists. split; [by apply scan_last|]. apply end_other; [done|by intros [Ht _]|by eexists].
      * exists st1. split; [apply Hafter; [done|]; rewrite Hd1; cbn; lia|]. apply end_other; [done|lia|]. rewrite Ht1. by intros [].
  - destruct (scan_long_run ltac:(lia)) as [f Hf]. rewrite Hf. clear Hf.
    eexists. split.
    + etransitivity; [apply (scan_next R str true 0 _ After_loop _ Process_double)|]; [|done|by apply scan_last].
      cbn [scan_step]. unfold after_loop. cbn [advance base digits]. by rewrite Hb, Hd0.
    + by apply end_double.
Qed.

(** The hexadecimal digits that fit a [long]. *)
Definition hex_fits : bool := (n <? 16) || ((n =? 16) && match run with c :: _ => uc c <=? 55 | [] => false end).
Lemma hex_after f st' : base st' = 16 -> ptr st' = ptr st + digits st' -> 
  digits st' = n \/ 16 < digits st' /\ 16 < n ->
  loop (S f) After_loop st' = Ok (if hex_fits then st' else
    mkScan (hex_strtod_end R (c_string str)) 16 (digits st') (dp_or_e st') IS_DOUBLE (Some (zend_hex_strtod R (c_string str)))).
Proof.
  intros Hb Hp Hd. apply scan_last. cbn [scan_step]. unfold after_loop. rewrite Hb. cbn [Z.eqb Pos.eqb]. unfold hex_fits.
  assert (Hfits : (if digits st' <? 16 then Ok true else if digits st' =? 16
      then c ← char_at str (ptr st' - digits st'); Ok (c <=? 55) else Ok false) = Ok hex_fits).
  { unfold hex_fits. destruct (Z.ltb_spec (digits st') 16), (Z.ltb_spec n 16); try lia; [done|].
    destruct (Z.eqb_spec (digits st') 16) as [E1|E1], (Z.eqb_spec n 16) as [E2|E2]; try lia; [|done].
    replace (ptr st' - digits st') with (ptr st) by lia. destruct run as [|c run']; [done|].
    by rewrite (res_bind_ok _ _ _ (char_at_drop str (ptr st) c (run' ++ rest) ltac:(lia) Hdrop)). }
  rewrite (res_bind_ok _ _ _ Hfits). destruct hex_fits eqn:E; unfold hex_fits in E; rewrite E; [done|].
  unfold set_double, set_ntype. cbn. by rewrite Hb.
Qed.
Lemma hex_scan : base st = 16 -> exists st', loop (scan_fuel str) For_test st = Ok st' /\
  run_end hex_fits (zend_hex_strtod R (c_string str)) (hex_strtod_end R (c_string str)) st'.
Proof.
  intros Hb. destruct Hfresh as (Hd0 & He0 & Ht0). destruct (Z.ltb_spec n MAX_LENGTH_OF_LONG) as [Hn|Hn].
  - destruct (scan_short_run Hn) as [f Hf]. rewrite Hf. clear Hf. eexists. split.
    + etransitivity; [apply (scan_next R str true 0 _ Check_digits _ After_loop (advance n st))|apply hex_after].
      * cbn [scan_step]. unfold check_digits. destruct stop_char as [[Hr Hc]|(c & rest' & Hr & Hc & Hnum & Hlt)];
          rewrite (res_bind_ok _ _ _ Hc); cbn [advance base]; rewrite Hb; [done|]. unfold num in Hnum. rewrite Hb in Hnum. by rewrite Hnum.
      * done.
      * done.
      * cbn. lia.
      * left. cbn. lia.
    + destruct hex_fits eqn:Hfits; [|by apply end_double].
      destruct stop_char as [[Hr _]|(c & rest' & Hr & _ & _ & Hlt)]; [by apply end_long|].
      apply end_other; [by rewrite Hr|cbn; lia|]. by intros [].
  - unfold MAX_LENGTH_OF_LONG in Hn. destruct (scan_long_run ltac:(unfold MAX_LENGTH_OF_LONG; lia)) as [f Hf]. rewrite Hf. clear Hf. eexists. split.
    + apply hex_after; [done|cbn; lia|right]. cbn. unfold MAX_LENGTH_OF_LONG. lia.
    + assert (Hf : hex_fits = false) by (unfold hex_fits; lia). rewrite Hf. by apply end_double.
Qed.
End Run.

(** ** Leading zeros and runs *)

Lemma split_zeros b : exists k t, b = repeat ZERO k ++ t /\ skip_zeros b = Z.of_nat k /\
  match t with c :: _ => uc c <> 48 | [] => True end.
Proof.
  induction b as [|c b (k & t & -> & Hk & Ht)]; [by exists O, []|]. cbn [skip_zeros].
  destruct (Z.eqb_spec (uc c) 48) as [E|E].
  - exists (S k), t. split; [|split; [lia|done]]. cbn. f_equal. by apply uc_inj.
  - by exists O, (c :: repeat ZERO k ++ t).
Qed.
Lemma split_run b t : exists run rest, t = run ++ rest /\ forallb (num b) run = true /\ stops b rest.
Proof.
  induction t as [|c t (run & rest & -> & Hr & Hs)]; [by exists [], []|].
  destruct (num b c) eqn:Hc; [exists (c :: run), rest; cbn; by rewrite Hc|by exists [], (c :: run ++ rest)].
Qed.
Lemma stops_only b run rest : stops b rest -> forallb (num b) (run ++ rest) = true -> rest = [].
Proof. rewrite forallb_app, andb_true_iff. destruct rest as [|c rest]; [done|]. cbn. intros -> [_ ?]. done. Qed.
Lemma dec_zeros k t : dec_value (repeat ZERO k ++ t) = dec_value t.
Proof. induction k; [done|]. exact IHk. Qed.
Lemma hex_zeros k t : hex_value (repeat ZERO k ++ t) = hex_value t.
Proof. induction k; [done|]. exact IHk. Qed.
Lemma num_dec c : num 10 c = digit c.
Proof. apply orb_false_r. Qed.
Lemma num_hex c : num 16 c = xdigit c.
Proof. unfold num, xdigit, is_xdigit. cbn [Z.eqb Pos.eqb andb]. by destruct (is_digit (uc c)). Qed.
Lemma forallb_same {A} (f g : A -> bool) l : (forall x, f x = g x) -> forallb f l = forallb g l.
Proof. intros H. induction l; cbn; [done|]. by rewrite H, IHl. Qed.

Lemma xdigit_range c : xdigit c = true -> 0 <= xdigit_value (uc c) <= 15 /\ 48 <= uc c /\
  (uc c <> 48 -> 1 <= xdigit_value (uc c)) /\ (uc c <= 55 <-> xdigit_value (uc c) <= 7).
Proof.
  unfold xdigit, is_xdigit, is_digit, xdigit_value. intros H.
  destruct (Z.leb_spec (uc c) 57); [lia|]. destruct (Z.leb_spec (uc c) 70); lia.
Qed.
Lemma hex_from_bounds hs : forall z, forallb xdigit hs = true -> 0 <= z ->
  z * 16 ^ Z.of_nat (length hs) <= hex_from z hs < (z + 1) * 16 ^ Z.of_nat (length hs).
Proof.
  induction hs as [|c hs IH]; intros z Hd Hz; [simpl; lia|].
  cbn [forallb length hex_from fold_left] in *. apply andb_true_iff in Hd as [(Hc & _)%xdigit_range Hd].
  specialize (IH (z * 16 + xdigit_value (uc c)) Hd ltac:(lia)). unfold hex_from in IH.
  rewrite Nat2Z.inj_succ, Z.pow_succ_r by lia. assert (0 < 16 ^ Z.of_nat (length hs)) by lia. nia.
Qed.

(** The digits without their zeros fit a [long] when the number does. *)
Lemma hex_fits_range run : forallb xdigit run = true -> match run with c :: _ => uc c <> 48 | [] => True end ->
  hex_fits run = (hex_value run <=? LONG_MAX) /\ 0 <= hex_value run.
Proof.
  intros Hx H0. unfold hex_fits. destruct run as [|c run]; [done|]. cbn [length].
  pose proof Hx as Hx'. cbn in Hx'. apply andb_true_iff in Hx' as [Hc%xdigit_range Hx'].
  pose proof (hex_from_bounds run (xdigit_value (uc c)) Hx' ltac:(lia)) as Hb.
  change (hex_value (c :: run)) with (hex_from (xdigit_value (uc c)) run).
  change LONG_MAX with (8 * 16 ^ 15 - 1). set (k := Z.of_nat (length run)) in *.
  assert (0 <= hex_from (xdigit_value (uc c)) run) by (assert (0 < 16 ^ k) by lia; nia). split; [|done].
  destruct (Z.lt_trichotomy k 15) as [Hk|[Hk|Hk]].
  - assert (16 ^ k * 16 <= 16 ^ 15).
    { replace (16 ^ k * 16) with (16 ^ (k + 1)) by (rewrite Z.pow_add_r by lia; lia). apply Z.pow_le_mono_r; lia. }
    rewrite (proj2 (Z.ltb_lt _ _)) by lia. symmetry. apply Z.leb_le. nia.
  - rewrite Hk in Hb. rewrite (proj2 (Z.ltb_ge _ _)), (proj2 (Z.eqb_eq _ _)) by lia. cbn [orb andb].
    destruct (Z.leb_spec (uc c) 55), (Z.leb_spec (hex_from (xdigit_value (uc c)) run) (8 * 16 ^ 15 - 1)); try done; lia.
  - assert (16 ^ 16 <= 16 ^ k) by (apply Z.pow_le_mono_r; lia).
    rewrite (proj2 (Z.ltb_ge _ _)), (proj2 (Z.eqb_neq _ _)) by lia. symmetry. apply Z.leb_gt. nia.
Qed.
Lemma dec_fits_range run : forallb digit run = true -> match run with c :: _ => uc c <> 48 | [] => True end ->
  0 <= dec_value run /\ (Z.of_nat (length run) < 19 -> dec_value run < 10 ^ 18) /\ (20 <= Z.of_nat (length run) -> 10 ^ 19 <= dec_value run).
Proof.
  intros Hd H0. pose proof (dec_from_bounds run 0 Hd ltac:(lia)) as Hb. fold (dec_value run) in Hb. split; [lia|]. split.
  - intros Hn. assert (10 ^ Z.of_nat (length run) <= 10 ^ 18) by (apply Z.pow_le_mono_r; lia). lia.
  - destruct run as [|c run]; [done|]. cbn [length]. intros Hn.
    cbn in Hd. apply andb_true_iff in Hd as [Hc%digit_range Hd].
    pose proof (dec_from_bounds run (uc c - 48) Hd ltac:(lia)) as Hb'.
    change (dec_value (c :: run)) with (dec_from (uc c - 48) run). assert (10 ^ 19 <= 10 ^ Z.of_nat (length run)) by (apply Z.pow_le_mono_r; lia). nia.
Qed.

(** ** Decimal and hexadecimal numbers *)

Section Numbers.
Context {D : Type} (R : double_reader D).
Notation len str := (Z.of_nat (length str)).
Definition in_range (v : Z) : bool := (LONG_MIN <=? v) && (v <=? LONG_MAX).

(** [is_numeric_string], after the white space. *)
Definition number_from (str : list byte) : res (numeric D) :=
  start ← start_scan str (len str);
  match start with
  | None => Ok not_numeric
  | Some (l, st) => st ← scan_loop R str true 0 (scan_fuel str) l st; finish_number R str (len str) true true 0 st
  end.

(** What an integer [v] written in [str] comes to. *)
Definition long_or_strtod (v : Z) (d : D) (e : Z) (str : list byte) (r : numeric D) : Prop :=
  if in_range v then r = mkNumeric IS_LONG (Some v) None false
  else num_type r <> IS_LONG /\ (e = len str -> r = mkNumeric IS_DOUBLE None (Some d) false).

Lemma not_long st str : ~ (ntype st = IS_LONG /\ ptr st = len str) -> (ntype st <> IS_LONG -> exists d, local_dval st = Some d) ->
  exists r, finish_number R str (len str) true true 0 st = Ok r /\ num_type r <> IS_LONG.
Proof.
  intros Hn Hd. unfold finish_number. destruct (Z.eqb_spec (ptr st) (len str)) as [Hp|Hp]; [|by eexists].
  cbn [negb andb]. destruct (Z.eqb_spec (ntype st) IS_LONG) as [Ht|Ht]; [by destruct Hn|].
  destruct (Hd Ht) as [d ->]. by eexists.
Qed.
Lemma finish_double st str d e : ntype st = IS_DOUBLE -> ptr st = e -> local_dval st = Some d ->
  exists r, finish_number R str (len str) true true 0 st = Ok r /\ num_type r <> IS_LONG /\
    (e = len str -> r = mkNumeric IS_DOUBLE None (Some d) false).
Proof.
  intros Ht He Hd. unfold finish_number. rewrite Ht, He, Hd. change (IS_DOUBLE =? IS_LONG) with false.
  destruct (Z.eqb_spec e (len str)) as [Hp|Hp]; cbn [negb andb]; [by eexists|]. eexists. split; [done|]. by split.
Qed.

(** The first characters of a number: a sign, or a digit. *)
Lemma first_sign sg minus c b : sign_of sg minus -> digit c = true ->
  exists c0, char_at (sg ++ c :: b) 0 = Ok c0 /\ (c0 =? 45) = minus /\ b2z ((c0 =? 45) || (c0 =? 43)) = len sg /\
    (c0 =? 48 = true -> sg = []).
Proof.
  intros Hs Hc%digit_range. destruct Hs; (eexists; split; [by apply (char_at_drop _ 0 _ _ ltac:(lia) eq_refl)|]); try done.
  cbn. rewrite (proj2 (Z.eqb_neq _ 45)), (proj2 (Z.eqb_neq _ 43)) by lia. done.
Qed.
(** Hexadecimal digits are asked for. *)
Definition hex_prefix (str : list byte) : bool :=
  match str with z :: x :: _ :: _ => (uc z =? 48) && ((uc x =? 120) || (uc x =? 88)) | _ => false end.
Lemma start_dec sg minus c b : sign_of sg minus -> digit c = true -> hex_prefix (sg ++ c :: b) = false ->
  start_scan (D := D) (sg ++ c :: b) (len (sg ++ c :: b)) =
    Ok (Some (For_test, mkScan (len sg + skip_zeros (c :: b)) 10 0 0 IS_LONG None)).
Proof.
  intros Hs Hc Hx. destruct (first_sign sg minus c b Hs Hc) as (c0 & Hc0 & _ & Hb & H48).
  unfold start_scan. rewrite (res_bind_ok _ _ _ Hc0), Hb. cbv zeta. set (str := sg ++ c :: b) in *.
  assert (Hd : drop (Z.to_nat (len sg)) str = c :: b) by (by rewrite Nat2Z.id; apply drop_app_length).
  rewrite (res_bind_ok _ _ _ (char_at_drop str (len sg) c b ltac:(lia) Hd)). unfold digit in Hc. rewrite Hc.
  destruct ((2 <? len str) && (c0 =? 48)) eqn:Hcond; [|cbn [andb]; rewrite (res_bind_ok _ _ 0) by done; cbn [andb]; by rewrite Hd].
  apply andb_true_iff in Hcond as [Hl H0]. pose proof (H48 H0) as ->. cbn [app] in *. unfold str in *.
  destruct b as [|x [|y b]]; [done|done|].
  rewrite (res_bind_ok _ _ (uc x)) by done. cbn in Hc0. injection Hc0 as <-. cbn in Hx. rewrite H0 in Hx.
  cbn [andb] in Hx. rewrite Hx. done.
Qed.
Lemma start_hex x h hs : uc x = 120 \/ uc x = 88 -> 
  start_scan (D := D) (ZERO :: x :: h :: hs) (len (ZERO :: x :: h :: hs)) =
    Ok (Some (For_test, mkScan (2 + skip_zeros (h :: hs)) 16 0 0 IS_LONG None)).
Proof.
  intros Hx. unfold start_scan. rewrite (res_bind_ok _ _ 48), (res_bind_ok _ _ 48) by done.
  change (is_digit 48) with true. cbv iota zeta. rewrite (proj2 (Z.ltb_lt _ _)) by (cbn; lia).
  rewrite (res_bind_ok _ _ (uc x)) by done. assert (Hb : (uc x =? 120) || (uc x =? 88) = true) by lia.
  by rewrite Hb.
Qed.

(** The scan of a numeral: zeros, then a run of digits. *)
Lemma scan_numeral b pre body : b = 10 \/ b = 16 -> 
  exists k run rest st', body = repeat ZERO k ++ run ++ rest /\ skip_zeros body = Z.of_nat k /\
    forallb (num b) run = true /\ stops b rest /\
    match run with c :: _ => uc c <> 48 | [] => True end /\
    scan_loop R (pre ++ body) true 0 (scan_fuel (pre ++ body)) For_test (mkScan (len pre + skip_zeros body) b 0 0 IS_LONG None) = Ok st' /\
    run_end (pre ++ body) (mkScan (len pre + skip_zeros body) b 0 0 IS_LONG None) run rest
      (if b =? 10 then Z.of_nat (length run) <? MAX_LENGTH_OF_LONG else hex_fits run)
      (if b =? 10 then zend_strtod R (c_string (pre ++ body)) else zend_hex_strtod R (c_string (pre ++ body)))
      (if b =? 10 then strtod_end R (c_string (pre ++ body)) else hex_strtod_end R (c_string (pre ++ body))) st'.
Proof.
  intros Hb. destruct (split_zeros body) as (k & t & Hbody & Hk & H0). destruct (split_run b t) as (run & rest & -> & Hrun & Hstop).
  set (str := pre ++ body). set (st := mkScan (len pre + skip_zeros body) b 0 0 IS_LONG (None (A := D))).
  assert (Hrng : 0 <= ptr st <= len str).
  { pose proof (skip_zeros_range body). unfold str. rewrite length_app. cbn. lia. }
  assert (Hd : drop (Z.to_nat (ptr st)) str = run ++ rest).
  { unfold str. cbn [st ptr]. rewrite Hk. replace (Z.to_nat _) with (length pre + k)%nat by lia.
    by rewrite <- drop_drop, drop_app_length, Hbody, drop_app_length' by (symmetry; apply repeat_length). }
  assert (H0' : match run with c :: _ => uc c <> 48 | [] => True end) by (by destruct run).
  assert (Hfresh : digits st = 0 /\ dp_or_e st = 0 /\ ntype st = IS_LONG) by done.
  destruct Hb as [Hb|Hb].
  - destruct (dec_scan R str st run rest Hfresh Hrng Hd) as (st' & Hl & He); [by subst b..|].
    exists k, run, rest, st'. by rewrite Hb in *.
  - destruct (hex_scan R str st run rest Hfresh Hrng Hd) as (st' & Hl & He); [by subst b..|].
    exists k, run, rest, st'. by rewrite Hb in *.
Qed.

Lemma long_or_strtod_out v d e str r : in_range v = false -> num_type r <> IS_LONG ->
  (e = len str -> r = mkNumeric IS_DOUBLE None (Some d) false) -> long_or_strtod v d e str r.
Proof. unfold long_or_strtod. by intros ->. Qed.

Lemma c_string_head b : c_string b <> [] -> exists c b', b = c :: b'.
Proof. destruct b; [done|]. by eexists _, _. Qed.

(** The end of a run of decimal digits: nineteen of them are compared as text. *)
Lemma finish_decimal sg minus k run (ds := repeat ZERO k ++ run) (str := sg ++ ds) (st : scan D) :
  sign_of sg minus -> forallb digit ds = true -> ds <> [] -> match run with c :: _ => uc c <> 48 | [] => True end ->
  Z.of_nat (length run) < MAX_LENGTH_OF_LONG ->
  ptr st = len str -> base st = 10 -> digits st = Z.of_nat (length run) -> ntype st = IS_LONG ->
  exists r, finish_number R str (len str) true true 0 st = Ok r /\
    long_or_strtod (signed minus (dec_value run)) (zend_strtod R str) (strtod_end R str) str r.
Proof.
  intros Hs Hd Hne H0 Hn Hp Hb Hdg Ht. pose proof (c_string_signed sg minus ds Hs Hd) as Hcs. fold str in Hcs.
  assert (Hrun : forallb digit run = true) by (unfold ds in Hd; rewrite forallb_app in Hd; by apply andb_true_iff in Hd as [_ ?]).
  pose proof (strtol_signed sg minus ds Hs Hd Hne) as Hv. fold str in Hv. unfold ds in Hv at 1. rewrite dec_zeros in Hv.
  destruct (dec_fits_range run Hrun H0) as (Hpos & Hsmall & _). set (v := signed minus (dec_value run)) in *.
  unfold finish_number. rewrite Hp, Z.eqb_refl, Ht, Hdg, Hb, Hcs, Hv. cbn [negb andb]. change (IS_LONG =? IS_LONG) with true. cbv iota.
  change (MAX_LENGTH_OF_LONG - 1) with 19. destruct (Z.eqb_spec (Z.of_nat (length run)) 19) as [H19|H19].
  - assert (Htail : string_at str (len str - Z.of_nat (length run)) = Ok run).
    { unfold string_at. assert (Hl : length str = (length (sg ++ repeat ZERO k) + length run)%nat) by (unfold str, ds; rewrite !length_app; lia).
      rewrite (proj2 (Z.ltb_ge (len str - Z.of_nat (length run)) 0)) by (clear -Hl; lia).
      rewrite (proj2 (Z.ltb_ge (len str) (len str - Z.of_nat (length run)))) by (clear; lia). cbn [orb].
      replace (Z.to_nat (len str - Z.of_nat (length run))) with (length (sg ++ repeat ZERO k)) by (clear -Hl; lia).
      unfold str, ds. rewrite app_assoc, drop_app_length.
      by rewrite c_string_no_nul by by apply digits_no_nul. }
    rewrite (res_bind_ok _ _ _ Htail). 
    assert (Hfirst : exists c0, char_at str 0 = Ok c0 /\ (c0 =? 45) = minus).
    { destruct ds as [|c b]; [done|]. cbn in Hd. apply andb_true_iff in Hd as [Hc _].
      destruct (first_sign sg minus c b Hs Hc) as (c0 & Hc0 & Hm & _). by exists c0. }
    destruct Hfirst as (c0 & Hc0 & Hm). rewrite (res_bind_ok _ _ _ Hc0), Hm. cbv zeta.
    rewrite (nineteen_digits minus run Hrun ltac:(lia)). fold v. change (_ && _) with (in_range v).
    unfold long_or_strtod. destruct (in_range v) eqn:Hin; cbn [negb res_bind]; eexists; (split; [done|]); [|done].
    unfold in_range in Hin. by rewrite clamp_long_id by lia.
  - assert (Hin : in_range v = true).
    { unfold in_range, v. unfold MAX_LENGTH_OF_LONG in Hn. specialize (Hsmall ltac:(lia)).
      change LONG_MIN with (- 9223372036854775808). change LONG_MAX with 9223372036854775807. destruct minus; cbn [signed]; lia. }
    unfold long_or_strtod. rewrite Hin. eexists. split; [done|]. unfold in_range in Hin. cbn. by rewrite clamp_long_id by lia.
Qed.

(** A sign and a digit that do not announce hexadecimal digits. *)
Lemma decimal_number sg minus c b (str := sg ++ c :: b) (v := signed minus (dec_value (c :: b))) :
  sign_of sg minus -> digit c = true -> hex_prefix str = false -> exists r, number_from str = Ok r /\
    (if forallb digit (c :: b) then long_or_strtod v (zend_strtod R str) (strtod_end R str) str r
     else num_type r <> IS_LONG).
Proof.
  intros Hs Hc Hx. unfold number_from. unfold str at 1 2. rewrite (res_bind_ok _ _ _ (start_dec sg minus c b Hs Hc Hx)).
  cbv beta iota. destruct (scan_numeral 10 sg (c :: b) ltac:(by left)) as (k & run & rest & st' & Hb & Hz & Hrun & Hstop & H0 & Hl & He).
  fold str in Hl, He. rewrite (res_bind_ok _ _ _ Hl). cbn [Z.eqb Pos.eqb] in He.
  pose proof Hrun as Hrd. rewrite (forallb_same _ _ _ num_dec) in Hrd.
  assert (Hall : forallb digit (c :: b) = true -> rest = [] /\ dec_value (c :: b) = dec_value run).
  { rewrite Hb, forallb_app, andb_true_iff. intros [_ Ha]. rewrite dec_zeros. rewrite <- (forallb_same _ _ _ num_dec) in Ha.
    rewrite (stops_only 10 run rest Hstop Ha), app_nil_r. done. }
  assert (Hcs : forallb digit (c :: b) = true -> c_string str = str) by (intros Ha; by apply (c_string_signed sg minus)).
  destruct (dec_fits_range run Hrd H0) as (_ & _ & Hbig).
  destruct He as [-> Hfits ->|Hfits Ht Hp Hd|Hne Hnl Hd].
  - assert (Ha : forallb digit (c :: b) = true).
    { rewrite Hb, app_nil_r, forallb_app, Hrd, andb_true_r. clear. by induction k. }
    rewrite Ha. destruct (Hall Ha) as [_ Hv]. unfold v. rewrite Hv, app_nil_r in *.
    pose proof (finish_decimal sg minus k run) as Hf. cbv zeta in Hf. rewrite <- Hb in Hf. apply Hf; try done; [lia|].
    cbn [advance ptr]. pose proof (f_equal (fun l => len l) Hb) as Hlen. cbv beta in Hlen.
    rewrite length_app, repeat_length in Hlen. unfold str. rewrite Hz, length_app. lia.
  - destruct (finish_double st' str _ _ Ht Hp Hd) as (r & Hr & Hty & Hval). exists r. split; [done|].
    destruct (forallb digit (c :: b)) eqn:Ha; [|done]. rewrite (Hcs eq_refl) in Hval. destruct (Hall eq_refl) as [_ Hv].
    apply long_or_strtod_out; [|done|done]. unfold in_range, v. rewrite Hv. unfold MAX_LENGTH_OF_LONG in Hfits.
    change LONG_MIN with (- 9223372036854775808). change LONG_MAX with 9223372036854775807. 
    specialize (Hbig ltac:(lia)). destruct minus; cbn [signed]; lia.
  - destruct (not_long st' str Hnl Hd) as (r & Hr & Hty). exists r. split; [done|].
    destruct (forallb digit (c :: b)); [|done]. by destruct (Hall eq_refl).
Qed.

Lemma strtol16_digits_hex hs : forall acc, forallb xdigit hs = true -> strtol16_digits acc hs = hex_from acc hs.
Proof.
  induction hs as [|c hs IH]; intros acc; [done|]. cbn. intros [Hc Hd]%andb_true_iff.
  unfold xdigit in Hc. rewrite Hc. by apply IH.
Qed.
Lemma strtol16_hex x h hs : uc x = 120 \/ uc x = 88 -> forallb xdigit (h :: hs) = true ->
  strtol16 (ZERO :: x :: h :: hs) = clamp_long (hex_value (h :: hs)).
Proof.
  intros Hx Hd. pose proof Hd as Hh. cbn in Hh. apply andb_true_iff in Hh as [Hh _]. unfold xdigit in Hh.
  change (strtol16 (ZERO :: x :: h :: hs)) with (clamp_long (strtol16_digits 0 (skip_0x (ZERO :: x :: h :: hs)))).
  unfold skip_0x. rewrite Hh. assert (Hb : (uc x =? 120) || (uc x =? 88) = true) by lia. rewrite Hb.
  cbn [andb]. change (uc ZERO =? 48) with true. cbv iota beta. by rewrite strtol16_digits_hex.
Qed.
Lemma xdigits_no_nul hs : forallb xdigit hs = true -> Forall (fun b => b <> NUL_byte) hs.
Proof.
  intros Hd. apply Forall_forall. intros b Hb ->. rewrite forallb_forall in Hd. by specialize (Hd _ (proj1 (list_elem_of_In _ _) Hb)).
Qed.

(** The prefix of hexadecimal digits. *)
Lemma hex_number x h hs (str := ZERO :: x :: h :: hs) (v := hex_value (h :: hs)) :
  uc x = 120 \/ uc x = 88 -> exists r, number_from str = Ok r /\
    (if forallb xdigit (h :: hs) then long_or_strtod v (zend_hex_strtod R str) (hex_strtod_end R str) str r
     else num_type r <> IS_LONG).
Proof.
  intros Hx. unfold number_from. unfold str at 1 2. rewrite (res_bind_ok _ _ _ (start_hex x h hs Hx)). cbv beta iota.
  destruct (scan_numeral 16 [ZERO; x] (h :: hs) ltac:(by right)) as (k & run & rest & st' & Hb & Hz & Hrun & Hstop & H0 & Hl & He).
  change ([ZERO; x] ++ h :: hs) with str in Hl, He. change (len [ZERO; x]) with 2 in Hl, He.
  rewrite (res_bind_ok _ _ _ Hl). cbn [Z.eqb Pos.eqb] in He.
  pose proof Hrun as Hrd. rewrite (forallb_same _ _ _ num_hex) in Hrd.
  assert (Hall : forallb xdigit (h :: hs) = true -> rest = [] /\ hex_value (h :: hs) = hex_value run).
  { rewrite Hb, forallb_app, andb_true_iff. intros [_ Ha]. rewrite hex_zeros. rewrite <- (forallb_same _ _ _ num_hex) in Ha.
    rewrite (stops_only 16 run rest Hstop Ha), app_nil_r. done. }
  assert (Hcs : forallb xdigit (h :: hs) = true -> c_string str = str).
  { intros Ha. apply c_string_no_nul. constructor; [done|]. constructor; [|by apply xdigits_no_nul]. intros ->. destruct Hx as [Hx|Hx]; by cbn in Hx. }
  destruct (hex_fits_range run Hrd H0) as [Hfit Hpos].
  assert (Hin : in_range (hex_value run) = hex_fits run).
  { rewrite Hfit. unfold in_range. unfold LONG_MIN. by rewrite (proj2 (Z.leb_le _ _)) by lia. }
  destruct He as [-> Hfits ->|Hfits Ht Hp Hd|Hne Hnl Hd].
  - assert (Ha : forallb xdigit (h :: hs) = true).
    { rewrite Hb, app_nil_r, forallb_app, Hrd, andb_true_r. clear. by induction k. }
    rewrite Ha. destruct (Hall Ha) as [_ Hv]. unfold v. rewrite Hv. unfold long_or_strtod. rewrite Hin, Hfits.
    rewrite app_nil_r in Hb. pose proof (f_equal (fun l => len l) Hb) as Hlen. cbv beta in Hlen. rewrite length_app, repeat_length in Hlen.
    assert (Hn : len run <= 16) by (unfold hex_fits in Hfits; lia).
    unfold finish_number. cbn [advance ptr digits base ntype]. rewrite Hz.
    assert (Hp : 2 + Z.of_nat k + len run = len str) by (cbn [str length] in *; lia). rewrite Hp, Z.eqb_refl. cbn [negb andb].
    change (IS_LONG =? IS_LONG) with true. cbv iota. change (MAX_LENGTH_OF_LONG - 1) with 19.
    rewrite (proj2 (Z.eqb_neq _ 19)) by lia. cbn [res_bind Z.eqb Pos.eqb]. eexists. split; [done|].
    pose proof (Hcs Ha) as Hstr. unfold str in Hstr. rewrite Hfits in Hin. unfold in_range in Hin.
    by rewrite Hstr, strtol16_hex, Hv, clamp_long_id by (done || lia).
  - destruct (finish_double st' str _ _ Ht Hp Hd) as (r & Hr & Hty & Hval). exists r. split; [done|].
    destruct (forallb xdigit (h :: hs)) eqn:Ha; [|done]. rewrite (Hcs eq_refl) in Hval. destruct (Hall eq_refl) as [_ Hv].
    apply long_or_strtod_out; [|done|done]. unfold v. by rewrite Hv, Hin.
  - destruct (not_long st' str Hnl Hd) as (r & Hr & Hty). exists r. split; [done|].
    destruct (forallb xdigit (h :: hs)); [|done]. by destruct (Hall eq_refl).
Qed.

(** Anything else is no integer. *)
Lemma number_other str c0 c : char_at str 0 = Ok c0 -> char_at str (b2z ((c0 =? 45) || (c0 =? 43))) = Ok c -> is_digit c = false ->
  exists r, number_from str = Ok r /\ num_type r <> IS_LONG.
Proof.
  intros Hc0 Hc Hd. unfold number_from, start_scan. rewrite (res_bind_ok _ _ _ Hc0). cbv zeta. rewrite (res_bind_ok _ _ _ Hc), Hd.
  destruct (Z.eqb_spec c 46) as [->|_]; [|by eexists].
  set (p := b2z _) in *. assert (Hp : 0 <= p) by (unfold p, b2z; by destruct (_ || _)).
  assert (Hlt : p < len str).
  { unfold char_at in Hc. destruct (Z.ltb_spec p 0); [done|]. destruct (str !! Z.to_nat p) eqn:E.
    - apply lookup_lt_Some in E. lia.
    - by destruct (p =? len str). }
  destruct (char_at_ok str (p + 1) ltac:(lia)) as (c1 & Hc1 & _). rewrite (res_bind_ok _ _ _ Hc1).
  destruct (is_digit c1); [|by eexists].
  rewrite (res_bind_ok _ _ (Some (Process_double, mkScan p 10 0 0 IS_LONG None))) by done.
  assert (Hl : forall st, exists st', scan_loop R str true 0 (scan_fuel str) Process_double st = Ok st' /\
    ntype st' = IS_DOUBLE /\ local_dval st' = Some (zend_strtod R (c_string str))).
  { intros st. eexists. split; [unfold scan_fuel; rewrite Nat.add_comm; by apply scan_last|done]. }
  destruct (Hl (mkScan p 10 0 0 IS_LONG None)) as (st' & Hs & Ht & Hdv). rewrite (res_bind_ok _ _ _ Hs).
  destruct (finish_double st' str _ _ Ht eq_refl Hdv) as (r & Hr & Hty & _). by exists r.
Qed.

(** The ways a number can start. *)
Inductive number_view : list byte -> Prop :=
  | view_hex x h hs : x = Byte.x78 \/ x = Byte.x58 -> number_view (ZERO :: x :: h :: hs)
  | view_dec sg minus c b : sign_of sg minus -> digit c = true -> hex_prefix (sg ++ c :: b) = false -> number_view (sg ++ c :: b)
  | view_other str : (exists r, number_from str = Ok r /\ num_type r <> IS_LONG) -> number_view str.
Lemma view_number str : number_view str.
Proof.
  destruct str as [|c0 b]; [by apply view_other; eexists|].
  assert (Hsign : forall sg minus, sign_of sg minus -> sg = [c0] -> number_view (c0 :: b)).
  { intros sg minus Hs ->. assert (H45 : (uc c0 =? 45) || (uc c0 =? 43) = true) by (by inversion Hs).
    destruct b as [|c b].
    - apply view_other, (number_other _ (uc c0) 0); [done|by rewrite H45|done].
    - destruct (digit c) eqn:Hc.
      + apply (view_dec [c0] minus); [done|done|]. cbn. destruct b; [done|]. by inversion Hs.
      + apply view_other, (number_other _ (uc c0) (uc c)); [done|by rewrite H45|done]. }
  destruct (Z.eqb_spec (uc c0) 45) as [E|E]; [apply (Hsign [c0] true); [|done]; by rewrite (uc_inj c0 Byte.x2d) by done; constructor|].
  destruct (Z.eqb_spec (uc c0) 43) as [E'|E']; [apply (Hsign [c0] false); [|done]; by rewrite (uc_inj c0 Byte.x2b) by done; constructor|].
  assert (H45 : (uc c0 =? 45) || (uc c0 =? 43) = false) by lia.
  destruct (digit c0) eqn:Hc; [|by apply view_other, (number_other _ (uc c0) (uc c0)); [|rewrite H45|]].
  destruct (hex_prefix (c0 :: b)) eqn:Hx; [|by apply (view_dec [] false); [constructor| |]].
  destruct b as [|x [|h hs]]; try done. cbn in Hx. apply andb_true_iff in Hx as [H0%Z.eqb_eq Hx].
  rewrite (uc_inj c0 ZERO H0). apply view_hex. apply orb_true_iff in Hx as [Hx%Z.eqb_eq|Hx%Z.eqb_eq]; [left|right]; by apply uc_inj.
Qed.
End Numbers.

(** ** White space *)

Lemma split_space s : exists ws, s = ws ++ skip_space s /\ forallb is_space ws = true.
Proof.
  induction s as [|c s (ws & Hs & Hw)]; [by exists []|]. cbn [skip_space]. destruct (is_space c) eqn:Hc; [|by exists []].
  exists (c :: ws). cbn. rewrite Hc, Hw. split; [by f_equal|done].
Qed.
Lemma skip_space_app ws c t : forallb is_space ws = true -> is_space c = false -> skip_space (ws ++ c :: t) = c :: t.
Proof. intros Hw Hc. induction ws as [|w ws IH]; cbn in *; [by rewrite Hc|]. apply andb_true_iff in Hw as [-> Hw]. by apply IH. Qed.
Lemma digit_no_space c : digit c = true -> is_space c = false.
Proof. intros H%digit_range. unfold is_space. lia. Qed.

(** An integer starts as the scan finds it. *)
Lemma decimal_starts sg minus ds : sign_of sg minus -> forallb digit ds = true -> ds <> [] ->
  exists c b, ds = c :: b /\ digit c = true /\ hex_prefix (sg ++ ds) = false /\
    (forall ws, forallb is_space ws = true -> skip_space (ws ++ sg ++ ds) = sg ++ ds).
Proof.
  intros Hs Hd Hne. destruct ds as [|c b]; [done|]. pose proof Hd as Hd'. cbn in Hd'. apply andb_true_iff in Hd' as [Hc Hb].
  exists c, b. split; [done|]. split; [done|]. split.
  - destruct Hs; [|cbn; by destruct b..]. cbn. destruct b as [|x [|y b]]; try done. cbn in Hb. apply andb_true_iff in Hb as [Hx%digit_range _]. lia.
  - intros ws Hw. assert (Hsp : forall x t, is_space x = false -> skip_space (ws ++ x :: t) = x :: t) by (intros; by apply skip_space_app).
    destruct Hs; apply Hsp; [by apply digit_no_space|done..].
Qed.

(** ** The whole string *)

(** The double a text is read as, and where the reading stops. *)
Definition read_double {D : Type} (R : double_reader D) (hex : bool) (str : list byte) : D :=
  if hex then zend_hex_strtod R str else zend_strtod R str.
Definition read_end {D : Type} (R : double_reader D) (hex : bool) (str : list byte) : Z :=
  if hex then hex_strtod_end R str else strtod_end R str.

(** What [r], the answer for [s], says of integers. *)
Definition integers_only {D : Type} (R : double_reader D) (s : list byte) (r : numeric D) : Prop :=
  (num_type r = IS_LONG -> exists hex v, integer_text s hex v) /\
  forall hex v, integer_text s hex v ->
    if in_range v then r = mkNumeric IS_LONG (Some v) None false
    else num_type r <> IS_LONG /\
      (read_end R hex (skip_space s) = Z.of_nat (length (skip_space s)) ->
       r = mkNumeric IS_DOUBLE None (Some (read_double R hex (skip_space s))) false).

Lemma numeric_integers {D : Type} (R : double_reader D) (s : list byte) :
  exists r, is_numeric_string R s true true 0 = Ok r /\ integers_only R s r.
Proof.
  assert (Hfrom : exists r, number_from R (skip_space s) = Ok r /\ is_numeric_string R s true true 0 = Ok r /\
    (num_type r = IS_LONG -> exists hex v, integer_text s hex v)).
  { unfold is_numeric_string. destruct (split_space s) as (ws & Hs & Hw).
    destruct (Z.eqb_spec (Z.of_nat (length s)) 0) as [H0|H0].
    { destruct s; [|done]. by exists not_numeric. }
    cbv zeta. change (start ← start_scan _ _; _) with (number_from R (skip_space s)).
    destruct (view_number R (skip_space s)) as [x h hs Hx|sg minus c b Hsg Hc Hp|str (r & Hr & Hty)].
    - destruct (hex_number R x h hs) as (r & Hr & Hty); [by destruct Hx; subst; [left|right]|].
      exists r. split; [done|]. split; [done|]. intros Hl. destruct (forallb xdigit (h :: hs)) eqn:Ha; [|done].
      exists true, (hex_value (h :: hs)). rewrite Hs. by constructor.
    - destruct (decimal_number R sg minus c b Hsg Hc Hp) as (r & Hr & Hty).
      exists r. split; [done|]. split; [done|]. intros Hl. destruct (forallb digit (c :: b)) eqn:Ha; [|done].
      exists false, (signed minus (dec_value (c :: b))). rewrite Hs. by constructor.
    - exists r. split; [done|]. by split. }
  destruct Hfrom as (r & Hr & Hn & Hty). exists r. split; [done|]. split; [done|]. intros hex v Hv.
  destruct Hv as [ws sg minus ds Hw Hsg Hd Hne|ws x hs Hw Hx Hd Hne].
  - destruct (decimal_starts sg minus ds Hsg Hd Hne) as (c & b & -> & Hc & Hp & Hskip). rewrite Hskip in * by done.
    destruct (decimal_number R sg minus c b Hsg Hc Hp) as (r' & Hr' & Hval). rewrite Hd in Hval.
    rewrite Hr in Hr'. by injection Hr' as <-.
  - rewrite skip_space_app in * by done. destruct hs as [|h hs]; [done|].
    destruct (hex_number R x h hs) as (r' & Hr' & Hval); [by destruct Hx; subst; [left|right]|]. rewrite Hd in Hval.
    rewrite Hr in Hr'. by injection Hr' as <-.
Qed.
