(* ===== verification/ZendNumericThms.v ===== *)
(** * Numeric strings: theorems

    [is_numeric_string] ends on every string, and with the flags its callers
    use to convert a whole string it takes for a [long] exactly the integers
    that fit one. *)

From S2P Require Import Prelude Dll ZendHash ZendHashNumeric CLib ZendNumeric ZendNumericSpec ZendNumericInt.
Open Scope Z_scope.

(** C16: [is_numeric_string] returns whatever the string and the flags: its
    jumps between labels end and it never reads beyond the terminating NUL.
    Asked for both values and a full match, it returns a [long] exactly for
    white space, a sign and decimal digits, or white space and [0x] and
    hexadecimal digits, whose value is in range; the value written is then
    that of the digits, however many zeros lead them.  An integer out of range
    is no [long]: it is the double the digits are read as, if they are read to
    the end of the string. *)
Theorem numeric_strings {D : Type} (R : double_reader D) (s : list byte) :
  (forall lval dval allow_errors, exists r, is_numeric_string R s lval dval allow_errors = Ok r) /\
  exists r, is_numeric_string R s true true 0 = Ok r /\ integers_only R s r.
Proof. split; [intros; apply numeric_total|apply numeric_integers]. Qed.

(** A sample reader: doubles are the text they are read from. *)
Definition sample_reader : double_reader (list byte) := {|
  zend_strtod := fun s => s; strtod_end := fun s => Z.of_nat (length s);
  zend_hex_strtod := fun s => s; hex_strtod_end := fun s => Z.of_nat (length s)
|}.
Lemma numeric_strings_witness :
  is_numeric_string sample_reader (bs " -009223372036854775808") true true 0 = Ok (mkNumeric IS_LONG (Some LONG_MIN) None false) /\
  is_numeric_string sample_reader (bs "9223372036854775808") true true 0 =
    Ok (mkNumeric IS_DOUBLE None (Some (bs "9223372036854775808")) false).
Proof.
  split.
  - destruct (numeric_strings sample_reader (bs " -009223372036854775808")) as [_ (r & Hr & _ & Hv)]. rewrite Hr.
    specialize (Hv _ _ (decimal_text [Byte.x20] [Byte.x2d] true (bs "009223372036854775808") eq_refl minus_sign eq_refl ltac:(done))).
    vm_compute in Hv. by rewrite Hv.
  - destruct (numeric_strings sample_reader (bs "9223372036854775808")) as [_ (r & Hr & _ & Hv)]. rewrite Hr.
    specialize (Hv _ _ (decimal_text [] [] false (bs "9223372036854775808") eq_refl no_sign eq_refl ltac:(done))).
    vm_compute in Hv. by rewrite (proj2 Hv eq_refl).
Defined.

(** With errors allowed, a sign after an [e] that no digit follows is counted
    as part of the digits compared with those of 2 ^ 63, which shifts them:
    the nineteen digits are taken for a [long]. *)
Example shifted_digits : is_numeric_string sample_reader (bs "9223372036854775809e+") true true 1 =
  Ok (mkNumeric IS_LONG (Some LONG_MAX) None false).
Proof. vm_compute. reflexivity. Qed.
