(* ===== verification/JsonUtf8.v ===== *)
(** * ext/json: utf8_decode.c, utf8_to_utf16.c and the way back

    The strict UTF-8 decoder the JSON extension reads its input with, the
    conversion of a text to UTF-16, and [utf16_to_utf8] of JSON_parser.c,
    which the parser builds its strings with, code unit by code unit. *)

From S2P Require Import Prelude.
Open Scope Z_scope.

Definition UTF8_END : Z := -1.
Definition UTF8_ERROR : Z := -2.

(** [the_input] points to the caller's bytes. *)
Record json_utf8_decode : Type := mkUtf8 {
  the_index : Z;
  the_input : list byte;
  the_length : Z;
  the_char : Z;
  the_byte : Z
}.
Definition set_the_index (i : Z) u := mkUtf8 i (the_input u) (the_length u) (the_char u) (the_byte u).

Definition input_byte (u : json_utf8_decode) : res byte :=
  if the_index u <? 0 then Err OutOfBounds
  else match the_input u !! Z.to_nat (the_index u) with
       | Some b => Ok b
       | None => Err OutOfBounds
       end.

(** Get the next byte. *)
Definition get : M json_utf8_decode Z :=
  u ← get_st;
  if the_length u <=? the_index u then mret UTF8_END
  else
    b ← reading input_byte;
    modify (set_the_index (the_index u + 1));;
    mret (Z.land (sc b) 255).

(** Get the 6-bit payload of the next continuation byte. *)
Definition cont : M json_utf8_decode Z :=
  c ← get;
  mret (if Z.land c 192 =? 128 then Z.land c 63 else UTF8_ERROR).

Definition utf8_decode_init (p : list byte) (length : Z) : json_utf8_decode := mkUtf8 0 p length 0 0.
Definition utf8_decode_at_byte (u : json_utf8_decode) : Z := the_byte u.
Definition utf8_decode_at_character (u : json_utf8_decode) : Z :=
  if 0 <? the_char u then the_char u - 1 else 0.

(** Extract the next character. *)
Definition utf8_decode_next : M json_utf8_decode Z :=
  u ← get_st;
  if the_length u <=? the_index u then
    mret (if the_index u =? the_length u then UTF8_END else UTF8_ERROR)
  else
    modify (fun u => mkUtf8 (the_index u) (the_input u) (the_length u) (the_char u + 1) (the_index u));;
    c ← get;
    if Z.land c 128 =? 0 then mret c
    else if Z.land c 224 =? 192 then
      c1 ← cont;
      if c1 <? 0 then mret UTF8_ERROR
      else
        let r := Z.lor (Z.shiftl (Z.land c 31) 6) c1 in
        mret (if 128 <=? r then r else UTF8_ERROR)
    else if Z.land c 240 =? 224 then
      c1 ← cont;
      c2 ← cont;
      if (c1 <? 0) || (c2 <? 0) then mret UTF8_ERROR
      else
        let r := Z.lor (Z.lor (Z.shiftl (Z.land c 15) 12) (Z.shiftl c1 6)) c2 in
        mret (if (2048 <=? r) && ((r <? 55296) || (57343 <? r)) then r else UTF8_ERROR)
    else if Z.land c 248 =? 240 then
      c1 ← cont;
      c2 ← cont;
      c3 ← cont;
      if (c1 <? 0) || (c2 <? 0) || (c3 <? 0) then mret UTF8_ERROR
      else
        let r := Z.lor (Z.lor (Z.lor (Z.shiftl (Z.land c 15) 18) (Z.shiftl c1 12)) (Z.shiftl c2 6)) c3 in
        mret (if (65536 <=? r) && (r <=? 1114111) then r else UTF8_ERROR)
    else mret UTF8_ERROR.

(** ** UTF-16

    [w] is the caller's array, of [cap] elements: the units written so far
    are a list, a write past [cap] a fault.  The loop ends with the text. *)
Definition write_unit (cap : Z) (w : list Z) (x : Z) : res (list Z) :=
  if Z.of_nat (length w) <? cap then Ok (w ++ [x `mod` 2 ^ 16]) else Err OutOfBounds.

Fixpoint to_utf16_loop (fuel : nat) (cap : Z) (w : list Z) (u : json_utf8_decode) : res (Z * list Z) :=
  match fuel with
  | O => Err OutOfFuel
  | S fuel' =>
      '(c, u) ← utf8_decode_next u;
      if c <? 0 then Ok (if c =? UTF8_END then Z.of_nat (length w) else UTF8_ERROR, w)
      else if c <? 65536 then
        w ← write_unit cap w c;
        to_utf16_loop fuel' cap w u
      else
        let c := c - 65536 in
        w ← write_unit cap w (Z.lor 55296 (Z.shiftr c 10));
        w ← write_unit cap w (Z.lor 56320 (Z.land c 1023));
        to_utf16_loop fuel' cap w u
  end.
(** The units written stand for [w]; [the_index] is their number. *)
Definition utf8_to_utf16 (cap : Z) (p : list byte) (len : Z) : res (Z * list Z) :=
  to_utf16_loop (S (length p)) cap [] (utf8_decode_init p len).

(** ** Back to UTF-8

    A [smart_str] is the bytes it holds; its block grows as needed. *)
Definition smart_str_appendc (buf : list byte) (c : Z) : list byte := buf ++ [to_byte c].

(** [(unsigned char) buf->c[buf->len - k]]. *)
Definition from_end (buf : list byte) (k : nat) : Z :=
  match buf !! (length buf - k)%nat with Some b => uc b | None => 0 end.

Definition utf16_to_utf8 (buf : list byte) (utf16 : Z) : list byte :=
  if utf16 <? 128 then smart_str_appendc buf utf16
  else if utf16 <? 2048 then
    let buf := smart_str_appendc buf (Z.lor 192 (Z.shiftr utf16 6)) in
    smart_str_appendc buf (Z.lor 128 (Z.land utf16 63))
  else if (Z.land utf16 64512 =? 56320) && (3 <=? Z.of_nat (length buf)) &&
          (from_end buf 3 =? 237) && (Z.land (from_end buf 2) 240 =? 160) &&
          (Z.land (from_end buf 1) 192 =? 128) then
    let utf32 := Z.lor (Z.lor (Z.shiftl (Z.land (from_end buf 2) 15) 16)
                              (Z.shiftl (Z.land (from_end buf 1) 63) 10))
                       (Z.land utf16 1023) + 65536 in
    let buf := take (length buf - 3) buf in
    let buf := smart_str_appendc buf (Z.lor 240 (Z.shiftr utf32 18)) in
    let buf := smart_str_appendc buf (Z.lor 128 (Z.land (Z.shiftr utf32 12) 63)) in
    let buf := smart_str_appendc buf (Z.lor 128 (Z.land (Z.shiftr utf32 6) 63)) in
    smart_str_appendc buf (Z.lor 128 (Z.land utf32 63))
  else
    let buf := smart_str_appendc buf (Z.lor 224 (Z.shiftr utf16 12)) in
    let buf := smart_str_appendc buf (Z.lor 128 (Z.land (Z.shiftr utf16 6) 63)) in
    smart_str_appendc buf (Z.lor 128 (Z.land utf16 63)).

(** The value of a hexadecimal digit. *)
Definition dehexchar (c : Z) : Z :=
  if (48 <=? c) && (c <=? 57) then c - 48
  else if (65 <=? c) && (c <=? 70) then c - 55
  else if (97 <=? c) && (c <=? 102) then c - 87
  else -1.

Example decode_euro :
  utf8_to_utf16 3 [Byte.xe2; Byte.x82; Byte.xac] 3 = Ok (1, [8364]).
Proof. reflexivity. Qed.
Example decode_clef :
  utf8_to_utf16 4 [Byte.xf0; Byte.x9d; Byte.x84; Byte.x9e] 4 = Ok (2, [55348; 56606]).
Proof. reflexivity. Qed.
Example decode_overlong : utf8_to_utf16 2 [Byte.xc0; Byte.x80] 2 = Ok (UTF8_ERROR, []).
Proof. reflexivity. Qed.
Example encode_clef :
  utf16_to_utf8 (utf16_to_utf8 [] 55348) 56606 = [Byte.xf0; Byte.x9d; Byte.x84; Byte.x9e].
Proof. reflexivity. Qed.
