(* ===== verification/JsonUtf8Spec.v ===== *)
(** * UTF-8 and UTF-16: the encodings, and what the conversions do

    [utf8_char] and [utf16_char] are the two encodings of a Unicode scalar
    value as the Unicode standard tabulates them.  The decoder reads exactly
    the texts of such characters, and the two conversions are inverse. *)

From S2P Require Import Prelude JsonUtf8.
Open Scope Z_scope.

(** ** The encodings *)

(** A code point that is not a surrogate. *)
Definition scalar (c : Z) : Prop := 0 <= c < 55296 \/ 57344 <= c <= 1114111.
#[export] Instance scalar_dec c : Decision (scalar c).
Proof. unfold scalar. apply _. Defined.

Definition utf8_char (c : Z) : list byte :=
  to_byte <$>
    (if c <? 128 then [c]
     else if c <? 2048 then [192 + c / 64; 128 + c mod 64]
     else if c <? 65536 then [224 + c / 4096; 128 + c / 64 mod 64; 128 + c mod 64]
     else [240 + c / 262144; 128 + c / 4096 mod 64; 128 + c / 64 mod 64; 128 + c mod 64]).
Definition utf8_text (cs : list Z) : list byte := cs ≫= utf8_char.

Definition utf16_char (c : Z) : list Z :=
  if c <? 65536 then [c] else [55296 + (c - 65536) / 1024; 56320 + (c - 65536) mod 1024].
Definition utf16_text (cs : list Z) : list Z := cs ≫= utf16_char.

(** ** Bits of a byte *)

Lemma byte_forall (P : Z -> bool) :
  forallb P (seqZ 0 256) = true -> forall x, 0 <= x < 256 -> P x = true.
Proof.
  intros H x Hx. rewrite forallb_forall in H. apply H, list_elem_of_In, elem_of_seqZ. lia.
Qed.
Lemma land_sc b : Z.land (sc b) 255 = uc b.
Proof. destruct b; reflexivity. Qed.
Lemma lead_1 x : 0 <= x < 256 -> (Z.land x 128 =? 0) = (x <? 128).
Proof. intros H. apply eqb_prop. revert x H. by apply byte_forall. Qed.
Lemma lead_2 x : 0 <= x < 256 -> (Z.land x 224 =? 192) = (192 <=? x) && (x <? 224).
Proof. intros H. apply eqb_prop. revert x H. by apply byte_forall. Qed.
Lemma lead_3 x : 0 <= x < 256 -> (Z.land x 240 =? 224) = (224 <=? x) && (x <? 240).
Proof. intros H. apply eqb_prop. revert x H. by apply byte_forall. Qed.
Lemma lead_4 x : 0 <= x < 256 -> (Z.land x 248 =? 240) = (240 <=? x) && (x <? 248).
Proof. intros H. apply eqb_prop. revert x H. by apply byte_forall. Qed.
Lemma trail x : 0 <= x < 256 -> (Z.land x 192 =? 128) = (128 <=? x) && (x <? 192).
Proof. intros H. apply eqb_prop. revert x H. by apply byte_forall. Qed.
Lemma payload x k : 0 <= k -> Z.land x (Z.ones k) = x mod 2 ^ k.
Proof. intros. by apply Z.land_ones. Qed.

(** ** Reading *)

(** What is left to read; [reads] is the decoder's invariant. *)
Definition remaining (u : json_utf8_decode) : list byte := drop (Z.to_nat (the_index u)) (the_input u).
Definition reads (u : json_utf8_decode) (rest : list byte) : Prop :=
  0 <= the_index u /\ the_length u = Z.of_nat (length (the_input u)) /\
  the_index u <= the_length u /\ remaining u = rest.

Lemma reads_more u b rest : reads u (b :: rest) ->
  (the_length u <=? the_index u) = false /\ input_byte u = Ok b /\
  reads (set_the_index (the_index u + 1) u) rest.
Proof.
  intros (H0 & Hl & Hi & Hr). unfold remaining in Hr.
  assert (Hb : the_input u !! Z.to_nat (the_index u) = Some b).
  { rewrite <- (Nat.add_0_r (Z.to_nat _)), <- lookup_drop, Hr. done. }
  pose proof (lookup_lt_Some _ _ _ Hb). split; [apply Z.leb_gt; lia|]. split.
  - unfold input_byte. rewrite (proj2 (Z.ltb_ge _ _)) by lia. by rewrite Hb.
  - unfold reads, remaining. cbn. split_and!; [lia..|].
    rewrite Z2Nat.inj_add, <- drop_drop, Hr by lia. done.
Qed.
Lemma reads_end u : reads u [] -> the_index u = the_length u.
Proof.
  intros (H0 & Hl & Hi & Hr). apply (f_equal length) in Hr. unfold remaining in Hr.
  rewrite length_drop in Hr. simpl in Hr. lia.
Qed.

Lemma get_end u : reads u [] -> get u = Ok (UTF8_END, u).
Proof. intros H%reads_end. unfold get. mstep. by rewrite (proj2 (Z.leb_le _ _)) by lia. Qed.
Lemma get_more u b rest : reads u (b :: rest) ->
  get u = Ok (uc b, set_the_index (the_index u + 1) u).
Proof.
  intros (Hl & Hb & _)%reads_more. unfold get. mstep. rewrite Hl. mstep. mstep. by rewrite land_sc.
Qed.

(** A continuation byte. *)
Definition continues (b : byte) : bool := (128 <=? uc b) && (uc b <? 192).

Lemma cont_more u b rest : reads u (b :: rest) ->
  cont u = Ok (if continues b then uc b - 128 else UTF8_ERROR, set_the_index (the_index u + 1) u).
Proof.
  intros H. unfold cont. erewrite mbind_ok by (by eapply get_more). cbv beta.
  rewrite trail by apply uc_range. fold (continues b). destruct (continues b) eqn:Hb; [|done].
  change 63 with (Z.ones 6). rewrite payload by lia. unfold continues in Hb.
  replace (uc b mod 2 ^ 6) with (uc b - 128); [done|]. apply (Z.mod_unique _ _ 2); lia.
Qed.
Lemma cont_end u : reads u [] -> cont u = Ok (UTF8_ERROR, u).
Proof. intros H. unfold cont. by erewrite mbind_ok by (by apply get_end). Qed.

(** ** The shape of a character *)

Lemma utf8_char_cases c : scalar c ->
  (c < 128 /\ exists b, utf8_char c = [b] /\ uc b = c) \/
  (128 <= c < 2048 /\ exists b0 b1, utf8_char c = [b0; b1] /\
     uc b0 = 192 + c / 64 /\ uc b1 = 128 + c mod 64) \/
  (2048 <= c < 65536 /\ exists b0 b1 b2, utf8_char c = [b0; b1; b2] /\
     uc b0 = 224 + c / 4096 /\ uc b1 = 128 + c / 64 mod 64 /\ uc b2 = 128 + c mod 64) \/
  (65536 <= c <= 1114111 /\ exists b0 b1 b2 b3, utf8_char c = [b0; b1; b2; b3] /\
     uc b0 = 240 + c / 262144 /\ uc b1 = 128 + c / 4096 mod 64 /\
     uc b2 = 128 + c / 64 mod 64 /\ uc b3 = 128 + c mod 64).
Proof.
  intros Hc. unfold scalar in Hc. unfold utf8_char.
  pose proof (Z.mod_pos_bound c 64 ltac:(lia)). pose proof (Z.mod_pos_bound (c / 64) 64 ltac:(lia)).
  pose proof (Z.mod_pos_bound (c / 4096) 64 ltac:(lia)).
  destruct (Z.ltb_spec c 128); [left|right].
  { split; [done|]. eexists. split; [done|]. apply uc_to_byte. lia. }
  assert (c / 64 * 64 <= c < c / 64 * 64 + 64) by (pose proof (Z.div_mod c 64 ltac:(lia)); pose proof (Z.mod_pos_bound c 64 ltac:(lia)); lia).
  destruct (Z.ltb_spec c 2048); [left|right].
  { split; [lia|]. do 2 eexists. split; [done|]. rewrite !uc_to_byte by lia. done. }
  assert (c / 4096 * 4096 <= c < c / 4096 * 4096 + 4096) by (pose proof (Z.div_mod c 4096 ltac:(lia)); pose proof (Z.mod_pos_bound c 4096 ltac:(lia)); lia).
  destruct (Z.ltb_spec c 65536); [left|right].
  { split; [lia|]. do 3 eexists. split; [done|]. rewrite !uc_to_byte by lia. done. }
  assert (c / 262144 * 262144 <= c < c / 262144 * 262144 + 262144) by (pose proof (Z.div_mod c 262144 ltac:(lia)); pose proof (Z.mod_pos_bound c 262144 ltac:(lia)); lia).
  split; [lia|]. do 4 eexists. split; [done|]. rewrite !uc_to_byte by lia. done.
Qed.

(** ** The value the decoder puts together *)

Definition joined_2 (b0 b1 : byte) : Z := (uc b0 - 192) * 64 + (uc b1 - 128).
Definition joined_3 (b0 b1 b2 : byte) : Z :=
  (uc b0 - 224) * 4096 + (uc b1 - 128) * 64 + (uc b2 - 128).
Definition joined_4 (b0 b1 b2 b3 : byte) : Z :=
  (uc b0 - 240) * 262144 + (uc b1 - 128) * 4096 + (uc b2 - 128) * 64 + (uc b3 - 128).

Lemma continues_range b : continues b = true <-> 128 <= uc b < 192.
Proof. unfold continues. rewrite andb_true_iff, Z.leb_le, Z.ltb_lt. done. Qed.

Lemma joined_2_char b0 b1 : 192 <= uc b0 < 224 -> continues b1 = true -> 128 <= joined_2 b0 b1 ->
  scalar (joined_2 b0 b1) /\ utf8_char (joined_2 b0 b1) = [b0; b1].
Proof.
  intros H0 H1%continues_range Hr. unfold joined_2 in *. set (c := _ + _) in *.
  assert (Hs : scalar c) by (unfold scalar; lia). split; [done|].
  destruct (utf8_char_cases c Hs) as [(?&?)|[(Hc&x0&x1&->&E0&E1)|[(?&?)|(?&?)]]]; [lia| |lia|lia].
  f_equal; [|f_equal]; apply uc_inj; rewrite ?E0, ?E1; Z.to_euclidean_division_equations; lia.
Qed.
Lemma joined_3_char b0 b1 b2 : 224 <= uc b0 < 240 -> continues b1 = true -> continues b2 = true ->
  2048 <= joined_3 b0 b1 b2 -> joined_3 b0 b1 b2 < 55296 \/ 57343 < joined_3 b0 b1 b2 ->
  scalar (joined_3 b0 b1 b2) /\ utf8_char (joined_3 b0 b1 b2) = [b0; b1; b2].
Proof.
  intros H0 H1%continues_range H2%continues_range Hr Hn. unfold joined_3 in *. set (c := _ + _) in *.
  assert (Hs : scalar c) by (unfold scalar; lia). split; [done|].
  destruct (utf8_char_cases c Hs) as [(?&?)|[(?&?)|[(Hc&x0&x1&x2&->&E0&E1&E2)|(?&?)]]]; [lia|lia| |lia].
  f_equal; [|f_equal; [|f_equal]]; apply uc_inj; rewrite ?E0, ?E1, ?E2;
    Z.to_euclidean_division_equations; lia.
Qed.
Lemma joined_4_char b0 b1 b2 b3 : 240 <= uc b0 < 248 ->
  continues b1 = true -> continues b2 = true -> continues b3 = true ->
  65536 <= joined_4 b0 b1 b2 b3 <= 1114111 ->
  scalar (joined_4 b0 b1 b2 b3) /\ utf8_char (joined_4 b0 b1 b2 b3) = [b0; b1; b2; b3].
Proof.
  intros H0 H1%continues_range H2%continues_range H3%continues_range Hr.
  unfold joined_4 in *. set (c := _ + _) in *.
  assert (Hs : scalar c) by (unfold scalar; lia). split; [done|].
  destruct (utf8_char_cases c Hs) as [(?&?)|[(?&?)|[(?&?)|(Hc&x0&x1&x2&x3&->&E0&E1&E2&E3)]]]; [lia..|].
  f_equal; [|f_equal; [|f_equal; [|f_equal]]]; apply uc_inj; rewrite ?E0, ?E1, ?E2, ?E3;
    Z.to_euclidean_division_equations; lia.
Qed.

(** ** The decoder *)

(** What one call makes of the bytes left. *)
Definition decoded (rest : list byte) (c : Z) (u' : json_utf8_decode) : Prop :=
  match rest with
  | [] => c = UTF8_END
  | _ => (scalar c /\ exists rest', rest = utf8_char c ++ rest' /\ reads u' rest') \/
         (c = UTF8_ERROR /\ forall c' rest', scalar c' -> rest <> utf8_char c' ++ rest')
  end.

Lemma continues_not b : continues b = false -> uc b < 128 \/ 192 <= uc b.
Proof. pose proof (continues_range b). destruct (continues b); [done|lia]. Qed.

(** [cont] in general: the payload of the byte read, or an error, which no
    character that goes on here explains. *)
Definition continued (rest : list byte) (c : Z) (u' : json_utf8_decode) : Prop :=
  (exists b rest', rest = b :: rest' /\ 128 <= uc b < 192 /\ c = uc b - 128 /\ reads u' rest') \/
  (c = UTF8_ERROR /\ (exists rest', reads u' rest') /\
     forall b rest', rest = b :: rest' -> uc b < 128 \/ 192 <= uc b).

Lemma cont_run u rest : reads u rest -> exists c u', cont u = Ok (c, u') /\ continued rest c u'.
Proof.
  intros H. destruct rest as [|b rest].
  - eexists _, _. split; [by apply cont_end|]. right. split; [done|]. split; [by eexists|done].
  - eexists _, _. split; [by eapply cont_more|]. apply reads_more in H as (_ & _ & H).
    destruct (continues b) eqn:Hb.
    + left. apply continues_range in Hb. by eexists _, _.
    + right. split; [done|]. split; [by eexists|]. intros ? ? [= <- <-]. by apply continues_not.
Qed.

(** Runs the next [cont]; leaves the case of a payload first. *)
Ltac run_cont H :=
  let c := fresh "c" in let u := fresh "u" in let Hc := fresh in let b := fresh "b" in
  let Hb := fresh "Hb" in let Hn := fresh "Hn" in
  destruct (cont_run _ _ H) as (c & u & Hc & [(b & ? & -> & Hb & -> & ?)|(-> & (? & ?) & Hn)]);
  erewrite mbind_ok by exact Hc; cbv beta; clear Hc.

(** No character of the standard explains the bytes read. *)
Ltac no_char :=
  right; split; [done|];
  let c' := fresh "c" in let rest' := fresh in let Hs := fresh in let He := fresh in let E := fresh in
  intros c' rest' Hs He;
  destruct (utf8_char_cases c' Hs) as
    [(?&?&E&?)|[(?&?&?&E&?&?)|[(?&?&?&?&E&?&?&?)|(?&?&?&?&?&E&?&?&?&?)]]];
  rewrite E in He; clear E; simplify_eq/=;
  repeat match goal with H : forall b r, _ = b :: r -> _ |- _ => specialize (H _ _ eq_refl) end;
  unfold joined_2, joined_3, joined_4, scalar in *; Z.to_euclidean_division_equations; lia.

Section Decode.
Context (b0 : byte) (rest : list byte) (u : json_utf8_decode) (H : reads u rest).

Lemma decode_2 : 192 <= uc b0 < 224 -> exists c u',
  (c1 ← cont;
   if c1 <? 0 then mret UTF8_ERROR
   else
     let r := Z.lor (Z.shiftl (Z.land (uc b0) 31) 6) c1 in
     mret (if 128 <=? r then r else UTF8_ERROR)) u = Ok (c, u') /\ decoded (b0 :: rest) c u'.
Proof using H.
  intros Hb0. run_cont H; [|eexists _, _; split; [done|no_char]].
  rewrite (proj2 (Z.ltb_ge _ _)) by lia. cbv zeta. eexists _, _. split; [done|].
  change 31 with (Z.ones 5). rewrite payload, lor_shiftl by lia.
  replace (uc b0 mod 2 ^ 5) with (uc b0 - 192) by (apply (Z.mod_unique _ _ 6); lia).
  change (_ * 2 ^ 6 + _) with (joined_2 b0 b). destruct (Z.leb_spec 128 (joined_2 b0 b)); [left|no_char].
  destruct (joined_2_char b0 b) as [? ->]; [done|by apply continues_range|done|]. by eauto.
Qed.

Lemma decode_3 : 224 <= uc b0 < 240 -> exists c u',
  (c1 ← cont; c2 ← cont;
   if (c1 <? 0) || (c2 <? 0) then mret UTF8_ERROR
   else
     let r := Z.lor (Z.lor (Z.shiftl (Z.land (uc b0) 15) 12) (Z.shiftl c1 6)) c2 in
     mret (if (2048 <=? r) && ((r <? 55296) || (57343 <? r)) then r else UTF8_ERROR)) u = Ok (c, u') /\
  decoded (b0 :: rest) c u'.
Proof using H.
  intros Hb0. run_cont H; run_cont H1; cbn [orb];
    [|eexists _, _; split; [by rewrite ?orb_true_r|no_char]..].
  rewrite !(proj2 (Z.ltb_ge _ _)) by lia. cbv zeta. eexists _, _. split; [done|].
  change 15 with (Z.ones 4). rewrite payload by lia.
  replace (uc b0 mod 2 ^ 4) with (uc b0 - 224) by (apply (Z.mod_unique _ _ 14); lia).
  rewrite <- Z.lor_assoc, (lor_shiftl 6), (lor_shiftl 12) by lia. rewrite Z.add_assoc.
  change (_ * 2 ^ 12 + _ + _) with (joined_3 b0 b b1).
  destruct ((2048 <=? joined_3 b0 b b1) && _) eqn:E; [left|no_char].
  destruct (joined_3_char b0 b b1) as [? ->]; [done|by apply continues_range..|lia|lia|]. by eauto.
Qed.

Lemma decode_4 : 240 <= uc b0 < 248 -> exists c u',
  (c1 ← cont; c2 ← cont; c3 ← cont;
   if (c1 <? 0) || (c2 <? 0) || (c3 <? 0) then mret UTF8_ERROR
   else
     let r := Z.lor (Z.lor (Z.lor (Z.shiftl (Z.land (uc b0) 15) 18) (Z.shiftl c1 12)) (Z.shiftl c2 6)) c3 in
     mret (if (65536 <=? r) && (r <=? 1114111) then r else UTF8_ERROR)) u = Ok (c, u') /\
  decoded (b0 :: rest) c u'.
Proof using H.
  intros Hb0. run_cont H; run_cont H1; run_cont H2; cbn [orb];
    [|eexists _, _; split; [by rewrite ?orb_true_r|no_char]..].
  rewrite !(proj2 (Z.ltb_ge _ _)) by lia. cbv zeta. eexists _, _. split; [done|].
  change 15 with (Z.ones 4). rewrite payload by lia.
  replace (uc b0 mod 2 ^ 4) with (uc b0 - 240) by (apply (Z.mod_unique _ _ 15); lia).
  rewrite <- !Z.lor_assoc, (lor_shiftl 6), (lor_shiftl 12), (lor_shiftl 18) by lia. rewrite !Z.add_assoc.
  change (_ * 2 ^ 18 + _ + _ + _) with (joined_4 b0 b b1 b2).
  destruct ((65536 <=? joined_4 b0 b b1 b2) && _) eqn:E; [left|no_char].
  destruct (joined_4_char b0 b b1 b2) as [? ->]; [done|by apply continues_range..|lia|]. by eauto.
Qed.
End Decode.

Lemma decode_next_run u rest : reads u rest ->
  exists c u', utf8_decode_next u = Ok (c, u') /\ decoded rest c u'.
Proof.
  intros H. unfold utf8_decode_next. mstep. destruct rest as [|b0 rest].
  { rewrite (reads_end u H), Z.leb_refl, Z.eqb_refl. by eexists _, _. }
  rewrite (proj1 (reads_more u b0 rest H)). mstep.
  set (u1 := mkUtf8 _ _ _ _ _).
  assert (H1 : reads u1 (b0 :: rest)) by exact H. clearbody u1. clear u H.
  erewrite mbind_ok by (by eapply get_more). cbv beta.
  apply reads_more in H1 as (_ & _ & H1). set (u := set_the_index _ _) in *. clearbody u. clear u1.
  pose proof (uc_range b0) as Hb0. rewrite lead_1, lead_2, lead_3, lead_4 by done.
  destruct (Z.ltb_spec (uc b0) 128).
  { eexists _, _. split; [done|]. left. split; [unfold scalar; lia|]. exists rest. split; [|done].
    unfold utf8_char. rewrite (proj2 (Z.ltb_lt _ _)) by done. simpl. by rewrite to_byte_uc. }
  destruct ((192 <=? uc b0) && (uc b0 <? 224)) eqn:E2; [apply decode_2; [done|lia]|].
  destruct ((224 <=? uc b0) && (uc b0 <? 240)) eqn:E3; [apply decode_3; [done|lia]|].
  destruct ((240 <=? uc b0) && (uc b0 <? 248)) eqn:E4; [apply decode_4; [done|lia]|].
  eexists _, _. split; [done|]. no_char.
Qed.

(** ** The text *)

Lemma utf8_char_nonempty c : utf8_char c <> [].
Proof. unfold utf8_char. by repeat case_match. Qed.

(** The encoding is prefix-free. *)
Lemma utf8_char_inj c c' r r' : scalar c -> scalar c' ->
  utf8_char c ++ r = utf8_char c' ++ r' -> c = c' /\ r = r'.
Proof.
  intros Hs Hs'.
  destruct (utf8_char_cases c Hs) as
    [(?&?&->&?)|[(?&?&?&->&?&?)|[(?&?&?&?&->&?&?&?)|(?&?&?&?&?&->&?&?&?&?)]]];
  (destruct (utf8_char_cases c' Hs') as
    [(?&?&->&?)|[(?&?&?&->&?&?)|[(?&?&?&?&->&?&?&?)|(?&?&?&?&?&->&?&?&?&?)]]]);
  intros He; simplify_eq/=; (split; [|done]) || exfalso;
  Z.to_euclidean_division_equations; lia.
Qed.

(** A flag above a field: [K | x] is [K + x]. *)
Lemma lor_add K k x : 0 <= k -> K mod 2 ^ k = 0 -> 0 <= x < 2 ^ k -> Z.lor K x = K + x.
Proof.
  intros Hk HK Hx. pose proof (Z.div_mod K (2 ^ k) ltac:(lia)) as HK'.
  replace K with (Z.shiftl (K / 2 ^ k) k) at 1 by (rewrite Z.shiftl_mul_pow2; lia).
  rewrite lor_shiftl by done. lia.
Qed.
(** A field of [m] bits at bit [k]. *)
Lemma land_field c m k : 0 <= m -> 0 <= k ->
  Z.land c (Z.shiftl (Z.ones m) k) = c / 2 ^ k mod 2 ^ m * 2 ^ k.
Proof.
  intros Hm Hk. rewrite <- Z.shiftr_div_pow2, <- Z.land_ones, <- Z.shiftl_mul_pow2 by done.
  apply Z.bits_inj'. intros n Hn.
  rewrite Z.land_spec, !Z.shiftl_spec, Z.land_spec by done. destruct (Z.lt_ge_cases n k).
  - rewrite !(Z.testbit_neg_r _ (n - k)), andb_false_r by lia. done.
  - rewrite Z.shiftr_spec by lia. by rewrite Z.sub_add.
Qed.

Lemma utf16_units c : scalar c -> 65536 <= c ->
  Z.lor 55296 (Z.shiftr (c - 65536) 10) = 55296 + (c - 65536) / 1024 /\
  Z.lor 56320 (Z.land (c - 65536) 1023) = 56320 + (c - 65536) mod 1024.
Proof.
  intros Hs Hc. unfold scalar in Hs. rewrite Z.shiftr_div_pow2 by lia. change 1023 with (Z.ones 10).
  rewrite payload by lia. split; apply (lor_add _ 10); try done; Z.to_euclidean_division_equations; lia.
Qed.
Lemma utf16_char_length c : (length (utf16_char c) <= length (utf8_char c))%nat.
Proof. unfold utf16_char, utf8_char. repeat case_match; simpl; lia. Qed.

Lemma write_unit_ok cap w x : 0 <= x < 65536 -> Z.of_nat (length w) < cap ->
  write_unit cap w x = Ok (w ++ [x]).
Proof.
  intros Hx Hw. unfold write_unit. rewrite (proj2 (Z.ltb_lt _ _)) by done.
  by rewrite Z.mod_small by lia.
Qed.

(** Every UTF-8 text is converted to its UTF-16, everything else refused. *)
Definition converted (w : list Z) (rest : list byte) (r : Z) (w' : list Z) : Prop :=
  (exists cs, Forall scalar cs /\ rest = utf8_text cs /\ w' = w ++ utf16_text cs /\
     r = Z.of_nat (length w')) \/
  (r = UTF8_ERROR /\ forall cs, Forall scalar cs -> rest <> utf8_text cs).

Lemma to_utf16_run fuel : forall cap w u rest, reads u rest -> (length rest < fuel)%nat ->
  Z.of_nat (length w + length rest) <= cap ->
  exists r w', to_utf16_loop fuel cap w u = Ok (r, w') /\ converted w rest r w'.
Proof.
  induction fuel as [|fuel IH]; intros cap w u rest Hu Hf Hcap; [lia|].
  cbn [to_utf16_loop]. destruct (decode_next_run u rest Hu) as (c & u' & Hc & Hd).
  rewrite (res_bind_ok _ _ _ Hc). cbv beta iota.
  destruct rest as [|b rest].
  { cbn in Hd. subst c. cbn. eexists _, _. split; [done|]. left. exists []. rewrite app_nil_r. by split_and!. }
  destruct Hd as [(Hs & rest' & Hr & Hu')|[-> Hn]].
  - rewrite (proj2 (Z.ltb_ge c 0)) by (unfold scalar in Hs; lia). rewrite Hr in *. clear Hr.
    rewrite length_app in *. pose proof (utf16_char_length c) as Hl.
    assert (0 < length (utf8_char c))%nat.
    { pose proof (utf8_char_nonempty c). destruct (utf8_char c); [done|simpl; lia]. }
    assert (Hrun : exists r w', to_utf16_loop fuel cap (w ++ utf16_char c) u' = Ok (r, w') /\
      converted (w ++ utf16_char c) rest' r w').
    { apply IH; [done|lia|]. rewrite length_app. lia. }
    destruct Hrun as (r & w' & Hw' & Hconv). exists r, w'. split.
    + revert Hw'. unfold utf16_char in Hl |- *. destruct (Z.ltb_spec c 65536) as [Hc'|Hc'].
      * rewrite write_unit_ok by (unfold scalar in Hs; simpl in Hl; lia). done.
      * destruct (utf16_units c Hs Hc') as [-> ->]. simpl in Hl.
        rewrite write_unit_ok; cycle 1.
        { unfold scalar in Hs. Z.to_euclidean_division_equations. lia. }
        { lia. }
        unfold mbind, res_bind. rewrite write_unit_ok; cycle 1.
        { unfold scalar in Hs. Z.to_euclidean_division_equations. lia. }
        { rewrite length_app. simpl. lia. }
        by rewrite <- app_assoc.
    + destruct Hconv as [(cs & Hcs & -> & -> & ->)|[-> Hn]].
      * left. exists (c :: cs). split; [by constructor|]. split; [done|].
        cbn [utf16_text mbind list_bind]. by rewrite <- app_assoc.
      * right. split; [done|]. intros cs Hcs He. destruct Hcs as [|c' cs Hc' Hcs].
        { by apply app_eq_nil in He as [?%utf8_char_nonempty ?]. }
        apply utf8_char_inj in He as [-> He]; [|done..]. by apply (Hn cs).
  - cbn. eexists _, _. split; [done|]. right. split; [done|].
    intros cs Hcs He. destruct Hcs as [|c' cs Hc' Hcs]; [done|]. by apply (Hn c' (utf8_text cs)).
Qed.

Lemma utf8_to_utf16_run cap p : Z.of_nat (length p) <= cap ->
  exists r w', utf8_to_utf16 cap p (Z.of_nat (length p)) = Ok (r, w') /\ converted [] p r w'.
Proof.
  intros Hp. apply to_utf16_run; [|lia|simpl; lia].
  unfold reads, utf8_decode_init, remaining. cbn. split_and!; [lia..|done].
Qed.

(** The UTF-8 of a text determines it. *)
Lemma utf8_text_inj cs : forall cs', Forall scalar cs -> Forall scalar cs' -> utf8_text cs = utf8_text cs' -> cs = cs'.
Proof.
  induction cs as [|c cs IH]; intros [|c' cs'] H1 H2 E; try done.
  - exfalso. symmetry in E. revert E. cbn. unfold utf8_char. by repeat case_match.
  - exfalso. revert E. cbn. unfold utf8_char. by repeat case_match.
  - apply Forall_cons in H1 as [Hc H1], H2 as [Hc' H2]. destruct (utf8_char_inj c c' (utf8_text cs) (utf8_text cs') Hc Hc' E) as [<- E'].
    f_equal. by apply IH.
Qed.

(** ** And back *)

Lemma high_byte K k x : 0 <= k -> K mod 2 ^ k = 0 -> 0 <= x < 2 ^ k ->
  to_byte (Z.lor K x) = to_byte (K + x).
Proof. intros. by rewrite (lor_add K k). Qed.
Lemma low_byte x : Z.lor 128 (Z.land x 63) = 128 + x mod 64.
Proof.
  change 63 with (Z.ones 6). rewrite payload by lia.
  apply (lor_add _ 6); [lia|done|]. apply Z.mod_pos_bound. lia.
Qed.

Lemma unit_to_utf8_low buf x : 0 <= x < 2048 -> utf16_to_utf8 buf x = buf ++ utf8_char x.
Proof.
  intros Hx. unfold utf16_to_utf8, utf8_char, smart_str_appendc.
  destruct (Z.ltb_spec x 128); [done|]. rewrite (proj2 (Z.ltb_lt _ _)) by lia.
  rewrite low_byte, Z.shiftr_div_pow2, (lor_add 192 6); [|lia|done|Z.to_euclidean_division_equations; lia|lia].
  by rewrite <- app_assoc.
Qed.
(** Three bytes, for any unit that does not complete a pair. *)
Definition three_bytes (x : Z) : list byte :=
  to_byte <$> [224 + x / 4096; 128 + x / 64 mod 64; 128 + x mod 64].
Lemma unit_to_utf8_high buf x : 2048 <= x < 65536 -> x < 56320 \/ 57344 <= x ->
  utf16_to_utf8 buf x = buf ++ three_bytes x.
Proof.
  intros Hx Hn. unfold utf16_to_utf8, three_bytes, smart_str_appendc.
  rewrite !(proj2 (Z.ltb_ge _ _)) by lia. change 64512 with (Z.shiftl (Z.ones 6) 10).
  rewrite land_field by lia.
  replace (_ =? 56320) with false by (symmetry; apply Z.eqb_neq; Z.to_euclidean_division_equations; lia).
  cbn [andb]. rewrite !low_byte, !Z.shiftr_div_pow2 by lia.
  rewrite (lor_add 224 4); [|lia|done|Z.to_euclidean_division_equations; lia].
  by rewrite <- !app_assoc.
Qed.

Lemma from_end_three buf (a b c : byte) :
  from_end (buf ++ [a; b; c]) 3 = uc a /\ from_end (buf ++ [a; b; c]) 2 = uc b /\
  from_end (buf ++ [a; b; c]) 1 = uc c /\ take (length (buf ++ [a; b; c]) - 3) (buf ++ [a; b; c]) = buf /\
  3 <= Z.of_nat (length (buf ++ [a; b; c])).
Proof.
  unfold from_end. rewrite length_app. cbn [length]. split_and!; [..|lia].
  - rewrite lookup_app_r by lia. by replace (_ - _ - _)%nat with 0%nat by lia.
  - rewrite lookup_app_r by lia. by replace (_ - _ - _)%nat with 1%nat by lia.
  - rewrite lookup_app_r by lia. by replace (_ - _ - _)%nat with 2%nat by lia.
  - by rewrite Nat.add_sub, take_app_length.
Qed.

(** The low half after the three bytes of the high half. *)
Lemma low_half_to_utf8 buf h l : 0 <= h < 1024 -> 0 <= l < 1024 ->
  utf16_to_utf8 (buf ++ three_bytes (55296 + h)) (56320 + l) = buf ++ utf8_char (h * 1024 + l + 65536).
Proof.
  intros Hh Hl. unfold three_bytes, utf16_to_utf8. cbn [fmap list_fmap].
  set (b3 := to_byte (224 + _)). set (b2 := to_byte (128 + _ / 64 mod 64)). set (b1 := to_byte (128 + _)).
  assert (uc b3 = 237).
  { unfold b3. rewrite uc_to_byte; Z.to_euclidean_division_equations; lia. }
  assert (uc b2 = 160 + h / 64).
  { unfold b2. rewrite uc_to_byte; Z.to_euclidean_division_equations; lia. }
  assert (uc b1 = 128 + h mod 64).
  { unfold b1. rewrite uc_to_byte; Z.to_euclidean_division_equations; lia. }
  clearbody b1 b2 b3.
  destruct (from_end_three buf b3 b2 b1) as (-> & -> & -> & -> & Hlen).
  change 64512 with (Z.shiftl (Z.ones 6) 10). change 240 with (Z.shiftl (Z.ones 4) 4) at 1.
  change 192 with (Z.shiftl (Z.ones 2) 6) at 2. rewrite !land_field by lia.
  rewrite !(proj2 (Z.ltb_ge _ _)) by lia.
  rewrite (proj2 (Z.leb_le _ _) Hlen).
  replace (_ =? 56320) with true by (symmetry; apply Z.eqb_eq; Z.to_euclidean_division_equations; lia).
  replace (_ =? 237) with true by (symmetry; apply Z.eqb_eq; lia).
  replace (_ =? 160) with true by (symmetry; apply Z.eqb_eq; Z.to_euclidean_division_equations; lia).
  replace (_ =? 128) with true by (symmetry; apply Z.eqb_eq; Z.to_euclidean_division_equations; lia).
  cbn [andb]. cbv zeta. set (u := Z.lor (Z.lor _ _) _ + 65536).
  assert (Hu : u = h * 1024 + l + 65536).
  { unfold u. change 15 with (Z.ones 4). change 63 with (Z.ones 6). change 1023 with (Z.ones 10).
    rewrite !payload by lia.
    replace (uc b2 mod 2 ^ 4) with (h / 64) by (Z.to_euclidean_division_equations; lia).
    replace (uc b1 mod 2 ^ 6) with (h mod 64) by (Z.to_euclidean_division_equations; lia).
    replace ((56320 + l) mod 2 ^ 10) with l by (Z.to_euclidean_division_equations; lia).
    rewrite <- Z.lor_assoc, (lor_shiftl 10), (lor_shiftl 16) by (Z.to_euclidean_division_equations; lia).
    Z.to_euclidean_division_equations; lia. }
  clearbody u. subst u. set (c := h * 1024 + l + 65536). unfold smart_str_appendc, utf8_char.
  rewrite !(proj2 (Z.ltb_ge c _)) by lia. rewrite !low_byte, !Z.shiftr_div_pow2 by lia.
  rewrite (lor_add 240 3); [|lia|done|unfold c; Z.to_euclidean_division_equations; lia].
  by rewrite <- !app_assoc.
Qed.

Lemma char_to_utf8 buf c : scalar c -> fold_left utf16_to_utf8 (utf16_char c) buf = buf ++ utf8_char c.
Proof.
  intros Hs. unfold scalar in Hs. unfold utf16_char. destruct (Z.ltb_spec c 65536) as [Hc|Hc].
  - cbn [fold_left]. destruct (Z.lt_ge_cases c 2048); [apply unit_to_utf8_low; lia|].
    rewrite unit_to_utf8_high by lia. unfold utf8_char. by rewrite (proj2 (Z.ltb_ge c 128)), (proj2 (Z.ltb_ge c 2048)), (proj2 (Z.ltb_lt c 65536)) by lia.
  - assert (0 <= (c - 65536) / 1024 < 1024) by (Z.to_euclidean_division_equations; lia).
    pose proof (Z.mod_pos_bound (c - 65536) 1024 ltac:(lia)).
    cbn [fold_left]. rewrite (unit_to_utf8_high buf), low_half_to_utf8 by lia.
    do 2 f_equal. pose proof (Z.div_mod (c - 65536) 1024 ltac:(lia)). lia.
Qed.
Lemma text_to_utf8 cs : forall buf, Forall scalar cs ->
  fold_left utf16_to_utf8 (utf16_text cs) buf = buf ++ utf8_text cs.
Proof.
  induction cs as [|c cs IH]; intros buf Hcs; [by rewrite app_nil_r|].
  inversion_clear Hcs as [|? ? Hc Hcs']. cbn [utf16_text utf8_text mbind list_bind].
  rewrite fold_left_app, char_to_utf8 by done. change (foldr _ _ cs) with (utf16_text cs).
  rewrite (IH _ Hcs'). by rewrite <- app_assoc.
Qed.
