(* ===== verification/JsonParser.v ===== *)
(** * ext/json/JSON_parser.c: the pushdown automaton

    [parse_JSON] reads a text of UTF-16 units through a table of states and
    character classes, with a stack of modes, and builds the PHP value as it
    goes.  Arrays and property tables are the hash tables of ZendHash; their
    elements are pointers to zvals, which live in a store ([zvals]): a child
    is put into its parent when it is opened and filled afterwards, so parent
    and child share it.

    The zvals are not reclaimed: what a table's destructor lets go of is
    noted in the environment of the table.  An object is represented by its
    property table: all objects here are plain [stdClass] instances, so the
    write goes to the table whatever the handlers are.  The [double] a text
    stands for is the parameter [zend_strtod]. *)

From S2P Require Import Prelude Dll ZendHash CLib JsonUtf8.
Open Scope Z_scope.

(** ** Character classes *)

Definition __ : Z := -1.
Definition C_SPACE : Z := 0.
Definition C_WHITE : Z := 1.
Definition C_LCURB : Z := 2.
Definition C_RCURB : Z := 3.
Definition C_LSQRB : Z := 4.
Definition C_RSQRB : Z := 5.
Definition C_COLON : Z := 6.
Definition C_COMMA : Z := 7.
Definition C_QUOTE : Z := 8.
Definition C_BACKS : Z := 9.
Definition C_SLASH : Z := 10.
Definition C_PLUS : Z := 11.
Definition C_MINUS : Z := 12.
Definition C_POINT : Z := 13.
Definition C_ZERO : Z := 14.
Definition C_DIGIT : Z := 15.
Definition C_LOW_A : Z := 16.
Definition C_LOW_B : Z := 17.
Definition C_LOW_C : Z := 18.
Definition C_LOW_D : Z := 19.
Definition C_LOW_E : Z := 20.
Definition C_LOW_F : Z := 21.
Definition C_LOW_L : Z := 22.
Definition C_LOW_N : Z := 23.
Definition C_LOW_R : Z := 24.
Definition C_LOW_S : Z := 25.
Definition C_LOW_T : Z := 26.
Definition C_LOW_U : Z := 27.
Definition C_ABCDF : Z := 28.
Definition C_E : Z := 29.
Definition C_ETC : Z := 30.
Definition NR_CLASSES : Z := 31.

(** The 128 ASCII characters; the remaining ones are [C_ETC]. *)
Definition ascii_class : list Z := [
  __; __; __; __; __; __; __; __;
  __; C_WHITE; C_WHITE; __; __; C_WHITE; __; __;
  __; __; __; __; __; __; __; __;
  __; __; __; __; __; __; __; __;
  C_SPACE; C_ETC; C_QUOTE; C_ETC; C_ETC; C_ETC; C_ETC; C_ETC;
  C_ETC; C_ETC; C_ETC; C_PLUS; C_COMMA; C_MINUS; C_POINT; C_SLASH;
  C_ZERO; C_DIGIT; C_DIGIT; C_DIGIT; C_DIGIT; C_DIGIT; C_DIGIT; C_DIGIT;
  C_DIGIT; C_DIGIT; C_COLON; C_ETC; C_ETC; C_ETC; C_ETC; C_ETC;
  C_ETC; C_ABCDF; C_ABCDF; C_ABCDF; C_ABCDF; C_E; C_ABCDF; C_ETC;
  C_ETC; C_ETC; C_ETC; C_ETC; C_ETC; C_ETC; C_ETC; C_ETC;
  C_ETC; C_ETC; C_ETC; C_ETC; C_ETC; C_ETC; C_ETC; C_ETC;
  C_ETC; C_ETC; C_ETC; C_LSQRB; C_BACKS; C_RSQRB; C_ETC; C_ETC;
  C_ETC; C_LOW_A; C_LOW_B; C_LOW_C; C_LOW_D; C_LOW_E; C_LOW_F; C_ETC;
  C_ETC; C_ETC; C_ETC; C_ETC; C_LOW_L; C_ETC; C_LOW_N; C_ETC;
  C_ETC; C_ETC; C_LOW_R; C_LOW_S; C_LOW_T; C_LOW_U; C_ETC; C_ETC;
  C_ETC; C_ETC; C_ETC; C_LCURB; C_ETC; C_RCURB; C_ETC; C_ETC
].

(** ** States *)

Definition GO : Z := 0.
Definition OK : Z := 1.
Definition OB : Z := 2.
Definition KE : Z := 3.
Definition CO : Z := 4.
Definition VA : Z := 5.
Definition AR : Z := 6.
Definition ST : Z := 7.
Definition ES : Z := 8.
Definition U1 : Z := 9.
Definition U2 : Z := 10.
Definition U3 : Z := 11.
Definition U4 : Z := 12.
Definition MI : Z := 13.
Definition ZE : Z := 14.
Definition IN : Z := 15.
Definition FR : Z := 16.
Definition E1 : Z := 17.
Definition E2 : Z := 18.
Definition E3 : Z := 19.
Definition T1 : Z := 20.
Definition T2 : Z := 21.
Definition T3 : Z := 22.
Definition F1 : Z := 23.
Definition F2 : Z := 24.
Definition F3 : Z := 25.
Definition F4 : Z := 26.
Definition N1 : Z := 27.
Definition N2 : Z := 28.
Definition N3 : Z := 29.
Definition NR_STATES : Z := 30.

(** A row per state, in their order; negative entries are actions. *)
Definition state_transition_table : list (list Z) := [
  (* GO *) [GO;GO;-6;__;-5;__;__;__;ST;__;__;__;__;__;__;__;__;__;__;__;__;__;__;__;__;__;__;__;__;__;__];
  (* OK *) [OK;OK;__;-8;__;-7;__;-3;__;__;__;__;__;__;__;__;__;__;__;__;__;__;__;__;__;__;__;__;__;__;__];
  (* OB *) [OB;OB;__;-9;__;__;__;__;ST;__;__;__;__;__;__;__;__;__;__;__;__;__;__;__;__;__;__;__;__;__;__];
  (* KE *) [KE;KE;__;__;__;__;__;__;ST;__;__;__;__;__;__;__;__;__;__;__;__;__;__;__;__;__;__;__;__;__;__];
  (* CO *) [CO;CO;__;__;__;__;-2;__;__;__;__;__;__;__;__;__;__;__;__;__;__;__;__;__;__;__;__;__;__;__;__];
  (* VA *) [VA;VA;-6;__;-5;__;__;__;ST;__;__;__;MI;__;ZE;IN;__;__;__;__;__;F1;__;N1;__;__;T1;__;__;__;__];
  (* AR *) [AR;AR;-6;__;-5;-7;__;__;ST;__;__;__;MI;__;ZE;IN;__;__;__;__;__;F1;__;N1;__;__;T1;__;__;__;__];
  (* ST *) [ST;__;ST;ST;ST;ST;ST;ST;-4;ES;ST;ST;ST;ST;ST;ST;ST;ST;ST;ST;ST;ST;ST;ST;ST;ST;ST;ST;ST;ST;ST];
  (* ES *) [__;__;__;__;__;__;__;__;ST;ST;ST;__;__;__;__;__;__;ST;__;__;__;ST;__;ST;ST;__;ST;U1;__;__;__];
  (* U1 *) [__;__;__;__;__;__;__;__;__;__;__;__;__;__;U2;U2;U2;U2;U2;U2;U2;U2;__;__;__;__;__;__;U2;U2;__];
  (* U2 *) [__;__;__;__;__;__;__;__;__;__;__;__;__;__;U3;U3;U3;U3;U3;U3;U3;U3;__;__;__;__;__;__;U3;U3;__];
  (* U3 *) [__;__;__;__;__;__;__;__;__;__;__;__;__;__;U4;U4;U4;U4;U4;U4;U4;U4;__;__;__;__;__;__;U4;U4;__];
  (* U4 *) [__;__;__;__;__;__;__;__;__;__;__;__;__;__;ST;ST;ST;ST;ST;ST;ST;ST;__;__;__;__;__;__;ST;ST;__];
  (* MI *) [__;__;__;__;__;__;__;__;__;__;__;__;__;__;ZE;IN;__;__;__;__;__;__;__;__;__;__;__;__;__;__;__];
  (* ZE *) [OK;OK;__;-8;__;-7;__;-3;__;__;__;__;__;FR;__;__;__;__;__;__;E1;__;__;__;__;__;__;__;__;E1;__];
  (* IN *) [OK;OK;__;-8;__;-7;__;-3;__;__;__;__;__;FR;IN;IN;__;__;__;__;E1;__;__;__;__;__;__;__;__;E1;__];
  (* FR *) [OK;OK;__;-8;__;-7;__;-3;__;__;__;__;__;__;FR;FR;__;__;__;__;E1;__;__;__;__;__;__;__;__;E1;__];
  (* E1 *) [__;__;__;__;__;__;__;__;__;__;__;E2;E2;__;E3;E3;__;__;__;__;__;__;__;__;__;__;__;__;__;__;__];
  (* E2 *) [__;__;__;__;__;__;__;__;__;__;__;__;__;__;E3;E3;__;__;__;__;__;__;__;__;__;__;__;__;__;__;__];
  (* E3 *) [OK;OK;__;-8;__;-7;__;-3;__;__;__;__;__;__;E3;E3;__;__;__;__;__;__;__;__;__;__;__;__;__;__;__];
  (* T1 *) [__;__;__;__;__;__;__;__;__;__;__;__;__;__;__;__;__;__;__;__;__;__;__;__;T2;__;__;__;__;__;__];
  (* T2 *) [__;__;__;__;__;__;__;__;__;__;__;__;__;__;__;__;__;__;__;__;__;__;__;__;__;__;__;T3;__;__;__];
  (* T3 *) [__;__;__;__;__;__;__;__;__;__;__;__;__;__;__;__;__;__;__;__;OK;__;__;__;__;__;__;__;__;__;__];
  (* F1 *) [__;__;__;__;__;__;__;__;__;__;__;__;__;__;__;__;F2;__;__;__;__;__;__;__;__;__;__;__;__;__;__];
  (* F2 *) [__;__;__;__;__;__;__;__;__;__;__;__;__;__;__;__;__;__;__;__;__;__;F3;__;__;__;__;__;__;__;__];
  (* F3 *) [__;__;__;__;__;__;__;__;__;__;__;__;__;__;__;__;__;__;__;__;__;__;__;__;__;F4;__;__;__;__;__];
  (* F4 *) [__;__;__;__;__;__;__;__;__;__;__;__;__;__;__;__;__;__;__;__;OK;__;__;__;__;__;__;__;__;__;__];
  (* N1 *) [__;__;__;__;__;__;__;__;__;__;__;__;__;__;__;__;__;__;__;__;__;__;__;__;__;__;__;N2;__;__;__];
  (* N2 *) [__;__;__;__;__;__;__;__;__;__;__;__;__;__;__;__;__;__;__;__;__;__;N3;__;__;__;__;__;__;__;__];
  (* N3 *) [__;__;__;__;__;__;__;__;__;__;__;__;__;__;__;__;__;__;__;__;__;__;OK;__;__;__;__;__;__;__;__]
].

(** ** Modes *)

Definition MODE_ARRAY : Z := 0.
Definition MODE_DONE : Z := 1.
Definition MODE_KEY : Z := 2.
Definition MODE_OBJECT : Z := 3.

(** The error codes of JSON_parser.h. *)
Definition PHP_JSON_ERROR_NONE : Z := 0.
Definition PHP_JSON_ERROR_DEPTH : Z := 1.
Definition PHP_JSON_ERROR_STATE_MISMATCH : Z := 2.
Definition PHP_JSON_ERROR_CTRL_CHAR : Z := 3.
Definition PHP_JSON_ERROR_SYNTAX : Z := 4.
Definition PHP_JSON_ERROR_UTF8 : Z := 5.

Definition JSON_PARSER_DEFAULT_DEPTH : Z := 512.

(** Array element [i], out of bounds being a fault. *)
Definition nth_cell {A} (l : list A) (i : Z) : res A :=
  if i <? 0 then Err OutOfBounds
  else match l !! Z.to_nat i with Some x => Ok x | None => Err OutOfBounds end.
Definition set_nth_cell {A} (l : list A) (i : Z) (x : A) : res (list A) :=
  if (i <? 0) || (Z.of_nat (length l) <=? i) then Err OutOfBounds
  else Ok (<[Z.to_nat i := x]> l).

(** ** Values under construction *)

Abbreviation zaddr := nat.
(** The hash table of an array or an object; the environment lists the
    zvals its destructor, [ZVAL_PTR_DTOR], has let go of. *)
Definition table : Type := hstate zaddr (list zaddr).
Definition ZVAL_PTR_DTOR (z : zaddr) (released : list zaddr) : list zaddr := released ++ [z].
Definition sizeof_zval_ptr : Z := 8.

Inductive zvalue (D : Type) : Type :=
  | ZNull
  | ZLong (n : Z)
  | ZDouble (d : D)
  | ZBool (b : bool)
  | ZString (s : list byte)
  | ZArray (t : table)
  | ZObject (properties : table).
Arguments ZNull {D}. Arguments ZLong {D}. Arguments ZDouble {D}. Arguments ZBool {D}.
Arguments ZString {D}. Arguments ZArray {D}. Arguments ZObject {D}.

Record JSON_parser_struct : Type := mkJp {
  state : Z;
  depth : Z;
  top : Z;
  error_code : Z;
  stack : list Z;
  the_zstack : list (option zaddr)
}.
Definition set_state x jp := mkJp x (depth jp) (top jp) (error_code jp) (stack jp) (the_zstack jp).
Definition set_top x jp := mkJp (state jp) (depth jp) x (error_code jp) (stack jp) (the_zstack jp).
Definition set_error_code x jp := mkJp (state jp) (depth jp) (top jp) x (stack jp) (the_zstack jp).
Definition set_stack x jp := mkJp (state jp) (depth jp) (top jp) (error_code jp) x (the_zstack jp).
Definition set_the_zstack x jp := mkJp (state jp) (depth jp) (top jp) (error_code jp) (stack jp) x.

(** The parser, the store of zvals and the local variables of [parse_JSON]. *)
Record pstate (D : Type) : Type := mkPs {
  jp : JSON_parser_struct;
  zvals : list (zvalue D);
  buf : list byte;
  key : list byte;
  utf16 : Z;
  type : Z
}.
Arguments mkPs {D}. Arguments jp {D}. Arguments zvals {D}. Arguments buf {D}. Arguments key {D}.
Arguments utf16 {D}. Arguments type {D}.

(** ** The mode stack *)

(** Push a mode onto the stack. Return false if there is overflow. *)
Definition push (mode : Z) : M JSON_parser_struct bool := fun jp =>
  let jp := set_top (top jp + 1) jp in
  if depth jp <=? top jp then Ok (false, set_error_code PHP_JSON_ERROR_DEPTH jp)
  else
    st ← set_nth_cell (stack jp) (top jp) mode;
    Ok (true, set_stack st jp).

(** Pop the stack, assuring that the current mode matches the expectation. *)
Definition pop (mode : Z) : M JSON_parser_struct bool := fun jp =>
  match (if top jp <? 0 then Ok true
         else m ← nth_cell (stack jp) (top jp); Ok (negb (m =? mode))) with
  | Err e => Err e
  | Ok true => Ok (false, set_error_code PHP_JSON_ERROR_STATE_MISMATCH jp)
  | Ok false => Ok (true, set_top (top jp - 1) jp)
  end.

(** [depth] is an [int]; [ecalloc] with a negative count ends the request. *)
Definition new_JSON_parser (depth : Z) : res JSON_parser_struct :=
  if depth <? 0 then Err Bailout
  else
    let zstack := replicate (Z.to_nat (Z.max depth JSON_PARSER_DEFAULT_DEPTH)) None in
    '(_, jp) ← push MODE_DONE
      (mkJp GO depth (-1) PHP_JSON_ERROR_NONE (replicate (Z.to_nat depth) 0) zstack);
    Ok jp.

Section Parser.
Context {D : Type} `{Allocator} (zend_strtod : list byte -> D).
Notation P := (M (pstate D)).
Implicit Types (s : pstate D) (z arg value : zaddr).

Definition upd_jp (f : JSON_parser_struct -> JSON_parser_struct) : P unit :=
  modify (fun s => mkPs (f (jp s)) (zvals s) (buf s) (key s) (utf16 s) (type s)).
Definition set_zvals (l : list (zvalue D)) : P unit :=
  modify (fun s => mkPs (jp s) l (buf s) (key s) (utf16 s) (type s)).
Definition set_buf (b : list byte) : P unit :=
  modify (fun s => mkPs (jp s) (zvals s) b (key s) (utf16 s) (type s)).
Definition set_key (k : list byte) : P unit :=
  modify (fun s => mkPs (jp s) (zvals s) (buf s) k (utf16 s) (type s)).
Definition set_utf16 (u : Z) : P unit :=
  modify (fun s => mkPs (jp s) (zvals s) (buf s) (key s) (u `mod` 2 ^ 16) (type s)).
Definition set_type (t : Z) : P unit :=
  modify (fun s => mkPs (jp s) (zvals s) (buf s) (key s) (utf16 s) t).
Definition JSON_RESET_TYPE : P unit := set_type (-1).

Definition with_jp {A} (c : M JSON_parser_struct A) : P A := fun s =>
  match c (jp s) with
  | Ok (a, j) => Ok (a, mkPs j (zvals s) (buf s) (key s) (utf16 s) (type s))
  | Err e => Err e
  end.

(** [jp->stack[i]] and [jp->the_zstack[i]]. *)
Definition stack_at (i : Z) s : res Z := nth_cell (stack (jp s)) i.
Definition zstack_at (i : Z) s : res zaddr :=
  p ← nth_cell (the_zstack (jp s)) i;
  match p with Some z => Ok z | None => Err DanglingPointer end.
Definition set_zstack_at (i : Z) z : P unit :=
  s ← get_st;
  l ← reading (fun _ => set_nth_cell (the_zstack (jp s)) i (Some z));
  upd_jp (set_the_zstack l).

(** ** zvals *)

(** [ALLOC_INIT_ZVAL], and the assignment of a value. *)
Definition ALLOC_INIT_ZVAL : P zaddr :=
  s ← get_st;
  set_zvals (zvals s ++ [ZNull]);;
  mret (length (zvals s)).
Definition set_zval z (v : zvalue D) : P unit := fun s =>
  match zvals s !! z with
  | Some _ => set_zvals (<[z := v]> (zvals s)) s
  | None => Err DanglingPointer
  end.

(** An operation on the table of the array, or object, at [arg]. *)
Definition on_array {A} arg (c : M table A) : P A := fun s =>
  match zvals s !! arg with
  | Some (ZArray t) =>
      match c t with
      | Ok (a, t') => (set_zval arg (ZArray t');; mret a) s
      | Err e => Err e
      end
  | _ => Err DanglingPointer
  end.
Definition on_properties {A} arg (c : M table A) : P A := fun s =>
  match zvals s !! arg with
  | Some (ZObject t) =>
      match c t with
      | Ok (a, t') => (set_zval arg (ZObject t');; mret a) s
      | Err e => Err e
      end
  | _ => Err DanglingPointer
  end.

Definition new_table : table := (zend_hash_init 0 (Some ZVAL_PTR_DTOR) false ∅ []).2.
Definition array_init arg : P unit := set_zval arg (ZArray new_table).
Definition object_init arg : P unit := set_zval arg (ZObject new_table).

Definition add_next_index_zval arg value : P Z :=
  on_array arg ('(r, _) ← zend_hash_next_index_insert value sizeof_zval_ptr; mret r).
(** [key] is given without its NUL. *)
Definition add_assoc_zval_ex arg (key : list byte) value : P Z :=
  on_array arg ('(r, _) ← zend_symtable_update (key ++ [NUL_byte]) value sizeof_zval_ptr; mret r).

(** The first test of [zend_get_property_info], which without a setter is not
    silent: no name, and none that begins with NUL. *)
Definition name_refused (member : list byte) : bool :=
  match member with [] => true | c :: _ => bool_decide (c = NUL_byte) end.
(** The property has a value that is no reference, nor is the new one. *)
Definition replace_value (variable_ptr : ptr) (old : zaddr) value : M table unit :=
  assign variable_ptr (fun b => set_pData (data_set value (pData b)) b);;
  modify (upd_env (ZVAL_PTR_DTOR old)).
Definition new_property (arKey : list byte) (hv : Z) value : M table unit :=
  zend_hash_quick_update arKey hv value sizeof_zval_ptr;; mret tt.
(** [zend_std_write_property] with a string for the name, on an object without
    declared properties, without [__set] and without references. *)
Definition zend_std_write_property (member : list byte) value : M table unit :=
  if name_refused member then throw Bailout
  else
    let arKey := member ++ [NUL_byte] in
    let hv := zend_get_hash_value arKey in
    variable_ptr ← reading (zend_hash_quick_find arKey hv);
    match variable_ptr with
    | Some _ =>
        b ← reading (deref variable_ptr);
        let old := data_value (pData b) in
        if decide (old = value) then mret tt else replace_value variable_ptr old value
    | None => new_property arKey hv value
    end.
Definition add_property_zval_ex arg (key : list byte) value : P unit :=
  on_properties arg (zend_std_write_property key value).

(** The value of the text [buf] read as [type]. *)
Definition first_char (buf : list byte) : res Z :=
  match buf with [] => Err NullDeref | c :: _ => Ok (uc c) end.
Definition long_or_double (buf : list byte) : res (zvalue D) :=
  c0 ← first_char buf;
  let minus := c0 =? 45 in
  let len := Z.of_nat (length buf) - b2z minus in
  let use_double :=
    if MAX_LENGTH_OF_LONG - 1 <=? len then
      if len =? MAX_LENGTH_OF_LONG - 1 then
        let cmp := strcmp (c_string (drop (Z.to_nat (b2z minus)) buf)) long_min_digits in
        negb ((cmp <? 0) || ((cmp =? 0) && minus))
      else true
    else false in
  Ok (if use_double then ZDouble (zend_strtod (c_string buf)) else ZLong (strtol (c_string buf))).
Definition zval_of (buf : list byte) (type : Z) : res (zvalue D) :=
  if type =? IS_LONG then long_or_double buf
  else if type =? IS_DOUBLE then Ok (ZDouble (zend_strtod (c_string buf)))
  else if type =? IS_STRING then Ok (ZString buf)
  else if type =? IS_BOOL then c0 ← first_char buf; Ok (ZBool (c0 =? 116))
  else Ok ZNull.
Definition json_create_zval : P zaddr :=
  z ← ALLOC_INIT_ZVAL;
  s ← get_st;
  v ← reading (fun _ => zval_of (buf s) (type s));
  set_zval z v;;
  mret z.

Definition empty_name : list byte := bs "_empty_".
(** The two ways a member is put into what stands at [arg]. *)
Definition add_member (assoc : bool) arg (key : list byte) value : P unit :=
  if negb assoc then
    add_property_zval_ex arg (if 0 <? Z.of_nat (length key) then key else empty_name) value
  else add_assoc_zval_ex arg key value;; mret tt.

Definition attach_zval (up cur : Z) (assoc : bool) : P unit :=
  root ← reading (zstack_at up);
  child ← reading (zstack_at cur);
  up_mode ← reading (stack_at up);
  if up_mode =? MODE_ARRAY then add_next_index_zval root child;; mret tt
  else if up_mode =? MODE_OBJECT then
    s ← get_st;
    add_member assoc root (key s) child;;
    set_key []
  else mret tt.

(** ** The automaton

    Each piece answers [true] to go on, [false] for [return false]. *)

Definition failed (code : Z) : P bool := upd_jp (set_error_code code);; mret false.
Definition enter (st : Z) : P bool := upd_jp (set_state st);; mret true.

(** The characters of a string, escapes included. *)
Definition string_char (next_char next_state : Z) : P unit :=
  s ← get_st;
  let from := state (jp s) in
  if (next_state =? ST) && negb (from =? U4) then
    if negb (from =? ES) then set_buf (utf16_to_utf8 (buf s) next_char)
    else if next_char =? 98 then set_buf (smart_str_appendc (buf s) 8)
    else if next_char =? 116 then set_buf (smart_str_appendc (buf s) 9)
    else if next_char =? 110 then set_buf (smart_str_appendc (buf s) 10)
    else if next_char =? 102 then set_buf (smart_str_appendc (buf s) 12)
    else if next_char =? 114 then set_buf (smart_str_appendc (buf s) 13)
    else set_buf (utf16_to_utf8 (buf s) next_char)
  else if next_state =? U2 then set_utf16 (Z.shiftl (dehexchar next_char) 12)
  else if next_state =? U3 then set_utf16 (utf16 s + Z.shiftl (dehexchar next_char) 8)
  else if next_state =? U4 then set_utf16 (utf16 s + Z.shiftl (dehexchar next_char) 4)
  else if (next_state =? ST) && (from =? U4) then
    set_utf16 (utf16 s + dehexchar next_char);;
    s ← get_st;
    set_buf (utf16_to_utf8 (buf s) (utf16 s))
  else mret tt.

(** Change the state and iterate. *)
Definition shift_char (next_char next_class next_state : Z) : P bool :=
  s ← get_st;
  let from := state (jp s) in
  let ty := type s in
  (if ty =? IS_STRING then string_char next_char next_state
   else if (ty <? IS_LONG) && ((next_class =? C_DIGIT) || (next_class =? C_ZERO)) then
     set_type IS_LONG;; set_buf (smart_str_appendc (buf s) next_char)
   else if (ty =? IS_LONG) && (next_state =? E1) then
     set_type IS_DOUBLE;; set_buf (smart_str_appendc (buf s) next_char)
   else if (ty <? IS_DOUBLE) && (next_class =? C_POINT) then
     set_type IS_DOUBLE;; set_buf (smart_str_appendc (buf s) next_char)
   else if (ty <? IS_STRING) && (next_class =? C_QUOTE) then set_type IS_STRING
   else if (ty <? IS_BOOL) && (((from =? T3) && (next_state =? OK)) || ((from =? F4) && (next_state =? OK))) then
     set_type IS_BOOL
   else if (ty <? IS_NULL) && ((from =? N3) && (next_state =? OK)) then set_type IS_NULL
   else if negb (ty =? IS_STRING) && (C_WHITE <? next_class) then
     set_buf (utf16_to_utf8 (buf s) next_char)
   else mret tt);;
  enter next_state.

(** [jp->stack[jp->top]] and [jp->the_zstack[jp->top]]. *)
Definition top_mode s : res Z := stack_at (top (jp s)) s.
Definition top_zval s : res zaddr := zstack_at (top (jp s)) s.

(** empty } *)
Definition end_empty_object : P bool :=
  ok ← with_jp (pop MODE_KEY);
  if negb ok then mret false else enter OK.

(** } *)
Definition end_object (assoc : bool) : P bool :=
  s ← get_st;
  in_object ← (if type s =? -1 then mret false
               else m ← reading top_mode; mret (m =? MODE_OBJECT));
  (if (in_object : bool) then
     mval ← json_create_zval;
     obj ← reading top_zval;
     s ← get_st;
     add_member assoc obj (key s) mval;;
     set_key [];;
     set_buf [];;
     JSON_RESET_TYPE
   else mret tt);;
  ok ← with_jp (pop MODE_OBJECT);
  if negb ok then mret false else enter OK.

(** ] *)
Definition end_array : P bool :=
  s ← get_st;
  in_array ← (if type s =? -1 then mret false
              else m ← reading top_mode; mret (m =? MODE_ARRAY));
  (if (in_array : bool) then
     mval ← json_create_zval;
     arr ← reading top_zval;
     add_next_index_zval arr mval;;
     set_buf [];;
     JSON_RESET_TYPE
   else mret tt);;
  ok ← with_jp (pop MODE_ARRAY);
  if negb ok then mret false else enter OK.

(** The zval of a container that has just been opened: [z] for the
    outermost. *)
Definition open_zval (z : zaddr) (init : zaddr -> P unit) (assoc : bool) : P unit :=
  s ← get_st;
  let top := top (jp s) in
  if 0 <? top then
    obj ← (if top =? 1 then mret z else ALLOC_INIT_ZVAL);
    init obj;;
    set_zstack_at top obj;;
    (if 1 <? top then attach_zval (top - 1) top assoc else mret tt);;
    JSON_RESET_TYPE
  else mret tt.

(** { *)
Definition begin_object (z : zaddr) (assoc : bool) : P bool :=
  ok ← with_jp (push MODE_KEY);
  if negb ok then mret false
  else
    upd_jp (set_state OB);;
    open_zval z (if negb assoc then object_init else array_init) assoc;;
    mret true.

(** [ *)
Definition begin_array (z : zaddr) (assoc : bool) : P bool :=
  ok ← with_jp (push MODE_ARRAY);
  if negb ok then mret false
  else
    upd_jp (set_state AR);;
    open_zval z array_init assoc;;
    mret true.

(** The closing quote.  [SWAP_BUFFERS] leaves [buf] with nothing in it. *)
Definition end_string (z : zaddr) : P bool :=
  m ← reading top_mode;
  s ← get_st;
  if m =? MODE_KEY then
    upd_jp (set_state CO);;
    set_key (buf s);;
    set_buf [];;
    JSON_RESET_TYPE;;
    mret true
  else if (m =? MODE_ARRAY) || (m =? MODE_OBJECT) then enter OK
  else if (m =? MODE_DONE) && (type s =? IS_STRING) then
    set_zval z (ZString (buf s));; enter OK
  else failed PHP_JSON_ERROR_SYNTAX.

(** , *)
Definition comma (assoc : bool) : P bool :=
  s ← get_st;
  m ← reading top_mode;
  mval ← (if negb (type s =? -1) && ((m =? MODE_OBJECT) || (m =? MODE_ARRAY))
          then z ← json_create_zval; mret (Some z)
          else mret None);
  if m =? MODE_OBJECT then
    ok ← (ok ← with_jp (pop MODE_OBJECT);
          if (ok : bool) then with_jp (push MODE_KEY) else mret false);
    (if (ok : bool) then
       (match mval with
        | Some mval =>
            obj ← reading top_zval;
            s ← get_st;
            add_member assoc obj (key s) mval;;
            set_key []
        | None => mret tt
        end);;
       upd_jp (set_state KE)
     else mret tt);;
    set_buf [];; JSON_RESET_TYPE;; mret true
  else if m =? MODE_ARRAY then
    (match mval with
     | Some mval => arr ← reading top_zval; add_next_index_zval arr mval;; mret tt
     | None => mret tt
     end);;
    upd_jp (set_state VA);;
    set_buf [];; JSON_RESET_TYPE;; mret true
  else failed PHP_JSON_ERROR_SYNTAX.

(** : *)
Definition colon : P bool :=
  ok ← (ok ← with_jp (pop MODE_KEY);
        if (ok : bool) then with_jp (push MODE_OBJECT) else mret false);
  if (ok : bool) then enter VA else failed PHP_JSON_ERROR_SYNTAX.

Definition act (z : zaddr) (assoc : bool) (action : Z) : P bool :=
  if action =? -9 then end_empty_object
  else if action =? -8 then end_object assoc
  else if action =? -7 then end_array
  else if action =? -6 then begin_object z assoc
  else if action =? -5 then begin_array z assoc
  else if action =? -4 then end_string z
  else if action =? -3 then comma assoc
  else if action =? -2 then colon
  else failed PHP_JSON_ERROR_SYNTAX.

Definition class_of (next_char : Z) : res Z :=
  if 128 <=? next_char then Ok C_ETC else nth_cell ascii_class next_char.
Definition transition (st next_class : Z) : res Z :=
  row ← nth_cell state_transition_table st; nth_cell row next_class.

(** The body of the loop. *)
Definition parse_char (z : zaddr) (assoc : bool) (next_char : Z) : P bool :=
  next_class ← reading (fun _ => class_of next_char);
  if next_class <=? __ then failed PHP_JSON_ERROR_CTRL_CHAR
  else
    s ← get_st;
    next_state ← reading (fun _ => transition (state (jp s)) next_class);
    if 0 <=? next_state then shift_char next_char next_class next_state
    else act z assoc next_state.

Fixpoint parse_loop (z : zaddr) (assoc : bool) (utf16_json : list Z) : P bool :=
  match utf16_json with
  | [] => mret true
  | next_char :: rest =>
      go_on ← parse_char z assoc next_char;
      if (go_on : bool) then parse_loop z assoc rest else mret false
  end.

(** What follows the loop. *)
Definition accept : P bool :=
  s ← get_st;
  ok ← (if state (jp s) =? OK then with_jp (pop MODE_DONE) else mret false);
  if (ok : bool) then mret true else failed PHP_JSON_ERROR_SYNTAX.

(** [utf16_json] is the text, [length] units of it. *)
Definition parse_JSON (jp : JSON_parser_struct) (z : zaddr) (zs : list (zvalue D))
    (utf16_json : list Z) (assoc : bool) : res (bool * pstate D) :=
  (go_on ← parse_loop z assoc utf16_json;
   if (go_on : bool) then accept else mret false) (mkPs jp zs [] [] 0 (-1)).
End Parser.
