(* ===== verification/JsonAutomaton.v ===== *)
(** * The JSON automaton on values

    What [parse_JSON] does, without the store: the open containers are a
    stack of [frame]s that hold the entries read so far, innermost first; a
    container is put into its parent when it is closed.  [abs_char] is one
    turn of the loop, [run] the loop and its end. *)

From S2P Require Import Prelude Dll ZendHash ZendHashInv ZendHashNumeric ZendHashRefine CLib JsonUtf8 JsonParser.
Open Scope Z_scope.

(** A PHP value; arrays and objects are their entries in order. *)
Inductive php (D : Type) : Type :=
  | PNull
  | PLong (n : Z)
  | PDouble (d : D)
  | PBool (b : bool)
  | PString (s : list byte)
  | PArray (l : list (hkey * php D))
  | PObject (l : list (hkey * php D)).
Arguments PNull {D}. Arguments PLong {D}. Arguments PDouble {D}. Arguments PBool {D}.
Arguments PString {D}. Arguments PArray {D}. Arguments PObject {D}.

Record frame (D : Type) : Type := Frame {
  f_mode : Z;
  f_entries : list (hkey * php D);
  f_child : hkey                       (* where the open child goes *)
}.
Arguments Frame {D}. Arguments f_mode {D}. Arguments f_entries {D}. Arguments f_child {D}.

Record lexer : Type := Lex {
  l_state : Z;
  l_buf : list byte;
  l_key : list byte;
  l_utf16 : Z;
  l_type : Z
}.

Record astate (D : Type) : Type := AState {
  lx : lexer;
  frames : list (frame D);
  root : option (php D)
}.
Arguments AState {D}. Arguments lx {D}. Arguments frames {D}. Arguments root {D}.

(** Going on, [return false] with an error code, or [E_ERROR]. *)
Inductive outcome (D : Type) : Type :=
  | Go (a : astate D)
  | Stop (code : Z)
  | Fatal.
Arguments Go {D}. Arguments Stop {D}. Arguments Fatal {D}.

(** ** Characters within a token *)

Definition lex_string (next_char next_state : Z) (l : lexer) : lexer :=
  let from := l_state l in
  let with_buf b := Lex from b (l_key l) (l_utf16 l) (l_type l) in
  let with_utf16 u := Lex from (l_buf l) (l_key l) (u `mod` 2 ^ 16) (l_type l) in
  if (next_state =? ST) && negb (from =? U4) then
    if negb (from =? ES) then with_buf (utf16_to_utf8 (l_buf l) next_char)
    else if next_char =? 98 then with_buf (smart_str_appendc (l_buf l) 8)
    else if next_char =? 116 then with_buf (smart_str_appendc (l_buf l) 9)
    else if next_char =? 110 then with_buf (smart_str_appendc (l_buf l) 10)
    else if next_char =? 102 then with_buf (smart_str_appendc (l_buf l) 12)
    else if next_char =? 114 then with_buf (smart_str_appendc (l_buf l) 13)
    else with_buf (utf16_to_utf8 (l_buf l) next_char)
  else if next_state =? U2 then with_utf16 (Z.shiftl (dehexchar next_char) 12)
  else if next_state =? U3 then with_utf16 (l_utf16 l + Z.shiftl (dehexchar next_char) 8)
  else if next_state =? U4 then with_utf16 (l_utf16 l + Z.shiftl (dehexchar next_char) 4)
  else if (next_state =? ST) && (from =? U4) then
    let u := (l_utf16 l + dehexchar next_char) `mod` 2 ^ 16 in
    Lex from (utf16_to_utf8 (l_buf l) u) (l_key l) u (l_type l)
  else l.

Definition lex_char (next_char next_class next_state : Z) (l : lexer) : lexer :=
  let from := l_state l in
  let ty := l_type l in
  let with_type b t := Lex from b (l_key l) (l_utf16 l) t in
  let l' :=
    if ty =? IS_STRING then lex_string next_char next_state l
    else if (ty <? IS_LONG) && ((next_class =? C_DIGIT) || (next_class =? C_ZERO)) then
      with_type (smart_str_appendc (l_buf l) next_char) IS_LONG
    else if (ty =? IS_LONG) && (next_state =? E1) then
      with_type (smart_str_appendc (l_buf l) next_char) IS_DOUBLE
    else if (ty <? IS_DOUBLE) && (next_class =? C_POINT) then
      with_type (smart_str_appendc (l_buf l) next_char) IS_DOUBLE
    else if (ty <? IS_STRING) && (next_class =? C_QUOTE) then with_type (l_buf l) IS_STRING
    else if (ty <? IS_BOOL) && (((from =? T3) && (next_state =? OK)) || ((from =? F4) && (next_state =? OK)))
    then with_type (l_buf l) IS_BOOL
    else if (ty <? IS_NULL) && ((from =? N3) && (next_state =? OK)) then with_type (l_buf l) IS_NULL
    else if negb (ty =? IS_STRING) && (C_WHITE <? next_class) then
      with_type (utf16_to_utf8 (l_buf l) next_char) ty
    else l in
  Lex next_state (l_buf l') (l_key l') (l_utf16 l') (l_type l').

(** The lexer after a token has been used. *)
Definition rested (st : Z) (l : lexer) : lexer := Lex st [] (l_key l) (l_utf16 l) (-1).
Definition rested_key (st : Z) (l : lexer) : lexer := Lex st [] [] (l_utf16 l) (-1).

Section Automaton.
Context {D : Type} (zend_strtod : list byte -> D) (assoc : bool) (max_depth : Z).
Implicit Types (a : astate D) (f : frame D) (fs : list (frame D)) (v : php D).

Definition php_of (v : zvalue D) : php D :=
  match v with
  | ZNull => PNull | ZLong n => PLong n | ZDouble d => PDouble d | ZBool b => PBool b
  | ZString s => PString s | ZArray _ => PArray [] | ZObject _ => PObject []
  end.
(** The scalar a token stands for. *)
Definition token_value (l : lexer) : php D :=
  match zval_of zend_strtod (l_buf l) (l_type l) with Ok v => php_of v | Err _ => PNull end.

(** The key of the next entry; none when the object refuses the name. *)
Definition member_key (key : list byte) : option hkey :=
  if assoc then Some (sym_key (key ++ [NUL]))
  else
    match (if 0 <? Z.of_nat (length key) then key else empty_name) with
    | [] => None
    | c :: name => if decide (c = NUL) then None else Some (KStr ((c :: name) ++ [NUL]))
    end.
Definition entry_key (l : lexer) f : option hkey :=
  if f_mode f =? MODE_ARRAY then Some (KInt (Z.of_nat (length (f_entries f))))
  else member_key (l_key l).

Definition put (k : hkey) v f : frame D := Frame (f_mode f) (kv_set k v (f_entries f)) (f_child f).
Definition with_mode (m : Z) f : frame D := Frame m (f_entries f) (f_child f).
Definition container f : php D :=
  if f_mode f =? MODE_ARRAY then PArray (f_entries f)
  else if assoc then PArray (f_entries f) else PObject (f_entries f).

Definition mode_of fs : Z := match fs with [] => MODE_DONE | f :: _ => f_mode f end.

(** The pending scalar goes into the innermost container. *)
Definition flush (st : Z) a : outcome D :=
  match frames a with
  | f :: fs =>
      match entry_key (lx a) f with
      | Some k =>
          Go (AState (if f_mode f =? MODE_ARRAY then rested st (lx a) else rested_key st (lx a))
                (put k (token_value (lx a)) f :: fs) (root a))
      | None => Fatal
      end
  | [] => Go a
  end.

Definition close (mode : Z) a : outcome D :=
  match frames a with
  | f :: fs =>
      if f_mode f =? mode then
        let l := Lex OK (l_buf (lx a)) (l_key (lx a)) (l_utf16 (lx a)) (l_type (lx a)) in
        match fs with
        | [] => Go (AState l [] (Some (container f)))
        | g :: gs => Go (AState l (put (f_child g) (container f) g :: gs) (root a))
        end
      else Stop PHP_JSON_ERROR_STATE_MISMATCH
  | [] => Stop PHP_JSON_ERROR_STATE_MISMATCH
  end.
Definition abs_end (mode : Z) a : outcome D :=
  if negb (l_type (lx a) =? -1) && (mode_of (frames a) =? mode) then
    match flush (l_state (lx a)) a with Go a' => close mode a' | o => o end
  else close mode a.

Definition abs_begin (mode st : Z) a : outcome D :=
  if max_depth <=? Z.of_nat (length (frames a)) + 1 then Stop PHP_JSON_ERROR_DEPTH
  else
    let l := Lex st (l_buf (lx a)) (l_key (lx a)) (l_utf16 (lx a)) (-1) in
    let new := Frame mode [] (KInt 0) in
    match frames a with
    | [] => Go (AState l [new] (root a))
    | f :: fs =>
        match entry_key (lx a) f with
        | Some k =>
            let l := if f_mode f =? MODE_ARRAY then l else Lex st (l_buf l) [] (l_utf16 l) (-1) in
            Go (AState l (new :: Frame (f_mode f) (f_entries f) k :: fs) (root a))
        | None => Fatal
        end
    end.

Definition at_state (st : Z) a : astate D :=
  AState (Lex st (l_buf (lx a)) (l_key (lx a)) (l_utf16 (lx a)) (l_type (lx a))) (frames a) (root a).

Definition abs_quote a : outcome D :=
  let m := mode_of (frames a) in
  if m =? MODE_KEY then
    Go (AState (Lex CO [] (l_buf (lx a)) (l_utf16 (lx a)) (-1)) (frames a) (root a))
  else if (m =? MODE_ARRAY) || (m =? MODE_OBJECT) then Go (at_state OK a)
  else if (m =? MODE_DONE) && (l_type (lx a) =? IS_STRING) then
    Go (AState (lx (at_state OK a)) (frames a) (Some (PString (l_buf (lx a)))))
  else Stop PHP_JSON_ERROR_SYNTAX.

Definition abs_comma a : outcome D :=
  let m := mode_of (frames a) in
  if (m =? MODE_OBJECT) || (m =? MODE_ARRAY) then
    let next := if m =? MODE_OBJECT then KE else VA in
    match (if l_type (lx a) =? -1 then Go (AState (rested next (lx a)) (frames a) (root a))
           else flush next a) with
    | Go a' =>
        match frames a' with
        | f :: fs => Go (AState (lx a') ((if m =? MODE_OBJECT then with_mode MODE_KEY f else f) :: fs) (root a'))
        | [] => Go a'
        end
    | o => o
    end
  else Stop PHP_JSON_ERROR_SYNTAX.

Definition abs_colon a : outcome D :=
  match frames a with
  | f :: fs =>
      if f_mode f =? MODE_KEY then
        Go (AState (lx (at_state VA a)) (with_mode MODE_OBJECT f :: fs) (root a))
      else Stop PHP_JSON_ERROR_SYNTAX
  | [] => Stop PHP_JSON_ERROR_SYNTAX
  end.

Definition abs_act (action : Z) a : outcome D :=
  if action =? -9 then close MODE_KEY a
  else if action =? -8 then abs_end MODE_OBJECT a
  else if action =? -7 then abs_end MODE_ARRAY a
  else if action =? -6 then abs_begin MODE_KEY OB a
  else if action =? -5 then abs_begin MODE_ARRAY AR a
  else if action =? -4 then abs_quote a
  else if action =? -3 then abs_comma a
  else if action =? -2 then abs_colon a
  else Stop PHP_JSON_ERROR_SYNTAX.

(** One turn. *)
Definition abs_char (next_char : Z) a : outcome D :=
  match class_of next_char with
  | Err _ => Fatal
  | Ok next_class =>
      if next_class <=? __ then Stop PHP_JSON_ERROR_CTRL_CHAR
      else
        match transition (l_state (lx a)) next_class with
        | Err _ => Fatal
        | Ok next_state =>
            if 0 <=? next_state
            then Go (AState (lex_char next_char next_class next_state (lx a)) (frames a) (root a))
            else abs_act next_state a
        end
  end.
Fixpoint abs_loop (text : list Z) a : outcome D :=
  match text with
  | [] => Go a
  | c :: text' => match abs_char c a with Go a' => abs_loop text' a' | o => o end
  end.
Definition start : astate D := AState (Lex GO [] [] 0 (-1)) [] None.

(** The value of a text, the error code of a refusal, or the fatal error. *)
Inductive answer_of : Type :=
  | Value (v : php D)
  | Refused (code : Z)
  | Died.
Definition run (text : list Z) : answer_of :=
  match abs_loop text start with
  | Go a =>
      match frames a, root a with
      | [], Some v => if l_state (lx a) =? OK then Value v else Refused PHP_JSON_ERROR_SYNTAX
      | _, _ => Refused PHP_JSON_ERROR_SYNTAX
      end
  | Stop code => Refused code
  | Fatal => Died
  end.
End Automaton.
Arguments Value {D}. Arguments Refused {D}. Arguments Died {D}.
