(* ===== verification/JsonParserSpec.v ===== *)
(** * The parser computes what the automaton on values computes

    [rep zs lo hi z v]: in the store [zs] the zval [z] holds the value [v],
    in cells between [lo] and [hi].  [related] ties the parser's state to the
    automaton's: every open container is a cell whose table holds the finished
    entries and, under [f_child], the container opened in it.  Each character
    keeps the relation; no read or write of the parser goes astray. *)

From S2P Require Import Prelude Dll ZendHash ZendHashInv ZendHashSteps ZendHashOps ZendHashIter ZendHashBulk ZendHashOrder ZendHashCursor ZendHashNumeric ZendHashRefine ZendHashClient CLib JsonUtf8 JsonParser JsonAutomaton.
Open Scope Z_scope.

(** ** Tables of pointers *)

Section Tables.
Context `{Allocator} (Hp : plentiful zaddr).
Implicit Types (t : table) (ents : list (hkey * zaddr)) (z : zaddr).

Definition tb t ents (next : Z) : Prop := exists w, refines (Some ZVAL_PTR_DTOR) t (Dict ents next w).

Lemma new_table_tb : tb new_table [] 0.
Proof using Hp.
  destruct (init_refines 0 (Some ZVAL_PTR_DTOR) false ([] : list zaddr) ltac:(lia) Hp) as (s & Hs & HR).
  exists []. unfold new_table. by rewrite Hs.
Qed.

Lemma next_insert_tb t ents z :
  tb t ents (Z.of_nat (length ents)) -> Z.of_nat (length ents) < LONG_MAX ->
  exists p t', zend_hash_next_index_insert z sizeof_zval_ptr t = Ok ((SUCCESS, p), t') /\
    tb t' (ents ++ [(KInt (Z.of_nat (length ents)), z)]) (Z.of_nat (length ents) + 1) /\
    KInt (Z.of_nat (length ents)) ∉ ents.*1.
Proof using Hp.
  intros [w HR] Hn. set (n := Z.of_nat (length ents)) in *.
  destruct (next_insert_run _ _ _ z sizeof_zval_ptr Hp HR) as (p & t' & Ht & HR').
  cbn [next_index entries] in *.
  assert (Hno : KInt n ∉ ents.*1).
  { intros Hi. destruct (rf_above _ _ _ HR) as [_ Ha]. cbn in Ha. apply Ha in Hi as [Hlt| ->]; [|lia].
    rewrite s64_id in Hlt by lia. lia. }
  unfold dict_store in *. cbn [entries next_index world] in *.
  rewrite (proj2 (kv_lookup_None _ _) Hno) in *. cbn in Ht, HR'. exists p, t'. split; [done|]. split; [|done].
  exists w. replace (n + 1) with (next_free n n); [done|].
  unfold next_free. rewrite Z.leb_refl, (proj2 (Z.ltb_lt _ _)) by done. apply u64_small. unfold LONG_MAX in *. lia.
Qed.

Lemma symtable_tb t ents next (key : list byte) z :
  tb t ents next -> exists p t' next', zend_symtable_update (key ++ [NUL_byte]) z sizeof_zval_ptr t = Ok ((SUCCESS, p), t') /\
    tb t' (kv_set (sym_key (key ++ [NUL])) z ents) next'.
Proof using Hp.
  intros [w HR]. destruct (symtable_update_run _ _ _ (key ++ [NUL]) z sizeof_zval_ptr Hp HR) as (p & t' & Ht & HR').
  { by rewrite last_snoc. }
  set (d' := (dict_store _ _ _ _ _).2) in *. exists p, t', (next_index d'). split; [exact Ht|]. exists (world d').
  destruct (dict_store_set (Some ZVAL_PTR_DTOR) (sym_key (key ++ [NUL])) z (Dict ents next w)) as [E _].
  cbn [entries] in E. rewrite <- E. fold d'. by destruct d'.
Qed.

Lemma kv_update_same {V} k (v : V) kvs : kv_lookup k kvs = Some v -> kv_update k v kvs = kvs.
Proof.
  induction kvs as [|[k' v'] kvs IH]; [done|]. simpl. case_decide; [by intros [= ->]|]. intros Hl. f_equal. by apply IH.
Qed.

Lemma write_property_tb t ents next (c : byte) (name : list byte) z :
  tb t ents next -> c <> NUL ->
  exists t', zend_std_write_property (c :: name) z t = Ok (tt, t') /\
    exists next', tb t' (kv_set (KStr ((c :: name) ++ [NUL])) z ents) next'.
Proof using Hp.
  intros [w HR] Hc. unfold zend_std_write_property, name_refused, replace_value, new_property.
  rewrite bool_decide_eq_false_2 by done.
  change NUL_byte with NUL. set (k := (c :: name) ++ [NUL]). assert (Hk : k <> []) by done. clearbody k.
  cbv zeta. change zend_get_hash_value with zend_inline_hash_func.
  pose proof (quick_find_run _ _ _ k HR Hk) as Hf.
  unfold found_at in Hf. cbn [entries] in Hf. unfold kv_set.
  destruct (kv_lookup _ ents) as [old|] eqn:El.
  - destruct Hf as (a & b & Ha & Hb & <- & Hset). erewrite mbind_reading by exact Ha. cbv beta iota.
    erewrite mbind_reading by exact Hb. cbv beta zeta. case_decide as Hd.
    + exists t. split; [done|]. rewrite kv_update_same by congruence. by exists next, w.
    + destruct (Hset (fun _ => z)) as (t' & Ht' & _ & HR'). rewrite (mbind_ok _ _ _ _ _ Ht').
      eexists. split; [done|]. exists next, (ZVAL_PTR_DTOR (data_value (pData b)) (env t')). destruct HR' as [Hr Hn Hw Hdt Hab].
      destruct Hr as [l Hr].
      constructor; [exists l; destruct Hr; by constructor|exact Hn|reflexivity|exact Hdt|exact Hab].
  - erewrite mbind_reading by exact Hf. cbv beta iota.
    destruct (quick_update_run _ _ _ k z sizeof_zval_ptr Hp HR Hk) as (p & t' & Ht & HR').
    rewrite (mbind_ok _ _ _ _ _ Ht). exists t'. split; [done|].
    set (d' := (dict_store _ _ _ _ _).2) in *. exists (next_index d'), (world d').
    destruct (dict_store_set (Some ZVAL_PTR_DTOR) (KStr k) z (Dict ents next w)) as [E _].
    unfold kv_set in E. cbn [entries] in E. rewrite El in E. rewrite <- E. fold d'. by destruct d'.
Qed.
End Tables.

(** ** Values in the store *)

Section Represent.
Context {D : Type}.
Implicit Types (zs : list (zvalue D)) (v : php D) (z a : zaddr) (lo hi : nat).

Definition is_scalar (v : zvalue D) : Prop :=
  match v with ZArray _ | ZObject _ => False | _ => True end.

Inductive rep zs : nat -> nat -> zaddr -> php D -> Prop :=
  | rep_scalar lo hi z (x : zvalue D) : (lo <= z < hi)%nat -> zs !! z = Some x -> is_scalar x -> rep zs lo hi z (php_of x)
  | rep_array lo hi z t ents next l : (lo <= z < hi)%nat -> zs !! z = Some (ZArray t) -> tb t ents next ->
      Forall2 (fun x y => x.1 = y.1 /\ rep zs (S z) hi x.2 y.2) ents l -> rep zs lo hi z (PArray l)
  | rep_object lo hi z t ents next l : (lo <= z < hi)%nat -> zs !! z = Some (ZObject t) -> tb t ents next ->
      Forall2 (fun x y => x.1 = y.1 /\ rep zs (S z) hi x.2 y.2) ents l -> rep zs lo hi z (PObject l).

(** The children of a container in [(z, hi)]. *)
Definition reps zs lo hi (ents : list (hkey * zaddr)) (l : list (hkey * php D)) : Prop :=
  Forall2 (fun x y => x.1 = y.1 /\ rep zs lo hi x.2 y.2) ents l.

Lemma rep_ext zs zs' : forall lo hi z v, rep zs lo hi z v ->
  forall lo' hi', (lo' <= lo)%nat -> (hi <= hi')%nat ->
  (forall i, (lo <= i < hi)%nat -> zs' !! i = zs !! i) -> rep zs' lo' hi' z v.
Proof.
  fix IH 5. intros lo hi z v [lo0 hi0 z0 v0 Hz Hv Hs|lo0 hi0 z0 t ents next l Hz Ht Htb Hc|lo0 hi0 z0 t ents next l Hz Ht Htb Hc]
    lo' hi' Hlo Hhi Heq.
  - apply rep_scalar; [lia|by rewrite Heq|done].
  - eapply rep_array; [lia|by rewrite Heq|done|].
    assert (Hsub : forall i, (S z0 <= i < hi0)%nat -> zs' !! i = zs !! i) by (intros; apply Heq; lia).
    clear -IH Hc Hsub Hhi. induction Hc as [|x y ents l [Hk Hr] Hc IHc]; constructor; [|done].
    split; [done|]. eapply IH; [exact Hr|lia|done|done].
  - eapply rep_object; [lia|by rewrite Heq|done|].
    assert (Hsub : forall i, (S z0 <= i < hi0)%nat -> zs' !! i = zs !! i) by (intros; apply Heq; lia).
    clear -IH Hc Hsub Hhi. induction Hc as [|x y ents l [Hk Hr] Hc IHc]; constructor; [|done].
    split; [done|]. eapply IH; [exact Hr|lia|done|done].
Qed.

Lemma reps_ext zs zs' lo hi lo' hi' ents l : reps zs lo hi ents l ->
  (lo' <= lo)%nat -> (hi <= hi')%nat -> (forall i, (lo <= i < hi)%nat -> zs' !! i = zs !! i) ->
  reps zs' lo' hi' ents l.
Proof.
  intros Hr Hlo Hhi Heq. eapply Forall2_impl; [exact Hr|]. intros x y [? ?]. split; [done|]. by eapply rep_ext.
Qed.

(** Storing on both sides. *)
Lemma reps_set zs lo hi ents l k z v : reps zs lo hi ents l -> rep zs lo hi z v ->
  reps zs lo hi (kv_set k z ents) (kv_set k v l).
Proof.
  intros Hr Hv. unfold kv_set.
  assert (Hl : is_Some (kv_lookup k ents) <-> is_Some (kv_lookup k l)).
  { clear Hv. induction Hr as [|[k1 z1] [k2 v2] ents l [Hk _] Hr IH]; [by split; intros [? ?]|]. simpl in *. subst k2.
    case_decide; [|done]. split; by eexists. }
  destruct (kv_lookup k ents), (kv_lookup k l).
  - clear Hl. induction Hr as [|[k1 z1] [k2 v2] ents l [Hk Hx] Hr IH]; [constructor|]. simpl in *. subst k2.
    case_decide; constructor; first [by split|done].
  - destruct Hl as [Hl _]. destruct (Hl ltac:(by eexists)); done.
  - destruct Hl as [_ Hl]. destruct (Hl ltac:(by eexists)); done.
  - apply Forall2_app; [done|]. by constructor.
Qed.
Lemma kv_set_length {V} k (v : V) kvs : (length (kv_set k v kvs) <= S (length kvs))%nat.
Proof.
  unfold kv_set. case_match; [|rewrite length_app; cbn; lia].
  rewrite <- (length_fmap fst (kv_update k v kvs)), kv_update_keys, length_fmap. lia.
Qed.
Lemma reps_keys zs lo hi ents l : reps zs lo hi ents l -> ents.*1 = l.*1.
Proof. induction 1 as [|x y ents l [Hk _] _ IH]; [done|]. cbn. f_equal; [exact Hk|exact IH]. Qed.
Lemma reps_length zs lo hi ents l : reps zs lo hi ents l -> length ents = length l.
Proof. apply Forall2_length. Qed.

(** A cell stands for one value only. *)
Lemma children_fun (R R' : zaddr -> php D -> Prop) (ents : list (hkey * zaddr)) : forall l l',
  Forall2 (fun x y => x.1 = y.1 /\ R x.2 y.2) ents l -> Forall2 (fun x y => x.1 = y.1 /\ R' x.2 y.2) ents l' ->
  (forall x v v', x ∈ ents -> R x.2 v -> R' x.2 v' -> v = v') -> l = l'.
Proof.
  induction ents as [|[k z] ents IH]; intros l l' H1 H2 Hf; inversion_clear H1; inversion_clear H2; [done|].
  destruct y as [ky vy], y0 as [ky' vy']. cbn in *. destruct H as [<- H], H1 as [<- H1]. f_equal.
  - f_equal. eapply (Hf (k, z)); [by left|done|done].
  - eapply IH; [done|done|]. intros x v v' Hx. apply Hf. by right.
Qed.
Lemma tb_fun (t : table) ents ents' next next' : tb t ents next -> tb t ents' next' -> ents = ents'.
Proof. intros [w H1] [w' H2]. exact (refines_entries_fun _ _ _ _ _ H1 H2). Qed.
Lemma rep_fun_below zs (n : nat) : forall lo hi z v lo' hi' v', (hi - lo <= n)%nat ->
  rep zs lo hi z v -> rep zs lo' hi' z v' -> v = v'.
Proof.
  induction n as [|n IH]; intros lo hi z v lo' hi' v' Hn H1 H2; [inversion H1; lia|].
  destruct H1 as [lo hi z x Hz Hv Hs|lo hi z t ents next l Hz Ht Htb Hc|lo hi z t ents next l Hz Ht Htb Hc];
    inversion H2 as [? ? ? x' Hz' Hv' Hs'|? ? ? t' ents' next' l' Hz' Ht' Htb' Hc'|? ? ? t' ents' next' l' Hz' Ht' Htb' Hc'];
    subst; simplify_eq; try done; f_equal; pose proof (tb_fun _ _ _ _ _ Htb Htb') as <-;
    (eapply children_fun; [exact Hc|exact Hc'|]; intros x v v' _ Hr Hr'; eapply (IH (S z) hi); [lia|exact Hr|exact Hr']).
Qed.
Lemma rep_fun zs lo hi lo' hi' z v v' : rep zs lo hi z v -> rep zs lo' hi' z v' -> v = v'.
Proof. by apply rep_fun_below with (n := (hi - lo)%nat). Qed.
End Represent.

(** ** The parser's state *)

Section Related.
Context {D : Type} `{Allocator} (Hp : plentiful zaddr) (zend_strtod : list byte -> D).
Context (assoc : bool) (max_depth : Z).
Implicit Types (s : pstate D) (zs : list (zvalue D)) (f g : frame D) (fs : list (frame D)) (a c z : zaddr)
  (l : lexer).

(** The cell of a container with table [t]. *)
Definition holder f (t : table) : zvalue D :=
  if (f_mode f =? MODE_ARRAY) || assoc then ZArray t else ZObject t.

Definition frame_mode (m : Z) : Prop := m = MODE_ARRAY \/ m = MODE_KEY \/ m = MODE_OBJECT.

(** Container [f] stands at [a]; its finished children lie below [hi]; [pend]
    is the child open in it. *)
Record frame_at zs a (hi : nat) f (pend : option zaddr) (t : table) (ents : list (hkey * zaddr)) (next : Z)
    : Prop := {
  fa_cell : zs !! a = Some (holder f t);
  fa_below : (a < hi)%nat;
  fa_table : tb t (match pend with Some c => kv_set (f_child f) c ents | None => ents end) next;
  fa_reps : reps zs (S a) hi ents (f_entries f);
  fa_few : (length ents <= hi)%nat;
  fa_mode : frame_mode (f_mode f);
  fa_array : f_mode f = MODE_ARRAY ->
    next = Z.of_nat (length ents) + b2z (bool_decide (is_Some pend)) /\
    (is_Some pend -> f_child f = KInt (Z.of_nat (length ents)) /\ f_child f ∉ ents.*1)
}.

Fixpoint open_at (j : JSON_parser_struct) zs (hi : nat) (pend : option zaddr) fs : Prop :=
  match fs with
  | [] => match pend with Some c => c = 0%nat | None => True end
  | f :: fs' => exists a t ents next,
      nth_cell (the_zstack j) (Z.of_nat (length fs)) = Ok (Some a) /\
      nth_cell (stack j) (Z.of_nat (length fs)) = Ok (f_mode f) /\
      frame_at zs a hi f pend t ents next /\ open_at j zs a (Some a) fs'
  end.

Record related s (a : astate D) : Prop := {
  rl_state : state (jp s) = l_state (lx a);
  rl_buf : buf s = l_buf (lx a);
  rl_key : key s = l_key (lx a);
  rl_utf16 : utf16 s = l_utf16 (lx a);
  rl_type : type s = l_type (lx a);
  rl_depth : depth (jp s) = max_depth;
  rl_error : error_code (jp s) = PHP_JSON_ERROR_NONE;
  rl_top : top (jp s) = Z.of_nat (length (frames a));
  rl_room : Z.of_nat (length (frames a)) < max_depth;
  rl_stack : Z.of_nat (length (stack (jp s))) = max_depth;
  rl_zstack : max_depth <= Z.of_nat (length (the_zstack (jp s)));
  rl_done : nth_cell (stack (jp s)) 0 = Ok MODE_DONE;
  rl_store : (0 < length (zvals s))%nat;
  rl_open : open_at (jp s) (zvals s) (length (zvals s)) None (frames a);
  rl_root : frames a = [] -> match root a with Some v => rep (zvals s) 0 (length (zvals s)) 0%nat v | None => True end
}.

(** ** Arrays *)

Lemma nth_cell_ok {A} (l : list A) (n : nat) : (n < length l)%nat -> exists x, nth_cell l (Z.of_nat n) = Ok x /\ l !! n = Some x.
Proof.
  intros Hn. destruct (lookup_lt_is_Some_2 l n Hn) as [x Hx]. exists x. split; [|done].
  unfold nth_cell. rewrite (proj2 (Z.ltb_ge _ _)), Nat2Z.id, Hx by lia. done.
Qed.
Lemma nth_cell_lookup {A} (l : list A) (n : nat) x : nth_cell l (Z.of_nat n) = Ok x <-> l !! n = Some x.
Proof.
  unfold nth_cell. rewrite (proj2 (Z.ltb_ge _ _)), Nat2Z.id by lia.
  destruct (l !! n); split; congruence.
Qed.
Lemma set_nth_cell_ok {A} (l : list A) (n : nat) x : (n < length l)%nat ->
  set_nth_cell l (Z.of_nat n) x = Ok (<[n := x]> l).
Proof.
  intros Hn. unfold set_nth_cell. rewrite (proj2 (Z.ltb_ge _ _)), (proj2 (Z.leb_gt _ _)), Nat2Z.id by lia. done.
Qed.
Lemma nth_cell_insert_ne {A} (l : list A) (n m : nat) x y : (m < n)%nat ->
  nth_cell l (Z.of_nat m) = Ok y -> nth_cell (<[n := x]> l) (Z.of_nat m) = Ok y.
Proof. rewrite !nth_cell_lookup. intros Hm Hl. by rewrite list_lookup_insert_ne by lia. Qed.
Lemma nth_cell_insert {A} (l : list A) (n : nat) x : (n < length l)%nat ->
  nth_cell (<[n := x]> l) (Z.of_nat n) = Ok x.
Proof. intros Hn. apply nth_cell_lookup. by apply list_lookup_insert_eq. Qed.

(** What lies below an open container does not depend on the cells above. *)
Lemma frame_at_ext zs zs' a hi hi' f pend t ents next : frame_at zs a hi f pend t ents next ->
  (hi <= hi')%nat -> (forall i, (a <= i < hi)%nat -> zs' !! i = zs !! i) -> frame_at zs' a hi' f pend t ents next.
Proof.
  intros [H1 H2 H3 H4 H5 H6 H7] Hle Heq. constructor; [rewrite Heq by lia; done|lia|done| |lia|done|done].
  eapply reps_ext; [exact H4|lia|lia|]. intros i Hi. apply Heq. lia.
Qed.
Lemma open_at_ext j j' zs zs' fs : forall hi pend, open_at j zs hi pend fs ->
  (forall n, (0 < n <= length fs)%nat -> the_zstack j' !! n = the_zstack j !! n /\ stack j' !! n = stack j !! n) ->
  (forall i, (i < hi)%nat -> zs' !! i = zs !! i) -> open_at j' zs' hi pend fs.
Proof.
  induction fs as [|f fs IH]; intros hi pend; [done|].
  intros (a & t & ents & next & Hz & Hs & Hf & Ho) Hj Heq. exists a, t, ents, next.
  pose proof (Hj (length (f :: fs)) ltac:(simpl; lia)) as [Hj1 Hj2].
  pose proof (fa_below _ _ _ _ _ _ _ _ Hf) as Hb.
  split_and!.
  - apply nth_cell_lookup. rewrite Hj1. by apply nth_cell_lookup.
  - apply nth_cell_lookup. rewrite Hj2. by apply nth_cell_lookup.
  - eapply frame_at_ext; [exact Hf|lia|]. intros i Hi. apply Heq. lia.
  - apply IH; [done| |].
    + intros n Hn. apply Hj. simpl. lia.
    + intros i Hi. apply Heq. lia.
Qed.

(** ** Entries *)

Definition with_zvals s zs : pstate D := mkPs (jp s) zs (buf s) (key s) (utf16 s) (type s).

Lemma set_zval_run s z x : (z < length (zvals s))%nat ->
  set_zval z x s = Ok (tt, with_zvals s (<[z := x]> (zvals s))).
Proof. intros Hz. unfold set_zval. by destruct (lookup_lt_is_Some_2 (zvals s) z Hz) as [y ->]. Qed.

Lemma on_array_run {A} s z t (c : M table A) r t' : zvals s !! z = Some (ZArray t) -> c t = Ok (r, t') ->
  on_array z c s = Ok (r, with_zvals s (<[z := ZArray t']> (zvals s))).
Proof.
  intros Hz Hc. unfold on_array. rewrite Hz, Hc.
  rewrite (mbind_ok _ _ _ _ _ (set_zval_run s z _ (lookup_lt_Some _ _ _ Hz))). done.
Qed.
Lemma on_properties_run {A} s z t (c : M table A) r t' : zvals s !! z = Some (ZObject t) -> c t = Ok (r, t') ->
  on_properties z c s = Ok (r, with_zvals s (<[z := ZObject t']> (zvals s))).
Proof.
  intros Hz Hc. unfold on_properties. rewrite Hz, Hc.
  rewrite (mbind_ok _ _ _ _ _ (set_zval_run s z _ (lookup_lt_Some _ _ _ Hz))). done.
Qed.

Lemma add_next_run s f z t ents c :
  zvals s !! z = Some (holder f t) -> f_mode f = MODE_ARRAY -> tb t ents (Z.of_nat (length ents)) ->
  Z.of_nat (length ents) < LONG_MAX ->
  exists t', add_next_index_zval z c s = Ok (SUCCESS, with_zvals s (<[z := holder f t']> (zvals s))) /\
    tb t' (ents ++ [(KInt (Z.of_nat (length ents)), c)]) (Z.of_nat (length ents) + 1) /\
    KInt (Z.of_nat (length ents)) ∉ ents.*1.
Proof using Hp.
  intros Hz Hm Ht Hn. destruct (next_insert_tb Hp t ents c Ht Hn) as (p & t' & Hc & Ht' & Hno).
  exists t'. split; [|done]. unfold holder in *. rewrite Hm in *. cbn in *. unfold add_next_index_zval.
  eapply on_array_run; [exact Hz|]. by rewrite (mbind_ok _ _ _ _ _ Hc).
Qed.

Lemma add_member_run s f z t ents next (key : list byte) c :
  zvals s !! z = Some (holder f t) -> f_mode f <> MODE_ARRAY -> tb t ents next ->
  match member_key assoc key with
  | Some k => exists t' next', add_member assoc z key c s = Ok (tt, with_zvals s (<[z := holder f t']> (zvals s))) /\
      tb t' (kv_set k c ents) next'
  | None => add_member assoc z key c s = Err Bailout
  end.
Proof using Hp.
  intros Hz Hm Ht. unfold member_key, add_member, holder in *. rewrite (proj2 (Z.eqb_neq _ _) Hm) in *. cbn [orb] in *.
  destruct assoc; cbn [negb].
  - destruct (symtable_tb Hp t ents next key c Ht) as (p & t' & next' & Hc & Ht'). exists t', next'. split; [|done].
    unfold add_assoc_zval_ex. erewrite (mbind_ok _ _ s); [|eapply on_array_run; [exact Hz|by rewrite (mbind_ok _ _ _ _ _ Hc)]].
    done.
  - unfold add_property_zval_ex. set (name := if 0 <? Z.of_nat (length key) then key else empty_name).
    destruct name as [|b name]; [unfold on_properties; by rewrite Hz|].
    case_decide as Hb.
    + unfold on_properties. rewrite Hz. unfold zend_std_write_property, name_refused. by rewrite bool_decide_eq_true_2.
    + destruct (write_property_tb Hp t ents next b name c Ht Hb) as (t' & Hc & next' & Ht').
      exists t', next'. split; [|done]. by eapply on_properties_run.
Qed.

(** Storing under the key of the next entry, in whatever container. *)
Definition add_entry f z (key : list byte) c : M (pstate D) unit :=
  if f_mode f =? MODE_ARRAY then add_next_index_zval z c;; mret tt else add_member assoc z key c.

Lemma add_entry_run s l f z t ents next c :
  zvals s !! z = Some (holder f t) -> tb t ents next -> key s = l_key l ->
  length ents = length (f_entries f) -> Z.of_nat (length ents) < LONG_MAX ->
  (f_mode f = MODE_ARRAY -> next = Z.of_nat (length ents)) ->
  match entry_key assoc l f with
  | Some k => exists t' next', add_entry f z (key s) c s = Ok (tt, with_zvals s (<[z := holder f t']> (zvals s))) /\
      tb t' (kv_set k c ents) next' /\
      (f_mode f = MODE_ARRAY -> next' = Z.of_nat (length ents) + 1 /\ k = KInt (Z.of_nat (length ents)) /\ k ∉ ents.*1)
  | None => add_entry f z (key s) c s = Err Bailout
  end.
Proof using Hp.
  intros Hz Ht Hk Hl Hn Ha. unfold entry_key, add_entry. destruct (Z.eqb_spec (f_mode f) MODE_ARRAY) as [Hm|Hm].
  - rewrite (Ha Hm) in Ht. destruct (add_next_run s f z t ents c Hz Hm Ht Hn) as (t' & Hc & Ht' & Hno).
    rewrite <- Hl. exists t', (Z.of_nat (length ents) + 1). rewrite (mbind_ok _ _ _ _ _ Hc). split; [done|].
    unfold kv_set. rewrite (proj2 (kv_lookup_None _ _) Hno). done.
  - rewrite Hk. pose proof (add_member_run s f z t ents next (l_key l) c Hz Hm Ht) as Hrun.
    destruct (member_key assoc (l_key l)) as [k|]; [|done].
    destruct Hrun as (t' & next' & Hc & Ht'). exists t', next'. done.
Qed.

(** ** Characters within a token *)

Definition with_lexer s l : pstate D :=
  mkPs (set_state (l_state l) (jp s)) (zvals s) (l_buf l) (l_key l) (l_utf16 l) (l_type l).
Definition lexer_of s : lexer := Lex (state (jp s)) (buf s) (key s) (utf16 s) (type s).

Lemma related_lexer_of s (a : astate D) : related s a -> lexer_of s = lx a.
Proof. intros [? ? ? ? ? _ _ _ _ _ _ _ _ _ _]. destruct (lx a). cbn in *. unfold lexer_of. congruence. Qed.
Lemma related_with_lexer s (a : astate D) l : related s a -> related (with_lexer s l) (AState l (frames a) (root a)).
Proof.
  intros []. constructor; try done. cbn. eapply open_at_ext; [eassumption|done|done].
Qed.

Lemma string_char_run (c n : Z) s :
  string_char c n s = Ok (tt, with_lexer s (lex_string c n (lexer_of s))).
Proof.
  unfold string_char, lex_string. rewrite mbind_get. destruct s as [[st d t e k zk] zs b ky u ty].
  cbn [jp state lexer_of l_state buf utf16 l_buf l_utf16 key l_key type l_type]. cbv zeta.
  repeat match goal with |- (if ?b then _ else _) _ = _ => destruct b end; done.
Qed.
Lemma shift_char_run (c k n : Z) s :
  shift_char c k n s = Ok (true, with_lexer s (lex_char c k n (lexer_of s))).
Proof.
  unfold shift_char, lex_char. rewrite mbind_get. cbv zeta.
  change (l_type (lexer_of s)) with (type s). change (l_state (lexer_of s)) with (state (jp s)).
  change (l_buf (lexer_of s)) with (buf s).
  destruct (type s =? IS_STRING).
  { rewrite (mbind_ok _ _ _ _ _ (string_char_run c n s)). by destruct s as [[] ? ? ? ? ?]. }
  destruct s as [[st d t e stk zk] zs b ky u ty].
  repeat match goal with |- (_ ≫= _) _ = _ => progress cbn [type state jp buf negb] end.
  repeat match goal with |- ((if ?b then _ else _) ≫= _) _ = _ => destruct b end; done.
Qed.

(** Assignments to the local variables, and to the state as well. *)
Lemma related_enter s (a : astate D) st b k t : related s a ->
  related (mkPs (set_state st (jp s)) (zvals s) b k (utf16 s) t) (AState (Lex st b k (l_utf16 (lx a)) t) (frames a) (root a)).
Proof.
  intros HR. rewrite <- (rl_utf16 _ _ HR). exact (related_with_lexer s a (Lex st b k (utf16 s) t) HR).
Qed.
Lemma related_fields s (a : astate D) b k t : related s a ->
  related (mkPs (jp s) (zvals s) b k (utf16 s) t) (AState (Lex (l_state (lx a)) b k (l_utf16 (lx a)) t) (frames a) (root a)).
Proof.
  intros HR. pose proof (related_enter s a (l_state (lx a)) b k t HR) as HR'.
  replace (jp s) with (set_state (l_state (lx a)) (jp s)); [done|]. rewrite <- (rl_state _ _ HR). by destruct (jp s).
Qed.

Lemma related_enter_eq s (a : astate D) st b b' k k' t t' fs : related s a ->
  b = b' -> k = k' -> t = t' -> frames a = fs ->
  related (mkPs (set_state st (jp s)) (zvals s) b k (utf16 s) t) (AState (Lex st b' k' (l_utf16 (lx a)) t') fs (root a)).
Proof. intros HR <- <- <- <-. by apply related_enter. Qed.

(** ** The innermost container *)

Lemma open_focus s (a : astate D) f fs : related s a -> frames a = f :: fs ->
  exists z t ents next,
    top_zval s = Ok z /\ top_mode s = Ok (f_mode f) /\
    nth_cell (the_zstack (jp s)) (Z.of_nat (length (f :: fs))) = Ok (Some z) /\
    frame_at (zvals s) z (length (zvals s)) f None t ents next /\
    open_at (jp s) (zvals s) z (Some z) fs.
Proof.
  intros HR Hfs. pose proof (rl_open _ _ HR) as Ho. rewrite Hfs in Ho.
  destruct Ho as (z & t & ents & next & Hz & Hs & Hf & Ho). exists z, t, ents, next.
  unfold top_zval, zstack_at, top_mode, stack_at. rewrite (rl_top _ _ HR), Hfs. rewrite Hz, Hs. done.
Qed.
Lemma top_mode_run s (a : astate D) : related s a -> top_mode s = Ok (mode_of (frames a)).
Proof.
  intros HR. destruct (frames a) as [|f fs] eqn:Hfs.
  - unfold top_mode, stack_at. rewrite (rl_top _ _ HR), Hfs. apply (rl_done _ _ HR).
  - by destruct (open_focus s a f fs HR Hfs) as (z & t & ents & next & _ & Hm & _).
Qed.

(** ** Finishing a scalar *)

Lemma zval_of_scalar b ty x : zval_of zend_strtod b ty = Ok x -> is_scalar x.
Proof.
  unfold zval_of, long_or_double, first_char. intros H1.
  repeat match type of H1 with context [if ?c then _ else _] => destruct c | context [match ?m with _ => _ end] => destruct m end;
  cbn in H1; simplify_eq; done || (repeat case_match; done).
Qed.
Lemma create_run s x : zval_of zend_strtod (buf s) (type s) = Ok x ->
  json_create_zval zend_strtod s = Ok (length (zvals s), with_zvals s (zvals s ++ [x])).
Proof.
  intros Hx. unfold json_create_zval, ALLOC_INIT_ZVAL. rewrite !mbind_assoc, mbind_get, mbind_assoc.
  unfold set_zvals at 1. rewrite mbind_modify. rewrite mbind_ret, mbind_get.
  erewrite mbind_reading by exact Hx.
  erewrite mbind_ok; [|apply set_zval_run; cbn; rewrite length_app; cbn; lia].
  unfold mret, M_ret, with_zvals. cbn. by rewrite insert_app_r_alt, Nat.sub_diag by lia.
Qed.

(** A new cell [c] filed in the innermost container. *)
Lemma entry_related s (a : astate D) f fs z t ents next x k t' next' :
  related s a -> frames a = f :: fs ->
  nth_cell (the_zstack (jp s)) (Z.of_nat (length (f :: fs))) = Ok (Some z) ->
  frame_at (zvals s) z (length (zvals s)) f None t ents next ->
  open_at (jp s) (zvals s) z (Some z) fs -> is_scalar x ->
  tb t' (kv_set k (length (zvals s)) ents) next' ->
  (f_mode f = MODE_ARRAY -> next' = Z.of_nat (length ents) + 1 /\ k = KInt (Z.of_nat (length ents)) /\ k ∉ ents.*1) ->
  related (with_zvals s (<[z := holder f t']> (zvals s ++ [x]))) (AState (lx a) (put k (php_of x) f :: fs) (root a)).
Proof.
  intros HR Hfs Hz [F1 F2 F3 F4 F5 F6 F7] Ho Hx Ht' Harr.
  set (zs' := <[z := holder f t']> (zvals s ++ [x])).
  assert (Hlen : length zs' = S (length (zvals s))).
  { unfold zs'. rewrite length_insert, length_app. cbn. lia. }
  assert (Heq : forall i, (i < length (zvals s))%nat -> i <> z -> zs' !! i = zvals s !! i).
  { intros i Hi Hne. unfold zs'. rewrite list_lookup_insert_ne by done. by rewrite lookup_app_l. }
  destruct HR. rewrite Hfs in *. constructor; try done.
  - cbn. lia.
  - cbn [with_zvals jp zvals frames length open_at]. exists z, t', (kv_set k (length (zvals s)) ents), next'.
    split; [done|]. cbn [put f_mode]. rewrite Hlen. split_and!.
    + cbn [length] in *. cbn [open_at] in rl_open0. destruct rl_open0 as (? & ? & ? & ? & _ & Hm & _). exact Hm.
    + constructor; cbn [put f_mode f_entries f_child]; try done.
      * unfold zs'. rewrite list_lookup_insert_eq; [done|]. rewrite length_app. cbn. lia.
      * lia.
      * apply reps_set.
        -- eapply reps_ext; [exact F4|lia|lia|]. intros i Hi. apply Heq; lia.
        -- apply rep_scalar; [lia| |done]. unfold zs'. rewrite list_lookup_insert_ne by lia.
           by rewrite lookup_app_r, Nat.sub_diag by lia.
      * pose proof (kv_set_length k (length (zvals s)) ents). lia.
      * intros Hm. destruct (Harr Hm) as (-> & -> & Hno). unfold kv_set.
        rewrite (proj2 (kv_lookup_None _ _) Hno), length_app. cbn. split; [lia|]. by intros [? ?].
    + eapply open_at_ext; [exact Ho|done|]. intros i Hi. apply Heq; lia.
Qed.

(** ** Closing *)

Definition agrees (n : nat) (r : res (bool * pstate D)) (o : outcome D) : Prop :=
  match o with
  | Go a' => exists s', r = Ok (true, s') /\ related s' a' /\ (length (zvals s') <= n)%nat
  | Stop code => exists s', r = Ok (false, s') /\ error_code (jp s') = code
  | Fatal => r = Err Bailout
  end.

Lemma pop_run s (a : astate D) m : related s a ->
  with_jp (pop m) s =
    if mode_of (frames a) =? m
    then Ok (true, mkPs (set_top (Z.of_nat (length (frames a)) - 1) (jp s)) (zvals s) (buf s) (key s) (utf16 s) (type s))
    else Ok (false, mkPs (set_error_code PHP_JSON_ERROR_STATE_MISMATCH (jp s)) (zvals s) (buf s) (key s) (utf16 s) (type s)).
Proof.
  intros HR. pose proof (top_mode_run s a HR) as Hm. unfold top_mode, stack_at in Hm.
  unfold with_jp, pop. rewrite (rl_top _ _ HR) in *. rewrite (proj2 (Z.ltb_ge _ _)) by lia.
  rewrite (res_bind_ok _ _ _ Hm). by destruct (mode_of (frames a) =? m).
Qed.

(** The finished container as a value in the store. *)
Lemma container_rep zs z hi f t ents next : frame_at zs z hi f None t ents next ->
  forall lo, (lo <= z)%nat -> rep zs lo hi z (container assoc f).
Proof.
  intros [F1 F2 F3 F4 F5 F6 F7] lo Hlo. unfold container, holder in *.
  destruct (f_mode f =? MODE_ARRAY); cbn [orb] in F1; [by eapply rep_array|].
  destruct assoc; [by eapply rep_array|by eapply rep_object].
Qed.

Lemma parent_closed zs z c hi g t ents next v : frame_at zs z c g (Some c) t ents next ->
  rep zs (S z) hi c v -> (c < hi)%nat ->
  frame_at zs z hi (put (f_child g) v g) None t (kv_set (f_child g) c ents) next.
Proof.
  intros [F1 F2 F3 F4 F5 F6 F7] Hv Hc. constructor; cbn [put f_mode f_entries f_child]; try done.
  - lia.
  - apply reps_set; [|done]. eapply reps_ext; [exact F4|lia|lia|done].
  - pose proof (kv_set_length (f_child g) c ents). lia.
  - intros Hm. destruct (F7 Hm) as (-> & Hk). destruct (Hk ltac:(by eexists)) as [_ Hno]. unfold kv_set.
    rewrite (proj2 (kv_lookup_None _ _) Hno), length_app. rewrite bool_decide_true by by eexists.
    rewrite bool_decide_false by by intros [? ?]. cbn. split; [lia|]. by intros [? ?].
Qed.

Lemma close_run s (a : astate D) m : related s a -> m <> MODE_DONE ->
  agrees (length (zvals s)) ((ok ← with_jp (pop m); if negb ok then mret false else enter OK) s) (close assoc m a).
Proof.
  intros HR Hmd. unfold close. destruct (frames a) as [|f fs] eqn:Hfs.
  { unfold mbind at 1, M_bind at 1. rewrite (pop_run s a m HR), Hfs.
    rewrite (proj2 (Z.eqb_neq _ _)) by by apply not_eq_sym. eexists. done. }
  unfold mbind at 1, M_bind at 1. rewrite (pop_run s a m HR), Hfs. cbn [mode_of].
  destruct (f_mode f =? m); [|eexists; done]. cbn [negb].
  destruct (open_focus s a f fs HR Hfs) as (z & t & ents & next & _ & _ & Hz & Hf & Ho).
  pose proof (container_rep _ _ _ _ _ _ _ Hf) as Hv.
  pose proof (fa_below _ _ _ _ _ _ _ _ Hf) as Hb.
  set (s1 := mkPs (set_state OK (set_top (Z.of_nat (length (f :: fs)) - 1) (jp s))) (zvals s) (buf s) (key s) (utf16 s) (type s)).
  assert (Hs1 : forall st, enter st (mkPs (set_top (Z.of_nat (length (f :: fs)) - 1) (jp s)) (zvals s) (buf s) (key s) (utf16 s) (type s)) =
    Ok (true, mkPs (set_state st (jp s1)) (zvals s) (buf s) (key s) (utf16 s) (type s))) by done.
  rewrite Hs1. destruct HR. rewrite Hfs in *.
  destruct fs as [|g gs]; cbn [length] in *.
  - cbn in Ho. subst z. eexists. split; [done|]. split; [|cbn; lia].
    constructor; try done; cbn; try lia. intros _. apply Hv. lia.
  - eexists. split; [done|]. split; [|cbn; lia].
    constructor; try done; cbn [jp frames set_state set_top top zvals length]; try (unfold s1; cbn; lia).
    destruct Ho as (z' & t' & ents' & next' & Hz' & Hst' & Hf' & Ho').
    cbn [open_at]. exists z', t', (kv_set (f_child g) z ents'), next'. split; [exact Hz'|]. split; [exact Hst'|].
    pose proof (fa_below _ _ _ _ _ _ _ _ Hf'). split.
    + eapply parent_closed; [exact Hf'|apply Hv; lia|lia].
    + by eapply open_at_ext; [exact Ho'|..].
Qed.

(** ** The pending scalar *)

(** What the token stands for can be computed. *)
Definition token_ok l : Prop := exists x, zval_of zend_strtod (l_buf l) (l_type l) = Ok x.
Definition room s : Prop := Z.of_nat (length (zvals s)) < LONG_MAX.

Lemma token_value_of l x : zval_of zend_strtod (l_buf l) (l_type l) = Ok x ->
  token_value zend_strtod l = php_of x.
Proof. intros Hx. unfold token_value. by rewrite Hx. Qed.

Lemma flush_run s (a : astate D) f fs :
  related s a -> frames a = f :: fs -> token_ok (lx a) -> room s ->
  exists z s1, json_create_zval zend_strtod s = Ok (length (zvals s), s1) /\
    top_zval s1 = Ok z /\ key s1 = key s /\
    match entry_key assoc (lx a) f with
    | Some k => exists s2, add_entry f z (key s) (length (zvals s)) s1 = Ok (tt, s2) /\
        related s2 (AState (lx a) (put k (token_value zend_strtod (lx a)) f :: fs) (root a)) /\
        length (zvals s2) = S (length (zvals s))
    | None => add_entry f z (key s) (length (zvals s)) s1 = Err Bailout
    end.
Proof using Hp.
  intros HR Hfs [x Hx] Hroom. unfold room in Hroom.
  destruct (open_focus s a f fs HR Hfs) as (z & t & ents & next & Htz & _ & Hz & Hf & Ho).
  assert (Hx' : zval_of zend_strtod (buf s) (type s) = Ok x) by (by rewrite (rl_buf _ _ HR), (rl_type _ _ HR)).
  set (s1 := with_zvals s (zvals s ++ [x])).
  exists z, s1. split; [by apply create_run|]. split; [exact Htz|]. split; [done|].
  pose proof (fa_few _ _ _ _ _ _ _ _ Hf) as Hfew.
  pose proof (lookup_app_l_Some _ [x] _ _ (fa_cell _ _ _ _ _ _ _ _ Hf)) as Hcell.
  pose proof (add_entry_run s1 (lx a) f z t ents next (length (zvals s)) Hcell
    (fa_table _ _ _ _ _ _ _ _ Hf) (rl_key _ _ HR) (reps_length _ _ _ _ _ (fa_reps _ _ _ _ _ _ _ _ Hf))
    ltac:(lia)) as Hrun.
  destruct (entry_key assoc (lx a) f) as [k|].
  - destruct Hrun as (t' & next' & Hadd & Ht' & Harr).
    { intros Hm. destruct (fa_array _ _ _ _ _ _ _ _ Hf Hm) as [-> _]. rewrite bool_decide_false by by intros [? ?]. simpl. lia. }
    eexists. split; [exact Hadd|]. rewrite (token_value_of _ _ Hx). split.
    + exact (entry_related s a f fs z t ents next x k t' next' HR Hfs Hz Hf Ho (zval_of_scalar _ _ _ Hx') Ht' Harr).
    + cbn. rewrite length_insert, length_app. cbn. lia.
  - apply Hrun. intros Hm. destruct (fa_array _ _ _ _ _ _ _ _ Hf Hm) as [-> _].
    rewrite bool_decide_false by by intros [? ?]. simpl. lia.
Qed.

(** ** } and ] *)

Lemma agrees_mono n n' r o : agrees n r o -> (n <= n')%nat -> agrees n' r o.
Proof. destruct o; cbn; [|done|done]. intros (s' & ? & ? & ?) ?. exists s'. split_and!; [done|done|lia]. Qed.

Lemma end_object_run s (a : astate D) :
  related s a -> (l_type (lx a) <> -1 -> token_ok (lx a)) -> room s ->
  agrees (S (length (zvals s))) (end_object zend_strtod assoc s) (abs_end zend_strtod assoc MODE_OBJECT a).
Proof using Hp.
  intros HR Htok Hroom. unfold end_object, abs_end. rewrite mbind_get, <- (rl_type _ _ HR).
  destruct (Z.eqb_spec (type s) (-1)) as [Ht|Ht]; cbn [negb andb].
  { rewrite mbind_ret. eapply agrees_mono; [by apply close_run|lia]. }
  unfold mbind at 3, M_bind at 3. rewrite mbind_assoc.
  rewrite (mbind_reading _ _ _ _ (top_mode_run s a HR)), mbind_ret.
  destruct (mode_of (frames a) =? MODE_OBJECT) eqn:Hm; cycle 1.
  { rewrite mbind_ret. eapply agrees_mono; [by apply close_run|lia]. }
  destruct (frames a) as [|f fs] eqn:Hfs; [done|]. cbn [mode_of] in Hm. apply Z.eqb_eq in Hm.
  rewrite (rl_type _ _ HR) in Ht. unfold flush. rewrite Hfs.
  destruct (flush_run s a f fs HR Hfs (Htok Ht) Hroom) as (z & s1 & Hc & Hz & Hk & Hadd).
  rewrite mbind_assoc, (mbind_ok _ _ _ _ _ Hc), mbind_assoc, (mbind_reading _ _ _ _ Hz), mbind_assoc, mbind_get, Hk.
  unfold add_entry in Hadd. rewrite Hm in Hadd |- *. cbn [Z.eqb] in Hadd. change (_ =? MODE_ARRAY) with false in *.
  cbv iota in Hadd. rewrite mbind_assoc.
  destruct (entry_key assoc (lx a) f) as [k|]; cycle 1.
  { unfold mbind at 1, M_bind at 1. by rewrite Hadd. }
  destruct Hadd as (s2 & Hadd & HR2 & Hl). rewrite (mbind_ok _ _ _ _ _ Hadd).
  cbv beta iota. rewrite !mbind_assoc. unfold set_key, set_buf, JSON_RESET_TYPE, set_type.
  rewrite mbind_modify, mbind_assoc, mbind_modify, mbind_modify.
  set (s3 := mkPs _ _ _ _ _ _).
  pose proof (related_fields _ _ [] [] (-1) HR2) as HR3.
  eapply agrees_mono; [by apply close_run|]. cbn. lia.
Qed.

Lemma end_array_run s (a : astate D) :
  related s a -> (l_type (lx a) <> -1 -> token_ok (lx a)) -> room s ->
  agrees (S (length (zvals s))) (end_array zend_strtod s) (abs_end zend_strtod assoc MODE_ARRAY a).
Proof using Hp.
  intros HR Htok Hroom. unfold end_array, abs_end. rewrite mbind_get, <- (rl_type _ _ HR).
  destruct (Z.eqb_spec (type s) (-1)) as [Ht|Ht]; cbn [negb andb].
  { rewrite mbind_ret. eapply agrees_mono; [by apply close_run|lia]. }
  unfold mbind at 3, M_bind at 3. rewrite mbind_assoc.
  rewrite (mbind_reading _ _ _ _ (top_mode_run s a HR)), mbind_ret.
  destruct (mode_of (frames a) =? MODE_ARRAY) eqn:Hm; cycle 1.
  { rewrite mbind_ret. eapply agrees_mono; [by apply close_run|lia]. }
  destruct (frames a) as [|f fs] eqn:Hfs; [done|]. cbn [mode_of] in Hm. apply Z.eqb_eq in Hm.
  rewrite (rl_type _ _ HR) in Ht. unfold flush. rewrite Hfs.
  destruct (flush_run s a f fs HR Hfs (Htok Ht) Hroom) as (z & s1 & Hc & Hz & _ & Hadd).
  rewrite mbind_assoc, (mbind_ok _ _ _ _ _ Hc), mbind_assoc, (mbind_reading _ _ _ _ Hz), mbind_assoc.
  unfold add_entry, entry_key in Hadd |- *. rewrite Hm in Hadd |- *. change (MODE_ARRAY =? MODE_ARRAY) with true in *. cbv iota in Hadd |- *.
  destruct Hadd as (s2 & Hadd & HR2 & Hl).
  unfold mbind at 1, M_bind at 1 in Hadd. unfold mbind at 1, M_bind at 1.
  destruct (add_next_index_zval z (length (zvals s)) s1) as [[r s2']|]; [|done].
  injection Hadd as <-. rewrite !mbind_assoc. unfold set_buf, JSON_RESET_TYPE, set_type.
  rewrite mbind_modify, mbind_modify.
  pose proof (related_fields _ _ [] (l_key (lx a)) (-1) HR2) as HR3.
  pose proof (rl_key _ _ HR2) as Hk. cbn [lx] in Hk. rewrite Hk.
  eapply agrees_mono; [exact (close_run _ _ MODE_ARRAY HR3 ltac:(done))|cbn; lia].
Qed.

(** ** The mode of the innermost container *)

Lemma mode_switch_run s (a : astate D) f fs m : related s a -> frames a = f :: fs ->
  (f_mode f = MODE_KEY \/ f_mode f = MODE_OBJECT) -> (m = MODE_KEY \/ m = MODE_OBJECT) ->
  exists j, (ok ← with_jp (pop (f_mode f)); if (ok : bool) then with_jp (push m) else mret false) s =
      Ok (true, mkPs j (zvals s) (buf s) (key s) (utf16 s) (type s)) /\
    state j = state (jp s) /\ top j = top (jp s) /\ the_zstack j = the_zstack (jp s) /\
    related (mkPs j (zvals s) (buf s) (key s) (utf16 s) (type s)) (AState (lx a) (with_mode m f :: fs) (root a)).
Proof.
  intros HR Hfs Hf Hm. unfold mbind at 1, M_bind at 1. rewrite (pop_run s a _ HR), Hfs. cbn [mode_of].
  rewrite Z.eqb_refl. unfold with_jp, push. cbn [jp top set_top depth stack length].
  pose proof (open_focus s a f fs HR Hfs) as (z & t & ents & next & _ & _ & Hz & Hfr & Ho).
  destruct HR. rewrite Hfs in *. cbn [length] in *. rewrite Z.sub_add, rl_depth0, (proj2 (Z.leb_gt _ _)) by lia.
  rewrite set_nth_cell_ok by lia. eexists. split; [done|]. split; [done|]. split; [by rewrite rl_top0|]. split; [done|].
  constructor; try done; cbn [set_stack set_top stack jp frames].
  - by rewrite length_insert.
  - by apply (nth_cell_insert_ne _ (S (length fs)) 0); [lia|].
  - cbn [open_at length zvals]. exists z, t, ents, next. split; [exact Hz|].
    split; [cbn; apply nth_cell_insert; lia|]. split.
    + destruct Hfr as [F1 F2 F3 F4 F5 F6 F7]. constructor; try done.
      * unfold holder in *. cbn [with_mode f_mode]. rewrite F1.
        destruct Hf as [-> | ->], Hm as [-> | ->]; done.
      * cbn [with_mode f_mode]. unfold frame_mode. tauto.
      * cbn [with_mode f_mode]. destruct Hm as [-> | ->]; done.
    + eapply open_at_ext; [exact Ho|..|done]. intros n Hn. split; [done|]. cbn.
      by rewrite list_lookup_insert_ne by lia.
Qed.

Lemma colon_run s (a : astate D) : related s a ->
  agrees (length (zvals s)) (colon s) (abs_colon a).
Proof.
  intros HR. unfold colon, abs_colon. destruct (frames a) as [|f fs] eqn:Hfs.
  - unfold mbind, M_bind. rewrite (pop_run s a _ HR), Hfs. cbn. by eexists.
  - destruct (Z.eqb_spec (f_mode f) MODE_KEY) as [Hm|Hm].
    + destruct (mode_switch_run s a f fs MODE_OBJECT HR Hfs ltac:(by left) ltac:(by right)) as (j & Hj & Hst & _ & _ & HR').
      rewrite Hm in Hj. unfold mbind at 1, M_bind at 1. rewrite Hj. eexists. split; [done|]. split; [|done].
      pose proof (related_enter _ _ VA (buf s) (key s) (type s) HR') as HR2. cbn in HR2.
      rewrite (rl_buf _ _ HR), (rl_key _ _ HR), (rl_type _ _ HR) in HR2 |- *. exact HR2.
    + unfold mbind, M_bind. rewrite (pop_run s a _ HR), Hfs. cbn [mode_of].
      rewrite (proj2 (Z.eqb_neq _ _) Hm). by eexists.
Qed.

(** ** The closing quote *)

Lemma quote_run s (a : astate D) : related s a ->
  agrees (length (zvals s)) (end_string 0%nat s) (abs_quote a).
Proof.
  intros HR. unfold end_string, abs_quote. rewrite (mbind_reading _ _ _ _ (top_mode_run s a HR)), mbind_get.
  destruct (mode_of (frames a) =? MODE_KEY).
  { eexists. split; [done|]. split; [|done].
    by apply (related_enter_eq s a CO); [..|apply (rl_buf _ _ HR)| |]. }
  destruct ((_ =? MODE_ARRAY) || _).
  { eexists. split; [done|]. split; [|done].
    by apply (related_enter_eq s a OK); [|apply (rl_buf _ _ HR)|apply (rl_key _ _ HR)|apply (rl_type _ _ HR)|]. }
  rewrite (rl_type _ _ HR). destruct ((mode_of _ =? MODE_DONE) && _) eqn:Hm; [|by eexists].
  apply andb_true_iff in Hm as [Hm _]. apply Z.eqb_eq in Hm.
  assert (Hfs : frames a = []).
  { destruct (frames a) as [|f fs] eqn:Hfs; [done|]. exfalso. cbn in Hm.
    destruct (open_focus s a f fs HR Hfs) as (z & t & ents & next & _ & _ & _ & Hf & _).
    pose proof (fa_mode _ _ _ _ _ _ _ _ Hf) as Hmm. rewrite Hm in Hmm. by destruct Hmm as [?|[?|?]]. }
  rewrite (mbind_ok _ _ _ _ _ (set_zval_run s 0%nat _ (rl_store _ _ HR))).
  eexists. split; [done|]. split; [|cbn; rewrite length_insert; lia].
  pose proof (rl_store _ _ HR) as Hpos. destruct HR. constructor; try done; cbn.
  - by rewrite length_insert.
  - rewrite Hfs. done.
  - intros _. rewrite length_insert, rl_buf0. apply (rep_scalar _ _ _ _ (ZString _)); [lia| |done].
    by rewrite list_lookup_insert_eq.
Qed.

(** ** , *)

Lemma entry_key_mode l f m : f_mode f <> MODE_ARRAY -> m <> MODE_ARRAY ->
  entry_key assoc l (with_mode m f) = entry_key assoc l f.
Proof. intros H1 H2. unfold entry_key. cbn. by rewrite !(proj2 (Z.eqb_neq _ _)). Qed.

Lemma comma_array_run s (a : astate D) f fs :
  related s a -> frames a = f :: fs -> f_mode f = MODE_ARRAY -> (l_type (lx a) <> -1 -> token_ok (lx a)) -> room s ->
  agrees (S (length (zvals s))) (comma zend_strtod assoc s) (abs_comma zend_strtod assoc a).
Proof using Hp.
  intros HR Hfs Hm Htok Hroom. unfold comma, abs_comma. rewrite mbind_get.
  rewrite (mbind_reading _ _ _ _ (top_mode_run s a HR)), Hfs. cbn [mode_of]. rewrite Hm.
  change (MODE_ARRAY =? MODE_OBJECT) with false. change (MODE_ARRAY =? MODE_ARRAY) with true. cbv iota.
  cbn [orb]. rewrite <- (rl_type _ _ HR).
  destruct (Z.eqb_spec (type s) (-1)) as [Ht|Ht]; cbn [negb andb].
  { rewrite mbind_ret, mbind_ret. eexists. split; [done|]. split; [|cbn; lia]. cbn [frames lx root].
    by apply (related_enter_eq s a VA); [| |apply (rl_key _ _ HR)| |]. }
  rewrite (rl_type _ _ HR) in Ht. unfold flush. rewrite Hfs.
  destruct (flush_run s a f fs HR Hfs (Htok Ht) Hroom) as (z & s1 & Hc & Hz & _ & Hadd).
  rewrite mbind_assoc, (mbind_ok _ _ _ _ _ Hc), mbind_ret, mbind_assoc, (mbind_reading _ _ _ _ Hz).
  unfold add_entry, entry_key in Hadd |- *. rewrite Hm in Hadd |- *.
  change (MODE_ARRAY =? MODE_ARRAY) with true in *. cbv iota in Hadd |- *.
  destruct Hadd as (s2 & Hadd & HR2 & Hl). rewrite (mbind_ok _ _ _ _ _ Hadd).
  eexists. split; [done|]. cbn [frames lx root]. split; [|cbn; lia].
  by apply (related_enter_eq _ _ VA _ _ _ _ _ _ _ HR2); [|apply (rl_key _ _ HR2)| |].
Qed.

Lemma comma_object_run s (a : astate D) f fs :
  related s a -> frames a = f :: fs -> f_mode f = MODE_OBJECT -> (l_type (lx a) <> -1 -> token_ok (lx a)) -> room s ->
  agrees (S (length (zvals s))) (comma zend_strtod assoc s) (abs_comma zend_strtod assoc a).
Proof using Hp.
  intros HR Hfs Hm Htok Hroom. unfold comma, abs_comma. rewrite mbind_get.
  rewrite (mbind_reading _ _ _ _ (top_mode_run s a HR)), Hfs. cbn [mode_of].
  destruct (mode_switch_run s a f fs MODE_KEY HR Hfs ltac:(by right) ltac:(by left)) as (j & Hj & Hst & Htop & Hzs & HR').
  rewrite Hm in *. change (MODE_OBJECT =? MODE_OBJECT) with true. cbv iota. cbn [orb]. rewrite <- (rl_type _ _ HR).
  destruct (Z.eqb_spec (type s) (-1)) as [Ht|Ht]; cbn [negb andb].
  { rewrite mbind_ret, (mbind_ok _ _ _ _ _ Hj), mbind_assoc, mbind_ret.
    eexists. split; [done|]. split; [|cbn; lia]. cbn [frames lx root].
    by apply (related_enter_eq _ _ KE _ _ _ _ _ _ _ HR'); [|apply (rl_key _ _ HR)| |]. }
  rewrite (rl_type _ _ HR) in Ht. unfold flush. rewrite Hfs.
  set (s' := mkPs j (zvals s) (buf s) (key s) (utf16 s) (type s)) in *.
  destruct (flush_run s' _ (with_mode MODE_KEY f) fs HR' eq_refl (Htok Ht) Hroom) as (z & s1 & Hc & Hz & Hk & Hadd).
  assert (Hc' : exists x, json_create_zval zend_strtod s = Ok (length (zvals s), with_zvals s (zvals s ++ [x])) /\
    s1 = with_zvals s' (zvals s ++ [x])).
  { destruct (Htok Ht) as [x Hx]. exists x.
    assert (Hx1 : zval_of zend_strtod (buf s) (type s) = Ok x) by (by rewrite (rl_buf _ _ HR), (rl_type _ _ HR)).
    split; [by apply create_run|]. rewrite (create_run s' x Hx1) in Hc. by injection Hc as <-. }
  destruct Hc' as (x & Hc' & Hs1).
  rewrite mbind_assoc, (mbind_ok _ _ _ _ _ Hc'), mbind_ret.
  assert (Hj' : (ok ← with_jp (pop MODE_OBJECT); if (ok : bool) then with_jp (push MODE_KEY) else mret false)
    (with_zvals s (zvals s ++ [x])) = Ok (true, s1)).
  { subst s1. revert Hj. unfold mbind, M_bind, with_jp. cbn [with_zvals jp zvals buf key utf16 type].
    destruct (pop MODE_OBJECT (jp s)) as [[[] j1]|]; cbn [jp]; [|done|done].
    destruct (push MODE_KEY j1) as [[b j2]|]; [|done]. intros [= -> ->]. done. }
  rewrite (mbind_ok _ _ _ _ _ Hj'), mbind_assoc, mbind_assoc, (mbind_reading _ _ _ _ Hz), mbind_assoc, mbind_get.
  rewrite mbind_assoc, Hk. unfold add_entry in Hadd. cbn [with_mode f_mode] in Hadd.
  change (MODE_KEY =? MODE_ARRAY) with false in Hadd. cbv iota in Hadd. cbn [lx] in Hadd.
  rewrite entry_key_mode in Hadd by (by rewrite ?Hm).
  change (key s') with (key s) in *. change (zvals s') with (zvals s) in *.
  destruct (entry_key assoc (lx a) f) as [k|]; cycle 1.
  { unfold mbind at 1, M_bind at 1. by rewrite Hadd. }
  destruct Hadd as (s2 & Hadd & HR2 & Hl). rewrite (mbind_ok _ _ _ _ _ Hadd).
  rewrite Hm. change (MODE_OBJECT =? MODE_ARRAY) with false. cbv iota.
  eexists. split; [done|]. cbn [frames lx root]. split; [|cbn; lia].
  exact (related_enter _ _ KE [] [] (-1) HR2).
Qed.

Lemma comma_run s (a : astate D) :
  related s a -> (l_type (lx a) <> -1 -> token_ok (lx a)) -> room s ->
  agrees (S (length (zvals s))) (comma zend_strtod assoc s) (abs_comma zend_strtod assoc a).
Proof using Hp.
  intros HR Htok Hroom. destruct (frames a) as [|f fs] eqn:Hfs.
  - unfold comma, abs_comma. rewrite mbind_get, (mbind_reading _ _ _ _ (top_mode_run s a HR)), Hfs.
    cbn [mode_of]. change (MODE_DONE =? MODE_OBJECT) with false. change (MODE_DONE =? MODE_ARRAY) with false.
    rewrite andb_false_r. cbn [orb]. rewrite mbind_ret. by eexists.
  - destruct (open_focus s a f fs HR Hfs) as (z & t & ents & next & _ & _ & _ & Hf & _).
    destruct (fa_mode _ _ _ _ _ _ _ _ Hf) as [Hm|[Hm|Hm]]; [by eapply comma_array_run| |by eapply comma_object_run].
    unfold comma, abs_comma. rewrite mbind_get, (mbind_reading _ _ _ _ (top_mode_run s a HR)), Hfs.
    cbn [mode_of]. rewrite Hm. change (MODE_KEY =? MODE_OBJECT) with false. change (MODE_KEY =? MODE_ARRAY) with false.
    rewrite andb_false_r. cbn [orb]. rewrite mbind_ret. by eexists.
Qed.

(** ** { and [ *)

Definition begin_with (m st : Z) (init : zaddr -> M (pstate D) unit) : M (pstate D) bool :=
  ok ← with_jp (push m);
  if negb ok then mret false else upd_jp (set_state st);; open_zval 0%nat init assoc;; mret true.

Lemma push_run s (a : astate D) m : related s a ->
  let n := S (length (frames a)) in
  with_jp (push m) s =
    if max_depth <=? Z.of_nat n
    then Ok (false, mkPs (set_error_code PHP_JSON_ERROR_DEPTH (set_top (Z.of_nat n) (jp s)))
                     (zvals s) (buf s) (key s) (utf16 s) (type s))
    else Ok (true, mkPs (set_stack (<[n := m]> (stack (jp s))) (set_top (Z.of_nat n) (jp s)))
                    (zvals s) (buf s) (key s) (utf16 s) (type s)).
Proof.
  intros HR n. unfold with_jp, push. cbn [jp top set_top depth stack].
  rewrite (rl_depth _ _ HR), (rl_top _ _ HR). replace (Z.of_nat (length (frames a)) + 1) with (Z.of_nat n) by lia.
  destruct (Z.leb_spec max_depth (Z.of_nat n)); [done|].
  pose proof (rl_stack _ _ HR). by rewrite set_nth_cell_ok by lia.
Qed.

Lemma attach_run s f z c up cur : zstack_at up s = Ok z -> zstack_at cur s = Ok c ->
  stack_at up s = Ok (f_mode f) -> frame_mode (f_mode f) -> f_mode f <> MODE_KEY ->
  attach_zval up cur assoc s =
    match add_entry f z (key s) c s with
    | Ok (_, s2) => Ok (tt, if f_mode f =? MODE_ARRAY then s2
                            else mkPs (jp s2) (zvals s2) (buf s2) [] (utf16 s2) (type s2))
    | Err e => Err e
    end.
Proof.
  intros Hz Hc Hs Hm Hk. unfold attach_zval.
  rewrite (mbind_reading _ _ _ _ Hz), (mbind_reading _ _ _ _ Hc), (mbind_reading _ _ _ _ Hs).
  unfold add_entry. destruct Hm as [Hm|[Hm|Hm]]; [|done|]; rewrite Hm.
  - change (MODE_ARRAY =? MODE_ARRAY) with true. cbv iota. unfold mbind, M_bind.
    by destruct (add_next_index_zval z c s) as [[r s2]|].
  - change (MODE_OBJECT =? MODE_ARRAY) with false. change (MODE_OBJECT =? MODE_OBJECT) with true. cbv iota.
    rewrite mbind_get. unfold mbind, M_bind. by destruct (add_member assoc z (key s) c s) as [[r s2]|].
Qed.

Section Begin.
Context (s : pstate D) (a : astate D) (m st : Z) (HR : related s a).
Context (Hm : frame_mode m) (Hroom : room s).
Context (Hdeep : Z.of_nat (S (length (frames a))) < max_depth).

Notation new := (Frame m [] (KInt 0)).
Notation n := (S (length (frames a))).

(** The parser with the new mode pushed and its container's address noted. *)
Definition opened z : JSON_parser_struct :=
  set_the_zstack (<[n := Some z]> (the_zstack (jp s)))
    (set_state st (set_stack (<[n := m]> (stack (jp s))) (set_top (Z.of_nat n) (jp s)))).

Lemma opened_fields z zs b k t (a' : astate D) :
  frames a' = new :: frames a \/ (exists f fs h, frames a = f :: fs /\ frames a' = new :: Frame (f_mode f) (f_entries f) h :: fs) ->
  lx a' = Lex st b k (l_utf16 (lx a)) t -> (0 < length zs)%nat ->
  open_at (opened z) zs (length zs) None (frames a') ->
  related (mkPs (opened z) zs b k (utf16 s) t) a'.
Proof using HR Hdeep.
  intros Hfr Hl Hpos Ho. assert (Hlen : length (frames a') = n).
  { destruct Hfr as [-> |(f & fs & h & -> & ->)]; done. }
  assert (Hne : frames a' <> []) by (by destruct (frames a')).
  destruct HR. constructor; rewrite ?Hl; try done; cbn; rewrite ?length_insert, ?Hlen; try done.
  apply (nth_cell_insert_ne _ n 0); [lia|done].
Qed.

Lemma new_frame_at z zs : zs !! z = Some (holder new new_table) ->
  frame_at zs z (length zs) new None new_table [] 0.
Proof using Hp Hm.
  intros Hz. clear Hdeep. constructor; cbn; try done.
  - by apply lookup_lt_Some in Hz.
  - by apply new_table_tb.
  - constructor.
  - lia.
Qed.

Lemma opened_cells z : nth_cell (the_zstack (opened z)) (Z.of_nat n) = Ok (Some z) /\
  nth_cell (stack (opened z)) (Z.of_nat n) = Ok m.
Proof using HR Hdeep.
  pose proof (rl_stack _ _ HR). pose proof (rl_zstack _ _ HR).
  split; cbn [opened the_zstack stack set_the_zstack set_state set_stack]; apply nth_cell_insert; lia.
Qed.
Lemma opened_below z i : (i < n)%nat ->
  the_zstack (opened z) !! i = the_zstack (jp s) !! i /\ stack (opened z) !! i = stack (jp s) !! i.
Proof. intros Hi. clear Hdeep. cbn. by rewrite !list_lookup_insert_ne by lia. Qed.

Lemma begin_outermost init : frames a = [] -> (forall z, init z = set_zval z (holder new new_table)) ->
  agrees (S (length (zvals s))) (begin_with m st init s) (abs_begin assoc max_depth m st a).
Proof using Hp HR Hm Hdeep.
  intros Hfs Hinit.
  pose proof (opened_fields 0%nat (<[0%nat := holder new new_table]> (zvals s)) (l_buf (lx a)) (l_key (lx a)) (-1)
    (AState (Lex st (l_buf (lx a)) (l_key (lx a)) (l_utf16 (lx a)) (-1)) [new] (root a))) as Hof.
  destruct (opened_cells 0%nat) as [Hz Hst]. unfold opened in *. rewrite Hfs in Hof, Hz, Hst. cbn [length] in Hof, Hz, Hst.
  assert (Hd : 1 < max_depth) by (rewrite Hfs in Hdeep; exact Hdeep).
  unfold begin_with, abs_begin, mbind at 1, M_bind at 1. rewrite (push_run s a m HR).
  rewrite Hfs. cbn [length negb]. rewrite !(proj2 (Z.leb_gt _ _)) by lia. cbn [negb].
  unfold upd_jp. rewrite mbind_modify. unfold open_zval. rewrite mbind_assoc, mbind_get.
  cbn [jp set_state set_stack set_top top]. change (0 <? Z.of_nat 1) with true. change (Z.of_nat 1 =? 1) with true.
  change (1 <? Z.of_nat 1) with false. cbv iota. rewrite mbind_assoc, mbind_ret, mbind_assoc, Hinit.
  erewrite mbind_ok; [|apply set_zval_run; apply (rl_store _ _ HR)].
  unfold set_zstack_at. rewrite !mbind_assoc, mbind_get, mbind_assoc.
  pose proof (rl_zstack _ _ HR) as Hzs.
  erewrite mbind_reading; [|cbn; apply (set_nth_cell_ok _ 1); lia].
  unfold upd_jp. rewrite mbind_modify, mbind_assoc, mbind_ret. unfold JSON_RESET_TYPE, set_type. rewrite mbind_modify.
  eexists. split; [done|]. split; [|cbn; rewrite length_insert; lia].
  rewrite <- (rl_buf _ _ HR), <- (rl_key _ _ HR) in Hof |- *. apply Hof; clear Hof.
  - by left.
  - done.
  - rewrite length_insert. apply (rl_store _ _ HR).
  - exists 0%nat, new_table, [], 0. split; [exact Hz|]. split; [exact Hst|]. split; [|done].
    apply new_frame_at. apply list_lookup_insert_eq. apply (rl_store _ _ HR).
Qed.

(** Within another container, the new one is attached at once. *)
Notation c := (length (zvals s)).
Notation zs1 := (zvals s ++ [holder new new_table]).
Definition unattached : pstate D := mkPs (opened c) zs1 (buf s) (key s) (utf16 s) (type s).

Lemma begin_inner_opens init f fs : frames a = f :: fs -> (forall z, init z = set_zval z (holder new new_table)) ->
  begin_with m st init s =
    (attach_zval (Z.of_nat n - 1) (Z.of_nat n) assoc;; JSON_RESET_TYPE;; mret true) unattached.
Proof using HR Hdeep.
  intros Hfs Hinit. unfold unattached, opened, begin_with, mbind at 1, M_bind at 1. rewrite (push_run s a m HR).
  rewrite (proj2 (Z.leb_gt _ _)) by lia. cbn [negb].
  unfold upd_jp at 1. rewrite mbind_modify. unfold open_zval. rewrite mbind_assoc, mbind_get.
  cbn [jp set_state set_stack set_top top]. rewrite (proj2 (Z.ltb_lt 0 _)) by lia.
  rewrite Hfs in *. cbn [length] in *. rewrite (proj2 (Z.eqb_neq _ 1)), (proj2 (Z.ltb_lt 1 _)) by lia.
  unfold ALLOC_INIT_ZVAL. rewrite !mbind_assoc, mbind_get, mbind_assoc. unfold set_zvals at 1. rewrite mbind_modify.
  cbn [zvals jp buf key utf16 type]. rewrite mbind_ret, mbind_assoc, Hinit.
  erewrite mbind_ok; [|apply set_zval_run; cbn; rewrite length_app; cbn; lia].
  unfold with_zvals. cbn [zvals jp buf key utf16 type]. rewrite insert_app_r_alt, Nat.sub_diag by lia. cbn [insert list_insert].
  unfold set_zstack_at. rewrite !mbind_assoc, mbind_get, mbind_assoc. pose proof (rl_zstack _ _ HR) as Hzs.
  erewrite mbind_reading; [|cbn; apply (set_nth_cell_ok _ (S (S (length fs)))); lia].
  unfold upd_jp. rewrite mbind_modify. cbn [zvals jp buf key utf16 type]. rewrite mbind_assoc. done.
Qed.

(** The cells [attach_zval] reads. *)
Lemma unattached_cells f fs z : frames a = f :: fs ->
  nth_cell (the_zstack (jp s)) (Z.of_nat (length (frames a))) = Ok (Some z) ->
  nth_cell (stack (jp s)) (Z.of_nat (length (frames a))) = Ok (f_mode f) ->
  zstack_at (Z.of_nat n - 1) unattached = Ok z /\ zstack_at (Z.of_nat n) unattached = Ok c /\
  stack_at (Z.of_nat n - 1) unattached = Ok (f_mode f).
Proof using HR Hdeep.
  intros Hfs Hz Hst. replace (Z.of_nat n - 1) with (Z.of_nat (length (frames a))) by lia.
  destruct (opened_cells c) as [Hz' _]. pose proof (opened_below c (length (frames a)) ltac:(lia)) as [Hb1 Hb2].
  split_and!; unfold zstack_at, stack_at; cbn [unattached jp].
  - rewrite (res_bind_ok _ _ (Some z)); [done|]. apply nth_cell_lookup. rewrite Hb1. by apply nth_cell_lookup.
  - by rewrite (res_bind_ok _ _ _ Hz').
  - apply nth_cell_lookup. rewrite Hb2. by apply nth_cell_lookup.
Qed.

(** The new container filed under [k] in the one around it. *)
Lemma inner_related f fs z t t' ents next next' k b (ky : list byte) : frames a = f :: fs ->
  nth_cell (the_zstack (jp s)) (Z.of_nat (length (frames a))) = Ok (Some z) ->
  nth_cell (stack (jp s)) (Z.of_nat (length (frames a))) = Ok (f_mode f) ->
  frame_at (zvals s) z c f None t ents next -> open_at (jp s) (zvals s) z (Some z) fs ->
  tb t' (kv_set k c ents) next' ->
  (f_mode f = MODE_ARRAY -> next' = Z.of_nat (length ents) + 1 /\ k = KInt (Z.of_nat (length ents)) /\ k ∉ ents.*1) ->
  related (mkPs (opened c) (<[z := holder f t']> zs1) b ky (utf16 s) (-1))
    (AState (Lex st b ky (l_utf16 (lx a)) (-1)) (new :: Frame (f_mode f) (f_entries f) k :: fs) (root a)).
Proof using Hp HR Hm Hdeep.
  intros Hfs Hz Hst Hf Ho Ht' Hk. set (zs' := <[z := holder f t']> zs1).
  pose proof (fa_below _ _ _ _ _ _ _ _ Hf) as Hzc.
  assert (Hlen : length zs' = S c) by (unfold zs'; rewrite length_insert, length_app; cbn; lia).
  assert (Heq : forall i, (i < c)%nat -> i <> z -> zs' !! i = zvals s !! i).
  { intros i Hi Hne. unfold zs'. rewrite list_lookup_insert_ne by done. by rewrite lookup_app_l. }
  assert (Hnew : zs' !! c = Some (holder new new_table)).
  { unfold zs'. rewrite list_lookup_insert_ne by lia. by rewrite lookup_app_r, Nat.sub_diag by lia. }
  assert (Hcell : zs' !! z = Some (holder f t')).
  { unfold zs'. apply list_lookup_insert_eq. rewrite length_app. lia. }
  apply opened_fields; [right; by exists f, fs, k|done|lia|]. rewrite Hlen. cbn [frames].
  destruct (opened_cells c) as [Hz2 Hst2]. rewrite Hfs in *. cbn [length] in *.
  exists c, new_table, [], 0. split; [exact Hz2|]. split; [exact Hst2|]. split.
  { rewrite <- Hlen. by apply new_frame_at. }
  destruct (opened_below c (S (length fs)) ltac:(rewrite Hfs; cbn [length]; lia)) as [Hb1 Hb2].
  exists z, t', ents, next'.
  split; [apply nth_cell_lookup; etransitivity; [exact Hb1|by apply nth_cell_lookup]|].
  split; [apply nth_cell_lookup; etransitivity; [exact Hb2|by apply nth_cell_lookup]|].
  destruct Hf as [F1 F2 F3 F4 F5 F6 F7]. split.
  - constructor; cbn [f_mode f_entries f_child]; try done.
    + eapply reps_ext; [exact F4|lia|done|]. intros i Hi. apply Heq; lia.
    + intros Hma. destruct (Hk Hma) as (-> & -> & Hno). rewrite bool_decide_true by by eexists.
      split; [cbn; lia|done].
  - eapply open_at_ext; [exact Ho| |].
    + intros i Hi. apply opened_below. rewrite Hfs. cbn [length]. lia.
    + intros i Hi. apply Heq; lia.
Qed.

Lemma begin_inner init f fs : frames a = f :: fs -> (forall z, init z = set_zval z (holder new new_table)) ->
  f_mode f <> MODE_KEY ->
  agrees (S c) (begin_with m st init s) (abs_begin assoc max_depth m st a).
Proof using Hp HR Hm Hdeep Hroom.
  intros Hfs Hinit Hkey. rewrite (begin_inner_opens init f fs Hfs Hinit). unfold abs_begin.
  rewrite (proj2 (Z.leb_gt _ _)) by lia. rewrite Hfs.
  destruct (open_focus s a f fs HR Hfs) as (z & t & ents & next & _ & Hmode & Hz & Hf & Ho).
  unfold top_mode, stack_at in Hmode. rewrite (rl_top _ _ HR) in Hmode. rewrite <- Hfs in Hz.
  destruct (unattached_cells f fs z Hfs Hz Hmode) as (Ha1 & Ha2 & Ha3).
  pose proof (attach_run unattached f z c _ _ Ha1 Ha2 Ha3 (fa_mode _ _ _ _ _ _ _ _ Hf) Hkey) as Hatt.
  pose proof (fa_few _ _ _ _ _ _ _ _ Hf) as Hfew. pose proof (fa_below _ _ _ _ _ _ _ _ Hf) as Hzc.
  pose proof (fa_array _ _ _ _ _ _ _ _ Hf) as Harr. rewrite bool_decide_false in Harr by by intros [? ?].
  pose proof (add_entry_run unattached (lx a) f z t ents next c
    (lookup_app_l_Some _ [holder new new_table] _ _ (fa_cell _ _ _ _ _ _ _ _ Hf))
    (fa_table _ _ _ _ _ _ _ _ Hf) (rl_key _ _ HR) (reps_length _ _ _ _ _ (fa_reps _ _ _ _ _ _ _ _ Hf))
    ltac:(unfold room in Hroom; lia) ltac:(intros Hma; destruct (Harr Hma) as [-> _]; cbn; lia)) as Hadd.
  change (key unattached) with (key s) in *. rewrite Hfs in Hatt.
  destruct (entry_key assoc (lx a) f) as [k|]; cycle 1.
  { rewrite Hadd in Hatt. unfold mbind at 1, M_bind at 1. by rewrite Hatt. }
  destruct Hadd as (t' & next' & Hadd & Ht' & Hk). rewrite Hadd in Hatt.
  rewrite (mbind_ok _ _ _ _ _ Hatt). unfold JSON_RESET_TYPE, set_type. rewrite mbind_modify.
  pose proof (inner_related f fs z t t' ents next next' k (l_buf (lx a))
    (if f_mode f =? MODE_ARRAY then l_key (lx a) else []) Hfs Hz Hmode Hf Ho Ht' Hk) as Hrel.
  rewrite <- (rl_key _ _ HR) in Hrel |- *. rewrite <- (rl_buf _ _ HR) in Hrel |- *.
  destruct (f_mode f =? MODE_ARRAY); (eexists; split; [done|]; split; [exact Hrel|]);
    cbn; rewrite length_insert, length_app; cbn; lia.
Qed.
End Begin.
End Related.
