(* ===== verification/JsonGrammar.v ===== *)
(** * The texts the JSON parser accepts, and their values

    The grammar of JSON over UTF-16 units, as the parser reads it: that of
    RFC 4627, except that the digits after a decimal point may be missing.
    [value d w v]: the text [w] spells the PHP value [v], containers nested
    at most [d] deep.  Lists grow at the end, as the parser reads them. *)

From S2P Require Import Prelude Dll ZendHash ZendHashInv ZendHashNumeric ZendHashRefine CLib JsonUtf8 JsonParser JsonAutomaton.
Open Scope Z_scope.

(** ** Tokens *)

Definition blank_char (c : Z) : Prop := c = 32 \/ c = 9 \/ c = 10 \/ c = 13.
Definition blank (w : list Z) : Prop := Forall blank_char w.

(** Any character but a control character, a quote and a backslash. *)
Definition plain (c : Z) : Prop := 32 <= c < 65536 /\ c <> 34 /\ c <> 92.
(** What [\c] stands for. *)
Definition escape (c : Z) : option Z :=
  if c =? 34 then Some 34 else if c =? 92 then Some 92 else if c =? 47 then Some 47
  else if c =? 98 then Some 8 else if c =? 102 then Some 12 else if c =? 110 then Some 10
  else if c =? 114 then Some 13 else if c =? 116 then Some 9 else None.
Definition hex_digit (c : Z) : Prop := 48 <= c <= 57 \/ 65 <= c <= 70 \/ 97 <= c <= 102.
Definition hex_unit (h1 h2 h3 h4 : Z) : Z :=
  dehexchar h1 * 4096 + dehexchar h2 * 256 + dehexchar h3 * 16 + dehexchar h4.

(** The inside of a string and the UTF-8 bytes it denotes. *)
Inductive chars : list Z -> list byte -> Prop :=
  | chars_nil : chars [] []
  | chars_plain w b c : chars w b -> plain c -> chars (w ++ [c]) (utf16_to_utf8 b c)
  | chars_escape w b c e : chars w b -> escape c = Some e -> chars (w ++ [92; c]) (smart_str_appendc b e)
  | chars_unicode w b h1 h2 h3 h4 : chars w b ->
      hex_digit h1 -> hex_digit h2 -> hex_digit h3 -> hex_digit h4 ->
      chars (w ++ [92; 117; h1; h2; h3; h4]) (utf16_to_utf8 b (hex_unit h1 h2 h3 h4)).

Definition digit_char (c : Z) : Prop := 48 <= c <= 57.
Definition digits (w : list Z) : Prop := Forall digit_char w.

Inductive sign : list Z -> Prop :=
  | sign_none : sign []
  | sign_minus : sign [45].
Inductive integer : list Z -> Prop :=
  | integer_zero : integer [48]
  | integer_digits c w : 49 <= c <= 57 -> digits w -> integer (c :: w).
Inductive fraction : list Z -> Prop :=
  | fraction_none : fraction []
  | fraction_some w : digits w -> fraction (46 :: w).
Inductive exponent : list Z -> Prop :=
  | exponent_none : exponent []
  | exponent_some e s c w : e = 101 \/ e = 69 -> s = [] \/ s = [43] \/ s = [45] ->
      digits (c :: w) -> exponent (e :: s ++ c :: w).

(** The value of a number without fraction and exponent. *)
Definition digit_value (acc c : Z) : Z := acc * 10 + (c - 48).
Definition integer_value (w : list Z) : Z :=
  match w with
  | 45 :: w' => - fold_left digit_value w' 0
  | _ => fold_left digit_value w 0
  end.

Section Grammar.
Context {D : Type} (zend_strtod : list byte -> D) (assoc : bool).
Implicit Types (v : php D) (l : list (hkey * php D)) (w s : list Z) (d : nat).

Definition ascii (w : list Z) : list byte := to_byte <$> w.

(** An integer in the range of a [long] is one, any other number a double. *)
Definition number_value (w : list Z) (whole : bool) : php D :=
  if whole && (LONG_MIN <=? integer_value w) && (integer_value w <=? LONG_MAX)
  then PLong (integer_value w)
  else PDouble (zend_strtod (ascii w)).
Inductive number : list Z -> php D -> Prop :=
  | number_intro s i f e : sign s -> integer i -> fraction f -> exponent e ->
      number (s ++ i ++ f ++ e)
        (number_value (s ++ i ++ f ++ e) (bool_decide (f = [] /\ e = []))).

Definition object_of l : php D := if assoc then PArray l else PObject l.
Definition last_key l : hkey := KInt (Z.of_nat (length l)).

(** The name of a member, with what precedes it and the colon. *)
Inductive name : list Z -> list byte -> Prop :=
  | name_intro s0 w b s1 s2 : blank s0 -> chars w b -> blank s1 -> blank s2 ->
      name (s0 ++ 34 :: w ++ 34 :: s1 ++ 58 :: s2) b.

Inductive value : nat -> list Z -> php D -> Prop :=
  | value_null d : value d [110; 117; 108; 108] PNull
  | value_true d : value d [116; 114; 117; 101] (PBool true)
  | value_false d : value d [102; 97; 108; 115; 101] (PBool false)
  | value_number d w v : number w v -> value d w v
  | value_string d w b : chars w b -> value d (34 :: w ++ [34]) (PString b)
  | value_array_nil d s : blank s -> value (S d) (91 :: s ++ [93]) (PArray [])
  | value_array d w l : elements d w l -> value (S d) (91 :: w ++ [93]) (PArray l)
  | value_object_nil d s : blank s -> value (S d) (123 :: s ++ [125]) (object_of [])
  | value_object d w l : members d w l -> value (S d) (123 :: w ++ [125]) (object_of l)
with elements : nat -> list Z -> list (hkey * php D) -> Prop :=
  | elements_one d s1 w v s2 : blank s1 -> value d w v -> blank s2 ->
      elements d (s1 ++ w ++ s2) [(KInt 0, v)]
  | elements_more d ws l s1 w v s2 : elements d ws l -> blank s1 -> value d w v -> blank s2 ->
      elements d (ws ++ 44 :: s1 ++ w ++ s2) (l ++ [(last_key l, v)])
with members : nat -> list Z -> list (hkey * php D) -> Prop :=
  | members_one d n b k w v s : name n b -> member_key assoc b = Some k -> value d w v -> blank s ->
      members d (n ++ w ++ s) [(k, v)]
  | members_more d ws l n b k w v s : members d ws l -> name n b -> member_key assoc b = Some k ->
      value d w v -> blank s -> members d (ws ++ 44 :: n ++ w ++ s) (kv_set k v l).

(** A text: a container or a string, between blanks. *)
Inductive text (d : nat) : list Z -> php D -> Prop :=
  | text_intro s1 c w v s2 : blank s1 -> value d (c :: w) v -> c = 34 \/ c = 91 \/ c = 123 -> blank s2 ->
      text d (s1 ++ (c :: w) ++ s2) v.
End Grammar.

Scheme value_mut := Induction for value Sort Prop
  with elements_mut := Induction for elements Sort Prop
  with members_mut := Induction for members Sort Prop.
Combined Scheme value_elements_members_ind from value_mut, elements_mut, members_mut.
