(* ===== verification/JsonLex.v ===== *)
(** * Tokens of the JSON parser

    The character classes and the rows of the transition table, as facts
    about characters; the value [json_create_zval] gives a number. *)

From S2P Require Import Prelude Dll ZendHash ZendHashInv ZendHashNumeric ZendHashRefine CLib JsonUtf8 JsonParser JsonAutomaton JsonGrammar.
Open Scope Z_scope.

(** ** Character classes *)

(** The characters of a class. *)
Definition in_class (k c : Z) : bool :=
  let same x := c =? x in
  nth (Z.to_nat (k + 1))
    [c <? 32; same 32; same 9 || same 10 || same 13; same 123; same 125; same 91; same 93; same 58; same 44; same 34; same 92; same 47;
     same 43; same 45; same 46; same 48; (49 <=? c) && (c <=? 57); same 97; same 98; same 99; same 100; same 101; same 102; same 108;
     same 110; same 114; same 115; same 116; same 117; (65 <=? c) && (c <=? 70) && negb (same 69); same 69;
     (32 <? c) && negb (same 34) && negb (same 92)] false.

Lemma class_cases c : 0 <= c -> exists k, class_of c = Ok k /\ -1 <= k < NR_CLASSES /\ in_class k c = true.
Proof.
  intros Hc. destruct (Z.leb_spec 128 c) as [Hbig|Hsmall].
  - exists C_ETC. unfold class_of. rewrite (proj2 (Z.leb_le _ _)) by done. split; [done|]. split; [done|].
    change (in_class C_ETC c) with ((32 <? c) && negb (c =? 34) && negb (c =? 92)). lia.
  - assert (H : forallb (fun c => match class_of c with
        | Ok k => (-1 <=? k) && (k <? NR_CLASSES) && in_class k c | Err _ => false end) (seqZ 0 128) = true)
      by (vm_compute; reflexivity).
    rewrite forallb_forall in H. specialize (H c). destruct (class_of c) as [k|].
    + exists k. split; [done|]. assert (Hin : In c (seqZ 0 128)) by (apply list_elem_of_In, elem_of_seqZ; lia).
      specialize (H Hin). rewrite !andb_true_iff, Z.leb_le, Z.ltb_lt in H. tauto.
    + assert (Hin : In c (seqZ 0 128)) by (apply list_elem_of_In, elem_of_seqZ; lia). by specialize (H Hin).
Qed.

(** ** Rows of the table *)

Lemma table_width st row : state_transition_table !! st = Some row -> length row = 31%nat.
Proof.
  assert (Hall : Forall (fun r => length r = 31%nat) state_transition_table) by (repeat constructor).
  rewrite Forall_lookup in Hall. apply Hall.
Qed.

(** The entries of a row that are not errors. *)
Definition row_moves (st : Z) : list (Z * Z) :=
  match state_transition_table !! Z.to_nat st with
  | Some row => List.filter (fun x => negb (x.2 =? __)) (zip (seqZ 0 31) row)
  | None => []
  end.
Lemma row_cases st k n : transition st k = Ok n -> n <> __ -> In (k, n) (row_moves st).
Proof.
  unfold transition, nth_cell. destruct (st <? 0) eqn:Hs; [done|]. unfold row_moves.
  destruct (state_transition_table !! Z.to_nat st) as [row|] eqn:Hrow; [|done]. cbn.
  destruct (Z.ltb_spec k 0); [done|]. destruct (row !! Z.to_nat k) as [n'|] eqn:Hn; [|done].
  intros [= ->] Hne. apply filter_In. cbn. split; [|by apply negb_true_iff, Z.eqb_neq].
  apply list_elem_of_In. apply list_elem_of_lookup. exists (Z.to_nat k).
  pose proof (table_width _ _ Hrow) as Hl.
  apply lookup_zip_with_Some. exists k, n. split; [done|]. split; [|done].
  apply lookup_seqZ. pose proof (lookup_lt_Some _ _ _ Hn). lia.
Qed.

(** ** The value of a number *)

Lemma ascii_app w1 w2 : ascii (w1 ++ w2) = ascii w1 ++ ascii w2.
Proof. apply fmap_app. Qed.
Lemma length_ascii w : length (ascii w) = length w.
Proof. apply length_fmap. Qed.
Lemma ascii_no_nul w : Forall (fun c => 0 < c < 128) w -> Forall (fun b => b <> NUL_byte) (ascii w).
Proof.
  intros Hw. apply Forall_fmap. eapply Forall_impl; [exact Hw|]. intros c Hc. cbn in Hc |- *. intros E.
  apply (f_equal uc) in E. rewrite uc_to_byte in E by lia. cbn in E. lia.
Qed.

(** Digits as bytes. *)
Lemma digit_byte c : digit_char c -> uc (to_byte c) = c /\ digit (to_byte c) = true.
Proof.
  unfold digit_char, digit, is_digit. intros Hc. rewrite uc_to_byte by lia. split; [done|lia].
Qed.
Lemma digits_bytes w : digits w -> forallb digit (ascii w) = true.
Proof. induction 1 as [|c w Hc _ IH]; [done|]. cbn. destruct (digit_byte c Hc) as [_ ->]. done. Qed.
Lemma digits_dec w : digits w -> forall acc, fold_left digit_value w acc = dec_from acc (ascii w).
Proof.
  induction 1 as [|c w Hc _ IH]; intros acc; [done|]. cbn. rewrite IH. destruct (digit_byte c Hc) as [-> _].
  done.
Qed.
Section Numbers.
Context {D : Type} (zend_strtod : list byte -> D).

Lemma integer_digits_of i : integer i -> digit_string (ascii i) (Z.of_nat (length i)).
Proof.
  intros [|c w Hc Hw].
  - constructor; try done. by eexists _, _.
  - assert (Hd : digits (c :: w)) by (constructor; [unfold digit_char; lia|done]).
    pose proof (digits_bytes _ Hd) as Hb. change (ascii (c :: w)) with (to_byte c :: ascii w) in *.
    assert (Hz : to_byte c <> ZERO).
    { intros E. apply (f_equal uc) in E. rewrite uc_to_byte in E by lia. cbn in E. lia. }
    assert (Hcan : canonical (to_byte c :: ascii w) = true).
    { unfold canonical. by rewrite Hb, bool_decide_true. }
    pose proof (canonical_bounds _ _ Hcan Hz) as Hcb. rewrite length_ascii in Hcb.
    constructor; [done| |by eexists _, _| |].
    + cbn [length]. by rewrite length_ascii.
    + cbn [length]. assert (0 <= 10 ^ Z.of_nat (length w)) by lia. lia.
    + intros _. replace (Z.of_nat (length (c :: w)) - 1) with (Z.of_nat (length w)) by (cbn [length]; lia). lia.
Qed.

Lemma long_or_double_run (minus : bool) ds n : digit_string ds n ->
  long_or_double zend_strtod (sign_bytes minus ++ ds) =
    Ok (if (LONG_MIN <=? signed minus (dec_value ds)) && (signed minus (dec_value ds) <=? LONG_MAX)
        then ZLong (signed minus (dec_value ds))
        else ZDouble (zend_strtod (sign_bytes minus ++ ds))).
Proof.
  intros [Hd Hl (c & ds' & Hc) Hup Hlow].
  assert (Hstr : strtol (sign_bytes minus ++ ds) = clamp_long (signed minus (dec_value ds))).
  { apply strtol_signed; [destruct minus; constructor|done|by subst]. }
  unfold long_or_double.
  assert (Hnul : Forall (fun b => b <> NUL_byte) ds).
  { rewrite Forall_forall. intros b Hb E. rewrite forallb_forall in Hd.
    apply list_elem_of_In, Hd, digit_range in Hb. subst b. cbn in Hb. lia. }
  assert (Hcs : c_string (sign_bytes minus ++ ds) = sign_bytes minus ++ ds).
  { apply c_string_no_nul. destruct minus; [by constructor|done]. }
  assert (Hfirst : exists c0, first_char (sign_bytes minus ++ ds) = Ok c0 /\ (c0 =? 45) = minus).
  { destruct minus; [by eexists|]. subst ds. eexists. split; [done|].
    cbn in Hd. apply andb_true_iff in Hd as [Hd%digit_range _]. lia. }
  destruct Hfirst as (c0 & Hf & Hm). rewrite (res_bind_ok _ _ _ Hf), Hm, Hcs, Hstr. cbv zeta.
  replace (Z.of_nat (length (sign_bytes minus ++ ds)) - b2z minus) with n
    by (rewrite length_app; destruct minus; cbn; lia).
  replace (drop (Z.to_nat (b2z minus)) (sign_bytes minus ++ ds)) with ds by (by destruct minus).
  rewrite c_string_no_nul by done. set (v := dec_value ds) in *.
  assert (Hin : forall b : bool, (b = false <-> LONG_MIN <= signed minus v <= LONG_MAX) ->
    (if b then ZDouble (zend_strtod (sign_bytes minus ++ ds)) else ZLong (clamp_long (signed minus v))) =
    (if (LONG_MIN <=? signed minus v) && (signed minus v <=? LONG_MAX) then ZLong (signed minus v)
     else ZDouble (zend_strtod (sign_bytes minus ++ ds)))).
  { intros b Hb. destruct (Z.leb_spec LONG_MIN (signed minus v)), (Z.leb_spec (signed minus v) LONG_MAX); cbn [andb].
    - rewrite (proj2 Hb) by lia. f_equal. unfold clamp_long. lia.
    - destruct b; [done|]. apply proj1 in Hb. specialize (Hb eq_refl). lia.
    - destruct b; [done|]. apply proj1 in Hb. specialize (Hb eq_refl). lia.
    - destruct b; [done|]. apply proj1 in Hb. specialize (Hb eq_refl). lia. }
  f_equal. apply Hin. clear Hin.
  change (MAX_LENGTH_OF_LONG - 1) with 19. change LONG_MIN with (- 9223372036854775808).
  change LONG_MAX with 9223372036854775807. clear Hstr Hcs Hf Hm Hnul.
  destruct (Z.leb_spec 19 n) as [Hn|Hn].
  - destruct (Z.eqb_spec n 19) as [->|Hne].
    + pose proof (nineteen_digits minus ds Hd ltac:(lia)) as H19. fold v in H19.
      unfold LONG_MIN, LONG_MAX in H19. destruct minus; cbn [signed] in *;
        destruct (Z.ltb_spec (strcmp ds long_min_digits) 0), (Z.eqb_spec (strcmp ds long_min_digits) 0);
        cbn [orb andb negb] in *; lia.
    + assert (10 ^ 19 <= 10 ^ (n - 1)) by (apply Z.pow_le_mono_r; lia).
      split; [done|]. destruct minus; cbn [signed]; lia.
  - assert (10 ^ n <= 10 ^ 18) by (apply Z.pow_le_mono_r; lia).
    split; [|done]. intros _. destruct minus; cbn [signed]; lia.
Qed.

(** ** The value of a token *)

Lemma sign_ascii s : sign s -> exists minus : bool, ascii s = sign_bytes minus /\ s = (if minus then [45] else []).
Proof. intros []; [by exists false|by exists true]. Qed.
Lemma integer_value_signed s i : sign s -> integer i ->
  exists minus : bool, ascii s = sign_bytes minus /\ integer_value (s ++ i) = signed minus (dec_value (ascii i)).
Proof.
  intros Hs Hi. assert (Hd : digits i).
  { destruct Hi as [|c w Hc Hw]; [by repeat constructor|]. constructor; [unfold digit_char; lia|done]. }
  destruct Hs.
  - exists false. split; [done|]. cbn [app signed]. unfold dec_value. rewrite <- (digits_dec i Hd).
    destruct Hi as [|c w Hc _]; [done|]. cbn [integer_value]. repeat case_match; try done; lia.
  - exists true. split; [done|]. cbn. unfold dec_value. by rewrite <- (digits_dec i Hd).
Qed.

Lemma whole_token s i : sign s -> integer i ->
  exists x, zval_of zend_strtod (ascii (s ++ i)) IS_LONG = Ok x /\ php_of x = number_value zend_strtod (s ++ i) true.
Proof.
  intros Hs Hi. destruct (integer_value_signed s i Hs Hi) as (minus & Hm & Hv).
  eexists. unfold zval_of. change (IS_LONG =? IS_LONG) with true. cbv iota.
  rewrite ascii_app, Hm. split; [exact (long_or_double_run minus _ _ (integer_digits_of i Hi))|].
  unfold number_value. rewrite Hv, ascii_app, Hm. cbn [andb]. by destruct (_ && _).
Qed.
Lemma double_token w : Forall (fun c => 0 < c < 128) w ->
  zval_of zend_strtod (ascii w) IS_DOUBLE = Ok (ZDouble (zend_strtod (ascii w))).
Proof.
  intros Hw. unfold zval_of. change (IS_DOUBLE =? IS_LONG) with false. change (IS_DOUBLE =? IS_DOUBLE) with true.
  cbv iota. by rewrite c_string_no_nul by by apply ascii_no_nul.
Qed.
End Numbers.

(** ** One character of a token *)

Lemma utf16_ascii b c : c < 128 -> utf16_to_utf8 b c = b ++ [to_byte c].
Proof. intros Hc. unfold utf16_to_utf8. by rewrite (proj2 (Z.ltb_lt _ _)). Qed.
Lemma ascii_snoc w c : ascii (w ++ [c]) = ascii w ++ [to_byte c].
Proof. apply ascii_app. Qed.

(** Characters [c] of class [k] in state [st] that do not end the token
    structure: the lexer goes to the state [n]. *)
Definition moves (st c k n : Z) : Prop := In (k, n) (row_moves st) /\ in_class k c = true /\ 0 <= n /\ 0 <= c < 2 ^ 16.

(** Case analysis on the entry of the row of a given state. *)
Ltac each_move Hin :=
  vm_compute in Hin;
  repeat (destruct Hin as [Hin|Hin]; [injection Hin as <- <-|]); try (by destruct Hin).
Ltac class_of_char H :=
  cbv [in_class nth Z.to_nat Z.add Pos.to_nat Pos.iter_op Nat.add Pos.add Pos.succ] in H.

Definition literal (st : Z) (t : list Z) : Prop :=
  In (st, t) [(T1, [116]); (T2, [116; 114]); (T3, [116; 114; 117]);
    (F1, [102]); (F2, [102; 97]); (F3, [102; 97; 108]); (F4, [102; 97; 108; 115]);
    (N1, [110]); (N2, [110; 117]); (N3, [110; 117; 108])].

(** What has been read of a number, in state [st], and the type it has so far. *)
Inductive number_prefix : Z -> list Z -> Z -> Prop :=
  | np_minus : number_prefix MI [45] (-1)
  | np_zero s : sign s -> number_prefix ZE (s ++ [48]) IS_LONG
  | np_int s c w : sign s -> 49 <= c <= 57 -> digits w -> number_prefix IN (s ++ c :: w) IS_LONG
  | np_frac s i w : sign s -> integer i -> digits w -> number_prefix FR (s ++ i ++ 46 :: w) IS_DOUBLE
  | np_e1 s i f e : sign s -> integer i -> fraction f -> e = 101 \/ e = 69 ->
      number_prefix E1 (s ++ i ++ f ++ [e]) IS_DOUBLE
  | np_e2 s i f e g : sign s -> integer i -> fraction f -> e = 101 \/ e = 69 -> g = 43 \/ g = 45 ->
      number_prefix E2 (s ++ i ++ f ++ [e; g]) IS_DOUBLE
  | np_e3 s i f e g c w : sign s -> integer i -> fraction f -> e = 101 \/ e = 69 -> g = [] \/ g = [43] \/ g = [45] ->
      digits (c :: w) -> number_prefix E3 (s ++ i ++ f ++ e :: g ++ c :: w) IS_DOUBLE.

(** What has been read of the inside of a string; [u] is the unit of the
    escape being read. *)
Inductive in_string : Z -> list Z -> list byte -> Z -> Prop :=
  | is_chars w b u : chars w b -> in_string ST w b u
  | is_escape w b u : chars w b -> in_string ES (w ++ [92]) b u
  | is_u1 w b u : chars w b -> in_string U1 (w ++ [92; 117]) b u
  | is_u2 w b h1 : chars w b -> hex_digit h1 -> in_string U2 (w ++ [92; 117; h1]) b (dehexchar h1 * 4096)
  | is_u3 w b h1 h2 : chars w b -> hex_digit h1 -> hex_digit h2 ->
      in_string U3 (w ++ [92; 117; h1; h2]) b (dehexchar h1 * 4096 + dehexchar h2 * 256)
  | is_u4 w b h1 h2 h3 : chars w b -> hex_digit h1 -> hex_digit h2 -> hex_digit h3 ->
      in_string U4 (w ++ [92; 117; h1; h2; h3]) b (dehexchar h1 * 4096 + dehexchar h2 * 256 + dehexchar h3 * 16).

Lemma literal_move st t c k n ky u : literal st t -> moves st c k n ->
  (literal n (t ++ [c]) /\ lex_char c k n (Lex st (ascii t) ky u (-1)) = Lex n (ascii (t ++ [c])) ky u (-1)) \/
  (n = OK /\ exists b ty, lex_char c k n (Lex st (ascii t) ky u (-1)) = Lex OK b ky u ty /\ ty <> -1 /\
     forall D (zend_strtod : list byte -> D) (assoc : bool) (d : nat), exists x, zval_of zend_strtod b ty = Ok x /\ value zend_strtod assoc d (t ++ [c]) (php_of x)).
Proof.
  intros Hl (Hin & Hc & Hn & Hr). unfold literal in Hl. simpl in Hl.
  repeat (destruct Hl as [Hl|Hl]; [injection Hl as <- <-; each_move Hin; class_of_char Hc; apply Z.eqb_eq in Hc; subst c|]); try done.
  all: first [left; split; [unfold literal; simpl; tauto|reflexivity]
             |right; split; [reflexivity|]; eexists _, _; split; [reflexivity|]; split; [done|]; intros; eexists; split; [reflexivity|]; constructor].
Qed.

(** *** Numbers *)

Lemma integer_small w : integer w -> Forall (fun c => 0 < c < 128) w.
Proof.
  intros [|c v Hc Hv]; [by repeat constructor|]. constructor; [lia|]. eapply Forall_impl; [exact Hv|].
  intros x Hx. unfold digit_char in Hx. cbn. lia.
Qed.
Lemma sign_small w : sign w -> Forall (fun c => 0 < c < 128) w.
Proof. intros []; by repeat constructor. Qed.
Lemma digits_small w : digits w -> Forall (fun c => 0 < c < 128) w.
Proof. intros Hw. eapply Forall_impl; [exact Hw|]. intros c Hc. unfold digit_char in Hc. cbn. lia. Qed.
Lemma fraction_small w : fraction w -> Forall (fun c => 0 < c < 128) w.
Proof. intros []; [constructor|]. constructor; [lia|]. by apply digits_small. Qed.
Lemma exponent_small w : exponent w -> Forall (fun c => 0 < c < 128) w.
Proof.
  intros [|e g c v He Hg Hv]; constructor; [lia|]. apply Forall_app. split; [|by apply digits_small].
  destruct Hg as [->|[->| ->]]; by repeat constructor.
Qed.

(** A number that may end here. *)
Lemma number_done {D} (zend_strtod : list byte -> D) st t ty : number_prefix st t ty -> existsb (Z.eqb st) [ZE; IN; FR; E3] = true ->
  exists x, zval_of zend_strtod (ascii t) ty = Ok x /\ number zend_strtod t (php_of x) /\ ty <> -1.
Proof.
  assert (Hwhole : forall s i, sign s -> integer i ->
    exists x, zval_of zend_strtod (ascii (s ++ i)) IS_LONG = Ok x /\ number zend_strtod (s ++ i) (php_of x) /\ IS_LONG <> -1).
  { intros s i Hs Hi. destruct (whole_token zend_strtod s i Hs Hi) as (x & Hx & Hv). exists x. split; [exact Hx|].
    split; [|done]. rewrite Hv. pose proof (number_intro zend_strtod s i [] [] Hs Hi fraction_none exponent_none) as Hn.
    rewrite !app_nil_r in Hn. rewrite bool_decide_true in Hn by done. exact Hn. }
  assert (Hdouble : forall s i f e, sign s -> integer i -> fraction f -> exponent e -> (f <> [] \/ e <> []) ->
    exists x, zval_of zend_strtod (ascii (s ++ i ++ f ++ e)) IS_DOUBLE = Ok x /\ number zend_strtod (s ++ i ++ f ++ e) (php_of x) /\ IS_DOUBLE <> -1).
  { intros s i f e Hs Hi Hf He Hne. eexists. split; [apply double_token|split; [|done]].
    - rewrite !Forall_app. auto using sign_small, integer_small, fraction_small, exponent_small.
    - pose proof (number_intro zend_strtod s i f e Hs Hi Hf He) as Hn.
      rewrite bool_decide_false in Hn by (intros [-> ->]; by destruct Hne). exact Hn. }
  intros [] Hst; try done.
  - apply Hwhole; [done|constructor].
  - apply Hwhole; [done|by constructor].
  - rewrite <- (app_nil_r (46 :: w)). apply Hdouble; try done; [by constructor|constructor|by left].
  - apply Hdouble; try done; [by constructor|by right].
Qed.

Lemma in_digit k c : (k = C_ZERO \/ k = C_DIGIT) -> in_class k c = true -> digit_char c.
Proof. intros [-> | ->] Hc; cbv [C_ZERO C_DIGIT C_SPACE C_WHITE] in Hc; class_of_char Hc; unfold digit_char; lia. Qed.
Lemma in_blank k c : (k = C_SPACE \/ k = C_WHITE) -> in_class k c = true -> blank_char c.
Proof. intros [-> | ->] Hc; cbv [C_ZERO C_DIGIT C_SPACE C_WHITE] in Hc; class_of_char Hc; unfold blank_char; lia. Qed.

Lemma digits_snoc w c : digits w -> digit_char c -> digits (w ++ [c]).
Proof. intros Hw Hc. apply Forall_app. split; [done|]. by constructor. Qed.
Lemma prefix_eq n w w' ty : number_prefix n w ty -> w = w' -> number_prefix n w' ty.
Proof. by intros ? <-. Qed.

(** The text read so far, one character longer. *)
Ltac prefix_by p :=
  eapply prefix_eq;
    [eapply p|rewrite ?app_nil_r; cbn [app]; rewrite <- ?app_assoc; cbn [app]; rewrite <- ?app_assoc; cbn [app]; reflexivity];
  solve [eassumption|apply sign_minus|apply integer_zero|by apply integer_digits|apply fraction_none|by apply fraction_some
        |apply digits_snoc; [eassumption|unfold digit_char; lia]
        |rewrite app_comm_cons; apply digits_snoc; [eassumption|unfold digit_char; lia]
        |constructor; [unfold digit_char; lia|constructor]|constructor|lia|tauto
        |match goal with H : ?g = 43 \/ ?g = 45 |- _ => destruct H as [-> | ->]; tauto end].
Ltac lex_side c :=
  split; [|split; [lia|intros ky u; rewrite (ascii_snoc _ c); unfold lex_char; rewrite ?utf16_ascii by lia; reflexivity]].
Ltac lex_starts c :=
  split; [|split; [lia|intros ky u; unfold lex_char; rewrite ?utf16_ascii by lia; reflexivity]].
Lemma prefix_snoc st t ty c k n : number_prefix st t ty -> moves st c k n -> n <> OK ->
  exists ty', number_prefix n (t ++ [c]) ty' /\ c < 128 /\ forall ky u,
    lex_char c k n (Lex st (ascii t) ky u ty) = Lex n (ascii (t ++ [c])) ky u ty'.
Proof.
  intros Hp (Hin & Hc & Hn & Hr) Hne.
  destruct Hp; each_move Hin; try (exfalso; lia); class_of_char Hc; try (by destruct Hne).
  all: first [exists IS_LONG; lex_side c|exists IS_DOUBLE; lex_side c].
  all: try apply Z.eqb_eq in Hc.
  all: try subst c.
  1: prefix_by (np_zero [45]).
  1: prefix_by (np_int [45] c []).
  1: prefix_by (np_frac s [48] []).
  1: prefix_by (np_e1 s [48] [] 101).
  1: prefix_by (np_e1 s [48] [] 69).
  1: prefix_by (np_frac s (c0 :: w) []).
  1: prefix_by (np_int s c0 (w ++ [48])).
  1: prefix_by (np_int s c0 (w ++ [c])).
  1: prefix_by (np_e1 s (c0 :: w) [] 101).
  1: prefix_by (np_e1 s (c0 :: w) [] 69).
  1: prefix_by (np_frac s i (w ++ [48])).
  1: prefix_by (np_frac s i (w ++ [c])).
  1: prefix_by (np_e1 s i (46 :: w) 101).
  1: prefix_by (np_e1 s i (46 :: w) 69).
  1: prefix_by (np_e2 s i f e 43).
  1: prefix_by (np_e2 s i f e 45).
  1: prefix_by (np_e3 s i f e [] 48 []).
  1: prefix_by (np_e3 s i f e [] c []).
  1: prefix_by (np_e3 s i f e [g] 48 []).
  1: prefix_by (np_e3 s i f e [g] c []).
  1: prefix_by (np_e3 s i f e g c0 (w ++ [48])).
  1: prefix_by (np_e3 s i f e g c0 (w ++ [c])).
Qed.

(** A blank ends a number, and leaves its text as it is. *)
Lemma number_blank st t ty c k : number_prefix st t ty -> moves st c k OK ->
  blank_char c /\ existsb (Z.eqb st) [ZE; IN; FR; E3] = true /\ forall ky u,
    lex_char c k OK (Lex st (ascii t) ky u ty) = Lex OK (ascii t) ky u ty.
Proof.
  intros Hp (Hin & Hc & Hn & Hr). remember OK as n eqn:HOK. destruct Hp; each_move Hin; try done; class_of_char Hc;
    (split; [unfold blank_char; lia|split; [reflexivity|intros ky u; reflexivity]]).
Qed.

(** The first character of a literal or a number. *)
Lemma scalar_starts st c k n : st = VA \/ st = AR -> moves st c k n -> n <> st -> n <> ST ->
  exists ty, (literal n [c] /\ ty = -1 \/ number_prefix n [c] ty) /\ c < 128 /\
    forall ky u, lex_char c k n (Lex st [] ky u (-1)) = Lex n (ascii [c]) ky u ty.
Proof.
  intros Hst (Hin & Hc & Hn & Hr) H1 H2.
  destruct Hst as [-> | ->]; each_move Hin; try (exfalso; lia); class_of_char Hc; try (by destruct H1); try (by destruct H2).
  all: first [exists (-1); lex_starts c|exists IS_LONG; lex_starts c].
  all: try apply Z.eqb_eq in Hc; try subst c.
  all: first [left; split; [unfold literal; simpl; tauto|reflexivity]|right].
  all: first [apply np_minus|apply (np_zero []); constructor|apply (np_int [] c []); [constructor|lia|constructor]].
Qed.

(** *** Strings *)

Lemma dehexchar_range c : hex_digit c -> 0 <= dehexchar c < 16.
Proof.
  unfold hex_digit, dehexchar. intros Hc.
  destruct (Z.leb_spec 48 c), (Z.leb_spec c 57), (Z.leb_spec 65 c), (Z.leb_spec c 70), (Z.leb_spec 97 c), (Z.leb_spec c 102);
    cbn [andb]; lia.
Qed.
Lemma hex_unit_range h1 h2 h3 h4 : hex_digit h1 -> hex_digit h2 -> hex_digit h3 -> hex_digit h4 ->
  0 <= hex_unit h1 h2 h3 h4 < 2 ^ 16.
Proof.
  intros H1%dehexchar_range H2%dehexchar_range H3%dehexchar_range H4%dehexchar_range. unfold hex_unit. lia.
Qed.

Ltac hex_sums :=
  repeat match goal with H : hex_digit ?h |- _ =>
    lazymatch goal with _ : 0 <= dehexchar h < 16 |- _ => fail | _ => pose proof (dehexchar_range h H) end end;
  rewrite ?Z.shiftl_mul_pow2 by lia; rewrite ?Z.mod_small by lia.

Lemma hex_move st t b u c k n : in_string st t b u -> st <> ST -> st <> ES -> moves st c k n ->
  hex_digit c /\ exists b' u', in_string n (t ++ [c]) b' u' /\
    forall ky, lex_char c k n (Lex st b ky u IS_STRING) = Lex n b' ky u' IS_STRING.
Proof.
  intros Hs H1 H2 (Hin & Hc & Hn & Hr).
  assert (Hhex : hex_digit c).
  { destruct Hs; try done; each_move Hin; class_of_char Hc; unfold hex_digit; lia. }
  split; [done|]. clear Hc.
  destruct Hs; try done; eexists _, _; (split;
    [rewrite <- app_assoc; cbn [app]
    |intros ky; each_move Hin; cbv - [utf16_to_utf8 dehexchar Z.shiftl Z.modulo Z.pow Z.add Z.mul]; reflexivity]).
  - hex_sums. replace (dehexchar c * 2 ^ 12) with (dehexchar c * 4096) by lia. each_move Hin; by constructor.
  - hex_sums. replace (dehexchar c * 2 ^ 8) with (dehexchar c * 256) by lia. each_move Hin; by constructor.
  - hex_sums. replace (dehexchar c * 2 ^ 4) with (dehexchar c * 16) by lia. each_move Hin; by constructor.
  - hex_sums. change (dehexchar h1 * 4096 + dehexchar h2 * 256 + dehexchar h3 * 16 + dehexchar c) with (hex_unit h1 h2 h3 c).
    each_move Hin; by apply is_chars, chars_unicode.
Qed.

Lemma string_move st t b u c k n : in_string st t b u -> moves st c k n ->
  exists b' u', in_string n (t ++ [c]) b' u' /\
    forall ky, lex_char c k n (Lex st b ky u IS_STRING) = Lex n b' ky u' IS_STRING.
Proof.
  intros Hs Hm. destruct (Z.eq_dec st ST) as [->|Hst]; [|destruct (Z.eq_dec st ES) as [->|Hes]]; cycle 2.
  { eapply hex_move; eauto. }
  - destruct Hm as (Hin & Hc & Hn & Hr). inversion Hs; subst.
    each_move Hin; try (exfalso; lia); class_of_char Hc.
    all: first [apply Z.eqb_eq in Hc; subst c; eexists _, u; split; [by apply is_escape|intros ky; reflexivity]
               |eexists _, u; split; [apply is_chars, chars_plain; [eassumption|unfold plain; lia]|intros ky; reflexivity]].
  - destruct Hm as (Hin & Hc & Hn & Hr). inversion Hs; subst.
    each_move Hin; try (exfalso; lia); class_of_char Hc; apply Z.eqb_eq in Hc; subst c.
    all: eexists _, u; (split; [rewrite <- app_assoc; cbn [app]; first [by apply is_u1|apply is_chars; by eapply chars_escape]
                               |intros ky; reflexivity]).
Qed.
