(* ===== verification/JsonParserRun.v ===== *)
(** * The parser's run, from its creation to its answer

    Each character, the loop, and [parse_JSON] as a whole, on top of the
    pieces of JsonParserSpec.  The simulation asks little of the automaton's
    state ([tame]); JsonSound shows that its states are tame. *)

From S2P Require Import Prelude Dll ZendHash ZendHashInv ZendHashSteps ZendHashOps ZendHashIter ZendHashBulk ZendHashOrder ZendHashCursor ZendHashNumeric ZendHashRefine ZendHashClient CLib JsonUtf8 JsonParser JsonAutomaton JsonParserSpec JsonGrammar JsonLex.
Open Scope Z_scope.

Section Run.
Context {D : Type} `{Allocator} (Hp : plentiful zaddr) (zend_strtod : list byte -> D).
Context (assoc : bool) (max_depth : Z).
Implicit Types (s : pstate D) (a : astate D).

Notation rel := (related assoc max_depth).
Notation agree := (agrees assoc max_depth).
Notation tok_ok := (token_ok zend_strtod).
Notation turn := (abs_char zend_strtod assoc max_depth).

(** The states in which a container may be closed, and those before a value. *)
Definition ends_value (st : Z) : bool := existsb (Z.eqb st) [OK; AR; ZE; IN; FR; E3].
Definition starts_value (st : Z) : bool := existsb (Z.eqb st) [GO; VA; AR].

Record tame a : Prop := {
  tm_state : 0 <= l_state (lx a) < NR_STATES;
  tm_token : ends_value (l_state (lx a)) = true -> l_type (lx a) <> -1 -> tok_ok (lx a);
  tm_mode : starts_value (l_state (lx a)) = true -> mode_of (frames a) <> MODE_KEY;
  tm_root : l_state (lx a) = OK -> frames a = [] -> root a <> None
}.

(** ** The table *)

Lemma transition_ok st k : 0 <= st < NR_STATES -> 0 <= k < NR_CLASSES -> exists n, transition st k = Ok n.
Proof.
  intros Hs Hk. unfold transition, nth_cell.
  destruct (Z.ltb_spec st 0), (Z.ltb_spec k 0); try lia.
  destruct (lookup_lt_is_Some_2 state_transition_table (Z.to_nat st)) as [row Hrow]; [cbn; unfold NR_STATES in Hs; lia|].
  rewrite Hrow. cbn [mbind]. unfold mbind, res_bind.
  assert (Hl : length row = 31%nat) by (by eapply table_width).
  destruct (lookup_lt_is_Some_2 row (Z.to_nat k)) as [n Hn]; [rewrite Hl; unfold NR_CLASSES in Hk; lia|].
  rewrite Hn. by eexists.
Qed.

(** Which states have which actions. *)
Definition actions_where (p : Z -> bool) (q : Z -> bool) : bool :=
  forallb (fun st => forallb (fun kn => negb (q kn.2) || p st) (row_moves st)) (seqZ 0 NR_STATES).
Lemma action_state p q st k n : actions_where p q = true -> 0 <= st < NR_STATES ->
  transition st k = Ok n -> n <> __ -> q n = true -> p st = true.
Proof.
  intros Ha Hs Ht Hn Hq. unfold actions_where in Ha. rewrite forallb_forall in Ha.
  specialize (Ha st ltac:(apply list_elem_of_In, elem_of_seqZ; unfold NR_STATES in *; lia)).
  rewrite forallb_forall in Ha. specialize (Ha _ (row_cases _ _ _ Ht Hn)). cbn in Ha. by rewrite Hq in Ha.
Qed.

(** ** One turn *)

Lemma failed_run code s : exists s', failed code s = Ok (false, s') /\ error_code (jp s') = code.
Proof. by eexists. Qed.

Lemma begin_run s a m st init : rel s a -> frame_mode m -> room s -> mode_of (frames a) <> MODE_KEY ->
  (forall z, init z = set_zval z (holder assoc (Frame m [] (KInt 0) : frame D) new_table)) ->
  agree (S (length (zvals s))) (begin_with assoc m st init s) (abs_begin assoc max_depth m st a).
Proof using Hp.
  intros HR Hm Hroom Hkey Hinit. destruct (Z.leb_spec max_depth (Z.of_nat (length (frames a)) + 1)) as [Hd|Hd].
  - unfold abs_begin. rewrite (proj2 (Z.leb_le _ _)) by done.
    unfold begin_with, mbind at 1, M_bind at 1. rewrite (push_run assoc max_depth s a m HR).
    rewrite (proj2 (Z.leb_le _ _)) by lia. by eexists.
  - destruct (frames a) as [|f fs] eqn:Hfs.
    + apply begin_outermost; try done. rewrite Hfs. cbn [length] in *. lia.
    + eapply begin_inner; try done. rewrite Hfs. cbn [length] in *. lia.
Qed.

Lemma act_run s a k n : rel s a -> tame a -> room s -> 0 <= k < NR_CLASSES ->
  transition (l_state (lx a)) k = Ok n -> n < 0 ->
  agree (S (length (zvals s))) (act zend_strtod 0%nat assoc n s) (abs_act zend_strtod assoc max_depth n a).
Proof using Hp.
  intros HR [Hst Htok Hmode _] Hroom Hk Ht Hn.
  assert (Hends : n = -8 \/ n = -7 \/ n = -3 -> l_type (lx a) <> -1 -> tok_ok (lx a)).
  { intros Hc. apply Htok. apply (action_state ends_value (fun n => (n =? -8) || (n =? -7) || (n =? -3)) _ k n);
      [vm_compute; reflexivity|done|done|unfold __; lia|lia]. }
  assert (Hstarts : n = -6 \/ n = -5 -> mode_of (frames a) <> MODE_KEY).
  { intros Hc. apply Hmode. apply (action_state starts_value (fun n => (n =? -6) || (n =? -5)) _ k n);
      [vm_compute; reflexivity|done|done|unfold __; lia|lia]. }
  clear Htok Hmode. unfold act, abs_act.
  destruct (Z.eqb_spec n (-9)) as [->|_].
  { eapply agrees_mono; [by apply close_run|lia]. }
  destruct (Z.eqb_spec n (-8)) as [->|_]; [apply end_object_run; auto|].
  destruct (Z.eqb_spec n (-7)) as [->|_]; [apply end_array_run; auto|].
  destruct (Z.eqb_spec n (-6)) as [->|_].
  { apply begin_run; auto; [unfold frame_mode; auto|].
    intros z. unfold holder. cbn [f_mode]. change (MODE_KEY =? MODE_ARRAY) with false. by destruct assoc. }
  destruct (Z.eqb_spec n (-5)) as [->|_].
  { apply begin_run; auto. unfold frame_mode; auto. }
  destruct (Z.eqb_spec n (-4)) as [->|_]; [eapply agrees_mono; [by apply quote_run|lia]|].
  destruct (Z.eqb_spec n (-3)) as [->|_]; [apply comma_run; auto|].
  destruct (Z.eqb_spec n (-2)) as [->|_]; [eapply agrees_mono; [by apply colon_run|lia]|].
  apply failed_run.
Qed.

Lemma parse_char_run s a c : rel s a -> tame a -> room s -> 0 <= c ->
  agree (S (length (zvals s))) (parse_char zend_strtod 0%nat assoc c s) (turn c a).
Proof using Hp.
  intros HR Ha Hroom Hc. destruct (class_cases c Hc) as (k & Hk & Hrange & _).
  unfold parse_char, abs_char. rewrite Hk, (mbind_reading _ _ _ k) by done.
  destruct (Z.leb_spec k __) as [Hctrl|Hctrl]; [apply failed_run|]. unfold __ in Hctrl.
  rewrite mbind_get. destruct (transition_ok (l_state (lx a)) k (tm_state _ Ha) ltac:(lia)) as [n Hn].
  rewrite (rl_state _ _ _ _ HR), Hn, (mbind_reading _ _ _ n) by done.
  destruct (Z.leb_spec 0 n) as [Hpos|Hneg].
  - rewrite shift_char_run, (related_lexer_of _ _ _ _ HR). eexists. split; [done|]. split; [|cbn; lia].
    by apply related_with_lexer.
  - apply (act_run s a k n); try done. lia.
Qed.

(** ** The loop *)

Definition unit16 (c : Z) : Prop := 0 <= c < 2 ^ 16.

Section Loop.
Context (I : astate D -> Prop) (I_tame : forall a, I a -> tame a).
Context (I_turn : forall c a a', unit16 c -> I a -> turn c a = Go a' -> I a').

Lemma abs_loop_inv text : forall a, I a -> Forall unit16 text ->
  match abs_loop zend_strtod assoc max_depth text a with Go a' => I a' | _ => True end.
Proof using I_turn.
  induction text as [|c text IH]; intros a Ha Htext; [done|]. apply Forall_cons in Htext as [Hc Htext].
  cbn [abs_loop]. destruct (turn c a) as [a'|code|] eqn:Ht; [|done|done]. apply IH; [|done]. by eapply I_turn.
Qed.

Lemma parse_loop_run text : forall s a, rel s a -> I a -> Forall unit16 text ->
  Z.of_nat (length (zvals s)) + Z.of_nat (length text) < LONG_MAX ->
  agree (length (zvals s) + length text) (parse_loop zend_strtod 0%nat assoc text s)
    (abs_loop zend_strtod assoc max_depth text a).
Proof using Hp I_tame I_turn.
  induction text as [|c text IH]; intros s a HR Ha Htext Hroom.
  - eexists. split; [done|]. split; [done|]. cbn [length]. lia.
  - apply Forall_cons in Htext as [Hc Htext]. cbn [parse_loop abs_loop length] in *.
    pose proof (parse_char_run s a c HR (I_tame a Ha) ltac:(unfold room; lia) ltac:(unfold unit16 in Hc; lia)) as Hturn.
    destruct (turn c a) as [a'|code|] eqn:Ht; cbn [agrees] in Hturn.
    + destruct Hturn as (s' & Hs' & HR' & Hl). rewrite (mbind_ok _ _ _ _ _ Hs').
      eapply agrees_mono; [apply IH; [done|by eapply I_turn|done|lia]|lia].
    + destruct Hturn as (s' & Hs' & Hcode). rewrite (mbind_ok _ _ _ _ _ Hs'). by exists s'.
    + unfold agrees. unfold mbind, M_bind. by rewrite Hturn.
Qed.
End Loop.

(** ** The start and the end *)

Lemma new_parser_run : 0 < max_depth ->
  exists j, new_JSON_parser max_depth = Ok j /\ rel (mkPs j [ZNull] [] [] 0 (-1) : pstate D) start.
Proof.
  intros Hd. unfold new_JSON_parser, push. rewrite (proj2 (Z.ltb_ge _ _)) by lia. cbn [top set_top depth stack].
  change (-1 + 1) with (Z.of_nat 0). rewrite (proj2 (Z.leb_gt _ _)) by lia.
  rewrite set_nth_cell_ok by (rewrite length_replicate; lia). eexists. split; [done|].
  constructor; try done; cbn; rewrite ?length_insert, ?length_replicate; try lia.
  apply (nth_cell_insert _ 0). rewrite length_replicate. lia.
Qed.

(** The answer of the parser that goes with one of the automaton. *)
Definition answered (r : res (bool * pstate D)) (o : answer_of (D := D)) : Prop :=
  match o with
  | Value v => exists s, r = Ok (true, s) /\ error_code (jp s) = PHP_JSON_ERROR_NONE /\
      rep (zvals s) 0 (length (zvals s)) 0%nat v
  | Refused code => exists s, r = Ok (false, s) /\ error_code (jp s) = code
  | Died => r = Err Bailout
  end.

Lemma accept_run s a : rel s a -> tame a ->
  answered (accept s)
    match frames a, root a with
    | [], Some v => if l_state (lx a) =? OK then Value v else Refused PHP_JSON_ERROR_SYNTAX
    | _, _ => Refused PHP_JSON_ERROR_SYNTAX
    end.
Proof.
  intros HR Ha. unfold accept. rewrite mbind_get, (rl_state _ _ _ _ HR).
  pose proof (pop_run _ _ s a MODE_DONE HR) as Hpop. pose proof (rl_root _ _ _ _ HR) as Hroot.
  pose proof (tm_root _ Ha) as Hdone. pose proof (top_mode_run _ _ s a HR) as Hm.
  destruct (Z.eqb_spec (l_state (lx a)) OK) as [Hok|Hok]; cycle 1.
  { rewrite mbind_ret. destruct (frames a), (root a); by apply failed_run. }
  destruct (frames a) as [|f fs] eqn:Hfs.
  - destruct (root a) as [v|]; [|by destruct (Hdone Hok eq_refl)].
    cbn [mode_of] in Hpop. rewrite Z.eqb_refl in Hpop. rewrite (mbind_ok _ _ _ _ _ Hpop).
    eexists. split; [done|]. split; [apply (rl_error _ _ _ _ HR)|]. by apply Hroot.
  - destruct (open_focus _ _ s a f fs HR Hfs) as (z & t & ents & next & _ & _ & _ & Hf & _).
    assert (Hne : f_mode f <> MODE_DONE) by (destruct (fa_mode _ _ _ _ _ _ _ _ _ Hf) as [->|[->| ->]]; done).
    cbn [mode_of] in Hpop. rewrite (proj2 (Z.eqb_neq _ _) Hne) in Hpop. rewrite (mbind_ok _ _ _ _ _ Hpop).
    by apply failed_run.
Qed.

Section Whole.
Context (I : astate D -> Prop) (I_tame : forall a, I a -> tame a).
Context (I_turn : forall c a a', unit16 c -> I a -> turn c a = Go a' -> I a').

Lemma parse_JSON_run text : I start -> 0 < max_depth -> Forall unit16 text -> 1 + Z.of_nat (length text) < LONG_MAX ->
  exists j, new_JSON_parser max_depth = Ok j /\
    answered (parse_JSON zend_strtod j 0%nat [ZNull] text assoc) (run zend_strtod assoc max_depth text).
Proof using Hp I_tame I_turn.
  intros Hstart Hd Htext Hlen. destruct (new_parser_run Hd) as (j & Hj & HR). exists j. split; [done|].
  pose proof (abs_loop_inv I I_turn text start Hstart Htext) as Hinv.
  pose proof (parse_loop_run I I_tame I_turn text _ _ HR Hstart Htext ltac:(cbn; lia)) as Hloop.
  unfold parse_JSON, run. destruct (abs_loop zend_strtod assoc max_depth text start) as [a|code|]; cbn [agrees] in Hloop.
  - destruct Hloop as (s & Hs & HR' & _). rewrite (mbind_ok _ _ _ _ _ Hs). apply accept_run; auto.
  - destruct Hloop as (s & Hs & Hcode). rewrite (mbind_ok _ _ _ _ _ Hs). by exists s.
  - unfold answered, mbind, M_bind. by rewrite Hloop.
Qed.
End Whole.
End Run.
