(* ===== verification/JsonSound.v ===== *)
(** * What the automaton has read

    [explains w a]: the text [w], read from the start, leads to the state [a]
    and can be the beginning of a JSON text.  Every character keeps this, so
    an accepted text is one of the grammar, and the automaton's states are
    [tame]. *)

From S2P Require Import Prelude Dll ZendHash ZendHashInv ZendHashSteps ZendHashOps ZendHashIter ZendHashBulk ZendHashOrder ZendHashCursor ZendHashNumeric ZendHashRefine ZendHashClient CLib JsonUtf8 JsonParser JsonAutomaton JsonParserSpec JsonGrammar JsonLex JsonParserRun.
Open Scope Z_scope.

Section Sound.
Context {D : Type} (zend_strtod : list byte -> D) (assoc : bool) (max_depth : Z).
Implicit Types (v : php D) (l : list (hkey * php D)) (w ws s t : list Z) (f : frame D) (fs : list (frame D))
  (a : astate D) (k : list byte) (ch h : hkey).

Notation value := (value zend_strtod assoc).
Notation turn := (abs_char zend_strtod assoc max_depth).

(** How deep a text may nest. *)
Definition levels : nat := Z.to_nat (max_depth - 1).

(** ** Positions in a text *)

Definition opening (m : Z) : Z := if m =? MODE_ARRAY then 91 else 123.
Definition closing (m : Z) : Z := if m =? MODE_ARRAY then 93 else 125.

(** What stands between the brackets. *)
Inductive content (d : nat) : Z -> list Z -> list (hkey * php D) -> Prop :=
  | content_array w l : elements zend_strtod assoc d w l -> content d MODE_ARRAY w l
  | content_object w l : members zend_strtod assoc d w l -> content d MODE_OBJECT w l.

Definition child fs : option hkey := match fs with f :: _ => Some (f_child f) | [] => None end.

(** [slot o fs w]: after [w], a value may come, to be put under the key [o]
    into the innermost of [fs]; [entries m l fs w]: an entry may come, in a
    container with the entries [l] so far. *)
Inductive slot : option hkey -> list (frame D) -> list Z -> Prop :=
  | slot_top w : blank w -> slot None [] w
  | slot_element l ch fs w s : entries MODE_ARRAY l fs w -> blank s ->
      slot (Some (last_key l)) (Frame MODE_ARRAY l ch :: fs) (w ++ s)
  | slot_member l ch fs w n b : entries MODE_OBJECT l fs w -> name n b ->
      slot (member_key assoc b) (Frame MODE_OBJECT l ch :: fs) (w ++ n)
with entries : Z -> list (hkey * php D) -> list (frame D) -> list Z -> Prop :=
  | entries_first m fs w : slot (child fs) fs w -> (length fs < levels)%nat -> entries m [] fs (w ++ [opening m])
  | entries_next m l fs w ws : slot (child fs) fs w -> (length fs < levels)%nat ->
      content (levels - S (length fs)) m ws l -> entries m l fs (w ++ opening m :: ws ++ [44]).

(** After [w], the container may be closed. *)
Inductive full (m : Z) l fs : list Z -> Prop :=
  | full_intro w ws : slot (child fs) fs w -> (length fs < levels)%nat ->
      content (levels - S (length fs)) m ws l -> full m l fs (w ++ opening m :: ws).

Lemma slot_child o m l ch ch' fs w : slot o (Frame m l ch :: fs) w -> slot o (Frame m l ch' :: fs) w.
Proof. inversion 1; subst; by constructor. Qed.

Lemma elements_keys d w l : elements zend_strtod assoc d w l -> l.*1 = (fun i => KInt (Z.of_nat i)) <$> seq 0 (length l).
Proof.
  induction 1 as [|d ws l s1 w v s2 _ IH _ _ _]; [done|].
  rewrite length_app, Nat.add_1_r, seq_S, !fmap_app, IH. done.
Qed.
Lemma last_key_append l v : l.*1 = (fun i => KInt (Z.of_nat i)) <$> seq 0 (length l) ->
  kv_set (last_key l) v l = l ++ [(last_key l, v)].
Proof.
  intros Hl. unfold kv_set. rewrite (proj2 (kv_lookup_None _ _)); [done|]. rewrite Hl. unfold last_key.
  intros (i & Hi & Hin)%list_elem_of_fmap. apply elem_of_seq in Hin. injection Hi as Hi. lia.
Qed.

(** Lists of concatenations, bracketed to the right. *)
Ltac flat := repeat first [rewrite <- app_assoc|progress cbn [app]].

(** A value read, the container is one entry fuller. *)
Lemma fill h m l ch fs w w1 v s : slot (Some h) (Frame m l ch :: fs) w -> value (levels - S (length fs)) w1 v -> blank s ->
  full m (kv_set h v l) fs (w ++ w1 ++ s).
Proof.
  intros Hslot Hv Hs. inversion Hslot as [|? ? ? w0 s0 Hen Hs0|? ? ? w0 n b Hen Hn Hb]; subst.
  - inversion Hen as [? ? w' Hsl Hlen|? ? ? w' ws Hsl Hlen Hc]; subst.
    + rewrite <- !app_assoc. apply full_intro; [done|done|]. cbn. apply content_array. by apply elements_one.
    + inversion Hc; subst. flat.
      apply full_intro; [done|done|]. apply content_array. rewrite last_key_append by by eapply elements_keys.
      by apply elements_more.
  - inversion Hen as [? ? w' Hsl Hlen|? ? ? w' ws Hsl Hlen Hc]; subst.
    + rewrite <- !app_assoc. apply full_intro; [done|done|]. cbn. apply content_object. by eapply members_one.
    + inversion Hc; subst. flat.
      apply full_intro; [done|done|]. apply content_object. by eapply members_more.
Qed.

Lemma full_next m l fs w : full m l fs w -> entries m l fs (w ++ [44]).
Proof. intros []. rewrite <- app_assoc. by apply entries_next. Qed.

(** Closed, the container is a value where it was opened. *)
Lemma full_value m l ch fs w : full m l fs w -> exists w0 w1, w ++ [closing m] = w0 ++ opening m :: w1 /\
  slot (child fs) fs w0 /\ value (levels - length fs) (opening m :: w1) (container assoc (Frame m l ch)).
Proof.
  intros [w0 ws Hs Hl Hc]. exists w0, (ws ++ [closing m]). split; [by rewrite <- app_assoc|]. split; [done|].
  replace (levels - length fs)%nat with (S (levels - S (length fs))) by lia. destruct Hc.
  - by apply value_array.
  - by apply value_object.
Qed.
Lemma empty_value m ch fs w s : m = MODE_ARRAY \/ m = MODE_KEY -> slot (child fs) fs w -> (length fs < levels)%nat -> blank s ->
  value (levels - length fs) (opening m :: s ++ [closing m]) (container assoc (Frame m [] ch)).
Proof.
  intros Hm Hs Hl Hb. replace (levels - length fs)%nat with (S (levels - S (length fs))) by lia.
  destruct Hm as [-> | ->]; [by apply value_array_nil|by apply value_object_nil].
Qed.

(** ** States *)

Definition next_key k fs : option hkey :=
  match fs with f :: _ => entry_key assoc (Lex GO [] k 0 (-1)) f | [] => None end.
Definition ready k fs w : Prop := slot (next_key k fs) fs w.

(** A string may begin: a value, or a name. *)
Inductive quote_at k : list (frame D) -> list Z -> Prop :=
  | quote_value fs w : ready k fs w -> quote_at k fs w
  | quote_name l ch fs w s : entries MODE_OBJECT l fs w -> blank s -> quote_at k (Frame MODE_KEY l ch :: fs) (w ++ s).

(** The last thing read is a scalar, which [b] and [ty] spell. *)
Inductive pending k fs (b : list byte) (ty : Z) : list Z -> Prop :=
  | pending_intro w w1 s x : ready k fs w -> value (levels - length fs) w1 (php_of x) -> blank s ->
      zval_of zend_strtod b ty = Ok x -> ty <> -1 -> pending k fs b ty (w ++ w1 ++ s).

Inductive explains : list Z -> astate D -> Prop :=
  | ex_value st k u fs w r : ready k fs w -> st = VA /\ fs <> [] \/ st = GO /\ fs = [] ->
      explains w (AState (Lex st [] k u (-1)) fs r)
  | ex_empty m st ch k u fs w s r : slot (child fs) fs w -> (length fs < levels)%nat -> blank s ->
      m = MODE_ARRAY /\ st = AR \/ m = MODE_KEY /\ st = OB ->
      explains (w ++ opening m :: s) (AState (Lex st [] k u (-1)) (Frame m [] ch :: fs) r)
  | ex_key l ch k u fs w s r : entries MODE_OBJECT l fs w -> blank s ->
      explains (w ++ s) (AState (Lex KE [] k u (-1)) (Frame MODE_KEY l ch :: fs) r)
  | ex_string st t b k u fs w r : quote_at k fs w -> in_string st t b u ->
      explains (w ++ 34 :: t) (AState (Lex st b k u IS_STRING) fs r)
  | ex_colon l ch s t b u s1 fs w r : entries MODE_OBJECT l fs w -> blank s -> chars t b -> blank s1 ->
      explains (w ++ s ++ 34 :: t ++ 34 :: s1) (AState (Lex CO [] b u (-1)) (Frame MODE_KEY l ch :: fs) r)
  | ex_literal st t k u f fs w r : ready k (f :: fs) w -> literal st t ->
      explains (w ++ t) (AState (Lex st (ascii t) k u (-1)) (f :: fs) r)
  | ex_number st t ty k u f fs w r : ready k (f :: fs) w -> number_prefix st t ty ->
      explains (w ++ t) (AState (Lex st (ascii t) k u ty) (f :: fs) r)
  | ex_scalar b ty k u f fs w r : pending k (f :: fs) b ty w ->
      explains w (AState (Lex OK b k u ty) (f :: fs) r)
  | ex_full m l ch k u fs w r : m <> MODE_KEY -> full m l fs w ->
      explains w (AState (Lex OK [] k u (-1)) (Frame m l ch :: fs) r)
  | ex_done b k u ty w v : text zend_strtod assoc levels w v -> ty = -1 \/ ty = IS_STRING ->
      explains w (AState (Lex OK b k u ty) [] (Some v)).

Lemma entry_next (l : lexer) f fs : entry_key assoc l f = next_key (l_key l) (f :: fs).
Proof. done. Qed.
Lemma ready_mode k f fs w : ready k (f :: fs) w -> f_mode f = MODE_ARRAY \/ f_mode f = MODE_OBJECT.
Proof. unfold ready. inversion 1; subst; auto. Qed.

Lemma explains_start : explains [] start.
Proof. apply ex_value; [|by right]. constructor. constructor. Qed.

Lemma literal_state st t : literal st t -> T1 <= st <= N3.
Proof.
  unfold literal. simpl. intros Hl. repeat (destruct Hl as [[= <- _]|Hl]; [unfold N3, T1; by vm_compute|]). done.
Qed.

Lemma explains_tame w a : explains w a -> tame zend_strtod a.
Proof.
  intros Ha. destruct Ha as [st k u fs w r Hr Hst|m st ch k u fs w s r Hs Hl Hb Hst| |st t b k u fs w r Hq Hs| |st t k u f fs w r Hr Hs
    |st t ty k u f fs w r Hr Hs|b ty k u f fs w r Hs|m l ch k u fs w r Hm Hf|b k u ty w v Hv Hty]; constructor; cbn [lx l_state l_type frames root]; try done.
  - by destruct Hst as [[-> _]|[-> _]].
  - intros _. destruct fs as [|f fs]; [done|]. cbn. destruct (ready_mode _ _ _ _ Hr) as [-> | ->]; done.
  - by destruct Hst as [[-> ?]|[-> ?]].
  - by destruct Hst as [[_ ->]|[_ ->]].
  - by destruct Hst as [[-> ->]|[-> ->]].
  - by destruct Hs.
  - by destruct Hs.
  - by destruct Hs.
  - by destruct Hs.
  - apply literal_state in Hs. unfold T1, N3, NR_STATES in *. lia.
  - apply literal_state in Hs. unfold starts_value. cbn [existsb]. unfold T1, N3, GO, VA, AR in *. lia.
  - by destruct Hs.
  - intros He Hty. destruct (number_done zend_strtod _ _ _ Hs) as (x & Hx & _); [by destruct Hs|]. by exists x.
  - by destruct Hs.
  - intros _ _. destruct Hs. by eexists.
  - intros _ Hne. destruct Hty as [->| ->]; [done|]. by eexists.
Qed.

(** ** Closing and putting *)

Lemma closed_explained m f fs w0 w1 c k u st r a' : slot (child fs) fs w0 ->
  value (levels - length fs) (c :: w1) (container assoc f) -> c = 34 \/ c = 91 \/ c = 123 ->
  close assoc m (AState (Lex st [] k u (-1)) (f :: fs) r) = Go a' -> explains (w0 ++ c :: w1) a'.
Proof.
  intros Hs Hv Hc Hcl. unfold close in Hcl. cbn [frames lx root l_buf l_key l_utf16 l_type] in Hcl.
  destruct (f_mode f =? m); [|done]. destruct fs as [|g gs].
  - injection Hcl as <-. apply ex_done; [|by left]. inversion Hs; subst. rewrite <- (app_nil_r (c :: w1)).
    cbn [length] in Hv. rewrite Nat.sub_0_r in Hv. by apply text_intro; [| | |constructor].
  - injection Hcl as <-. destruct g as [gm gl gc]. unfold put. cbn [f_mode f_entries f_child child] in *.
    apply ex_full; [by inversion Hs|]. rewrite <- (app_nil_r (c :: w1)). by eapply fill; [|exact Hv|constructor].
Qed.

Lemma full_explained m m' l ch fs w k u st r a' : full m l fs w ->
  close assoc m' (AState (Lex st [] k u (-1)) (Frame m l ch :: fs) r) = Go a' -> explains (w ++ [closing m']) a'.
Proof.
  intros Hf Hcl. assert (m = m') as <-.
  { unfold close in Hcl. cbn in Hcl. destruct (Z.eqb_spec m m'); [done|]. by destruct fs. }
  destruct (full_value _ _ ch _ _ Hf) as (w0 & w1 & -> & Hs & Hv). eapply closed_explained; [done|done| |done].
  unfold opening. destruct (m =? MODE_ARRAY); auto.
Qed.

Lemma flush_explained st st0 b k u ty f fs w r a' : pending k (f :: fs) b ty w ->
  flush zend_strtod assoc st (AState (Lex st0 b k u ty) (f :: fs) r) = Go a' ->
  exists l k', a' = AState (Lex st [] k' u (-1)) (Frame (f_mode f) l (f_child f) :: fs) r /\ full (f_mode f) l fs w.
Proof.
  intros [w0 w1 s x Hr Hv Hs Hx Hty] Hfl. unfold flush in Hfl. cbn [frames lx root] in Hfl.
  rewrite (entry_next _ f fs) in Hfl. cbn [l_key] in Hfl. unfold ready in Hr.
  destruct (next_key k (f :: fs)) as [h|]; [|done].
  eexists _, (if f_mode f =? MODE_ARRAY then k else []). split.
  { injection Hfl as <-. unfold put. by destruct (f_mode f =? MODE_ARRAY). }
  rewrite (token_value_of zend_strtod (Lex st0 b k u ty) x Hx). destruct f as [m l ch].
  eapply fill; [exact Hr| |done]. replace (levels - S (length fs))%nat with (levels - length (Frame m l ch :: fs))%nat by done. exact Hv.
Qed.

Lemma end_explained m st b k u ty f fs w r a' : pending k (f :: fs) b ty w ->
  abs_end zend_strtod assoc m (AState (Lex st b k u ty) (f :: fs) r) = Go a' -> explains (w ++ [closing m]) a'.
Proof.
  intros Hs Hend. assert (Hty : ty <> -1) by by destruct Hs.
  unfold abs_end in Hend. cbn [lx l_type frames mode_of l_state] in Hend. rewrite (proj2 (Z.eqb_neq _ _) Hty) in Hend.
  cbn [negb andb] in Hend. destruct (f_mode f =? m) eqn:Hm.
  - destruct (flush _ _ _ _) as [a1| |] eqn:Hfl; try done.
    destruct (flush_explained _ _ _ _ _ _ _ _ _ _ _ Hs Hfl) as (l & k' & -> & Hf).
    by eapply full_explained.
  - unfold close in Hend. cbn in Hend. rewrite Hm in Hend. by destruct fs.
Qed.

Lemma comma_explained st b k u ty f fs w r a' : pending k (f :: fs) b ty w \/ b = [] /\ ty = -1 /\ full (f_mode f) (f_entries f) fs w ->
  abs_comma zend_strtod assoc (AState (Lex st b k u ty) (f :: fs) r) = Go a' -> explains (w ++ [44]) a'.
Proof.
  intros Hs Hc.
  assert (Hmode : f_mode f = MODE_ARRAY \/ f_mode f = MODE_OBJECT).
  { unfold abs_comma in Hc. cbn [frames mode_of] in Hc.
    destruct (Z.eqb_spec (f_mode f) MODE_OBJECT), (Z.eqb_spec (f_mode f) MODE_ARRAY); auto. done. }
  assert (Hfull : exists l k' st', st' = (if f_mode f =? MODE_OBJECT then KE else VA) /\ full (f_mode f) l fs w /\
    a' = AState (Lex st' [] k' u (-1)) (Frame (if f_mode f =? MODE_OBJECT then MODE_KEY else f_mode f) l (f_child f) :: fs) r).
  { unfold abs_comma in Hc. cbn [frames mode_of lx l_type root] in Hc.
    replace ((f_mode f =? MODE_OBJECT) || (f_mode f =? MODE_ARRAY)) with true in Hc by (destruct Hmode as [-> | ->]; done).
    destruct Hs as [Hs|(-> & -> & Hs)].
    - assert (Hty : ty <> -1) by by destruct Hs. rewrite (proj2 (Z.eqb_neq _ _) Hty) in Hc.
      destruct (flush _ _ _ _) as [a1| |] eqn:Hfl; try done.
      destruct (flush_explained _ _ _ _ _ _ _ _ _ _ _ Hs Hfl) as (l & k' & -> & Hf).
      exists l, k', (if f_mode f =? MODE_OBJECT then KE else VA). split; [done|]. split; [done|]. injection Hc as <-.
      by destruct (f_mode f =? MODE_OBJECT).
    - exists (f_entries f), k, (if f_mode f =? MODE_OBJECT then KE else VA). split; [done|]. split; [done|]. injection Hc as <-.
      destruct f. by destruct (_ =? MODE_OBJECT). }
  destruct Hfull as (l & k' & st' & -> & Hf & ->). apply full_next in Hf.
  destruct Hmode as [Hm|Hm]; rewrite Hm in *.
  - change (MODE_ARRAY =? MODE_OBJECT) with false. cbv iota. apply ex_value; [|by left].
    rewrite <- (app_nil_r (w ++ [44])). apply slot_element; [done|constructor].
  - change (MODE_OBJECT =? MODE_OBJECT) with true. cbv iota.
    rewrite <- (app_nil_r (w ++ [44])). apply ex_key; [done|constructor].
Qed.

(** A container opened where a value may come. *)
Lemma begin_explained m st st0 k u fs w r a' : ready k fs w -> m = MODE_ARRAY /\ st = AR \/ m = MODE_KEY /\ st = OB ->
  abs_begin assoc max_depth m st (AState (Lex st0 [] k u (-1)) fs r) = Go a' -> explains (w ++ [opening m]) a'.
Proof.
  intros Hr Hm Hb. unfold abs_begin in Hb. cbn [frames lx root l_buf l_key l_utf16] in Hb.
  destruct (Z.leb_spec max_depth (Z.of_nat (length fs) + 1)) as [|Hd]; [done|].
  destruct fs as [|f fs].
  - injection Hb as <-. apply ex_empty; [exact Hr|unfold levels; cbn [length] in *; lia|constructor|done].
  - rewrite (entry_next _ f fs) in Hb. cbn [l_key] in Hb. unfold ready in Hr. destruct (next_key k (f :: fs)) as [h|]; [|done].
    assert (Ha : exists k', a' = AState (Lex st [] k' u (-1)) (Frame m [] (KInt 0) :: Frame (f_mode f) (f_entries f) h :: fs) r).
    { injection Hb as <-. destruct (f_mode f =? MODE_ARRAY); by eexists. }
    destruct Ha as [k' ->]. apply ex_empty; [|unfold levels; cbn [length] in *; lia|constructor|done].
    destruct f as [fm fl fc]. cbn [f_mode f_entries child f_child]. by eapply slot_child.
Qed.

(** ** One turn *)

Lemma turn_inv c a a' : unit16 c -> turn c a = Go a' ->
  exists kk n, In (kk, n) (row_moves (l_state (lx a))) /\ in_class kk c = true /\
    ((moves (l_state (lx a)) c kk n /\ a' = AState (lex_char c kk n (lx a)) (frames a) (root a)) \/
     (n < 0 /\ abs_act zend_strtod assoc max_depth n a = Go a')).
Proof.
  intros Hc Ht. unfold unit16 in Hc. destruct (class_cases c) as (kk & Hkk & _ & Hin); [lia|].
  unfold abs_char in Ht. rewrite Hkk in Ht. destruct (kk <=? __); [done|].
  destruct (transition _ _) as [n|] eqn:Hn; [|done]. exists kk, n.
  assert (Hne : n <> __) by (intros ->; done). pose proof (row_cases _ _ _ Hn Hne) as Hrow.
  split; [done|]. split; [done|]. destruct (Z.leb_spec 0 n); [left|by right]. split; [done|]. by injection Ht as <-.
Qed.

(** A blank leaves the lexer as it is, outside tokens. *)
Definition between (st : Z) : Prop := In st [GO; OK; OB; KE; CO; VA; AR].
Lemma lex_blank st c kk b k u ty : between st -> kk = C_SPACE \/ kk = C_WHITE ->
  lex_char c kk st (Lex st b k u ty) = Lex st b k u ty.
Proof.
  intros Hst Hkk.
  assert (Hk : (kk =? C_DIGIT) || (kk =? C_ZERO) = false /\ (kk =? C_POINT) = false /\ (kk =? C_QUOTE) = false /\ (C_WHITE <? kk) = false)
    by (by destruct Hkk as [-> | ->]).
  assert (Hs : forallb (fun x => negb (st =? x)) [E1; T3; F4; N3; ST; U2; U3; U4] = true).
  { unfold between in Hst. simpl in Hst. repeat (destruct Hst as [<-|Hst]; [reflexivity|]). done. }
  cbn [forallb] in Hs. rewrite !andb_true_iff, !negb_true_iff in Hs.
  destruct Hk as (K1 & K2 & K3 & K4), Hs as (S1 & S2 & S3 & S4 & S5 & S6 & S7 & S8 & _).
  unfold lex_char, lex_string. cbn [l_type l_state l_buf l_key l_utf16].
  rewrite K1, K2, K3, K4, S1, S2, S3, S4, S5, S6, S7, S8. cbn [andb orb]. rewrite !andb_false_r.
  by destruct (ty =? IS_STRING).
Qed.
Lemma blank_snoc s c : blank s -> blank_char c -> blank (s ++ [c]).
Proof. intros Hs Hc. apply Forall_app. split; [done|]. by constructor. Qed.
Lemma ready_blank k fs w c : ready k fs w -> blank_char c -> ready k fs (w ++ [c]).
Proof.
  unfold ready. intros Hr Hc. inversion Hr as [? Hw|? ? ? ? ? ? Hb|? ? ? ? ? ? ? Hn]; subst.
  - constructor. by apply blank_snoc.
  - rewrite <- app_assoc. apply slot_element; [done|]. by apply blank_snoc.
  - rewrite <- app_assoc. apply slot_member; [done|]. inversion Hn; subst. flat. constructor; try done. by apply blank_snoc.
Qed.

Lemma blank_move st c kk : between st -> In (kk, st) (row_moves st) -> in_class kk c = true ->
  blank_char c /\ (kk = C_SPACE \/ kk = C_WHITE).
Proof.
  intros Hst Hin Hc. assert (Hk : kk = C_SPACE \/ kk = C_WHITE).
  { assert (Hall : forallb (fun st => forallb (fun kn => negb (kn.2 =? st) || (kn.1 =? C_SPACE) || (kn.1 =? C_WHITE)) (row_moves st))
      [GO; OK; OB; KE; CO; VA; AR] = true) by (vm_compute; reflexivity).
    rewrite forallb_forall in Hall. specialize (Hall st Hst). rewrite forallb_forall in Hall. specialize (Hall _ Hin). cbn in Hall.
    rewrite Z.eqb_refl in Hall. cbn [negb orb] in Hall. lia. }
  split; [by eapply in_blank|done].
Qed.
Lemma quote_start st c kk n k u fs w r : between st -> quote_at k fs w -> moves st c kk n -> n = ST ->
  explains (w ++ [c]) (AState (lex_char c kk n (Lex st [] k u (-1))) fs r).
Proof.
  intros Hst Hq (Hin & Hc & _ & _) ->.
  assert (Hk : kk = C_QUOTE).
  { assert (Hall : forallb (fun st => forallb (fun kn => negb (kn.2 =? ST) || (kn.1 =? C_QUOTE)) (row_moves st))
      [GO; OK; OB; KE; CO; VA; AR] = true) by (vm_compute; reflexivity).
    rewrite forallb_forall in Hall. specialize (Hall st Hst). rewrite forallb_forall in Hall. specialize (Hall _ Hin). cbn [fst snd] in Hall.
    change (ST =? ST) with true in Hall. cbn [negb orb] in Hall. lia. }
  subst kk. assert (c = 34) as -> by (cbv [C_QUOTE] in Hc; class_of_char Hc; lia).
  assert (E : lex_char 34 C_QUOTE ST (Lex st [] k u (-1)) = Lex ST [] k u IS_STRING) by reflexivity.
  rewrite E. apply ex_string; [done|]. repeat constructor.
Qed.

Lemma scalar_start st c kk n k u f fs w r : st = VA \/ st = AR -> ready k (f :: fs) w -> moves st c kk n -> n <> st ->
  explains (w ++ [c]) (AState (lex_char c kk n (Lex st [] k u (-1))) (f :: fs) r).
Proof.
  intros Hst Hr Hm Hne. destruct (Z.eq_dec n ST) as [Hn|Hn].
  - eapply quote_start; [|by apply quote_value|done|done]. unfold between. simpl. destruct Hst as [-> | ->]; tauto.
  - destruct (scalar_starts st c kk n Hst Hm Hne Hn) as (ty & Hs & _ & Hlex). rewrite Hlex.
    destruct Hs as [[Hl ->]|Hp]; [by apply ex_literal|by apply ex_number].
Qed.

(** *** Turn by turn *)

Ltac actions Hin := each_move Hin; try (exfalso; lia).

Lemma value_turn st k u fs w r c a' : ready k fs w -> st = VA /\ fs <> [] \/ st = GO /\ fs = [] -> unit16 c ->
  turn c (AState (Lex st [] k u (-1)) fs r) = Go a' -> explains (w ++ [c]) a'.
Proof.
  intros Hr Hst Hc Ht. destruct (turn_inv _ _ _ Hc Ht) as (kk & n & Hin & Hcl & [[Hm ->]|[Hn Hact]]);
    cbn [lx l_state frames root] in *.
  - assert (Hb : between st) by (unfold between; simpl; destruct Hst as [[-> _]|[-> _]]; tauto).
    destruct (Z.eq_dec n st) as [->|Hne].
    + destruct (blank_move _ _ _ Hb Hin Hcl) as [Hbl Hk]. rewrite (lex_blank _ _ _ _ _ _ _ Hb Hk). apply ex_value; [|done].
      by apply ready_blank.
    + destruct Hst as [[-> Hfs]|[-> ->]].
      * destruct fs as [|f fs]; [done|]. apply scalar_start; auto.
      * eapply quote_start; [done|by apply quote_value|done|]. destruct Hm as (_ & _ & Hpos & _). by actions Hin.
  - assert (Hm : n = -6 /\ c = 123 \/ n = -5 /\ c = 91).
    { clear Hact. destruct Hst as [[-> _]|[-> _]]; actions Hin; class_of_char Hcl; lia. }
    destruct Hm as [[-> ->]|[-> ->]]; [eapply (begin_explained MODE_KEY OB)|eapply (begin_explained MODE_ARRAY AR)];
      [exact Hr|auto|exact Hact|exact Hr|auto|exact Hact].
Qed.

Lemma empty_turn m st ch k u fs w s r c a' : slot (child fs) fs w -> (length fs < levels)%nat -> blank s ->
  m = MODE_ARRAY /\ st = AR \/ m = MODE_KEY /\ st = OB -> unit16 c ->
  turn c (AState (Lex st [] k u (-1)) (Frame m [] ch :: fs) r) = Go a' -> explains ((w ++ opening m :: s) ++ [c]) a'.
Proof.
  intros Hs Hl Hb Hmst Hc Ht. destruct (turn_inv _ _ _ Hc Ht) as (kk & n & Hin & Hcl & [[Hm ->]|[Hn Hact]]);
    cbn [lx l_state frames root] in *.
  - assert (Hbt : between st) by (unfold between; simpl; destruct Hmst as [[_ ->]|[_ ->]]; tauto).
    destruct (Z.eq_dec n st) as [->|Hne].
    + destruct (blank_move _ _ _ Hbt Hin Hcl) as [Hbl Hk]. rewrite (lex_blank _ _ _ _ _ _ _ Hbt Hk). flat.
      apply ex_empty; try done. by apply blank_snoc.
    + destruct Hmst as [[-> ->]|[-> ->]].
      * replace ((w ++ opening MODE_ARRAY :: s) ++ [c]) with (((w ++ [opening MODE_ARRAY]) ++ s) ++ [c]) by by flat.
        apply scalar_start; auto. apply slot_element; [|done]. by apply entries_first.
      * replace ((w ++ opening MODE_KEY :: s) ++ [c]) with (((w ++ [opening MODE_OBJECT]) ++ s) ++ [c]) by by flat.
        eapply quote_start; [done|apply quote_name; [by apply entries_first|done]|done|].
        destruct Hm as (_ & _ & Hpos & _). by actions Hin.
  - assert (Hv : forall m', m' = m -> close assoc m' (AState (Lex st [] k u (-1)) (Frame m [] ch :: fs) r) = Go a' ->
      explains (w ++ opening m :: s ++ [closing m]) a').
    { intros m' -> Hcl'. eapply closed_explained; [exact Hs| |destruct Hmst as [[-> _]|[-> _]]; auto|exact Hcl'].
      apply empty_value with (w := w); try done. destruct Hmst as [[-> _]|[-> _]]; auto. }
    flat. destruct Hmst as [[-> ->]|[-> ->]].
    + actions Hin; class_of_char Hcl; apply Z.eqb_eq in Hcl; subst c.
      * replace (w ++ opening MODE_ARRAY :: s ++ [123]) with (((w ++ [opening MODE_ARRAY]) ++ s) ++ [123]) by by flat.
        eapply (begin_explained MODE_KEY); [|by right|exact Hact]. apply slot_element; [|done]. by apply entries_first.
      * replace (w ++ opening MODE_ARRAY :: s ++ [91]) with (((w ++ [opening MODE_ARRAY]) ++ s) ++ [91]) by by flat.
        eapply (begin_explained MODE_ARRAY); [|by left|exact Hact]. apply slot_element; [|done]. by apply entries_first.
      * by eapply Hv.
    + actions Hin; class_of_char Hcl; apply Z.eqb_eq in Hcl; subst c. by eapply Hv.
Qed.

Lemma key_turn l ch k u fs w s r c a' : entries MODE_OBJECT l fs w -> blank s -> unit16 c ->
  turn c (AState (Lex KE [] k u (-1)) (Frame MODE_KEY l ch :: fs) r) = Go a' -> explains ((w ++ s) ++ [c]) a'.
Proof.
  intros He Hs Hc Ht. destruct (turn_inv _ _ _ Hc Ht) as (kk & n & Hin & Hcl & [[Hm ->]|[Hn Hact]]);
    cbn [lx l_state frames root] in *; [|clear Hact; by actions Hin].
  assert (Hb : between KE) by (unfold between; simpl; tauto). destruct (Z.eq_dec n KE) as [->|Hne].
  - destruct (blank_move _ _ _ Hb Hin Hcl) as [Hbl Hk]. rewrite (lex_blank _ _ _ _ _ _ _ Hb Hk), <- app_assoc.
    apply ex_key; [done|]. by apply blank_snoc.
  - eapply quote_start; [done|by apply quote_name|done|]. destruct Hm as (_ & _ & Hpos & _). by actions Hin.
Qed.

Lemma quote_explained t b k u fs w r a' : quote_at k fs w -> chars t b ->
  abs_quote (AState (Lex ST b k u IS_STRING) fs r) = Go a' -> explains ((w ++ 34 :: t) ++ [34]) a'.
Proof.
  intros Hq Ht Ha. unfold abs_quote in Ha. cbn [frames lx root l_buf l_key l_utf16 l_type] in Ha.
  assert (Hv : forall d, value d (34 :: t ++ [34]) (PString b)) by (intros d; by apply value_string).
  destruct Hq as [fs w Hr|l ch fs w s He Hs]; cycle 1.
  { cbn in Ha. injection Ha as <-. rewrite <- !app_assoc. apply ex_colon; [done|done|done|constructor]. }
  rewrite <- app_assoc. destruct fs as [|f fs].
  - cbn in Ha. injection Ha as <-. apply ex_done; [|by right]. inversion Hr; subst.
    rewrite <- (app_nil_r ((34 :: t) ++ _)).
    apply (text_intro zend_strtod assoc levels w 34 (t ++ [34])); [done|apply Hv|auto|constructor].
  - cbn [mode_of] in Ha. assert (Hm : f_mode f = MODE_ARRAY \/ f_mode f = MODE_OBJECT) by by eapply ready_mode.
    replace (f_mode f =? MODE_KEY) with false in Ha by (by destruct Hm as [-> | ->]).
    replace ((f_mode f =? MODE_ARRAY) || (f_mode f =? MODE_OBJECT)) with true in Ha by (by destruct Hm as [-> | ->]).
    injection Ha as <-. apply ex_scalar. rewrite <- (app_nil_r ((34 :: t) ++ [34])).
    apply (pending_intro k (f :: fs) b IS_STRING w (34 :: t ++ [34]) [] (ZString b)); [done|apply Hv|constructor|done|done].
Qed.

Lemma string_turn st t b k u fs w r c a' : quote_at k fs w -> in_string st t b u -> unit16 c ->
  turn c (AState (Lex st b k u IS_STRING) fs r) = Go a' -> explains ((w ++ 34 :: t) ++ [c]) a'.
Proof.
  intros Hq Hs Hc Ht. destruct (turn_inv _ _ _ Hc Ht) as (kk & n & Hin & Hcl & [[Hm ->]|[Hn Hact]]);
    cbn [lx l_state frames root] in *.
  - destruct (string_move _ _ _ _ _ _ _ Hs Hm) as (b' & u' & Hs' & Hlex). rewrite Hlex, <- app_assoc. by apply ex_string.
  - assert (Hq' : n = -4 /\ c = 34 /\ st = ST).
    { clear Hact. destruct Hs; actions Hin; class_of_char Hcl; lia. }
    destruct Hq' as (-> & -> & ->). inversion Hs; subst. eapply quote_explained; [exact Hq| |exact Hact]. done.
Qed.

Lemma colon_turn l ch s t b u s1 fs w r c a' : entries MODE_OBJECT l fs w -> blank s -> chars t b -> blank s1 -> unit16 c ->
  turn c (AState (Lex CO [] b u (-1)) (Frame MODE_KEY l ch :: fs) r) = Go a' ->
  explains ((w ++ s ++ 34 :: t ++ 34 :: s1) ++ [c]) a'.
Proof.
  intros He Hs Hb Hs1 Hc Ht. destruct (turn_inv _ _ _ Hc Ht) as (kk & n & Hin & Hcl & [[Hm ->]|[Hn Hact]]);
    cbn [lx l_state frames root] in *.
  - assert (Hbt : between CO) by (unfold between; simpl; tauto).
    assert (n = CO) as -> by (destruct Hm as (_ & _ & Hpos & _); by actions Hin).
    destruct (blank_move _ _ _ Hbt Hin Hcl) as [Hbl Hk]. rewrite (lex_blank _ _ _ _ _ _ _ Hbt Hk). flat.
    apply ex_colon; try done. by apply blank_snoc.
  - assert (Hm : n = -2 /\ c = 58) by (clear Hact; actions Hin; class_of_char Hcl; lia).
    destruct Hm as [-> ->]. cbn in Hact. injection Hact as <-. apply ex_value; [|by left].
    flat. unfold with_mode. cbn [f_entries f_child]. unfold ready. cbn [next_key entry_key f_mode].
    change (MODE_OBJECT =? MODE_ARRAY) with false. cbv iota. apply slot_member; [done|]. constructor; try done. constructor.
Qed.

(** The character after a complete scalar. *)
Lemma scalar_acts st b k u ty f fs w r kk n c a' : existsb (Z.eqb st) [OK; ZE; IN; FR; E3] = true -> In (kk, n) (row_moves st) ->
  in_class kk c = true -> n < 0 -> pending k (f :: fs) b ty w ->
  abs_act zend_strtod assoc max_depth n (AState (Lex st b k u ty) (f :: fs) r) = Go a' -> explains (w ++ [c]) a'.
Proof.
  intros Hst Hin Hcl Hn Hs Hact.
  assert (Hc : n = -8 /\ c = 125 \/ n = -7 /\ c = 93 \/ n = -3 /\ c = 44).
  { clear Hact. cbn [existsb] in Hst. rewrite !orb_true_iff, !Z.eqb_eq in Hst.
    destruct Hst as [->|[->|[->|[->|[->|?]]]]]; try done; actions Hin; class_of_char Hcl; lia. }
  destruct Hc as [[-> ->]|[[-> ->]|[-> ->]]].
  - eapply (end_explained MODE_OBJECT); [exact Hs|exact Hact].
  - eapply (end_explained MODE_ARRAY); [exact Hs|exact Hact].
  - eapply comma_explained; [by left|exact Hact].
Qed.

Lemma literal_turn st t k u f fs w r c a' : ready k (f :: fs) w -> literal st t -> unit16 c ->
  turn c (AState (Lex st (ascii t) k u (-1)) (f :: fs) r) = Go a' -> explains ((w ++ t) ++ [c]) a'.
Proof.
  intros Hr Hl Hc Ht. destruct (turn_inv _ _ _ Hc Ht) as (kk & n & Hin & Hcl & [[Hm ->]|[Hn Hact]]);
    cbn [lx l_state frames root] in *.
  - rewrite <- app_assoc. destruct (literal_move _ _ _ _ _ k u Hl Hm) as [[Hl' ->]|(-> & b & ty & -> & Hty & Hx)].
    + by apply ex_literal.
    + destruct (Hx D zend_strtod assoc (levels - length (f :: fs))%nat) as (x & Hx' & Hv). apply ex_scalar.
      rewrite <- (app_nil_r (t ++ [c])). eapply pending_intro; [exact Hr|exact Hv|constructor|exact Hx'|done].
  - exfalso. clear Hact. unfold literal in Hl. simpl in Hl.
    repeat (destruct Hl as [Hl|Hl]; [injection Hl as <- <-; by actions Hin|]). done.
Qed.

Lemma number_turn st t ty k u f fs w r c a' : ready k (f :: fs) w -> number_prefix st t ty -> unit16 c ->
  turn c (AState (Lex st (ascii t) k u ty) (f :: fs) r) = Go a' -> explains ((w ++ t) ++ [c]) a'.
Proof.
  intros Hr Hp Hc Ht.
  assert (Hdone : existsb (Z.eqb st) [ZE; IN; FR; E3] = true -> forall s, blank s -> pending k (f :: fs) (ascii t) ty (w ++ t ++ s)).
  { intros He s Hs. destruct (number_done zend_strtod _ _ _ Hp He) as (x & Hx & Hv & Hty).
    eapply pending_intro; [exact Hr|by apply value_number|done|done|done]. }
  destruct (turn_inv _ _ _ Hc Ht) as (kk & n & Hin & Hcl & [[Hm ->]|[Hn Hact]]); cbn [lx l_state frames root] in *.
  - rewrite <- app_assoc. destruct (Z.eq_dec n OK) as [->|Hne].
    + destruct (number_blank _ _ _ _ _ Hp Hm) as (Hb & He & Hlex). rewrite Hlex. apply ex_scalar, Hdone; [done|].
      constructor; [done|constructor].
    + destruct (prefix_snoc _ _ _ _ _ _ Hp Hm Hne) as (ty' & Hp' & _ & Hlex). rewrite Hlex. by apply ex_number.
  - assert (He : existsb (Z.eqb st) [ZE; IN; FR; E3] = true) by (clear Hact Hdone; destruct Hp; try reflexivity; by actions Hin).
    specialize (Hdone He [] ltac:(constructor)). rewrite app_nil_r in Hdone.
    eapply (scalar_acts st); [|exact Hin|exact Hcl|exact Hn|exact Hdone|exact Hact].
    rewrite <- He. cbn [existsb] in He |- *. by rewrite He, orb_true_r.
Qed.

Lemma scalar_turn b ty k u f fs w r c a' : pending k (f :: fs) b ty w -> unit16 c ->
  turn c (AState (Lex OK b k u ty) (f :: fs) r) = Go a' -> explains (w ++ [c]) a'.
Proof.
  intros Hs Hc Ht. destruct (turn_inv _ _ _ Hc Ht) as (kk & n & Hin & Hcl & [[Hm ->]|[Hn Hact]]); cbn [lx l_state frames root] in *.
  - assert (Hbt : between OK) by (unfold between; simpl; tauto).
    assert (n = OK) as -> by (destruct Hm as (_ & _ & Hpos & _); by actions Hin).
    destruct (blank_move _ _ _ Hbt Hin Hcl) as [Hbl Hk]. rewrite (lex_blank _ _ _ _ _ _ _ Hbt Hk). apply ex_scalar.
    destruct Hs as [w w1 s x Hr Hv Hs Hx Hty]. flat. by eapply pending_intro; [..|apply blank_snoc| |].
  - by eapply (scalar_acts OK).
Qed.

(** What may follow in the state OK. *)
Lemma ok_inv b k u ty fs r c a' : unit16 c -> turn c (AState (Lex OK b k u ty) fs r) = Go a' ->
  blank_char c /\ a' = AState (Lex OK b k u ty) fs r \/
  exists n, (n = -8 /\ c = 125 \/ n = -7 /\ c = 93 \/ n = -3 /\ c = 44) /\
    abs_act zend_strtod assoc max_depth n (AState (Lex OK b k u ty) fs r) = Go a'.
Proof.
  intros Hc Ht. destruct (turn_inv _ _ _ Hc Ht) as (kk & n & Hin & Hcl & [[Hm ->]|[Hn Hact]]); cbn [lx l_state frames root] in *.
  - left. assert (Hbt : between OK) by (unfold between; simpl; tauto).
    assert (n = OK) as -> by (destruct Hm as (_ & _ & Hpos & _); by actions Hin).
    destruct (blank_move _ _ _ Hbt Hin Hcl) as [Hbl Hk]. by rewrite (lex_blank _ _ _ _ _ _ _ Hbt Hk).
  - right. exists n. split; [|exact Hact]. clear Hact. actions Hin; class_of_char Hcl; lia.
Qed.

Lemma full_turn m l ch k u fs w r c a' : m <> MODE_KEY -> full m l fs w -> unit16 c ->
  turn c (AState (Lex OK [] k u (-1)) (Frame m l ch :: fs) r) = Go a' -> explains (w ++ [c]) a'.
Proof.
  intros Hm Hf Hc Ht. destruct (ok_inv _ _ _ _ _ _ _ _ Hc Ht) as [[Hb ->]|(n & Hn & Hact)].
  - apply ex_full; [done|]. destruct Hf as [w ws Hs Hl Hct]. flat. apply full_intro; [done|done|].
    destruct Hct as [ws l He|ws l He]; constructor; inversion He; subst; flat; econstructor; eauto using blank_snoc.
  - destruct Hn as [[-> ->]|[[-> ->]|[-> ->]]].
    + eapply (full_explained m MODE_OBJECT); [exact Hf|exact Hact].
    + eapply (full_explained m MODE_ARRAY); [exact Hf|exact Hact].
    + eapply comma_explained; [|exact Hact]. by right.
Qed.

Lemma done_turn b k u ty w v c a' : text zend_strtod assoc levels w v -> ty = -1 \/ ty = IS_STRING -> unit16 c ->
  turn c (AState (Lex OK b k u ty) [] (Some v)) = Go a' -> explains (w ++ [c]) a'.
Proof.
  intros Hv Hty Hc Ht. destruct (ok_inv _ _ _ _ _ _ _ _ Hc Ht) as [[Hb ->]|(n & Hn & Hact)].
  - apply ex_done; [|done]. destruct Hv as [s1 h w v s2 H1 Hv Hh H2]. flat.
    apply (text_intro zend_strtod assoc levels s1 h w); try done. by apply blank_snoc.
  - exfalso. destruct Hn as [[-> ->]|[[-> ->]|[-> ->]]]; [| |by cbn in Hact];
      cbn in Hact; destruct Hty as [-> | ->]; by cbn in Hact.
Qed.

Theorem turn_explained w a c a' : explains w a -> unit16 c -> turn c a = Go a' -> explains (w ++ [c]) a'.
Proof.
  intros Ha Hc. destruct Ha.
  - by eapply value_turn.
  - by eapply empty_turn.
  - by eapply key_turn.
  - by eapply string_turn.
  - by eapply colon_turn.
  - by eapply literal_turn.
  - by eapply number_turn.
  - by eapply scalar_turn.
  - by eapply full_turn.
  - by eapply done_turn.
Qed.

Lemma loop_explained text : forall w a a', explains w a -> Forall unit16 text ->
  abs_loop zend_strtod assoc max_depth text a = Go a' -> explains (w ++ text) a'.
Proof.
  induction text as [|c text IH]; intros w a a' Ha Ht Hl.
  - injection Hl as <-. by rewrite app_nil_r.
  - apply Forall_cons in Ht as [Hc Ht]. cbn [abs_loop] in Hl. destruct (turn c a) as [a1| |] eqn:Hturn; try done.
    change (c :: text) with ([c] ++ text). rewrite app_assoc. eapply IH; [|done|exact Hl]. by eapply turn_explained.
Qed.

(** What the automaton accepts is a text of the grammar, with its value. *)
Lemma run_sound w v : Forall unit16 w -> run zend_strtod assoc max_depth w = Value v ->
  text zend_strtod assoc levels w v.
Proof.
  intros Hw Hr. unfold run in Hr. destruct (abs_loop _ _ _ w start) as [a| |] eqn:Hl; try done.
  pose proof (loop_explained w [] start a explains_start Hw Hl) as Ha. cbn [app] in Ha.
  destruct (frames a) as [|f fs] eqn:Hfs; [|done]. destruct (root a) as [v'|] eqn:Hroot; [|done].
  destruct (Z.eqb_spec (l_state (lx a)) OK) as [Hok|]; [|done]. injection Hr as ->.
  destruct Ha as [? ? ? ? ? ? ? [[-> ?]|[-> _]]| | |? ? ? ? ? ? ? ? ? Hs| | | | | |]; cbn in *; try done.
  - destruct Hs; done.
  - by injection Hroot as ->.
Qed.
End Sound.
