(* ===== verification/JsonComplete.v ===== *)
(** * Every text of the grammar is read

    [loops w a a']: reading [w] takes the automaton from [a] to [a'].  By
    induction on the grammar, the automaton reads each phrase and ends with
    its value, pending or already stored. *)

From S2P Require Import Prelude Dll ZendHash ZendHashInv ZendHashSteps ZendHashOps ZendHashIter ZendHashBulk ZendHashOrder ZendHashCursor ZendHashNumeric ZendHashRefine ZendHashClient CLib JsonUtf8 JsonParser JsonAutomaton JsonParserSpec JsonGrammar JsonLex JsonParserRun JsonSound.
Open Scope Z_scope.

Section Complete.
Context {D : Type} (zend_strtod : list byte -> D) (assoc : bool) (max_depth : Z).
Implicit Types (v : php D) (l : list (hkey * php D)) (w ws s t : list Z) (f : frame D) (fs : list (frame D))
  (a : astate D) (k b : list byte) (ch h : hkey) (r : option (php D)).

Notation turn := (abs_char zend_strtod assoc max_depth).
Notation next_key := (next_key assoc).
Notation levels := (levels max_depth).

Definition loops w a a' : Prop := abs_loop zend_strtod assoc max_depth w a = Go a'.

Lemma loops_nil a : loops [] a a.
Proof. done. Qed.
Lemma loops_app w1 w2 a1 a2 a3 : loops w1 a1 a2 -> loops w2 a2 a3 -> loops (w1 ++ w2) a1 a3.
Proof.
  unfold loops. revert a1. induction w1 as [|c w1 IH]; intros a1; cbn [app abs_loop]; [by intros [= ->]|].
  destruct (turn c a1); [|done|done]. apply IH.
Qed.
Lemma loops_cons c w a1 a2 a3 : turn c a1 = Go a2 -> loops w a2 a3 -> loops (c :: w) a1 a3.
Proof. unfold loops. cbn [abs_loop]. by intros ->. Qed.
Lemma loops_one c a1 a2 : turn c a1 = Go a2 -> loops [c] a1 a2.
Proof. intros Ht. by eapply loops_cons. Qed.

(** A character that only changes the lexer. *)
Lemma turn_shift st b k u ty fs r c kk n : class_of c = Ok kk -> __ < kk -> transition st kk = Ok n -> 0 <= n ->
  turn c (AState (Lex st b k u ty) fs r) = Go (AState (lex_char c kk n (Lex st b k u ty)) fs r).
Proof.
  intros Hc Hk Hn Hpos. unfold abs_char. rewrite Hc. rewrite (proj2 (Z.leb_gt _ _)) by done.
  cbn [lx l_state]. by rewrite Hn, (proj2 (Z.leb_le _ _)).
Qed.

(** ** Strings *)

(** Characters below 128, checked one by one. *)
Definition leads (st n : Z) (p : Z -> bool) : bool :=
  forallb (fun c => negb (p c) ||
    match class_of c with Ok kk => (__ <? kk) && match transition st kk with Ok n' => n' =? n | Err _ => false end | Err _ => false end)
    (seqZ 0 128).
Lemma leads_turn st n p c : leads st n p = true -> p c = true -> 0 <= c < 128 -> 0 <= n ->
  exists kk, class_of c = Ok kk /\ __ < kk /\ transition st kk = Ok n.
Proof.
  intros Hl Hp Hc Hn. unfold leads in Hl. rewrite forallb_forall in Hl.
  specialize (Hl c ltac:(apply list_elem_of_In, elem_of_seqZ; lia)). rewrite Hp in Hl. cbn [negb orb] in Hl.
  destruct (class_of c) as [kk|]; [|done]. exists kk. split; [done|]. apply andb_true_iff in Hl as [H1%Z.ltb_lt H2].
  split; [done|]. destruct (transition st kk); [|done]. apply Z.eqb_eq in H2. by subst.
Qed.

Lemma plain_turn b k u fs r c : plain c ->
  turn c (AState (Lex ST b k u IS_STRING) fs r) = Go (AState (Lex ST (utf16_to_utf8 b c) k u IS_STRING) fs r).
Proof.
  intros (Hc & H1 & H2).
  assert (Hkk : exists kk, class_of c = Ok kk /\ __ < kk /\ transition ST kk = Ok ST).
  { destruct (Z.leb_spec 128 c) as [Hbig|Hsmall].
    - exists C_ETC. unfold class_of. by rewrite (proj2 (Z.leb_le _ _)).
    - apply (leads_turn ST ST (fun c => (32 <=? c) && negb (c =? 34) && negb (c =? 92))); [vm_compute; reflexivity|lia|lia|done]. }
  destruct Hkk as (kk & Hkk & Hpos & Ht). by rewrite (turn_shift _ _ _ _ _ _ _ _ kk ST).
Qed.

Lemma hex_turn st n b k u fs r c : In (st, n) [(U1, U2); (U2, U3); (U3, U4); (U4, ST)] -> hex_digit c ->
  turn c (AState (Lex st b k u IS_STRING) fs r) =
    Go (AState (let l := lex_string c n (Lex st b k u IS_STRING) in Lex n (l_buf l) (l_key l) (l_utf16 l) (l_type l)) fs r).
Proof.
  intros Hin Hc.
  assert (Hkk : exists kk, class_of c = Ok kk /\ __ < kk /\ transition st kk = Ok n).
  { apply (leads_turn st n (fun c => (48 <=? c) && (c <=? 57) || (65 <=? c) && (c <=? 70) || (97 <=? c) && (c <=? 102)));
      [|unfold hex_digit in Hc; lia|unfold hex_digit in Hc; lia|].
    - simpl in Hin. by destruct Hin as [[= <- <-]|[[= <- <-]|[[= <- <-]|[[= <- <-]|[]]]]]; vm_compute.
    - simpl in Hin. by destruct Hin as [[= <- <-]|[[= <- <-]|[[= <- <-]|[[= <- <-]|[]]]]]. }
  destruct Hkk as (kk & Hkk & Hpos & Ht). rewrite (turn_shift _ _ _ _ _ _ _ _ kk n); try done.
  simpl in Hin. by destruct Hin as [[= <- <-]|[[= <- <-]|[[= <- <-]|[[= <- <-]|[]]]]].
Qed.

Lemma escape_turn b k u fs r c e : escape c = Some e ->
  turn c (AState (Lex ES b k u IS_STRING) fs r) = Go (AState (Lex ST (smart_str_appendc b e) k u IS_STRING) fs r).
Proof.
  unfold escape. intros He.
  repeat match type of He with (if ?x =? ?y then _ else _) = _ =>
    destruct (Z.eqb_spec x y) as [->|_]; [injection He as <-; reflexivity|] end. done.
Qed.

Lemma chars_loop t b : chars t b -> forall k u fs r, exists u',
  loops t (AState (Lex ST [] k u IS_STRING) fs r) (AState (Lex ST b k u' IS_STRING) fs r).
Proof.
  induction 1 as [|t b c _ IH Hc|t b c e _ IH He|t b h1 h2 h3 h4 _ IH H1 H2 H3 H4]; intros k u fs r.
  - exists u. apply loops_nil.
  - destruct (IH k u fs r) as [u' Hl]. exists u'. eapply loops_app; [exact Hl|]. by apply loops_one, plain_turn.
  - destruct (IH k u fs r) as [u' Hl]. exists u'. eapply loops_app; [exact Hl|].
    eapply loops_cons; [reflexivity|]. by apply loops_one, escape_turn.
  - destruct (IH k u fs r) as [u' Hl]. exists (hex_unit h1 h2 h3 h4). eapply loops_app; [exact Hl|].
    eapply loops_cons; [reflexivity|]. eapply loops_cons; [reflexivity|].
    eapply loops_cons; [apply (hex_turn U1 U2); [simpl; tauto|done]|].
    eapply loops_cons; [apply (hex_turn U2 U3); [simpl; tauto|done]|].
    eapply loops_cons; [apply (hex_turn U3 U4); [simpl; tauto|done]|].
    apply loops_one. cbn [l_buf l_key l_utf16 l_type]. rewrite (hex_turn U4 ST) by (simpl; tauto || done).
    assert (Hu : forall x, x = hex_unit h1 h2 h3 h4 -> Go (AState (Lex ST (utf16_to_utf8 b x) k x IS_STRING) fs r) =
      Go (AState (Lex ST (utf16_to_utf8 b (hex_unit h1 h2 h3 h4)) k (hex_unit h1 h2 h3 h4) IS_STRING) fs r)) by (by intros x ->).
    apply Hu. cbv - [Z.modulo Z.add Z.mul Z.shiftl dehexchar Z.pow hex_unit].
    hex_sums. rewrite !Zplus_mod_idemp_l. rewrite (Z.mod_small (dehexchar h1 * 2 ^ 12 + _)), Z.mod_small by lia. unfold hex_unit. lia.
Qed.

(** ** Numbers *)

Definition more_digits : list (Z * Z * Z) :=
  [(IN, IN, IS_LONG); (FR, FR, IS_DOUBLE); (E3, E3, IS_DOUBLE); (E1, E3, IS_DOUBLE); (E2, E3, IS_DOUBLE)].
Lemma digit_turn st n ty b k u fs r c : In (st, n, ty) more_digits -> digit_char c ->
  turn c (AState (Lex st b k u ty) fs r) = Go (AState (Lex n (b ++ [to_byte c]) k u ty) fs r).
Proof.
  intros Hst Hc. unfold digit_char in Hc.
  assert (Hkk : exists kk, (kk = C_ZERO \/ kk = C_DIGIT) /\ class_of c = Ok kk).
  { destruct (class_cases c ltac:(lia)) as (kk & Hkk & _ & _). exists kk. split; [|done].
    assert (Hall : forallb (fun c => match class_of c with Ok kk => (kk =? C_ZERO) || (kk =? C_DIGIT) | _ => false end) (seqZ 48 10) = true)
      by (vm_compute; reflexivity).
    rewrite forallb_forall in Hall. specialize (Hall c ltac:(apply list_elem_of_In, elem_of_seqZ; lia)). rewrite Hkk in Hall. lia. }
  destruct Hkk as (kk & Hkk & Hc').
  assert (Ht : transition st kk = Ok n /\ lex_char c kk n (Lex st b k u ty) = Lex n (utf16_to_utf8 b c) k u ty /\ 0 <= n).
  { simpl in Hst. destruct Hst as [[= <- <- <-]|[[= <- <- <-]|[[= <- <- <-]|[[= <- <- <-]|[[= <- <- <-]|[]]]]]], Hkk as [-> | ->];
      (split; [reflexivity|split; [reflexivity|done]]). }
  destruct Ht as (Ht & Hlex & Hpos). rewrite (turn_shift _ _ _ _ _ _ _ _ kk n); [|done|by destruct Hkk as [-> | ->]|done|done].
  by rewrite Hlex, utf16_ascii by lia.
Qed.
Lemma digits_loop st ty w : In (st, st, ty) more_digits -> digits w -> forall b k u fs r,
  loops w (AState (Lex st b k u ty) fs r) (AState (Lex st (b ++ ascii w) k u ty) fs r).
Proof.
  intros Hst. induction 1 as [|c w Hc _ IH]; intros b k u fs r.
  - rewrite app_nil_r. apply loops_nil.
  - eapply loops_cons; [by apply digit_turn|]. cbn [ascii fmap list_fmap].
    change (to_byte c :: (to_byte <$> w)) with ([to_byte c] ++ ascii w). rewrite app_assoc. apply IH.
Qed.
Lemma first_digit_turn st n ty b k u fs r c : In (st, n, ty) [(VA, IN, -1); (AR, IN, -1); (MI, IN, -1)] -> 49 <= c <= 57 ->
  turn c (AState (Lex st b k u ty) fs r) = Go (AState (Lex n (b ++ [to_byte c]) k u IS_LONG) fs r).
Proof.
  intros Hst Hc.
  assert (Hkk : class_of c = Ok C_DIGIT).
  { assert (Hall : forallb (fun c => match class_of c with Ok kk => kk =? C_DIGIT | _ => false end) (seqZ 49 9) = true)
      by (vm_compute; reflexivity).
    rewrite forallb_forall in Hall. specialize (Hall c ltac:(apply list_elem_of_In, elem_of_seqZ; lia)).
    destruct (class_of c); [|done]. f_equal. lia. }
  assert (Ht : transition st C_DIGIT = Ok n /\ lex_char c C_DIGIT n (Lex st b k u ty) = Lex n (smart_str_appendc b c) k u IS_LONG /\ 0 <= n).
  { simpl in Hst. destruct Hst as [[= <- <- <-]|[[= <- <- <-]|[[= <- <- <-]|[]]]]; (split; [reflexivity|split; [reflexivity|done]]). }
  destruct Ht as (Ht & Hlex & Hpos). rewrite (turn_shift _ _ _ _ _ _ _ _ C_DIGIT n); [|done|done|done|done].
  by rewrite Hlex.
Qed.

(** The states in which a number of type [ty] may end. *)
Definition number_end (st ty : Z) : Prop := In (st, ty) [(ZE, IS_LONG); (IN, IS_LONG); (FR, IS_DOUBLE); (E3, IS_DOUBLE)].

Lemma integer_loop st i : st = VA \/ st = AR \/ st = MI -> integer i -> forall b k u fs r, exists st',
  In st' [ZE; IN] /\ loops i (AState (Lex st b k u (-1)) fs r) (AState (Lex st' (b ++ ascii i) k u IS_LONG) fs r).
Proof.
  intros Hst [|c w Hc Hw] b k u fs r.
  - exists ZE. split; [simpl; tauto|]. apply loops_one. by destruct Hst as [->|[->| ->]].
  - exists IN. split; [simpl; tauto|]. eapply loops_cons.
    { apply (first_digit_turn st IN (-1)); [destruct Hst as [->|[->| ->]]; simpl; tauto|done]. }
    pose proof (digits_loop IN IS_LONG w ltac:(simpl; tauto) Hw (b ++ [to_byte c]) k u fs r) as Hl.
    rewrite <- app_assoc in Hl. exact Hl.
Qed.
Lemma fraction_loop st w : In st [ZE; IN] -> fraction w -> forall b k u fs r, exists st' ty,
  In (st', ty) [(ZE, IS_LONG); (IN, IS_LONG); (FR, IS_DOUBLE)] /\ (ty = IS_LONG <-> w = []) /\
  loops w (AState (Lex st b k u IS_LONG) fs r) (AState (Lex st' (b ++ ascii w) k u ty) fs r).
Proof.
  intros Hst [|w' Hw] b k u fs r.
  - exists st, IS_LONG. rewrite app_nil_r. split; [|split; [done|apply loops_nil]].
    simpl in Hst. destruct Hst as [<-|[<-|[]]]; simpl; tauto.
  - exists FR, IS_DOUBLE. split; [simpl; tauto|]. split; [done|]. eapply loops_cons.
    { simpl in Hst. destruct Hst as [<-|[<-|[]]]; reflexivity. }
    pose proof (digits_loop FR IS_DOUBLE w' ltac:(simpl; tauto) Hw (b ++ [to_byte 46]) k u fs r) as Hl.
    rewrite <- app_assoc in Hl. exact Hl.
Qed.
Lemma exponent_digits st c w : st = E1 \/ st = E2 -> digits (c :: w) -> forall b k u fs r,
  loops (c :: w) (AState (Lex st b k u IS_DOUBLE) fs r) (AState (Lex E3 (b ++ ascii (c :: w)) k u IS_DOUBLE) fs r).
Proof.
  intros Hst [Hc Hw]%Forall_cons b k u fs r. eapply loops_cons.
  { apply (digit_turn st E3 IS_DOUBLE); [destruct Hst as [-> | ->]; simpl; tauto|done]. }
  pose proof (digits_loop E3 IS_DOUBLE w ltac:(simpl; tauto) Hw (b ++ [to_byte c]) k u fs r) as Hl.
  rewrite <- app_assoc in Hl. exact Hl.
Qed.
Lemma exponent_loop st ty w : In (st, ty) [(ZE, IS_LONG); (IN, IS_LONG); (FR, IS_DOUBLE)] -> exponent w -> forall b k u fs r,
  exists st' ty', number_end st' ty' /\ (ty' = IS_LONG <-> ty = IS_LONG /\ w = []) /\
  loops w (AState (Lex st b k u ty) fs r) (AState (Lex st' (b ++ ascii w) k u ty') fs r).
Proof.
  intros Hst [|e g c w' He Hg Hw] b k u fs r.
  - exists st, ty. rewrite app_nil_r. split; [unfold number_end; simpl in *; tauto|]. split; [tauto|apply loops_nil].
  - exists E3, IS_DOUBLE. split; [unfold number_end; simpl; tauto|]. split; [by split; [|intros [_ ?]]|].
    eapply loops_cons.
    { instantiate (1 := AState (Lex E1 (b ++ [to_byte e]) k u IS_DOUBLE) fs r). simpl in Hst.
      destruct Hst as [[= <- <-]|[[= <- <-]|[[= <- <-]|[]]]], He as [-> | ->]; reflexivity. }
    change (ascii (e :: g ++ c :: w')) with ([to_byte e] ++ ascii (g ++ c :: w')). rewrite ascii_app, !app_assoc.
    destruct Hg as [->|Hg].
    + rewrite app_nil_r. cbn [app]. apply exponent_digits; [by left|done].
    + assert (Hone : exists x, (x = 43 \/ x = 45) /\ g = [x]) by (destruct Hg as [-> | ->]; eauto).
      destruct Hone as (x & Hx & ->).
      apply (loops_app [x] _ _ (AState (Lex E2 ((b ++ [to_byte e]) ++ ascii [x]) k u IS_DOUBLE) fs r)).
      * apply loops_one. by destruct Hx as [-> | ->].
      * apply exponent_digits; [by right|done].
Qed.

Lemma number_loop st w v : st = VA \/ st = AR -> number zend_strtod w v -> forall k u fs r, exists st' ty x,
  number_end st' ty /\ zval_of zend_strtod (ascii w) ty = Ok x /\ php_of x = v /\
  loops w (AState (Lex st [] k u (-1)) fs r) (AState (Lex st' (ascii w) k u ty) fs r).
Proof.
  intros Hst [s i f e Hs Hi Hf He] k u fs r.
  assert (Hsign : exists st0, (st0 = VA \/ st0 = AR \/ st0 = MI) /\
    loops s (AState (Lex st [] k u (-1)) fs r) (AState (Lex st0 (ascii s) k u (-1)) fs r)).
  { destruct Hs; [exists st; split; [tauto|apply loops_nil]|].
    exists MI. split; [tauto|]. apply loops_one. by destruct Hst as [-> | ->]. }
  destruct Hsign as (st0 & Hst0 & L0).
  destruct (integer_loop st0 i Hst0 Hi (ascii s) k u fs r) as (st1 & Hst1 & L1).
  destruct (fraction_loop st1 f Hst1 Hf (ascii s ++ ascii i) k u fs r) as (st2 & ty2 & Hst2 & Hty2 & L2).
  destruct (exponent_loop st2 ty2 e Hst2 He ((ascii s ++ ascii i) ++ ascii f) k u fs r) as (st3 & ty3 & Hst3 & Hty3 & L3).
  assert (Hbuf : ((ascii s ++ ascii i) ++ ascii f) ++ ascii e = ascii (s ++ i ++ f ++ e)) by (rewrite !ascii_app, <- !app_assoc; done).
  rewrite Hbuf in L3.
  assert (Hl : loops (s ++ i ++ f ++ e) (AState (Lex st [] k u (-1)) fs r) (AState (Lex st3 (ascii (s ++ i ++ f ++ e)) k u ty3) fs r)).
  { eapply loops_app; [exact L0|]. eapply loops_app; [exact L1|]. by eapply loops_app. }
  assert (Hend : ty3 = IS_LONG \/ ty3 = IS_DOUBLE).
  { unfold number_end in Hst3. simpl in Hst3. destruct Hst3 as [[= _ <-]|[[= _ <-]|[[= _ <-]|[[= _ <-]|[]]]]]; auto. }
  case_bool_decide as Hwhole.
  - destruct Hwhole as [-> ->]. assert (ty3 = IS_LONG) as -> by tauto. rewrite !app_nil_r in *.
    destruct (whole_token zend_strtod s i Hs Hi) as (x & Hx & Hv). by exists st3, IS_LONG, x.
  - assert (ty3 = IS_DOUBLE) as -> by (destruct Hend; tauto). exists st3, IS_DOUBLE.
    eexists. split; [done|]. split; [|split; [|exact Hl]].
    + apply double_token. rewrite !Forall_app. auto using sign_small, integer_small, fraction_small, exponent_small.
    + done.
Qed.

(** ** After a value *)

(** The value [v] has been read, and belongs under [h] in the innermost
    container: pending in the lexer, or stored. *)
Inductive after v h : list (frame D) -> astate D -> Prop :=
  | after_scalar st b k u ty x f fs r : st = OK \/ number_end st ty -> ty <> -1 ->
      zval_of zend_strtod b ty = Ok x -> php_of x = v -> next_key k (f :: fs) = Some h ->
      after v h (f :: fs) (AState (Lex st b k u ty) (f :: fs) r)
  | after_container k u m l ch ch' fs r :
      after v h (Frame m l ch :: fs) (AState (Lex OK [] k u (-1)) (Frame m (kv_set h v l) ch' :: fs) r)
  | after_root b k u ty : ty = -1 \/ ty = IS_STRING -> after v h [] (AState (Lex OK b k u ty) [] (Some v)).

Lemma blank_class c : blank_char c -> exists kk, (kk = C_SPACE \/ kk = C_WHITE) /\ class_of c = Ok kk.
Proof.
  intros [->|[->|[->| ->]]]; [exists C_SPACE|exists C_WHITE|exists C_WHITE|exists C_WHITE]; (split; [tauto|reflexivity]).
Qed.
Lemma blank_turn st b k u ty fs r c : between st -> blank_char c ->
  turn c (AState (Lex st b k u ty) fs r) = Go (AState (Lex st b k u ty) fs r).
Proof.
  intros Hst Hc. destruct (blank_class c Hc) as (kk & Hkk & Hcl).
  rewrite (turn_shift _ _ _ _ _ _ _ _ kk st); [by rewrite lex_blank|done|by destruct Hkk as [-> | ->]| |].
  - unfold between in Hst. simpl in Hst. destruct Hkk as [-> | ->]; repeat (destruct Hst as [<-|Hst]; [reflexivity|]); done.
  - unfold between in Hst. simpl in Hst. repeat (destruct Hst as [<-|Hst]; [done|]). done.
Qed.
Lemma blanks_loop st s b k u ty fs r : between st -> blank s ->
  loops s (AState (Lex st b k u ty) fs r) (AState (Lex st b k u ty) fs r).
Proof.
  intros Hst. induction 1 as [|c s Hc _ IH]; [apply loops_nil|]. eapply loops_cons; [by apply blank_turn|exact IH].
Qed.
Lemma number_blank_turn st b k u ty fs r c : number_end st ty -> blank_char c ->
  turn c (AState (Lex st b k u ty) fs r) = Go (AState (Lex OK b k u ty) fs r).
Proof.
  intros Hst Hc. destruct (blank_class c Hc) as (kk & Hkk & Hcl).
  assert (Ht : transition st kk = Ok OK /\ lex_char c kk OK (Lex st b k u ty) = Lex OK b k u ty).
  { unfold number_end in Hst. simpl in Hst.
    destruct Hst as [[= <- <-]|[[= <- <-]|[[= <- <-]|[[= <- <-]|[]]]]], Hkk as [-> | ->]; (split; reflexivity). }
  destruct Ht as [Ht Hlex]. rewrite (turn_shift _ _ _ _ _ _ _ _ kk OK); [by rewrite Hlex|done|by destruct Hkk as [-> | ->]|done|done].
Qed.

Lemma between_ok : between OK.
Proof. unfold between. simpl. tauto. Qed.

Lemma after_blanks v h fs a s : after v h fs a -> blank s -> exists a', loops s a a' /\ after v h fs a'.
Proof.
  intros Ha Hs. destruct Ha as [st b k u ty x f fs r Hst Hty Hx Hv Hk|k u m l ch ch' fs r|b k u ty Hty].
  - destruct s as [|c s]; [eexists; split; [apply loops_nil|by econstructor]|]. apply Forall_cons in Hs as [Hc Hs].
    exists (AState (Lex OK b k u ty) (f :: fs) r). split; [|econstructor; eauto].
    eapply loops_cons; [|by apply (blanks_loop OK); [apply between_ok|]].
    destruct Hst as [->|Hst]; [by apply blank_turn; [apply between_ok|]|by apply number_blank_turn].
  - eexists. split; [by apply blanks_loop; [apply between_ok|]|]. constructor.
  - eexists. split; [by apply blanks_loop; [apply between_ok|]|]. by constructor.
Qed.

(** The entry is stored at the next comma or bracket. *)
Definition set_child h fs : list (frame D) :=
  match fs with [] => [] | f :: fs' => Frame (f_mode f) (f_entries f) h :: fs' end.

Lemma after_flush v h m l ch fs a : after v h (Frame m l ch :: fs) a -> m = MODE_ARRAY \/ m = MODE_OBJECT ->
  exists k u ch' r,
    (l_type (lx a) <> -1 -> forall st, flush zend_strtod assoc st a = Go (AState (Lex st [] k u (-1)) (Frame m (kv_set h v l) ch' :: fs) r)) /\
    (l_type (lx a) = -1 -> a = AState (Lex OK [] k u (-1)) (Frame m (kv_set h v l) ch' :: fs) r) /\
    mode_of (frames a) = m /\ (l_state (lx a) = OK \/ number_end (l_state (lx a)) (l_type (lx a))).
Proof.
  intros Ha Hm. remember (Frame m l ch :: fs) as fs0 eqn:E.
  destruct Ha as [st b k u ty x f fs' r Hst Hty Hx Hv Hk|k u m' l' ch1 ch' fs' r|]; [| |done]; simplify_eq.
  - exists (if m =? MODE_ARRAY then k else []), u, ch, r. split; [|split; [done|split; [done|done]]].
    intros _ st'. unfold flush. cbn [frames lx root]. rewrite (entry_next _ _ _ fs). cbn [l_key].
    rewrite Hk. rewrite (token_value_of _ (Lex st b k u ty) x Hx). cbn [f_mode]. by destruct (m =? MODE_ARRAY).
  - exists k, u, ch', r. split; [done|]. split; [done|]. split; [done|by left].
Qed.

Lemma after_comma v h m l ch fs a : after v h (Frame m l ch :: fs) a -> m = MODE_ARRAY \/ m = MODE_OBJECT ->
  exists k u ch' r, turn 44 a =
    Go (AState (Lex (if m =? MODE_OBJECT then KE else VA) [] k u (-1))
         (Frame (if m =? MODE_OBJECT then MODE_KEY else MODE_ARRAY) (kv_set h v l) ch' :: fs) r).
Proof.
  intros Ha Hm. destruct (after_flush _ _ _ _ _ _ _ Ha Hm) as (k & u & ch' & r & Hfl & Hno & Hmode & Hst).
  exists k, u, ch', r.
  assert (Ht : turn 44 a = abs_comma zend_strtod assoc a).
  { destruct a as [[st b k0 u0 ty] fs0 r0]. cbn [lx l_state l_type] in Hst.
    unfold number_end in Hst. simpl in Hst. destruct Hst as [->|[[= <- <-]|[[= <- <-]|[[= <- <-]|[[= <- <-]|[]]]]]]; reflexivity. }
  rewrite Ht. unfold abs_comma. rewrite Hmode.
  replace ((m =? MODE_OBJECT) || (m =? MODE_ARRAY)) with true by (by destruct Hm as [-> | ->]).
  destruct (Z.eqb_spec (l_type (lx a)) (-1)) as [Hty|Hty].
  - rewrite (Hno Hty). cbn [lx frames root l_key l_utf16]. by destruct Hm as [-> | ->].
  - rewrite (Hfl Hty). cbn [lx frames root]. by destruct Hm as [-> | ->].
Qed.

Lemma after_close v h m l ch fs a : after v h (Frame m l ch :: fs) a -> m = MODE_ARRAY \/ m = MODE_OBJECT ->
  exists k u ch' r, turn (closing m) a = close assoc m (AState (Lex OK [] k u (-1)) (Frame m (kv_set h v l) ch' :: fs) r).
Proof.
  intros Ha Hm. destruct (after_flush _ _ _ _ _ _ _ Ha Hm) as (k & u & ch' & r & Hfl & Hno & Hmode & Hst).
  exists k, u, ch', r.
  assert (Ht : turn (closing m) a = abs_end zend_strtod assoc m a).
  { destruct a as [[st b k0 u0 ty] fs0 r0]. cbn [lx l_state l_type] in Hst. unfold number_end in Hst. simpl in Hst.
    destruct Hm as [-> | ->], Hst as [->|[[= <- <-]|[[= <- <-]|[[= <- <-]|[[= <- <-]|[]]]]]]; reflexivity. }
  rewrite Ht. unfold abs_end. rewrite Hmode, Z.eqb_refl, andb_true_r.
  destruct (Z.eqb_spec (l_type (lx a)) (-1)) as [Hty|Hty]; cbn [negb].
  - by rewrite (Hno Hty).
  - rewrite (Hfl Hty). unfold close. cbn [frames lx l_buf l_key l_utf16 l_type root]. done.
Qed.

(** ** Brackets *)

Lemma close_after m l ch h fs st k u r : exists a',
  close assoc m (AState (Lex st [] k u (-1)) (Frame m l ch :: set_child h fs) r) = Go a' /\
  after (container assoc (Frame m l ch)) h fs a'.
Proof.
  unfold close. cbn [frames f_mode]. rewrite Z.eqb_refl. destruct fs as [|[gm gl gc] gs]; cbn [set_child].
  - eexists. split; [done|]. constructor. by left.
  - eexists. split; [done|]. apply after_container.
Qed.

Definition place st fs : Prop := (st = VA \/ st = AR) /\ fs <> [] \/ st = GO /\ fs = [].
Definition key_ok k fs h : Prop := 
  match fs with [] => True | f :: _ => next_key k fs = Some h /\ (f_mode f = MODE_ARRAY \/ f_mode f = MODE_OBJECT) end.

Lemma begin_turn m st n k u fs r h c : m = MODE_ARRAY /\ n = AR /\ c = 91 \/ m = MODE_KEY /\ n = OB /\ c = 123 ->
  place st fs -> key_ok k fs h -> (length fs < levels)%nat -> exists k',
  turn c (AState (Lex st [] k u (-1)) fs r) = Go (AState (Lex n [] k' u (-1)) (Frame m [] (KInt 0) :: set_child h fs) r).
Proof.
  intros Hm Hst Hk Hd.
  assert (Ht : turn c (AState (Lex st [] k u (-1)) fs r) = abs_begin assoc max_depth m n (AState (Lex st [] k u (-1)) fs r)).
  { destruct Hm as [(-> & -> & ->)|(-> & -> & ->)], Hst as [[[-> | ->] _]|[-> _]]; reflexivity. }
  rewrite Ht. unfold abs_begin. cbn [frames lx root l_buf l_key l_utf16].
  rewrite (proj2 (Z.leb_gt _ _)) by (unfold levels in Hd; lia).
  destruct fs as [|f fs]; [by exists k|]. rewrite (entry_next _ _ _ fs). cbn [l_key]. destruct Hk as [Hk _]. rewrite Hk.
  destruct (f_mode f =? MODE_ARRAY); by eexists.
Qed.

(** ** The grammar's phrases *)

Definition value_read (d : nat) w v : Prop := forall st k u fs r h, place st fs ->
  (st = GO -> In (hd 0 w) [34; 91; 123]) -> key_ok k fs h -> (d + length fs <= levels)%nat ->
  exists a', loops w (AState (Lex st [] k u (-1)) fs r) a' /\ after v h fs a'.

(** The entries of a container have been read. *)
Definition filled m l fs a : Prop := exists v h l0 ch, l = kv_set h v l0 /\ after v h (Frame m l0 ch :: fs) a.
Definition elements_read (d : nat) ws l : Prop := forall k u ch fs r, (d + S (length fs) <= levels)%nat ->
  exists a', loops ws (AState (Lex AR [] k u (-1)) (Frame MODE_ARRAY [] ch :: fs) r) a' /\ filled MODE_ARRAY l fs a'.
Definition members_read (d : nat) ws l : Prop := forall k u ch fs r, (d + S (length fs) <= levels)%nat ->
  exists a', loops ws (AState (Lex OB [] k u (-1)) (Frame MODE_KEY [] ch :: fs) r) a' /\ filled MODE_OBJECT l fs a'.

Lemma scalar_read w v : (forall st k u fs r, st = VA \/ st = AR -> exists st' b ty x,
    (st' = OK \/ number_end st' ty) /\ ty <> -1 /\ zval_of zend_strtod b ty = Ok x /\ php_of x = v /\
    loops w (AState (Lex st [] k u (-1)) fs r) (AState (Lex st' b k u ty) fs r)) ->
  ~ In (hd 0 w) [34; 91; 123] -> forall d, value_read d w v.
Proof.
  intros Hw Hhd d st k u fs r h Hst Hgo Hk Hd.
  destruct Hst as [[Hst Hfs]|[Hst _]]; [|by destruct Hhd; apply Hgo].
  destruct fs as [|f fs]; [done|]. destruct (Hw st k u (f :: fs) r Hst) as (st' & b & ty & x & Hend & Hty & Hx & Hv & Hl).
  eexists. split; [exact Hl|]. destruct Hk as [Hk _]. by econstructor.
Qed.

Lemma string_read w b d : chars w b -> value_read d (34 :: w ++ [34]) (PString b).
Proof.
  intros Hw st k u fs r h Hst _ Hk Hd. destruct (chars_loop w b Hw k u fs r) as [u' Hl].
  assert (Hopen : turn 34 (AState (Lex st [] k u (-1)) fs r) = Go (AState (Lex ST [] k u IS_STRING) fs r)).
  { by destruct Hst as [[[-> | ->] _]|[-> _]]. }
  assert (Hquote : turn 34 (AState (Lex ST b k u' IS_STRING) fs r) = abs_quote (AState (Lex ST b k u' IS_STRING) fs r)) by done.
  assert (Hend : exists a', abs_quote (AState (Lex ST b k u' IS_STRING) fs r) = Go a' /\ after (PString b) h fs a').
  { destruct Hst as [[_ Hfs]|[_ ->]]; cycle 1.
    { eexists. split; [done|]. apply after_root. by right. }
    destruct fs as [|f fs]; [done|]. destruct Hk as [Hk Hm]. exists (AState (Lex OK b k u' IS_STRING) (f :: fs) r). split.
    - unfold abs_quote. cbn [frames mode_of]. by destruct Hm as [-> | ->].
    - eapply after_scalar; [by left|done| | |exact Hk]; reflexivity. }
  destruct Hend as (a' & Ha & Haf). exists a'. split; [|done].
  eapply loops_cons; [exact Hopen|]. eapply loops_app; [exact Hl|]. apply loops_one. by rewrite Hquote.
Qed.

Lemma name_loop n b st l ch k u fs r : name n b -> st = OB \/ st = KE -> exists u',
  loops n (AState (Lex st [] k u (-1)) (Frame MODE_KEY l ch :: fs) r) (AState (Lex VA [] b u' (-1)) (Frame MODE_OBJECT l ch :: fs) r).
Proof.
  intros [s0 w b' s1 s2 H0 Hw H1 H2] Hst.
  destruct (chars_loop w b' Hw k u (Frame MODE_KEY l ch :: fs) r) as [u' Hl]. exists u'.
  eapply loops_app; [apply blanks_loop; [unfold between; simpl; destruct Hst as [-> | ->]; tauto|done]|].
  eapply loops_cons; [destruct Hst as [-> | ->]; reflexivity|]. eapply loops_app; [exact Hl|].
  eapply loops_cons; [reflexivity|].
  eapply loops_app; [apply (blanks_loop CO); [unfold between; simpl; tauto|done]|].
  eapply loops_cons; [reflexivity|]. apply (blanks_loop VA); [unfold between; simpl; tauto|done].
Qed.

(** A value between blanks, where one is expected. *)
Lemma value_between d s1 w v s2 h k u st fs r : value_read d w v -> blank s1 -> blank s2 -> place st fs -> st <> GO -> key_ok k fs h ->
  (d + length fs <= levels)%nat -> exists a', loops (s1 ++ w ++ s2) (AState (Lex st [] k u (-1)) fs r) a' /\ after v h fs a'.
Proof.
  intros Hw H1 H2 Hst Hgo Hk Hd. destruct (Hw st k u fs r h Hst ltac:(done) Hk Hd) as (a1 & Hl & Ha).
  destruct (after_blanks _ _ _ _ s2 Ha H2) as (a2 & Hl2 & Ha2). exists a2. split; [|done].
  eapply loops_app; [|by eapply loops_app]. apply blanks_loop; [|done].
  unfold between. simpl. destruct Hst as [[[-> | ->] _]|[-> _]]; tauto.
Qed.

(** The closing bracket of a container whose entries have been read. *)
Lemma filled_close m l fs a h : filled m l (set_child h fs) a -> m = MODE_ARRAY \/ m = MODE_OBJECT -> exists a',
  turn (closing m) a = Go a' /\ after (if m =? MODE_ARRAY then PArray l else object_of assoc l) h fs a'.
Proof.
  intros (v & h' & l0 & ch & -> & Ha) Hm. destruct (after_close _ _ _ _ _ _ _ Ha Hm) as (k & u & ch' & r & ->).
  destruct (close_after m (kv_set h' v l0) ch' h fs OK k u r) as (a' & Hc & Haf). exists a'. split; [exact Hc|].
  unfold container in Haf. cbn [f_mode f_entries] in Haf. exact Haf.
Qed.
Lemma length_set_child h fs : length (set_child h fs) = length fs.
Proof. by destruct fs. Qed.

Lemma container_read d m n c w l : m = MODE_ARRAY /\ n = AR /\ c = 91 \/ m = MODE_OBJECT /\ n = OB /\ c = 123 ->
  (forall k u fs h r, (S d + length fs <= levels)%nat -> exists a',
    loops w (AState (Lex n [] k u (-1)) (Frame (if m =? MODE_ARRAY then MODE_ARRAY else MODE_KEY) [] (KInt 0) :: set_child h fs) r) a' /\
    exists a'', turn (closing m) a' = Go a'' /\ after (if m =? MODE_ARRAY then PArray l else object_of assoc l) h fs a'') ->
  value_read (S d) (c :: w ++ [closing m]) (if m =? MODE_ARRAY then PArray l else object_of assoc l).
Proof.
  intros Hm Hw st k u fs r h Hst _ Hk Hd.
  destruct (begin_turn (if m =? MODE_ARRAY then MODE_ARRAY else MODE_KEY) st n k u fs r h c) as [k' Hb]; try done.
  { destruct Hm as [(-> & -> & ->)|(-> & -> & ->)]; [by left|by right]. }
  { lia. }
  destruct (Hw k' u fs h r Hd) as (a' & Hl & a'' & Hc & Ha). exists a''. split; [|done].
  eapply loops_cons; [exact Hb|]. eapply loops_app; [exact Hl|]. by apply loops_one.
Qed.

Lemma element_key k l ch fs : key_ok k (Frame MODE_ARRAY l ch :: fs) (last_key l).
Proof. split; [done|by left]. Qed.
Lemma member_key_ok b h l ch fs : member_key assoc b = Some h -> key_ok b (Frame MODE_OBJECT l ch :: fs) h.
Proof. intros Hb. split; [exact Hb|by right]. Qed.
Lemma inner_place st f fs : st = VA \/ st = AR -> place st (f :: fs).
Proof. intros Hst. left. done. Qed.

Lemma elements_one_read d s1 w v s2 : blank s1 -> value_read d w v -> blank s2 -> elements_read d (s1 ++ w ++ s2) [(KInt 0, v)].
Proof.
  intros H1 Hv H2 k u ch fs r Hd.
  destruct (value_between d s1 w v s2 (KInt 0) k u AR (Frame MODE_ARRAY [] ch :: fs) r Hv H1 H2) as (a' & Hl & Ha);
    [by apply inner_place; right|done|apply element_key|done|].
  exists a'. split; [exact Hl|]. by exists v, (KInt 0), [], ch.
Qed.
Lemma elements_more_read d ws l s1 w v s2 : elements zend_strtod assoc d ws l -> elements_read d ws l ->
  blank s1 -> value_read d w v -> blank s2 -> elements_read d (ws ++ 44 :: s1 ++ w ++ s2) (l ++ [(last_key l, v)]).
Proof.
  intros Hel Hr H1 Hv H2 k u ch fs r Hd. destruct (Hr k u ch fs r Hd) as (a1 & Hl1 & v1 & h1 & l1 & ch1 & -> & Ha1).
  destruct (after_comma _ _ _ _ _ _ _ Ha1 ltac:(by left)) as (k2 & u2 & ch2 & r2 & Hc).
  destruct (value_between d s1 w v s2 (last_key (kv_set h1 v1 l1)) k2 u2 VA (Frame MODE_ARRAY (kv_set h1 v1 l1) ch2 :: fs) r2 Hv H1 H2)
    as (a' & Hl & Ha); [by apply inner_place; left|done|apply element_key|done|].
  exists a'. split; [eapply loops_app; [exact Hl1|]; by eapply loops_cons|].
  exists v, (last_key (kv_set h1 v1 l1)), (kv_set h1 v1 l1), ch2. split; [|done].
  rewrite last_key_append; [done|]. by eapply elements_keys.
Qed.

Lemma members_one_read d n b h w v s : name n b -> member_key assoc b = Some h -> value_read d w v -> blank s ->
  members_read d (n ++ w ++ s) [(h, v)].
Proof.
  intros Hn Hb Hv Hs k u ch fs r Hd. destruct (name_loop n b OB [] ch k u fs r Hn ltac:(by left)) as [u1 Hl1].
  destruct (value_between d [] w v s h b u1 VA (Frame MODE_OBJECT [] ch :: fs) r Hv (Forall_nil_2 _) Hs) as (a' & Hl & Ha);
    [by apply inner_place; left|done|by apply member_key_ok|done|].
  exists a'. split; [by eapply loops_app|]. by exists v, h, [], ch.
Qed.
Lemma members_more_read d ws l n b h w v s : members_read d ws l -> name n b -> member_key assoc b = Some h -> value_read d w v -> blank s ->
  members_read d (ws ++ 44 :: n ++ w ++ s) (kv_set h v l).
Proof.
  intros Hr Hn Hb Hv Hs k u ch fs r Hd. destruct (Hr k u ch fs r Hd) as (a1 & Hl1 & v1 & h1 & l1 & ch1 & -> & Ha1).
  destruct (after_comma _ _ _ _ _ _ _ Ha1 ltac:(by right)) as (k2 & u2 & ch2 & r2 & Hc).
  destruct (name_loop n b KE (kv_set h1 v1 l1) ch2 k2 u2 fs r2 Hn ltac:(by right)) as [u3 Hl3].
  destruct (value_between d [] w v s h b u3 VA (Frame MODE_OBJECT (kv_set h1 v1 l1) ch2 :: fs) r2 Hv (Forall_nil_2 _) Hs) as (a' & Hl & Ha);
    [by apply inner_place; left|done|by apply member_key_ok|done|].
  exists a'. split; [eapply loops_app; [exact Hl1|]; eapply loops_cons; [exact Hc|by eapply loops_app]|].
  by exists v, h, (kv_set h1 v1 l1), ch2.
Qed.

Lemma empty_read d m n c s : m = MODE_ARRAY /\ n = AR /\ c = 91 \/ m = MODE_OBJECT /\ n = OB /\ c = 123 -> blank s ->
  value_read (S d) (c :: s ++ [closing m]) (if m =? MODE_ARRAY then PArray [] else object_of assoc []).
Proof.
  intros Hm Hs. apply container_read with (n := n); [done|]. intros k u fs h r Hd.
  eexists. split; [apply blanks_loop; [unfold between; simpl; destruct Hm as [(_ & -> & _)|(_ & -> & _)]; tauto|done]|].
  destruct Hm as [(-> & -> & ->)|(-> & -> & ->)].
  - destruct (close_after MODE_ARRAY [] (KInt 0) h fs AR k u r) as (a' & Hc & Ha). exists a'. split; [|exact Ha].
    rewrite <- Hc. reflexivity.
  - destruct (close_after MODE_KEY [] (KInt 0) h fs OB k u r) as (a' & Hc & Ha). exists a'. split; [|exact Ha].
    rewrite <- Hc. reflexivity.
Qed.
Lemma content_read d m n c w l : m = MODE_ARRAY /\ n = AR /\ c = 91 /\ elements_read d w l \/ m = MODE_OBJECT /\ n = OB /\ c = 123 /\ members_read d w l ->
  value_read (S d) (c :: w ++ [closing m]) (if m =? MODE_ARRAY then PArray l else object_of assoc l).
Proof.
  intros Hm. apply container_read with (n := n); [tauto|]. intros k u fs h r Hd.
  destruct Hm as [(-> & -> & -> & Hr)|(-> & -> & -> & Hr)]; (destruct (Hr k u (KInt 0) (set_child h fs) r) as (a' & Hl & Hf);
    [rewrite length_set_child; lia|]; exists a'; split; [exact Hl|]; by eapply filled_close; [exact Hf|auto]).
Qed.

Lemma literal_read w v : (forall st k u fs r, st = VA \/ st = AR -> exists b ty x, ty <> -1 /\ zval_of zend_strtod b ty = Ok x /\ php_of x = v /\
    loops w (AState (Lex st [] k u (-1)) fs r) (AState (Lex OK b k u ty) fs r)) -> ~ In (hd 0 w) [34; 91; 123] -> forall d, value_read d w v.
Proof.
  intros Hw. apply scalar_read. intros st k u fs r Hst. destruct (Hw st k u fs r Hst) as (b & ty & x & H1 & H2 & H3 & H4).
  exists OK, b, ty, x. split; [by left|done].
Qed.
Lemma null_read d : value_read d [110; 117; 108; 108] PNull.
Proof.
  apply literal_read; [|simpl; lia]. intros st k u fs r Hst. exists (bs "nul"), IS_NULL, ZNull.
  split; [done|]. split; [reflexivity|]. split; [reflexivity|].
  apply (loops_cons 110 _ _ (AState (Lex N1 (bs "n") k u (-1)) fs r)); [destruct Hst as [-> | ->]; reflexivity|].
  apply (loops_cons 117 _ _ (AState (Lex N2 (bs "nu") k u (-1)) fs r)); [reflexivity|].
  apply (loops_cons 108 _ _ (AState (Lex N3 (bs "nul") k u (-1)) fs r)); [reflexivity|].
  by apply loops_one.
Qed.
Lemma true_read d : value_read d [116; 114; 117; 101] (PBool true).
Proof.
  apply literal_read; [|simpl; lia]. intros st k u fs r Hst. exists (bs "tru"), IS_BOOL, (ZBool true).
  split; [done|]. split; [reflexivity|]. split; [reflexivity|].
  apply (loops_cons 116 _ _ (AState (Lex T1 (bs "t") k u (-1)) fs r)); [destruct Hst as [-> | ->]; reflexivity|].
  apply (loops_cons 114 _ _ (AState (Lex T2 (bs "tr") k u (-1)) fs r)); [reflexivity|].
  apply (loops_cons 117 _ _ (AState (Lex T3 (bs "tru") k u (-1)) fs r)); [reflexivity|].
  by apply loops_one.
Qed.
Lemma false_read d : value_read d [102; 97; 108; 115; 101] (PBool false).
Proof.
  apply literal_read; [|simpl; lia]. intros st k u fs r Hst. exists (bs "fals"), IS_BOOL, (ZBool false).
  split; [done|]. split; [reflexivity|]. split; [reflexivity|].
  apply (loops_cons 102 _ _ (AState (Lex F1 (bs "f") k u (-1)) fs r)); [destruct Hst as [-> | ->]; reflexivity|].
  apply (loops_cons 97 _ _ (AState (Lex F2 (bs "fa") k u (-1)) fs r)); [reflexivity|].
  apply (loops_cons 108 _ _ (AState (Lex F3 (bs "fal") k u (-1)) fs r)); [reflexivity|].
  apply (loops_cons 115 _ _ (AState (Lex F4 (bs "fals") k u (-1)) fs r)); [reflexivity|].
  by apply loops_one.
Qed.
Lemma number_read d w v : number zend_strtod w v -> value_read d w v.
Proof.
  intros Hn. apply scalar_read.
  - intros st k u fs r Hst. destruct (number_loop st w v Hst Hn k u fs r) as (st' & ty & x & Hend & Hx & Hv & Hl).
    exists st', (ascii w), ty, x. split; [by right|]. split; [|done].
    unfold number_end in Hend. simpl in Hend. by destruct Hend as [[= _ <-]|[[= _ <-]|[[= _ <-]|[[= _ <-]|[]]]]].
  - destruct Hn as [s i f e [] Hi _ _]; [|simpl; lia]. destruct Hi; simpl; lia.
Qed.

Lemma grammar_read :
  (forall d w v, value zend_strtod assoc d w v -> value_read d w v) /\
  (forall d w l, elements zend_strtod assoc d w l -> elements_read d w l) /\
  (forall d w l, members zend_strtod assoc d w l -> members_read d w l).
Proof.
  apply value_elements_members_ind.
  - apply null_read.
  - apply true_read.
  - apply false_read.
  - intros. by apply number_read.
  - intros d w b Hb. by apply string_read.
  - intros d s Hs. apply (empty_read d MODE_ARRAY AR 91 s); auto.
  - intros d w l _ Hr. apply (content_read d MODE_ARRAY AR 91 w l). left. auto.
  - intros d s Hs. apply (empty_read d MODE_OBJECT OB 123 s); auto.
  - intros d w l _ Hr. apply (content_read d MODE_OBJECT OB 123 w l). right. auto.
  - intros. by apply elements_one_read.
  - intros. by apply elements_more_read.
  - intros. by eapply members_one_read.
  - intros. by eapply members_more_read.
Qed.

Lemma run_complete w v : text zend_strtod assoc levels w v -> run zend_strtod assoc max_depth w = Value v.
Proof.
  intros [s1 c w' v' s2 H1 Hv Hc H2].
  assert (Hgo : In (hd 0 (c :: w')) [34; 91; 123]) by (simpl; lia).
  destruct (proj1 grammar_read _ _ _ Hv GO [] 0 [] None (KInt 0)) as (a & Hl & Ha); [by right|done|done|cbn; lia|].
  destruct (after_blanks _ _ _ _ s2 Ha H2) as (a' & Hl2 & Ha').
  assert (Hall : loops (s1 ++ (c :: w') ++ s2) start a').
  { eapply loops_app; [apply (blanks_loop GO); [unfold between; simpl; tauto|done]|]. by eapply loops_app. }
  unfold run. unfold loops in Hall. rewrite Hall. by inversion Ha'; subst.
Qed.
End Complete.
