(* ===== verification/JsonErrors.v ===== *)
(** * How the JSON parser refuses

    The error codes of the automaton: what is refused in the middle of a
    text, at its end, and for its depth; when it dies. *)

From S2P Require Import Prelude Dll ZendHash ZendHashInv ZendHashSteps ZendHashOps ZendHashIter ZendHashBulk ZendHashOrder ZendHashCursor ZendHashNumeric ZendHashRefine ZendHashClient CLib JsonUtf8 JsonParser JsonAutomaton JsonParserSpec JsonGrammar JsonLex JsonParserRun JsonSound JsonComplete.
Open Scope Z_scope.

(** Control characters that are not blanks. *)
Definition control (c : Z) : Prop := 0 <= c < 32 /\ ~ blank_char c.

Section Errors.
Context {D : Type} (zend_strtod : list byte -> D) (assoc : bool).
Implicit Types (a : astate D) (w : list Z) (v : php D).

Notation turn := (abs_char zend_strtod assoc).
Notation read := (abs_loop zend_strtod assoc).

Definition error_of (code : Z) : Prop :=
  In code [PHP_JSON_ERROR_DEPTH; PHP_JSON_ERROR_STATE_MISMATCH; PHP_JSON_ERROR_CTRL_CHAR; PHP_JSON_ERROR_SYNTAX].

Ltac cases_of H :=
  repeat match type of H with
  | context [match ?x with _ => _ end] => destruct x eqn:?
  end; try discriminate; try (injection H as <-); unfold error_of; simpl; auto.

Lemma flush_no_stop st a code : flush zend_strtod assoc st a <> Stop code.
Proof. unfold flush. destruct (frames a) as [|f fs]; [done|]. by destruct (entry_key assoc (lx a) f). Qed.
Lemma close_codes m a code : close assoc m a = Stop code -> error_of code.
Proof. unfold close. intros H. cases_of H. Qed.
Lemma turn_codes d c a code : turn d c a = Stop code -> error_of code.
Proof.
  unfold abs_char. destruct (class_of c) as [kk|]; [|done]. destruct (kk <=? __).
  { intros [= <-]. unfold error_of. simpl. auto. }
  destruct (transition _ kk) as [n|]; [|done]. destruct (0 <=? n); [done|]. unfold abs_act.
  destruct (n =? -9); [apply close_codes|].
  assert (Hend : forall m, abs_end zend_strtod assoc m a = Stop code -> error_of code).
  { intros m. unfold abs_end. destruct (_ && _); [|apply close_codes].
    destruct (flush _ _ _ a) eqn:E; [apply close_codes|by apply flush_no_stop in E|done]. }
  destruct (n =? -8); [apply Hend|]. destruct (n =? -7); [apply Hend|].
  assert (Hbegin : forall m st, abs_begin assoc d m st a = Stop code -> error_of code).
  { intros m st. unfold abs_begin. intros H. cases_of H. }
  destruct (n =? -6); [apply Hbegin|]. destruct (n =? -5); [apply Hbegin|].
  destruct (n =? -4); [unfold abs_quote; intros H; cases_of H|].
  destruct (n =? -3).
  { unfold abs_comma. destruct (_ || _); [|intros [= <-]; unfold error_of; simpl; auto].
    destruct (l_type _ =? -1); [by destruct (frames _)|].
    destruct (flush _ _ _ a) as [a'|c'|] eqn:E; [by destruct (frames a')|by apply flush_no_stop in E|done]. }
  destruct (n =? -2); [unfold abs_colon; intros H; cases_of H|].
  intros [= <-]. unfold error_of. simpl. auto.
Qed.
Lemma read_codes d w : forall a code, read d w a = Stop code -> error_of code.
Proof.
  induction w as [|c w IH]; intros a code; cbn [abs_loop]; [done|].
  destruct (turn d c a) eqn:E; [apply IH|by intros [= <-]; eapply turn_codes|done].
Qed.
Lemma run_codes d w code : run zend_strtod assoc d w = Refused code -> error_of code.
Proof.
  unfold run. destruct (read d w start) as [a|c|] eqn:E; [|intros [= <-]; by eapply read_codes|done].
  intros H. destruct (frames a); [destruct (root a); [destruct (_ =? OK); [done|]|]|]; injection H as <-; unfold error_of; simpl; auto.
Qed.

(** ** Dying: only for a property name that starts with a NUL *)

Lemma member_key_some key : assoc = true -> member_key assoc key <> None.
Proof. unfold member_key. by intros ->. Qed.
Lemma entry_key_some l (f : frame D) : assoc = true -> entry_key assoc l f <> None.
Proof. intros Ha. unfold entry_key. destruct (_ =? _); [done|]. by apply member_key_some. Qed.
Lemma turn_died d c a : unit16 c -> tame zend_strtod a -> turn d c a = Fatal -> assoc = false.
Proof.
  intros Hc Ha Ht. destruct assoc eqn:Has; [|done]. exfalso.
  assert (Hflush : forall st a, flush zend_strtod assoc st a <> Fatal).
  { intros st a0. unfold flush. destruct (frames a0) as [|f fs]; [done|].
    pose proof (entry_key_some (lx a0) f Has). by destruct (entry_key assoc (lx a0) f). }
  assert (Hclose : forall m a, close assoc m a <> Fatal).
  { intros m a0. unfold close. destruct (frames a0) as [|f [|g gs]]; [done| |]; by destruct (f_mode f =? m). }
  rewrite <- Has in Ht. revert Ht. unfold abs_char. unfold unit16 in Hc. destruct (class_cases c ltac:(lia)) as (kk & -> & Hkk & _).
  destruct (Z.leb_spec kk __) as [|Hk]; [done|]. unfold __ in Hk.
  destruct (transition_ok (l_state (lx a)) kk (tm_state _ _ Ha) ltac:(lia)) as [n ->].
  destruct (0 <=? n); [done|]. unfold abs_act.
  assert (Hend : forall m, abs_end zend_strtod assoc m a <> Fatal).
  { intros m. unfold abs_end. destruct (_ && _); [|apply Hclose].
    destruct (flush _ _ _ a) eqn:E; [apply Hclose|done|by apply Hflush in E]. }
  assert (Hbegin : forall m st, abs_begin assoc d m st a <> Fatal).
  { intros m st. unfold abs_begin. destruct (_ <=? _); [done|]. destruct (frames a) as [|f fs]; [done|].
    pose proof (entry_key_some (lx a) f Has). by destruct (entry_key assoc (lx a) f). }
  repeat (destruct (n =? _); [first [apply Hclose|apply Hend|apply Hbegin|
    unfold abs_quote; by repeat case_match|
    unfold abs_comma; destruct (_ || _); [|done]; destruct (l_type _ =? -1); [by destruct (frames _)|];
      destruct (flush _ _ _ a) as [a'|c'|] eqn:E; [by destruct (frames a')|done|by apply Hflush in E]|
    unfold abs_colon; by repeat case_match]|]). done.
Qed.
Lemma read_died d w : forall u a, explains zend_strtod assoc d u a -> Forall unit16 w -> read d w a = Fatal -> assoc = false.
Proof.
  induction w as [|c w IH]; intros u a Ha Hw; cbn [abs_loop]; [done|]. apply Forall_cons in Hw as [Hc Hw].
  destruct (turn d c a) as [a'| |] eqn:E; [|done|].
  - eapply IH; [by eapply turn_explained|done].
  - intros _. eapply turn_died; [done|by eapply explains_tame|done].
Qed.
Lemma run_died d w : Forall unit16 w -> run zend_strtod assoc d w = Died -> assoc = false.
Proof.
  intros Hw. unfold run. destruct (read d w start) as [a|c|] eqn:E; [|done|].
  - destruct (frames a); [destruct (root a); [by destruct (_ =? OK)|]|]; done.
  - intros _. eapply read_died; [apply explains_start|done|done].
Qed.

(** ** The beginning of a text *)

Lemma read_app d w1 : forall w2 a, read d (w1 ++ w2) a =
  match read d w1 a with Go a' => read d w2 a' | o => o end.
Proof.
  induction w1 as [|c w1 IH]; intros w2 a; [done|]. cbn [app abs_loop]. by destruct (turn d c a).
Qed.
Lemma prefix_goes d w w' v : text zend_strtod assoc (levels d) (w ++ w') v -> exists a, read d w start = Go a.
Proof.
  intros Ht%run_complete. unfold run in Ht. rewrite read_app in Ht.
  destruct (read d w start) as [a| |]; [by exists a|done|done].
Qed.

Lemma run_control d w w' v c w2 : text zend_strtod assoc (levels d) (w ++ w') v -> control c ->
  run zend_strtod assoc d (w ++ c :: w2) = Refused PHP_JSON_ERROR_CTRL_CHAR.
Proof.
  intros Ht [Hc Hb]. destruct (prefix_goes _ _ _ _ Ht) as [a Ha]. unfold run. rewrite read_app, Ha. cbn [abs_loop].
  assert (Hclass : class_of c = Ok __).
  { assert (Hall : forallb (fun c => (c =? 9) || (c =? 10) || (c =? 13) || match class_of c with Ok k => k =? __ | _ => false end) (seqZ 0 32) = true)
      by (vm_compute; reflexivity).
    rewrite forallb_forall in Hall. specialize (Hall c ltac:(apply list_elem_of_In, elem_of_seqZ; lia)).
    unfold blank_char in Hb. rewrite !orb_true_iff, !Z.eqb_eq in Hall.
    destruct Hall as [Hall|Hall]; [exfalso; tauto|]. destruct (class_of c) as [k|]; [|done].
    apply Z.eqb_eq in Hall. by rewrite Hall. }
  unfold abs_char. by rewrite Hclass, Z.leb_refl.
Qed.

Lemma run_truncated d w w' v : text zend_strtod assoc (levels d) (w ++ w') v -> Forall unit16 w ->
  (forall v', ~ text zend_strtod assoc (levels d) w v') ->
  run zend_strtod assoc d w = Refused PHP_JSON_ERROR_SYNTAX.
Proof.
  intros Ht Hw Hno. destruct (prefix_goes _ _ _ _ Ht) as [a Ha].
  destruct (run zend_strtod assoc d w) as [v'|code|] eqn:E.
  - by destruct (Hno v'), (run_sound _ _ _ _ _ Hw E).
  - revert E. unfold run. rewrite Ha. destruct (frames a); [destruct (root a); [by destruct (_ =? OK); [|intros [= <-]]|]|]; by intros [= <-].
  - exfalso. revert E. unfold run. rewrite Ha. destruct (frames a); [destruct (root a); [by destruct (_ =? OK)|]|]; done.
Qed.

(** ** Depth *)

Lemma turn_depth d1 d2 c a : d1 <= d2 -> turn d1 c a = turn d2 c a \/ turn d1 c a = Stop PHP_JSON_ERROR_DEPTH.
Proof.
  intros Hd. unfold abs_char. destruct (class_of c) as [kk|]; [|by left]. destruct (kk <=? __); [by left|].
  destruct (transition _ kk) as [n|]; [|by left]. destruct (0 <=? n); [by left|]. unfold abs_act.
  assert (Hbegin : forall m st, abs_begin assoc d1 m st a = abs_begin assoc d2 m st a \/ abs_begin assoc d1 m st a = Stop PHP_JSON_ERROR_DEPTH).
  { intros m st. unfold abs_begin. destruct (Z.leb_spec d1 (Z.of_nat (length (frames a)) + 1)); [by right|].
    rewrite (proj2 (Z.leb_gt d2 _)) by lia. by left. }
  repeat (destruct (n =? _); [first [apply Hbegin|by left]|]). by left.
Qed.
Lemma read_depth d1 d2 w : d1 <= d2 -> forall a, read d1 w a = read d2 w a \/ read d1 w a = Stop PHP_JSON_ERROR_DEPTH.
Proof.
  intros Hd. induction w as [|c w IH]; intros a; [by left|]. cbn [abs_loop].
  destruct (turn_depth d1 d2 c a Hd) as [-> | ->]; [|by right]. destruct (turn d2 c a); [apply IH|by left|by left].
Qed.
Lemma run_depth d1 d2 w v : d1 <= d2 -> Forall unit16 w -> text zend_strtod assoc (levels d2) w v ->
  (forall v', ~ text zend_strtod assoc (levels d1) w v') -> run zend_strtod assoc d1 w = Refused PHP_JSON_ERROR_DEPTH.
Proof.
  intros Hd Hw Ht%run_complete Hno. destruct (read_depth d1 d2 w Hd start) as [E|E].
  - assert (Hr : run zend_strtod assoc d1 w = Value v) by (rewrite <- Ht; unfold run; by rewrite E).
    by destruct (Hno v), (run_sound _ _ _ _ _ Hw Hr).
  - unfold run. by rewrite E.
Qed.
End Errors.
