(* ===== verification/JsonRun.v ===== *)
(** * The parser from its creation on

    What a new parser answers, and [json_decode] makes of it. *)

From S2P Require Import Prelude Dll ZendHash ZendHashInv ZendHashSteps ZendHashOps ZendHashIter ZendHashBulk ZendHashOrder ZendHashCursor ZendHashNumeric ZendHashRefine ZendHashClient CLib JsonUtf8 JsonUtf8Spec JsonParser JsonAutomaton JsonParserSpec JsonGrammar JsonLex JsonParserRun JsonSound JsonComplete JsonErrors.
Open Scope Z_scope.

(** ** The parser from its creation on *)

(** [parse_JSON] with a new parser of the given depth and a single zval,
    NULL, at address 0. *)
Definition decode {D : Type} `{Allocator} (zend_strtod : list byte -> D) (assoc : bool) (depth : Z) (w : list Z) :
    res (bool * pstate D) :=
  j ← new_JSON_parser depth; parse_JSON zend_strtod j 0%nat [ZNull] w assoc.

Section Decode.
Context {D : Type} `{Allocator} (Hp : plentiful zaddr) (zend_strtod : list byte -> D) (assoc : bool) (depth : Z).

Lemma decode_run w : 0 < depth -> Forall unit16 w -> 1 + Z.of_nat (length w) < LONG_MAX ->
  answered (decode zend_strtod assoc depth w) (run zend_strtod assoc depth w).
Proof using Hp.
  intros Hd Hw Hl.
  destruct (parse_JSON_run Hp zend_strtod assoc depth (fun a => exists u, explains zend_strtod assoc depth u a)) with (text := w)
    as (j & Hj & Ha); try done.
  - intros a [u Hu]. by eapply explains_tame.
  - intros c a a' Hc [u Hu] Ht. exists (u ++ [c]). by eapply turn_explained.
  - exists []. apply explains_start.
  - unfold decode. by rewrite (res_bind_ok _ _ _ Hj).
Qed.

(** The parser's answer: the text's value, an error code, or the request's end. *)
Lemma decode_cases w : 0 < depth -> Forall unit16 w -> 1 + Z.of_nat (length w) < LONG_MAX ->
  (exists v s, text zend_strtod assoc (levels depth) w v /\ decode zend_strtod assoc depth w = Ok (true, s) /\
     error_code (jp s) = PHP_JSON_ERROR_NONE /\ rep (zvals s) 0 (length (zvals s)) 0%nat v) \/
  ((forall v, ~ text zend_strtod assoc (levels depth) w v) /\
   ((exists s, decode zend_strtod assoc depth w = Ok (false, s) /\
      In (error_code (jp s)) [PHP_JSON_ERROR_DEPTH; PHP_JSON_ERROR_STATE_MISMATCH; PHP_JSON_ERROR_CTRL_CHAR; PHP_JSON_ERROR_SYNTAX]) \/
    (decode zend_strtod assoc depth w = Err Bailout /\ assoc = false))).
Proof using Hp.
  intros Hd Hw Hl. pose proof (decode_run w Hd Hw Hl) as Ha.
  assert (Hno : (forall v, run zend_strtod assoc depth w <> Value v) -> forall v, ~ text zend_strtod assoc (levels depth) w v).
  { intros Hn v Hv%run_complete. by destruct (Hn v). }
  destruct (run zend_strtod assoc depth w) as [v|code|] eqn:Hr.
  - left. destruct Ha as (s & Hs). exists v, s. split; [by apply run_sound|done].
  - right. split; [by apply Hno|]. left. destruct Ha as (s & Hs & <-). exists s. split; [done|]. exact (run_codes _ _ _ _ _ Hr).
  - right. split; [by apply Hno|]. right. split; [done|]. by eapply run_died.
Qed.
Lemma text_fun w v v' : 0 < depth -> Forall unit16 w -> 1 + Z.of_nat (length w) < LONG_MAX ->
  text zend_strtod assoc (levels depth) w v -> text zend_strtod assoc (levels depth) w v' -> v = v'.
Proof. intros Hd Hw Hl Hv%run_complete Hv'%run_complete. congruence. Qed.
End Decode.

(** The outcome of a text that is refused with an error code. *)
Definition refused {D : Type} (r : res (bool * pstate D)) (code : Z) : Prop :=
  exists s, r = Ok (false, s) /\ error_code (jp s) = code.
