(* ===== verification/JsonThms.v ===== *)
(** * Theorems about the JSON parser *)

From S2P Require Import Prelude Dll ZendHash ZendHashInv ZendHashSteps ZendHashOps ZendHashIter ZendHashBulk ZendHashOrder ZendHashCursor ZendHashNumeric ZendHashRefine ZendHashClient CLib JsonUtf8 JsonUtf8Spec JsonParser JsonAutomaton JsonParserSpec JsonGrammar JsonLex JsonParserRun JsonSound JsonComplete JsonErrors JsonRun.
Open Scope Z_scope.

(** C2: with a parser of depth [depth], [parse_JSON] accepts exactly the
    texts of the JSON grammar whose containers nest less than [depth] deep,
    and the zval it was given then holds the value the text spells; in any
    other case it answers false, or the request ends. *)
Theorem parser_decides_grammar {D : Type} `{Allocator} (zend_strtod : list byte -> D) (assoc : bool) (depth : Z) (w : list Z) :
  plentiful zaddr -> 0 < depth -> Forall unit16 w -> 1 + Z.of_nat (length w) < LONG_MAX ->
  (forall v, text zend_strtod assoc (levels depth) w v <->
     exists s, decode zend_strtod assoc depth w = Ok (true, s) /\ error_code (jp s) = PHP_JSON_ERROR_NONE /\
       rep (zvals s) 0 (length (zvals s)) 0%nat v) /\
  ((forall v, ~ text zend_strtod assoc (levels depth) w v) ->
     decode zend_strtod assoc depth w = Err Bailout \/ exists code, refused (decode zend_strtod assoc depth w) code).
Proof.
  intros Hp Hd Hw Hl. pose proof (decode_run Hp zend_strtod assoc depth w Hd Hw Hl) as Ha. split.
  - intros v. split.
    + intros Ht%run_complete. by rewrite Ht in Ha.
    + intros (s & Hs & _ & Hv). destruct (run zend_strtod assoc depth w) as [v'|code|] eqn:Hr.
      * destruct Ha as (s' & Hs' & _ & Hv'). rewrite Hs' in Hs. injection Hs as ->.
        replace v with v' by (by eapply rep_fun). by apply run_sound.
      * destruct Ha as (s' & Hs' & _). by rewrite Hs' in Hs.
      * cbn in Ha. by rewrite Ha in Hs.
  - intros Hno. destruct (run zend_strtod assoc depth w) as [v'|code|] eqn:Hr.
    + by destruct (Hno v'), (run_sound _ _ _ _ _ Hw Hr).
    + right. by exists code.
    + by left.
Qed.

(** Samples: [double]s are the text they were read from. *)
Definition sample_strtod (s : list byte) : list byte := s.
Definition units (s : list byte) : list Z := uc <$> s.
Lemma units_ok s : Forall unit16 (units s).
Proof. apply Forall_fmap, Forall_forall. intros b _. cbn. pose proof (uc_range b). unfold unit16. lia. Qed.

Lemma blank_none : blank [].
Proof. constructor. Qed.
Definition one_text : list Z := units (bs "[1]").
Lemma one_text_value d : text sample_strtod true (S d) one_text (PArray [(KInt 0, PLong 1)]).
Proof.
  assert (Hn : number sample_strtod [49] (PLong 1)).
  { apply (number_intro sample_strtod [] [49] [] []); [constructor|constructor; [lia|constructor]|constructor|constructor]. }
  apply (text_intro sample_strtod true (S d) [] 91 [49; 93] _ []); [constructor| |auto|constructor].
  apply (value_array sample_strtod true d [49]). apply (elements_one sample_strtod true d [] [49] _ []); [constructor| |constructor].
  by apply value_number.
Qed.

Lemma parser_decides_grammar_witness :
  (exists s, decode sample_strtod true 2 one_text = Ok (true, s) /\ error_code (jp s) = PHP_JSON_ERROR_NONE /\
     rep (zvals s) 0 (length (zvals s)) 0%nat (PArray [(KInt 0, PLong 1)])) /\
  (forall v, ~ text sample_strtod true (levels 2) (units (bs "[1,]")) v).
Proof.
  assert (Hp : plentiful zaddr) by (intros m size; done).
  split.
  - apply (parser_decides_grammar sample_strtod true 2 one_text Hp); [reflexivity|apply units_ok|reflexivity|].
    exact (one_text_value 0).
  - intros v Hv.
    destruct (parser_decides_grammar sample_strtod true 2 (units (bs "[1,]")) Hp eq_refl (units_ok _) eq_refl) as [Hd _].
    destruct (proj1 (Hd v) Hv) as (s & Hs & _). vm_compute in Hs. discriminate Hs.
Defined.

(** C7: [parse_JSON] never reads or writes outside its stacks and tables and
    never uses a cell it has not set: it answers true or false,
    false with one of the four error codes; the one other outcome, the
    request's end, needs an object that is not decoded to an array. *)
Theorem parser_is_safe {D : Type} `{Allocator} (zend_strtod : list byte -> D) (assoc : bool) (depth : Z) (w : list Z) :
  plentiful zaddr -> 0 < depth -> Forall unit16 w -> 1 + Z.of_nat (length w) < LONG_MAX ->
  (exists s, decode zend_strtod assoc depth w = Ok (true, s) /\ error_code (jp s) = PHP_JSON_ERROR_NONE) \/
  (exists s, decode zend_strtod assoc depth w = Ok (false, s) /\
     In (error_code (jp s)) [PHP_JSON_ERROR_DEPTH; PHP_JSON_ERROR_STATE_MISMATCH; PHP_JSON_ERROR_CTRL_CHAR; PHP_JSON_ERROR_SYNTAX]) \/
  (decode zend_strtod assoc depth w = Err Bailout /\ assoc = false).
Proof.
  intros Hp Hd Hw Hl. pose proof (decode_run Hp zend_strtod assoc depth w Hd Hw Hl) as Ha.
  destruct (run zend_strtod assoc depth w) as [v|code|] eqn:Hr.
  - left. destruct Ha as (s & Hs & He & _). by exists s.
  - right. left. destruct Ha as (s & Hs & <-). exists s. split; [done|]. exact (run_codes _ _ _ _ _ Hr).
  - right. right. split; [done|]. by eapply run_died.
Qed.

(** The name of this object's member starts with a NUL. *)
Definition nul_name : list Z := units (bs "{" ++ [Byte.x22] ++ bs "\u0000a" ++ [Byte.x22] ++ bs ":1}").
Example nul_name_dies : decode sample_strtod false 512 nul_name = Err Bailout.
Proof. vm_compute. reflexivity. Qed.
(** A point needs no digits after it. *)
Example point_alone : run sample_strtod true 512 (units (bs "[1.]")) = Value (PArray [(KInt 0, PDouble (bs "1."))]).
Proof. vm_compute. reflexivity. Qed.
(** Half of a surrogate pair, escaped, is encoded on its own. *)
Example lone_surrogate :
  run sample_strtod true 512 (units ([Byte.x22] ++ bs "\ud800" ++ [Byte.x22])) = Value (PString [Byte.xed; Byte.xa0; Byte.x80]).
Proof. vm_compute. reflexivity. Qed.

Lemma parser_is_safe_witness :
  (exists s, decode sample_strtod true 512 nul_name = Ok (true, s)) /\
  decode sample_strtod false 512 nul_name = Err Bailout.
Proof.
  assert (Hp : plentiful zaddr) by (intros m size; done).
  split.
  - destruct (parser_is_safe sample_strtod true 512 nul_name Hp eq_refl (units_ok _) eq_refl)
      as [(s & Hs & _)|[(s & Hs & _)|[_ Hs]]]; [by exists s| |done]. vm_compute in Hs. discriminate Hs.
  - vm_compute. reflexivity.
Defined.

(** C19: what the error code says.  A control character after the beginning of
    a text is refused as such; the beginning of a text that is none is a
    syntax error; a text that only nests too deep for the parser is refused
    for its depth. *)
Theorem parser_reports {D : Type} `{Allocator} (zend_strtod : list byte -> D) (assoc : bool) (depth : Z)
    (w w' : list Z) (v : php D) (deep : Z) :
  plentiful zaddr -> 0 < depth <= deep -> Forall unit16 (w ++ w') -> 1 + Z.of_nat (length (w ++ w')) < LONG_MAX ->
  text zend_strtod assoc (levels deep) (w ++ w') v ->
  (forall c w2, control c -> depth = deep -> Forall unit16 w2 -> 1 + Z.of_nat (length (w ++ c :: w2)) < LONG_MAX ->
     refused (decode zend_strtod assoc depth (w ++ c :: w2)) PHP_JSON_ERROR_CTRL_CHAR) /\
  ((forall v', ~ text zend_strtod assoc (levels depth) w v') -> depth = deep ->
     refused (decode zend_strtod assoc depth w) PHP_JSON_ERROR_SYNTAX) /\
  ((forall v', ~ text zend_strtod assoc (levels depth) (w ++ w') v') ->
     refused (decode zend_strtod assoc depth (w ++ w')) PHP_JSON_ERROR_DEPTH).
Proof.
  intros Hp [Hd Hdeep] Hw Hl Ht.
  assert (Hanswer : forall u code, Forall unit16 u -> 1 + Z.of_nat (length u) < LONG_MAX ->
    run zend_strtod assoc depth u = Refused code -> refused (decode zend_strtod assoc depth u) code).
  { intros u code Hu Hlu Hr. pose proof (decode_run Hp zend_strtod assoc depth u Hd Hu Hlu) as Ha. by rewrite Hr in Ha. }
  pose proof Hw as [Hw1 Hw2]%Forall_app. rewrite length_app in Hl. split_and!.
  - intros c w2 Hc -> Hu Hlu. apply Hanswer; [|done|by eapply run_control].
    apply Forall_app. split; [done|]. constructor; [|done]. destruct Hc as [Hc _]. unfold unit16. lia.
  - intros Hno ->. apply Hanswer; [done|lia|by eapply run_truncated].
  - intros Hno. apply Hanswer; [done|rewrite length_app; lia|by eapply run_depth].
Qed.

Lemma parser_reports_witness :
  refused (decode sample_strtod true 2 ([91; 49] ++ [7; 93])) PHP_JSON_ERROR_CTRL_CHAR /\
  refused (decode sample_strtod true 1 ([91; 49] ++ [93])) PHP_JSON_ERROR_DEPTH.
Proof.
  assert (Hp : plentiful zaddr) by (intros m size; done).
  assert (Hno : forall v', ~ text sample_strtod true (levels 1) ([91; 49] ++ [93]) v').
  { intros v' Hv%run_complete. vm_compute in Hv. discriminate Hv. }
  assert (H12 : 0 < 2 <= 2 /\ 0 < 1 <= 2) by lia. destruct H12 as [H2 H1].
  split.
  - apply (parser_reports sample_strtod true 2 [91; 49] [93] _ 2 Hp H2 (units_ok (bs "[1]")) eq_refl (one_text_value 0));
      [|reflexivity|apply (units_ok [Byte.x5d])|reflexivity]. split; [lia|]. unfold blank_char. lia.
  - apply (parser_reports sample_strtod true 1 [91; 49] [93] _ 2 Hp H1 (units_ok (bs "[1]")) eq_refl (one_text_value 0)). exact Hno.
Defined.

(** C20: an integer is a [long] exactly when a [long] can hold it, and then it
    is that number: otherwise it is the [double] zend_strtod makes of its
    text.  The parser decides this by the number of digits and, at 19 digits,
    by comparing the text with that of 2 ^ 63. *)
Theorem whole_numbers {D : Type} (zend_strtod : list byte -> D) (s i : list Z) :
  sign s -> integer i ->
  zval_of zend_strtod (ascii (s ++ i)) IS_LONG =
    Ok (if (LONG_MIN <=? integer_value (s ++ i)) && (integer_value (s ++ i) <=? LONG_MAX)
        then ZLong (integer_value (s ++ i)) else ZDouble (zend_strtod (ascii (s ++ i)))).
Proof.
  intros Hs Hi. destruct (integer_value_signed s i Hs Hi) as (minus & Hm & Hv). rewrite ascii_app, Hm, Hv.
  unfold zval_of. change (IS_LONG =? IS_LONG) with true. exact (long_or_double_run zend_strtod minus _ _ (integer_digits_of i Hi)).
Qed.

Lemma whole_numbers_witness :
  zval_of sample_strtod (ascii ([45] ++ units (bs "9223372036854775808"))) IS_LONG = Ok (ZLong LONG_MIN) /\
  zval_of sample_strtod (ascii ([] ++ units (bs "9223372036854775808"))) IS_LONG =
    Ok (ZDouble (ascii ([] ++ units (bs "9223372036854775808")))).
Proof.
  assert (Hi : integer (units (bs "9223372036854775808"))).
  { constructor; [vm_compute; split; discriminate|]. repeat (constructor; [vm_compute; split; discriminate|]). constructor. }
  split.
  - rewrite (whole_numbers sample_strtod [45] _ sign_minus Hi). vm_compute. reflexivity.
  - rewrite (whole_numbers sample_strtod [] _ sign_none Hi). vm_compute. reflexivity.
Defined.

(** ** UTF-8 and UTF-16 *)

(** C18: with room for a unit per byte, [utf8_to_utf16] ends and stays within
    its buffer; it converts a byte string exactly when it is the UTF-8 of
    Unicode scalar values, into their UTF-16, and answers UTF8_ERROR for any
    other (overlong forms, surrogates, values beyond 0x10FFFF, and truncated
    sequences). *)
Theorem utf8_to_utf16_exact (cap : Z) (p : list byte) :
  Z.of_nat (length p) <= cap ->
  exists r w, utf8_to_utf16 cap p (Z.of_nat (length p)) = Ok (r, w) /\
    ((exists cs, Forall scalar cs /\ p = utf8_text cs /\ w = utf16_text cs /\ r = Z.of_nat (length w)) \/
     (r = UTF8_ERROR /\ forall cs, Forall scalar cs -> p <> utf8_text cs)).
Proof.
  intros Hp. destruct (utf8_to_utf16_run cap p Hp) as (r & w & Hr & [Hc|Hc]); exists r, w; (split; [done|]); [left|right].
  - destruct Hc as (cs & Hcs & He & Hw & Hl). by exists cs.
  - done.
Qed.
Lemma utf8_to_utf16_exact_witness :
  utf8_to_utf16 4 [Byte.xf0; Byte.x9d; Byte.x84; Byte.x9e] 4 = Ok (2, [55348; 56606]) /\
  (forall cs, Forall scalar cs -> [Byte.xc0; Byte.x80] <> utf8_text cs).
Proof.
  split; [reflexivity|].
  destruct (utf8_to_utf16_exact 2 [Byte.xc0; Byte.x80] ltac:(cbn; lia)) as (r & w & Hr & [Hc|[_ Hno]]); [|exact Hno].
  vm_compute in Hr. injection Hr as <- <-. destruct Hc as (cs & _ & _ & _ & Hl). discriminate Hl.
Defined.

(** Characters that stand for themselves in a JSON string. *)
Definition unescaped (c : Z) : Prop := scalar c /\ 32 <= c /\ c <> 34 /\ c <> 92.

Lemma plain_units cs : Forall unescaped cs -> Forall plain (utf16_text cs).
Proof.
  induction 1 as [|c cs (Hs & H1 & H2 & H3) _ IH]; [constructor|]. cbn [utf16_text mbind list_bind]. apply Forall_app.
  split; [|exact IH]. unfold utf16_char, plain. unfold scalar in Hs. destruct (Z.ltb_spec c 65536).
  - constructor; [lia|constructor].
  - repeat constructor; Z.to_euclidean_division_equations; lia.
Qed.
Lemma chars_of_plain w : Forall plain w -> chars w (fold_left utf16_to_utf8 w []).
Proof.
  induction w as [|c w IH] using rev_ind; [constructor|]. intros [Hw Hc]%Forall_app. rewrite fold_left_app. cbn [fold_left].
  inversion_clear Hc. constructor; auto.
Qed.

Lemma rep_string {D : Type} (zs : list (zvalue D)) lo hi z b : rep zs lo hi z (PString b) -> zs !! z = Some (ZString b).
Proof.
  intros Hr. remember (PString b) as v eqn:Ev. destruct Hr as [lo hi z x _ Hx _| |]; try done.
  destruct x; cbn in Ev; simplify_eq. exact Hx.
Qed.
(** A UTF-8 string of characters that need no escape, converted to
    UTF-16, put between quotes and parsed, comes back byte for byte. *)
Theorem string_round_trip {D : Type} `{Allocator} (zend_strtod : list byte -> D) (assoc : bool) (cs : list Z) :
  plentiful zaddr -> Forall unescaped cs -> 3 + Z.of_nat (length (utf8_text cs)) < LONG_MAX ->
  exists w s, utf8_to_utf16 (Z.of_nat (length (utf8_text cs))) (utf8_text cs) (Z.of_nat (length (utf8_text cs))) =
      Ok (Z.of_nat (length w), w) /\
    decode zend_strtod assoc JSON_PARSER_DEFAULT_DEPTH ([34] ++ w ++ [34]) = Ok (true, s) /\
    zvals s !! 0%nat = Some (ZString (utf8_text cs)).
Proof.
  intros Hp Hcs Hl. assert (Hsc : Forall scalar cs) by (eapply Forall_impl; [exact Hcs|]; by intros c [? _]).
  destruct (utf8_to_utf16_run (Z.of_nat (length (utf8_text cs))) (utf8_text cs)) as (r & w & Hr & Hconv); [lia|].
  destruct Hconv as [(cs' & Hcs' & He & Hw & ->)|[_ Hno]]; [|by destruct (Hno cs)].
  apply utf8_text_inj in He; [subst cs'|done|done]. cbn [app] in Hw. subst w. exists (utf16_text cs).
  pose proof (plain_units cs Hcs) as Hplain. set (w := utf16_text cs) in *.
  assert (Hval : value zend_strtod assoc (levels JSON_PARSER_DEFAULT_DEPTH) (34 :: w ++ [34]) (PString (utf8_text cs))).
  { apply value_string. pose proof (chars_of_plain w Hplain) as Hch. unfold w in Hch. by rewrite text_to_utf8 in Hch. }
  assert (Hlen : (length w <= length (utf8_text cs))%nat).
  { unfold w. clear. induction cs as [|c cs IH]; [done|]. cbn [utf16_text utf8_text mbind list_bind]. rewrite !length_app.
    pose proof (utf16_char_length c). unfold utf16_text, utf8_text in IH. lia. }
  assert (Hunits : Forall unit16 ([34] ++ w ++ [34])).
  { constructor; [done|]. apply Forall_app. split; [|by repeat constructor].
    eapply Forall_impl; [exact Hplain|]. intros c Hc. destruct Hc as [Hc _]. unfold unit16. lia. }
  pose proof (decode_run Hp zend_strtod assoc JSON_PARSER_DEFAULT_DEPTH _ eq_refl Hunits) as Ha.
  rewrite (run_complete zend_strtod assoc JSON_PARSER_DEFAULT_DEPTH ([34] ++ w ++ [34]) (PString (utf8_text cs))) in Ha.
  - destruct Ha as (s & Hs & _ & Hrep); [rewrite !length_app; cbn [length]; lia|]. exists s. split; [done|]. split; [done|].
    by eapply rep_string.
  - rewrite <- (app_nil_r ([34] ++ _)).
    apply (text_intro zend_strtod assoc _ [] 34 (w ++ [34]) _ []); [constructor|exact Hval|auto|constructor].
Qed.

Lemma string_round_trip_witness :
  exists s, decode sample_strtod true JSON_PARSER_DEFAULT_DEPTH ([34] ++ [233; 55348; 56606; 65] ++ [34]) = Ok (true, s) /\
    zvals s !! 0%nat = Some (ZString (utf8_text [233; 119070; 65])).
Proof.
  assert (Hcs : Forall unescaped [233; 119070; 65]).
  { repeat (constructor; [unfold unescaped, scalar; lia|]). constructor. }
  destruct (string_round_trip sample_strtod true [233; 119070; 65] ltac:(intros m size; done) Hcs eq_refl) as (w & s & Hw & Hs & Hz).
  vm_compute in Hw. injection Hw as _ <-. exists s. split; [exact Hs|exact Hz].
Defined.
