(* ===== verification/JsonDecode.v ===== *)
(** * ext/json/json.c: [json_decode]

    The function a script calls: the text is converted from UTF-8, parsed,
    and where the parser refuses it, read as a bare literal or number. *)

From S2P Require Import Prelude Dll ZendHash CLib ZendNumeric JsonUtf8 JsonParser.
Open Scope Z_scope.

(** The value returned, with the zvals it refers to; [JSON_G(error_code)]
    afterwards; whether the warning about the depth was raised. *)
Record decoded (D : Type) : Type := mkDecoded {
  return_value : zvalue D;
  store : list (zvalue D);
  json_error : Z;
  warned : bool
}.
Arguments mkDecoded {D}. Arguments return_value {D}. Arguments store {D}. Arguments json_error {D}. Arguments warned {D}.

Section Decode.
Context {D : Type} `{Allocator} (R : double_reader D).

Definition is_null (v : zvalue D) : bool := match v with ZNull => true | _ => false end.

(** [RETVAL_LONG(p)] or [RETVAL_DOUBLE(d)], for the number the string spells. *)
Definition number_retval (v : zvalue D) (r : numeric D) : res (zvalue D) :=
  if num_type r =? 0 then Ok v
  else if num_type r =? IS_LONG then
    match num_lval r with Some p => Ok (ZLong p) | None => Err DanglingPointer end
  else if num_type r =? IS_DOUBLE then
    match num_dval r with Some d => Ok (ZDouble d) | None => Err DanglingPointer end
  else Ok v.

(** The parser has refused [str], with [error_code]: the value and the error. *)
Definition not_a_text (str : list byte) (error_code : Z) : res (zvalue D * Z) :=
  let c := c_string str in
  let '(v, error_code) :=
    if Z.of_nat (length str) =? 4 then
      if same_caseless c (bs "null") then (ZNull, PHP_JSON_ERROR_NONE)
      else if same_caseless c (bs "true") then (ZBool true, error_code)
      else (ZNull, error_code)
    else if (Z.of_nat (length str) =? 5) && same_caseless c (bs "false") then (ZBool false, error_code)
    else (ZNull, error_code) in
  r ← is_numeric_string R str true true 0;
  v ← number_retval v r;
  Ok (v, if is_null v then error_code else PHP_JSON_ERROR_NONE).

(** [depth] is a [long]; the parser takes an [int]. *)
Definition php_json_decode (error_code0 : Z) (str : list byte) (assoc : bool) (depth : Z) : res (decoded D) :=
  let str_len := Z.of_nat (length str) in
  '(utf16_len, utf16) ← utf8_to_utf16 (str_len + 1) str str_len;
  if utf16_len <=? 0 then Ok (mkDecoded ZNull [] PHP_JSON_ERROR_UTF8 false)
  else if depth <=? 0 then Ok (mkDecoded ZNull [] error_code0 true)
  else
    jp0 ← new_JSON_parser (s32 depth);
    '(ok, s) ← parse_JSON (zend_strtod R) jp0 0%nat [ZNull] utf16 assoc;
    if (ok : bool) then
      match zvals s !! 0%nat with
      | Some z => Ok (mkDecoded z (zvals s) (error_code (jp s)) false)
      | None => Err DanglingPointer
      end
    else
      '(v, code) ← not_a_text str (error_code (jp s));
      Ok (mkDecoded v [] code false).

Definition json_decode (str : list byte) (assoc : bool) (depth : Z) : res (decoded D) :=
  if Z.of_nat (length str) =? 0 then Ok (mkDecoded ZNull [] 0 false)
  else php_json_decode 0 str assoc depth.
End Decode.
