(* ===== verification/JsonDecodeSpec.v ===== *)
(** * [json_decode]: what a refused text is read as

    A literal in any case, or a numeric string. *)

From S2P Require Import Prelude Dll ZendHash ZendHashNumeric CLib ZendNumeric ZendNumericSpec ZendNumericInt JsonUtf8 JsonUtf8Spec JsonParser JsonDecode.
Open Scope Z_scope.

Section Scalar.
Context {D : Type} (R : double_reader D).
Implicit Types (str : list byte) (v : zvalue D).

(** The scalar a string spells besides JSON's texts. *)
Inductive scalar_value str : zvalue D -> Prop :=
  | scalar_null : same_caseless str (bs "null") = true -> scalar_value str ZNull
  | scalar_true : same_caseless str (bs "true") = true -> scalar_value str (ZBool true)
  | scalar_false : same_caseless str (bs "false") = true -> scalar_value str (ZBool false)
  | scalar_long hex p : integer_text str hex p -> in_range p = true -> scalar_value str (ZLong p)
  | scalar_double r d : is_numeric_string R str true true 0 = Ok r -> num_type r = IS_DOUBLE -> num_dval r = Some d ->
      scalar_value str (ZDouble d).

(** A first character that begins no number. *)
Definition no_number (c : Z) : bool :=
  negb ((c =? 32) || ((9 <=? c) && (c <=? 13)) || (c =? 45) || (c =? 43) || is_digit c || (c =? 46)).
Lemma no_number_start c str lval dval allow : no_number (uc c) = true ->
  is_numeric_string R (c :: str) lval dval allow = Ok not_numeric.
Proof.
  unfold no_number. rewrite !negb_orb, !andb_true_iff, !negb_true_iff. intros (((((H1 & H2) & H3) & H4) & H5) & H6).
  unfold is_numeric_string. rewrite (proj2 (Z.eqb_neq _ 0)) by (cbn [length]; lia). cbv zeta.
  assert (Hs : skip_space (c :: str) = c :: str) by (cbn [skip_space]; unfold is_space; by rewrite H1, H2).
  rewrite Hs. unfold start_scan. assert (H0 : char_at (c :: str) 0 = Ok (uc c)) by done.
  rewrite (res_bind_ok _ _ _ H0), H3, H4. cbn [orb b2z]. by rewrite (res_bind_ok _ _ _ H0), H5, H6.
Qed.

(** A string that is [t] but for the case of its letters. *)
Lemma caseless_length a t : same_caseless a t = true -> length a = length t.
Proof. intros H%bool_decide_eq_true. by rewrite <- (length_fmap tolower a), H, length_fmap. Qed.
Lemma caseless_no_nul a t : forallb (fun c => negb (tolower c =? 0)) t = true -> same_caseless a t = true ->
  Forall (fun b => b <> NUL_byte) a.
Proof.
  intros Ht H%bool_decide_eq_true. apply Forall_forall. intros b Hb ->. rewrite forallb_forall in Ht.
  assert (Hin : tolower NUL_byte ∈ tolower <$> t) by (rewrite <- H; by apply list_elem_of_fmap_2).
  apply list_elem_of_fmap in Hin as (c & Hc & Hin). apply list_elem_of_In in Hin. specialize (Ht c Hin). by rewrite <- Hc in Ht.
Qed.
Lemma c_string_length s : length (c_string s) = length s -> c_string s = s.
Proof.
  induction s as [|c s IH]; [done|]. cbn. case_decide; cbn; [done|]. intros [= H']. by rewrite IH.
Qed.
(** The comparison stops at a NUL, which the length rules out. *)
Lemma c_string_caseless str t : forallb (fun c => negb (tolower c =? 0)) t = true -> length str = length t ->
  same_caseless (c_string str) t = same_caseless str t.
Proof.
  intros Ht Hl. destruct (same_caseless (c_string str) t) eqn:E.
  - by rewrite (c_string_length str) in E by (by rewrite (caseless_length _ _ E)).
  - destruct (same_caseless str t) eqn:E'; [|done].
    by rewrite (c_string_no_nul str), E' in E by by apply (caseless_no_nul _ t).
Qed.
(** No literal is a number. *)
Lemma caseless_no_number str c t lval dval allow : same_caseless str (c :: t) = true -> 97 <= tolower c <= 122 ->
  is_numeric_string R str lval dval allow = Ok not_numeric.
Proof.
  intros H%bool_decide_eq_true Hc. destruct str as [|b str]; [done|]. cbn in H. injection H as Hb _.
  apply no_number_start. unfold tolower in Hb at 1. unfold no_number, is_digit.
  destruct ((65 <=? uc b) && (uc b <=? 90)) eqn:E; lia.
Qed.

(** The answers of [is_numeric_string]. *)
Definition answer_shape (r : numeric D) : Prop :=
  num_type r = 0 \/ (num_type r = IS_LONG /\ exists p, num_lval r = Some p) \/ (num_type r = IS_DOUBLE /\ exists d, num_dval r = Some d).
Lemma finish_shape str len st r : finish_number R str len true true 0 st = Ok r -> answer_shape r.
Proof.
  unfold finish_number, answer_shape. destruct (_ && _); [by intros [= <-]; left|]. destruct (ntype st =? IS_LONG).
  - intros (big & _ & Hr)%res_bind_inv. injection Hr as <-. destruct big; right; [right|left]; split; try done; by eexists.
  - destruct (local_dval st) as [d|]; [|done]. intros [= <-]. right. right. split; [done|]. by exists d.
Qed.
Lemma numeric_shape str r : is_numeric_string R str true true 0 = Ok r -> answer_shape r.
Proof.
  unfold is_numeric_string. destruct (_ =? 0); [by intros [= <-]; left|]. cbv zeta.
  intros ([[l st]|] & _ & Hr)%res_bind_inv; [|by injection Hr as <-; left].
  apply res_bind_inv in Hr as (st' & _ & Hr). by eapply finish_shape.
Qed.

(** What the number makes of the value. *)
Lemma number_retval_run str v r : is_numeric_string R str true true 0 = Ok r -> exists v', number_retval v r = Ok v' /\
  ((v' <> ZNull /\ scalar_value str v') \/
   (v' = v /\ num_type r = 0 /\ (forall hex p, integer_text str hex p -> in_range p = false))).
Proof.
  intros Hr. destruct (numeric_integers R str) as (r' & Hr' & Hi & Hv). rewrite Hr in Hr'. injection Hr' as <-.
  unfold number_retval. destruct (numeric_shape str r Hr) as [Ht|[(Ht & p & Hp)|(Ht & d & Hd)]]; rewrite Ht.
  - exists v. split; [done|]. right. split; [done|]. split; [done|]. intros hex p Hp. specialize (Hv hex p Hp).
    destruct (in_range p); [|done]. by rewrite Hv in Ht.
  - exists (ZLong p). rewrite Hp. split; [done|]. left. split; [done|]. destruct (Hi Ht) as (hex & p' & Htext).
    specialize (Hv hex p' Htext). destruct (in_range p') eqn:Hin; [|by destruct Hv].
    rewrite Hv in Hp. injection Hp as <-. by apply (scalar_long str hex).
  - exists (ZDouble d). rewrite Hd. split; [done|]. left. split; [done|]. by apply (scalar_double str r).
Qed.

Lemma literal_answer str c t v code : same_caseless str (c :: t) = true -> 97 <= tolower c <= 122 ->
  (r ← is_numeric_string R str true true 0; v ← number_retval v r; Ok (v, if is_null v then code else PHP_JSON_ERROR_NONE)) =
  Ok (v, if is_null v then code else PHP_JSON_ERROR_NONE).
Proof. intros H Hc. by rewrite (res_bind_ok _ _ _ (caseless_no_number str c t true true 0 H Hc)). Qed.

Lemma not_a_text_run str code : exists v code', not_a_text R str code = Ok (v, code') /\
  ((scalar_value str v /\ code' = PHP_JSON_ERROR_NONE) \/ ((forall z, ~ scalar_value str z) /\ v = ZNull /\ code' = code)).
Proof.
  unfold not_a_text.
  assert (H4 : length str = 4%nat -> same_caseless (c_string str) (bs "null") = same_caseless str (bs "null") /\
    same_caseless (c_string str) (bs "true") = same_caseless str (bs "true")).
  { intros Hl. by rewrite !c_string_caseless by done. }
  assert (H5 : length str = 5%nat -> same_caseless (c_string str) (bs "false") = same_caseless str (bs "false")).
  { intros Hl. by rewrite c_string_caseless by done. }
  pose proof (caseless_length str (bs "null")) as L1. pose proof (caseless_length str (bs "true")) as L2.
  pose proof (caseless_length str (bs "false")) as L3. cbn [bs length] in L1, L2, L3.
  destruct (same_caseless str (bs "null")) eqn:E1.
  { specialize (L1 eq_refl). destruct (H4 L1) as [-> _]. rewrite L1. change (Z.of_nat 4 =? 4) with true.
    exists ZNull, PHP_JSON_ERROR_NONE. split; [|left; by split; [constructor|]].
    cbv beta iota. by apply (literal_answer str Byte.x6e (bs "ull") ZNull PHP_JSON_ERROR_NONE). }
  destruct (same_caseless str (bs "true")) eqn:E2.
  { specialize (L2 eq_refl). destruct (H4 L2) as [-> ->]. rewrite L2. change (Z.of_nat 4 =? 4) with true.
    exists (ZBool true), PHP_JSON_ERROR_NONE. split; [|left; by split; [constructor|]].
    cbv beta iota. by apply (literal_answer str Byte.x74 (bs "rue") (ZBool true) code). }
  destruct (same_caseless str (bs "false")) eqn:E3.
  { specialize (L3 eq_refl). rewrite (H5 L3), L3. change (Z.of_nat 5 =? 4) with false. change (Z.of_nat 5 =? 5) with true. cbn [andb].
    exists (ZBool false), PHP_JSON_ERROR_NONE. split; [|left; by split; [constructor|]].
    cbv beta iota. by apply (literal_answer str Byte.x66 (bs "alse") (ZBool false) code). }
  set (start := if Z.of_nat (length str) =? 4 then _ else _).
  assert (Hstart : start = (ZNull, code)).
  { unfold start. destruct (Z.eqb_spec (Z.of_nat (length str)) 4) as [E|E]; [by destruct (H4 ltac:(lia)) as [-> ->]|].
    destruct (Z.eqb_spec (Z.of_nat (length str)) 5) as [E'|E']; [by rewrite (H5 ltac:(lia))|done]. }
  rewrite Hstart. destruct (numeric_integers R str) as (r & Hr & Hi). rewrite (res_bind_ok _ _ _ Hr).
  destruct (number_retval_run str ZNull r Hr) as (v & Hv & Hcase). rewrite (res_bind_ok _ _ _ Hv).
  exists v, (if is_null v then code else PHP_JSON_ERROR_NONE). split; [done|].
  destruct Hcase as [[Hn Hs]|(-> & Ht & Hno)]; [left; split; [done|]; by destruct v|right].
  split; [|done]. intros z Hz. inversion Hz as [E|E|E|hex p Hp Hin|r' d Hr' Ht' _]; try congruence.
  - by rewrite (Hno hex p Hp) in Hin.
  - rewrite Hr in Hr'. injection Hr' as <-. by rewrite Ht in Ht'.
Qed.
End Scalar.
