(* ===== verification/JsonDecodeThms.v ===== *)
(** * Theorems about [json_decode]

    The conversion, the parser and the reading of bare scalars, together. *)

From S2P Require Import Prelude Dll ZendHash ZendHashInv ZendHashSteps ZendHashOps ZendHashIter ZendHashBulk ZendHashOrder ZendHashCursor ZendHashNumeric ZendHashRefine ZendHashClient CLib JsonUtf8 JsonUtf8Spec JsonParser JsonAutomaton JsonParserSpec JsonGrammar JsonLex JsonParserRun JsonSound JsonComplete JsonErrors JsonRun ZendNumeric ZendNumericSpec ZendNumericInt JsonDecode JsonDecodeSpec.
Open Scope Z_scope.

(** The value [json_decode] returns for a text that spells [v]. *)
Definition decoded_to {D : Type} (r : res (decoded D)) (v : php D) : Prop :=
  exists d, r = Ok d /\ json_error d = PHP_JSON_ERROR_NONE /\ warned d = false /\
    rep (store d) 0 (length (store d)) 0%nat v /\ store d !! 0%nat = Some (return_value d).

Lemma utf16_text_length cs : (length (utf16_text cs) <= length (utf8_text cs))%nat.
Proof.
  induction cs as [|c cs IH]; [done|]. cbn [utf16_text utf8_text mbind list_bind]. rewrite !length_app.
  pose proof (utf16_char_length c). unfold utf16_text, utf8_text in IH. lia.
Qed.
Lemma utf16_text_nonempty cs : cs <> [] -> utf16_text cs <> [].
Proof. destruct cs as [|c cs]; [done|]. intros _. cbn. unfold utf16_char. by case_match. Qed.
Lemma utf16_text_units cs : Forall scalar cs -> Forall unit16 (utf16_text cs).
Proof.
  induction 1 as [|c cs Hs _ IH]; [constructor|]. cbn [utf16_text mbind list_bind]. apply Forall_app. split; [|exact IH].
  unfold utf16_char, unit16. unfold scalar in Hs. destruct (Z.ltb_spec c 65536); repeat constructor;
    Z.to_euclidean_division_equations; lia.
Qed.
Lemma rep_root {D : Type} (zs : list (zvalue D)) lo hi z v : rep zs lo hi z v -> exists x, zs !! z = Some x.
Proof. intros Hr. destruct Hr; by eexists. Qed.

Lemma utf8_length_pos cs : cs <> [] -> (Z.of_nat (length (utf8_text cs)) =? 0) = false.
Proof.
  intros Hne. pose proof (utf16_text_length cs). pose proof (utf16_text_nonempty cs Hne).
  destruct (utf16_text cs); [done|]. cbn [length] in *. lia.
Qed.

(** The conversion of a text that is not empty. *)
Lemma text_converted cs : Forall scalar cs -> cs <> [] ->
  utf8_to_utf16 (Z.of_nat (length (utf8_text cs)) + 1) (utf8_text cs) (Z.of_nat (length (utf8_text cs))) =
    Ok (Z.of_nat (length (utf16_text cs)), utf16_text cs) /\ (Z.of_nat (length (utf16_text cs)) <=? 0) = false.
Proof.
  intros Hcs Hne.
  destruct (utf8_to_utf16_run (Z.of_nat (length (utf8_text cs)) + 1) (utf8_text cs) ltac:(lia)) as (r & w' & Hr & Hconv).
  destruct Hconv as [(cs' & Hcs' & He & Hw & ->)|[_ Hno]]; [|by destruct (Hno cs)].
  apply utf8_text_inj in He; [subst cs'|done|done]. cbn [app] in Hw. subst w'. split; [done|].
  pose proof (utf16_text_nonempty cs Hne). destruct (utf16_text cs); [done|]. apply Z.leb_gt. cbn [length]. lia.
Qed.

Section Decode.
Context {D : Type} `{Allocator} (Hp : plentiful zaddr) (R : double_reader D) (assoc : bool) (depth : Z).
Context (Hdepth : 0 < depth <= INT_MAX).

(** A text in UTF-8. *)
Lemma decode_text cs (str := utf8_text cs) (w := utf16_text cs) code0 : Forall scalar cs -> cs <> [] -> 1 + Z.of_nat (length str) < LONG_MAX ->
  php_json_decode R code0 str assoc depth =
    ('(ok, s) ← decode (zend_strtod R) assoc depth w;
     if (ok : bool) then
       match zvals s !! 0%nat with
       | Some z => Ok (mkDecoded z (zvals s) (error_code (jp s)) false)
       | None => Err DanglingPointer
       end
     else '(v, code) ← not_a_text R str (error_code (jp s)); Ok (mkDecoded v [] code false)).
Proof using Hdepth.
  intros Hcs Hne Hl. destruct (text_converted cs Hcs Hne) as [Hr Hpos].
  unfold php_json_decode. rewrite (res_bind_ok _ _ _ Hr). cbv beta iota. rewrite Hpos, (proj2 (Z.leb_gt depth 0)) by lia.
  rewrite s32_small by (unfold INT_MIN, INT_MAX in *; lia). unfold decode. by destruct (new_JSON_parser depth).
Qed.

Lemma text_decoded cs v : Forall scalar cs -> cs <> [] -> 1 + Z.of_nat (length (utf8_text cs)) < LONG_MAX ->
  text (zend_strtod R) assoc (levels depth) (utf16_text cs) v -> decoded_to (json_decode R (utf8_text cs) assoc depth) v.
Proof using Hp Hdepth.
  intros Hcs Hne Hl Ht. unfold json_decode. rewrite utf8_length_pos by done. rewrite (decode_text cs 0 Hcs Hne Hl).
  pose proof (utf16_text_length cs) as Hlen. pose proof (utf16_text_units cs Hcs) as Hunits.
  pose proof (decode_run Hp (zend_strtod R) assoc depth (utf16_text cs) ltac:(lia) Hunits ltac:(lia)) as Ha.
  rewrite (run_complete _ _ _ _ _ Ht) in Ha. destruct Ha as (s & Hs & He & Hrep).
  rewrite (res_bind_ok _ _ _ Hs). cbv beta iota. destruct (rep_root _ _ _ _ _ Hrep) as [x Hx]. rewrite Hx. by eexists.
Qed.
(** A string that is no JSON text, read as a scalar. *)
Lemma scalar_decoded cs code x code' : Forall scalar cs -> cs <> [] -> 1 + Z.of_nat (length (utf8_text cs)) < LONG_MAX ->
  run (zend_strtod R) assoc depth (utf16_text cs) = Refused code -> not_a_text R (utf8_text cs) code = Ok (x, code') ->
  json_decode R (utf8_text cs) assoc depth = Ok (mkDecoded x [] code' false).
Proof using Hp Hdepth.
  intros Hcs Hne Hl Hr Hx. unfold json_decode. rewrite utf8_length_pos by done. rewrite (decode_text cs 0 Hcs Hne Hl).
  pose proof (utf16_text_length cs) as Hlen. pose proof (utf16_text_units cs Hcs) as Hunits.
  pose proof (decode_run Hp (zend_strtod R) assoc depth (utf16_text cs) ltac:(lia) Hunits ltac:(lia)) as Ha.
  rewrite Hr in Ha. destruct Ha as (s & Hs & He). rewrite (res_bind_ok _ _ _ Hs). cbv beta iota. rewrite He.
  by rewrite (res_bind_ok _ _ _ Hx).
Qed.
End Decode.

(** C3: [json_decode] on a string in UTF-8, for every depth an [int] can
    hold.  A JSON text comes back as its value and no error.  Any other string
    is read as a scalar (null, true and false in any case, an integer in
    decimal or hexadecimal with white space and zeros before it, another
    number) and comes back without an error, or else as NULL with the parser's
    error code; the one other outcome, the request's end, needs objects that
    are not decoded to arrays.  A string that is not UTF-8 is NULL with its own
    error code, the empty string NULL without one, and a depth below 1 raises
    the warning. *)
Theorem json_decode_outcome {D : Type} `{Allocator} (R : double_reader D) (str : list byte) (assoc : bool) (depth : Z) :
  plentiful zaddr -> 1 + Z.of_nat (length str) < LONG_MAX -> depth <= INT_MAX ->
  (forall cs, Forall scalar cs -> cs <> [] -> str = utf8_text cs -> 0 < depth ->
     let texts v := text (zend_strtod R) assoc (levels depth) (utf16_text cs) v in
     (forall v, texts v -> decoded_to (json_decode R str assoc depth) v) /\
     ((forall v, ~ texts v) ->
        (json_decode R str assoc depth = Err Bailout /\ assoc = false) \/
        exists v code, json_decode R str assoc depth = Ok (mkDecoded v [] code false) /\
          ((scalar_value R str v /\ code = PHP_JSON_ERROR_NONE) \/
           ((forall z, ~ scalar_value R str z) /\ v = ZNull /\
            In code [PHP_JSON_ERROR_DEPTH; PHP_JSON_ERROR_STATE_MISMATCH; PHP_JSON_ERROR_CTRL_CHAR; PHP_JSON_ERROR_SYNTAX])))) /\
  ((forall cs, Forall scalar cs -> str <> utf8_text cs) ->
     json_decode R str assoc depth = Ok (mkDecoded ZNull [] PHP_JSON_ERROR_UTF8 false)) /\
  (str = [] -> json_decode R str assoc depth = Ok (mkDecoded ZNull [] PHP_JSON_ERROR_NONE false)) /\
  (forall cs, Forall scalar cs -> cs <> [] -> str = utf8_text cs -> depth <= 0 ->
     json_decode R str assoc depth = Ok (mkDecoded ZNull [] PHP_JSON_ERROR_NONE true)).
Proof.
  intros Hp Hl Hmax. split_and!.
  - intros cs Hcs Hne -> Hd texts. unfold json_decode. rewrite utf8_length_pos by done.
    pose proof (fun v => text_decoded Hp R assoc depth ltac:(lia) cs v Hcs Hne Hl) as Htext.
    unfold json_decode in Htext. rewrite utf8_length_pos in Htext by done.
    rewrite (decode_text R assoc depth ltac:(lia) cs 0 Hcs Hne Hl) in Htext |- *.
    pose proof (utf16_text_length cs) as Hlen. pose proof (utf16_text_units cs Hcs) as Hunits.
    destruct (decode_cases Hp (zend_strtod R) assoc depth (utf16_text cs) Hd Hunits ltac:(lia))
      as [(v & s & Ht & Hs & He & Hrep)|[Hno Hcase]].
    + split; [|by intros Hn; destruct (Hn v)]. exact Htext.
    + split; [intros v Hv; by destruct (Hno v)|]. intros _. destruct Hcase as [(s & Hs & Hcode)|[Hs Ha]].
      * right. rewrite (res_bind_ok _ _ _ Hs). cbv beta iota.
        destruct (not_a_text_run R (utf8_text cs) (error_code (jp s))) as (v & code & Hrun & Hv).
        rewrite (res_bind_ok _ _ _ Hrun). exists v, code. split; [done|].
        destruct Hv as [Hv|(Hn & Hv & Hc)]; [by left|right]. split; [done|]. split; [done|]. by rewrite Hc.
      * left. by rewrite Hs.
  - intros Hno. unfold json_decode. destruct (Z.eqb_spec (Z.of_nat (length str)) 0) as [E|E].
    { destruct str; [|done]. by destruct (Hno [] ltac:(constructor)). }
    unfold php_json_decode.
    destruct (utf8_to_utf16_run (Z.of_nat (length str) + 1) str ltac:(lia)) as (r & w' & Hr & Hconv).
    rewrite (res_bind_ok _ _ _ Hr). destruct Hconv as [(cs & Hcs & He & _)|[-> _]]; [by destruct (Hno cs)|done].
  - by intros ->.
  - intros cs Hcs Hne -> Hd. unfold json_decode. rewrite utf8_length_pos by done. unfold php_json_decode.
    destruct (text_converted cs Hcs Hne) as [Hr Hpos]. rewrite (res_bind_ok _ _ _ Hr). cbv beta iota.
    rewrite Hpos. by rewrite (proj2 (Z.leb_le depth 0)) by lia.
Qed.

(** A sample reader: doubles are the text they are read from. *)
Definition text_reader : double_reader (list byte) := {|
  zend_strtod := fun s => s; strtod_end := fun s => Z.of_nat (length s);
  zend_hex_strtod := fun s => s; hex_strtod_end := fun s => Z.of_nat (length s)
|}.
(** The bytes of an ASCII text are its characters. *)
Lemma ascii_text s : forallb (fun b => uc b <? 128) s = true -> Forall scalar (uc <$> s) /\ s = utf8_text (uc <$> s).
Proof.
  induction s as [|b s IH]; [by split; [constructor|]|]. cbn. intros [Hb Hs]%andb_true_iff.
  destruct (IH Hs) as [H1 H2]. pose proof (uc_range b). split; [constructor; [unfold scalar; lia|done]|].
  assert (Hc : utf8_char (uc b) = [b]) by (unfold utf8_char; rewrite Hb; cbn; by rewrite to_byte_uc).
  cbn [fmap list_fmap utf8_text mbind list_bind]. rewrite Hc. cbn [app]. by f_equal.
Qed.
Lemma json_decode_outcome_witness :
  json_decode text_reader (bs "0x1F") true 512 = Ok (mkDecoded (ZLong 31) [] PHP_JSON_ERROR_NONE false) /\
  json_decode text_reader [Byte.xff] true 512 = Ok (mkDecoded ZNull [] PHP_JSON_ERROR_UTF8 false).
Proof.
  assert (Hp : plentiful zaddr) by (intros m size; done).
  split.
  - destruct (json_decode_outcome text_reader (bs "0x1F") true 512 Hp eq_refl ltac:(done)) as [H _].
    destruct (ascii_text (bs "0x1F") eq_refl) as [Hs He].
    destruct (proj2 (H _ Hs ltac:(done) He eq_refl)) as [[_ Ha]|(v & code & Hr & Hv)]; [|done|].
    { intros v Hv%run_complete. vm_compute in Hv. discriminate Hv. }
    rewrite Hr. vm_compute in Hr. by injection Hr as <- <-.
  - apply (json_decode_outcome text_reader [Byte.xff] true 512 Hp eq_refl ltac:(done)).
    intros [|c cs] Hcs E; [done|]. apply Forall_cons in Hcs as [Hc _].
    destruct (utf8_char_cases c Hc) as [(Hlt & b & Hb & Hu)|[(_ & b0 & b1 & Hb & _)|[(_ & b0 & b1 & b2 & Hb & _)|(_ & b0 & b1 & b2 & b3 & Hb & _)]]];
      cbn in E; rewrite Hb in E; [|done..]. injection E as <- _. subst c. done.
Defined.

(** The [long] depth is cut to an [int]: with 2 ^ 32 the parser has no mode
    stack, and reads its first cell. *)
Example depth_truncated : json_decode text_reader ([Byte.x22] ++ bs "a" ++ [Byte.x22]) true 4294967296 = Err OutOfBounds.
Proof. vm_compute. reflexivity. Qed.
