(* ===== verification/JsonEncode.v ===== *)
(** * ext/json/json.c: [json_encode]

    The encoder walks a value depth first and appends its text to a
    [smart_str].  A store holds the zvals ([cells]) and the property tables of
    the objects, which zvals name by handle: arrays and property tables are
    the hash tables of ZendHash, whose elements are pointers to zvals, so a
    value may refer to itself.  Against that the encoder counts, in the
    table's [nApplyCount], how often it is within a table.

    Parameters: the conversions between strings and doubles (the records
    [double_reader] of ZendNumeric and [double_writer] here, whose
    [format_double] stands for [spprintf] with the format [%.*k] and the
    configured precision). *)

From S2P Require Import Prelude ZendNumeric Dll ZendHash CLib JsonUtf8 JsonParser.
Open Scope Z_scope.

(** ** php_json.h *)

Definition PHP_JSON_HEX_TAG : Z := 1.
Definition PHP_JSON_HEX_AMP : Z := 2.
Definition PHP_JSON_HEX_APOS : Z := 4.
Definition PHP_JSON_HEX_QUOT : Z := 8.
Definition PHP_JSON_FORCE_OBJECT : Z := 16.
Definition PHP_JSON_NUMERIC_CHECK : Z := 32.
Definition PHP_JSON_OUTPUT_ARRAY : Z := 0.
Definition PHP_JSON_OUTPUT_OBJECT : Z := 1.

(** ** Appending a number to a [smart_str] (php_smart_str.h)

    The digits are written backwards from the end of a buffer of 32 [char]s;
    [p] is an index into it. *)

Fixpoint print_digits (fuel : nat) (b : list byte) (p num : Z) : res (list byte * Z) :=
  match fuel with
  | O => Err OutOfFuel
  | S fuel' =>
      let p := p - 1 in
      b ← set_nth_cell b p (to_byte (num `mod` 10 + 48));
      let num := num / 10 in
      if 0 <? num then print_digits fuel' b p num else Ok (b, p)
  end.
(** [num] is an [unsigned long]: it has at most twenty digits. *)
Definition smart_str_print_unsigned4 (b : list byte) (buf num : Z) : res (list byte * Z) :=
  b ← set_nth_cell b buf NUL_byte;
  print_digits 20 b buf num.
(** [-(num)] is a [long], which is then converted to [unsigned long]. *)
Definition smart_str_print_long4 (b : list byte) (buf num : Z) : res (list byte * Z) :=
  if num <? 0 then
    '(b, p) ← smart_str_print_unsigned4 b buf (u64 (- num));
    b ← set_nth_cell b (p - 1) (to_byte 45);
    Ok (b, p - 1)
  else smart_str_print_unsigned4 b buf (u64 num).
Definition smart_str_append_long (dest : list byte) (num : Z) : res (list byte) :=
  '(b, t) ← smart_str_print_long4 (replicate 32 NUL_byte) 31 num;
  Ok (dest ++ take (Z.to_nat (31 - t)) (drop (Z.to_nat t) b)).

(** ** The values *)

Inductive zval (D : Type) : Type :=
  | VNull
  | VLong (n : Z)
  | VDouble (d : D)
  | VBool (b : bool)
  | VArray (t : table)
  | VObject (handle : nat)
  | VString (s : list byte)
  | VResource (n : Z).
Arguments VNull {D}. Arguments VLong {D}. Arguments VDouble {D}. Arguments VBool {D}.
Arguments VArray {D}. Arguments VObject {D}. Arguments VString {D}. Arguments VResource {D}.

Record heap (D : Type) : Type := mkHeap {
  cells : list (zval D);
  objects : list table         (* the property tables, by handle *)
}.
Arguments mkHeap {D}. Arguments cells {D}. Arguments objects {D}.

(** A [HashTable *]: the table of the array at an address, or that of an object. *)
Inductive table_ref : Type :=
  | OfCell (z : zaddr)
  | OfObject (handle : nat).
#[global] Instance table_ref_eq_dec : EqDecision table_ref.
Proof. solve_decision. Defined.

(** The messages of [php_error_docref]. *)
Inductive warning (D : Type) : Type :=
  | Recursion_detected
  | Invalid_UTF8
  | Not_conforming (d : D)
  | Unsupported_type.
Arguments Recursion_detected {D}. Arguments Invalid_UTF8 {D}.
Arguments Not_conforming {D}. Arguments Unsupported_type {D}.

(** The store, the bytes of the [smart_str], [JSON_G(error_code)] and the
    warnings raised. *)
Record estate (D : Type) : Type := mkEs {
  hp : heap D;
  out : list byte;
  json_error_code : Z;
  warnings : list (warning D)
}.
Arguments mkEs {D}. Arguments hp {D}. Arguments out {D}. Arguments json_error_code {D}. Arguments warnings {D}.

(** [spprintf] of a double; [zend_isinf] and [zend_isnan] both false. *)
Record double_writer (D : Type) : Type := {
  format_double : D -> list byte;
  is_finite : D -> bool
}.
Arguments format_double {D}. Arguments is_finite {D}.

Section Encode.
Context {D : Type} (R : double_reader D) (W : double_writer D) (display_errors : bool).
Notation E := (M (estate D)).
Implicit Types (s : estate D) (z : zaddr) (ref : table_ref) (options : Z).

Definition set_hp (f : heap D -> heap D) : E unit :=
  modify (fun s => mkEs (f (hp s)) (out s) (json_error_code s) (warnings s)).
Definition set_out (f : list byte -> list byte) : E unit :=
  modify (fun s => mkEs (hp s) (f (out s)) (json_error_code s) (warnings s)).
Definition set_json_error_code (c : Z) : E unit :=
  modify (fun s => mkEs (hp s) (out s) c (warnings s)).
Definition php_error_docref (w : warning D) : E unit :=
  modify (fun s => mkEs (hp s) (out s) (json_error_code s) (warnings s ++ [w])).
Definition smart_str_appendl (l : list byte) : E unit := set_out (fun b => b ++ l).
Definition appendc (c : Z) : E unit := set_out (fun b => smart_str_appendc b c).
Definition append_long (n : Z) : E unit :=
  s ← get_st;
  b ← reading (fun _ => smart_str_append_long (out s) n);
  set_out (fun _ => b).

Definition cell_at (h : heap D) z : res (zval D) :=
  match cells h !! z with Some v => Ok v | None => Err DanglingPointer end.
Definition HASH_OF (h : heap D) z : res (option table_ref) :=
  v ← cell_at h z;
  Ok (match v with VArray _ => Some (OfCell z) | VObject handle => Some (OfObject handle) | _ => None end).

(** [*ht], and the assignment to it. *)
Definition table_at (h : heap D) ref : res table :=
  match ref with
  | OfCell z => match cells h !! z with Some (VArray t) => Ok t | _ => Err DanglingPointer end
  | OfObject handle => match objects h !! handle with Some t => Ok t | None => Err DanglingPointer end
  end.
Definition set_table_at ref (t : table) (h : heap D) : heap D :=
  match ref with
  | OfCell z => mkHeap (<[z := VArray t]> (cells h)) (objects h)
  | OfObject handle => mkHeap (cells h) (<[handle := t]> (objects h))
  end.
(** [if (tmp_ht) tmp_ht->nApplyCount += i;], the count being an [unsigned char]. *)
Definition add_nApplyCount (tmp_ht : option table_ref) (i : Z) : E unit :=
  match tmp_ht with
  | None => mret tt
  | Some ref =>
      s ← get_st;
      t ← reading (fun _ => table_at (hp s) ref);
      set_hp (set_table_at ref (upd_ht (set_nApplyCount (u8 (nApplyCount (ht t) + i))) t))
  end.

(** ** Strings *)

Definition REVERSE16 (us : Z) : Z :=
  Z.lor (Z.lor (Z.lor (Z.shiftl (Z.land us 15) 12) (Z.shiftl (Z.land (Z.shiftr us 4) 15) 8))
    (Z.shiftl (Z.land (Z.shiftr us 8) 15) 4)) (Z.land (Z.shiftr us 12) 15).
Definition hex_digits : list byte := bs "0123456789abcdef".
Definition append_digit (us : Z) : E unit :=
  c ← reading (fun _ => nth_cell hex_digits (Z.land us 15));
  smart_str_appendl [c].
(** The default of the switch, for a unit that is no printable ASCII. *)
Definition append_unicode (us : Z) : E unit :=
  smart_str_appendl (bs "\u");;
  let us := REVERSE16 us in
  append_digit us;;
  let us := Z.shiftr us 4 in
  append_digit us;;
  let us := Z.shiftr us 4 in
  append_digit us;;
  let us := Z.shiftr us 4 in
  append_digit us.

(** One turn of the loop over the UTF-16 units. *)
Definition escape_unit (options us : Z) : E unit :=
  if us =? 34 then
    smart_str_appendl (if has_flag options PHP_JSON_HEX_QUOT then bs "\u0022" else [Byte.x5c; Byte.x22])
  else if us =? 92 then smart_str_appendl (bs "\\")
  else if us =? 47 then smart_str_appendl (bs "\/")
  else if us =? 8 then smart_str_appendl (bs "\b")
  else if us =? 12 then smart_str_appendl (bs "\f")
  else if us =? 10 then smart_str_appendl (bs "\n")
  else if us =? 13 then smart_str_appendl (bs "\r")
  else if us =? 9 then smart_str_appendl (bs "\t")
  else if us =? 60 then
    if has_flag options PHP_JSON_HEX_TAG then smart_str_appendl (bs "\u003C") else appendc 60
  else if us =? 62 then
    if has_flag options PHP_JSON_HEX_TAG then smart_str_appendl (bs "\u003E") else appendc 62
  else if us =? 38 then
    if has_flag options PHP_JSON_HEX_AMP then smart_str_appendl (bs "\u0026") else appendc 38
  else if us =? 39 then
    if has_flag options PHP_JSON_HEX_APOS then smart_str_appendl (bs "\u0027") else appendc 39
  else if (32 <=? us) && (Z.land us 127 =? us) then appendc us
  else append_unicode us.
Fixpoint escape_units (options : Z) (utf16 : list Z) : E unit :=
  match utf16 with
  | [] => mret tt
  | us :: rest => escape_unit options us;; escape_units options rest
  end.

Definition append_double (d : D) : E unit :=
  if is_finite W d then smart_str_appendl (format_double W d)
  else php_error_docref (Not_conforming d);; appendc 48.

(** Under PHP_JSON_NUMERIC_CHECK: whether the string was written as a number. *)
Definition append_numeric (str : list byte) : E bool :=
  r ← reading (fun _ => is_numeric_string R str true true 0);
  if num_type r =? 0 then mret false
  else
    (if num_type r =? IS_LONG then
       match num_lval r with Some p => append_long p | None => throw DanglingPointer end
     else if num_type r =? IS_DOUBLE then
       match num_dval r with Some d => append_double d | None => throw DanglingPointer end
     else mret tt);;
    mret true.

Definition two_quotes : list byte := [Byte.x22; Byte.x22].
Definition json_escape_string (str : list byte) (options : Z) : E unit :=
  let len := Z.of_nat (length str) in
  if len =? 0 then smart_str_appendl two_quotes
  else
    numeric ← (if has_flag options PHP_JSON_NUMERIC_CHECK then append_numeric str else mret false);
    if (numeric : bool) then mret tt
    else
      '(len, utf16) ← reading (fun _ => utf8_to_utf16 len str len);
      if len <=? 0 then
        if len <? 0 then
          set_json_error_code PHP_JSON_ERROR_UTF8;;
          (if negb display_errors then php_error_docref Invalid_UTF8 else mret tt);;
          smart_str_appendl (bs "null")
        else smart_str_appendl two_quotes
      else
        appendc 34;;
        escape_units options (take (Z.to_nat len) utf16);;
        appendc 34.

(** ** Arrays and objects *)

(** The loop of [json_determine_array_type]. *)
Fixpoint array_type_loop (fuel : nat) (myht : table) (pos : option ptr) (idx : Z) : res Z :=
  match fuel with
  | O => Err OutOfFuel
  | S fuel' =>
      '(i, _, index) ← zend_hash_get_current_key_ex false pos myht;
      if i =? HASH_KEY_NON_EXISTANT then Ok PHP_JSON_OUTPUT_ARRAY
      else if i =? HASH_KEY_IS_STRING then Ok 1
      else
        index ← (match index with Some h => Ok h | None => Err DanglingPointer end);
        if negb (index =? idx) then Ok 1
        else
          '(_, pos, _) ← zend_hash_move_forward_ex pos myht;
          array_type_loop fuel' myht pos (u64 (idx + 1))
  end.
Definition json_determine_array_type (h : heap D) z : res Z :=
  r ← HASH_OF h z;
  match r with
  | None => Ok PHP_JSON_OUTPUT_ARRAY
  | Some ref =>
      myht ← table_at h ref;
      if 0 <? zend_hash_num_elements myht then
        '(pos, _) ← zend_hash_internal_pointer_reset_ex (Some None) myht;
        array_type_loop (walk_fuel myht) myht pos 0
      else Ok PHP_JSON_OUTPUT_ARRAY
  end.

(** The comma before every member but the first. *)
Definition comma_if (need_comma : bool) : E unit := if need_comma then appendc 44 else mret tt.

Section Members.
Context (php_json_encode : zaddr -> E unit) (options r : Z) (is_object : bool) (ref : table_ref).

(** The body of the loop of [json_encode_array], for the element [data] with
    the key that was read: whether the next one needs a comma. *)
Definition encode_member (i : Z) (key : option (list byte * Z)) (index : option Z) (data : zaddr)
    (need_comma : bool) : E bool :=
  s ← get_st;
  tmp_ht ← reading (fun _ => HASH_OF (hp s) data);
  add_nApplyCount tmp_ht 1;;
  need_comma ←
    (if r =? PHP_JSON_OUTPUT_ARRAY then comma_if need_comma;; php_json_encode data;; mret true
     else if i =? HASH_KEY_IS_STRING then
       match key with
       | None => throw DanglingPointer
       | Some (key, key_len) =>
           c0 ← reading (fun _ => nth_cell key 0);
           if (uc c0 =? 0) && is_object then mret need_comma
           else
             comma_if need_comma;;
             json_escape_string (take (Z.to_nat (key_len - 1)) key) (Z.land options (Z.lnot PHP_JSON_NUMERIC_CHECK));;
             appendc 58;;
             php_json_encode data;;
             mret true
       end
     else
       match index with
       | None => throw DanglingPointer
       | Some index =>
           comma_if need_comma;;
           appendc 34;; append_long (s64 index);; appendc 34;; appendc 58;;
           php_json_encode data;;
           mret true
       end);
  add_nApplyCount tmp_ht (-1);;
  mret need_comma.

Fixpoint encode_members (fuel : nat) (pos : option ptr) (need_comma : bool) : E unit :=
  match fuel with
  | O => throw OutOfFuel
  | S fuel' =>
      s ← get_st;
      myht ← reading (fun _ => table_at (hp s) ref);
      '(i, key, index) ← reading (fun _ => zend_hash_get_current_key_ex false pos myht);
      if i =? HASH_KEY_NON_EXISTANT then mret tt
      else
        let '(found, data) := zend_hash_get_current_data_ex pos myht in
        need_comma ←
          (if found =? SUCCESS then
             b ← reading (fun _ => deref data myht);
             encode_member i key index (data_value (pData b)) need_comma
           else mret need_comma);
        s ← get_st;
        myht ← reading (fun _ => table_at (hp s) ref);
        '(_, pos, _) ← reading (fun _ => zend_hash_move_forward_ex pos myht);
        encode_members fuel' pos need_comma
  end.
End Members.

Definition json_encode_array (php_json_encode : zaddr -> E unit) (options : Z) z : E unit :=
  s ← get_st;
  v ← reading (fun _ => cell_at (hp s) z);
  let is_object := match v with VObject _ => true | _ => false end in
  myht ← reading (fun _ => HASH_OF (hp s) z);
  match myht with
  | None => throw NullDeref
  | Some ref =>
      r ← (if is_object then mret PHP_JSON_OUTPUT_OBJECT
           else if has_flag options PHP_JSON_FORCE_OBJECT then mret PHP_JSON_OUTPUT_OBJECT
           else reading (fun _ => json_determine_array_type (hp s) z));
      t ← reading (fun _ => table_at (hp s) ref);
      if 1 <? nApplyCount (ht t) then
        php_error_docref Recursion_detected;;
        smart_str_appendl (bs "null")
      else
        appendc (if r =? PHP_JSON_OUTPUT_ARRAY then 91 else 123);;
        (if 0 <? zend_hash_num_elements t then
           '(pos, _) ← reading (fun _ => zend_hash_internal_pointer_reset_ex (Some None) t);
           encode_members php_json_encode options r is_object ref (walk_fuel t) pos false
         else mret tt);;
        appendc (if r =? PHP_JSON_OUTPUT_ARRAY then 93 else 125)
  end.

(** [fuel] bounds the nesting of the calls. *)
Fixpoint php_json_encode (fuel : nat) (options : Z) z : E unit :=
  match fuel with
  | O => throw OutOfFuel
  | S fuel' =>
      s ← get_st;
      v ← reading (fun _ => cell_at (hp s) z);
      match v with
      | VNull => smart_str_appendl (bs "null")
      | VBool b => smart_str_appendl (if b then bs "true" else bs "false")
      | VLong n => append_long n
      | VDouble d => append_double d
      | VString str => json_escape_string str options
      | VArray _ | VObject _ => json_encode_array (php_json_encode fuel' options) options z
      | VResource _ => php_error_docref Unsupported_type;; smart_str_appendl (bs "null")
      end
  end.

(** Every table is entered at most once under a count of zero, and the
    outermost once more. *)
Definition encode_fuel (h : heap D) : nat := length (cells h) + length (objects h) + 3.

(** [options] is a [long], the encoder takes an [int]. *)
Definition json_encode (h : heap D) (parameter : zaddr) (options : Z) : res (estate D) :=
  '(_, s) ← php_json_encode (encode_fuel h) (s32 options) parameter (mkEs h [] PHP_JSON_ERROR_NONE []);
  Ok s.
Definition json_last_error (s : estate D) : Z := json_error_code s.
End Encode.
