(* ===== verification/JsonEncodeText.v ===== *)
(** * What the encoder appends: numbers and strings

    [runs h c a e h']: from a store [h] the computation [c] returns [a],
    leaves [h'] and has the effect [e]: the bytes it appends, the error code
    it sets, its warnings.  Effects compose as a monoid, whatever was written
    before. *)

From S2P Require Import Prelude ZendNumeric ZendNumericSpec ZendNumericInt Dll ZendHash ZendHashInv ZendHashNumeric ZendHashRefine CLib JsonUtf8 JsonUtf8Spec JsonParser JsonAutomaton JsonParserSpec JsonGrammar JsonLex JsonParserRun JsonThms JsonDecode JsonDecodeSpec JsonDecodeThms JsonEncode.
Open Scope Z_scope.

(** ** Decimal spellings *)

Lemma digit_of_num num : 0 <= num -> digit (to_byte (num mod 10 + 48)) = true /\ uc (to_byte (num mod 10 + 48)) = num mod 10 + 48.
Proof.
  intros Hn. pose proof (Z.mod_pos_bound num 10 ltac:(lia)).
  assert (Hu : uc (to_byte (num mod 10 + 48)) = num mod 10 + 48) by (rewrite uc_to_byte; lia).
  split; [|done]. unfold digit, is_digit. rewrite Hu. lia.
Qed.
Lemma canonical_snoc ds c : canonical ds = true -> 1 <= dec_value ds -> digit c = true -> canonical (ds ++ [c]) = true.
Proof.
  destruct ds as [|b ds]; [done|]. unfold canonical. cbn [app]. intros [Hd Hz]%andb_true_iff Hv Hc.
  apply andb_true_iff. split; [by rewrite app_comm_cons, forallb_app, Hd; cbn [forallb]; rewrite Hc|].
  apply orb_true_iff in Hz as [Hz%bool_decide_eq_true|Hz%bool_decide_eq_true].
  - by rewrite bool_decide_true.
  - subst ds. rewrite bool_decide_true; [done|]. intros ->. cbn in Hv. lia.
Qed.

Lemma print_digits_run fuel : forall b (p : nat) num, (fuel <= p <= length b)%nat -> 0 <= num < 10 ^ Z.of_nat fuel -> (0 < fuel)%nat ->
  exists ds, print_digits fuel b (Z.of_nat p) num =
      Ok (take (p - length ds) b ++ ds ++ drop p b, Z.of_nat (p - length ds)) /\
    canonical ds = true /\ dec_value ds = num /\ (1 <= length ds <= fuel)%nat.
Proof.
  induction fuel as [|fuel IH]; intros b p num Hp Hn Hf; [lia|].
  destruct (digit_of_num num ltac:(lia)) as [Hd Hu]. set (c := to_byte (num mod 10 + 48)) in *.
  cbn [print_digits]. replace (Z.of_nat p - 1) with (Z.of_nat (p - 1)) by lia. cbv zeta.
  assert (Hset : set_nth_cell b (Z.of_nat (p - 1)) c = Ok (<[(p - 1)%nat := c]> b)).
  { unfold set_nth_cell. rewrite (proj2 (Z.ltb_ge _ _)), (proj2 (Z.leb_gt _ _)), Nat2Z.id by lia. done. }
  rewrite (res_bind_ok _ _ _ Hset).
  assert (Hb' : <[(p - 1)%nat := c]> b = take (p - 1) b ++ c :: drop p b).
  { rewrite insert_take_drop by lia. do 3 f_equal. lia. }
  assert (Hlt : (length (take (p - 1) b) = p - 1)%nat) by (rewrite length_take; lia).
  destruct (Z.ltb_spec 0 (num / 10)) as [Hmore|Hlast].
  - assert (fuel <> 0%nat). { intros ->. change (10 ^ Z.of_nat 1) with 10 in Hn. rewrite Z.div_small in Hmore; lia. }
    destruct (IH (<[(p - 1)%nat := c]> b) (p - 1)%nat (num / 10)) as (ds & Hr & Hcan & Hv & Hl);
      [rewrite length_insert; lia| |lia|].
    { rewrite Nat2Z.inj_succ, Z.pow_succ_r in Hn by lia. split; [lia|]. apply Z.div_lt_upper_bound; lia. }
    exists (ds ++ [c]). rewrite Hr. split_and!.
    + rewrite length_app. cbn [length]. do 2 f_equal; [|lia]. rewrite Hb', take_app_le by lia. rewrite take_take.
      replace (p - 1 - length ds)%nat with (p - (length ds + 1))%nat by lia. rewrite Nat.min_l by lia.
      rewrite drop_app_ge by lia. rewrite Hlt, Nat.sub_diag. cbn [drop]. by rewrite <- app_assoc.
    + apply canonical_snoc; [done|lia|done].
    + unfold dec_value in *. rewrite dec_from_app, Hv. cbn [dec_from fold_left]. rewrite Hu. Z.to_euclidean_division_equations. lia.
    + rewrite length_app. cbn [length]. lia.
    + rewrite length_app. cbn [length]. lia.
  - exists [c]. rewrite Hb'. assert (num < 10) by (Z.to_euclidean_division_equations; lia).
    split; [done|]. split; [|split; [|cbn [length]; lia]].
    + unfold canonical. cbn [forallb]. rewrite Hd. by rewrite (bool_decide_true ([] = [])), orb_true_r.
    + unfold dec_value. cbn [dec_from fold_left]. rewrite Hu, Z.mod_small; lia.
Qed.

Definition long_range (n : Z) : Prop := LONG_MIN <= n <= LONG_MAX.

(** A sign and digits that spell the number, within the buffer. *)
Lemma append_long_spells n : long_range n -> exists neg ds, canonical ds = true /\ n = signed neg (dec_value ds) /\
  (neg = true -> ds <> [ZERO]) /\
  forall dest, smart_str_append_long dest n = Ok (dest ++ sign_bytes neg ++ ds).
Proof.
  intros Hn. unfold long_range, LONG_MIN, LONG_MAX in Hn.
  set (b0 := replicate 32 NUL_byte).
  destruct (print_digits_run 20 (<[31%nat := NUL_byte]> b0) 31 (Z.abs n)) as (ds & Hr & Hcan & Hv & Hl);
    [rewrite length_insert; unfold b0; rewrite length_replicate; lia|lia|lia|].
  assert (Hlen : length b0 = 32%nat) by (unfold b0; by rewrite length_replicate).
  set (b := take (31 - length ds) (<[31%nat := NUL_byte]> b0) ++ ds ++ drop 31 (<[31%nat := NUL_byte]> b0)) in *.
  assert (Hu : smart_str_print_unsigned4 b0 31 (Z.abs n) = Ok (b, Z.of_nat (31 - length ds))) by exact Hr.
  assert (Hlt : length (take (31 - length ds) (<[31%nat := NUL_byte]> b0)) = (31 - length ds)%nat)
    by (rewrite length_take, length_insert; lia).
  assert (Hcut : forall x : byte, take (length ds) (drop (31 - length ds) b) = ds /\
    take (S (length ds)) (drop (30 - length ds) (<[(30 - length ds)%nat := x]> b)) = x :: ds).
  { intros x. unfold b. split.
    - rewrite drop_app_ge by lia. rewrite Hlt, Nat.sub_diag, drop_0. by rewrite take_app_length.
    - rewrite insert_take_drop by (rewrite !length_app; lia).
      rewrite drop_app_ge by (rewrite length_take, !length_app; lia). rewrite length_take, !length_app.
      rewrite Nat.min_l by lia. rewrite Nat.sub_diag, drop_0, firstn_cons. f_equal.
      replace (S (30 - length ds)) with (31 - length ds)%nat by lia. rewrite drop_app_ge by lia.
      rewrite Hlt, Nat.sub_diag, drop_0. by rewrite take_app_length. }
  exists (n <? 0), ds. split_and!; [done| | |].
  - rewrite Hv. destruct (Z.ltb_spec n 0); cbn [signed]; lia.
  - intros Hneg%Z.ltb_lt ->. cbn in Hv. lia.
  - intros dest. unfold smart_str_append_long, smart_str_print_long4. fold b0. destruct (Z.ltb_spec n 0).
    + rewrite u64_small by lia. replace (- n) with (Z.abs n) by lia. rewrite (res_bind_ok _ _ _ Hu). cbv beta iota.
      assert (Hset : set_nth_cell b (Z.of_nat (31 - length ds) - 1) (to_byte 45) =
        Ok (<[(30 - length ds)%nat := to_byte 45]> b)).
      { unfold set_nth_cell, b. rewrite !length_app.
        rewrite (proj2 (Z.ltb_ge _ _)), (proj2 (Z.leb_gt _ _)) by lia. cbn [orb]. do 2 f_equal. lia. }
      rewrite (res_bind_ok _ _ _ Hset). cbv beta iota. unfold mbind, res_bind.
      replace (Z.to_nat (31 - (Z.of_nat (31 - length ds) - 1))) with (S (length ds)) by lia.
      replace (Z.to_nat (Z.of_nat (31 - length ds) - 1)) with (30 - length ds)%nat by lia.
      by rewrite (proj2 (Hcut _)).
    + rewrite u64_small by lia. replace n with (Z.abs n) by lia. rewrite (res_bind_ok _ _ _ Hu). cbv beta iota.
      replace (Z.to_nat (31 - Z.of_nat (31 - length ds))) with (length ds) by lia. rewrite Nat2Z.id.
      by rewrite (proj1 (Hcut NUL_byte)).
Qed.

(** ** Bytes as UTF-16 units *)

Lemma ascii_units l : ascii (units l) = l.
Proof. unfold ascii, units. rewrite <- list_fmap_compose. rewrite <- (list_fmap_id l) at 2. apply list_fmap_ext. intros _ b _. apply to_byte_uc. Qed.
Lemma units_app l l' : units (l ++ l') = units l ++ units l'.
Proof. apply fmap_app. Qed.
Lemma units_digits ds : forallb digit ds = true -> digits (units ds).
Proof.
  intros Hd. apply Forall_fmap, Forall_forall. intros c Hc. rewrite forallb_forall in Hd. cbn.
  apply digit_range, Hd. by apply list_elem_of_In.
Qed.
Lemma canonical_integer ds : canonical ds = true -> integer (units ds).
Proof.
  destruct ds as [|c ds]; [done|]. unfold canonical. intros [Hd Hz]%andb_true_iff. pose proof Hd as Hall.
  cbn [forallb] in Hd. apply andb_true_iff in Hd as [Hc%digit_range Hd]. cbn [units fmap list_fmap].
  apply orb_true_iff in Hz as [Hz%bool_decide_eq_true|Hz%bool_decide_eq_true].
  - constructor; [|by apply units_digits]. destruct (decide (uc c = 48)) as [E|]; [|lia]. destruct Hz. by apply uc_inj.
  - subst ds. destruct (decide (uc c = 48)) as [->|]; [constructor|]. constructor; [lia|constructor].
Qed.

Section Numbers.
Context {D : Type} (zend_strtod : list byte -> D).
(** The spelling of a [long] is a number of JSON. *)
Lemma spelling_number neg ds n : canonical ds = true -> n = signed neg (dec_value ds) -> long_range n ->
  number zend_strtod (units (sign_bytes neg ++ ds)) (PLong n).
Proof.
  intros Hcan -> Hr. assert (Hs : sign (units (sign_bytes neg))) by (destruct neg; constructor).
  pose proof (canonical_integer ds Hcan) as Hi.
  pose proof (number_intro zend_strtod _ _ [] [] Hs Hi fraction_none exponent_none) as Hn.
  rewrite !app_nil_r, bool_decide_true, <- units_app in Hn by done.
  assert (Hv : integer_value (units (sign_bytes neg ++ ds)) = signed neg (dec_value ds)).
  { rewrite units_app. destruct (integer_value_signed _ _ Hs Hi) as (minus & Hm & Hv). rewrite Hv, ascii_units.
    rewrite ascii_units in Hm. by destruct neg, minus. }
  unfold number_value in Hn. rewrite Hv in Hn. unfold long_range in Hr.
  rewrite (proj2 (Z.leb_le _ _)), (proj2 (Z.leb_le _ _)) in Hn by lia. exact Hn.
Qed.
End Numbers.

(** An ASCII string that needs no escape, as the inside of a JSON string. *)
Lemma ascii_chars l : Forall (fun b => 32 <= uc b < 128 /\ uc b <> 34 /\ uc b <> 92) l -> chars (units l) l.
Proof.
  induction l as [|b l IH] using rev_ind; [constructor|]. intros [Hl Hb]%Forall_app. apply Forall_cons in Hb as [Hb _].
  rewrite units_app. cbn [units fmap list_fmap].
  assert (Hu : utf16_to_utf8 l (uc b) = l ++ [b]) by (rewrite utf16_ascii by lia; by rewrite to_byte_uc).
  rewrite <- Hu. constructor; [by apply IH|]. unfold plain. lia.
Qed.
(** The key that the spelling of an index is read as. *)
Lemma spelling_chars neg ds : canonical ds = true -> chars (units (sign_bytes neg ++ ds)) (sign_bytes neg ++ ds).
Proof.
  intros Hc. apply ascii_chars. apply Forall_app. split; [destruct neg; [apply Forall_singleton; change (uc MINUS) with 45; lia|constructor]|].
  destruct ds as [|c ds]; [done|]. unfold canonical in Hc. apply andb_true_iff in Hc as [Hd _].
  apply Forall_forall. intros b Hb. rewrite forallb_forall in Hd. apply list_elem_of_In, Hd, digit_range in Hb. lia.
Qed.
Lemma spelling_key neg ds n : canonical ds = true -> n = signed neg (dec_value ds) -> (neg = true -> ds <> [ZERO]) ->
  long_range n -> sym_key ((sign_bytes neg ++ ds) ++ [NUL]) = KInt (u64 n).
Proof.
  intros Hc Hv Hz Hr. unfold sym_key.
  destruct (handle_numeric_spec ((sign_bytes neg ++ ds) ++ [NUL])) as (r & Hn & Hs); [by rewrite last_snoc|].
  rewrite Hn. assert (r = Some (u64 n)) as ->; [|done]. apply Hs. exists n. split; [|by split].
  subst n. destruct neg; cbn [sign_bytes app signed].
  - rewrite app_comm_cons. constructor; [done|by apply Hz].
  - by constructor.
Qed.

(** ** Characters *)

(** What a unit is written as. *)
Inductive written (us : Z) : list Z -> Prop :=
  | written_plain : plain us -> us < 128 -> written us [us]
  | written_escape c : escape c = Some us -> us < 128 -> written us [92; c]
  | written_unicode h1 h2 h3 h4 : hex_digit h1 -> hex_digit h2 -> hex_digit h3 -> hex_digit h4 ->
      hex_unit h1 h2 h3 h4 = us -> written us [92; 117; h1; h2; h3; h4].
Lemma written_chars us l w b : written us l -> chars w b -> chars (w ++ l) (utf16_to_utf8 b us).
Proof.
  intros [Hp Hlt|c He Hlt|h1 h2 h3 h4 H1 H2 H3 H4 <-] Hc; [by constructor| |by constructor].
  rewrite utf16_ascii by done. by constructor.
Qed.

(** Seven-bit characters. *)
Definition ascii_only (l : list byte) : Prop := Forall (fun b => uc b < 128) l.
Lemma ascii_only_units l : ascii_only l <-> Forall (fun c => c < 128) (units l).
Proof. unfold ascii_only, units. by rewrite Forall_fmap. Qed.
Lemma written_ascii us l : written us (units l) -> ascii_only l.
Proof.
  intros Hw. apply ascii_only_units. destruct Hw as [Hp Hlt|c He Hlt|h1 h2 h3 h4 H1 H2 H3 H4 _].
  - by constructor.
  - repeat constructor. unfold escape in He. repeat case_match; try done; lia.
  - unfold hex_digit in *. repeat (constructor; [lia|]). constructor.
Qed.

(** The digits that [REVERSE16] brings into order. *)
Definition hex_of (us : Z) : list byte :=
  let r := REVERSE16 us in
  let d n := default NUL_byte (hex_digits !! Z.to_nat (Z.land (Z.shiftr r n) 15)) in
  [d 0; d 4; d 8; d 12].
Definition hex_digitb (c : Z) : bool := ((48 <=? c) && (c <=? 57)) || ((65 <=? c) && (c <=? 70)) || ((97 <=? c) && (c <=? 102)).
Definition hex_right (us : Z) : bool :=
  match units (hex_of us) with
  | [h1; h2; h3; h4] => hex_digitb h1 && hex_digitb h2 && hex_digitb h3 && hex_digitb h4 && (hex_unit h1 h2 h3 h4 =? us)
  | _ => false
  end.
Fixpoint all_from (n : nat) (z : Z) (P : Z -> bool) : bool :=
  match n with O => true | S n' => P z && all_from n' (z + 1) P end.
Lemma all_from_spec n : forall z P, all_from n z P = true -> forall x, z <= x < z + Z.of_nat n -> P x = true.
Proof.
  induction n as [|n IH]; intros z P Ha x Hx; [lia|]. cbn in Ha. apply andb_true_iff in Ha as [H1 H2].
  destruct (decide (x = z)) as [->|]; [done|]. apply (IH _ _ H2). lia.
Qed.
Lemma hex_right_all us : 0 <= us < 65536 -> hex_right us = true.
Proof. intros Hus. apply (all_from_spec (Z.to_nat 65536) 0 hex_right); [vm_compute; reflexivity|lia]. Qed.

(** ** Effects *)

Record effect (D : Type) : Type := Effect {
  e_text : list byte;
  e_error : option Z;
  e_warnings : list (warning D)
}.
Arguments Effect {D}. Arguments e_text {D}. Arguments e_error {D}. Arguments e_warnings {D}.

Section Effects.
Context {D : Type}.
Implicit Types (e : effect D) (h : heap D) (s : estate D).

Definition no_effect : effect D := Effect [] None [].
Definition text_effect (l : list byte) : effect D := Effect l None [].
Definition eff_app e1 e2 : effect D :=
  Effect (e_text e1 ++ e_text e2)
    (match e_error e2 with Some c => Some c | None => e_error e1 end) (e_warnings e1 ++ e_warnings e2).
(** Nothing but text. *)
Definition clean e : Prop := e_error e = None /\ e_warnings e = [].
Definition after h e s : estate D :=
  mkEs h (out s ++ e_text e) (default (json_error_code s) (e_error e)) (warnings s ++ e_warnings e).
Definition runs {A} h (c : M (estate D) A) (a : A) e h' : Prop :=
  forall s, hp s = h -> c s = Ok (a, after h' e s).

Lemma clean_app e1 e2 : clean e1 -> clean e2 -> clean (eff_app e1 e2).
Proof. intros [H1 H2] [H3 H4]. split; cbn; [by rewrite H3|by rewrite H2, H4]. Qed.
Lemma clean_text l : clean (text_effect l).
Proof. done. Qed.

Lemma eff_app_none e : eff_app no_effect e = e.
Proof. destruct e as [t [c|] w]; done. Qed.
Lemma eff_app_assoc e1 e2 e3 : eff_app e1 (eff_app e2 e3) = eff_app (eff_app e1 e2) e3.
Proof. unfold eff_app. cbn. f_equal; [by rewrite app_assoc| |by rewrite app_assoc]. by destruct (e_error e3). Qed.
Lemma after_app h h' e1 e2 s : after h' e2 (after h e1 s) = after h' (eff_app e1 e2) s.
Proof. unfold after, eff_app. cbn. f_equal; [by rewrite app_assoc| |by rewrite app_assoc]. by destruct (e_error e2). Qed.

Lemma runs_bind {A B} h (c : M (estate D) A) (k : A -> M (estate D) B) a e1 h1 b e2 h2 :
  runs h c a e1 h1 -> runs h1 (k a) b e2 h2 -> runs h (c ≫= k) b (eff_app e1 e2) h2.
Proof.
  intros Hc Hk s Hs. rewrite (mbind_ok _ _ _ _ _ (Hc s Hs)). rewrite (Hk (after h1 e1 s) eq_refl). by rewrite after_app.
Qed.
Lemma runs_ret {A} h (a : A) : runs h (mret a) a no_effect h.
Proof. intros [] <-. unfold after. cbn. by rewrite !app_nil_r. Qed.
Lemma runs_text {A B} h (c : M (estate D) A) (k : A -> M (estate D) B) a l1 h1 b l2 h2 :
  runs h c a (text_effect l1) h1 -> runs h1 (k a) b (text_effect l2) h2 -> runs h (c ≫= k) b (text_effect (l1 ++ l2)) h2.
Proof. apply runs_bind. Qed.
(** Reading the store. *)
Lemma runs_get {A} h (k : estate D -> M (estate D) A) a e h' :
  (forall s, hp s = h -> runs h (k s) a e h') -> runs h (get_st ≫= k) a e h'.
Proof. intros Hk s Hs. rewrite mbind_get. by apply Hk. Qed.
Lemma runs_reading {A B} h (r : res B) (b : B) (k : B -> M (estate D) A) a e h' :
  r = Ok b -> runs h (k b) a e h' -> runs h (reading (fun _ => r) ≫= k) a e h'.
Proof. intros Hr Hk s Hs. rewrite (mbind_reading (fun _ => r) _ _ b) by done. by apply Hk. Qed.
(** Steps without an effect on one side. *)
Lemma runs_then {A B} h (c : M (estate D) A) (k : A -> M (estate D) B) a h1 b e h2 :
  runs h c a no_effect h1 -> runs h1 (k a) b e h2 -> runs h (c ≫= k) b e h2.
Proof. intros Hc Hk. rewrite <- (eff_app_none e). by eapply runs_bind. Qed.

Lemma runs_appendl h l : runs h (smart_str_appendl l) tt (text_effect l) h.
Proof. intros s <-. unfold after. cbn. by rewrite app_nil_r. Qed.
Lemma runs_appendc h c : runs h (appendc c) tt (text_effect [to_byte c]) h.
Proof. intros s <-. unfold after. cbn. by rewrite app_nil_r. Qed.
Lemma runs_error_code h c : runs h (set_json_error_code c) tt (Effect [] (Some c) []) h.
Proof. intros s <-. unfold after. cbn. by rewrite !app_nil_r. Qed.
Lemma runs_warning h w : runs h (php_error_docref w) tt (Effect [] None [w]) h.
Proof. intros s <-. unfold after. cbn. by rewrite app_nil_r. Qed.
Lemma runs_comma h (c : bool) : runs h (comma_if c) tt (text_effect (if c then [Byte.x2c] else [])) h.
Proof. destruct c; [apply (runs_appendc h 44)|apply runs_ret]. Qed.

(** ** Numbers *)

(** The decimal spelling of a [long], with the value of each of its parts. *)
Definition spelling (l : list byte) (n : Z) : Prop :=
  exists neg ds, l = sign_bytes neg ++ ds /\ canonical ds = true /\ n = signed neg (dec_value ds) /\ (neg = true -> ds <> [ZERO]).
Lemma append_long_run n : long_range n -> exists l, spelling l n /\ forall h, runs h (append_long n) tt (text_effect l) h.
Proof.
  intros Hn. destruct (append_long_spells n Hn) as (neg & ds & Hc & Hv & Hz & Hr). exists (sign_bytes neg ++ ds).
  split; [by exists neg, ds|]. intros h s <-. unfold append_long. rewrite mbind_get.
  rewrite (mbind_reading (fun _ => smart_str_append_long (out s) n) _ s _ (Hr _)). unfold after. cbn. by rewrite app_nil_r.
Qed.

End Effects.

(** ** Strings *)

Section Strings.
Context {D : Type} (R : double_reader D) (W : double_writer D) (display_errors : bool).
Implicit Types (e : effect D) (h : heap D) (options : Z).

Lemma append_digit_run h us :
  runs h (append_digit us) tt (text_effect [default NUL_byte (hex_digits !! Z.to_nat (Z.land us 15))]) h.
Proof.
  assert (Hr : 0 <= Z.land us 15 < 16) by (change 15 with (Z.ones 4); rewrite Z.land_ones by lia; apply Z.mod_pos_bound; lia).
  destruct (lookup_lt_is_Some_2 hex_digits (Z.to_nat (Z.land us 15))) as [c Hc]; [change (length hex_digits) with 16%nat; lia|].
  unfold append_digit. eapply runs_reading; [|rewrite Hc; apply runs_appendl].
  unfold nth_cell. rewrite (proj2 (Z.ltb_ge _ _)) by lia. by rewrite Hc.
Qed.
Lemma append_unicode_run h us : runs h (append_unicode us) tt (text_effect (bs "\u" ++ hex_of us)) h.
Proof.
  unfold append_unicode. cbv zeta. eapply runs_text; [apply runs_appendl|].
  assert (Hs : hex_of us = [default NUL_byte (hex_digits !! Z.to_nat (Z.land (REVERSE16 us) 15))] ++
    [default NUL_byte (hex_digits !! Z.to_nat (Z.land (Z.shiftr (REVERSE16 us) 4) 15))] ++
    [default NUL_byte (hex_digits !! Z.to_nat (Z.land (Z.shiftr (Z.shiftr (REVERSE16 us) 4) 4) 15))] ++
    [default NUL_byte (hex_digits !! Z.to_nat (Z.land (Z.shiftr (Z.shiftr (Z.shiftr (REVERSE16 us) 4) 4) 4) 15))]).
  { unfold hex_of. rewrite !Z.shiftr_shiftr by lia. rewrite Z.shiftr_0_r. done. }
  rewrite Hs. clear Hs. do 3 (eapply runs_text; [apply append_digit_run|]). apply append_digit_run.
Qed.

(** One unit is written as itself, as an escape, or by its number. *)
Lemma hex_written us : 0 <= us < 65536 -> written us (units (bs "\u" ++ hex_of us)).
Proof.
  intros Hus. pose proof (hex_right_all us Hus) as Hr. unfold hex_right in Hr.
  rewrite units_app. destruct (units (hex_of us)) as [|h1 [|h2 [|h3 [|h4 [|]]]]]; try done.
  rewrite !andb_true_iff in Hr. destruct Hr as ((((H1 & H2) & H3) & H4) & H5).
  apply written_unicode; [unfold hex_digit, hex_digitb in *; lia..|lia].
Qed.
Lemma escape_unit_run h options us : 0 <= us < 65536 ->
  exists l, runs h (escape_unit options us) tt (text_effect l) h /\ written us (units l).
Proof.
  intros Hus. unfold escape_unit.
  assert (Hesc : forall c l, escape c = Some us -> us < 128 -> units l = [92; c] ->
    exists l', runs h (smart_str_appendl (D := D) l) tt (text_effect l') h /\ written us (units l')).
  { intros c l He Hlt Hl. exists l. split; [apply runs_appendl|]. rewrite Hl. by constructor. }
  assert (Hhex : forall l x1 x2 x3 x4, units l = [92; 117; x1; x2; x3; x4] -> hex_digit x1 -> hex_digit x2 -> hex_digit x3 ->
    hex_digit x4 -> hex_unit x1 x2 x3 x4 = us ->
    exists l', runs h (smart_str_appendl (D := D) l) tt (text_effect l') h /\ written us (units l')).
  { intros l x1 x2 x3 x4 Hl H1 H2 H3 H4 He. exists l. split; [apply runs_appendl|]. rewrite Hl. by constructor. }
  assert (Hplain : forall c, c = us -> plain us -> us < 128 ->
    exists l', runs h (appendc (D := D) c) tt (text_effect l') h /\ written us (units l')).
  { intros c -> Hp Hlt. exists [to_byte us]. split; [apply runs_appendc|]. cbn [units fmap list_fmap].
    rewrite uc_to_byte by lia. by constructor. }
  destruct (Z.eqb_spec us 34) as [->|N1].
  { destruct (has_flag _ _); [by apply (Hhex _ 48 48 50 50); unfold hex_digit; try lia|by apply (Hesc 34)]. }
  destruct (Z.eqb_spec us 92) as [->|N2]; [by apply (Hesc 92)|].
  destruct (Z.eqb_spec us 47) as [->|N3]; [by apply (Hesc 47)|].
  destruct (Z.eqb_spec us 8) as [->|N4]; [by apply (Hesc 98)|].
  destruct (Z.eqb_spec us 12) as [->|N5]; [by apply (Hesc 102)|].
  destruct (Z.eqb_spec us 10) as [->|N6]; [by apply (Hesc 110)|].
  destruct (Z.eqb_spec us 13) as [->|N7]; [by apply (Hesc 114)|].
  destruct (Z.eqb_spec us 9) as [->|N8]; [by apply (Hesc 116)|].
  destruct (Z.eqb_spec us 60) as [->|N9].
  { destruct (has_flag _ _); [by apply (Hhex _ 48 48 51 67); unfold hex_digit; try lia|apply Hplain; unfold plain; lia]. }
  destruct (Z.eqb_spec us 62) as [->|N10].
  { destruct (has_flag _ _); [by apply (Hhex _ 48 48 51 69); unfold hex_digit; try lia|apply Hplain; unfold plain; lia]. }
  destruct (Z.eqb_spec us 38) as [->|N11].
  { destruct (has_flag _ _); [by apply (Hhex _ 48 48 50 54); unfold hex_digit; try lia|apply Hplain; unfold plain; lia]. }
  destruct (Z.eqb_spec us 39) as [->|N12].
  { destruct (has_flag _ _); [by apply (Hhex _ 48 48 50 55); unfold hex_digit; try lia|apply Hplain; unfold plain; lia]. }
  change 127 with (Z.ones 7). rewrite Z.land_ones by lia. change (2 ^ 7) with 128.
  destruct ((32 <=? us) && (us mod 128 =? us)) eqn:E.
  - apply Hplain; unfold plain; pose proof (Z.mod_pos_bound us 128); lia.
  - exists (bs "\u" ++ hex_of us). split; [apply append_unicode_run|by apply hex_written].
Qed.
Lemma escape_units_run h options w : Forall unit16 w -> exists l, runs h (escape_units options w) tt (text_effect l) h /\
  ascii_only l /\ forall pre b, chars pre b -> chars (pre ++ units l) (fold_left utf16_to_utf8 w b).
Proof.
  induction w as [|us w IH]; intros Hw.
  { exists []. split; [apply runs_ret|]. split; [constructor|]. intros pre b Hc. cbn. by rewrite app_nil_r. }
  apply Forall_cons in Hw as [Hus Hw]. destruct (IH Hw) as (l2 & Hr2 & Ha2 & Hc2).
  destruct (escape_unit_run h options us) as (l1 & Hr1 & Hw1); [exact Hus|].
  exists (l1 ++ l2). split; [by eapply runs_text|]. split; [apply Forall_app; split; [by eapply written_ascii|done]|]. intros pre b Hc. rewrite units_app, app_assoc. cbn [fold_left].
  apply Hc2. by apply written_chars.
Qed.

(** ** Doubles, and strings read as numbers *)

Definition double_text (d : D) (l : list byte) : Prop := l = if is_finite W d then format_double W d else bs "0".
Lemma append_double_run h d : exists e, runs h (append_double W d) tt e h /\ double_text d (e_text e) /\
  (is_finite W d = true -> clean e).
Proof.
  unfold append_double, double_text. destruct (is_finite W d).
  - exists (text_effect (format_double W d)). split; [apply runs_appendl|done].
  - eexists. split; [|split].
    + eapply runs_bind; [apply runs_warning|apply (runs_appendc h 48)].
    + done.
    + done.
Qed.

(** The text written for a string that is read as a number. *)
Definition numeric_text (str l : list byte) : Prop :=
  (exists n, long_range n /\ spelling l n) \/ (exists d, double_text d l).
Lemma append_numeric_run h str : exists (b : bool) e, runs h (append_numeric R W str) b e h /\
  (if b then numeric_text str (e_text e) else e = no_effect).
Proof.
  unfold append_numeric. destruct (numeric_integers R str) as (r & Hr & Hi & Hv).
  destruct (numeric_shape R str r Hr) as [Ht|[(Ht & p & Hp)|(Ht & d & Hd)]].
  - exists false, no_effect. split; [|done]. eapply runs_reading; [exact Hr|]. rewrite Ht. apply runs_ret.
  - destruct (Hi Ht) as (hex & v & Htext). specialize (Hv hex v Htext).
    destruct (in_range v) eqn:Hin; [|by destruct Hv]. rewrite Hv in Hp. injection Hp as <-.
    assert (Hl : long_range v) by (unfold in_range in Hin; unfold long_range; lia).
    destruct (append_long_run (D := D) v Hl) as (l & Hsp & Hrun). exists true, (text_effect (l ++ [])). split.
    + eapply runs_reading; [exact Hr|]. rewrite Hv. eapply runs_text; [apply Hrun|apply runs_ret].
    + left. exists v. cbn. by rewrite app_nil_r.
  - destruct (append_double_run h d) as (e & He & Htext & _). exists true, (eff_app e no_effect). split.
    + eapply runs_reading; [exact Hr|]. rewrite Ht, Hd. cbn [Z.eqb IS_DOUBLE IS_LONG]. eapply runs_bind; [exact He|apply runs_ret].
    + right. exists d. cbn. by rewrite app_nil_r.
Qed.

(** ** [json_escape_string] *)

Definition utf8_string (str : list byte) : Prop := exists cs, Forall scalar cs /\ str = utf8_text cs.
Definition quoted (l : list byte) : list byte := [Byte.x22] ++ l ++ [Byte.x22].

Lemma escape_string_run h options str : exists e, runs h (json_escape_string R W display_errors str options) tt e h /\
  ((utf8_string str /\ clean e /\ exists l, e_text e = quoted l /\ chars (units l) str /\ ascii_only l) \/
   (~ utf8_string str /\ e_text e = bs "null" /\ e_error e = Some PHP_JSON_ERROR_UTF8) \/
   (has_flag options PHP_JSON_NUMERIC_CHECK = true /\ numeric_text str (e_text e))).
Proof.
  unfold json_escape_string. destruct (Z.eqb_spec (Z.of_nat (length str)) 0) as [H0|H0].
  { destruct str; [|done]. exists (text_effect two_quotes). split; [apply runs_appendl|]. left. split; [by exists []|].
    split; [done|]. exists []. split; [done|]. split; constructor. }
  assert (Hplain : exists e, runs h
    ('(len, utf16) ← reading (fun _ => utf8_to_utf16 (Z.of_nat (length str)) str (Z.of_nat (length str)));
      if len <=? 0 then
        if len <? 0 then
          set_json_error_code PHP_JSON_ERROR_UTF8;;
          (if negb display_errors then php_error_docref Invalid_UTF8 else mret tt);;
          smart_str_appendl (bs "null")
        else smart_str_appendl two_quotes
      else appendc 34;; escape_units options (take (Z.to_nat len) utf16);; appendc 34) tt e h /\
    ((utf8_string str /\ clean e /\ exists l, e_text e = quoted l /\ chars (units l) str /\ ascii_only l) \/
     (~ utf8_string str /\ e_text e = bs "null" /\ e_error e = Some PHP_JSON_ERROR_UTF8))).
  { destruct (utf8_to_utf16_run (Z.of_nat (length str)) str ltac:(lia)) as (r & w & Hr & Hconv).
    destruct Hconv as [(cs & Hcs & Hstr & Hw & ->)|[-> Hno]].
    - cbn [app] in Hw. subst w. pose proof (utf16_text_units cs Hcs) as Hu.
      destruct (escape_units_run h options (utf16_text cs) Hu) as (l & Hl & Ha & Hch).
      assert (Hne : cs <> []) by (intros ->; by subst str).
      pose proof (utf16_text_nonempty cs Hne) as Hwne.
      exists (text_effect (quoted l)). split.
      + eapply runs_reading; [exact Hr|]. cbv beta iota. rewrite Nat2Z.id, take_ge by done.
        rewrite (proj2 (Z.leb_gt _ 0)) by (destruct (utf16_text cs); [done|cbn [length]; lia]).
        eapply runs_text; [apply (runs_appendc h 34)|]. eapply runs_text; [exact Hl|]. apply (runs_appendc h 34).
      + left. split; [by exists cs|]. split; [done|]. exists l. split; [done|].
        specialize (Hch [] [] ltac:(constructor)). cbn [app] in Hch. rewrite text_to_utf8 in Hch by done. split; [by subst str|done].
    - eexists. split.
      + eapply runs_reading; [exact Hr|]. cbv beta iota. change (UTF8_ERROR <=? 0) with true. change (UTF8_ERROR <? 0) with true. cbv iota.
        eapply runs_bind; [apply runs_error_code|]. eapply runs_bind; [|apply runs_appendl].
        instantiate (1 := if display_errors then no_effect else Effect [] None [Invalid_UTF8]).
        destruct display_errors; [apply runs_ret|apply runs_warning].
      + right. split; [by intros (cs & Hcs & Hs); destruct (Hno cs)|]. by destruct display_errors. }
  destruct Hplain as (e & He & Hcase).
  destruct (has_flag options PHP_JSON_NUMERIC_CHECK) eqn:Hflag.
  - destruct (append_numeric_run h str) as (b & e1 & Hr1 & Hb). destruct b.
    + exists (eff_app e1 no_effect). split; [eapply runs_bind; [exact Hr1|apply runs_ret]|].
      right. right. split; [done|]. cbn. by rewrite app_nil_r.
    + subst e1. exists e. split; [eapply runs_then; [exact Hr1|exact He]|]. destruct Hcase; auto.
  - exists e. split; [eapply runs_then; [apply runs_ret|exact He]|]. destruct Hcase; auto.
Qed.
End Strings.
