(* ===== verification/JsonEncodeHeap.v ===== *)
(** * The encoder's store

    Well-formed stores ([heap_ok]), what it does to one when a table's
    [nApplyCount] is stepped and stepped back, how many tables are idle, and
    the value that stands at an address ([erep]), which the counts do not
    change. *)

From S2P Require Import Prelude ZendNumeric Dll ZendHash ZendHashInv ZendHashNumeric ZendHashRefine ZendHashClient CLib JsonUtf8 JsonParser JsonAutomaton JsonParserSpec JsonThms JsonEncode JsonEncodeText.
Open Scope Z_scope.

(** ** Counts *)

Definition count_of (t : table) : Z := nApplyCount (ht t).
Definition recount (c : Z) (t : table) : table := upd_ht (set_nApplyCount c) t.
Lemma recount_id t : recount (count_of t) t = t.
Proof. destruct t as [[] m w]. done. Qed.
Lemma recount_recount c c' t : recount c (recount c' t) = recount c t.
Proof. done. Qed.
Lemma count_recount c t : count_of (recount c t) = c.
Proof. done. Qed.
Lemma tb_recount c t ents next : tb t ents next -> tb (recount c t) ents next.
Proof.
  intros [w HR]. exists w. destruct HR as [[l [H1 H2 H3 H4 H5 H6 H7 H8 H9 H10 H11]] Hn Hw Hd Ha].
  constructor; [exists l; by constructor|exact Hn|exact Hw|exact Hd|exact Ha].
Qed.

Section Heap.
Context {D : Type}.
Implicit Types (h : heap D) (z : zaddr) (ref : table_ref) (t : table) (v : php D) (l : list (hkey * php D))
  (ents : list (hkey * zaddr)).

(** A store in which no address dangles; at rest all counts are zero. *)
Record heap_ok h : Prop := {
  ok_table : forall ref t, table_at h ref = Ok t -> exists ents next, tb t ents next /\ Z.of_nat (length ents) < 2 ^ 32 /\
    (forall k z, (k, z) ∈ ents -> (z < length (cells h))%nat) /\ 0 <= count_of t < 255;
  ok_object : forall z i, cells h !! z = Some (VObject i) -> (i < length (objects h))%nat;
  ok_long : forall z n, cells h !! z = Some (VLong n) -> long_range n
}.

Lemma table_at_set ref ref' t t0 h : table_at h ref = Ok t0 ->
  table_at (set_table_at ref t h) ref' = if decide (ref' = ref) then Ok t else table_at h ref'.
Proof.
  intros Hat. destruct ref as [z|i], ref' as [z'|i']; cbn in *; try (by rewrite decide_False).
  - destruct (cells h !! z) as [[]|] eqn:E; try done. case_decide as Hd.
    + injection Hd as ->. rewrite list_lookup_insert_eq; [done|]. by eapply lookup_lt_Some.
    + rewrite list_lookup_insert_ne by congruence. done.
  - destruct (objects h !! i) as [|] eqn:E; try done. case_decide as Hd.
    + injection Hd as ->. rewrite list_lookup_insert_eq; [done|]. by eapply lookup_lt_Some.
    + rewrite list_lookup_insert_ne by congruence. done.
Qed.
Lemma set_table_back ref t t' h : table_at h ref = Ok t -> set_table_at ref t (set_table_at ref t' h) = h.
Proof.
  destruct h as [cs os]. destruct ref as [z|i]; cbn; intros Hat.
  - destruct (cs !! z) as [[]|] eqn:E; try done. injection Hat as ->. rewrite list_insert_insert_eq, list_insert_id; done.
  - destruct (os !! i) as [|] eqn:E; try done. injection Hat as ->. rewrite list_insert_insert_eq, list_insert_id; done.
Qed.

(** The same store but for counts. *)
Definition cell_like (x y : zval D) : Prop :=
  match x, y with VArray t, VArray t' => exists c, t' = recount c t | _, _ => x = y end.
Record similar h h' : Prop := {
  sim_cells : Forall2 cell_like (cells h) (cells h');
  sim_objects : Forall2 (fun t t' => exists c, t' = recount c t) (objects h) (objects h')
}.
Lemma cell_like_refl x : cell_like x x.
Proof. destruct x; cbn; try done. exists (count_of t). by rewrite recount_id. Qed.
Lemma recount_refl (ts : list table) : Forall2 (fun t t' => exists c, t' = recount c t) ts ts.
Proof. apply Forall_Forall2_diag, Forall_forall. intros t _. exists (count_of t). by rewrite recount_id. Qed.
Lemma similar_set ref t c h : table_at h ref = Ok t -> similar h (set_table_at ref (recount c t) h).
Proof.
  intros Hat. assert (Hc : Forall2 cell_like (cells h) (cells h)) by (apply Forall_Forall2_diag, Forall_forall; intros x _; apply cell_like_refl).
  destruct ref as [z|i]; cbn in *; constructor; cbn; try exact Hc; try apply recount_refl.
  - destruct (cells h !! z) as [[]|] eqn:E; try done. injection Hat as ->.
    rewrite <- (list_insert_id (cells h) z (VArray t)) at 1 by done. apply Forall2_insert; [done|]. by exists c.
  - destruct (objects h !! i) as [|] eqn:E; try done. injection Hat as ->.
    rewrite <- (list_insert_id (objects h) i t) at 1 by done. apply Forall2_insert; [apply recount_refl|]. by exists c.
Qed.
Lemma similar_sym h h' : similar h h' -> similar h' h.
Proof.
  intros [H1 H2]. constructor.
  - apply Forall2_flip. eapply Forall2_impl; [exact H1|]. intros x y Hxy. destruct x, y; cbn in *; try done; try congruence.
    destruct Hxy as [c ->]. exists (count_of t). by rewrite recount_recount, recount_id.
  - apply Forall2_flip. eapply Forall2_impl; [exact H2|]. intros t t' [c ->]. exists (count_of t). cbn. by rewrite recount_recount, recount_id.
Qed.
Lemma similar_cell h h' z x : similar h h' -> cells h !! z = Some x -> exists y, cells h' !! z = Some y /\ cell_like x y.
Proof. intros [H1 _] Hx. destruct (Forall2_lookup_l _ _ _ _ _ H1 Hx) as (y & Hy & Hl). by exists y. Qed.
Lemma similar_object h h' i t : similar h h' -> objects h !! i = Some t -> exists c, objects h' !! i = Some (recount c t).
Proof. intros [_ H2] Ht. destruct (Forall2_lookup_l _ _ _ _ _ H2 Ht) as (y & Hy & c & ->). by exists c. Qed.
Lemma similar_HASH_OF h h' z : similar h h' -> HASH_OF h' z = HASH_OF h z.
Proof.
  intros Hs. unfold HASH_OF, cell_at. destruct (cells h !! z) as [x|] eqn:E.
  - destruct (similar_cell _ _ _ _ Hs E) as (y & -> & Hl). destruct x, y; cbn in *; try done; congruence.
  - destruct (cells h' !! z) eqn:E'; [|done]. destruct (similar_cell _ _ _ _ (similar_sym _ _ Hs) E') as (y & Hy & _). congruence.
Qed.
Lemma similar_table h h' ref t : similar h h' -> table_at h ref = Ok t -> exists c, table_at h' ref = Ok (recount c t).
Proof.
  intros Hs Hat. destruct ref as [z|i]; cbn in *.
  - destruct (cells h !! z) as [[]|] eqn:E; try done. injection Hat as ->.
    destruct (similar_cell _ _ _ _ Hs E) as (y & -> & Hl). destruct y; try done. destruct Hl as [c ->]. by exists c.
  - destruct (objects h !! i) as [|] eqn:E; try done. injection Hat as ->.
    destruct (similar_object _ _ _ _ Hs E) as [c ->]. by exists c.
Qed.
Lemma similar_ok h h' : similar h h' -> heap_ok h -> (forall ref t, table_at h' ref = Ok t -> 0 <= count_of t < 255) -> heap_ok h'.
Proof.
  intros Hs [H1 H2 H3] Hcount. pose proof (similar_sym _ _ Hs) as Hs'.
  assert (Hlc : length (cells h') = length (cells h)) by (symmetry; eapply Forall2_length, sim_cells, Hs).
  assert (Hlo : length (objects h') = length (objects h)) by (symmetry; eapply Forall2_length, sim_objects, Hs).
  constructor.
  - intros ref t Hat. destruct (similar_table _ _ _ _ Hs' Hat) as [c Hat']. destruct (H1 _ _ Hat') as (ents & next & Htb & Hl & Hv & _).
    exists ents, next. split; [|rewrite Hlc; split_and!; try done; by eapply Hcount].
    rewrite <- (recount_id t). apply (tb_recount (count_of t)) in Htb. by rewrite recount_recount in Htb.
  - intros z i Hz. destruct (similar_cell _ _ _ _ Hs' Hz) as (y & Hy & Hl). cbn in Hl. destruct y; try done. injection Hl as <-.
    rewrite Hlo. by eapply H2.
  - intros z n Hz. destruct (similar_cell _ _ _ _ Hs' Hz) as (y & Hy & Hl). cbn in Hl. destruct y; try done. injection Hl as <-.
    by eapply H3.
Qed.

(** ** Going into a table and back *)

Lemma add_count_run h ref t i : table_at h ref = Ok t ->
  runs h (add_nApplyCount (Some ref) i) tt no_effect (set_table_at ref (recount (u8 (count_of t + i)) t) h).
Proof.
  intros Hat s <-. unfold add_nApplyCount. rewrite mbind_get. rewrite (mbind_reading _ _ s t Hat).
  unfold set_hp, modify, after. cbn. by rewrite !app_nil_r.
Qed.
(** The store while the encoder is within the table. *)
Definition entered ref t h : heap D := set_table_at ref (recount (count_of t + 1) t) h.
Lemma enter_run h ref t : table_at h ref = Ok t -> 0 <= count_of t < 255 ->
  runs h (add_nApplyCount (Some ref) 1) tt no_effect (entered ref t h) /\
  runs (entered ref t h) (add_nApplyCount (Some ref) (-1)) tt no_effect h.
Proof.
  intros Hat Hc. split.
  - pose proof (add_count_run h ref t 1 Hat) as Hr. unfold u8 in Hr. by rewrite Z.mod_small in Hr by lia.
  - assert (Hat' : table_at (entered ref t h) ref = Ok (recount (count_of t + 1) t)).
    { unfold entered. rewrite (table_at_set ref ref _ t) by done. by rewrite decide_True. }
    pose proof (add_count_run _ ref _ (-1) Hat') as Hr. rewrite count_recount, recount_recount in Hr.
    replace (count_of t + 1 + -1) with (count_of t) in Hr by lia. unfold u8 in Hr. rewrite Z.mod_small, recount_id in Hr by lia.
    unfold entered in Hr at 2. by rewrite set_table_back in Hr.
Qed.
Lemma entered_similar h ref t : table_at h ref = Ok t -> similar h (entered ref t h).
Proof. apply similar_set. Qed.
Lemma entered_at h ref t ref' : table_at h ref = Ok t ->
  table_at (entered ref t h) ref' = if decide (ref' = ref) then Ok (recount (count_of t + 1) t) else table_at h ref'.
Proof. intros Hat. by apply (table_at_set _ _ _ t). Qed.
Lemma entered_ok h ref t : heap_ok h -> table_at h ref = Ok t -> count_of t < 254 -> heap_ok (entered ref t h).
Proof.
  intros Hok Hat Hc. apply (similar_ok h); [by apply entered_similar|done|]. intros ref' t' Hat'.
  rewrite (entered_at _ _ _ _ Hat) in Hat'. case_decide.
  - injection Hat' as <-. rewrite count_recount. destruct (ok_table _ Hok _ _ Hat) as (_ & _ & _ & _ & _ & Hr). lia.
  - by destruct (ok_table _ Hok _ _ Hat') as (_ & _ & _ & _ & _ & Hr).
Qed.

(** ** Idle tables *)

Definition idle t : nat := if count_of t =? 0 then 1 else 0.
Definition cell_idle (x : zval D) : nat := match x with VArray t => idle t | _ => 0 end.
Definition idle_tables h : nat := sum_list_with cell_idle (cells h) + sum_list_with idle (objects h).

Lemma sum_insert {A} (f : A -> nat) (xs : list A) : forall i x y, xs !! i = Some x ->
  (sum_list_with f (<[i := y]> xs) + f x = sum_list_with f xs + f y)%nat.
Proof.
  induction xs as [|x0 xs IH]; intros [|i] x y Hi; try done.
  - injection Hi as ->. change (<[0%nat := y]> (x :: xs)) with (y :: xs). cbn [sum_list_with]. lia.
  - specialize (IH i x y Hi). change (<[S i := y]> (x0 :: xs)) with (x0 :: <[i := y]> xs). cbn [sum_list_with]. lia.
Qed.
Lemma idle_entered h ref t : table_at h ref = Ok t -> count_of t = 0 -> S (idle_tables (entered ref t h)) = idle_tables h.
Proof.
  intros Hat Hc. assert (H1 : idle t = 1%nat) by (unfold idle; by rewrite Hc).
  assert (H0 : idle (recount (count_of t + 1) t) = 0%nat) by (unfold idle; by rewrite count_recount, Hc).
  unfold idle_tables, entered. destruct ref as [z|i]; cbn [set_table_at cells objects table_at] in *.
  - destruct (cells h !! z) as [[]|] eqn:E; try done. injection Hat as ->.
    pose proof (sum_insert cell_idle _ z _ (VArray (recount (count_of t + 1) t)) E) as Hs. cbn [cell_idle] in Hs. lia.
  - destruct (objects h !! i) as [|] eqn:E; try done. injection Hat as ->.
    pose proof (sum_insert idle _ i _ (recount (count_of t + 1) t) E) as Hs. lia.
Qed.
Lemma sum_bound {A} (f : A -> nat) (xs : list A) : (forall x, f x <= 1)%nat -> (sum_list_with f xs <= length xs)%nat.
Proof. intros Hf. induction xs as [|x xs IH]; [done|]. cbn [sum_list_with length]. specialize (Hf x). lia. Qed.
Lemma idle_bound h : (idle_tables h <= length (cells h) + length (objects h))%nat.
Proof.
  unfold idle_tables. apply Nat.add_le_mono; apply sum_bound; intros x.
  - destruct x; cbn; try lia. unfold idle. case_match; lia.
  - unfold idle. case_match; lia.
Qed.

(** ** The value at an address *)

Definition scalar_of (x : zval D) : option (php D) :=
  match x with
  | VNull => Some PNull | VLong n => Some (PLong n) | VDouble d => Some (PDouble d)
  | VBool b => Some (PBool b) | VString s => Some (PString s) | _ => None
  end.
Inductive erep h : zaddr -> php D -> Prop :=
  | erep_scalar z x v : cells h !! z = Some x -> scalar_of x = Some v -> erep h z v
  | erep_array z t ents next l : cells h !! z = Some (VArray t) -> tb t ents next ->
      Forall2 (fun x y => x.1 = y.1 /\ erep h x.2 y.2) ents l -> erep h z (PArray l)
  | erep_object z i t ents next l : cells h !! z = Some (VObject i) -> objects h !! i = Some t -> tb t ents next ->
      Forall2 (fun x y => x.1 = y.1 /\ erep h x.2 y.2) ents l -> erep h z (PObject l).
Definition ereps h ents l : Prop := Forall2 (fun x y => x.1 = y.1 /\ erep h x.2 y.2) ents l.

Fixpoint height v : nat :=
  match v with
  | PArray l | PObject l => S (foldr (fun kv n => Nat.max (height kv.2) n) 0%nat l)
  | _ => 0%nat
  end.
Definition kvheight l : nat := foldr (fun kv n => Nat.max (height kv.2) n) 0%nat l.
Lemma height_in l k v : (k, v) ∈ l -> (height v <= kvheight l)%nat.
Proof.
  induction l as [|x l IH]; intros Hin; [by apply not_elem_of_nil in Hin|].
  apply elem_of_cons in Hin as [<-|Hin]; cbn; [lia|]. specialize (IH Hin). unfold kvheight in IH. lia.
Qed.

Lemma erep_similar h h' : similar h h' -> forall z v, erep h z v -> erep h' z v.
Proof.
  intros Hs. fix IH 3. intros z v [z0 x v0 Hz Hx|z0 t ents next l Hz Htb Hc|z0 i t ents next l Hz Hi Htb Hc].
  - destruct (similar_cell _ _ _ _ Hs Hz) as (y & Hy & Hl). apply (erep_scalar _ _ y); [done|]. destruct x, y; cbn in *; try done; congruence.
  - destruct (similar_cell _ _ _ _ Hs Hz) as (y & Hy & Hl). destruct y; try done. destruct Hl as [c ->].
    eapply erep_array; [exact Hy|apply tb_recount; exact Htb|].
    clear -IH Hc. induction Hc as [|x y ents l [Hk Hr] Hc IHc]; constructor; [|done]. split; [done|]. by apply IH.
  - destruct (similar_cell _ _ _ _ Hs Hz) as (y & Hy & Hl). cbn in Hl. destruct y; try done. injection Hl as <-.
    destruct (similar_object _ _ _ _ Hs Hi) as [c Hi'].
    eapply erep_object; [exact Hy|exact Hi'|apply tb_recount; exact Htb|].
    clear -IH Hc. induction Hc as [|x y ents l [Hk Hr] Hc IHc]; constructor; [|done]. split; [done|]. by apply IH.
Qed.
Lemma ereps_similar h h' ents l : similar h h' -> ereps h ents l -> ereps h' ents l.
Proof. intros Hs Hc. eapply Forall2_impl; [exact Hc|]. intros x y [Hk Hr]. split; [done|]. by eapply erep_similar. Qed.

Lemma ereps_fun h n ents : forall l l', (forall z v v', (height v <= n)%nat -> erep h z v -> erep h z v' -> v = v') ->
  (kvheight l <= n)%nat -> ereps h ents l -> ereps h ents l' -> l = l'.
Proof.
  induction ents as [|x ents IH]; intros l l' Hf Hn H1 H2.
  { apply Forall2_nil_inv_l in H1, H2. congruence. }
  apply Forall2_cons_inv_l in H1 as ([k v] & l1 & [Hk Hr] & H1 & ->), H2 as ([k' v'] & l2 & [Hk' Hr'] & H2 & ->).
  unfold kvheight in *. cbn in *. f_equal.
  - f_equal; [congruence|]. eapply Hf; [|exact Hr|exact Hr']. lia.
  - apply IH; [done|lia|done|done].
Qed.
Lemma erep_fun_below h n : forall z v v', (height v <= n)%nat -> erep h z v -> erep h z v' -> v = v'.
Proof.
  induction n as [|n IH]; intros z v v' Hn H1 H2.
  - destruct H1 as [z x v Hz Hx| |]; [|cbn in Hn; lia..]. destruct H2 as [z x' v' Hz' Hx'|z t ents next l Hz' _ _|z i t ents next l Hz' _ _ _];
      rewrite Hz in Hz'; simplify_eq; cbn in *; congruence.
  - destruct H1 as [z x v Hz Hx|z t ents next l Hz Htb Hc|z i t ents next l Hz Hi Htb Hc].
    + destruct H2 as [z x' v' Hz' Hx'|z t ents next l Hz' _ _|z i t ents next l Hz' _ _ _]; rewrite Hz in Hz'; simplify_eq; cbn in *; congruence.
    + inversion H2 as [z' x' v0 Hz' Hx'|z' t' ents' next' l' Hz' Htb' Hc'|z' i' t' ents' next' l' Hz']; subst; rewrite Hz in Hz'; simplify_eq; try done.
      f_equal. rewrite (tb_fun _ _ _ _ _ Htb' Htb) in Hc'. cbn in Hn. apply (ereps_fun h n ents); [exact IH|unfold kvheight; lia|done|done].
    + inversion H2 as [z' x' v0 Hz' Hx'|z' t' ents' next' l' Hz' Htb' Hc'|z' i' t' ents' next' l' Hz' Hi' Htb' Hc']; subst; rewrite Hz in Hz'; simplify_eq; try done.
      f_equal. rewrite (tb_fun _ _ _ _ _ Htb' Htb) in Hc'. cbn in Hn. apply (ereps_fun h n ents); [exact IH|unfold kvheight; lia|done|done].
Qed.
Lemma erep_fun h z v v' : erep h z v -> erep h z v' -> v = v'.
Proof. by apply erep_fun_below with (n := height v). Qed.

(** What the table of a zval holds. *)
Definition holds_kvs h ref l : Prop := exists t ents next, table_at h ref = Ok t /\ tb t ents next /\ ereps h ents l.
Lemma holds_fun h ref l l' : holds_kvs h ref l -> holds_kvs h ref l' -> l = l'.
Proof.
  intros (t & ents & next & Ht & Htb & Hr) (t' & ents' & next' & Ht' & Htb' & Hr'). rewrite Ht in Ht'. injection Ht' as <-.
  rewrite (tb_fun _ _ _ _ _ Htb' Htb) in Hr'. apply (ereps_fun h (kvheight l) ents); [|done|done|done].
  intros z v v' _. apply erep_fun.
Qed.
Lemma holds_similar h h' ref l : similar h h' -> holds_kvs h ref l -> holds_kvs h' ref l.
Proof.
  intros Hs (t & ents & next & Ht & Htb & Hr). destruct (similar_table _ _ _ _ Hs Ht) as [c Ht'].
  exists (recount c t), ents, next. split; [done|]. split; [by apply tb_recount|]. by eapply ereps_similar.
Qed.
Lemma erep_holds h z ref l v : erep h z v -> HASH_OF h z = Ok (Some ref) -> v = PArray l \/ v = PObject l -> holds_kvs h ref l.
Proof.
  unfold HASH_OF, cell_at. intros [z' x v' Hz Hx|z' t ents next l' Hz Htb Hc|z' i t ents next l' Hz Hi Htb Hc] Hof Hv; rewrite Hz in Hof.
  - destruct x; try done; injection Hx as <-; by destruct Hv.
  - injection Hof as <-. destruct Hv as [[= ->]|]; [|done]. exists t, ents, next. cbn. rewrite Hz. by split.
  - injection Hof as <-. destruct Hv as [|[= ->]]; [done|]. exists t, ents, next. cbn. rewrite Hi. by split.
Qed.

(** No table holding less than [n] levels is being encoded. *)
Definition quiet h (n : nat) : Prop := forall ref l t, holds_kvs h ref l -> (kvheight l < n)%nat -> table_at h ref = Ok t -> count_of t = 0.
Lemma quiet_le h n m : quiet h n -> (m <= n)%nat -> quiet h m.
Proof. intros Hq Hm ref l t Hh Hl. apply (Hq ref l t Hh). lia. Qed.
Lemma quiet_entered h ref t l : table_at h ref = Ok t -> holds_kvs h ref l -> quiet h (kvheight l) -> quiet (entered ref t h) (kvheight l).
Proof.
  intros Hat Hh Hq ref' l' t' Hh' Hl' Hat'.
  apply (holds_similar _ h) in Hh'; [|by apply similar_sym, entered_similar].
  rewrite (entered_at _ _ _ _ Hat) in Hat'. case_decide as Hd; [|by eapply Hq].
  subst ref'. rewrite (holds_fun _ _ _ _ Hh' Hh) in Hl'. lia.
Qed.
End Heap.
