(* ===== verification/JsonEncodeWalk.v ===== *)
(** * The encoder's walk through a table

    What the two loops over the elements of an array do: the one that decides
    whether it is a list, and the one that writes its members. *)

From S2P Require Import Prelude ZendNumeric Dll ZendHash ZendHashInv ZendHashSteps ZendHashOps ZendHashIter ZendHashBulk ZendHashOrder ZendHashCursor ZendHashNumeric ZendHashRefine ZendHashClient CLib JsonUtf8 JsonParser JsonAutomaton JsonParserSpec JsonThms JsonEncode JsonEncodeText JsonEncodeHeap.
Open Scope Z_scope.

(** What [zend_hash_get_current_key_ex] reads of a key. *)
Definition key_type (k : hkey) : Z := match k with KStr _ => HASH_KEY_IS_STRING | KInt _ => HASH_KEY_IS_LONG end.
Definition key_string (k : hkey) : option (list byte * Z) :=
  match k with KStr s => Some (s, Z.of_nat (length s)) | KInt _ => None end.
Definition key_index (k : hkey) : option Z := match k with KStr _ => None | KInt i => Some i end.

(** The keys are 0, 1, 2, ... from [i] on. *)
Fixpoint packed_from {A} (i : Z) (kvs : list (hkey * A)) : bool :=
  match kvs with
  | [] => true
  | (KInt j, _) :: kvs' => (j =? i) && packed_from (i + 1) kvs'
  | (KStr _, _) :: _ => false
  end.

Lemma key_at (t : table) l ents n l1 a l2 : reprn t l ents n -> l = l1 ++ a :: l2 ->
  exists k z b, ents !! length l1 = Some (k, z) /\
    zend_hash_get_current_key_ex false (Some (Some a)) t = Ok (key_type k, key_string k, key_index k) /\
    zend_hash_get_current_data_ex (Some (Some a)) t = (SUCCESS, Some a) /\
    deref (Some a) t = Ok b /\ data_value (pData b) = z /\ (forall s, k = KStr s -> s <> []) /\
    (forall i, k = KInt i -> 0 <= i < 2 ^ 64).
Proof.
  intros R Hl. destruct (position_entry _ _ _ _ _ _ _ R Hl) as (b & Hb & Hok & He & _).
  exists (bucket_key b), (data_value (pData b)), b. split; [done|].
  unfold zend_hash_get_current_key_ex. cbn [position]. rewrite Hb. destruct Hok as [Hh Hlen].
  unfold bucket_key. destruct (Z.eqb_spec (nKeyLength b) 0) as [E|E].
  - split_and!; try done. by intros i [= <-].
  - destruct (Hlen E) as [Hlen' _]. split; [by cbn; rewrite Hlen'|]. split_and!; try done.
    intros s [= <-] Hnil. rewrite Hnil in Hlen'. by cbn in Hlen'.
Qed.

Lemma move_at (t : table) l ents n l1 a l2 : reprn t l ents n -> l = l1 ++ a :: l2 ->
  zend_hash_move_forward_ex (Some (Some a)) t = Ok (SUCCESS, Some (head_ptr l2 None), t).
Proof. apply move_forward_at. Qed.
Lemma key_at_end (t : table) : zend_hash_get_current_key_ex false (Some None) t = Ok (HASH_KEY_NON_EXISTANT, None, None).
Proof. done. Qed.

(** ** Is it a list? *)

Lemma array_type_loop_run (t : table) ents n l2 : forall fuel l1 i, reprn t (l1 ++ l2) ents n -> (length l2 < fuel)%nat ->
  0 <= i -> i + Z.of_nat (length l2) < 2 ^ 64 ->
  array_type_loop fuel t (Some (head_ptr l2 None)) i = Ok (if packed_from i (drop (length l1) ents) then 0 else 1).
Proof.
  induction l2 as [|a l2 IH]; intros fuel l1 i R Hf Hi Hn; (destruct fuel as [|fuel]; [cbn in Hf; lia|]).
  - rewrite drop_ge; [done|]. rewrite <- (Forall2_length _ _ _ (r_holds _ _ _ _ R)), length_app. cbn. lia.
  - cbn [length] in Hf, Hn. destruct (key_at _ _ _ _ _ _ _ R eq_refl) as (k & z & b & Hk & Hkey & _ & _ & _ & _ & Hrange).
    cbn [array_type_loop head_ptr]. rewrite (res_bind_ok _ _ _ Hkey). cbv beta iota.
    rewrite (drop_S _ _ _ Hk). destruct k as [j|s]; [|done]. cbn [key_type key_index packed_from].
    change (HASH_KEY_IS_LONG =? HASH_KEY_NON_EXISTANT) with false. change (HASH_KEY_IS_LONG =? HASH_KEY_IS_STRING) with false. cbv iota.
    unfold mbind at 1, res_bind at 1. destruct (Z.eqb_spec j i) as [->|]; [|done]. cbn [negb andb].
    rewrite (res_bind_ok _ _ _ (move_at _ _ _ _ _ _ _ R eq_refl)). cbv beta iota.
    rewrite u64_small by lia. rewrite (IH fuel (l1 ++ [a]) (i + 1)); [|by rewrite <- app_assoc|lia..].
    rewrite length_app. cbn [length]. by rewrite Nat.add_1_r.
Qed.
Lemma array_type_run {D} (h : heap D) z ref t ents next : HASH_OF h z = Ok (Some ref) -> table_at h ref = Ok t -> tb t ents next ->
  Z.of_nat (length ents) < 2 ^ 32 ->
  json_determine_array_type h z = Ok (if packed_from 0 ents then PHP_JSON_OUTPUT_ARRAY else PHP_JSON_OUTPUT_OBJECT).
Proof.
  intros Hof Hat [w [[l R] _ _ _ _]] Hl. cbn [entries] in R. unfold json_determine_array_type.
  rewrite (res_bind_ok _ _ _ Hof), (res_bind_ok _ _ _ Hat).
  assert (Hlen : length l = length ents) by apply (Forall2_length _ _ _ (r_holds _ _ _ _ R)).
  unfold zend_hash_num_elements. rewrite (r_count _ _ _ _ R), Hlen. unfold u32. rewrite Z.mod_small by lia.
  destruct (Z.ltb_spec 0 (Z.of_nat (length ents))).
  - unfold zend_hash_internal_pointer_reset_ex. unfold mbind, res_bind, M_bind, get_st, mret, M_ret. rewrite (r_head _ _ _ _ R).
    apply (array_type_loop_run t ents (u32 (Z.of_nat (length l))) l _ []); [exact R|by eapply walk_fuel_enough|done|lia].
  - destruct ents; [done|cbn in *; lia].
Qed.

(** ** The members *)

Section Members.
Context {D : Type} (R : double_reader D) (W : double_writer D) (display_errors : bool).
Context (enc : zaddr -> M (estate D) unit) (options r : Z) (is_object : bool) (ref : table_ref).
Implicit Types (h : heap D) (e : effect D).

Definition member (k : hkey) (z : zaddr) (nc : bool) : M (estate D) bool :=
  encode_member R W display_errors enc options r is_object (key_type k) (key_string k) (key_index k) z nc.

(** What holds before the first member, and is kept by each, holds after the last. *)
Lemma encode_members_run h t l ents n (I : list (hkey * zaddr) -> bool -> effect D -> Prop) :
  table_at h ref = Ok t -> reprn t l ents n ->
  (forall pre k z post nc e, ents = pre ++ (k, z) :: post -> valid_key k -> I pre nc e ->
     exists nc' e', runs h (member k z nc) nc' e' h /\ I (pre ++ [(k, z)]) nc' (eff_app e e')) ->
  forall l2 fuel l1 nc e, l = l1 ++ l2 -> (length l2 < fuel)%nat -> I (take (length l1) ents) nc e ->
    exists nc' e', runs h (encode_members R W display_errors enc options r is_object ref fuel (Some (head_ptr l2 None)) nc) tt e' h /\
      I ents nc' (eff_app e e').
Proof.
  intros Hat Hrep Hstep. induction l2 as [|a l2 IH]; intros fuel l1 nc e Hl Hf HI; (destruct fuel as [|fuel]; [cbn in Hf; lia|]).
  - exists nc, no_effect. split.
    + apply runs_get. intros s <-. eapply runs_reading; [exact Hat|]. eapply runs_reading; [apply key_at_end|]. apply runs_ret.
    + rewrite app_nil_r in Hl. subst l1. rewrite take_ge in HI by (rewrite (Forall2_length _ _ _ (r_holds _ _ _ _ Hrep)); done).
      replace (eff_app e no_effect) with e; [done|]. destruct e. unfold eff_app. cbn. by rewrite !app_nil_r.
  - cbn [length] in Hf. destruct (key_at _ _ _ _ _ _ _ Hrep Hl) as (k & z & b & Hk & Hkey & Hdata & Hb & <- & Hne & Hrange).
    destruct (Hstep (take (length l1) ents) k (data_value (pData b)) (drop (S (length l1)) ents) nc e) as (nc' & e1 & Hr1 & HI1);
      [by rewrite take_drop_middle|by destruct k; [apply Hrange|apply Hne]|done|].
    rewrite <- (take_S_r _ _ _ Hk) in HI1.
    destruct (IH fuel (l1 ++ [a]) nc' (eff_app e e1)) as (nc2 & e2 & Hr2 & HI2);
      [by rewrite <- app_assoc|lia|by rewrite length_app; cbn; rewrite Nat.add_1_r|].
    exists nc2, (eff_app e1 e2). rewrite eff_app_assoc. split; [|done].
    apply runs_get. intros s Hs. rewrite Hs. eapply runs_reading; [exact Hat|]. eapply runs_reading; [exact Hkey|]. cbv beta iota.
    replace (key_type k =? HASH_KEY_NON_EXISTANT) with false by (by destruct k). cbn [head_ptr]. rewrite Hdata.
    change (SUCCESS =? SUCCESS) with true. cbv iota.
    eapply runs_bind; [eapply runs_reading; [exact Hb|exact Hr1]|].
    apply runs_get. intros s2 Hs2. rewrite Hs2. eapply runs_reading; [exact Hat|].
    eapply runs_reading; [exact (move_at _ _ _ _ _ _ _ Hrep Hl)|]. exact Hr2.
Qed.
End Members.
