(* ===== verification/JsonEncodeValue.v ===== *)
(** * What the encoder writes is JSON

    By induction on the tables that are not being encoded: from any store
    without dangling addresses the encoder returns and leaves the store as it
    was; the text it writes for a value that stands there is a text of the
    grammar JsonGrammar, spelling that very value where it is [faithful]. *)

From S2P Require Import Prelude ZendNumeric Dll ZendHash ZendHashInv ZendHashSteps ZendHashOps ZendHashIter ZendHashBulk ZendHashOrder ZendHashCursor ZendHashNumeric ZendHashRefine ZendHashClient CLib JsonUtf8 JsonUtf8Spec JsonParser JsonAutomaton JsonParserSpec JsonGrammar JsonLex JsonThms JsonEncode JsonEncodeText JsonEncodeHeap JsonEncodeWalk.
Open Scope Z_scope.

(** What the conversions between doubles and text have to do with each other:
    a finite double is written as a number. *)
Class Writes {D : Type} (R : double_reader D) (W : double_writer D) : Prop :=
  writes : forall d, is_finite W d = true -> exists v, number (zend_strtod R) (units (format_double W d)) v.

Lemma foldr_Forall {A} (Q : A -> Prop) (xs : list A) : foldr (fun x P => Q x /\ P) True xs <-> Forall Q xs.
Proof. induction xs as [|x xs IH]; cbn; [by split; constructor|]. by rewrite Forall_cons, IH. Qed.

Section Value.
Context {D : Type} (R : double_reader D) (W : double_writer D) (display_errors : bool).
Context (options : Z) (assoc : bool).
Implicit Types (h : heap D) (z : zaddr) (ref : table_ref) (v : php D) (l : list (hkey * php D)) (e : effect D)
  (ents : list (hkey * zaddr)).
Notation force := (has_flag options PHP_JSON_FORCE_OBJECT).

(** ** Values *)

(** The name of a member, for a key that is a string: it ends with a NUL. *)
Definition name_of (s : list byte) : list byte := take (length s - 1) s.
(** A name of an object's table that begins with a NUL is no public member. *)
Definition hidden (is_object : bool) (k : hkey) : bool :=
  is_object && match k with KStr (c :: _) => uc c =? 0 | _ => false end.
Definition name_ok (k : hkey) : Prop :=
  match k with KInt _ => True | KStr s => utf8_string (name_of s) /\ member_key assoc (name_of s) <> None end.
(** The members' names are UTF-8, and names that a decoder accepts. *)
Fixpoint encodable v : Prop :=
  match v with
  | PArray l => foldr (fun kv P => (name_ok kv.1 /\ encodable kv.2) /\ P) True l
  | PObject l => foldr (fun kv P => (hidden true kv.1 = true \/ (name_ok kv.1 /\ encodable kv.2)) /\ P) True l
  | _ => True
  end.
Definition members_ok (is_object : bool) l : Prop :=
  Forall (fun kv => hidden is_object kv.1 = true \/ (name_ok kv.1 /\ encodable kv.2)) l.

(** The key comes back from its name. *)
Definition key_back (k : hkey) : Prop :=
  match k with KInt _ => assoc = true | KStr s => member_key assoc (name_of s) = Some k end.
(** The values that come back from their text as they are. *)
Fixpoint faithful v : Prop :=
  match v with
  | PNull | PBool _ | PLong _ => True
  | PDouble d => is_finite W d = true /\ forall v', number (zend_strtod R) (units (format_double W d)) v' -> v' = PDouble d
  | PString s => utf8_string s /\ has_flag options PHP_JSON_NUMERIC_CHECK = false
  | PArray l =>
      ((packed_from 0 l = true /\ force = false) \/ (assoc = true /\ Forall (fun kv => key_back kv.1) l)) /\
      foldr (fun kv P => faithful kv.2 /\ P) True l
  | PObject l => (assoc = false /\ Forall (fun kv => key_back kv.1) l) /\ foldr (fun kv P => faithful kv.2 /\ P) True l
  end.
Definition all_faithful l : Prop := Forall (fun kv => faithful kv.2) l.

(** The effect [e] writes a text for [v]. *)
Definition says (d : nat) v e : Prop :=
  Writes R W -> ascii_only (e_text e) /\ exists v', value (zend_strtod R) assoc d (units (e_text e)) v' /\ (faithful v -> v' = v /\ clean e).

Lemma encodable_array l : encodable (PArray l) <-> members_ok false l.
Proof.
  cbn. rewrite foldr_Forall. unfold members_ok. split; intros Hl; (eapply Forall_impl; [exact Hl|]); intros kv; [by right|].
  by intros [|].
Qed.
Lemma encodable_object l : encodable (PObject l) <-> members_ok true l.
Proof. cbn. by rewrite foldr_Forall. Qed.

(** ** Scalars *)

Lemma number_ascii (w : list Z) v : number (zend_strtod R) w v -> Forall (fun c => 0 < c < 128) w.
Proof.
  intros [s i f x Hs Hi Hf Hx]. repeat (apply Forall_app; split); [by apply sign_small|by apply integer_small|by apply fraction_small|by apply exponent_small].
Qed.
Lemma number_ascii_only (l : list byte) v : number (zend_strtod R) (units l) v -> ascii_only l.
Proof. intros Hn%number_ascii. apply ascii_only_units. eapply Forall_impl; [exact Hn|]. cbn. lia. Qed.
Lemma number_says d v (l : list byte) n : number (zend_strtod R) (units l) n -> (faithful v -> n = v) -> says d v (text_effect l).
Proof. intros Hn Hv _. split; [by eapply number_ascii_only|]. exists n. split; [by constructor|]. intros Hf. split; [by apply Hv|done]. Qed.
Lemma spelling_is_number (l : list byte) n : spelling l n -> long_range n -> number (zend_strtod R) (units l) (PLong n).
Proof. intros (neg & ds & -> & Hc & Hv & _) Hn. by apply spelling_number. Qed.
Lemma double_is_number `{!Writes R W} d (l : list byte) : double_text W d l -> exists v, number (zend_strtod R) (units l) v.
Proof.
  unfold double_text. intros ->. destruct (is_finite W d) eqn:E; [by apply writes|].
  exists (PLong 0). apply (spelling_number _ false [ZERO]); [done|done|]. unfold long_range, LONG_MIN, LONG_MAX. lia.
Qed.

Lemma quoted_ascii (l : list byte) : ascii_only l -> ascii_only (quoted l).
Proof. intros Hl. unfold quoted. constructor; [done|]. apply Forall_app. split; [done|]. by constructor. Qed.
Lemma literal_ascii (l : list byte) : forallb (fun b => uc b <? 128) l = true -> ascii_only l.
Proof. rewrite forallb_forall. intros Hl. apply Forall_forall. intros b Hb. apply list_elem_of_In, Hl in Hb. lia. Qed.
Lemma string_says h s : exists e, runs h (json_escape_string R W display_errors s options) tt e h /\ forall d, says d (PString s) e.
Proof.
  destruct (escape_string_run R W display_errors h options s) as (e & He & Hcase). exists e. split; [done|]. intros d HW.
  destruct Hcase as [(_ & Hcl & l & Ht & Hch & Ha)|[(Hno & Ht & _)|(Hflag & Hnum)]].
  - split; [rewrite Ht; by apply quoted_ascii|]. exists (PString s). rewrite Ht. split; [|done]. unfold quoted. rewrite !units_app. by constructor.
  - rewrite Ht. split; [by apply literal_ascii|]. exists PNull. split; [constructor|]. by intros [Hs _].
  - destruct Hnum as [(n & Hr & Hsp)|(x & Hx)].
    + pose proof (spelling_is_number _ _ Hsp Hr) as Hn. split; [by eapply number_ascii_only|]. exists (PLong n). split; [by constructor|]. intros [_ Hf]. by rewrite Hf in Hflag.
    + destruct (double_is_number x _ Hx) as [v Hv]. split; [by eapply number_ascii_only|]. exists v. split; [by constructor|]. intros [_ Hf]. by rewrite Hf in Hflag.
Qed.

(** A zval that is neither an array nor an object. *)
Lemma scalar_run fuel h z : heap_ok h -> (z < length (cells h))%nat -> HASH_OF h z = Ok None ->
  exists e, runs h (php_json_encode R W display_errors (S fuel) options z) tt e h /\ forall v d, erep h z v -> says d v e.
Proof.
  intros Hok Hz Hof. destruct (lookup_lt_is_Some_2 _ _ Hz) as [x Hx]. unfold HASH_OF, cell_at in Hof. rewrite Hx in Hof. cbn in Hof.
  assert (Hshow : forall c e, runs h c tt e h ->
    (match x with VNull => smart_str_appendl (bs "null") | VBool b => smart_str_appendl (if b then bs "true" else bs "false")
     | VLong n => append_long n | VDouble d => append_double W d | VString str => json_escape_string R W display_errors str options
     | VArray _ | VObject _ => json_encode_array R W display_errors (php_json_encode R W display_errors fuel options) options z
     | VResource _ => php_error_docref Unsupported_type;; smart_str_appendl (bs "null") end) = c ->
    runs h (php_json_encode R W display_errors (S fuel) options z) tt e h).
  { intros c e Hr <-. cbn [php_json_encode]. apply runs_get. intros s ->. eapply runs_reading; [unfold cell_at; by rewrite Hx|exact Hr]. }
  assert (Hsays : forall e, (forall v d, scalar_of x = Some v -> says d v e) -> forall v d, erep h z v -> says d v e).
  { intros e He v d Hv. apply He. inversion Hv as [z' x' v' Hz' Hx'|z' t ents next l Hz'|z' i t ents next l Hz']; subst;
      rewrite Hx in Hz'; simplify_eq; done. }
  destruct x as [|n|d|b|t|i|s|n]; try done.
  - eexists. split; [eapply Hshow; [apply runs_appendl|done]|]. apply Hsays. intros v d [= <-] _. split; [by apply literal_ascii|]. exists PNull. split; [constructor|done].
  - destruct (append_long_run (D := D) n (ok_long _ Hok _ _ Hx)) as (l & Hsp & Hr). exists (text_effect l).
    split; [eapply Hshow; [apply Hr|done]|]. apply Hsays. intros v d [= <-]. apply (number_says _ _ _ (PLong n)); [|done].
    apply spelling_is_number; [done|]. by apply (ok_long _ Hok _ _ Hx).
  - destruct (append_double_run W h d) as (e & He & Ht & Hcl). exists e. split; [eapply Hshow; [exact He|done]|].
    apply Hsays. intros v k [= <-] HW. destruct (double_is_number d _ Ht) as [v Hv]. split; [by eapply number_ascii_only|]. exists v. split; [by constructor|].
    intros [Hfin Hback]. split; [|by apply Hcl]. apply Hback. unfold double_text in Ht. rewrite Hfin in Ht. by rewrite <- Ht.
  - exists (text_effect (if b then bs "true" else bs "false")). split; [eapply Hshow; [apply runs_appendl|done]|].
    apply Hsays. intros v d [= <-] _. split; [apply literal_ascii; by destruct b|]. exists (PBool b). split; [|done]. destruct b; constructor.
  - destruct (string_says h s) as (e & He & Hs). exists e. split; [eapply Hshow; [exact He|done]|]. apply Hsays. by intros v d [= <-].
  - eexists. split; [eapply Hshow; [|done]; eapply runs_bind; [apply runs_warning|apply runs_appendl]|]. by apply Hsays.
Qed.

(** ** The members of a table *)

Lemma eff_app_none_r e : eff_app e no_effect = e.
Proof. destruct e. unfold eff_app. cbn. by rewrite !app_nil_r. Qed.
Lemma packed_snoc {A} (l : list (hkey * A)) k x : forall i,
  packed_from i (l ++ [(k, x)]) = packed_from i l && bool_decide (k = KInt (i + Z.of_nat (length l))).
Proof.
  induction l as [|[[j|s] y] l IH]; intros i; cbn [app packed_from length]; [|rewrite IH|done].
  - rewrite Z.add_0_r. destruct k as [j|s]; [|by rewrite bool_decide_false].
    rewrite andb_true_r. destruct (Z.eqb_spec j i); [subst; by rewrite bool_decide_true|by rewrite bool_decide_false by congruence].
  - rewrite andb_assoc. f_equal. apply bool_decide_ext. by replace (i + 1 + Z.of_nat (length l)) with (i + Z.of_nat (S (length l))) by lia.
Qed.
Lemma kv_set_fresh {A} k (x : A) (l : list (hkey * A)) : k ∉ l.*1 -> kv_set k x l = l ++ [(k, x)].
Proof. intros Hk. unfold kv_set. by rewrite (proj2 (kv_lookup_None _ _) Hk). Qed.

Section Members.
Context (enc : zaddr -> M (estate D) unit) (h : heap D).

(** Encoding the zval [z] from within its parent. *)
Definition child_ok z : Prop :=
  exists o h' e, HASH_OF h z = Ok o /\ runs h (add_nApplyCount o 1) tt no_effect h' /\
    runs h' (add_nApplyCount o (-1)) tt no_effect h /\ runs h' (enc z) tt e h' /\
    forall n v d, quiet h n -> erep h z v -> (height v <= n)%nat -> encodable v -> (height v <= d)%nat -> says d v e.

(** The conditions under which the members written stand for [l]. *)
Definition written_for (is_object : bool) (d : nat) ents l : Prop :=
  quiet h (kvheight l) /\ ereps h ents l /\ members_ok is_object l /\ (kvheight l <= d)%nat /\ NoDup ents.*1.

Lemma kvheight_app l l' : kvheight (l ++ l') = Nat.max (kvheight l) (kvheight l').
Proof. unfold kvheight. induction l as [|x l IH]; cbn; [done|]. rewrite IH. lia. Qed.
Lemma written_for_snoc io d pre k z l : written_for io d (pre ++ [(k, z)]) l ->
  exists l1 v, l = l1 ++ [(k, v)] /\ written_for io d pre l1 /\ erep h z v /\ (height v <= d)%nat /\
    quiet h (height v) /\ (hidden io k = true \/ (name_ok k /\ encodable v)) /\ k ∉ l1.*1.
Proof.
  intros (Hq & Hr & Hm & Hd & Hnd). apply Forall2_app_inv_l in Hr as (l1 & l2 & Hr1 & Hr2 & ->).
  apply Forall2_cons_inv_l in Hr2 as ([k' v] & l3 & [Hk Hv] & Hr2 & ->). apply Forall2_nil_inv_l in Hr2 as ->. cbn in Hk, Hv. subst k'.
  apply Forall_app in Hm as [Hm1 Hm2]. apply Forall_cons in Hm2 as [Hm2 _]. rewrite kvheight_app in Hq, Hd. cbn in Hq, Hd.
  rewrite fmap_app in Hnd. apply NoDup_app in Hnd as (Hnd1 & Hdis & _).
  assert (Hkeys : l1.*1 = pre.*1). { clear -Hr1. induction Hr1 as [|x y ents l [Hk _] _ IH]; [done|]. cbn. by f_equal. }
  exists l1, v. split_and!; [done| |done|lia|eapply quiet_le; [exact Hq|lia]|exact Hm2|].
  - split_and!; [eapply quiet_le; [exact Hq|lia]|done|done|lia|done].
  - rewrite Hkeys. intros Hin. apply (Hdis _ Hin). cbn. by left.
Qed.

(** A list: the elements up to here. *)
Definition list_so_far ents (nc : bool) e : Prop :=
  (ents = [] /\ nc = false /\ e = no_effect) \/
  (ents <> [] /\ nc = true /\ forall d l, Writes R W -> written_for false d ents l ->
     ascii_only (e_text e) /\ exists l', elements (zend_strtod R) assoc d (units (e_text e)) l' /\ length l' = length l /\
       (all_faithful l -> packed_from 0 l = true -> l' = l /\ clean e)).

Lemma list_member pre k z nc e : child_ok z -> list_so_far pre nc e ->
  exists nc' e', runs h (member R W display_errors enc options PHP_JSON_OUTPUT_ARRAY false k z nc) nc' e' h /\
    list_so_far (pre ++ [(k, z)]) nc' (eff_app e e').
Proof.
  intros (o & h' & e1 & Hof & Hin & Hout & He1 & Hsays) Hpre.
  exists true, (eff_app (text_effect (if nc then [Byte.x2c] else [])) e1). split.
  - unfold member, encode_member. apply runs_get. intros s ->. eapply runs_reading; [exact Hof|].
    eapply runs_then; [exact Hin|]. rewrite Z.eqb_refl. rewrite <- (eff_app_none_r (eff_app _ _)).
    eapply runs_bind; [|eapply runs_then; [exact Hout|apply runs_ret]].
    eapply runs_bind; [apply runs_comma|]. rewrite <- (eff_app_none_r e1). eapply runs_bind; [exact He1|apply runs_ret].
  - right. split; [by destruct pre|]. split; [done|]. intros d l HW Hw.
    destruct (written_for_snoc _ _ _ _ _ _ Hw) as (l1 & v & -> & Hw1 & Hv & Hd & Hq & Hm & _).
    assert (Henc : encodable v) by (destruct Hm as [Hm|[_ Hm]]; [done|done]).
    destruct (Hsays _ _ d Hq Hv ltac:(done) Henc Hd HW) as (Ha1 & v' & Hval & Hback).
    destruct Hpre as [(-> & -> & ->)|(Hne & -> & Hsofar)].
    + destruct Hw1 as (_ & Hr & _). apply Forall2_nil_inv_l in Hr as ->.
      split; [exact Ha1|]. exists [(KInt 0, v')]. change (text_effect (D := D) []) with (no_effect (D := D)). rewrite !eff_app_none. split.
      * rewrite <- (app_nil_r (units (e_text e1))). apply (elements_one _ _ d [] (units (e_text e1)) v' []); [constructor|done|constructor].
      * split; [done|]. intros [Hf _]%Forall_cons Hp. cbn in Hp. destruct (Hback Hf) as [-> Hcl].
        split; [|exact Hcl]. destruct k as [j|]; [|done]. cbn in Hp. replace j with 0 by lia. done.
    + destruct (Hsofar d l1 HW Hw1) as (Ha & l' & Hel & Hlen & Hall).
      split; [by repeat (apply Forall_app; split); [|by constructor|]|]. exists (l' ++ [(last_key l', v')]). split.
      * cbn [eff_app e_text text_effect]. rewrite !units_app. rewrite <- (app_nil_r (units (e_text e1))).
        apply (elements_more _ _ d _ _ [] (units (e_text e1)) v' []); [done|constructor|done|constructor].
      * split; [rewrite !length_app; cbn; lia|]. intros [Hf1 Hf]%Forall_app Hp. apply Forall_cons in Hf as [Hf _].
        rewrite packed_snoc in Hp. apply andb_true_iff in Hp as [Hp Hk%bool_decide_eq_true].
        destruct (Hall Hf1 Hp) as [-> Hcl]. destruct (Hback Hf) as [-> Hcl1]. split; [|by apply clean_app; [|apply clean_app]].
        unfold last_key. by rewrite Hk.
Qed.

(** The name of a member, and the key a decoder takes it for. *)
Definition named k e : Prop :=
  clean e /\ exists (l b : list byte) k', e_text e = quoted l /\ chars (units l) b /\ ascii_only l /\ member_key assoc b = Some k' /\ (key_back k -> k' = k).

Lemma no_numeric_check : has_flag (Z.land options (Z.lnot PHP_JSON_NUMERIC_CHECK)) PHP_JSON_NUMERIC_CHECK = false.
Proof.
  unfold has_flag. rewrite <- Z.land_assoc, (Z.land_comm (Z.lnot _)), Z.land_lnot_diag, Z.land_0_r. done.
Qed.
Lemma string_name_run (g : heap D) s : exists e,
  runs g (json_escape_string R W display_errors (name_of s) (Z.land options (Z.lnot PHP_JSON_NUMERIC_CHECK))) tt e g /\
  (name_ok (KStr s) -> named (KStr s) e).
Proof.
  destruct (escape_string_run R W display_errors g (Z.land options (Z.lnot PHP_JSON_NUMERIC_CHECK)) (name_of s)) as (e & He & Hcase).
  exists e. split; [done|]. intros [Hu Hk]. destruct Hcase as [(_ & Hcl & l & Ht & Hch & Ha)|[(Hno & _)|(Hf & _)]].
  - split; [done|]. destruct (member_key assoc (name_of s)) as [k'|] eqn:Ek; [|done]. exists l, (name_of s), k'. split_and!; try done.
    unfold key_back. by intros [= <-]%(eq_trans (eq_sym Ek)).
  - done.
  - by rewrite no_numeric_check in Hf.
Qed.
Lemma index_name_run (g : heap D) i : 0 <= i < 2 ^ 64 -> exists l : list byte, runs g (append_long (s64 i)) tt (text_effect l) g /\
  named (KInt i) (text_effect (quoted l)).
Proof.
  intros Hi. assert (Hr : long_range (s64 i)) by (unfold long_range, LONG_MIN, LONG_MAX, s64; Z.to_euclidean_division_equations; lia).
  destruct (append_long_run (D := D) (s64 i) Hr) as (l & (neg & ds & -> & Hc & Hv & Hz) & Hrun).
  exists (sign_bytes neg ++ ds). split; [apply Hrun|]. split; [done|].
  pose proof (spelling_chars neg ds Hc) as Hch.
  assert (Hu : u64 (s64 i) = i) by (unfold u64, s64; Z.to_euclidean_division_equations; lia).
  pose proof (spelling_key neg ds (s64 i) Hc Hv Hz Hr) as Hkey. rewrite Hu in Hkey.
  assert (Hmk : exists k', member_key assoc (sign_bytes neg ++ ds) = Some k' /\ (key_back (KInt i) -> k' = KInt i)).
  { unfold member_key, key_back. destruct assoc; [by exists (KInt i); rewrite Hkey|].
    destruct ds as [|c ds]; [done|]. unfold canonical in Hc. apply andb_true_iff in Hc as [Hd _]. cbn [forallb] in Hd.
    apply andb_true_iff in Hd as [Hd%digit_range _].
    destruct neg; cbn [sign_bytes app length]; rewrite (proj2 (Z.ltb_lt _ _)) by lia; rewrite decide_False; [by eexists|done|by eexists|].
    intros ->. cbn in Hd. lia. }
  destruct Hmk as (k' & Hk' & Hb). exists (sign_bytes neg ++ ds), (sign_bytes neg ++ ds), k'. split_and!; try done.
  eapply number_ascii_only, spelling_is_number; [by exists neg, ds|exact Hr].
Qed.

(** An object: the members up to here. *)
Definition object_so_far (io : bool) ents (nc : bool) e : Prop :=
  (nc = false /\ e = no_effect /\ Forall (fun kz => hidden io kz.1 = true) ents) \/
  (nc = true /\ forall d l, Writes R W -> written_for io d ents l ->
     ascii_only (e_text e) /\ exists l', members (zend_strtod R) assoc d (units (e_text e)) l' /\
       (all_faithful l -> Forall (fun kv => key_back kv.1) l -> (io = true -> assoc = false) -> l' = l /\ clean e)).

Lemma hidden_not_back io k : hidden io k = true -> (io = true -> assoc = false) -> ~ key_back k.
Proof.
  unfold hidden. intros [Hio Hk]%andb_true_iff Ha. specialize (Ha Hio). destruct k as [|[|c s]]; try done.
  assert (c = NUL) as -> by (apply uc_inj; change (uc NUL) with 0; lia).
  unfold key_back, member_key. rewrite Ha. by destruct s.
Qed.

(** A member is written: its name, and its value. *)
Lemma object_extended io pre k z nc e en e1 : object_so_far io pre nc e -> hidden io k = false ->
  (name_ok k -> named k en) ->
  (forall n v d, quiet h n -> erep h z v -> (height v <= n)%nat -> encodable v -> (height v <= d)%nat -> says d v e1) ->
  object_so_far io (pre ++ [(k, z)]) true
    (eff_app e (eff_app (text_effect (if nc then [Byte.x2c] else [])) (eff_app en (eff_app (text_effect [Byte.x3a]) e1)))).
Proof.
  intros Hpre Hhid Hname Hsays. right. split; [done|]. intros d l HW Hw.
  destruct (written_for_snoc _ _ _ _ _ _ Hw) as (l1 & v & -> & Hw1 & Hv & Hd & Hq & Hm & Hfresh).
  destruct Hm as [Hm|[Hok Henc]]; [by rewrite Hhid in Hm|].
  destruct (Hname Hok) as (Hcn & ln & b & k' & Htn & Hch & Han & Hmk & Hkb).
  destruct (Hsays _ _ d Hq Hv ltac:(done) Henc Hd HW) as (Ha1 & v' & Hval & Hback).
  assert (Htail : ascii_only (e_text en ++ [Byte.x3a] ++ e_text e1)).
  { rewrite Htn. apply Forall_app. split; [by apply quoted_ascii|]. by constructor. }
  assert (Hnm : name (units (e_text en ++ [Byte.x3a])) b).
  { rewrite Htn. unfold quoted. rewrite !units_app. rewrite <- !app_assoc.
    apply (name_intro [] (units ln) b [] []); [constructor|done|constructor|constructor]. }
  destruct Hpre as [(-> & -> & Hallhid)|(-> & Hsofar)].
  - split; [exact Htail|]. exists [(k', v')]. split.
    + change (e_text _) with (e_text en ++ [Byte.x3a] ++ e_text e1). rewrite app_assoc, units_app. rewrite <- (app_nil_r (units (e_text e1))).
      by apply (members_one _ _ d _ b k' (units (e_text e1)) v' []); [| | |constructor].
    + intros [_ [Hf _]%Forall_cons]%Forall_app [Hk1 [Hk _]%Forall_cons]%Forall_app Hio. destruct (Hback Hf) as [-> Hcl].
      rewrite (Hkb Hk). split; [|by repeat apply clean_app].
      destruct l1 as [|[k1 v1] l1]; [done|]. apply Forall_cons in Hk1 as [Hk1 _]. destruct Hw1 as (_ & Hr & _).
      apply Forall2_cons_inv_r in Hr as ([k2 z2] & ents & [Hkk _] & _ & ->). apply Forall_cons in Hallhid as [Hh _].
      cbn in *. subst k2. by destruct (hidden_not_back _ _ Hh Hio).
  - destruct (Hsofar d l1 HW Hw1) as (Ha & l' & Hmem & Hall).
    split; [apply Forall_app; split; [exact Ha|by constructor]|]. exists (kv_set k' v' l'). split.
    + change (e_text _) with (e_text e ++ [Byte.x2c] ++ e_text en ++ [Byte.x3a] ++ e_text e1).
      rewrite (app_assoc (e_text en)), units_app, (units_app [_]), (units_app (_ ++ _)). rewrite <- (app_nil_r (units (e_text e1))).
      by apply (members_more _ _ d _ _ _ b k' (units (e_text e1)) v' []); [| | | |constructor].
    + intros [Hf1 [Hf _]%Forall_cons]%Forall_app [Hk1 [Hk _]%Forall_cons]%Forall_app Hio. destruct (Hback Hf) as [-> Hcl].
      destruct (Hall Hf1 Hk1 Hio) as [-> Hcl1]. rewrite (Hkb Hk). split; [by apply kv_set_fresh|by repeat apply clean_app].
Qed.

Lemma object_member io pre k z nc e : child_ok z -> valid_key k -> object_so_far io pre nc e ->
  exists nc' e', runs h (member R W display_errors enc options PHP_JSON_OUTPUT_OBJECT io k z nc) nc' e' h /\
    object_so_far io (pre ++ [(k, z)]) nc' (eff_app e e').
Proof.
  intros (o & h' & e1 & Hof & Hin & Hout & He1 & Hsays) Hvk Hpre.
  assert (Hwrap : forall (c : M (estate D) bool) nc' e', runs h' c nc' e' h' ->
    runs h (s ← get_st; tmp_ht ← reading (fun _ => HASH_OF (hp s) z); add_nApplyCount tmp_ht 1;;
            need ← c; add_nApplyCount tmp_ht (-1);; mret need) nc' e' h).
  { intros c nc' e' Hc. apply runs_get. intros s ->. eapply runs_reading; [exact Hof|]. eapply runs_then; [exact Hin|].
    rewrite <- (eff_app_none_r e'). eapply runs_bind; [exact Hc|]. eapply runs_then; [exact Hout|apply runs_ret]. }
  assert (Hval : forall nc (c : M (estate D) unit) en, runs h' c tt en h' ->
    runs h' (comma_if nc;; c;; appendc 58;; enc z;; mret true) true
      (eff_app (text_effect (if nc then [Byte.x2c] else [])) (eff_app en (eff_app (text_effect [Byte.x3a]) e1))) h').
  { intros nc0 c en Hc. eapply runs_bind; [apply runs_comma|]. eapply runs_bind; [exact Hc|]. eapply runs_bind; [apply (runs_appendc _ 58)|].
    rewrite <- (eff_app_none_r e1). eapply runs_bind; [exact He1|apply runs_ret]. }
  destruct (hidden io k) eqn:Hhid.
  - exists nc, no_effect. rewrite eff_app_none_r. split.
    + apply Hwrap. pose proof Hhid as Hh. unfold hidden in Hh. apply andb_true_iff in Hh as [-> Hh].
      destruct k as [|[|c s]]; try done. cbn [key_type key_string]. change (PHP_JSON_OUTPUT_OBJECT =? PHP_JSON_OUTPUT_ARRAY) with false.
      change (HASH_KEY_IS_STRING =? HASH_KEY_IS_STRING) with true. cbv iota. eapply runs_reading; [done|]. rewrite Hh. apply runs_ret.
    + destruct Hpre as [(-> & -> & Hall)|(-> & Hsofar)]; [left|right]; (split; [done|]).
      * split; [done|]. apply Forall_app. split; [done|]. by apply Forall_singleton.
      * intros d l HW Hw. destruct (written_for_snoc _ _ _ _ _ _ Hw) as (l1 & v & -> & Hw1 & _).
        destruct (Hsofar d l1 HW Hw1) as (Ha & l' & Hmem & _). split; [done|]. exists l'. split; [done|].
        intros _ [_ [Hk _]%Forall_cons]%Forall_app Hio. by destruct (hidden_not_back _ _ Hhid Hio).
  - destruct k as [i|s].
    + destruct (index_name_run h' i Hvk) as (l & Hl & Hnm).
      exists true, (eff_app (text_effect (if nc then [Byte.x2c] else [])) (eff_app (text_effect (quoted l)) (eff_app (text_effect [Byte.x3a]) e1))). split.
      * apply Hwrap. change (PHP_JSON_OUTPUT_OBJECT =? PHP_JSON_OUTPUT_ARRAY) with false. cbn [key_type key_index].
        change (HASH_KEY_IS_LONG =? HASH_KEY_IS_STRING) with false. cbv iota.
        eapply runs_bind; [apply runs_comma|].
        assert (Heff : forall e, eff_app (text_effect (quoted l)) e =
          eff_app (text_effect [Byte.x22]) (eff_app (text_effect l) (eff_app (text_effect [Byte.x22]) e))).
        { intros e0. by rewrite !eff_app_assoc. }
        rewrite Heff. eapply runs_bind; [apply (runs_appendc h' 34)|]. eapply runs_bind; [exact Hl|].
        eapply runs_bind; [apply (runs_appendc h' 34)|]. eapply runs_bind; [apply (runs_appendc h' 58)|].
        rewrite <- (eff_app_none_r e1). eapply runs_bind; [exact He1|apply runs_ret].
      * by apply object_extended.
    + destruct s as [|c s]; [done|]. destruct (string_name_run h' (c :: s)) as (en & Hen & Hnm).
      exists true, (eff_app (text_effect (if nc then [Byte.x2c] else [])) (eff_app en (eff_app (text_effect [Byte.x3a]) e1))). split.
      * apply Hwrap. change (PHP_JSON_OUTPUT_OBJECT =? PHP_JSON_OUTPUT_ARRAY) with false. cbn [key_type key_string].
        change (HASH_KEY_IS_STRING =? HASH_KEY_IS_STRING) with true. cbv iota. eapply runs_reading; [done|].
        unfold hidden in Hhid. rewrite andb_comm in Hhid. rewrite Hhid.
        replace (Z.to_nat (Z.of_nat (length (c :: s)) - 1)) with (length (c :: s) - 1)%nat by lia. by apply Hval.
      * by apply object_extended.
Qed.
End Members.

(** ** Arrays and objects *)

(** [json_encode_array] once it has decided how to write the table [t]. *)
Definition array_body (enc : zaddr -> M (estate D) unit) (r : Z) (io : bool) ref (t : table) : M (estate D) unit :=
  if 1 <? nApplyCount (ht t) then php_error_docref Recursion_detected;; smart_str_appendl (bs "null")
  else
    appendc (if r =? PHP_JSON_OUTPUT_ARRAY then 91 else 123);;
    (if 0 <? zend_hash_num_elements t then
       '(pos, _) ← reading (fun _ => zend_hash_internal_pointer_reset_ex (Some None) t);
       encode_members R W display_errors enc options r io ref (walk_fuel t) pos false
     else mret tt);;
    appendc (if r =? PHP_JSON_OUTPUT_ARRAY then 93 else 125).
Definition output_as {A} (io : bool) (ents : list (hkey * A)) : Z :=
  if io then PHP_JSON_OUTPUT_OBJECT else if force then PHP_JSON_OUTPUT_OBJECT
  else if packed_from 0 ents then PHP_JSON_OUTPUT_ARRAY else PHP_JSON_OUTPUT_OBJECT.
(** The zval of a table: an array, or an object. *)
Definition container_at h z ref (io : bool) : Prop :=
  if io then exists i, cells h !! z = Some (VObject i) /\ ref = OfObject i
  else exists t, cells h !! z = Some (VArray t) /\ ref = OfCell z.
Lemma container_of h z ref : HASH_OF h z = Ok (Some ref) -> exists io, container_at h z ref io.
Proof.
  unfold HASH_OF, cell_at. destruct (cells h !! z) as [[]|] eqn:E; try done; intros [= <-]; [exists false|exists true]; cbn; by eexists.
Qed.
Lemma encode_array_body fuel h z ref io t ents next e : container_at h z ref io -> table_at h ref = Ok t -> tb t ents next ->
  Z.of_nat (length ents) < 2 ^ 32 ->
  runs h (array_body (php_json_encode R W display_errors fuel options) (output_as io ents) io ref t) tt e h ->
  runs h (php_json_encode R W display_errors (S fuel) options z) tt e h.
Proof.
  intros Hc Hat Htb Hl He. cbn [php_json_encode]. apply runs_get. intros s ->.
  assert (Hv : exists x, cells h !! z = Some x /\ HASH_OF h z = Ok (Some ref) /\
    match x with VObject _ => io = true | VArray _ => io = false | _ => False end).
  { unfold HASH_OF, cell_at. destruct io; cbn in Hc; [destruct Hc as (i & Hc & ->)|destruct Hc as (t' & Hc & ->)]; rewrite Hc; by eexists. }
  destruct Hv as (x & Hx & Hof & Hio). assert (Hcell : cell_at h z = Ok x) by (unfold cell_at; by rewrite Hx).
  assert (Harr : runs h (json_encode_array R W display_errors (php_json_encode R W display_errors fuel options) options z) tt e h).
  { unfold json_encode_array. apply runs_get. intros s1 ->. eapply runs_reading; [exact Hcell|]. eapply runs_reading; [exact Hof|].
    cbv beta iota zeta. replace (match x with VObject _ => true | _ => false end) with io by (by destruct x).
    eapply runs_then with (a := output_as io ents) (h1 := h).
    { unfold output_as. destruct io; [apply runs_ret|]. destruct force; [apply runs_ret|].
      intros s2 Hs2. unfold reading. rewrite (array_type_run _ _ _ _ _ _ Hof Hat Htb Hl). unfold after. cbn. rewrite !app_nil_r, <- Hs2. by destruct s2. }
    eapply runs_reading; [exact Hat|]. exact He. }
  eapply runs_reading; [exact Hcell|]. by destruct x.
Qed.

(** A table that is being encoded already is not entered a second time. *)
Lemma refused_run fuel h z ref t ents next : HASH_OF h z = Ok (Some ref) -> table_at h ref = Ok t -> tb t ents next ->
  Z.of_nat (length ents) < 2 ^ 32 -> 1 < count_of t ->
  exists e, runs h (php_json_encode R W display_errors (S fuel) options z) tt e h.
Proof.
  intros Hof Hat Htb Hl Hc. destruct (container_of _ _ _ Hof) as [io Hio]. eexists.
  eapply encode_array_body; [exact Hio|exact Hat|exact Htb|exact Hl|]. unfold array_body.
  rewrite (proj2 (Z.ltb_lt 1 _)) by exact Hc. eapply runs_bind; [apply runs_warning|apply runs_appendl].
Qed.

(** The elements of a table, through the loop. *)
Lemma members_all enc h ref t ents next r io (I : list (hkey * zaddr) -> bool -> effect D -> Prop) :
  table_at h ref = Ok t -> tb t ents next -> Z.of_nat (length ents) < 2 ^ 32 -> count_of t <= 1 ->
  I [] false no_effect ->
  (forall pre k z post nc e, ents = pre ++ (k, z) :: post -> valid_key k -> I pre nc e ->
     exists nc' e', runs h (member R W display_errors enc options r io k z nc) nc' e' h /\ I (pre ++ [(k, z)]) nc' (eff_app e e')) ->
  exists nc e, I ents nc e /\ runs h (array_body enc r io ref t) tt
    (eff_app (text_effect [to_byte (if r =? PHP_JSON_OUTPUT_ARRAY then 91 else 123)])
       (eff_app e (text_effect [to_byte (if r =? PHP_JSON_OUTPUT_ARRAY then 93 else 125)]))) h.
Proof.
  intros Hat [w [[l Hrep] _ _ _ _]] Hl Hc HI Hstep. cbn [entries] in Hrep.
  assert (Hlen : length l = length ents) by apply (Forall2_length _ _ _ (r_holds _ _ _ _ Hrep)).
  assert (Hloop : exists nc e, I ents nc e /\ runs h
    (if 0 <? zend_hash_num_elements t then
       '(pos, _) ← reading (fun _ => zend_hash_internal_pointer_reset_ex (Some None) t);
       encode_members R W display_errors enc options r io ref (walk_fuel t) pos false
     else mret tt) tt e h).
  { unfold zend_hash_num_elements. rewrite (r_count _ _ _ _ Hrep), Hlen. unfold u32. rewrite Z.mod_small by lia.
    destruct (Z.ltb_spec 0 (Z.of_nat (length ents))).
    - destruct (encode_members_run R W display_errors enc options r io ref h t l ents _ I Hat Hrep Hstep l (walk_fuel t) [] false no_effect)
        as (nc & e & Hr & HI'); [done|by eapply walk_fuel_enough|done|].
      exists nc, e. rewrite eff_app_none in HI'. split; [done|]. eapply runs_reading; [done|]. cbv beta iota.
      by rewrite (r_head _ _ _ _ (Hrep : reprn _ _ _ _)).
    - destruct ents; [|cbn in *; lia]. exists false, no_effect. split; [done|apply runs_ret]. }
  destruct Hloop as (nc & e & HI' & Hr). exists nc, e. split; [done|]. unfold array_body.
  rewrite (proj2 (Z.ltb_ge 1 _)) by exact Hc. eapply runs_bind; [apply runs_appendc|]. eapply runs_bind; [exact Hr|]. apply runs_appendc.
Qed.

Lemma packed_keys {A B} (ents : list (hkey * A)) (l : list (hkey * B)) i : ents.*1 = l.*1 -> packed_from i ents = packed_from i l.
Proof.
  revert l i. induction ents as [|[k x] ents IH]; intros [|[k' y] l] i Hk; try done. cbn in Hk. injection Hk as -> Hk.
  destruct k'; [|done]. cbn. by rewrite (IH l).
Qed.
Lemma ereps_keys h ents l : ereps h ents l -> ents.*1 = l.*1.
Proof. induction 1 as [|x y ents l [Hk _] _ IH]; [done|]. cbn. by f_equal. Qed.

(** A list in brackets. *)
Lemma list_says h d ents l nc e : list_so_far h ents nc e -> written_for h false d ents l -> packed_from 0 ents = true ->
  says (S d) (PArray l) (eff_app (text_effect [to_byte 91]) (eff_app e (text_effect [to_byte 93]))).
Proof.
  intros Hall Hw Hp HW. destruct Hall as [(-> & -> & ->)|(Hne & -> & Hall)].
  - destruct Hw as (_ & Hr & _). apply Forall2_nil_inv_l in Hr as ->. split; [by apply literal_ascii|]. exists (PArray []). split; [|done].
    by apply (value_array_nil _ _ d []); constructor.
  - destruct (Hall d l HW Hw) as (Ha & l' & Hel & _ & Hback).
    split; [constructor; [done|]; apply Forall_app; split; [exact Ha|by constructor]|]. exists (PArray l'). split.
    + cbn [eff_app e_text text_effect]. rewrite !units_app. by apply (value_array _ _ d (units (e_text e))).
    + intros [_ Hf%foldr_Forall]. destruct Hw as (_ & Hr & _). rewrite (packed_keys ents l) in Hp by by eapply ereps_keys.
      destruct (Hback Hf Hp) as [-> Hcl]. split; [done|]. by repeat apply clean_app.
Qed.
(** Members in braces. *)
Lemma object_says h (io : bool) d ents l nc e : object_so_far h io ents nc e -> written_for h io d ents l ->
  (io = false -> faithful (PArray l) -> assoc = true /\ Forall (fun kv => key_back kv.1) l) ->
  says (S d) (if io then PObject l else PArray l) (eff_app (text_effect [to_byte 123]) (eff_app e (text_effect [to_byte 125]))).
Proof.
  intros Hall Hw Harr HW. set (v := if io then PObject l else PArray l).
  assert (Hv : faithful v -> object_of assoc l = v /\ Forall (fun kv => key_back kv.1) l /\ all_faithful l /\ (io = true -> assoc = false)).
  { unfold v. destruct io.
    - intros [[Ha Hk] Hf%foldr_Forall]. unfold object_of. by rewrite Ha.
    - intros Hf. destruct (Harr eq_refl Hf) as [Ha Hk]. unfold object_of. rewrite Ha. destruct Hf as [_ Hf%foldr_Forall]. done. }
  destruct Hall as [(-> & -> & Hhid)|(-> & Hall)].
  - split; [by apply literal_ascii|]. exists (object_of assoc []). split; [by apply (value_object_nil _ _ d []); constructor|].
    intros Hf. destruct (Hv Hf) as (Ho & Hk & _ & Hio). destruct Hw as (_ & Hr & _). split; [|done]. rewrite <- Ho. f_equal.
    destruct l as [|[k x] l]; [done|]. apply Forall2_cons_inv_r in Hr as ([k' z] & ents' & [Hkk _] & _ & ->). cbn in Hkk. subst k'.
    apply Forall_cons in Hhid as [Hh _], Hk as [Hk _]. by destruct (hidden_not_back _ _ Hh Hio).
  - destruct (Hall d l HW Hw) as (Ha & l' & Hm & Hback).
    split; [constructor; [done|]; apply Forall_app; split; [exact Ha|by constructor]|]. exists (object_of assoc l'). split.
    + cbn [eff_app e_text text_effect]. rewrite !units_app. by apply (value_object _ _ d (units (e_text e))).
    + intros Hf. destruct (Hv Hf) as (Ho & Hk & Haf & Hio). destruct (Hback Haf Hk Hio) as [-> Hcl]. split; [done|].
      by repeat apply clean_app.
Qed.

(** What the encoder does at [z], in the store [h]. *)
Definition speaks h z e : Prop :=
  forall v d, erep h z v -> quiet h (pred (height v)) -> encodable v -> (height v <= d)%nat -> says d v e.
Definition speaks_at (fuel : nat) : Prop := forall h z ref t, heap_ok h -> HASH_OF h z = Ok (Some ref) -> table_at h ref = Ok t ->
  count_of t <= 1 -> (2 + idle_tables h <= fuel)%nat ->
  exists e, runs h (php_json_encode R W display_errors fuel options z) tt e h /\ speaks h z e.

Lemma table_of h z ref : heap_ok h -> HASH_OF h z = Ok (Some ref) -> exists t, table_at h ref = Ok t.
Proof.
  intros Hok Hof. destruct (container_of _ _ _ Hof) as [[] Hc]; cbn in Hc.
  - destruct Hc as (i & Hz & ->). destruct (lookup_lt_is_Some_2 _ _ (ok_object _ Hok _ _ Hz)) as [t Ht]. exists t. cbn. by rewrite Ht.
  - destruct Hc as (t & Hz & ->). exists t. cbn. by rewrite Hz.
Qed.
Lemma erep_table h z ref io v : container_at h z ref io -> erep h z v ->
  exists l, v = (if io then PObject l else PArray l) /\ holds_kvs h ref l.
Proof.
  intros Hc Hv. assert (Hof : HASH_OF h z = Ok (Some ref)).
  { unfold HASH_OF, cell_at. destruct io; cbn in Hc; [destruct Hc as (i & Hc & ->)|destruct Hc as (t' & Hc & ->)]; by rewrite Hc. }
  assert (Hl : exists l, v = (if io then PObject l else PArray l)).
  { destruct Hv as [z x v Hz Hx|z t ents next l Hz|z i t ents next l Hz]; destruct io; destruct Hc as (y & Hy & _); rewrite Hz in Hy;
      simplify_eq; try done; by eexists. }
  destruct Hl as [l ->]. exists l. split; [done|]. eapply erep_holds; [exact Hv|exact Hof|]. destruct io; auto.
Qed.
Lemma kvheight_below (io : bool) l n : (height (if io then PObject l else PArray l) <= n)%nat -> (S (kvheight l) <= n)%nat.
Proof. by destruct io. Qed.

(** The elements of a table are encoded, or refused. *)
Lemma child_runs fuel h z : speaks_at (S fuel) -> heap_ok h -> (z < length (cells h))%nat -> (idle_tables h <= fuel)%nat ->
  child_ok (php_json_encode R W display_errors (S fuel) options) h z.
Proof.
  intros IH Hok Hz Hf. destruct (HASH_OF h z) as [[ref|]|] eqn:Hof.
  - destruct (table_of _ _ _ Hok Hof) as [t Hat]. destruct (ok_table _ Hok _ _ Hat) as (ents & next & Htb & Hl & _ & Hc).
    destruct (enter_run h ref t Hat Hc) as [Hin Hout]. set (h' := entered ref t h) in *.
    pose proof (entered_similar h ref t Hat) as Hsim. fold h' in Hsim.
    assert (Hof' : HASH_OF h' z = Ok (Some ref)) by (by rewrite (similar_HASH_OF h h')).
    assert (Hat' : table_at h' ref = Ok (recount (count_of t + 1) t)) by (unfold h'; by rewrite entered_at, decide_True).
    destruct (container_of _ _ _ Hof) as [io Hio].
    destruct (decide (count_of t = 0)) as [H0|H0].
    + destruct (IH h' z ref (recount (count_of t + 1) t)) as (e & He & Hsp); [apply entered_ok; [done|done|lia]|done|exact Hat'|rewrite count_recount; lia| |].
      { pose proof (idle_entered h ref t Hat H0). fold h' in H. lia. }
      exists (Some ref), h', e. do 4 (split; [done|]). intros n v d Hq Hv Hn Henc Hd. apply Hsp; [by eapply erep_similar| |done|done].
      destruct (erep_table _ _ _ _ _ Hio Hv) as (l & -> & Hh). apply kvheight_below in Hn.
      replace (pred (height (if io then PObject l else PArray l))) with (kvheight l) by (by destruct io).
      apply quiet_entered; [done|done|]. eapply quiet_le; [exact Hq|lia].
    + destruct (refused_run fuel h' z ref (recount (count_of t + 1) t) ents next Hof' Hat') as (e & He); [by apply tb_recount|done|rewrite count_recount; lia|].
      exists (Some ref), h', e. do 4 (split; [done|]). intros n v d Hq Hv Hn _ _. exfalso. apply H0.
      destruct (erep_table _ _ _ _ _ Hio Hv) as (l & -> & Hh). apply kvheight_below in Hn. by apply (Hq ref l t Hh).
  - destruct (scalar_run fuel h z Hok Hz Hof) as (e & He & Hs).
    exists None, h, e. do 2 (split; [first [done|apply runs_ret]|]). split; [apply runs_ret|]. split; [done|]. intros n v d _ Hv _ _ _. by apply Hs.
  - unfold HASH_OF, cell_at in Hof. destruct (lookup_lt_is_Some_2 _ _ Hz) as [x Hx]. by rewrite Hx in Hof.
Qed.

Lemma container_runs fuel : speaks_at fuel.
Proof.
  induction fuel as [|[|fuel] IH]; intros h z ref t Hok Hof Hat Hc Hf; [lia..|].
  destruct (ok_table _ Hok _ _ Hat) as (ents & next & Htb & Hl & Hvalid & _). destruct (container_of _ _ _ Hof) as [io Hio].
  assert (Hchild : forall pre k y post, ents = pre ++ (k, y) :: post -> child_ok (php_json_encode R W display_errors (S fuel) options) h y).
  { intros pre k y post He. apply child_runs; [exact IH|done| |lia]. apply (Hvalid k). rewrite He. apply elem_of_app. right. by left. }
  assert (Hw : forall v d, erep h z v -> quiet h (pred (height v)) -> encodable v -> (height v <= S d)%nat ->
    exists l, v = (if io then PObject l else PArray l) /\ written_for h io d ents l).
  { intros v d Hv Hq Henc Hd. destruct (erep_table _ _ _ _ _ Hio Hv) as (l & -> & Hh). exists l. split; [done|].
    destruct Hh as (t' & ents' & next' & Hat' & Htb' & Hr). rewrite Hat in Hat'. injection Hat' as <-.
    rewrite (tb_fun _ _ _ _ _ Htb' Htb) in Hr. apply kvheight_below in Hd.
    replace (pred _) with (kvheight l) in Hq by (by destruct io). split_and!; [done|done| |lia|].
    - destruct io; [by apply encodable_object|by apply encodable_array].
    - destruct Htb as [w [[lb Hrep] _ _ _ _]]. exact (r_keys _ _ _ _ Hrep). }
  destruct (Z.eqb_spec (output_as io ents) PHP_JSON_OUTPUT_ARRAY) as [Hr|Hr].
  - assert (Hp : io = false /\ packed_from 0 ents = true).
    { unfold output_as in Hr. destruct io; [done|]. destruct force; [done|]. by destruct (packed_from 0 ents). }
    destruct Hp as [-> Hp].
    destruct (members_all (php_json_encode R W display_errors (S fuel) options) h ref t ents next PHP_JSON_OUTPUT_ARRAY false (list_so_far h))
      as (nc & e & HI & Hrun); [done|done|done|done|by left| |].
    { intros pre k y post nc e He _ HI. apply list_member; [by eapply Hchild|done]. }
    eexists. split; [eapply encode_array_body; [exact Hio|exact Hat|exact Htb|exact Hl|]; rewrite Hr; exact Hrun|].
    intros v [|d] Hv Hq Henc Hd; [destruct (erep_table _ _ _ _ _ Hio Hv) as (l & -> & _); cbn in Hd; lia|].
    destruct (Hw v d Hv Hq Henc Hd) as (l & -> & Hwf). by eapply list_says.
  - assert (Ho : output_as io ents = PHP_JSON_OUTPUT_OBJECT).
    { unfold output_as in *. destruct io, force, (packed_from 0 ents); done. }
    destruct (members_all (php_json_encode R W display_errors (S fuel) options) h ref t ents next PHP_JSON_OUTPUT_OBJECT io (object_so_far h io))
      as (nc & e & HI & Hrun); [done|done|done|done|by left| |].
    { intros pre k y post nc e He Hvk HI. apply object_member; [by eapply Hchild|done|done]. }
    eexists. split; [eapply encode_array_body; [exact Hio|exact Hat|exact Htb|exact Hl|]; rewrite Ho; exact Hrun|].
    intros v [|d] Hv Hq Henc Hd; [destruct (erep_table _ _ _ _ _ Hio Hv) as (l & -> & _); destruct io; cbn in Hd; lia|].
    destruct (Hw v d Hv Hq Henc Hd) as (l & -> & Hwf). eapply object_says; [exact HI|exact Hwf|].
    intros -> [[[Hp Hfo]|Hk] _]; [|done]. destruct Hwf as (_ & Hrep & _).
    unfold output_as in Hr. rewrite Hfo, (packed_keys ents l), Hp in Hr by by eapply ereps_keys. done.
Qed.
End Value.
