(* ===== verification/ZendList.v ===== *)
(** * Zend/zend_list.c, Zend/zend_list.h: resource lists

    A resource is a number that scripts hold; the number is a key of
    [EG(regular_list)], a hash table of [zend_rsrc_list_entry].  The type of
    an entry is a key of the table [list_destructors], which says how
    resources of that type are destroyed.  The destructor of the first table,
    [list_entry_destructor], looks into the second: its environment
    ([renv]) holds that table.  [X] is the rest of the program's state, which
    the functions registered by the modules change; they do not call the
    resource lists again.

    [zend_clean_module_rsrc_dtors], an apply function on [list_destructors]
    that reads [list_destructors] itself, is left out. *)

From S2P Require Import Prelude Dll ZendHash.
Open Scope Z_scope.

Definition ZEND_RESOURCE_LIST_TYPE_STD : Z := 1.
Definition ZEND_RESOURCE_LIST_TYPE_EX : Z := 2.
Definition IS_RESOURCE : Z := 7.

(** [void *ptr] is an address, 0 being NULL. *)
Record zend_rsrc_list_entry : Type := mkLe { le_ptr : Z; le_type : Z; le_refcount : Z }.
Definition set_le_refcount (n : Z) (le : zend_rsrc_list_entry) : zend_rsrc_list_entry :=
  mkLe (le_ptr le) (le_type le) n.
Definition sizeof_zend_rsrc_list_entry : Z := 16.

(** [F]: function pointers. *)
Record zend_rsrc_list_dtors_entry (F : Type) : Type := mkLd {
  list_dtor : option F;
  plist_dtor : option F;
  list_dtor_ex : option F;
  plist_dtor_ex : option F;
  type_name : option (list byte);
  module_number : Z;
  resource_id : Z;
  ld_type : Z
}.
Arguments mkLd {F}. Arguments list_dtor {F}. Arguments plist_dtor {F}. Arguments list_dtor_ex {F}.
Arguments plist_dtor_ex {F}. Arguments type_name {F}. Arguments module_number {F}.
Arguments resource_id {F}. Arguments ld_type {F}.
Definition sizeof_zend_rsrc_list_dtors_entry : Z := 56.

(** The table of the types, the rest of the state, and the fault a callback
    has run into, if any. *)
Record renv (F X : Type) : Type := REnv {
  list_destructors : hstate (zend_rsrc_list_dtors_entry F) unit;
  rest : X;
  callback_fault : option fault
}.
Arguments REnv {F X}. Arguments list_destructors {F X}. Arguments rest {F X}. Arguments callback_fault {F X}.

Section ResourceLists.
Context {F X : Type} `{Allocator}.
Implicit Types (le : zend_rsrc_list_entry) (ld : zend_rsrc_list_dtors_entry F) (w : renv F X).

(** What a registered destructor does, old style and new style, and a warning
    about an entry of unknown type. *)
Context (call_old : F -> Z -> X -> X) (call_ex : F -> zend_rsrc_list_entry -> X -> X)
        (warn_unknown : Z -> X -> X).

(** The table of the types and the regular list are [HashTable]s. *)
Definition types : Type := hstate (zend_rsrc_list_dtors_entry F) unit.
Definition resources : Type := hstate zend_rsrc_list_entry (renv F X).

Definition set_rest (x : X) w : renv F X := REnv (list_destructors w) x (callback_fault w).
Definition set_fault (e : fault) w : renv F X := REnv (list_destructors w) (rest w) (Some e).

(** [zend_hash_index_find(&list_destructors, type, (void** ) &ld)] and the
    entry found; [type], an [int], is converted to [ulong]. *)
Definition find_type (type : Z) (t : types) : res (option (zend_rsrc_list_dtors_entry F)) :=
  p ← zend_hash_index_find (u64 type) t;
  match p with
  | None => Ok None
  | Some _ => b ← deref p t; Ok (Some (data_value (pData b)))
  end.

(** The common text of the two destructors: [old] and [ex] are the fields
    they read. *)
Definition entry_destructor (old ex : zend_rsrc_list_dtors_entry F -> option F) le w : renv F X :=
  match find_type (le_type le) (list_destructors w) with
  | Err e => set_fault e w
  | Ok (Some ld) =>
      if ld_type ld =? ZEND_RESOURCE_LIST_TYPE_STD then
        match old ld with Some f => set_rest (call_old f (le_ptr le) (rest w)) w | None => w end
      else if ld_type ld =? ZEND_RESOURCE_LIST_TYPE_EX then
        match ex ld with Some f => set_rest (call_ex f le (rest w)) w | None => w end
      else w
  | Ok None => set_rest (warn_unknown (le_type le) (rest w)) w
  end.
Definition list_entry_destructor : zend_rsrc_list_entry -> renv F X -> renv F X :=
  entry_destructor list_dtor list_dtor_ex.
Definition plist_entry_destructor : zend_rsrc_list_entry -> renv F X -> renv F X :=
  entry_destructor plist_dtor plist_dtor_ex.

(** ** Creation and destruction of the lists *)

Definition zend_init_rsrc_list (w : renv F X) : Z * resources :=
  let '(r, s) := zend_hash_init 0 (Some list_entry_destructor) false ∅ w in
  if r =? SUCCESS then (SUCCESS, upd_ht (set_nNextFreeElement 1) s) else (FAILURE, s).
Definition zend_init_rsrc_plist (w : renv F X) : Z * resources :=
  zend_hash_init_ex 0 (Some plist_entry_destructor) true false ∅ w.
Definition zend_destroy_rsrc_list : M resources unit := zend_hash_graceful_reverse_destroy.

Definition zend_init_rsrc_list_dtors : Z * types :=
  let '(r, s) := zend_hash_init 50 None true ∅ tt in
  (r, upd_ht (set_nNextFreeElement 1) s).
Definition zend_destroy_rsrc_list_dtors : M types unit := zend_hash_destroy.

(** ** Types *)

Definition register_entry (lde : Z -> zend_rsrc_list_dtors_entry F) : M types Z :=
  s ← get_st;
  '(r, _) ← zend_hash_next_index_insert (lde (s32 (nNextFreeElement (ht s))))
              sizeof_zend_rsrc_list_dtors_entry;
  if r =? FAILURE then mret FAILURE
  else s ← get_st; mret (s32 (u64 (nNextFreeElement (ht s) - 1))).
Definition zend_register_list_destructors (ld pld : option F) (module : Z) : M types Z :=
  register_entry (fun id => mkLd ld pld None None None module id ZEND_RESOURCE_LIST_TYPE_STD).
Definition zend_register_list_destructors_ex (ld pld : option F) (name : option (list byte)) (module : Z)
    : M types Z :=
  register_entry (fun id => mkLd None None ld pld name module id ZEND_RESOURCE_LIST_TYPE_EX).

(** The type names are C strings, given here without their NUL:
    [strcmp(a, b) == 0] is equality. *)
Fixpoint fetch_loop (fuel : nat) (name : list byte) (pos : option ptr) : M types Z :=
  match fuel with
  | O => throw OutOfFuel
  | S fuel' =>
      '(r, p) ← reading (fun t => Ok (zend_hash_get_current_data_ex pos t));
      if r =? SUCCESS then
        b ← reading (deref p);
        let lde := data_value (pData b) in
        if match type_name lde with Some n => bool_decide (name = n) | None => false end
        then mret (resource_id lde)
        else '(_, pos) ← zend_hash_move_forward_ex pos; fetch_loop fuel' name pos
      else mret 0
  end.
Definition zend_fetch_list_dtor_id (name : list byte) : M types Z :=
  pos ← zend_hash_internal_pointer_reset_ex (Some None);
  t ← get_st;
  fetch_loop (walk_fuel t) name pos.

(** ** Resources *)

Definition zend_list_insert (p type : Z) : M resources Z :=
  s ← get_st;
  let index := s32 (zend_hash_next_free_element s) in
  zend_hash_index_update (u64 index) (mkLe p type 1) sizeof_zend_rsrc_list_entry;;
  mret index.

(** [zend_hash_index_find(&EG(regular_list), id, (void** ) &le)]: the address
    of the bucket the entry is in, and the entry. *)
Definition find_entry (id : Z) (s : resources) : res (option (ptr * zend_rsrc_list_entry)) :=
  p ← zend_hash_index_find (u64 id) s;
  match p with
  | None => Ok None
  | Some _ => b ← deref p s; Ok (Some (p, data_value (pData b)))
  end.
(** [le->refcount = n]. *)
Definition set_refcount (p : ptr) (n : Z) : M resources unit :=
  assign p (fun b => set_pData (data_set (set_le_refcount n (data_value (pData b))) (pData b)) b).

Definition _zend_list_delete (id : Z) : M resources Z :=
  found ← reading (find_entry id);
  match found with
  | Some (p, le) =>
      set_refcount p (s32 (le_refcount le - 1));;
      if s32 (le_refcount le - 1) <=? 0 then zend_hash_index_del (u64 id)
      else mret SUCCESS
  | None => mret FAILURE
  end.

(** The pointer and [*type]. *)
Definition _zend_list_find (id : Z) (s : resources) : res (Z * Z) :=
  found ← find_entry id s;
  match found with
  | Some (_, le) => Ok (le_ptr le, le_type le)
  | None => Ok (0, -1)
  end.

Definition _zend_list_addref (id : Z) : M resources Z :=
  found ← reading (find_entry id);
  match found with
  | Some (p, le) => set_refcount p (s32 (le_refcount le + 1));; mret SUCCESS
  | None => mret FAILURE
  end.

(** A [zval], as far as resources go. *)
Record zval : Type := mkZval { lval : Z; ztype : Z }.
Definition zend_register_resource (rsrc_result : option zval) (rsrc_pointer rsrc_type : Z)
    : M resources (Z * option zval) :=
  rsrc_id ← zend_list_insert rsrc_pointer rsrc_type;
  mret (rsrc_id, match rsrc_result with Some _ => Some (mkZval rsrc_id IS_RESOURCE) | None => None end).

(** The warnings of [zend_fetch_resource], raised when the caller has given a
    name of the type. *)
Inductive fetch_warning : Type :=
  | NoResourceSupplied (name : list byte)
  | SuppliedArgumentNotValid (name : list byte)
  | NotAValidResource (id : Z) (name : list byte)
  | SuppliedResourceNotValid (name : list byte).
(** The resource ([0] for NULL), [*found_resource_type] when it is set, and
    the warning raised. *)
Definition fetched : Type := Z * option Z * option fetch_warning.
Definition warned (name : option (list byte)) (warn : list byte -> fetch_warning) : fetched :=
  (0, None, warn <$> name).
Definition zend_fetch_resource (passed_id : option zval) (default_id : Z) (name : option (list byte))
    (want_type : bool) (resource_types : list Z) (s : resources) : res fetched :=
  let fetch (id : Z) : res fetched :=
    '(resource, actual_resource_type) ← _zend_list_find id s;
    if resource =? 0 then Ok (warned name (NotAValidResource id))
    else if existsb (Z.eqb actual_resource_type) resource_types then
      Ok (resource, if want_type then Some actual_resource_type else None, None)
    else Ok (warned name SuppliedResourceNotValid) in
  if default_id =? -1 then
    match passed_id with
    | None => Ok (warned name NoResourceSupplied)
    | Some z =>
        if negb (ztype z =? IS_RESOURCE) then Ok (warned name SuppliedArgumentNotValid)
        else fetch (s32 (lval z))
    end
  else fetch default_id.

(** The name of the type, when it has one. *)
Definition zend_rsrc_list_get_rsrc_type (resource : Z) (s : resources) : res (option (list byte)) :=
  '(p, rsrc_type) ← _zend_list_find resource s;
  if p =? 0 then Ok None
  else
    ld ← find_type rsrc_type (list_destructors (env s));
    match ld with
    | Some lde => Ok (type_name lde)
    | None => Ok None
    end.
End ResourceLists.
