(* ===== verification/ZendListSpec.v ===== *)
(** * The resource lists: numbers, reference counts, types

    The abstract state of a resource list is its live entries in the order of
    creation, with the next number ([manager]); [manages s m] relates a list
    to it.  The types are a sequence of entries numbered from 1
    ([type_table]). *)

From S2P Require Import Prelude Dll ZendHash ZendHashInv ZendHashSteps ZendHashOps ZendHashIter ZendHashBulk ZendHashOrder ZendHashCursor ZendHashNumeric ZendHashRefine ZendHashClient ZendList.
Open Scope Z_scope.

(** ** Resources *)

Notation le := zend_rsrc_list_entry.

(** The live resources, by number, in the order of creation. *)
Fixpoint live_at (id : Z) (l : list (Z * le)) : option le :=
  match l with
  | [] => None
  | (i, e) :: l' => if i =? id then Some e else live_at id l'
  end.
Definition live_set (id : Z) (e : le) (l : list (Z * le)) : list (Z * le) :=
  (fun x => if x.1 =? id then (id, e) else x) <$> l.
Definition live_drop (id : Z) (l : list (Z * le)) : list (Z * le) :=
  List.filter (fun x => negb (x.1 =? id)) l.
Definition keyed (l : list (Z * le)) : list (hkey * le) := (fun x => (KInt x.1, x.2)) <$> l.

Lemma keyed_lookup id l : kv_lookup (KInt id) (keyed l) = live_at id l.
Proof.
  induction l as [|[i e] l IH]; simpl; [done|].
  case_decide as Hd; destruct (Z.eqb_spec i id); [done|congruence|congruence|done].
Qed.
Lemma live_at_None id l : live_at id l = None <-> id ∉ l.*1.
Proof.
  induction l as [|[i e] l IH]; simpl; [set_solver|].
  destruct (Z.eqb_spec i id); set_solver.
Qed.
Lemma live_set_absent id e l : id ∉ l.*1 -> live_set id e l = l.
Proof.
  induction l as [|[i e'] l IH]; simpl; [done|]. intros Hn.
  destruct (Z.eqb_spec i id); [set_solver|]. f_equal. apply IH. set_solver.
Qed.
Lemma live_drop_absent id l : id ∉ l.*1 -> live_drop id l = l.
Proof.
  induction l as [|[i e'] l IH]; simpl; [done|]. intros Hn.
  destruct (Z.eqb_spec i id); [set_solver|]. simpl. f_equal. apply IH. set_solver.
Qed.
Lemma keyed_update id e l : NoDup l.*1 -> kv_update (KInt id) e (keyed l) = keyed (live_set id e l).
Proof.
  induction l as [|[i e'] l IH]; [done|]. simpl. intros [Hi Hn]%NoDup_cons.
  case_decide as Hd; destruct (Z.eqb_spec i id) as [->|]; try congruence.
  - by rewrite live_set_absent.
  - f_equal. by apply IH.
Qed.
Lemma keyed_delete id l : NoDup l.*1 -> kv_delete (KInt id) (keyed l) = keyed (live_drop id l).
Proof.
  induction l as [|[i e'] l IH]; [done|]. simpl. intros [Hi Hn]%NoDup_cons.
  case_decide as Hd; destruct (Z.eqb_spec i id) as [->|]; simpl; try congruence.
  - by rewrite live_drop_absent.
  - f_equal. by apply IH.
Qed.

Lemma live_set_keys id e l : (live_set id e l).*1 = l.*1.
Proof.
  induction l as [|[i e'] l IH]; [done|]. simpl. f_equal; [|done].
  destruct (Z.eqb_spec i id); [by subst|done].
Qed.
Lemma live_drop_Forall (P : Z * le -> Prop) id l : Forall P l -> Forall P (live_drop id l).
Proof.
  induction 1 as [|[i x] l Hx Hl IH]; [constructor|]. simpl. destruct (_ =? _); simpl; [done|by constructor].
Qed.
Lemma live_at_set id e e' l : live_at id l = Some e' -> live_at id (live_set id e l) = Some e.
Proof.
  induction l as [|[i x] l IH]; [done|]. simpl. destruct (Z.eqb_spec i id) as [->|Hne]; simpl.
  - by rewrite Z.eqb_refl.
  - intros Hx. destruct (Z.eqb_spec i id); [done|by apply IH].
Qed.
Lemma live_drop_set id e l : live_drop id (live_set id e l) = live_drop id l.
Proof.
  induction l as [|[i x] l IH]; [done|]. simpl. destruct (Z.eqb_spec i id) as [->|Hne]; simpl.
  - by rewrite Z.eqb_refl.
  - destruct (Z.eqb_spec i id); [done|simpl; by f_equal].
Qed.
Lemma live_set_Forall (P : Z * le -> Prop) id e l :
  Forall P l -> (id ∈ l.*1 -> P (id, e)) -> Forall P (live_set id e l).
Proof.
  intros Hl He. apply Forall_fmap, Forall_forall. intros [i x] Hin. simpl.
  destruct (Z.eqb_spec i id) as [->|]; [|by eapply Forall_forall in Hl].
  apply He, list_elem_of_fmap. by exists (id, x).
Qed.

(** ** The contract *)

(** The calls: [RRegister] is [zend_register_resource], with a zval for the
    result or without. *)
Inductive rop : Type :=
  | RInsert (p type : Z)
  | RRegister (result : option zval) (p type : Z)
  | RAddref (id : Z)
  | RDelete (id : Z)
  | RFind (id : Z).
(** What is passed for an [int] is one. *)
Definition is_int (n : Z) : Prop := INT_MIN <= n <= INT_MAX.
Definition rop_ok (o : rop) : Prop :=
  match o with
  | RInsert _ type | RRegister _ _ type => is_int type
  | RAddref id | RDelete id | RFind id => is_int id
  end.

(** Numbers are given out in order and never twice; a resource lives as long
    as its count is positive; then it is destroyed, by [destroys]. *)
Section Manager.
Context {Y : Type} (destroys : le -> Y -> Y).
Record manager : Type := Manager { live : list (Z * le); next_id : Z; menv : Y }.
Implicit Types m : manager.

Definition manager_insert (p type : Z) m : manager :=
  Manager (live m ++ [(next_id m, mkLe p type 1)]) (next_id m + 1) (menv m).
Definition manager_step (o : rop) m : (Z * Z) * manager :=
  match o with
  | RInsert p type => ((next_id m, 0), manager_insert p type m)
  | RRegister result p type =>
      ((next_id m, match result with Some _ => next_id m | None => 0 end), manager_insert p type m)
  | RAddref id =>
      match live_at id (live m) with
      | None => ((FAILURE, 0), m)
      | Some e =>
          ((SUCCESS, 0),
           Manager (live_set id (set_le_refcount (le_refcount e + 1) e) (live m)) (next_id m) (menv m))
      end
  | RDelete id =>
      match live_at id (live m) with
      | None => ((FAILURE, 0), m)
      | Some e =>
          ((SUCCESS, 0),
           if le_refcount e =? 1 then
             Manager (live_drop id (live m)) (next_id m) (destroys (set_le_refcount 0 e) (menv m))
           else Manager (live_set id (set_le_refcount (le_refcount e - 1) e) (live m)) (next_id m) (menv m))
      end
  | RFind id =>
      (match live_at id (live m) with Some e => (le_ptr e, le_type e) | None => (0, -1) end, m)
  end.
Fixpoint manager_steps (os : list rop) m : list (Z * Z) * manager :=
  match os with
  | [] => ([], m)
  | o :: os' =>
      let '(a, m1) := manager_step o m in
      let '(l, m2) := manager_steps os' m1 in (a :: l, m2)
  end.
(** The end of the request: the remaining resources go, the newest first. *)
Definition manager_end m : Y := fold_left (fun w e => destroys e w) (reverse (live m)).*2 (menv m).
End Manager.
Arguments manager : clear implicits.
Arguments Manager {Y}. Arguments live {Y}. Arguments next_id {Y}. Arguments menv {Y}.

(** Two ways to destroy that agree, on entries whose type is an [int], make
    the same managers: [f] is what one state has of the other. *)
Section Transport.
Context {Y Z' : Type} (destroys : le -> Y -> Y) (destroys' : le -> Z' -> Z') (f : Z' -> Y).
Definition carried (m : manager Z') : manager Y := Manager (live m) (next_id m) (f (menv m)).
Definition typed (x : Z * le) : Prop := is_int (le_type x.2).
Context (Hd : forall e w, is_int (le_type e) -> destroys e (f w) = f (destroys' e w)).

Lemma live_at_typed id e l : Forall typed l -> live_at id l = Some e -> is_int (le_type e).
Proof.
  induction 1 as [|[i x] l Hx Hl IH]; [done|]. simpl. destruct (i =? id); [by intros [= <-]|done].
Qed.
Lemma live_set_typed id e l : Forall typed l -> is_int (le_type e) -> Forall typed (live_set id e l).
Proof.
  intros Hl He. apply Forall_fmap. eapply Forall_impl; [exact Hl|]. intros x Hx. simpl. by case_match.
Qed.
Lemma step_carried o m : rop_ok o -> Forall typed (live m) ->
  manager_step destroys o (carried m) =
    ((manager_step destroys' o m).1, carried (manager_step destroys' o m).2) /\
  Forall typed (live (manager_step destroys' o m).2).
Proof.
  intros Ho Hl. destruct o as [p type|r p type|id|id|id]; simpl in *.
  - split; [done|]. apply Forall_app_2; [done|]. by apply Forall_singleton.
  - split; [done|]. apply Forall_app_2; [done|]. by apply Forall_singleton.
  - destruct (live_at id (live m)) as [e|] eqn:E; [|done]. split; [done|].
    apply live_set_typed; [done|]. exact (live_at_typed _ _ _ Hl E).
  - destruct (live_at id (live m)) as [e|] eqn:E; [|done].
    pose proof (live_at_typed _ _ _ Hl E) as He. destruct (_ =? 1); simpl.
    + unfold carried. simpl. rewrite Hd by done. split; [done|]. by apply live_drop_Forall.
    + split; [done|]. by apply live_set_typed.
  - done.
Qed.
Lemma steps_carried os : forall m, Forall rop_ok os -> Forall typed (live m) ->
  manager_steps destroys os (carried m) =
    ((manager_steps destroys' os m).1, carried (manager_steps destroys' os m).2) /\
  Forall typed (live (manager_steps destroys' os m).2).
Proof.
  induction os as [|o os IH]; intros m Ho Hl; [done|]. apply Forall_cons in Ho as [Ho Hos].
  destruct (step_carried o m Ho Hl) as [Hs Hl1]. simpl. rewrite Hs.
  destruct (manager_step destroys' o m) as [a m1]. simpl in *.
  destruct (IH m1 Hos Hl1) as [Hs2 Hl2]. rewrite Hs2.
  by destruct (manager_steps destroys' os m1) as [l m2].
Qed.
Lemma end_carried m : Forall typed (live m) -> manager_end destroys (carried m) = f (manager_end destroys' m).
Proof.
  unfold manager_end, carried. simpl. intros Hl. assert (Hr : Forall typed (reverse (live m))) by by apply Forall_reverse.
  generalize (menv m). induction Hr as [|[i x] l Hx Hl' IH]; intros w; [done|]. simpl. by rewrite Hd, IH.
Qed.
End Transport.

Section Resources.
Context {F X : Type} `{Allocator}.
Context (call_old : F -> Z -> X -> X) (call_ex : F -> zend_rsrc_list_entry -> X -> X)
        (warn_unknown : Z -> X -> X).
Notation destructor := (list_entry_destructor call_old call_ex warn_unknown).
Implicit Types (m : manager (renv F X)) (s : resources (F := F) (X := X)) (id : Z) (e : le).

(** The number a zval is left as a resource of; it is -1 if it is none. *)
Definition registered (z : option zval) : Z :=
  match z with None => 0 | Some z => if ztype z =? IS_RESOURCE then lval z else -1 end.
Definition run_rop (o : rop) : M (resources (F := F) (X := X)) (Z * Z) :=
  match o with
  | RInsert p type => id ← zend_list_insert p type; mret (id, 0)
  | RRegister result p type => '(id, z) ← zend_register_resource result p type; mret (id, registered z)
  | RAddref id => r ← _zend_list_addref id; mret (r, 0)
  | RDelete id => r ← _zend_list_delete id; mret (r, 0)
  | RFind id => reading (_zend_list_find id)
  end.
Fixpoint run_rops (os : list rop) : M (resources (F := F) (X := X)) (list (Z * Z)) :=
  match os with
  | [] => mret []
  | o :: os' => a ← run_rop o; l ← run_rops os'; mret (a :: l)
  end.

(** [n] bounds the numbers and the counts. *)
Definition entry_in (n nx : Z) (x : Z * le) : Prop :=
  1 <= x.1 < nx /\ 1 <= le_refcount x.2 <= n.
Record manages (n : Z) s m : Prop := {
  mg_refines : refines (Some destructor) s (Dict (keyed (live m)) (next_id m) (menv m));
  mg_next : 1 <= next_id m <= n;
  mg_entries : Forall (entry_in n (next_id m)) (live m)
}.

Lemma manages_nodup n s m : manages n s m -> NoDup (live m).*1.
Proof.
  intros [[[l Hr] _ _ _ _] _ _]. pose proof (r_keys _ _ _ _ Hr) as Hk. simpl in Hk.
  unfold keyed in Hk. rewrite <- list_fmap_compose in Hk.
  apply (NoDup_fmap_1 KInt). by rewrite <- list_fmap_compose.
Qed.
Lemma live_entry n s m id e :
  manages n s m -> live_at id (live m) = Some e -> entry_in n (next_id m) (id, e).
Proof.
  intros [_ _ Hf] He. revert He Hf. induction (live m) as [|[i x] l IH]; simpl; [done|].
  destruct (Z.eqb_spec i id) as [->|].
  - intros [= ->] [? _]%Forall_cons. done.
  - intros He [_ Hf]%Forall_cons. by apply IH.
Qed.
(** A negative [int] becomes an index no resource has. *)
Lemma live_at_u64 n s m id :
  manages n s m -> n <= INT_MAX -> INT_MIN <= id <= INT_MAX ->
  live_at (u64 id) (live m) = live_at id (live m) /\
  (is_Some (live_at id (live m)) -> u64 id = id).
Proof.
  unfold INT_MIN, INT_MAX. intros HM Hn Hid. destruct (Z.ltb_spec id 0) as [Hneg|Hpos].
  - assert (Hu : u64 id = id + 2 ^ 64) by (unfold u64; rewrite <- (Z.mod_add id 1), Z.mod_small; lia).
    assert (Ha : forall j, j < 0 \/ INT_MAX < j -> live_at j (live m) = None).
    { unfold INT_MAX. intros j Hj. destruct (live_at j (live m)) as [e|] eqn:E; [|done].
      destruct (live_entry _ _ _ _ _ HM E) as [Hr _]. simpl in Hr. destruct HM as [_ ? _]. lia. }
    rewrite !Ha by (unfold INT_MAX; lia). split; [done|]. by intros [? ?].
  - rewrite u64_small by lia. done.
Qed.

Lemma find_entry_run n s m id :
  manages n s m -> n <= INT_MAX -> INT_MIN <= id <= INT_MAX ->
  match live_at id (live m) with
  | None => find_entry id s = Ok None
  | Some e => exists p, find_entry id s = Ok (Some (p, e)) /\
      forall c, exists s', set_refcount p c s = Ok (tt, s') /\
        refines (Some destructor) s'
          (Dict (keyed (live_set id (set_le_refcount c e) (live m))) (next_id m) (menv m))
  end.
Proof.
  intros HM Hn Hid. pose proof (live_at_u64 _ _ _ _ HM Hn Hid) as [Hu Hsome].
  pose proof (index_find_run _ _ _ (u64 id) (mg_refines _ _ _ HM)) as Hf. unfold found_at in Hf.
  cbn [entries next_index world] in Hf.
  rewrite keyed_lookup, Hu in Hf. unfold find_entry, mbind, res_bind.
  destruct (live_at id (live m)) as [e|]; [|by rewrite Hf].
  destruct Hf as (a & b & -> & Hb & <- & Hg). cbn beta iota. exists (Some a).
  split; [exact (res_bind_ok _ _ _ Hb)|]. intros c.
  destruct (Hg (set_le_refcount c)) as (s' & Hs & _ & HR). exists s'. split; [exact Hs|].
  rewrite Hsome in HR by done. by rewrite <- keyed_update by (by eapply manages_nodup).
Qed.

Lemma insert_run n s m p type :
  plentiful le -> manages n s m -> n <= INT_MAX ->
  exists s', zend_list_insert p type s = Ok (next_id m, s') /\
    manages (n + 1) s' (manager_insert p type m).
Proof.
  intros Hp HM Hn. pose proof HM as [HR Hnx Hf]. unfold INT_MAX in Hn.
  assert (Hid : s32 (next_id m) = next_id m) by (apply s32_small; unfold INT_MIN, INT_MAX; lia).
  unfold zend_list_insert. rewrite mbind_get. unfold zend_hash_next_free_element.
  rewrite (rf_next _ _ _ HR). cbn [next_index]. rewrite Hid, u64_small by lia.
  destruct (index_store_run (Some destructor) s _ (next_id m) (mkLe p type 1) sizeof_zend_rsrc_list_entry
    HASH_UPDATE Hp HR) as (q & s' & Hs & HR'); [lia|done|].
  exists s'. split; [unfold zend_hash_index_update; by rewrite (mbind_ok _ _ _ _ _ Hs)|].
  unfold dict_store in HR'. cbn [entries next_index world] in HR'. rewrite keyed_lookup in HR'.
  assert (Hno : live_at (next_id m) (live m) = None).
  { apply live_at_None. intros ([i e] & Hi & Hin)%list_elem_of_fmap. simpl in Hi. subst i.
    eapply Forall_forall in Hf; [|exact Hin]. destruct Hf as [? _]. simpl in *. lia. }
  rewrite Hno in HR'. simpl in HR'.
  assert (Hnext : next_free (next_id m) (next_id m) = next_id m + 1).
  { unfold next_free, LONG_MAX. rewrite Z.leb_refl, (proj2 (Z.ltb_lt _ _)) by lia.
    apply u64_small. lia. }
  rewrite Hnext in HR'. split; simpl; [|lia|].
  - unfold keyed. rewrite fmap_app. exact HR'.
  - apply Forall_app. split.
    + eapply Forall_impl; [exact Hf|]. intros [i e] [? ?]. simpl in *. split; simpl; lia.
    + constructor; [|constructor]. split; simpl; lia.
Qed.

Lemma manages_grow n s m : manages n s m -> manages (n + 1) s m.
Proof.
  intros [HR Hx He]. split; [done|lia|].
  eapply Forall_impl; [exact He|]. intros x [? ?]. split; lia.
Qed.
Lemma recounted n s m id e c :
  manages n s m -> live_at id (live m) = Some e -> 1 <= c <= n + 1 ->
  Forall (entry_in (n + 1) (next_id m)) (live_set id (set_le_refcount c e) (live m)).
Proof.
  intros HM He Hc. pose proof (live_entry _ _ _ _ _ HM He) as [Hi _]. apply live_set_Forall.
  - eapply Forall_impl; [apply (mg_entries _ _ _ HM)|]. intros x [? ?]. split; lia.
  - intros _. split; simpl in *; lia.
Qed.

Lemma addref_run n s m id :
  manages n s m -> n < INT_MAX -> INT_MIN <= id <= INT_MAX ->
  exists s', _zend_list_addref id s = Ok ((manager_step destructor (RAddref id) m).1.1, s') /\
    manages (n + 1) s' (manager_step destructor (RAddref id) m).2.
Proof.
  intros HM Hn Hid. pose proof (find_entry_run n s m id HM ltac:(lia) Hid) as Hf. simpl.
  unfold _zend_list_addref. destruct (live_at id (live m)) as [e|] eqn:E.
  - destruct Hf as (p & Hp & Hset). rewrite (mbind_reading _ _ _ _ Hp).
    pose proof (live_entry _ _ _ _ _ HM E) as [_ Hc]. simpl in Hc.
    rewrite s32_small by (unfold INT_MIN, INT_MAX in *; lia).
    destruct (Hset (le_refcount e + 1)) as (s' & Hs & HR). exists s'.
    rewrite (mbind_ok _ _ _ _ _ Hs). split; [done|].
    split; simpl; [exact HR|pose proof (mg_next _ _ _ HM); lia|].
    apply recounted with s; [done|done|lia].
  - rewrite (mbind_reading _ _ _ _ Hf). exists s. split; [done|by apply manages_grow].
Qed.

Lemma delete_run n s m id :
  plentiful le -> manages n s m -> n < INT_MAX -> INT_MIN <= id <= INT_MAX ->
  exists s', _zend_list_delete id s = Ok ((manager_step destructor (RDelete id) m).1.1, s') /\
    manages (n + 1) s' (manager_step destructor (RDelete id) m).2.
Proof.
  intros Hp HM Hn Hid. pose proof (find_entry_run n s m id HM ltac:(lia) Hid) as Hf. simpl.
  unfold _zend_list_delete. destruct (live_at id (live m)) as [e|] eqn:E.
  - destruct Hf as (p & Hq & Hset). rewrite (mbind_reading _ _ _ _ Hq).
    pose proof (live_entry _ _ _ _ _ HM E) as [Hi Hc]. simpl in Hi, Hc.
    rewrite s32_small by (unfold INT_MIN, INT_MAX in *; lia).
    destruct (Hset (le_refcount e - 1)) as (s1 & Hs & HR). rewrite (mbind_ok _ _ _ _ _ Hs).
    destruct (Z.eqb_spec (le_refcount e) 1) as [He|He].
    + rewrite He in *. simpl (1 - 1 <=? 0). cbn match.
      destruct (live_at_u64 _ _ _ _ HM ltac:(lia) Hid) as [_ ->]; [|by rewrite E].
      destruct (index_del_run _ _ _ id Hp HR ltac:(unfold INT_MAX in *; lia)) as (s' & Hs' & HR').
      pose proof (manages_nodup _ _ _ HM) as Hnd.
      unfold dict_del in Hs', HR'. cbn [entries next_index world] in Hs', HR'.
      rewrite keyed_lookup, (live_at_set id _ e), keyed_delete, live_drop_set in * by (by rewrite ?live_set_keys).
      exists s'. split; [exact Hs'|]. split; simpl; [exact HR'|pose proof (mg_next _ _ _ HM); lia|].
      apply live_drop_Forall, (mg_entries (n + 1) s). by apply manages_grow.
    + rewrite (proj2 (Z.leb_gt _ _)) by lia. exists s1. split; [done|].
      split; simpl; [exact HR|pose proof (mg_next _ _ _ HM); lia|].
      apply recounted with s; [done|done|lia].
  - rewrite (mbind_reading _ _ _ _ Hf). exists s. split; [done|by apply manages_grow].
Qed.

Lemma find_resource_run n s m id :
  manages n s m -> n <= INT_MAX -> INT_MIN <= id <= INT_MAX ->
  _zend_list_find id s = Ok (manager_step destructor (RFind id) m).1.
Proof.
  intros HM Hn Hid. pose proof (find_entry_run n s m id HM Hn Hid) as Hf. simpl.
  unfold _zend_list_find. destruct (live_at id (live m)) as [e|].
  - destruct Hf as (p & Hp & _). by rewrite (res_bind_ok _ _ _ Hp).
  - by rewrite (res_bind_ok _ _ _ Hf).
Qed.

Lemma rop_run o n s m :
  plentiful le -> manages n s m -> n < INT_MAX -> rop_ok o ->
  exists s', run_rop o s = Ok ((manager_step destructor o m).1, s') /\ manages (n + 1) s' (manager_step destructor o m).2.
Proof.
  intros Hp HM Hn Ho. destruct o as [p type|r p type|id|id|id]; cbn [run_rop rop_ok] in *.
  - destruct (insert_run n s m p type Hp HM ltac:(lia)) as (s' & Hs & HM'). exists s'.
    by rewrite (mbind_ok _ _ _ _ _ Hs).
  - destruct (insert_run n s m p type Hp HM ltac:(lia)) as (s' & Hs & HM'). exists s'.
    unfold zend_register_resource. rewrite mbind_assoc, (mbind_ok _ _ _ _ _ Hs). by destruct r.
  - destruct (addref_run n s m id HM Hn Ho) as (s' & Hs & HM'). exists s'.
    rewrite (mbind_ok _ _ _ _ _ Hs). split; [|done]. simpl. by destruct (live_at id (live m)).
  - destruct (delete_run n s m id Hp HM Hn Ho) as (s' & Hs & HM'). exists s'.
    rewrite (mbind_ok _ _ _ _ _ Hs). split; [|done]. simpl. by destruct (live_at id (live m)).
  - exists s. unfold reading. rewrite (find_resource_run n s m id HM ltac:(lia) Ho).
    split; [done|by apply manages_grow].
Qed.

Lemma rops_run os : forall n s m,
  plentiful le -> manages n s m -> n + Z.of_nat (length os) <= INT_MAX -> Forall rop_ok os ->
  exists s', run_rops os s = Ok ((manager_steps destructor os m).1, s') /\
    manages (n + Z.of_nat (length os)) s' (manager_steps destructor os m).2.
Proof.
  induction os as [|o os IH]; intros n s m Hp HM Hn Hos; cbn [length] in *.
  - exists s. rewrite Z.add_0_r. done.
  - apply Forall_cons in Hos as [Ho Hos].
    destruct (rop_run o n s m Hp HM ltac:(lia) Ho) as (s1 & Hs1 & HM1).
    destruct (IH _ _ _ Hp HM1 ltac:(lia) Hos) as (s2 & Hs2 & HM2). exists s2.
    replace (n + Z.of_nat (S (length os))) with (n + 1 + Z.of_nat (length os)) by lia. simpl.
    destruct (manager_step destructor o m) as [a m1]. simpl in *. destruct (manager_steps destructor os m1) as [l m2].
    rewrite (mbind_ok _ _ _ _ _ Hs1), (mbind_ok _ _ _ _ _ Hs2). done.
Qed.

Lemma list_init_run (w : renv F X) :
  plentiful le ->
  exists s, zend_init_rsrc_list call_old call_ex warn_unknown w = (SUCCESS, s) /\
    manages 1 s (Manager [] 1 w).
Proof.
  intros Hp. unfold zend_init_rsrc_list.
  destruct (init_spec 0 (Some destructor) false w ltac:(lia)) as (s & k & Hs & Hr & He & _ & Hd & _).
  { apply Hp. }
  rewrite Hs. simpl. eexists. split; [done|]. split; simpl; [|lia|constructor].
  apply refines_from; [unfold LONG_MAX; lia|done|done|done].
Qed.

(** At the end of the request the remaining resources go, the last created
    first. *)
Lemma list_destroy_run n s m :
  manages n s m ->
  exists s', zend_destroy_rsrc_list s = Ok (tt, s') /\ buckets s' = ∅ /\ arBuckets (ht s') = [] /\
    env s' = manager_end destructor m.
Proof.
  intros [[[l Hr] _ Hw Hd _] _ _]. simpl in *.
  destruct (graceful_reverse_destroy_spec s l _ Hr) as (s' & Hs & Hb & Ha & He).
  exists s'. split; [done|]. split; [done|]. split; [done|]. rewrite He, Hw. unfold dtor_all, dtor_env, manager_end. rewrite Hd.
  unfold keyed. by rewrite <- fmap_reverse, <- list_fmap_compose.
Qed.
End Resources.

(** ** Types *)

Section Types.
Context {F X : Type} `{Allocator}.
Implicit Types (t : types (F := F)) (ld : zend_rsrc_list_dtors_entry F)
  (lds : list (zend_rsrc_list_dtors_entry F)).

(** The entries under the keys [k], [k + 1], ... *)
Fixpoint numbered (k : Z) lds : list (hkey * zend_rsrc_list_dtors_entry F) :=
  match lds with
  | [] => []
  | ld :: lds' => (KInt k, ld) :: numbered (k + 1) lds'
  end.
Definition type_count lds : Z := Z.of_nat (length lds).
Definition type_table t lds : Prop := refines None t (Dict (numbered 1 lds) (1 + type_count lds) tt).
Definition type_at {A} (type : Z) (l : list A) : option A :=
  if 1 <=? type then l !! Z.to_nat (type - 1) else None.

Lemma numbered_app k lds1 lds2 :
  numbered k (lds1 ++ lds2) = numbered k lds1 ++ numbered (k + type_count lds1) lds2.
Proof.
  unfold type_count. revert k. induction lds1 as [|ld lds1 IH]; intros k; simpl; [by rewrite Z.add_0_r|].
  rewrite IH. do 3 f_equal. lia.
Qed.
Lemma numbered_values k lds : (numbered k lds).*2 = lds.
Proof. revert k. induction lds as [|ld lds IH]; intros k; simpl; [done|by rewrite IH]. Qed.
Lemma numbered_lookup k lds i :
  kv_lookup (KInt i) (numbered k lds) = if k <=? i then lds !! Z.to_nat (i - k) else None.
Proof.
  revert k. induction lds as [|ld lds IH]; intros k; simpl; [by case_match|].
  case_decide as Hd.
  - injection Hd as ->. by rewrite Z.leb_refl, Z.sub_diag.
  - rewrite IH. destruct (Z.leb_spec k i) as [Hk|Hk].
    + rewrite (proj2 (Z.leb_le _ _)) by (destruct (Z.eq_dec k i); [congruence|lia]).
      replace (Z.to_nat (i - k)) with (S (Z.to_nat (i - (k + 1)))); [done|].
      destruct (Z.eq_dec k i); [congruence|lia].
    + by rewrite (proj2 (Z.leb_gt _ _)) by lia.
Qed.

Lemma find_type_run t lds type :
  type_table t lds -> type_count lds <= INT_MAX -> INT_MIN <= type <= INT_MAX ->
  find_type type t = Ok (type_at type lds).
Proof.
  unfold INT_MIN, INT_MAX. intros HT Hn Ht. unfold find_type.
  pose proof (index_find_run _ _ _ (u64 type) HT) as Hf. unfold found_at in Hf. cbn [entries next_index world] in Hf.
  rewrite numbered_lookup in Hf.
  assert (Hat : (if 1 <=? u64 type then lds !! Z.to_nat (u64 type - 1) else None) = type_at type lds).
  { unfold type_at, type_count in *. destruct (Z.leb_spec 1 type); [by rewrite u64_small, (proj2 (Z.leb_le _ _)) by lia|].
    destruct (Z.eqb_spec type 0) as [->|Hne]; [done|].
    assert (Hu : u64 type = type + 2 ^ 64) by (unfold u64; rewrite <- (Z.mod_add type 1), Z.mod_small; lia).
    rewrite Hu. destruct (1 <=? type + 2 ^ 64); [|done]. apply lookup_ge_None_2. lia. }
  rewrite Hat in Hf. destruct (type_at type lds) as [ld|].
  - destruct Hf as (a & b & Hc & Hb & <- & _). rewrite (res_bind_ok _ _ _ Hc). cbn iota.
    by rewrite (res_bind_ok _ _ _ Hb).
  - by rewrite (res_bind_ok _ _ _ Hf).
Qed.

Lemma register_run t lds (lde : Z -> zend_rsrc_list_dtors_entry F) :
  plentiful (zend_rsrc_list_dtors_entry F) -> type_table t lds -> type_count lds < INT_MAX ->
  exists t', register_entry lde t = Ok (1 + type_count lds, t') /\
    type_table t' (lds ++ [lde (1 + type_count lds)]).
Proof.
  unfold INT_MAX. intros Hp HT Hn. unfold register_entry. rewrite mbind_get.
  assert (Hc : 0 <= type_count lds) by (unfold type_count; lia).
  rewrite (rf_next _ _ _ HT). cbn [next_index].
  rewrite s32_small by (unfold INT_MIN, INT_MAX; lia). set (id := 1 + type_count lds) in *.
  destruct (next_insert_run None t _ (lde id) sizeof_zend_rsrc_list_dtors_entry Hp HT)
    as (p & t' & Hs & HR).
  assert (Hno : kv_lookup (KInt id) (numbered 1 lds) = None).
  { rewrite numbered_lookup. case_match; [|done]. apply lookup_ge_None_2. unfold id, type_count. lia. }
  unfold dict_store in Hs, HR. cbn [entries next_index world] in Hs, HR. fold id in Hs, HR.
  rewrite Hno in Hs, HR. cbn [fst snd] in Hs, HR. rewrite (mbind_ok _ _ _ _ _ Hs).
  simpl (SUCCESS =? FAILURE). cbn iota.
  assert (Hnext : next_free id id = id + 1).
  { unfold next_free, LONG_MAX. rewrite Z.leb_refl, (proj2 (Z.ltb_lt _ _)) by lia.
    apply u64_small. lia. }
  rewrite Hnext in HR. exists t'. rewrite mbind_get. rewrite (rf_next _ _ _ HR). cbn [next_index].
  rewrite Z.add_simpl_r, u64_small, s32_small by (unfold INT_MIN, INT_MAX; lia). split; [done|].
  unfold type_table. rewrite numbered_app. unfold type_count in *. rewrite length_app. simpl.
  replace (1 + Z.of_nat (length lds + 1)) with (id + 1) by (unfold id; lia). exact HR.
Qed.

Lemma types_init_run :
  plentiful (zend_rsrc_list_dtors_entry F) ->
  exists t, zend_init_rsrc_list_dtors = (SUCCESS, t) /\ type_table t [].
Proof.
  intros Hp. unfold zend_init_rsrc_list_dtors.
  destruct (init_spec (V := zend_rsrc_list_dtors_entry F) 50 None true tt ltac:(lia)) as (s & k & Hs & Hr & He & _ & Hd & _); [apply Hp|].
  rewrite Hs. simpl. eexists. split; [done|].
  apply (refines_from None s tt 1); [unfold LONG_MAX; lia|done|done|done].
Qed.

(** The first type registered under a name. *)
Definition has_name (name : list byte) ld : bool :=
  match type_name ld with Some n => bool_decide (name = n) | None => false end.
Fixpoint first_named (name : list byte) lds : Z :=
  match lds with
  | [] => 0
  | ld :: lds' => if has_name name ld then resource_id ld else first_named name lds'
  end.
Lemma fetch_loop_run (name : list byte) t kvs n l2 : forall fuel l1,
  reprn t (l1 ++ l2) kvs n -> (length l2 < fuel)%nat ->
  fetch_loop fuel name (Some (head_ptr l2 None)) t = Ok (first_named name (drop (length l1) kvs).*2, t).
Proof.
  induction l2 as [|a l2 IH]; intros fuel l1 R Hf; destruct fuel as [|fuel];
    try (simpl in Hf; lia); simpl in Hf.
  - rewrite drop_ge; [done|]. rewrite <- (Forall2_length _ _ _ (r_holds _ _ _ _ R)), length_app. simpl. lia.
  - destruct (position_entry _ _ _ _ _ _ _ R eq_refl) as (b & Hb & _ & He & _).
    cbn [fetch_loop head_ptr]. erewrite mbind_reading by done. unfold zend_hash_get_current_data_ex. cbn [position].
    rewrite Z.eqb_refl. erewrite mbind_reading by exact Hb. rewrite (drop_S _ _ _ He). cbn [fmap list_fmap first_named].
    change ((entry b).2) with (data_value (pData b)).
    fold (has_name name (data_value (pData b))). destruct (has_name _ _); [done|].
    rewrite (mbind_ok _ _ _ _ _ (move_forward_at _ _ _ _ _ _ _ R eq_refl)).
    rewrite cons_middle, app_assoc in R. rewrite (IH fuel (l1 ++ [a]) R ltac:(lia)).
    rewrite length_app. simpl. by rewrite Nat.add_1_r.
Qed.
Lemma fetch_run (name : list byte) t lds :
  type_table t lds -> zend_fetch_list_dtor_id name t = Ok (first_named name lds, t).
Proof.
  intros [[l Hr] _ _ _ _]. unfold zend_fetch_list_dtor_id. cbn [entries] in Hr.
  erewrite mbind_ok by done. rewrite mbind_get. rewrite (r_head _ _ _ _ Hr).
  rewrite (fetch_loop_run name t _ _ l _ [] Hr (walk_fuel_enough _ _ _ _ Hr)).
  change (drop (length []) (numbered 1 lds)) with (numbered 1 lds). by rewrite numbered_values.
Qed.
End Types.
