(* ===== verification/ZendListThms.v ===== *)
(** * Theorems about the resource lists *)

From S2P Require Import Prelude Dll ZendHash ZendHashInv ZendHashSteps ZendHashOps ZendHashIter ZendHashBulk ZendHashOrder ZendHashCursor ZendHashNumeric ZendHashRefine ZendList ZendListSpec.
Open Scope Z_scope.

(** ** Registering types *)

Section Kinds.
Context {F X : Type} `{Allocator}.
Context (call_old : F -> Z -> X -> X) (call_ex : F -> zend_rsrc_list_entry -> X -> X)
        (warn_unknown : Z -> X -> X).

(** A type of resource as a module registers it: its destructors for the
    request's list and for the persistent list. *)
Inductive kind : Type :=
  | Std (ld pld : option F) (module : Z)
  | Ex (ld pld : option F) (name : option (list byte)) (module : Z).
Definition run_kind (k : kind) : M (types (F := F)) Z :=
  match k with
  | Std ld pld module => zend_register_list_destructors ld pld module
  | Ex ld pld name module => zend_register_list_destructors_ex ld pld name module
  end.
Fixpoint run_kinds (ks : list kind) : M (types (F := F)) (list Z) :=
  match ks with
  | [] => mret []
  | k :: ks' => id ← run_kind k; l ← run_kinds ks'; mret (id :: l)
  end.

(** What becomes of the state when an entry of type [k] is destroyed. *)
Definition kind_destroys (persistent : bool) (k : kind) (e : le) (x : X) : X :=
  match k with
  | Std ld pld _ =>
      match (if persistent then pld else ld) with Some f => call_old f (le_ptr e) x | None => x end
  | Ex ld pld _ _ =>
      match (if persistent then pld else ld) with Some f => call_ex f e x | None => x end
  end.
(** The same for an entry, by its type; one that was never registered gives a
    warning. *)
Definition destroyed_by (ks : list kind) (persistent : bool) (e : le) (x : X) : X :=
  match type_at (le_type e) ks with
  | Some k => kind_destroys persistent k e x
  | None => warn_unknown (le_type e) x
  end.
Fixpoint first_kind (name : list byte) (id : Z) (ks : list kind) : Z :=
  match ks with
  | [] => 0
  | Ex _ _ (Some n) _ :: ks' => if decide (name = n) then id else first_kind name (id + 1) ks'
  | _ :: ks' => first_kind name (id + 1) ks'
  end.

Definition kind_entry (k : kind) (id : Z) : zend_rsrc_list_dtors_entry F :=
  match k with
  | Std ld pld module => mkLd ld pld None None None module id ZEND_RESOURCE_LIST_TYPE_STD
  | Ex ld pld name module => mkLd None None ld pld name module id ZEND_RESOURCE_LIST_TYPE_EX
  end.
Fixpoint kind_entries (id : Z) (ks : list kind) : list (zend_rsrc_list_dtors_entry F) :=
  match ks with
  | [] => []
  | k :: ks' => kind_entry k id :: kind_entries (id + 1) ks'
  end.

Lemma run_kinds_spec ks : forall t lds,
  plentiful (zend_rsrc_list_dtors_entry F) -> type_table t lds ->
  type_count lds + Z.of_nat (length ks) <= INT_MAX ->
  exists t', run_kinds ks t = Ok (seqZ (1 + type_count lds) (Z.of_nat (length ks)), t') /\
    type_table t' (lds ++ kind_entries (1 + type_count lds) ks).
Proof.
  induction ks as [|k ks IH]; intros t lds Hp HT Hn; cbn [length] in Hn.
  - exists t. simpl. by rewrite app_nil_r.
  - destruct (register_run t lds (kind_entry k) Hp HT ltac:(lia)) as (t1 & H1 & HT1).
    assert (Hr : run_kind k t = Ok (1 + type_count lds, t1)) by (destruct k; exact H1).
    assert (Hc : type_count (lds ++ [kind_entry k (1 + type_count lds)]) = 1 + type_count lds).
    { unfold type_count. rewrite length_app. simpl. lia. }
    destruct (IH t1 _ Hp HT1 ltac:(lia)) as (t2 & H2 & HT2). rewrite Hc in H2, HT2.
    exists t2. cbn [run_kinds kind_entries]. rewrite (mbind_ok _ _ _ _ _ Hr), (mbind_ok _ _ _ _ _ H2).
    replace (1 + (1 + type_count lds)) with (1 + type_count lds + 1) in * by lia.
    rewrite <- app_assoc in HT2. split; [|exact HT2].
    rewrite (seqZ_cons _ (Z.of_nat (length (k :: ks)))) by (simpl; lia).
    replace (Z.pred (Z.of_nat (length (k :: ks)))) with (Z.of_nat (length ks)) by (simpl; lia). done.
Qed.

Lemma kind_entries_lookup ks : forall id i,
  kind_entries id ks !! i = (fun k => kind_entry k (id + Z.of_nat i)) <$> ks !! i.
Proof.
  induction ks as [|k ks IH]; intros id i; [by rewrite !lookup_nil|].
  destruct i as [|i]; simpl; [by rewrite Z.add_0_r|]. rewrite IH.
  by replace (id + 1 + Z.of_nat i) with (id + Z.pos (Pos.of_succ_nat i)) by lia.
Qed.
Lemma kind_entries_count id ks : type_count (kind_entries id ks) = Z.of_nat (length ks).
Proof. unfold type_count. f_equal. revert id. induction ks as [|k ks IH]; intros id; simpl; [done|by rewrite IH]. Qed.
Lemma kind_entries_named name ks : forall id, first_named name (kind_entries id ks) = first_kind name id ks.
Proof.
  induction ks as [|k ks IH]; intros id; simpl; [done|]. rewrite IH.
  destruct k as [|ld pld [n|] module]; simpl; try done. unfold has_name. simpl.
  case_bool_decide; by case_decide.
Qed.

Lemma kind_destroyed ks t (persistent : bool) (e : le) (w : renv F X) :
  type_table t (kind_entries 1 ks) -> Z.of_nat (length ks) <= INT_MAX ->
  INT_MIN <= le_type e <= INT_MAX -> list_destructors w = t ->
  (if persistent then plist_entry_destructor call_old call_ex warn_unknown
   else list_entry_destructor call_old call_ex warn_unknown) e w =
  set_rest (destroyed_by ks persistent e (rest w)) w.
Proof.
  unfold destroyed_by. intros HT Hn He <-.
  pose proof (find_type_run _ _ (le_type e) HT ltac:(by rewrite kind_entries_count) He) as Hf.
  assert (Hat : type_at (le_type e) (kind_entries 1 ks) =
    (fun k => kind_entry k (1 + Z.of_nat (Z.to_nat (le_type e - 1)))) <$> type_at (le_type e) ks).
  { unfold type_at. case_match; [apply kind_entries_lookup|done]. }
  rewrite Hat in Hf.
  assert (Hid : w = set_rest (rest w) w) by (by destruct w).
  destruct persistent; unfold plist_entry_destructor, list_entry_destructor, entry_destructor; rewrite Hf;
    destruct (type_at (le_type e) ks) as [[[f|] [g|] module|[f|] [g|] name module]|]; cbn; done || exact Hid.
Qed.
End Kinds.
Arguments kind : clear implicits.

(** ** The theorems *)

(** C32: register types of resources, make the list of resources, and make any
    sequence of insertions, registrations, references, deletions and look-ups
    of resources, by any numbers: all returns, and answers as the manager
    does: numbers count up from 1 and never return, a resource is found exactly
    while its references outnumber its deletions, and at the last deletion it
    is destroyed, once, by the destructor its type was registered with, old or
    new style, or with a warning if its type never was; the end of the request
    destroys the others the same way, the newest first, and frees everything. *)
Theorem resources_simulate {F X : Type} `{Allocator} (call_old : F -> Z -> X -> X)
    (call_ex : F -> zend_rsrc_list_entry -> X -> X) (warn_unknown : Z -> X -> X)
    (ks : list (kind F)) (x : X) (os : list rop) :
  plentiful (zend_rsrc_list_dtors_entry F) -> plentiful zend_rsrc_list_entry ->
  Z.of_nat (length ks) <= INT_MAX -> Forall rop_ok os -> Z.of_nat (length os) < INT_MAX ->
  let destroys := destroyed_by call_old call_ex warn_unknown ks false in
  exists t0 t s0 s s', zend_init_rsrc_list_dtors = (SUCCESS, t0) /\
    run_kinds ks t0 = Ok (seqZ 1 (Z.of_nat (length ks)), t) /\
    zend_init_rsrc_list call_old call_ex warn_unknown (REnv t x None) = (SUCCESS, s0) /\
    let '(answers, m) := manager_steps destroys os (Manager [] 1 x) in
    run_rops os s0 = Ok (answers, s) /\ env s = REnv t (menv m) None /\
    (forall id, INT_MIN <= id <= INT_MAX ->
       _zend_list_find id s =
         Ok (match live_at id (live m) with Some e => (le_ptr e, le_type e) | None => (0, -1) end)) /\
    zend_destroy_rsrc_list s = Ok (tt, s') /\ buckets s' = ∅ /\ arBuckets (ht s') = [] /\
    env s' = REnv t (manager_end destroys m) None.
Proof.
  intros Hpt Hp Hk Hos Hn destroys.
  destruct (types_init_run Hpt) as (t0 & H0 & HT0).
  destruct (run_kinds_spec ks t0 [] Hpt HT0 Hk) as (t & Ht & HT).
  set (f := fun x => REnv t x None : renv F X).
  destruct (list_init_run call_old call_ex warn_unknown (f x) Hp) as (s0 & Hs0 & HM0).
  destruct (rops_run call_old call_ex warn_unknown os 1 s0 _ Hp HM0 ltac:(lia) Hos) as (s & Hs & HM).
  destruct (list_destroy_run call_old call_ex warn_unknown _ _ _ HM) as (s' & Hd & Hb & Ha & He).
  assert (Hde : forall e y, is_int (le_type e) ->
    list_entry_destructor call_old call_ex warn_unknown e (f y) = f (destroys e y)).
  { intros e y Hty. exact (kind_destroyed call_old call_ex warn_unknown ks t false e (f y) HT Hk Hty eq_refl). }
  destruct (steps_carried _ _ f Hde os (Manager [] 1 x) Hos ltac:(constructor)) as [Hst Hty].
  change (Manager [] 1 (f x)) with (carried f (Manager [] 1 x)) in *. rewrite Hst in *.
  exists t0, t, s0, s, s'. destruct (manager_steps destroys os _) as [answers m]. cbn [fst snd] in *.
  split_and!; try done; [exact (rf_world _ _ _ (mg_refines _ _ _ _ _ _ HM))| |].
  - intros id Hid. exact (find_resource_run call_old call_ex warn_unknown _ _ _ _ HM ltac:(lia) Hid).
  - rewrite He. exact (end_carried _ _ f Hde m Hty).
Qed.

(** The destructors of the samples write down what they are given. *)
Definition note_old (f p : Z) (x : list (Z * Z)) : list (Z * Z) := x ++ [(f, p)].
Definition note_ex (f : Z) (e : zend_rsrc_list_entry) (x : list (Z * Z)) : list (Z * Z) :=
  x ++ [(f, le_ptr e)].
Definition note_unknown (type : Z) (x : list (Z * Z)) : list (Z * Z) := x ++ [(-1, type)].
Definition sample_kinds : list (kind Z) :=
  [Std (Some 100) None 1; Ex (Some 200) (Some 201) (Some (bs "stream")) 1].
Definition sample_ops : list rop :=
  [RInsert 11 1; RRegister (Some (mkZval 0 0)) 22 2; RInsert 33 7; RAddref 1; RDelete 1; RFind 1; RDelete 1;
   RFind 1; RDelete (-5)].

Lemma resources_simulate_witness :
  exists t0 t s0 s s', zend_init_rsrc_list_dtors = (SUCCESS, t0) /\ run_kinds sample_kinds t0 = Ok ([1; 2], t) /\
    zend_init_rsrc_list note_old note_ex note_unknown (REnv t [] None) = (SUCCESS, s0) /\
    run_rops sample_ops s0 = Ok ([(1, 0); (2, 2); (3, 0); (0, 0); (0, 0); (11, 1); (0, 0); (0, -1); (-1, 0)], s) /\
    rest (env s) = [(100, 11)] /\
    _zend_list_find 2 s = Ok (22, 2) /\
    zend_destroy_rsrc_list s = Ok (tt, s') /\ buckets s' = ∅ /\
    rest (env s') = [(100, 11); (-1, 7); (200, 22)].
Proof.
  assert (Hpt : plentiful (zend_rsrc_list_dtors_entry Z)) by (intros m size; done).
  assert (Hp : plentiful zend_rsrc_list_entry) by (intros m size; done).
  assert (Hk : Z.of_nat (length sample_kinds) <= INT_MAX) by (vm_compute; congruence).
  assert (Hos : Forall rop_ok sample_ops) by (repeat constructor; unfold INT_MIN, INT_MAX; simpl; lia).
  assert (Hn : Z.of_nat (length sample_ops) < INT_MAX) by reflexivity.
  destruct (resources_simulate note_old note_ex note_unknown sample_kinds [] sample_ops Hpt Hp Hk Hos Hn)
    as (t0 & t & s0 & s & s' & H0 & Ht & Hs0 & Hs & Hw & Hf & Hd & Hb & _ & He).
  exists t0, t, s0, s, s'. split; [exact H0|]. split; [exact Ht|]. split; [exact Hs0|]. split; [exact Hs|].
  split; [rewrite Hw; vm_compute; reflexivity|].
  split; [rewrite (Hf 2) by (unfold INT_MIN, INT_MAX; lia); vm_compute; reflexivity|].
  split; [exact Hd|]. split; [exact Hb|]. rewrite He. vm_compute. reflexivity.
Defined.

(** The types registered after [zend_init_rsrc_list_dtors] are numbered
    1, 2, 3, ...; destroying an entry of the request's or of the persistent
    list calls the destructor its type was registered with for that list, old
    or new style, or none, and warns about a type never registered; a type is
    found by name, the first registered under it, else 0. *)
Theorem types_dispatch {F X : Type} `{Allocator} (call_old : F -> Z -> X -> X)
    (call_ex : F -> zend_rsrc_list_entry -> X -> X) (warn_unknown : Z -> X -> X) (ks : list (kind F)) :
  plentiful (zend_rsrc_list_dtors_entry F) -> Z.of_nat (length ks) <= INT_MAX ->
  exists t0 t, zend_init_rsrc_list_dtors = (SUCCESS, t0) /\
    run_kinds ks t0 = Ok (seqZ 1 (Z.of_nat (length ks)), t) /\
    (forall (persistent : bool) e (w : renv F X),
       INT_MIN <= le_type e <= INT_MAX -> list_destructors w = t ->
       (if persistent then plist_entry_destructor call_old call_ex warn_unknown
        else list_entry_destructor call_old call_ex warn_unknown) e w =
       set_rest (destroyed_by call_old call_ex warn_unknown ks persistent e (rest w)) w) /\
    (forall name, zend_fetch_list_dtor_id name t = Ok (first_kind name 1 ks, t)).
Proof.
  intros Hp Hn. destruct (types_init_run Hp) as (t0 & H0 & HT0).
  destruct (run_kinds_spec ks t0 [] Hp HT0 Hn) as (t & Ht & HT).
  exists t0, t. split; [done|]. split; [done|]. split.
  - intros persistent e w. by apply kind_destroyed.
  - intros name. rewrite (fetch_run name _ _ HT). cbn [app]. by rewrite kind_entries_named.
Qed.
Lemma types_dispatch_witness :
  exists t0 t, zend_init_rsrc_list_dtors = (SUCCESS, t0) /\ run_kinds sample_kinds t0 = Ok ([1; 2], t) /\
    rest (list_entry_destructor note_old note_ex note_unknown (mkLe 9 2 0) (REnv t [] None)) = [(200, 9)] /\
    zend_fetch_list_dtor_id (bs "stream") t = Ok (2, t).
Proof.
  assert (Hp : plentiful (zend_rsrc_list_dtors_entry Z)) by (intros m size; done).
  assert (Hn : Z.of_nat (length sample_kinds) <= INT_MAX) by (vm_compute; congruence).
  destruct (types_dispatch note_old note_ex note_unknown sample_kinds Hp Hn) as (t0 & t & H0 & Ht & Hd & Hf).
  exists t0, t. split; [exact H0|]. split; [exact Ht|]. split; [|exact (Hf (bs "stream"))].
  rewrite (Hd false (mkLe 9 2 0) (REnv t [] None)); [reflexivity|unfold INT_MIN, INT_MAX; simpl; lia|reflexivity].
Defined.
