(* ===== verification/ZendObjectsApi.v ===== *)
(** * zend_objects_API.c: the object store

    The store is an array of buckets indexed by handle.  The bucket of a
    handle in use holds the object's pointer, callbacks and reference count;
    that of a handle given back holds, in the same memory, the next handle
    of the free list ([bucket.free_list.next] lies over the low half of
    [bucket.obj.object]: LP64, little endian).

    The callbacks of an object (its destructor, the function that frees its
    storage, its clone function) and the cycle collector run code that can
    call the store again; they are parameters, state transformers that
    return [true] when they end in a [longjmp]. *)

From S2P Require Import Prelude.
Open Scope Z_scope.

(** Function pointers and handler tables are opaque identifiers. *)
Record zend_object_store_bucket (CB : Type) : Type := mkBucketObj {
  destructor_called : bool;
  valid : bool;
  (** [bucket.obj] *)
  object : Z;
  dtor : option CB;
  free_storage : option CB;
  clone : option CB;
  handlers : option CB;
  refcount : Z;
  buffered : Z
}.
Arguments mkBucketObj {CB}. Arguments destructor_called {CB}. Arguments valid {CB}.
Arguments object {CB}. Arguments dtor {CB}. Arguments free_storage {CB}. Arguments clone {CB}.
Arguments handlers {CB}. Arguments refcount {CB}. Arguments buffered {CB}.

(** [object_buckets] is NULL ([None]) or an array of [size] cells, those
    never written being [None]; [base] is the address of the array, which
    [erealloc] may change: a [struct _store_object *] obtained before is then
    no longer good. *)
Record zend_objects_store (CB : Type) : Type := mkStore {
  object_buckets : option (list (option (zend_object_store_bucket CB)));
  base : Z;
  top : Z;
  size : Z;
  free_list_head : Z
}.
Arguments mkStore {CB}. Arguments object_buckets {CB}. Arguments base {CB}. Arguments top {CB}. Arguments size {CB}.
Arguments free_list_head {CB}.

(** [EG(objects_store)] and everything else. *)
Record ostate (CB W : Type) : Type := OState { store : zend_objects_store CB; world : W }.
Arguments OState {CB W}. Arguments store {CB W}. Arguments world {CB W}.

Section Buckets.
Context {CB : Type}.
Implicit Types b : zend_object_store_bucket CB.

Definition set_destructor_called x b :=
  mkBucketObj x (valid b) (object b) (dtor b) (free_storage b) (clone b) (handlers b) (refcount b) (buffered b).
Definition set_valid x b :=
  mkBucketObj (destructor_called b) x (object b) (dtor b) (free_storage b) (clone b) (handlers b) (refcount b) (buffered b).
Definition set_object x b :=
  mkBucketObj (destructor_called b) (valid b) x (dtor b) (free_storage b) (clone b) (handlers b) (refcount b) (buffered b).
Definition set_handlers x b :=
  mkBucketObj (destructor_called b) (valid b) (object b) (dtor b) (free_storage b) (clone b) x (refcount b) (buffered b).
Definition set_refcount x b :=
  mkBucketObj (destructor_called b) (valid b) (object b) (dtor b) (free_storage b) (clone b) (handlers b) x (buffered b).
Definition set_buffered x b :=
  mkBucketObj (destructor_called b) (valid b) (object b) (dtor b) (free_storage b) (clone b) (handlers b) (refcount b) x.

(** The union's other member. *)
Definition free_list_next b : Z := s32 (object b `mod` 2 ^ 32).
Definition set_free_list_next (n : Z) b :=
  set_object (object b / 2 ^ 32 * 2 ^ 32 + u32 n) b.

(** [#define GC_ADDRESS(v)]: the pointer without its two colour bits. *)
Definition GC_ADDRESS (v : Z) : Z := v - v `mod` 4.
End Buckets.

Section ObjectStore.
Context {CB W : Type}.
Implicit Types (s : ostate CB W) (b : zend_object_store_bucket CB) (h : Z).

(** A callback on an object and its handle. *)
Context (call_dtor : CB -> Z -> Z -> M (ostate CB W) bool)
        (call_free : CB -> Z -> M (ostate CB W) bool)
        (call_clone : CB -> Z -> M (ostate CB W) Z).
(** [zend_objects_destroy_object], of zend_objects.c, and zend_gc.c. *)
Context (zend_objects_destroy_object : CB)
        (gc_active : W -> bool)
        (gc_remove_from_buffer : Z -> W -> W)
        (gc_zobj_possible_root : Z -> M (ostate CB W) unit).

Definition set_store (f : zend_objects_store CB -> zend_objects_store CB) : M (ostate CB W) unit :=
  modify (fun s => OState (f (store s)) (world s)).

(** [EG(objects_store).object_buckets[h]]: read and written. *)
Definition cells s : res (list (option (zend_object_store_bucket CB))) :=
  match object_buckets (store s) with Some cs => Ok cs | None => Err NullDeref end.
Definition bucket h s : res (zend_object_store_bucket CB) :=
  cs ← cells s;
  if h <? 0 then Err OutOfBounds
  else match cs !! Z.to_nat h with
       | Some (Some b) => Ok b
       | Some None => Err DanglingPointer
       | None => Err OutOfBounds
       end.
Definition write_bucket h b : M (ostate CB W) unit :=
  s ← get_st;
  cs ← reading cells;
  if (0 <=? h) && (h <? Z.of_nat (length cs)) then
    set_store (fun o => mkStore (Some (<[Z.to_nat h := Some b]> cs)) (base o) (top o) (size o) (free_list_head o))
  else throw OutOfBounds.
Definition update_bucket h (f : zend_object_store_bucket CB -> zend_object_store_bucket CB)
    : M (ostate CB W) unit :=
  b ← reading (bucket h); write_bucket h (f b).

(** [obj = &object_buckets[h].bucket.obj], kept across calls: the array it
    points into, and the handle. *)
Definition obj_ptr : Type := Z * Z.
Definition obj_at h s : obj_ptr := (base (store s), h).
Definition through (p : obj_ptr) (f : zend_object_store_bucket CB -> zend_object_store_bucket CB)
    : M (ostate CB W) unit :=
  s ← get_st;
  if fst p =? base (store s) then update_bucket (snd p) f else throw DanglingPointer.

(** [emalloc] of the array; [memset] clears the bucket of handle 0. *)
Definition zero_bucket : zend_object_store_bucket CB :=
  mkBucketObj false false 0 None None None None 0 0.
Definition zend_objects_store_init (init_size : Z) : M (ostate CB W) unit :=
  set_store (fun o => mkStore (Some (replicate (Z.to_nat init_size) None)) (base o + 1) 1 init_size (-1));;
  write_bucket 0 zero_bucket.

Definition zend_objects_store_destroy : M (ostate CB W) unit :=
  set_store (fun o => mkStore None (base o) (top o) (size o) (free_list_head o)).

(** The bodies of the three loops [for (i = 1; i < objects->top; i++)] go by
    the [top] of the moment; [n] bounds the turns. *)
Fixpoint for_handles (fuel : nat) (i : Z) (body : Z -> M (ostate CB W) bool) : M (ostate CB W) bool :=
  match fuel with
  | O => throw OutOfFuel
  | S fuel' =>
      s ← get_st;
      if i <? top (store s) then
        stop ← body i;
        if (stop : bool) then mret true else for_handles fuel' (i + 1) body
      else mret false
  end.

(** One turn of [zend_objects_store_call_destructors]; a [longjmp] out of the
    destructor leaves the loop, and the count as it is. *)
Definition call_destructor_of (i : Z) : M (ostate CB W) bool :=
  b ← reading (bucket i);
  if valid b then
    if negb (destructor_called b) then
      update_bucket i (set_destructor_called true);;
      match dtor b with
      | Some d =>
          if negb (object b =? 0) then
            update_bucket i (fun b => set_refcount (u32 (refcount b + 1)) b);;
            jumped ← call_dtor d (object b) i;
            if (jumped : bool) then mret true
            else update_bucket i (fun b => set_refcount (u32 (refcount b - 1)) b);; mret false
          else mret false
      | None => mret false
      end
    else mret false
  else mret false.
Definition zend_objects_store_call_destructors (fuel : nat) : M (ostate CB W) bool :=
  for_handles fuel 1 call_destructor_of.

Definition mark_destructed_at (i : Z) : M (ostate CB W) bool :=
  b ← reading (bucket i);
  (if valid b then update_bucket i (set_destructor_called true) else mret tt);;
  mret false.
Definition zend_objects_store_mark_destructed (fuel : nat) : M (ostate CB W) bool :=
  s ← get_st;
  match object_buckets (store s) with
  | None => mret false
  | Some _ => for_handles fuel 1 mark_destructed_at
  end.

(** [GC_REMOVE_ZOBJ_FROM_BUFFER(obj)] *)
Definition GC_REMOVE_ZOBJ_FROM_BUFFER h : M (ostate CB W) unit :=
  b ← reading (bucket h);
  s ← get_st;
  if negb (GC_ADDRESS (buffered b) =? 0) && negb (gc_active (world s)) then
    modify (fun s => OState (store s) (gc_remove_from_buffer (GC_ADDRESS (buffered b)) (world s)));;
    update_bucket h (set_buffered 0)
  else mret tt.

Definition free_storage_of (i : Z) : M (ostate CB W) bool :=
  b ← reading (bucket i);
  if valid b then
    GC_REMOVE_ZOBJ_FROM_BUFFER i;;
    update_bucket i (set_valid false);;
    match free_storage b with
    | Some f => call_free f (object b)
    | None => mret false
    end
  else mret false.
Definition zend_objects_store_free_object_storage (fuel : nat) : M (ostate CB W) bool :=
  for_handles fuel 1 free_storage_of.

(** ** Taking and giving back handles *)

Definition zend_objects_store_put (obj : Z) (d f c : option CB) : M (ostate CB W) Z :=
  s ← get_st;
  handle ←
    (if negb (free_list_head (store s) =? -1) then
       let handle := u32 (free_list_head (store s)) in
       b ← reading (bucket handle);
       set_store (fun o => mkStore (object_buckets o) (base o) (top o) (size o) (free_list_next b));;
       mret handle
     else
       (if top (store s) =? size (store s) then
          let sz := u32 (Z.shiftl (size (store s)) 1) in
          cs ← reading cells;
          set_store (fun o =>
            mkStore (Some (take (Z.to_nat sz) (cs ++ replicate (Z.to_nat sz - length cs) None)))
              (base o + 1) (top o) sz (free_list_head o))
        else mret tt);;
       set_store (fun o => mkStore (object_buckets o) (base o) (u32 (top o + 1)) (size o) (free_list_head o));;
       mret (top (store s)));
  write_bucket handle
    (mkBucketObj false true obj
       (match d with Some _ => d | None => Some zend_objects_destroy_object end) f c None 1 0);;
  mret handle.

(** [ZEND_OBJECTS_STORE_ADD_TO_FREE_LIST()] *)
Definition ZEND_OBJECTS_STORE_ADD_TO_FREE_LIST (handle : Z) : M (ostate CB W) unit :=
  s ← get_st;
  update_bucket handle (set_free_list_next (free_list_head (store s)));;
  set_store (fun o => mkStore (object_buckets o) (base o) (top o) (size o) (s32 handle));;
  update_bucket handle (set_valid false).

(** ** References *)

(** The zval of type object, as far as the store reads and writes it. *)
Record zval : Type := mkZval { z_handle : Z; z_handlers : option CB; z_refcount : Z }.

Definition zend_objects_store_get_refcount (zobject : zval) s : res Z :=
  b ← bucket (z_handle zobject) s; Ok (refcount b).
Definition zend_objects_store_add_ref_by_handle (handle : Z) : M (ostate CB W) unit :=
  update_bucket handle (fun b => set_refcount (u32 (refcount b + 1)) b).
Definition zend_objects_store_add_ref (zobject : zval) : M (ostate CB W) unit :=
  update_bucket (z_handle zobject) (fun b => set_refcount (u32 (refcount b + 1)) b).

(** The destructor is called once, under the caller's reference. *)
Definition call_destructor_once (handle : Z) (hs : option CB) : M (ostate CB W) bool :=
  b ← reading (bucket handle);
  if negb (destructor_called b) then
    update_bucket handle (set_destructor_called true);;
    match dtor b with
    | Some d =>
        match hs, handlers b with
        | Some _, None => update_bucket handle (set_handlers hs)
        | _, _ => mret tt
        end;;
        call_dtor d (object b) handle
    | None => mret false
    end
  else mret false.
(** The last reference is gone: the storage is freed, the handle recycled. *)
Definition release_object (handle : Z) : M (ostate CB W) bool :=
  GC_REMOVE_ZOBJ_FROM_BUFFER handle;;
  b ← reading (bucket handle);
  jumped ← match free_storage b with
           | Some f => call_free f (object b)
           | None => mret false
           end;
  ZEND_OBJECTS_STORE_ADD_TO_FREE_LIST handle;;
  mret jumped.
(** The answer is [failure]: whether the function ends in [zend_bailout()].
    [obj] is computed anew after the destructor, but not after
    [free_storage], which may have made the store grow. *)
Definition zend_objects_store_del_ref_by_handle_ex (handle : Z) (hs : option CB)
    : M (ostate CB W) bool :=
  s ← get_st;
  match object_buckets (store s) with
  | None => mret false
  | Some _ =>
      let obj := obj_at handle s in
      b ← reading (bucket handle);
      '(failure, obj) ←
        (if valid b && (refcount b =? 1) then
           failure1 ← call_destructor_once handle hs;
           s ← get_st;
           let obj := obj_at handle s in
           b ← reading (bucket handle);
           if refcount b =? 1 then
             failure2 ← release_object handle;
             mret (failure1 || failure2, obj)
           else mret (failure1, obj)
         else mret (false, obj));
      through obj (fun b => set_refcount (u32 (refcount b - 1)) b);;
      mret failure
  end.
Definition zend_objects_store_del_ref_by_handle (handle : Z) : M (ostate CB W) bool :=
  zend_objects_store_del_ref_by_handle_ex handle None.

(** [GC_ZOBJ_CHECK_POSSIBLE_ROOT(zobject)] *)
Definition GC_ZOBJ_CHECK_POSSIBLE_ROOT (zobject : zval) : M (ostate CB W) unit :=
  s ← get_st;
  match object_buckets (store s) with
  | None => mret tt
  | Some _ =>
      b ← reading (bucket (z_handle zobject));
      if valid b then gc_zobj_possible_root (z_handle zobject) else mret tt
  end.
(** The zval's own count is raised during the call; the answer has the zval
    as it is left ([failure] skips what follows the call). *)
Definition zend_objects_store_del_ref (zobject : zval) : M (ostate CB W) (bool * zval) :=
  let raised := mkZval (z_handle zobject) (z_handlers zobject) (u32 (z_refcount zobject + 1)) in
  failure ← zend_objects_store_del_ref_by_handle_ex (z_handle zobject) (z_handlers zobject);
  if (failure : bool) then mret (true, raised)
  else
    GC_ZOBJ_CHECK_POSSIBLE_ROOT zobject;;
    mret (false, mkZval (z_handle raised) (z_handlers raised) (u32 (z_refcount raised - 1))).

(** ** Objects *)

Definition zend_objects_store_clone_obj (zobject : zval) : M (ostate CB W) (Z * option CB) :=
  let handle := z_handle zobject in
  b ← reading (bucket handle);
  match clone b with
  | None => throw Bailout
  | Some c =>
      new_object ← call_clone c (object b);
      b ← reading (bucket handle);
      new_handle ← zend_objects_store_put new_object (dtor b) (free_storage b) (clone b);
      update_bucket handle (set_handlers (z_handlers zobject));;
      mret (new_handle, z_handlers zobject)
  end.

Definition zend_object_store_get_object (zobject : zval) s : res Z :=
  b ← bucket (z_handle zobject) s; Ok (object b).
Definition zend_object_store_get_object_by_handle (handle : Z) s : res Z :=
  b ← bucket handle s; Ok (object b).
Definition zend_object_store_set_object (zobject : zval) (obj : Z) : M (ostate CB W) unit :=
  update_bucket (z_handle zobject) (set_object obj).
Definition zend_object_store_ctor_failed (zobject : zval) : M (ostate CB W) unit :=
  update_bucket (z_handle zobject) (fun b => set_destructor_called true (set_handlers (z_handlers zobject) b)).
End ObjectStore.
