(* ===== verification/ZendObjectsApiSpec.v ===== *)
(** * The object store: handles, free list, reference counts

    [store_ok s fl]: the store is well formed, with the handles [fl] on the
    free list, first out first.  A handle in use is never handed out again;
    the last reference calls the destructor once, frees the storage and gives
    the handle back. *)

From S2P Require Import Prelude ZendObjectsApi.
Open Scope Z_scope.

Section Spec.
Context {CB W : Type}.
Implicit Types (s : ostate CB W) (b : zend_object_store_bucket CB) (h : Z) (fl : list Z).

Fixpoint free_chain s (hd : Z) fl : Prop :=
  match fl with
  | [] => hd = -1
  | h :: fl' => hd = h /\ exists b, bucket h s = Ok b /\ free_chain s (free_list_next b) fl'
  end.

Record store_ok s fl : Prop := {
  so_cells : exists cs, object_buckets (store s) = Some cs /\ Z.of_nat (length cs) = size (store s);
  so_top : 1 <= top (store s) <= size (store s) /\ size (store s) < 2 ^ 31;
  so_init : forall h, 0 <= h < top (store s) -> exists b, bucket h s = Ok b;
  so_chain : free_chain s (free_list_head (store s)) fl;
  so_nodup : NoDup fl;
  so_free : forall h, h ∈ fl -> 1 <= h < top (store s);
  so_valid : forall h b, 1 <= h < top (store s) -> bucket h s = Ok b -> valid b = false <-> h ∈ fl;
  so_count : forall h b, 1 <= h < top (store s) -> bucket h s = Ok b -> valid b = true ->
    1 <= refcount b < 2 ^ 32
}.

(** The handle is in use. *)
Definition live s h b : Prop := 1 <= h < top (store s) /\ bucket h s = Ok b /\ valid b = true.

(** ** Reading and writing buckets *)

Lemma bucket_write s h b s' :
  write_bucket h b s = Ok (tt, s') ->
  0 <= h /\ bucket h s' = Ok b /\ (forall h', 0 <= h' -> h' <> h -> bucket h' s' = bucket h' s) /\
  base (store s') = base (store s) /\ top (store s') = top (store s) /\
  size (store s') = size (store s) /\ free_list_head (store s') = free_list_head (store s) /\
  world s' = world s /\
  (forall cs, object_buckets (store s) = Some cs -> exists cs', object_buckets (store s') = Some cs' /\
     length cs' = length cs).
Proof.
  unfold write_bucket. rewrite mbind_get. unfold mbind, M_bind, reading, cells.
  destruct (object_buckets (store s)) as [cs|] eqn:E; [|done].
  destruct (Z.leb_spec 0 h), (Z.ltb_spec h (Z.of_nat (length cs))); cbn [andb]; try done.
  intros [= <-]. unfold bucket, cells. simpl. rewrite E. simpl.
  split; [done|]. split.
  { rewrite (proj2 (Z.ltb_ge _ _)) by lia. by rewrite list_lookup_insert_eq by lia. }
  split; [|split_and!; try done].
  - intros h' Hh' Hne. destruct (Z.ltb_spec h' 0); [lia|]. rewrite list_lookup_insert_ne by lia. done.
  - intros cs0 [= <-]. eexists. split; [done|]. by rewrite length_insert.
Qed.

Lemma write_ok s h b cs :
  object_buckets (store s) = Some cs -> 0 <= h < Z.of_nat (length cs) ->
  exists s', write_bucket h b s = Ok (tt, s').
Proof.
  intros E Hh. unfold write_bucket. rewrite mbind_get. unfold mbind, M_bind, reading, cells. rewrite E.
  rewrite (proj2 (Z.leb_le _ _)), (proj2 (Z.ltb_lt _ _)) by lia. by eexists.
Qed.

Lemma bucket_range s h b cs :
  object_buckets (store s) = Some cs -> bucket h s = Ok b -> 0 <= h < Z.of_nat (length cs).
Proof.
  intros E. unfold bucket, cells. rewrite E. simpl. destruct (Z.ltb_spec h 0); [done|].
  destruct (cs !! Z.to_nat h) eqn:El; [|done]. apply lookup_lt_Some in El. lia.
Qed.

(** The store after one bucket has been rewritten. *)
Definition rewritten s s' h b : Prop :=
  bucket h s' = Ok b /\ (forall h', 0 <= h' -> h' <> h -> bucket h' s' = bucket h' s) /\
  base (store s') = base (store s) /\ top (store s') = top (store s) /\
  size (store s') = size (store s) /\ free_list_head (store s') = free_list_head (store s) /\
  world s' = world s /\
  (forall cs, object_buckets (store s) = Some cs -> exists cs', object_buckets (store s') = Some cs' /\
     length cs' = length cs).

Lemma update_spec s h b f :
  bucket h s = Ok b ->
  exists s', update_bucket h f s = Ok (tt, s') /\ rewritten s s' h (f b).
Proof.
  intros Hb. unfold update_bucket. erewrite mbind_reading by done.
  destruct (object_buckets (store s)) as [cs|] eqn:E.
  - destruct (write_ok s h (f b) cs E (bucket_range _ _ _ _ E Hb)) as [s' Hs']. exists s'.
    split; [done|]. by destruct (bucket_write _ _ _ _ Hs') as (_ & ?).
  - unfold bucket, cells in Hb. by rewrite E in Hb.
Qed.

Lemma chain_ext s s' fl : forall hd,
  (forall h b, h ∈ fl -> bucket h s = Ok b ->
     exists b', bucket h s' = Ok b' /\ free_list_next b' = free_list_next b) ->
  free_chain s hd fl -> free_chain s' hd fl.
Proof.
  induction fl as [|h fl IH]; intros hd Hf; simpl; [done|]. intros (-> & b & Hb & Hc).
  split; [done|]. destruct (Hf h b) as (b' & Hb' & Hn); [set_solver|done|].
  exists b'. split; [done|]. rewrite Hn. apply IH; [|done]. intros h' b'' ?. apply Hf. set_solver.
Qed.

Lemma live_not_free s fl h b : store_ok s fl -> live s h b -> h ∉ fl.
Proof.
  intros Hok (Hr & Hb & Hv) Hin. apply (so_valid _ _ Hok h b Hr Hb) in Hin. congruence.
Qed.
Lemma ok_cells s fl : store_ok s fl -> exists cs, object_buckets (store s) = Some cs.
Proof. intros Hok. destruct (so_cells _ _ Hok) as (cs & E & _). by exists cs. Qed.

(** Rewriting a bucket in a way that keeps its part in the invariant. *)
Lemma rewritten_keeps s s' fl h b b' :
  store_ok s fl -> 1 <= h < top (store s) -> bucket h s = Ok b -> rewritten s s' h b' ->
  valid b' = valid b -> (h ∈ fl -> free_list_next b' = free_list_next b) ->
  (valid b' = true -> 1 <= refcount b' < 2 ^ 32) -> store_ok s' fl.
Proof.
  intros Hok Hr Hb (Hb' & Ho & Hbase & Ht & Hsz & Hfl & _ & Hcs) Hv Hn Hc.
  destruct (so_cells _ _ Hok) as (cs & Ecs & Hlen). destruct (Hcs cs Ecs) as (cs' & Ecs' & Hlen').
  split.
  - exists cs'. split; [done|]. rewrite Hsz. lia.
  - rewrite Ht, Hsz. apply Hok.
  - intros h' Hh'. rewrite Ht in Hh'. destruct (decide (h' = h)) as [->|Hne]; [by eexists|].
    rewrite Ho by lia. by apply (so_init _ _ Hok).
  - rewrite Hfl. eapply chain_ext; [|apply (so_chain _ _ Hok)]. intros x bx Hx Hbx.
    destruct (decide (x = h)) as [->|Hne].
    + exists b'. rewrite Hb in Hbx. injection Hbx as <-. by split; [|apply Hn].
    + exists bx. split; [|done]. rewrite Ho; [done| |done]. pose proof (so_free _ _ Hok x Hx). lia.
  - apply (so_nodup _ _ Hok).
  - rewrite Ht. apply (so_free _ _ Hok).
  - intros x bx Hx Hbx. rewrite Ht in Hx. destruct (decide (x = h)) as [->|Hne].
    + rewrite Hb' in Hbx. injection Hbx as <-. rewrite Hv. by apply (so_valid _ _ Hok).
    + rewrite Ho in Hbx by lia. by apply (so_valid _ _ Hok).
  - intros x bx Hx Hbx Hvx. rewrite Ht in Hx. destruct (decide (x = h)) as [->|Hne].
    + rewrite Hb' in Hbx. injection Hbx as <-. by apply Hc.
    + rewrite Ho in Hbx by lia. by apply (so_count _ _ Hok x).
Qed.
Lemma rewritten_ok s s' fl h b b' :
  store_ok s fl -> live s h b -> rewritten s s' h b' -> valid b' = true -> 1 <= refcount b' < 2 ^ 32 ->
  store_ok s' fl /\ live s' h b'.
Proof.
  intros Hok Hl Hrw Hv Hc. pose proof (live_not_free _ _ _ _ Hok Hl) as Hnf. destruct Hl as (Hr & Hb & Hv0).
  split; [|destruct Hrw as (? & _ & _ & Ht & _); by split; [rewrite Ht|]].
  eapply rewritten_keeps; [done|exact Hr|exact Hb|exact Hrw|congruence|done|done].
Qed.

(** ** The union *)

Lemma free_list_next_set n b : -1 <= n < 2 ^ 31 -> free_list_next (set_free_list_next n b) = n.
Proof.
  intros Hn. unfold free_list_next, set_free_list_next, set_object. cbn [object].
  pose proof (u32_range n). rewrite Z.add_comm, Z.mod_add by lia. rewrite Z.mod_small by lia.
  unfold s32, u32. destruct (decide (n = -1)) as [->|]; [done|].
  rewrite (Z.mod_small n) by lia. rewrite Z.mod_small; lia.
Qed.

(** ** Initialisation *)

Lemma store_init_spec n s :
  1 <= n < 2 ^ 31 ->
  exists s', zend_objects_store_init n s = Ok (tt, s') /\ store_ok s' [] /\ world s' = world s /\
    top (store s') = 1 /\ size (store s') = n.
Proof.
  intros Hn. unfold zend_objects_store_init, set_store. rewrite mbind_modify.
  set (s1 := OState _ _).
  destruct (write_ok s1 0 (@zero_bucket CB) (replicate (Z.to_nat n) None) eq_refl) as [s' Hs'].
  { rewrite length_replicate. lia. }
  destruct (bucket_write _ _ _ _ Hs') as (_ & Hb & _ & _ & Ht & Hsz & Hfl & Hw & Hcs).
  destruct (Hcs _ eq_refl) as (cs' & Ecs' & Hlen). rewrite length_replicate in Hlen.
  exists s'. simpl in *. split; [done|]. split_and!; [|done|done|done].
  split; rewrite ?Ht, ?Hsz, ?Hfl.
  - exists cs'. split; [done|]. lia.
  - lia.
  - intros h Hh. assert (h = 0) as -> by lia. by eexists.
  - done.
  - apply NoDup_nil_2.
  - intros h Hh. set_solver.
  - intros. lia.
  - intros. lia.
Qed.
End Spec.

Section Put.
Context {CB W : Type} (default_dtor : CB).
Implicit Types (s : ostate CB W) (b : zend_object_store_bucket CB) (h : Z) (fl : list Z).

Definition new_bucket (obj : Z) (d f c : option CB) : zend_object_store_bucket CB :=
  mkBucketObj false true obj (match d with Some _ => d | None => Some default_dtor end) f c None 1 0.

(** The handle given out: the last given back, or the next one never used. *)
Definition next_handle s fl : Z := match fl with [] => top (store s) | h :: _ => h end.

(** The free list is popped. *)
Lemma pop_spec s h fl b :
  store_ok s (h :: fl) -> bucket h s = Ok b ->
  free_chain s (free_list_next b) fl /\ NoDup fl /\ h ∉ fl /\ 1 <= h < top (store s) /\
  free_list_head (store s) = h.
Proof.
  intros Hok Hb. destruct (so_chain _ _ Hok) as (He & b' & Hb' & Hc). rewrite Hb in Hb'. injection Hb' as <-.
  pose proof (so_nodup _ _ Hok) as Hnd. apply NoDup_cons in Hnd as [Hni Hnd].
  split_and!; try done; apply (so_free _ _ Hok h); set_solver.
Qed.

Lemma bucket_ext s s' h :
  object_buckets (store s') = object_buckets (store s) -> bucket h s' = bucket h s.
Proof. intros E. unfold bucket, cells. by rewrite E. Qed.

Lemma put_reuse s h fl obj d f c :
  store_ok s (h :: fl) ->
  exists s', zend_objects_store_put default_dtor obj d f c s = Ok (h, s') /\ store_ok s' fl /\
    live s' h (new_bucket obj d f c) /\ base (store s') = base (store s) /\
    top (store s') = top (store s) /\ world s' = world s /\
    (forall h', 0 <= h' -> h' <> h -> bucket h' s' = bucket h' s).
Proof.
  intros Hok. destruct (so_chain _ _ Hok) as (_ & b & Hb & _).
  destruct (pop_spec s h fl b Hok Hb) as (Hc & Hnd & Hni & Hr & Hhd).
  destruct (so_cells _ _ Hok) as (cs & Ecs & Hlen). pose proof (so_top _ _ Hok) as Htop.
  unfold zend_objects_store_put. rewrite mbind_get, Hhd.
  rewrite (proj2 (Z.eqb_neq h (-1))) by lia. cbn [negb].
  rewrite u32_small by lia. rewrite mbind_assoc. erewrite mbind_reading by done.
  unfold set_store at 1. rewrite mbind_assoc, mbind_modify, mbind_ret.
  set (s1 := OState _ _).
  destruct (write_ok s1 h (new_bucket obj d f c) cs Ecs) as [s' Hs']; [lia|].
  erewrite mbind_ok by exact Hs'.
  destruct (bucket_write _ _ _ _ Hs') as (_ & Hb' & Ho & Hbase & Ht & Hsz & Hfl & Hw & Hcs).
  destruct (Hcs cs Ecs) as (cs' & Ecs' & Hlen'). simpl in Hbase, Ht, Hsz, Hfl, Hw.
  assert (Ho' : forall h', 0 <= h' -> h' <> h -> bucket h' s' = bucket h' s).
  { intros h' Hh' Hne. rewrite Ho by done. by apply bucket_ext. }
  exists s'. split; [done|]. split.
  2:{ split_and!; try done. by split; [rewrite Ht|]. }
  split; rewrite ?Ht, ?Hsz, ?Hfl.
  - exists cs'. split; [done|]. lia.
  - done.
  - intros x Hx. destruct (decide (x = h)) as [->|]; [by eexists|]. rewrite Ho' by lia.
    by apply (so_init _ _ Hok).
  - eapply chain_ext; [|exact Hc]. intros x bx Hx Hbx. exists bx. split; [|done].
    rewrite Ho'; [done| |by intros ->]. pose proof (so_free _ _ Hok x ltac:(set_solver)). lia.
  - done.
  - intros x Hx. apply (so_free _ _ Hok). set_solver.
  - intros x bx Hx Hbx. destruct (decide (x = h)) as [->|Hne].
    + rewrite Hb' in Hbx. injection Hbx as <-. done.
    + rewrite Ho' in Hbx by lia. rewrite (so_valid _ _ Hok x bx Hx Hbx). set_solver.
  - intros x bx Hx Hbx Hv. destruct (decide (x = h)) as [->|Hne].
    + rewrite Hb' in Hbx. injection Hbx as <-. simpl. lia.
    + rewrite Ho' in Hbx by lia. by apply (so_count _ _ Hok x).
Qed.

(** The array is grown when it is full. *)
Definition room s : Prop := top (store s) = size (store s) -> 2 * size (store s) < 2 ^ 31.
Definition grown s : Z := if top (store s) =? size (store s) then 2 * size (store s) else size (store s).

Lemma grow_spec s :
  store_ok s [] -> room s ->
  exists s1 cs1, (if top (store s) =? size (store s) then
      let sz := u32 (Z.shiftl (size (store s)) 1) in
      cs ← reading cells;
      set_store (fun o =>
        mkStore (Some (take (Z.to_nat sz) (cs ++ replicate (Z.to_nat sz - length cs) None)))
          (base o + 1) (top o) sz (free_list_head o))
    else mret tt) s = Ok (tt, s1) /\
    object_buckets (store s1) = Some cs1 /\ Z.of_nat (length cs1) = grown s /\
    size (store s1) = grown s /\ top (store s1) = top (store s) /\
    free_list_head (store s1) = free_list_head (store s) /\ world s1 = world s /\
    (top (store s) <> size (store s) -> base (store s1) = base (store s)) /\
    (forall h, 0 <= h < top (store s) -> bucket h s1 = bucket h s).
Proof.
  intros Hok Hroom. destruct (so_cells _ _ Hok) as (cs & Ecs & Hlen). pose proof (so_top _ _ Hok) as Htop.
  unfold grown. destruct (Z.eqb_spec (top (store s)) (size (store s))) as [Hfull|Hnf].
  - specialize (Hroom Hfull). cbv zeta.
    assert (u32 (Z.shiftl (size (store s)) 1) = 2 * size (store s)) as ->.
    { rewrite Z.shiftl_mul_pow2, u32_small by lia. lia. }
    assert (Hc : cells s = Ok cs) by (unfold cells; by rewrite Ecs).
    erewrite mbind_reading by exact Hc. unfold set_store, modify.
    assert (Hl : length (cs ++ replicate (Z.to_nat (2 * size (store s)) - length cs)
      (@None (zend_object_store_bucket CB))) = Z.to_nat (2 * size (store s))).
    { rewrite length_app, length_replicate. lia. }
    rewrite take_ge by lia. eexists _, _. split; [done|]. simpl.
    split; [done|]. split; [lia|]. split_and!; try done.
    intros h Hh. unfold bucket, cells. simpl. rewrite Ecs. simpl.
    destruct (h <? 0); [done|]. by rewrite lookup_app_l by lia.
  - exists s, cs. split; [done|]. split_and!; done.
Qed.

Lemma put_fresh s obj d f c :
  store_ok s [] -> room s ->
  exists s', zend_objects_store_put default_dtor obj d f c s = Ok (top (store s), s') /\ store_ok s' [] /\
    live s' (top (store s)) (new_bucket obj d f c) /\ top (store s') = top (store s) + 1 /\
    world s' = world s /\ (forall h', 0 <= h' < top (store s) -> bucket h' s' = bucket h' s).
Proof.
  intros Hok Hroom. destruct (grow_spec s Hok Hroom) as
    (s1 & cs1 & Hg & Ecs & Hlen & Hsz & Ht & Hfl & Hw & _ & Hsame).
  pose proof (so_top _ _ Hok) as Htop. pose proof (so_chain _ _ Hok) as Hhd. simpl in Hhd.
  assert (Hgr : top (store s) < grown s < 2 ^ 31).
  { unfold grown, room in *. destruct (Z.eqb_spec (top (store s)) (size (store s))); lia. }
  unfold zend_objects_store_put. rewrite mbind_get, Hhd. rewrite Z.eqb_refl. cbn [negb].
  rewrite mbind_assoc. erewrite mbind_ok by exact Hg.
  unfold set_store at 1. rewrite mbind_assoc, mbind_modify, mbind_ret.
  set (s2 := OState _ _).
  assert (Ht2 : top (store s2) = top (store s) + 1) by (simpl; rewrite Ht; apply u32_small; lia).
  destruct (write_ok s2 (top (store s)) (new_bucket obj d f c) cs1 Ecs) as [s' Hs']; [lia|].
  erewrite mbind_ok by exact Hs'.
  destruct (bucket_write _ _ _ _ Hs') as (_ & Hb' & Ho & _ & Ht' & Hsz' & Hfl' & Hw' & Hcs).
  destruct (Hcs cs1 Ecs) as (cs' & Ecs' & Hlen'). rewrite Ht2 in Ht'. simpl in Hsz', Hfl', Hw'.
  assert (Ho' : forall h', 0 <= h' < top (store s) -> bucket h' s' = bucket h' s).
  { intros h' Hh'. rewrite Ho by lia. rewrite (bucket_ext s1 s2) by done. by apply Hsame. }
  exists s'. split; [done|]. split.
  2:{ split_and!; [split; [lia|done]|done|congruence|done]. }
  split; rewrite ?Ht', ?Hsz', ?Hfl', ?Hsz.
  - exists cs'. split; [done|]. lia.
  - lia.
  - intros x Hx. destruct (decide (x = top (store s))) as [->|]; [by eexists|]. rewrite Ho' by lia.
    apply (so_init _ _ Hok). lia.
  - simpl. by rewrite Hfl.
  - apply NoDup_nil_2.
  - intros x Hx. set_solver.
  - intros x bx Hx Hbx. destruct (decide (x = top (store s))) as [->|Hne].
    + rewrite Hb' in Hbx. injection Hbx as <-. simpl. set_solver.
    + rewrite Ho' in Hbx by lia. apply (so_valid _ _ Hok x); [lia|done].
  - intros x bx Hx Hbx Hv. destruct (decide (x = top (store s))) as [->|Hne].
    + rewrite Hb' in Hbx. injection Hbx as <-. simpl. lia.
    + rewrite Ho' in Hbx by lia. apply (so_count _ _ Hok x); [lia|done|done].
Qed.

(** In both cases: the handle was not in use, and no other bucket changes. *)
Lemma store_put_spec s fl obj d f c :
  store_ok s fl -> (fl = [] -> room s) ->
  exists s', zend_objects_store_put default_dtor obj d f c s = Ok (next_handle s fl, s') /\
    store_ok s' (tail fl) /\ live s' (next_handle s fl) (new_bucket obj d f c) /\ world s' = world s /\
    (forall b, ~ live s (next_handle s fl) b) /\
    (forall h b, live s h b -> live s' h b).
Proof.
  intros Hok Hroom. destruct fl as [|h fl]; simpl.
  - destruct (put_fresh s obj d f c Hok (Hroom eq_refl)) as (s' & Hs' & Hok' & Hl & Ht & Hw & Ho).
    exists s'. split_and!; try done.
    + intros b (Hr & _). lia.
    + intros h b (Hr & Hb & Hv). split; [lia|]. split; [|done]. rewrite Ho; [done|lia].
  - destruct (put_reuse s h fl obj d f c Hok) as (s' & Hs' & Hok' & Hl & _ & Ht & Hw & Ho).
    exists s'. split_and!; try done.
    + intros b Hlb. apply (live_not_free _ _ _ _ Hok Hlb). set_solver.
    + intros h' b Hlb. pose proof (live_not_free _ _ _ _ Hok Hlb) as Hn. destruct Hlb as (Hr & Hb & Hv).
      split; [by rewrite Ht|]. split; [|done]. rewrite Ho; [done|lia|set_solver].
Qed.
End Put.

(** ** References *)

Section Refs.
Context {CB W : Type}
  (call_dtor : CB -> Z -> Z -> M (ostate CB W) bool) (call_free : CB -> Z -> M (ostate CB W) bool)
  (gc_active : W -> bool) (gc_remove_from_buffer : Z -> W -> W).
Implicit Types (s : ostate CB W) (b : zend_object_store_bucket CB) (h : Z) (fl : list Z).

Definition counted (n : Z) b : zend_object_store_bucket CB := set_refcount n b.

Lemma add_ref_spec s fl h b :
  store_ok s fl -> live s h b -> refcount b < 2 ^ 32 - 1 ->
  exists s', zend_objects_store_add_ref_by_handle h s = Ok (tt, s') /\ store_ok s' fl /\
    live s' h (counted (refcount b + 1) b) /\
    (forall h', 0 <= h' -> h' <> h -> bucket h' s' = bucket h' s) /\
    top (store s') = top (store s).
Proof.
  intros Hok Hl Hn. pose proof Hl as (Hr & Hb & Hv). pose proof (so_count _ _ Hok h b Hr Hb Hv) as Hc.
  destruct (update_spec s h b (fun b => set_refcount (u32 (refcount b + 1)) b) Hb) as (s' & Hs' & Hrw).
  exists s'. split; [exact Hs'|]. rewrite u32_small in Hrw by lia.
  destruct (rewritten_ok _ _ _ _ _ _ Hok Hl Hrw Hv) as [Hok' Hl']; [simpl; lia|].
  split_and!; [done|done|apply Hrw|apply Hrw].
Qed.

(** What the store relies on when it calls an object's functions: they
    return, whether by [longjmp] or not, leave the store well formed, and
    give back no reference but their own, so that the object stays in use. *)
Definition well_behaved (h : Z) (run : M (ostate CB W) bool) : Prop :=
  forall s fl b, store_ok s fl -> live s h b -> destructor_called b = true ->
    exists r s' fl' b', run s = Ok (r, s') /\ store_ok s' fl' /\ live s' h b' /\
      destructor_called b' = true.
(** The same, and the store does not grow meanwhile: what
    [zend_objects_store_del_ref_by_handle_ex] needs of [free_storage]. *)
Definition stays_put (run : M (ostate CB W) bool) : Prop :=
  forall s r s', run s = Ok (r, s') -> base (store s') = base (store s).

(** What the destructor finds: the mark is set, and the object has the
    caller's handlers if it had none. *)
Definition marked (hs : option CB) b : zend_object_store_bucket CB :=
  match dtor b, hs, handlers b with
  | Some _, Some _, None => set_handlers hs (set_destructor_called true b)
  | _, _, _ => set_destructor_called true b
  end.
(** Nothing when the destructor has been called before; else the bucket is
    marked and the object's destructor, if it has one, is called. *)
Definition destructed (hs : option CB) h b s r1 s1 : Prop :=
  if destructor_called b then r1 = false /\ s1 = s
  else exists s0, rewritten s s0 h (marked hs b) /\
    match dtor b with
    | Some d => call_dtor d (object b) h s0 = Ok (r1, s1)
    | None => r1 = false /\ s1 = s0
    end.
(** An object in the collector's buffer is taken out, unless the collector
    is running. *)
Definition unbuffered h b s s1 : Prop :=
  if negb (GC_ADDRESS (buffered b) =? 0) && negb (gc_active (world s)) then
    rewritten (OState (store s) (gc_remove_from_buffer (GC_ADDRESS (buffered b)) (world s))) s1 h (set_buffered 0 b)
  else s1 = s.
(** The object's [free_storage], if it has one, is called. *)
Definition storage_freed b s r s1 : Prop :=
  match free_storage b with
  | Some f => call_free f (object b) s = Ok (r, s1)
  | None => r = false /\ s1 = s
  end.
(** [h] is on the free list; nothing else has changed. *)
Definition given_back h s s' : Prop :=
  world s' = world s /\ base (store s') = base (store s) /\ top (store s') = top (store s) /\
  (forall h', 0 <= h' -> h' <> h -> bucket h' s' = bucket h' s) /\ (forall b, ~ live s' h b).

Lemma rewritten_trans s s1 s2 h b1 b2 : rewritten s s1 h b1 -> rewritten s1 s2 h b2 -> rewritten s s2 h b2.
Proof.
  intros (_ & Ho1 & ? & ? & ? & ? & ? & Hcs1) (Hb & Ho2 & ? & ? & ? & ? & ? & Hcs2).
  split; [done|]. split; [intros; rewrite Ho2, Ho1 by done; done|]. split_and!; try congruence.
  intros cs Hcs. destruct (Hcs1 cs Hcs) as (cs1 & Ecs1 & ?). destruct (Hcs2 cs1 Ecs1) as (cs2 & ? & ?).
  exists cs2. split; [done|congruence].
Qed.

Lemma call_destructor_spec s fl h b hs :
  store_ok s fl -> live s h b -> (forall d, dtor b = Some d -> well_behaved h (call_dtor d (object b) h)) ->
  exists r s' fl' b', call_destructor_once call_dtor h hs s = Ok (r, s') /\ store_ok s' fl' /\
    live s' h b' /\ destructor_called b' = true /\ destructed hs h b s r s'.
Proof.
  intros Hok Hl Hd. pose proof Hl as (Hr & Hb & Hv). unfold call_destructor_once, destructed, marked.
  erewrite mbind_reading by exact Hb. destruct (destructor_called b) eqn:Edc; cbn [negb].
  { exists false, s, fl, b. split_and!; try done. }
  destruct (update_spec s h b (set_destructor_called true) Hb) as (s1 & Hs1 & Hrw1).
  pose proof (so_count _ _ Hok h b Hr Hb Hv) as Hc.
  destruct (rewritten_ok _ _ _ _ _ _ Hok Hl Hrw1 Hv Hc) as [Hok1 Hl1].
  erewrite mbind_ok by exact Hs1. destruct (dtor b) as [d|] eqn:Ed.
  2:{ exists false, s1, fl, (set_destructor_called true b). split_and!; try done. by exists s1. }
  set (b2 := match hs, handlers b with
             | Some _, None => set_handlers hs (set_destructor_called true b)
             | _, _ => set_destructor_called true b
             end).
  assert (Hh : exists s2, (match hs, handlers b with
      | Some _, None => update_bucket h (set_handlers hs)
      | _, _ => mret tt
      end) s1 = Ok (tt, s2) /\ store_ok s2 fl /\ live s2 h b2 /\ rewritten s s2 h b2).
  { unfold b2. destruct hs as [t|]; [|by exists s1]. destruct (handlers b); [by exists s1|].
    destruct (update_spec s1 h _ (set_handlers (Some t)) (proj1 (proj2 Hl1))) as (s2 & Hs2 & Hrw2).
    destruct (rewritten_ok _ _ _ _ _ _ Hok1 Hl1 Hrw2 Hv Hc) as [Hok2 Hl2].
    exists s2. split; [exact Hs2|]. split; [done|]. split; [done|]. by eapply rewritten_trans. }
  assert (Hdc2 : destructor_called b2 = true) by (unfold b2; by destruct hs, (handlers b)).
  destruct Hh as (s2 & Hs2 & Hok2 & Hl2 & Hrw2). erewrite mbind_ok by exact Hs2.
  destruct (Hd d eq_refl s2 fl b2 Hok2 Hl2 Hdc2) as (r & s3 & fl3 & b3 & Hrun & Hok3 & Hl3 & Hdc3).
  exists r, s3, fl3, b3. split_and!; try done. by exists s2.
Qed.

Lemma store_ok_world s fl (w : W) : store_ok s fl -> store_ok (OState (store s) w) fl.
Proof.
  intros Hok. split; try apply Hok.
  eapply (chain_ext s); [|apply (so_chain _ _ Hok)]. intros x b _ Hb. by exists b.
Qed.

(** The collector's buffer is told; the store keeps all but [buffered]. *)
Lemma gc_remove_spec s fl h b :
  store_ok s fl -> live s h b ->
  exists s' b', GC_REMOVE_ZOBJ_FROM_BUFFER gc_active gc_remove_from_buffer h s = Ok (tt, s') /\
    store_ok s' fl /\ live s' h b' /\ destructor_called b' = destructor_called b /\
    refcount b' = refcount b /\ free_storage b' = free_storage b /\ object b' = object b /\
    base (store s') = base (store s) /\ unbuffered h b s s'.
Proof.
  intros Hok Hl. pose proof Hl as (Hr & Hb & Hv). pose proof (so_count _ _ Hok h b Hr Hb Hv) as Hc.
  unfold unbuffered, GC_REMOVE_ZOBJ_FROM_BUFFER. erewrite mbind_reading by exact Hb. rewrite mbind_get.
  destruct (_ && _).
  2:{ exists s, b. by split_and!. }
  rewrite mbind_modify. set (s1 := OState _ _).
  assert (Hok1 : store_ok s1 fl) by (by apply store_ok_world).
  assert (Hl1 : live s1 h b) by done.
  destruct (update_spec s1 h b (set_buffered 0) (proj1 (proj2 Hl1))) as (s2 & Hs2 & Hrw).
  destruct (rewritten_ok _ _ _ _ _ _ Hok1 Hl1 Hrw Hv Hc) as [Hok2 Hl2].
  exists s2, (set_buffered 0 b). split; [exact Hs2|]. split; [exact Hok2|]. split; [exact Hl2|].
  split_and!; try done. apply Hrw.
Qed.

(** Giving back the handle. *)
Lemma free_list_spec s fl h b :
  store_ok s fl -> live s h b ->
  exists s' b', ZEND_OBJECTS_STORE_ADD_TO_FREE_LIST h s = Ok (tt, s') /\ store_ok s' (h :: fl) /\
    bucket h s' = Ok b' /\ valid b' = false /\ 1 <= h < top (store s') /\ given_back h s s'.
Proof.
  intros Hok Hl. pose proof (live_not_free _ _ _ _ Hok Hl) as Hnf. pose proof Hl as (Hr & Hb & Hv).
  pose proof (so_count _ _ Hok h b Hr Hb Hv) as Hc. pose proof (so_top _ _ Hok) as Htop.
  assert (Hhd : -1 <= free_list_head (store s) < 2 ^ 31).
  { destruct fl as [|x fl]; pose proof (so_chain _ _ Hok) as Hch; simpl in Hch; [lia|].
    destruct Hch as [-> _]. pose proof (so_free _ _ Hok x ltac:(set_solver)). lia. }
  unfold ZEND_OBJECTS_STORE_ADD_TO_FREE_LIST. rewrite mbind_get.
  destruct (update_spec s h b (set_free_list_next (free_list_head (store s))) Hb) as (s1 & Hs1 & Hrw1).
  destruct (rewritten_ok _ _ _ _ _ _ Hok Hl Hrw1 Hv Hc) as [Hok1 Hl1].
  erewrite mbind_ok by exact Hs1. unfold set_store at 1. rewrite mbind_modify. set (s2 := OState _ _).
  assert (Hb2 : bucket h s2 = Ok (set_free_list_next (free_list_head (store s)) b)).
  { rewrite (bucket_ext s1 s2) by done. apply Hrw1. }
  destruct (update_spec s2 h _ (set_valid false) Hb2) as (s3 & Hs3 & Hb3 & Ho & Hbase & Ht & Hsz & Hfl & Hw & Hcs).
  destruct Hrw1 as (_ & Ho1 & Hbase1 & Ht1 & Hsz1 & Hfl1 & Hw1 & Hcs1).
  destruct (so_cells _ _ Hok1) as (cs & Ecs & Hlen). destruct (Hcs cs Ecs) as (cs' & Ecs' & Hlen').
  simpl in Hbase, Ht, Hsz, Hfl. rewrite s32_small in Hfl by (unfold INT_MIN, INT_MAX; lia).
  assert (Hx : forall x, 0 <= x -> x <> h -> bucket x s3 = bucket x s1).
  { intros x Hx0 Hne. rewrite Ho by done. by apply bucket_ext. }
  eexists s3, _. split; [exact Hs3|]. split.
  2:{ split; [exact Hb3|]. split; [done|]. split; [lia|]. simpl in Hw. split_and!; try congruence.
      - intros x Hx0 Hne. rewrite Hx, Ho1 by done. done.
      - intros bx (_ & Hbx & Hvx). rewrite Hb3 in Hbx. injection Hbx as <-. done. }
  split; rewrite ?Ht, ?Hsz, ?Hfl.
  - exists cs'. split; [done|lia].
  - rewrite Ht1, Hsz1. done.
  - intros x Hxr. destruct (decide (x = h)) as [->|Hne]; [by eexists|]. rewrite Hx by lia.
    by apply (so_init _ _ Hok1).
  - simpl. split; [done|]. eexists. split; [exact Hb3|].
    change (free_list_next (set_valid false ?b0)) with (free_list_next b0).
    rewrite free_list_next_set by done. rewrite <- Hfl1.
    eapply chain_ext; [|apply (so_chain _ _ Hok1)]. intros x bx Hxin Hbx. exists bx. split; [|done].
    rewrite Hx; [done| |by intros ->]. pose proof (so_free _ _ Hok1 x Hxin). lia.
  - apply NoDup_cons. split; [done|apply (so_nodup _ _ Hok1)].
  - intros x [->|Hxin]%elem_of_cons; [lia|]. apply (so_free _ _ Hok1 x Hxin).
  - intros x bx Hxr Hbx. destruct (decide (x = h)) as [->|Hne].
    + rewrite Hb3 in Hbx. injection Hbx as <-. simpl. set_solver.
    + rewrite Hx in Hbx by lia. rewrite (so_valid _ _ Hok1 x bx Hxr Hbx). set_solver.
  - intros x bx Hxr Hbx Hvx. destruct (decide (x = h)) as [->|Hne].
    + rewrite Hb3 in Hbx. injection Hbx as <-. done.
    + rewrite Hx in Hbx by lia. by apply (so_count _ _ Hok1 x).
Qed.

Lemma release_spec s fl h b :
  store_ok s fl -> live s h b -> destructor_called b = true ->
  (forall f, free_storage b = Some f ->
     well_behaved h (call_free f (object b)) /\ stays_put (call_free f (object b))) ->
  exists r s' fl' b', release_object call_free gc_active gc_remove_from_buffer h s = Ok (r, s') /\
    store_ok s' (h :: fl') /\ bucket h s' = Ok b' /\ valid b' = false /\ 1 <= h < top (store s') /\
    base (store s') = base (store s) /\
    exists s1 s2, unbuffered h b s s1 /\ storage_freed b s1 r s2 /\ store_ok s2 fl' /\ given_back h s2 s'.
Proof.
  intros Hok Hl Hdc Hf. unfold release_object.
  destruct (gc_remove_spec s fl h b Hok Hl) as (s1 & b1 & Hs1 & Hok1 & Hl1 & Hdc1 & Hrc1 & Hfs1 & Hob1 & Hba1 & Hub).
  erewrite mbind_ok by exact Hs1. erewrite mbind_reading by exact (proj1 (proj2 Hl1)).
  assert (Hcall : exists r s2 fl2 b2, (match free_storage b1 with
      | Some f => call_free f (object b1)
      | None => mret false
      end) s1 = Ok (r, s2) /\ store_ok s2 fl2 /\ live s2 h b2 /\ base (store s2) = base (store s1) /\ storage_freed b s1 r s2).
  { unfold storage_freed. rewrite Hfs1, Hob1. destruct (free_storage b) as [f|]; [|by exists false, s1, fl, b1].
    destruct (Hf f eq_refl) as [Hwb Hsp].
    destruct (Hwb s1 fl b1 Hok1 Hl1 ltac:(congruence)) as (r & s2 & fl2 & b2 & Hrun & Hok2 & Hl2 & _).
    exists r, s2, fl2, b2. split; [done|]. split; [done|]. split; [done|]. split; [exact (Hsp _ _ _ Hrun)|done]. }
  destruct Hcall as (r & s2 & fl2 & b2 & Hs2 & Hok2 & Hl2 & Hba2 & Hsf). erewrite mbind_ok by exact Hs2.
  destruct (free_list_spec s2 fl2 h b2 Hok2 Hl2) as (s3 & b3 & Hs3 & Hok3 & Hb3 & Hv3 & Hr3 & Hgb).
  erewrite mbind_ok by exact Hs3. exists r, s3, fl2, b3. repeat (split; [first [exact Hr3|done]|]).
  split; [destruct Hgb as (_ & -> & _); congruence|]. by exists s1, s2.
Qed.

Lemma given_back_rewritten s s1 s2 h b :
  given_back h s s1 -> rewritten s1 s2 h b -> valid b = false -> given_back h s s2.
Proof.
  intros (Hw & Hba & Ht & Ho & _) (Hb & Ho2 & Hba2 & Ht2 & _ & _ & Hw2 & _) Hv.
  split_and!; try congruence.
  - intros x Hx Hne. rewrite Ho2, Ho by done. done.
  - intros bx (_ & Hbx & Hvx). congruence.
Qed.

(** The decrement at the end, through the pointer. *)
Lemma through_spec s h b f :
  bucket h s = Ok b ->
  exists s', through (obj_at h s) f s = Ok (tt, s') /\ rewritten s s' h (f b).
Proof.
  intros Hb. unfold through, obj_at. rewrite mbind_get. cbn [fst snd]. rewrite Z.eqb_refl. by apply update_spec.
Qed.

(** More than one reference: one less. *)
Lemma del_ref_many s fl h b hs :
  store_ok s fl -> live s h b -> 1 < refcount b ->
  exists s', zend_objects_store_del_ref_by_handle_ex call_dtor call_free gc_active gc_remove_from_buffer h hs s
      = Ok (false, s') /\ store_ok s' fl /\ live s' h (counted (refcount b - 1) b) /\
    rewritten s s' h (counted (refcount b - 1) b).
Proof.
  intros Hok Hl Hn. pose proof Hl as (Hr & Hb & Hv). pose proof (so_count _ _ Hok h b Hr Hb Hv) as Hc.
  destruct (ok_cells _ _ Hok) as [cs Ecs].
  unfold zend_objects_store_del_ref_by_handle_ex. rewrite mbind_get, Ecs. cbv zeta.
  erewrite mbind_reading by exact Hb. rewrite (proj2 (Z.eqb_neq (refcount b) 1)) by lia.
  rewrite andb_false_r, mbind_ret.
  destruct (through_spec s h b (fun b => set_refcount (u32 (refcount b - 1)) b) Hb) as (s' & Hs' & Hrw).
  erewrite mbind_ok by exact Hs'. rewrite u32_small in Hrw by lia. exists s'. split; [done|].
  destruct (rewritten_ok _ _ _ _ _ _ Hok Hl Hrw Hv) as [Hok' Hl']; [simpl; lia|].
  by split_and!.
Qed.

(** The last reference: the destructor runs unless it has; if it made no new
    reference the storage is freed and the handle given back, else the
    object lives on. *)
Lemma del_ref_last s fl h b hs :
  store_ok s fl -> live s h b -> refcount b = 1 ->
  (forall d, dtor b = Some d -> well_behaved h (call_dtor d (object b) h)) ->
  (forall f o, well_behaved h (call_free f o) /\ stays_put (call_free f o)) ->
  let del := zend_objects_store_del_ref_by_handle_ex call_dtor call_free gc_active gc_remove_from_buffer h hs in
  exists r1 s1 fl1 b1, destructed hs h b s r1 s1 /\ store_ok s1 fl1 /\ live s1 h b1 /\
    if refcount b1 =? 1 then
      exists s2 r2 s3 fl3 s', unbuffered h b1 s1 s2 /\ storage_freed b1 s2 r2 s3 /\ store_ok s3 fl3 /\
        given_back h s3 s' /\ store_ok s' (h :: fl3) /\ del s = Ok (r1 || r2, s')
    else
      exists s', rewritten s1 s' h (counted (refcount b1 - 1) b1) /\ store_ok s' fl1 /\
        live s' h (counted (refcount b1 - 1) b1) /\ del s = Ok (r1, s').
Proof.
  intros Hok Hl Hn Hd Hf del. pose proof Hl as (Hr & Hb & Hv).
  destruct (ok_cells _ _ Hok) as [cs Ecs].
  destruct (call_destructor_spec s fl h b hs Hok Hl Hd) as (r1 & s1 & fl1 & b1 & Hs1 & Hok1 & Hl1 & Hdc1 & Hdes).
  exists r1, s1, fl1, b1. split; [done|]. split; [done|]. split; [done|].
  unfold del, zend_objects_store_del_ref_by_handle_ex. rewrite mbind_get, Ecs. cbv zeta.
  erewrite mbind_reading by exact Hb. rewrite Hv, Hn, Z.eqb_refl. cbn [andb].
  rewrite mbind_assoc. erewrite mbind_ok by exact Hs1. rewrite mbind_assoc, mbind_get.
  pose proof Hl1 as (Hr1 & Hb1 & Hv1). rewrite mbind_assoc. erewrite mbind_reading by exact Hb1.
  destruct (Z.eqb_spec (refcount b1) 1) as [He|Hne].
  - destruct (release_spec s1 fl1 h b1 Hok1 Hl1 Hdc1) as
      (r2 & s2 & fl2 & b2 & Hs2 & Hok2 & Hb2 & Hv2 & Hr2 & Hba2 & su & sf & Hub & Hsf & Hokf & Hgb); [intros; apply Hf|].
    rewrite mbind_assoc. erewrite mbind_ok by exact Hs2. rewrite mbind_ret.
    assert (obj_at h s1 = obj_at h s2) as -> by (unfold obj_at; by rewrite Hba2).
    destruct (through_spec s2 h b2 (fun b => set_refcount (u32 (refcount b - 1)) b) Hb2) as (s3 & Hs3 & Hrw).
    erewrite mbind_ok by exact Hs3. exists su, r2, sf, fl2, s3. split_and!; try done.
    + eapply given_back_rewritten; [exact Hgb|exact Hrw|done].
    + eapply rewritten_keeps; [exact Hok2|exact Hr2|exact Hb2|exact Hrw|done|done|].
      simpl. intros Hvt. congruence.
  - rewrite mbind_ret.
    destruct (through_spec s1 h b1 (fun b => set_refcount (u32 (refcount b - 1)) b) Hb1) as (s2 & Hs2 & Hrw).
    erewrite mbind_ok by exact Hs2. pose proof (so_count _ _ Hok1 h b1 Hr1 Hb1 Hv1) as Hc1.
    rewrite u32_small in Hrw by lia.
    destruct (rewritten_ok _ _ _ _ _ _ Hok1 Hl1 Hrw Hv1) as [Hok2 Hl2]; [simpl; lia|].
    exists s2. by split_and!.
Qed.
End Refs.
