(* ===== verification/ZendObjectsApiThms.v ===== *)
(** * Theorems about the object store *)

From S2P Require Import Prelude ZendObjectsApi ZendObjectsApiSpec.
Open Scope Z_scope.

(** ** A sample: the world counts the destructions and releases *)

Definition sample_cb : Type := bool.
Definition sample_dtor (cb : bool) (o h : Z) : M (ostate bool (list Z)) bool :=
  modify (fun s => OState (store s) (world s ++ [o]));; mret cb.
Definition sample_free (cb : bool) (o : Z) : M (ostate bool (list Z)) bool :=
  modify (fun s => OState (store s) (world s ++ [- o]));; mret cb.

Lemma log_well_behaved h (cb : bool) (x : Z) :
  well_behaved h (modify (fun s : ostate bool (list Z) => OState (store s) (world s ++ [x]));; mret cb).
Proof.
  intros s fl b Hok Hl Hd. exists cb, (OState (store s) (world s ++ [x])), fl, b.
  split; [done|]. split; [by apply store_ok_world|done].
Qed.
Lemma log_stays_put (cb : bool) (x : Z) :
  stays_put (modify (fun s : ostate bool (list Z) => OState (store s) (world s ++ [x]));; mret cb).
Proof. intros s r s' [= _ <-]. done. Qed.

Definition blank : ostate bool (list Z) := OState (mkStore None 0 0 0 0) [].
Definition sample_store : ostate bool (list Z) :=
  match (zend_objects_store_init 2;; zend_objects_store_put false 7 None (Some false) None) blank with
  | Ok (_, s) => s
  | Err _ => blank
  end.
Definition sample_object : zend_object_store_bucket bool := new_bucket false 7 None (Some false) None.
Lemma sample_store_ok : store_ok sample_store [] /\ live sample_store 1 sample_object.
Proof.
  destruct (store_init_spec 2 blank ltac:(lia)) as (s1 & Hs1 & Hok1 & _ & Ht1 & Hsz1).
  destruct (store_put_spec false s1 [] 7 None (Some false) None Hok1) as (s2 & Hs2 & Hok2 & Hl2 & _).
  { intros _ Hfull. congruence. }
  unfold next_handle in *. rewrite Ht1 in *.
  assert (Hrun : (zend_objects_store_init 2;; zend_objects_store_put false 7 None (Some false) None) blank
    = Ok (1, s2)) by (erewrite mbind_ok by exact Hs1; exact Hs2).
  unfold sample_store. rewrite Hrun. by split.
Qed.

(** ** Handles *)

(** C34: [zend_objects_store_put] returns a handle that no live object has:
    the one given back last, or else the next never used, growing the array
    when it is full; the new object has one reference and no destructor
    called, every other live object is untouched and the free list is left
    without that handle. *)
Theorem put_gives_unused {CB W : Type} (default_dtor : CB) (s : ostate CB W) fl obj d f c :
  store_ok s fl -> (fl = [] -> room s) ->
  exists s', zend_objects_store_put default_dtor obj d f c s = Ok (next_handle s fl, s') /\
    store_ok s' (tail fl) /\ live s' (next_handle s fl) (new_bucket default_dtor obj d f c) /\
    world s' = world s /\
    (forall b, ~ live s (next_handle s fl) b) /\
    (forall h b, live s h b -> live s' h b).
Proof. apply store_put_spec. Qed.
Lemma put_gives_unused_witness :
  exists s', zend_objects_store_put false 9 None None None sample_store = Ok (2, s') /\
    store_ok s' [] /\ live s' 2 (new_bucket false 9 None None None) /\ live s' 1 sample_object.
Proof.
  destruct sample_store_ok as [Hok Hl].
  assert (Hroom : @nil Z = [] -> room sample_store) by (intros _ _; vm_compute; reflexivity).
  destruct (put_gives_unused false sample_store [] 9 None None None Hok Hroom) as (s' & H1 & H2 & H3 & _ & _ & H6).
  exists s'. split; [exact H1|]. split; [exact H2|]. split; [exact H3|]. exact (H6 _ _ Hl).
Defined.

(** C35: dropping a reference to a live object.  If it is not the last, the
    count goes down by one and nothing else changes.  If it is, first the
    object's destructor, unless it has been called before, is called on the
    object and its handle, with [destructor_called] already set and the
    caller's handlers filled in.  Then, if the object has still one reference
    only, it is taken out of the collector's buffer, its [free_storage] is
    called on it, and its handle goes to the head of the free list, nothing
    else changing; otherwise the object lives on with one reference less.
    The answer, whether to end in [zend_bailout()], is whether one of the two
    functions jumped. *)
Theorem del_ref_outcome {CB W : Type}
    (call_dtor : CB -> Z -> Z -> M (ostate CB W) bool) (call_free : CB -> Z -> M (ostate CB W) bool)
    (gc_active : W -> bool) (gc_remove : Z -> W -> W) (s : ostate CB W) fl h b hs :
  store_ok s fl -> live s h b ->
  (forall d o, well_behaved h (call_dtor d o h)) ->
  (forall f o, well_behaved h (call_free f o) /\ stays_put (call_free f o)) ->
  let del := zend_objects_store_del_ref_by_handle_ex call_dtor call_free gc_active gc_remove h hs in
  if refcount b =? 1 then
    exists r1 s1 fl1 b1, destructed call_dtor hs h b s r1 s1 /\ store_ok s1 fl1 /\ live s1 h b1 /\
      if refcount b1 =? 1 then
        exists s2 r2 s3 fl3 s', unbuffered gc_active gc_remove h b1 s1 s2 /\
          storage_freed call_free b1 s2 r2 s3 /\ store_ok s3 fl3 /\
          given_back h s3 s' /\ store_ok s' (h :: fl3) /\ del s = Ok (r1 || r2, s')
      else
        exists s', rewritten s1 s' h (counted (refcount b1 - 1) b1) /\ store_ok s' fl1 /\
          live s' h (counted (refcount b1 - 1) b1) /\ del s = Ok (r1, s')
  else
    exists s', del s = Ok (false, s') /\ store_ok s' fl /\ live s' h (counted (refcount b - 1) b) /\
      rewritten s s' h (counted (refcount b - 1) b).
Proof.
  intros Hok Hl Hd Hf del. destruct (Z.eqb_spec (refcount b) 1) as [He|Hne].
  - by apply (del_ref_last call_dtor call_free gc_active gc_remove s fl h b).
  - apply (del_ref_many call_dtor call_free gc_active gc_remove s fl h b); [done|done|].
    destruct Hl as (Hr & Hb & Hv). pose proof (so_count _ _ Hok h b Hr Hb Hv). lia.
Qed.
Lemma del_ref_outcome_witness :
  let run := zend_objects_store_del_ref_by_handle_ex sample_dtor sample_free (fun _ => false)
        (fun _ w => w) 1 None in
  exists r1 s1 fl1 b1, destructed sample_dtor None 1 sample_object sample_store r1 s1 /\ store_ok s1 fl1 /\
    live s1 1 b1 /\
      if refcount b1 =? 1 then
        exists s2 r2 s3 fl3 s', unbuffered (fun _ => false) (fun _ w => w) 1 b1 s1 s2 /\
          storage_freed sample_free b1 s2 r2 s3 /\ store_ok s3 fl3 /\
          given_back 1 s3 s' /\ store_ok s' (1 :: fl3) /\ run sample_store = Ok (r1 || r2, s')
      else
        exists s', rewritten s1 s' 1 (counted (refcount b1 - 1) b1) /\ store_ok s' fl1 /\
          live s' 1 (counted (refcount b1 - 1) b1) /\ run sample_store = Ok (r1, s').
Proof.
  destruct sample_store_ok as [Hok Hl].
  apply (del_ref_outcome sample_dtor sample_free (fun _ => false) (fun _ w => w) sample_store [] 1
    sample_object None Hok Hl).
  - intros d o. apply log_well_behaved.
  - intros f o. split; [apply log_well_behaved|apply log_stays_put].
Defined.

(** ** Every history of the store *)



(** ** The pointer kept across [free_storage] *)

(** A [free_storage] that creates an object, as a destructor run for the
    object's properties may. *)
Definition free_that_puts (cb : bool) (o : Z) : M (ostate bool (list Z)) bool :=
  zend_objects_store_put false 8 None None None;; mret false.

(** When that makes the array move, [obj->refcount--] at the end of
    [zend_objects_store_del_ref_by_handle_ex] writes to the old one. *)
Theorem del_ref_stale_pointer :
  zend_objects_store_del_ref_by_handle_ex sample_dtor free_that_puts (fun _ => false) (fun _ w => w) 1 None
    sample_store = Err DanglingPointer.
Proof. reflexivity. Qed.
