(* ===== verification/ZendGc.v ===== *)
(** * Zend/zend_gc.c: the cycle collector

    A zval has a reference count and a word [u.buffered]: the address of its
    entry in the buffer of possible roots, with the colour in the two low
    bits; an object has both in its bucket of the object store.  The
    collector subtracts the references from within (mark grey), gives them
    back to what is held from without (scan, scan black), and moves the rest
    to a list of zvals to free, linked through the same word.

    A hash table is seen here as the list of the zvals its elements point to,
    in order.  The walk over the last element, a jump in the C text
    ([tail_call]), is a call like the others.  [get_properties] is that of the
    standard handlers. *)

From S2P Require Import Prelude Dll ZendObjectsApi.
Open Scope Z_scope.

(** ** Data *)

(** The value of a zval; the other types are told by their tag. *)
Inductive gc_value (CB : Type) : Type :=
  | V_ARRAY (ht : addr)
  | V_OBJECT (h : Z) (hs : CB)
  | V_OTHER (t : Z).
Arguments V_ARRAY {CB}. Arguments V_OBJECT {CB}. Arguments V_OTHER {CB}.

(** [u] is [u.buffered], or [u.next] in the list of the zvals to free. *)
Record zval_gc_info (CB : Type) : Type := mkGcZval {
  z_value : gc_value CB;
  refcount__gc : Z;
  is_ref__gc : bool;
  u : Z
}.
Arguments mkGcZval {CB}. Arguments z_value {CB}. Arguments refcount__gc {CB}. Arguments is_ref__gc {CB}. Arguments u {CB}.

(** [handle] is 0 for a zval; then [pz], else [r_handlers], is the union [u]. *)
Record gc_root_buffer (CB : Type) : Type := mkRoot {
  prev : ptr;
  next : ptr;
  handle : Z;
  pz : ptr;
  r_handlers : option CB
}.
Arguments mkRoot {CB}. Arguments prev {CB}. Arguments next {CB}. Arguments handle {CB}. Arguments pz {CB}. Arguments r_handlers {CB}.

(** [entries]: the structs of the buffer written so far, and [roots].
    Pointers to zvals ([zval_gc_info *]) are words. *)
Record zend_gc_globals (CB : Type) : Type := mkGlobals {
  gc_enabled : bool;
  gc_active : bool;
  buf : ptr;
  entries : gmap addr (gc_root_buffer CB);
  unused : ptr;
  first_unused : ptr;
  last_unused : ptr;
  zval_to_free : Z;
  free_list : Z;
  next_to_free : Z;
  gc_runs : Z;
  collected : Z
}.
Arguments mkGlobals {CB}. Arguments gc_enabled {CB}. Arguments gc_active {CB}. Arguments buf {CB}. Arguments entries {CB}.
Arguments unused {CB}. Arguments first_unused {CB}. Arguments last_unused {CB}. Arguments zval_to_free {CB}.
Arguments free_list {CB}. Arguments next_to_free {CB}. Arguments gc_runs {CB}. Arguments collected {CB}.

(** What the collector sees besides the object store: the zvals, the hash
    tables, the objects' structs (a [zend_object] by its property table). *)
Record gworld (CB : Type) : Type := mkWorld {
  zvals : gmap addr (zval_gc_info CB);
  tables : gmap addr (list addr);
  zend_objects : gmap Z (option addr);
  symbol_table : addr;
  gc_globals : zend_gc_globals CB
}.
Arguments mkWorld {CB}. Arguments zvals {CB}. Arguments tables {CB}. Arguments zend_objects {CB}.
Arguments symbol_table {CB}. Arguments gc_globals {CB}.
Abbreviation gstate CB := (ostate CB (gworld CB)).

(** ** Words *)

Definition GC_BLACK : Z := 0.
Definition GC_WHITE : Z := 1.
Definition GC_GREY : Z := 2.
Definition GC_PURPLE : Z := 3.

(** [GC_ADDRESS] is in ZendObjectsApi. *)
Definition GC_GET_COLOR (v : Z) : Z := v `mod` 4.
Definition GC_SET_ADDRESS (a v : Z) : Z := v `mod` 4 + a.
Definition GC_SET_COLOR (c v : Z) : Z := GC_ADDRESS v + c.
Definition GC_SET_BLACK (v : Z) : Z := GC_ADDRESS v.
Definition GC_SET_PURPLE (v : Z) : Z := GC_ADDRESS v + GC_PURPLE.

(** Structs are aligned to four bytes at least. *)
Definition word (p : ptr) : Z := match p with None => 0 | Some a => 4 * Zpos a end.
Definition ptr_of (v : Z) : ptr := if v =? 0 then None else Some (Z.to_pos (v / 4)).
Definition FREE_LIST_END : Z := 2 ^ 64 - 4.
Definition GC_ROOT_BUFFER_MAX_ENTRIES : Z := 10000.
(** [&GC_G(roots)] *)
Definition ROOTS : addr := 1%positive.

Section Setters.
Context {CB : Type}.
Implicit Types (z : zval_gc_info CB) (r : gc_root_buffer CB) (g : zend_gc_globals CB) (w : gworld CB).

Definition set_value (v : gc_value CB) z := mkGcZval v (refcount__gc z) (is_ref__gc z) (u z).
Definition set_refcount__gc c z := mkGcZval (z_value z) c (is_ref__gc z) (u z).
Definition set_is_ref b z := mkGcZval (z_value z) (refcount__gc z) b (u z).
Definition set_u v z := mkGcZval (z_value z) (refcount__gc z) (is_ref__gc z) v.
Definition set_prev p r := mkRoot p (next r) (handle r) (pz r) (r_handlers r).
Definition set_next p r := mkRoot (prev r) p (handle r) (pz r) (r_handlers r).

Definition set_gc_enabled x g := mkGlobals x (gc_active g) (buf g) (entries g) (unused g) (first_unused g) (last_unused g) (zval_to_free g) (free_list g) (next_to_free g) (gc_runs g) (collected g).
Definition set_gc_active x g := mkGlobals (gc_enabled g) x (buf g) (entries g) (unused g) (first_unused g) (last_unused g) (zval_to_free g) (free_list g) (next_to_free g) (gc_runs g) (collected g).
Definition set_buf x g := mkGlobals (gc_enabled g) (gc_active g) x (entries g) (unused g) (first_unused g) (last_unused g) (zval_to_free g) (free_list g) (next_to_free g) (gc_runs g) (collected g).
Definition set_entries (x : gmap addr (gc_root_buffer CB)) g := mkGlobals (gc_enabled g) (gc_active g) (buf g) x (unused g) (first_unused g) (last_unused g) (zval_to_free g) (free_list g) (next_to_free g) (gc_runs g) (collected g).
Definition set_unused x g := mkGlobals (gc_enabled g) (gc_active g) (buf g) (entries g) x (first_unused g) (last_unused g) (zval_to_free g) (free_list g) (next_to_free g) (gc_runs g) (collected g).
Definition set_first_unused x g := mkGlobals (gc_enabled g) (gc_active g) (buf g) (entries g) (unused g) x (last_unused g) (zval_to_free g) (free_list g) (next_to_free g) (gc_runs g) (collected g).
Definition set_last_unused x g := mkGlobals (gc_enabled g) (gc_active g) (buf g) (entries g) (unused g) (first_unused g) x (zval_to_free g) (free_list g) (next_to_free g) (gc_runs g) (collected g).
Definition set_zval_to_free x g := mkGlobals (gc_enabled g) (gc_active g) (buf g) (entries g) (unused g) (first_unused g) (last_unused g) x (free_list g) (next_to_free g) (gc_runs g) (collected g).
Definition set_free_list x g := mkGlobals (gc_enabled g) (gc_active g) (buf g) (entries g) (unused g) (first_unused g) (last_unused g) (zval_to_free g) x (next_to_free g) (gc_runs g) (collected g).
Definition set_next_to_free x g := mkGlobals (gc_enabled g) (gc_active g) (buf g) (entries g) (unused g) (first_unused g) (last_unused g) (zval_to_free g) (free_list g) x (gc_runs g) (collected g).
Definition set_gc_runs x g := mkGlobals (gc_enabled g) (gc_active g) (buf g) (entries g) (unused g) (first_unused g) (last_unused g) (zval_to_free g) (free_list g) (next_to_free g) x (collected g).
Definition set_collected x g := mkGlobals (gc_enabled g) (gc_active g) (buf g) (entries g) (unused g) (first_unused g) (last_unused g) (zval_to_free g) (free_list g) (next_to_free g) (gc_runs g) x.

Definition set_zvals (m : gmap addr (zval_gc_info CB)) w := mkWorld m (tables w) (zend_objects w) (symbol_table w) (gc_globals w).
Definition set_tables m w := mkWorld (zvals w) m (zend_objects w) (symbol_table w) (gc_globals w).
Definition set_zend_objects m w := mkWorld (zvals w) (tables w) m (symbol_table w) (gc_globals w).
Definition set_globals g w := mkWorld (zvals w) (tables w) (zend_objects w) (symbol_table w) g.
End Setters.

#[global] Instance zvals_heap {CB} : HasHeap (gstate CB) (zval_gc_info CB) := {|
  heap_of s := zvals (world s);
  upd_heap f s := OState (store s) (set_zvals (f (zvals (world s))) (world s));
  heap_of_upd f s := eq_refl
|}.
#[global] Instance roots_heap {CB} : HasHeap (gstate CB) (gc_root_buffer CB) := {|
  heap_of s := entries (gc_globals (world s));
  upd_heap f s := OState (store s)
    (set_globals (set_entries (f (entries (gc_globals (world s)))) (gc_globals (world s))) (world s));
  heap_of_upd f s := eq_refl
|}.

Section Gc.
Context {CB : Type} (has_get_properties : CB -> bool).
Notation G := (M (gstate CB)).
Implicit Types (s : gstate CB) (a : addr) (hnd : Z).

Definition upd_world (f : gworld CB -> gworld CB) : G unit := modify (fun s => OState (store s) (f (world s))).
Definition upd_globals (f : zend_gc_globals CB -> zend_gc_globals CB) : G unit :=
  upd_world (fun w => set_globals (f (gc_globals w)) w).
(** [GC_G(v)] *)
Definition GC_G {A} (v : zend_gc_globals CB -> A) : G A := s ← get_st; mret (v (gc_globals (world s))).

Definition zval_at (p : ptr) s : res (zval_gc_info CB) := deref p s.
Definition root_at (p : ptr) s : res (gc_root_buffer CB) := deref p s.
Definition upd_zval (p : ptr) (f : zval_gc_info CB -> zval_gc_info CB) : G unit := assign p f.
Definition upd_root (p : ptr) (f : gc_root_buffer CB -> gc_root_buffer CB) : G unit := assign p f.
(** The words of a zval and of an object are written. *)
Definition upd_u (p : ptr) (f : Z -> Z) : G unit := upd_zval p (fun z => set_u (f (u z)) z).
Definition upd_buffered hnd (f : Z -> Z) : G unit := update_bucket hnd (fun b => set_buffered (f (buffered b)) b).
Definition add_refcount__gc (p : ptr) (d : Z) : G unit :=
  upd_zval p (fun z => set_refcount__gc (u32 (refcount__gc z + d)) z).

(** ** The buffer of possible roots *)

Definition gc_globals_ctor_ex : zend_gc_globals CB :=
  mkGlobals false false None {[ ROOTS := mkRoot (Some ROOTS) (Some ROOTS) 0 None None ]} None None None 0 0 0 0 0.

Definition gc_reset : G unit :=
  upd_globals (set_gc_runs 0);; upd_globals (set_collected 0);;
  upd_root (Some ROOTS) (set_next (Some ROOTS));;
  upd_root (Some ROOTS) (set_prev (Some ROOTS));;
  b ← GC_G buf;
  match b with
  | Some _ =>
      upd_globals (set_unused None);; upd_globals (set_first_unused b);; upd_globals (set_zval_to_free 0)
  | None =>
      upd_globals (set_unused None);; upd_globals (set_first_unused None);; upd_globals (set_last_unused None)
  end.

(** Where [malloc] puts the buffer. *)
Definition gc_init (malloc : addr) : G unit :=
  b ← GC_G buf; enabled ← GC_G gc_enabled;
  match b with
  | None =>
      if (enabled : bool) then
        upd_globals (set_buf (Some malloc));;
        upd_globals (set_last_unused (Some (malloc + Z.to_pos GC_ROOT_BUFFER_MAX_ENTRIES)%positive));;
        gc_reset
      else mret tt
  | Some _ => mret tt
  end.

(** [root->next->prev = root->prev; ...] *)
Definition gc_remove_from_buffer (root : ptr) : G unit :=
  r ← reading (root_at root);
  upd_root (next r) (set_prev (prev r));;
  r ← reading (root_at root);
  upd_root (prev r) (set_next (next r));;
  un ← GC_G unused;
  upd_root root (set_prev un);;
  upd_globals (set_unused root).

(** The zval is garbage that is going to be deleted by the collector:
    its word is a link of the list to free. *)
Definition about_to_be_freed (p : ptr) : G bool :=
  z ← reading (zval_at p);
  fl ← GC_G free_list; b ← GC_G buf; last ← GC_G last_unused;
  mret (negb (fl =? 0) && (GC_GET_COLOR (u z) =? GC_BLACK) &&
        ((GC_ADDRESS (u z) <? word b) || (word last <=? GC_ADDRESS (u z)))).

(** A free entry of the buffer: one given back, or the next one not used yet. *)
Definition take_unused : G ptr :=
  newRoot ← GC_G unused;
  match newRoot with
  | Some _ =>
      r ← reading (root_at newRoot);
      upd_globals (set_unused (prev r));; mret newRoot
  | None =>
      first ← GC_G first_unused; last ← GC_G last_unused;
      if decide (first <> last) then
        upd_globals (set_first_unused (Pos.succ <$> first));; mret first
      else mret None
  end.
(** The entry is filled and linked in front of the others. *)
Definition link_root (newRoot : ptr) (hnd : Z) (zv : ptr) (hs : option CB) : G unit :=
  match newRoot with
  | None => throw NullDeref
  | Some a =>
      r ← reading (root_at (Some ROOTS));
      upd_globals (fun g => set_entries (<[a := mkRoot (Some ROOTS) (next r) hnd zv hs]> (entries g)) g);;
      upd_root (next r) (set_prev newRoot);;
      upd_root (Some ROOTS) (set_next newRoot)
  end.

(** When the buffer is full the collector runs, under a reference to the
    zval; [blacken] and [purple] are the writes to the word of the zval or
    object in question (see [gc_zobj_possible_root] for the first). *)
Definition make_root (collect : G Z) (zv : ptr) (blacken purple : G unit) (link : ptr -> G unit) : G unit :=
  newRoot ← take_unused;
  match newRoot with
  | Some _ => link newRoot
  | None =>
      enabled ← GC_G gc_enabled;
      if (enabled : bool) then
        add_refcount__gc zv 1;;
        collect;;
        add_refcount__gc zv (-1);;
        newRoot ← GC_G unused;
        match newRoot with
        | None => mret tt
        | Some _ =>
            purple;;
            r ← reading (root_at newRoot);
            upd_globals (set_unused (prev r));;
            link newRoot
        end
      else blacken
  end.

(** The second [GC_ZVAL_SET_BLACK] is that of the C text: it colours the zval,
    not the object. *)
Definition gc_zobj_possible_root (collect : G Z) (zv : ptr) (hnd : Z) (hs : CB) : G unit :=
  s ← get_st;
  if negb (has_get_properties hs) || bool_decide (object_buckets (store s) = None) then mret tt
  else
    b ← reading (bucket hnd);
    if negb (GC_GET_COLOR (buffered b) =? GC_PURPLE) then
      upd_buffered hnd GC_SET_PURPLE;;
      if GC_ADDRESS (buffered b) =? 0 then
        make_root collect zv (upd_u zv GC_SET_BLACK) (upd_buffered hnd GC_SET_PURPLE)
          (fun newRoot => link_root newRoot hnd None (Some hs);; upd_buffered hnd (GC_SET_ADDRESS (word newRoot)))
      else mret tt
    else mret tt.
(** [GC_ZOBJ_CHECK_POSSIBLE_ROOT(zobject)] *)
Definition gc_zobj_check_possible_root (collect : G Z) (zv : ptr) (hnd : Z) (hs : CB) : G unit :=
  s ← get_st;
  match object_buckets (store s) with
  | None => mret tt
  | Some _ =>
      b ← reading (bucket hnd);
      if valid b then gc_zobj_possible_root collect zv hnd hs else mret tt
  end.

Definition gc_zval_possible_root (collect : G Z) (zv : ptr) : G unit :=
  freed ← about_to_be_freed zv;
  z ← reading (zval_at zv);
  if (freed : bool) && negb (GC_ADDRESS (u z) =? 0) then mret tt
  else
    match z_value z with
    | V_OBJECT hnd hs => gc_zobj_check_possible_root collect zv hnd hs
    | _ =>
        if negb (GC_GET_COLOR (u z) =? GC_PURPLE) then
          upd_u zv GC_SET_PURPLE;;
          if GC_ADDRESS (u z) =? 0 then
            make_root collect zv (upd_u zv GC_SET_BLACK) (upd_u zv GC_SET_PURPLE)
              (fun newRoot => link_root newRoot 0 zv None;; upd_u zv (GC_SET_ADDRESS (word newRoot)))
          else mret tt
        else mret tt
    end.
Definition gc_zval_check_possible_root (collect : G Z) (zv : ptr) : G unit :=
  z ← reading (zval_at zv);
  match z_value z with
  | V_ARRAY _ | V_OBJECT _ _ => gc_zval_possible_root collect zv
  | V_OTHER _ => mret tt
  end.

Definition gc_remove_zval_from_buffer (zv : ptr) : G unit :=
  z ← reading (zval_at zv);
  freed ← about_to_be_freed zv;
  if (freed : bool) then
    nf ← GC_G next_to_free;
    if nf =? word zv then upd_globals (set_next_to_free (u z)) else mret tt
  else
    gc_remove_from_buffer (ptr_of (GC_ADDRESS (u z)));;
    upd_u zv (fun _ => 0).
(** [GC_REMOVE_ZVAL_FROM_BUFFER(z)] *)
Definition GC_REMOVE_ZVAL_FROM_BUFFER (zv : ptr) : G unit :=
  z ← reading (zval_at zv);
  if negb (GC_ADDRESS (u z) =? 0) then gc_remove_zval_from_buffer zv else mret tt.

(** ** Walking *)

Fixpoint for_each {A} (l : list A) (body : A -> G unit) : G unit :=
  match l with [] => mret tt | x :: l' => body x;; for_each l' body end.

(** The elements of a hash table, from [pListHead] on. *)
Definition elements_of (ht : addr) s : res (list addr) :=
  match tables (world s) !! ht with Some l => Ok l | None => Err DanglingPointer end.
(** [Z_OBJPROP_P(pz)]: the property table of the standard handlers. *)
Definition Z_OBJPROP_P (hnd : Z) s : res (option addr) :=
  b ← bucket hnd s;
  match zend_objects (world s) !! object b with Some p => Ok p | None => Err DanglingPointer end.
(** The properties of an object: [None] if it has no table. *)
Definition obj_props (hnd : Z) (hs : CB) s : res (option (list addr)) :=
  b ← bucket hnd s;
  if valid b && has_get_properties hs then
    props ← Z_OBJPROP_P hnd s;
    match props with None => Ok None | Some ht => l ← elements_of ht s; Ok (Some l) end
  else Ok (Some []).
Definition obj_elements (hnd : Z) (hs : CB) s : res (list addr) :=
  o ← obj_props hnd hs s; Ok (default [] o).
Definition has_store s : bool := match object_buckets (store s) with Some _ => true | None => false end.

(** [Z_TYPE_P(pz) == IS_ARRAY && Z_ARRVAL_P(pz) == &EG(symbol_table)] *)
Definition is_symbol_table (v : gc_value CB) s : bool :=
  match v with V_ARRAY ht => bool_decide (ht = symbol_table (world s)) | _ => false end.
(** The reference to an element is counted, except for the symbol table. *)
Definition count_element (pz : addr) (d : Z) : G unit :=
  z ← reading (zval_at (Some pz));
  s ← get_st;
  if is_symbol_table (z_value z) s then mret tt else add_refcount__gc (Some pz) d.
Definition color_of (pz : addr) s : res Z := z ← zval_at (Some pz) s; Ok (GC_GET_COLOR (u z)).
Definition obj_color (hnd : Z) s : res Z := b ← bucket hnd s; Ok (GC_GET_COLOR (buffered b)).
Definition add_obj_refcount (hnd : Z) (d : Z) : G unit :=
  update_bucket hnd (fun b => set_refcount (u32 (refcount b + d)) b).

(** Every nested call colours one more zval. *)
Definition gc_fuel s : nat := S (base.size (zvals (world s))).

Fixpoint zval_scan_black (fuel : nat) (pz : addr) : G unit :=
  match fuel with
  | O => throw OutOfFuel
  | S fuel' =>
      upd_u (Some pz) GC_SET_BLACK;;
      z ← reading (zval_at (Some pz));
      s ← get_st;
      p ← match z_value z with
          | V_OBJECT hnd hs =>
              if has_store s then
                add_obj_refcount hnd 1;;
                c ← reading (obj_color hnd);
                if negb (c =? GC_BLACK) then
                  upd_buffered hnd GC_SET_BLACK;; reading (obj_elements hnd hs)
                else mret []
              else mret []
          | V_ARRAY ht => if is_symbol_table (z_value z) s then mret [] else reading (elements_of ht)
          | V_OTHER _ => mret []
          end;
      for_each p (fun pz =>
        count_element pz 1;;
        c ← reading (color_of pz);
        if negb (c =? GC_BLACK) then zval_scan_black fuel' pz else mret tt)
  end.
Definition zobj_scan_black (fuel : nat) (hnd : Z) (hs : CB) : G unit :=
  upd_buffered hnd GC_SET_BLACK;;
  p ← reading (obj_elements hnd hs);
  for_each p (fun pz =>
    count_element pz 1;;
    c ← reading (color_of pz);
    if negb (c =? GC_BLACK) then zval_scan_black fuel pz else mret tt).

Fixpoint zval_mark_grey (fuel : nat) (pz : addr) : G unit :=
  match fuel with
  | O => throw OutOfFuel
  | S fuel' =>
      c ← reading (color_of pz);
      if negb (c =? GC_GREY) then
        upd_u (Some pz) (GC_SET_COLOR GC_GREY);;
        z ← reading (zval_at (Some pz));
        s ← get_st;
        p ← match z_value z with
            | V_OBJECT hnd hs =>
                if has_store s then
                  add_obj_refcount hnd (-1);;
                  c ← reading (obj_color hnd);
                  if negb (c =? GC_GREY) then
                    upd_buffered hnd (GC_SET_COLOR GC_GREY);; reading (obj_elements hnd hs)
                  else mret []
                else mret []
            | V_ARRAY ht =>
                if is_symbol_table (z_value z) s then upd_u (Some pz) GC_SET_BLACK;; mret []
                else reading (elements_of ht)
            | V_OTHER _ => mret []
            end;
        for_each p (fun pz => count_element pz (-1);; zval_mark_grey fuel' pz)
      else mret tt
  end.
Definition zobj_mark_grey (hnd : Z) (hs : CB) : G unit :=
  s ← get_st;
  c ← reading (obj_color hnd);
  if negb (c =? GC_GREY) then
    upd_buffered hnd (GC_SET_COLOR GC_GREY);;
    p ← reading (obj_elements hnd hs);
    for_each p (fun pz => count_element pz (-1);; zval_mark_grey (gc_fuel s) pz)
  else mret tt.

Fixpoint zval_scan (fuel : nat) (pz : addr) : G unit :=
  match fuel with
  | O => throw OutOfFuel
  | S fuel' =>
      c ← reading (color_of pz);
      if c =? GC_GREY then
        z ← reading (zval_at (Some pz));
        s ← get_st;
        p ← (if 0 <? refcount__gc z then zval_scan_black (gc_fuel s) pz;; mret []
             else
               upd_u (Some pz) (GC_SET_COLOR GC_WHITE);;
               match z_value z with
               | V_OBJECT hnd hs =>
                   if has_store s then
                     c ← reading (obj_color hnd);
                     if c =? GC_GREY then
                       b ← reading (bucket hnd);
                       if 0 <? refcount b then zobj_scan_black (gc_fuel s) hnd hs;; mret []
                       else upd_buffered hnd (GC_SET_COLOR GC_WHITE);; reading (obj_elements hnd hs)
                     else mret []
                   else mret []
               | V_ARRAY ht =>
                   if is_symbol_table (z_value z) s then upd_u (Some pz) GC_SET_BLACK;; mret []
                   else reading (elements_of ht)
               | V_OTHER _ => mret []
               end);
        for_each p (zval_scan fuel')
      else mret tt
  end.
Definition zobj_scan (hnd : Z) (hs : CB) : G unit :=
  s ← get_st;
  if has_store s then
    c ← reading (obj_color hnd);
    if c =? GC_GREY then
      b ← reading (bucket hnd);
      if 0 <? refcount b then zobj_scan_black (gc_fuel s) hnd hs
      else
        upd_buffered hnd (GC_SET_COLOR GC_WHITE);;
        p ← reading (obj_elements hnd hs);
        for_each p (zval_scan (gc_fuel s))
    else mret tt
  else mret tt.

(** PURPLE instead of BLACK to prevent buffering in nested gc calls.  An
    object without a property table ends the function early. *)
Fixpoint zval_collect_white (fuel : nat) (pz : addr) : G unit :=
  match fuel with
  | O => throw OutOfFuel
  | S fuel' =>
      z ← reading (zval_at (Some pz));
      if u z =? GC_WHITE then
        upd_u (Some pz) GC_SET_BLACK;;
        s ← get_st;
        p ← match z_value z with
            | V_OBJECT hnd hs =>
                if has_store s then
                  b ← reading (bucket hnd);
                  if buffered b =? GC_WHITE then
                    upd_buffered hnd GC_SET_PURPLE;; reading (obj_props hnd hs)
                  else mret (Some [])
                else mret (Some [])
            | V_ARRAY ht => l ← reading (elements_of ht); mret (Some l)
            | V_OTHER _ => mret (Some [])
            end;
        match p with
        | None => mret tt
        | Some p =>
            add_refcount__gc (Some pz) 1;;
            to_free ← GC_G zval_to_free;
            upd_u (Some pz) (fun _ => to_free);;
            upd_globals (set_zval_to_free (word (Some pz)));;
            for_each p (fun pz => count_element pz 1;; zval_collect_white fuel' pz)
        end
      else mret tt
  end.
Definition zobj_collect_white (hnd : Z) (hs : CB) : G unit :=
  s ← get_st;
  if has_store s then
    b ← reading (bucket hnd);
    if buffered b =? GC_WHITE then
      upd_buffered hnd GC_SET_PURPLE;;
      p ← reading (obj_elements hnd hs);
      for_each p (fun pz => count_element pz 1;; zval_collect_white (gc_fuel s) pz)
    else mret tt
  else mret tt.

(** ** The roots *)

(** [while (current != &GC_G(roots)) { body; current = current->next; }]: the
    body may unlink [current], whose own [next] stays. *)
Fixpoint for_roots (fuel : nat) (current : ptr) (body : ptr -> gc_root_buffer CB -> G unit) : G unit :=
  match fuel with
  | O => throw OutOfFuel
  | S fuel' =>
      if decide (current = Some ROOTS) then mret tt
      else
        r ← reading (root_at current);
        body current r;;
        r ← reading (root_at current);
        for_roots fuel' (next r) body
  end.
Definition all_roots (body : ptr -> gc_root_buffer CB -> G unit) : G unit :=
  s ← get_st;
  r ← reading (root_at (Some ROOTS));
  for_roots (S (base.size (entries (gc_globals (world s))))) (next r) body.
(** [current->u.handlers], through the zval made of it. *)
Definition root_handlers (r : gc_root_buffer CB) : res CB :=
  match r_handlers r with Some hs => Ok hs | None => Err NullDeref end.

Definition mark_root (current : ptr) (r : gc_root_buffer CB) : G unit :=
  s ← get_st;
  if negb (handle r =? 0) then
    if has_store s then
      c ← reading (obj_color (handle r));
      if c =? GC_PURPLE then
        hs ← reading (fun _ => root_handlers r); zobj_mark_grey (handle r) hs
      else upd_buffered (handle r) (GC_SET_ADDRESS 0);; gc_remove_from_buffer current
    else mret tt
  else
    z ← reading (zval_at (pz r));
    if GC_GET_COLOR (u z) =? GC_PURPLE then
      match pz r with Some a => zval_mark_grey (gc_fuel s) a | None => throw NullDeref end
    else upd_u (pz r) (GC_SET_ADDRESS 0);; gc_remove_from_buffer current.
Definition gc_mark_roots : G unit := all_roots mark_root.

Definition scan_root (current : ptr) (r : gc_root_buffer CB) : G unit :=
  s ← get_st;
  if negb (handle r =? 0) then
    hs ← reading (fun _ => root_handlers r); zobj_scan (handle r) hs
  else match pz r with Some a => zval_scan (gc_fuel s) a | None => throw NullDeref end.
Definition gc_scan_roots : G unit := all_roots scan_root.

Definition collect_root (current : ptr) (r : gc_root_buffer CB) : G unit :=
  s ← get_st;
  (if negb (handle r =? 0) then
     if has_store s then
       upd_buffered (handle r) (GC_SET_ADDRESS 0);;
       hs ← reading (fun _ => root_handlers r); zobj_collect_white (handle r) hs
     else mret tt
   else
     upd_u (pz r) (GC_SET_ADDRESS 0);;
     match pz r with Some a => zval_collect_white (gc_fuel s) a | None => throw NullDeref end);;
  gc_remove_from_buffer current.
Definition gc_collect_roots : G unit := all_roots collect_root.

(** The first part of [gc_collect_cycles]: the garbage is found and listed. *)
Definition find_garbage : G unit :=
  runs ← GC_G gc_runs;
  upd_globals (set_gc_runs (u32 (runs + 1)));;
  upd_globals (set_zval_to_free FREE_LIST_END);;
  upd_globals (set_gc_active true);;
  gc_mark_roots;;
  gc_scan_roots;;
  gc_collect_roots.
End Gc.
