(* ===== verification/ZendGcGraph.v ===== *)
(** * The graph the cycle collector walks

    Its nodes are the zvals and the objects; an edge is a reference that is
    counted.  [info] is what the walks change of a node, its word and its
    count, [skeleton] all the rest of the state. *)

From S2P Require Import Prelude Dll ZendObjectsApi ZendGc.
Open Scope Z_scope.

Inductive node : Set :=
  | NZ (a : addr)
  | NO (h : Z).
#[global] Instance node_eq_dec : EqDecision node.
Proof. solve_decision. Defined.

(** ** Words *)

Lemma get_set_color c v : 0 <= c < 4 -> GC_GET_COLOR (GC_SET_COLOR c v) = c.
Proof. unfold GC_GET_COLOR, GC_SET_COLOR, GC_ADDRESS. intros. Z.to_euclidean_division_equations. lia. Qed.
Lemma address_set_color c v : 0 <= c < 4 -> GC_ADDRESS (GC_SET_COLOR c v) = GC_ADDRESS v.
Proof. unfold GC_SET_COLOR, GC_ADDRESS. intros. Z.to_euclidean_division_equations. lia. Qed.
Lemma set_black_color v : GC_SET_BLACK v = GC_SET_COLOR GC_BLACK v.
Proof. unfold GC_SET_BLACK, GC_SET_COLOR, GC_BLACK. lia. Qed.
Lemma set_purple_color v : GC_SET_PURPLE v = GC_SET_COLOR GC_PURPLE v.
Proof. done. Qed.
Lemma set_color_set c d v : 0 <= c < 4 -> GC_SET_COLOR d (GC_SET_COLOR c v) = GC_SET_COLOR d v.
Proof. intros. unfold GC_SET_COLOR at 1. by rewrite address_set_color. Qed.
Lemma set_same_color v : GC_SET_COLOR (GC_GET_COLOR v) v = v.
Proof. unfold GC_SET_COLOR, GC_GET_COLOR, GC_ADDRESS. lia. Qed.

(** Counts are [zend_uint]s. *)
Lemma u32_add_add r d e : u32 (u32 (r + d) + e) = u32 (r + (d + e)).
Proof. unfold u32. rewrite Zplus_mod_idemp_l. f_equal. lia. Qed.
Lemma u32_id r : 0 <= r < 2 ^ 32 -> u32 r = r.
Proof. apply Z.mod_small. Qed.

(** ** Occurrences *)

Definition count (n : node) (l : list node) : Z := Z.of_nat (length (filter (fun x => n = x) l)).
Lemma count_nil n : count n [] = 0.
Proof. done. Qed.
Lemma count_cons n x l : count n (x :: l) = (if decide (n = x) then 1 else 0) + count n l.
Proof. unfold count. rewrite filter_cons. case_decide; cbn [length]; lia. Qed.
Lemma count_app n l1 l2 : count n (l1 ++ l2) = count n l1 + count n l2.
Proof. unfold count. rewrite filter_app, length_app. lia. Qed.
Lemma count_nonneg n l : 0 <= count n l.
Proof. unfold count. lia. Qed.
Lemma count_pos n l : n ∈ l <-> 0 < count n l.
Proof.
  induction l as [|x l IH]; [split; [by intros ?%elem_of_nil|by rewrite count_nil]|].
  rewrite elem_of_cons, count_cons, IH. pose proof (count_nonneg n l). case_decide; split; intros; try lia; naive_solver.
Qed.
Lemma count_perm n l1 l2 : l1 ≡ₚ l2 -> count n l1 = count n l2.
Proof. intros H. unfold count. by rewrite H. Qed.

Section Graph.
Context {CB : Type} (has_get_properties : CB -> bool).
Implicit Types (s : gstate CB) (n m x y : node) (a : addr) (l N : list node).

(** ** Views *)

Definition info s n : option (Z * Z) :=
  match n with
  | NZ a => (fun z => (u z, refcount__gc z)) <$> zvals (world s) !! a
  | NO h => match bucket h s with Ok b => Some (buffered b, refcount b) | Err _ => None end
  end.
Definition color s n : option Z := (fun wr => GC_GET_COLOR wr.1) <$> info s n.
Definition rc s n : Z := match info s n with Some (_, r) => r | None => 0 end.

Definition plain_zval (z : zval_gc_info CB) : zval_gc_info CB := mkGcZval (z_value z) 0 (is_ref__gc z) 0.
Definition plain_bucket (b : zend_object_store_bucket CB) : zend_object_store_bucket CB := set_refcount 0 (set_buffered 0 b).
Definition plain_store (o : zend_objects_store CB) : zend_objects_store CB :=
  mkStore ((fun cs : list (option (zend_object_store_bucket CB)) => (fun c : option (zend_object_store_bucket CB) => plain_bucket <$> c) <$> cs) <$> object_buckets o) (base o) (top o) (size o) (free_list_head o).
(** All but the words, the counts and the collector's own variables. *)
Definition skeleton s : gstate CB :=
  OState (plain_store (store s))
    (mkWorld (plain_zval <$> zvals (world s)) (tables (world s)) (zend_objects (world s)) (symbol_table (world s)) gc_globals_ctor_ex).

(** The elements of an object's property table, and those references to
    elements that are counted. *)
Definition props s (h : Z) : list addr :=
  match bucket h s with
  | Ok b => if valid b then match zend_objects (world s) !! object b with
                            | Some (Some ht) => default [] (tables (world s) !! ht)
                            | _ => []
                            end
            else []
  | Err _ => []
  end.
Definition counted s a : bool :=
  match zvals (world s) !! a with Some z => negb (is_symbol_table (z_value z) s) | None => false end.
Definition refs_to s (p : list addr) : list node := NZ <$> filter (fun a => counted s a = true) p.
Definition kids s n : list node :=
  match n with
  | NZ a =>
      match z_value <$> zvals (world s) !! a with
      | Some (V_ARRAY ht) => if is_symbol_table (V_ARRAY ht) s then [] else refs_to s (default [] (tables (world s) !! ht))
      | Some (V_OBJECT h _) => if has_store s then [NO h] else []
      | _ => []
      end
  | NO h => refs_to s (props s h)
  end.
Definition proper s n : bool :=
  match n with NZ a => counted s a | NO h => is_ok (bucket h s) end.

(** ** The skeleton determines the graph *)

Lemma zval_skeleton s a : zvals (world (skeleton s)) !! a = plain_zval <$> zvals (world s) !! a.
Proof. apply lookup_fmap. Qed.
Lemma bucket_skeleton s h :
  bucket h (skeleton s) = match bucket h s with Ok b => Ok (plain_bucket b) | Err e => Err e end.
Proof.
  unfold bucket, cells. cbn. destruct (object_buckets (store s)) as [cs|]; [|done]. cbn.
  destruct (h <? 0); [done|]. rewrite list_lookup_fmap. by destruct (cs !! Z.to_nat h) as [[b|]|].
Qed.
Lemma has_store_skeleton s : has_store (skeleton s) = has_store s.
Proof. unfold has_store. cbn. by destruct (object_buckets (store s)). Qed.
Lemma obj_props_skeleton s h hs : obj_props has_get_properties h hs (skeleton s) = obj_props has_get_properties h hs s.
Proof.
  unfold obj_props, Z_OBJPROP_P. rewrite bucket_skeleton. by destruct (bucket h s).
Qed.
Lemma counted_skeleton s a : counted (skeleton s) a = counted s a.
Proof. unfold counted. rewrite zval_skeleton. by destruct (zvals (world s) !! a). Qed.
Lemma refs_to_skeleton s p : refs_to (skeleton s) p = refs_to s p.
Proof. unfold refs_to. f_equal. apply list_filter_iff. intros a. by rewrite counted_skeleton. Qed.
Lemma props_skeleton s h : props (skeleton s) h = props s h.
Proof. unfold props. rewrite bucket_skeleton. by destruct (bucket h s). Qed.
Lemma kids_skeleton s n : kids (skeleton s) n = kids s n.
Proof.
  destruct n as [a|h]; cbn [kids].
  - rewrite zval_skeleton, <- option_fmap_compose. change (z_value ∘ plain_zval) with (z_value (CB := CB)).
    destruct (zvals (world s) !! a) as [z|]; [|done]. cbn. destruct (z_value z) as [ht|h hs|t]; [|by rewrite has_store_skeleton|done].
    by rewrite refs_to_skeleton.
  - by rewrite refs_to_skeleton, props_skeleton.
Qed.
Lemma proper_skeleton s n : proper (skeleton s) n = proper s n.
Proof. destruct n as [a|h]; [apply counted_skeleton|]. cbn. rewrite bucket_skeleton. by destruct (bucket h s). Qed.

Definition static s s' : Prop := skeleton s' = skeleton s.
#[global] Instance static_equiv : Equivalence static.
Proof. split; unfold static; [by intros ?|by intros ???|]. intros s1 s2 s3 H1 H2. by rewrite H2. Qed.

Lemma static_kids s s' n : static s s' -> kids s' n = kids s n.
Proof. intros H. by rewrite <- kids_skeleton, H, kids_skeleton. Qed.
Lemma static_proper s s' n : static s s' -> proper s' n = proper s n.
Proof. intros H. by rewrite <- proper_skeleton, H, proper_skeleton. Qed.
Lemma static_counted s s' a : static s s' -> counted s' a = counted s a.
Proof. intros H. by rewrite <- counted_skeleton, H, counted_skeleton. Qed.
Lemma static_props s s' h : static s s' -> props s' h = props s h.
Proof. intros H. by rewrite <- props_skeleton, H, props_skeleton. Qed.
Lemma static_obj_props s s' h hs : static s s' -> obj_props has_get_properties h hs s' = obj_props has_get_properties h hs s.
Proof. intros H. by rewrite <- obj_props_skeleton, H, obj_props_skeleton. Qed.
Lemma static_has_store s s' : static s s' -> has_store s' = has_store s.
Proof. intros H. by rewrite <- has_store_skeleton, H, has_store_skeleton. Qed.
Lemma static_world s s' : static s s' -> tables (world s') = tables (world s) /\ symbol_table (world s') = symbol_table (world s).
Proof. unfold static, skeleton. intros H. by injection H. Qed.
Lemma static_symbol_table s s' v : static s s' -> is_symbol_table v s' = is_symbol_table v s.
Proof. intros H. unfold is_symbol_table. by rewrite (proj2 (static_world s s' H)). Qed.
Lemma static_value s s' a : static s s' -> z_value <$> zvals (world s') !! a = z_value <$> zvals (world s) !! a.
Proof.
  intros H. assert (E : zvals (world (skeleton s')) !! a = zvals (world (skeleton s)) !! a) by (by rewrite H).
  rewrite !zval_skeleton in E. apply (f_equal (fmap z_value)) in E. by rewrite <- !option_fmap_compose in E.
Qed.
Lemma static_info s s' n : static s s' -> is_Some (info s' n) <-> is_Some (info s n).
Proof.
  intros H. assert (Hi : forall t, is_Some (info t n) <-> is_Some (info (skeleton t) n)).
  { intros t. destruct n as [a|h]; cbn; [rewrite lookup_fmap, !fmap_is_Some; done|].
    rewrite bucket_skeleton. destruct (bucket h t); [|done]. split; by eexists. }
  by rewrite (Hi s'), (Hi s), H.
Qed.
End Graph.
