(* ===== verification/ZendGcWalk.v ===== *)
(** * The steps of the collector's walks

    What each write does to the views of ZendGcGraph, the counts of edges,
    and the conditions under which nothing the walks read is missing. *)

From S2P Require Import Prelude Dll ZendObjectsApi ZendGc ZendGcGraph.
Open Scope Z_scope.

Section Walk.
Context {CB : Type} (hgp : CB -> bool).
Implicit Types (s : gstate CB) (n m x y : node) (a : addr) (l N : list node) (p : list addr).

(** ** Writes *)

(** [s'] is [s] with the word and the count of [n] replaced. *)
Record touched n (wr : Z * Z) s s' : Prop := {
  to_static : static s s';
  to_globals : gc_globals (world s') = gc_globals (world s);
  to_this : info s' n = Some wr;
  to_others : forall m, m <> n -> info s' m = info s m
}.

Lemma zval_touched s a z z' : zvals (world s) !! a = Some z -> plain_zval z' = plain_zval z ->
  touched (NZ a) (u z', refcount__gc z') s (upd_heap (fun h => <[a := z']> h) s).
Proof.
  intros Hz Hp. split; [|done|by cbn; rewrite lookup_insert_eq|].
  - unfold static, skeleton. cbn. f_equal. f_equal. apply map_eq. intros x. rewrite !lookup_fmap, lookup_insert.
    case_decide; [subst; rewrite Hz; cbn; by rewrite Hp|done].
  - intros [a'|h] Hn; [|done]. cbn. rewrite lookup_insert_ne; [done|]. congruence.
Qed.
Lemma bucket_cell s h b : bucket h s = Ok b -> 0 <= h /\
  exists cs, object_buckets (store s) = Some cs /\ cs !! Z.to_nat h = Some (Some b).
Proof.
  unfold bucket, cells. destruct (object_buckets (store s)) as [cs|]; [|done]. cbn.
  destruct (Z.ltb_spec h 0); [done|]. destruct (cs !! Z.to_nat h) as [[b'|]|] eqn:E; try done. intros [= ->]. split; [lia|]. by exists cs.
Qed.
Lemma update_bucket_touched s h b f : bucket h s = Ok b -> plain_bucket (f b) = plain_bucket b ->
  exists s', update_bucket h f s = Ok (tt, s') /\ touched (NO h) (buffered (f b), refcount (f b)) s s' /\ bucket h s' = Ok (f b).
Proof.
  intros Hb Hp. destruct (bucket_cell s h b Hb) as (Hh & cs & Hcs & Hc).
  pose proof (lookup_lt_Some _ _ _ Hc) as Hlt.
  set (s' := OState (mkStore (Some (<[Z.to_nat h := Some (f b)]> cs)) (base (store s)) (top (store s)) (ZendObjectsApi.size (store s)) (free_list_head (store s))) (world s)).
  assert (Hbk : forall h', bucket h' s' = if decide (h' = h) then Ok (f b) else bucket h' s).
  { intros h'. unfold bucket, cells, s'. cbn. rewrite Hcs. cbn. destruct (Z.ltb_spec h' 0); [case_decide; [lia|done]|].
    rewrite list_lookup_insert. case_decide as E1; case_decide as E2; try done; [|].
    - destruct E1 as [E1 _]. apply Z2Nat.inj in E1; [|lia..]. by subst.
    - subst h'. destruct E1. by split. }
  exists s'. split; [|split; [|by rewrite Hbk, decide_True]].
  - unfold update_bucket. rewrite (mbind_reading _ _ _ _ Hb). unfold write_bucket. rewrite mbind_get.
    rewrite (mbind_reading _ _ _ cs) by (unfold cells; by rewrite Hcs).
    rewrite (proj2 (Z.leb_le _ _) Hh), (proj2 (Z.ltb_lt h _)) by lia. done.
  - split; [|done| |].
    + unfold static, skeleton, plain_store, s'. cbn. rewrite Hcs. cbn. do 3 f_equal. rewrite list_fmap_insert. cbn. rewrite Hp.
      apply list_insert_id. by rewrite list_lookup_fmap, Hc.
    + unfold info. by rewrite Hbk, decide_True.
    + intros [a|h'] Hn; [done|]. unfold info. rewrite Hbk, decide_False; [done|]. congruence.
Qed.

Lemma info_zval s a w r : info s (NZ a) = Some (w, r) -> exists z, zvals (world s) !! a = Some z /\ u z = w /\ refcount__gc z = r.
Proof. cbn. rewrite fmap_Some. intros (z & Hz & [= -> ->]). by exists z. Qed.
Lemma info_bucket s h w r : info s (NO h) = Some (w, r) -> exists b, bucket h s = Ok b /\ buffered b = w /\ refcount b = r.
Proof. cbn. destruct (bucket h s) as [b|]; [|done]. intros [= <- <-]. by exists b. Qed.

(** A write to a zval. *)
Lemma upd_zval_run s a z f : zvals (world s) !! a = Some z -> plain_zval (f z) = plain_zval z ->
  exists s', upd_zval (Some a) f s = Ok (tt, s') /\ touched (NZ a) (u (f z), refcount__gc (f z)) s s' /\ zvals (world s') !! a = Some (f z).
Proof.
  intros Hz Hp. exists (upd_heap (fun h => <[a := f z]> h) s). split; [|split; [by eapply zval_touched|by cbn; rewrite lookup_insert_eq]].
  unfold upd_zval, assign. cbn. rewrite Hz. do 3 f_equal. f_equal. by apply alter_insert.
Qed.
Lemma upd_u_run s a w r f : info s (NZ a) = Some (w, r) ->
  exists s', upd_u (Some a) f s = Ok (tt, s') /\ touched (NZ a) (f w, r) s s'.
Proof.
  intros (z & Hz & <- & <-)%info_zval. destruct (upd_zval_run s a z (fun z => set_u (f (u z)) z) Hz eq_refl) as (s' & Hs & Ht & _).
  by exists s'.
Qed.
Lemma add_refcount_run s a w r d : info s (NZ a) = Some (w, r) ->
  exists s', add_refcount__gc (Some a) d s = Ok (tt, s') /\ touched (NZ a) (w, u32 (r + d)) s s'.
Proof.
  intros (z & Hz & <- & <-)%info_zval.
  destruct (upd_zval_run s a z (fun z => set_refcount__gc (u32 (refcount__gc z + d)) z) Hz eq_refl) as (s' & Hs & Ht & _).
  by exists s'.
Qed.
Lemma upd_buffered_run s h w r f : info s (NO h) = Some (w, r) ->
  exists s', upd_buffered h f s = Ok (tt, s') /\ touched (NO h) (f w, r) s s'.
Proof.
  intros (b & Hb & <- & <-)%info_bucket.
  destruct (update_bucket_touched s h b (fun b => set_buffered (f (buffered b)) b) Hb eq_refl) as (s' & Hs & Ht & _). by exists s'.
Qed.
Lemma add_obj_refcount_run s h w r d : info s (NO h) = Some (w, r) ->
  exists s', add_obj_refcount h d s = Ok (tt, s') /\ touched (NO h) (w, u32 (r + d)) s s'.
Proof.
  intros (b & Hb & <- & <-)%info_bucket.
  destruct (update_bucket_touched s h b (fun b => set_refcount (u32 (refcount b + d)) b) Hb eq_refl) as (s' & Hs & Ht & _). by exists s'.
Qed.

(** ** Reads *)

Lemma color_of_ok s a w r : info s (NZ a) = Some (w, r) -> color_of a s = Ok (GC_GET_COLOR w).
Proof. intros (z & Hz & <- & _)%info_zval. unfold color_of, zval_at, deref. cbn. by rewrite Hz. Qed.
Lemma obj_color_ok s h w r : info s (NO h) = Some (w, r) -> obj_color h s = Ok (GC_GET_COLOR w).
Proof. intros (b & Hb & <- & _)%info_bucket. unfold obj_color. by rewrite Hb. Qed.
Lemma zval_at_ok s a z : zvals (world s) !! a = Some z -> zval_at (Some a) s = Ok z.
Proof. intros Hz. unfold zval_at, deref. cbn. by rewrite Hz. Qed.

Lemma obj_elements_props s h hs p : obj_props hgp h hs s = Ok (Some p) -> obj_elements hgp h hs s = Ok p.
Proof. intros H. unfold obj_elements. by rewrite (res_bind_ok _ _ _ H). Qed.

(** ** Well-formed heaps *)

(** The object has a property table, whose elements are there; if its
    handlers hide it, it is empty. *)
Definition obj_ok s (h : Z) (hs : CB) : Prop :=
  obj_props hgp h hs s = Ok (Some (props s h)) /\ Forall (fun a => is_Some (zvals (world s) !! a)) (props s h).
(** Zvals refer to tables, elements and objects that exist. *)
Record heap_ok s : Prop := {
  ho_array : forall a ht, z_value <$> zvals (world s) !! a = Some (V_ARRAY ht) -> ht <> symbol_table (world s) ->
    exists p, tables (world s) !! ht = Some p /\ Forall (fun a => is_Some (zvals (world s) !! a)) p;
  ho_object : forall a h hs, z_value <$> zvals (world s) !! a = Some (V_OBJECT h hs) -> has_store s = true ->
    proper s (NO h) = true /\ obj_ok s h hs
}.
Definition ranged s : Prop := forall n w r, info s n = Some (w, r) -> 0 <= r < 2 ^ 32.

Lemma static_zval s s' a : static s s' -> is_Some (zvals (world s') !! a) <-> is_Some (zvals (world s) !! a).
Proof. intros H. pose proof (static_info s s' (NZ a) H) as E. cbn in E. by rewrite !fmap_is_Some in E. Qed.
Lemma static_obj_ok s s' h hs : static s s' -> obj_ok s h hs -> obj_ok s' h hs.
Proof.
  intros H [Ho Hf]. split; rewrite (static_props s s' h H); [by rewrite (static_obj_props _ s s' h hs H)|].
  eapply Forall_impl; [exact Hf|]. intros a Ha. by rewrite (static_zval s s').
Qed.
Lemma static_heap_ok s s' : static s s' -> heap_ok s -> heap_ok s'.
Proof.
  intros H [Ha Ho]. pose proof (static_world s s' H) as [Ht Hsym]. split.
  - intros a ht Hv Hne. rewrite (static_value s s' a H) in Hv. rewrite Hsym in Hne. destruct (Ha a ht Hv Hne) as (p & Hp & Hf).
    exists p. rewrite Ht. split; [done|]. eapply Forall_impl; [exact Hf|]. intros b Hb. by rewrite (static_zval s s').
  - intros a h hs Hv Hst. rewrite (static_value s s' a H) in Hv. rewrite (static_has_store s s' H) in Hst.
    destruct (Ho a h hs Hv Hst) as [Hp Hok]. split; [by rewrite (static_proper s s')|by eapply static_obj_ok].
Qed.
Lemma proper_info s n : proper s n = true -> exists w r, info s n = Some (w, r).
Proof.
  destruct n as [a|h]; cbn.
  - unfold counted. destruct (zvals (world s) !! a) as [z|]; [|done]. intros _. by exists (u z), (refcount__gc z).
  - destruct (bucket h s) as [b|]; [|done]. intros _. by exists (buffered b), (refcount b).
Qed.

(** ** Painting *)

(** From [s] to [s'] the nodes [N] got the colour [c], and [d] was added to
    the count of a node for each time it is in [E]; arrays of the symbol table
    may have become black. *)
Record painted (c d : Z) N (E : list node) s s' : Prop := {
  pt_static : static s s';
  pt_globals : gc_globals (world s') = gc_globals (world s);
  pt_info : forall m w r, proper s m = true -> info s m = Some (w, r) ->
    info s' m = Some (if decide (m ∈ N) then GC_SET_COLOR c w else w, u32 (r + d * count m E));
  pt_other : forall m, proper s m = false ->
    info s' m = info s m \/ exists w r, info s m = Some (w, r) /\ info s' m = Some (GC_SET_BLACK w, r)
}.

Lemma painted_none c d s : ranged s -> painted c d [] [] s s.
Proof.
  intros Hr. split; [done|done| |by left]. intros m w r _ Hi. rewrite decide_False by apply not_elem_of_nil.
  rewrite count_nil, Z.mul_0_r, Z.add_0_r, u32_id; [done|by eapply Hr].
Qed.
Lemma touched_twice n wr1 wr2 s s1 s2 : touched n wr1 s s1 -> touched n wr2 s1 s2 -> touched n wr2 s s2.
Proof.
  intros [H1 G1 I1 O1] [H2 G2 I2 O2]. split; [by transitivity s1|by rewrite G2|done|].
  intros m Hm. by rewrite O2, O1.
Qed.
Lemma painted_color c d n w r s s' : ranged s -> proper s n = true -> info s n = Some (w, r) ->
  touched n (GC_SET_COLOR c w, r) s s' -> painted c d [n] [] s s'.
Proof.
  intros Hr Hp Hn [Hs Hg Hi Ho]. split; [done|done| |].
  - intros m w' r' _ Hm. rewrite count_nil, Z.mul_0_r, Z.add_0_r. rewrite u32_id by by eapply Hr.
    destruct (decide (m = n)) as [->|Hne].
    + rewrite decide_True by (by left). rewrite Hn in Hm. by injection Hm as <- <-.
    + rewrite decide_False by (by rewrite list_elem_of_singleton). by rewrite Ho.
  - intros m Hm. left. apply Ho. intros ->. by rewrite Hp in Hm.
Qed.
Lemma painted_count c d n w r s s' : ranged s -> proper s n = true -> info s n = Some (w, r) ->
  touched n (w, u32 (r + d)) s s' -> painted c d [] [n] s s'.
Proof.
  intros Hr Hp Hn [Hs Hg Hi Ho]. split; [done|done| |].
  - intros m w' r' _ Hm. rewrite decide_False by apply not_elem_of_nil. rewrite count_cons, count_nil.
    destruct (decide (m = n)) as [->|Hne].
    + rewrite Hn in Hm. injection Hm as <- <-. by replace (d * (1 + 0)) with d by lia.
    + rewrite Ho by done. rewrite Hm, Z.mul_0_r, Z.add_0_r. by rewrite u32_id by by eapply Hr.
  - intros m Hm. left. apply Ho. intros ->. by rewrite Hp in Hm.
Qed.
(** A zval of the symbol table turns black. *)
Lemma painted_black c d a w r s s' : ranged s -> counted s a = false -> info s (NZ a) = Some (w, r) ->
  touched (NZ a) (GC_SET_BLACK w, r) s s' -> painted c d [] [] s s'.
Proof.
  intros Hr Hp Hn [Hs Hg Hi Ho]. split; [done|done| |].
  - intros m w' r' Hm Hi'. rewrite decide_False by apply not_elem_of_nil. rewrite count_nil, Z.mul_0_r, Z.add_0_r.
    rewrite u32_id by by eapply Hr. rewrite Ho; [done|]. intros ->. cbn in Hm. by rewrite Hp in Hm.
  - intros m Hm. destruct (decide (m = NZ a)) as [->|Hne]; [right; by exists w, r|left; by apply Ho].
Qed.

Lemma painted_app c d N1 N2 E1 E2 s s1 s2 : 0 <= c < 4 ->
  painted c d N1 E1 s s1 -> painted c d N2 E2 s1 s2 -> painted c d (N1 ++ N2) (E1 ++ E2) s s2.
Proof.
  intros Hc [H1 G1 I1 O1] [H2 G2 I2 O2]. split; [by transitivity s1|by rewrite G2| |].
  - intros m w r Hm Hi. specialize (I1 m w r Hm Hi). rewrite (I2 m _ _ ltac:(by rewrite (static_proper s s1)) I1).
    rewrite u32_add_add, count_app, <- Z.mul_add_distr_l. do 2 f_equal.
    destruct (decide (m ∈ N1 ++ N2)) as [Hm12|Hm12]; rewrite elem_of_app in Hm12;
      destruct (decide (m ∈ N1)), (decide (m ∈ N2)); try tauto; by rewrite ?set_color_set.
  - intros m Hm. specialize (O1 m Hm). specialize (O2 m ltac:(by rewrite (static_proper s s1))).
    destruct O1 as [O1|(w & r & Hi & O1)], O2 as [O2|(w' & r' & Hi' & O2)]; rewrite ?O2.
    + by left.
    + right. rewrite O1 in Hi'. by exists w', r'.
    + right. by exists w, r.
    + right. rewrite O1 in Hi'. injection Hi' as <- <-. exists w, r. split; [done|].
      rewrite !set_black_color. by rewrite set_color_set.
Qed.
Lemma painted_perm c d N N' E E' s s' : (forall x, x ∈ N <-> x ∈ N') -> E ≡ₚ E' -> painted c d N E s s' -> painted c d N' E' s s'.
Proof.
  intros HN HE [H G I O]. split; [done|done| |done]. intros m w r Hm Hi. rewrite (I m w r Hm Hi), (count_perm m E E' HE).
  do 3 f_equal. apply decide_ext. by rewrite HN.
Qed.
Lemma painted_ranged c d N E s s' : ranged s -> painted c d N E s s' -> ranged s'.
Proof.
  intros Hr [H G I O] m w' r' Hi'. assert (Hs : is_Some (info s m)) by (apply (static_info s s' m H); by eexists).
  destruct Hs as [[w r] Hi]. destruct (proper s m) eqn:Hm.
  - rewrite (I m w r Hm Hi) in Hi'. injection Hi' as _ <-. apply u32_range.
  - destruct (O m Hm) as [Ho|(w0 & r0 & Hi0 & Ho)]; rewrite Ho in Hi'; [by eapply Hr|]. injection Hi' as _ <-. by eapply Hr.
Qed.

Definition word_of s n : option Z := fst <$> info s n.
Lemma word_info s n w r : info s n = Some (w, r) -> word_of s n = Some w.
Proof. unfold word_of. by intros ->. Qed.
Lemma word_info_inv s n w : word_of s n = Some w -> exists r, info s n = Some (w, r).
Proof. unfold word_of. rewrite fmap_Some. intros ([w' r] & Hi & ->). by exists r. Qed.
Lemma color_some s n c : color s n = Some c <-> exists w r, info s n = Some (w, r) /\ GC_GET_COLOR w = c.
Proof.
  unfold color. rewrite fmap_Some. split.
  - intros ([w r] & Hi & ->). by exists w, r.
  - intros (w & r & Hi & <-). by exists (w, r).
Qed.
Lemma painted_colored c d N E s s' m : 0 <= c < 4 -> proper s m = true -> painted c d N E s s' ->
  color s' m = Some c <-> m ∈ N \/ color s m = Some c.
Proof.
  intros Hc Hm [H G I O]. destruct (proper_info s m Hm) as (w & r & Hi). specialize (I m w r Hm Hi).
  unfold color. rewrite I, Hi. cbn. destruct (decide (m ∈ N)) as [Hin|Hin]; [rewrite get_set_color by done; split; auto|].
  split; [by right|]. by intros [?|?].
Qed.
End Walk.
