(* ===== verification/ZendGcSpread.v ===== *)
(** * Walks that spread a colour

    [zval_mark_grey] and [zval_scan_black] both paint what they reach and
    count the edges out of it, one down, one up: what they have in common. *)

From S2P Require Import Prelude Dll ZendObjectsApi ZendGc ZendGcGraph ZendGcWalk.
Open Scope Z_scope.

Section Spread.
Context {CB : Type} (hgp : CB -> bool).
Implicit Types (s : gstate CB) (n m x y : node) (a : addr) (l N F E : list node) (p : list addr).

(** [x] leads to [y] by counted references. *)
Definition edge s x y : Prop := y ∈ kids s x.
Lemma static_edge s s' x y : static s s' -> edge s' x y <-> edge s x y.
Proof. intros H. unfold edge. by rewrite (static_kids s s'). Qed.
Lemma static_rtc s s' x y : static s s' -> rtc (edge s') x y -> rtc (edge s) x y.
Proof. intros H. induction 1 as [|x y z Hxy _ IH]; [constructor|]. eapply rtc_l; [|exact IH]. by apply (static_edge s s'). Qed.

Lemma refs_to_elem s p y : y ∈ refs_to s p <-> exists a, y = NZ a /\ a ∈ p /\ counted s a = true.
Proof.
  unfold refs_to. rewrite list_elem_of_fmap. split.
  - intros (a & -> & [Ha Hp]%list_elem_of_filter). by exists a.
  - intros (a & -> & Hp & Ha). exists a. split; [done|]. by apply list_elem_of_filter.
Qed.
Lemma refs_to_cons s a p : refs_to s (a :: p) = refs_to s [a] ++ refs_to s p.
Proof. unfold refs_to. change (a :: p) with ([a] ++ p). by rewrite filter_app, fmap_app. Qed.
Lemma static_refs_to s s' p : static s s' -> refs_to s' p = refs_to s p.
Proof. intros H. by rewrite <- refs_to_skeleton, H, refs_to_skeleton. Qed.

(** All that is reached exists. *)
Lemma kids_proper s x y : heap_ok hgp s -> y ∈ kids s x -> proper s y = true.
Proof.
  intros Hok. destruct x as [a|h]; cbn [kids].
  - destruct (z_value <$> zvals (world s) !! a) as [v|] eqn:Hv; [|by intros ?%elem_of_nil].
    destruct v as [ht|h hs|t]; [| |by intros ?%elem_of_nil].
    + case_match; [by intros ?%elem_of_nil|]. intros (b & -> & _ & Hb)%refs_to_elem. exact Hb.
    + destruct (has_store s) eqn:Hst; [|by intros ?%elem_of_nil]. intros ->%list_elem_of_singleton.
      by destruct (ho_object _ s Hok a h hs Hv Hst).
  - intros (b & -> & _ & Hb)%refs_to_elem. exact Hb.
Qed.

(** ** What a walk does *)

(** A change of state in which nodes are done and edges are counted: those
    in [N] are done, the edges in [E] counted; [Inv] is what the walk asks of
    the state besides [heap_ok]. *)
Class Painting (Inv : gstate CB -> Prop) (D : gstate CB -> node -> Prop)
    (P : list node -> list node -> gstate CB -> gstate CB -> Prop) : Prop := {
  P_none : forall s, Inv s -> P [] [] s s;
  P_inv : forall N E s s', Inv s -> P N E s s' -> Inv s';
  P_static : forall N E s s', P N E s s' -> static s s';
  P_done : forall N E s s' m, proper s m = true -> P N E s s' -> D s' m <-> m ∈ N \/ D s m;
  P_app : forall N1 N2 E1 E2 s s1 s2, P N1 E1 s s1 -> P N2 E2 s1 s2 -> P (N1 ++ N2) (E1 ++ E2) s s2;
  P_perm : forall N N' E E' s s', N ≡ₚ N' -> E ≡ₚ E' -> P N E s s' -> P N' E' s s'
}.

(** From [s] to [s']: the nodes [N], reached from [F] and not done before,
    are done, and with the references [E] those [K] tells for each of [N] are
    counted; whatever [N] leads to is done. *)
Record spreading (P : list node -> list node -> gstate CB -> gstate CB -> Prop) (D : gstate CB -> node -> Prop)
    (K : gstate CB -> node -> list node) F E N s s' : Prop := {
  sp_painted : P N (E ++ (N ≫= K s)) s s';
  sp_nodup : NoDup N;
  sp_new : forall x, x ∈ N -> proper s x = true /\ ~ D s x;
  sp_closed : forall x y, x ∈ N -> y ∈ kids s x -> y ∈ N \/ D s y;
  sp_from : forall x, x ∈ N -> exists f, f ∈ F /\ rtc (edge s) f x
}.
(** The nodes [l] are done once [N] are. *)
Definition covered (D : gstate CB -> node -> Prop) l N s : Prop := forall y, y ∈ l -> y ∈ N \/ D s y.

(** The edges counted are told by the skeleton. *)
Class Static (K : gstate CB -> node -> list node) : Prop := K_static : forall s s' n, static s s' -> K s' n = K s n.
#[export] Instance kids_static : Static kids.
Proof. intros s s' n. apply static_kids. Qed.

Section Spreading.
Context (Inv : gstate CB -> Prop) (D : gstate CB -> node -> Prop) (P : list node -> list node -> gstate CB -> gstate CB -> Prop).
Context (K : gstate CB -> node -> list node) {Pa : Painting Inv D P} {Ks : Static K}.
Notation spread := (spreading P D K).

Lemma static_bind s s' N : static s s' -> N ≫= K s' = N ≫= K s.
Proof using Ks. intros H. induction N as [|x N IH]; [done|]. cbn. f_equal; [by apply K_static|exact IH]. Qed.
Lemma spread_static F E N s s' : spread F E N s s' -> static s s'.
Proof using Pa. intros H. by eapply P_static, sp_painted. Qed.
Lemma spread_none F E s s' : P [] E s s' -> spread F E [] s s'.
Proof.
  intros H. split; [cbn; by rewrite app_nil_r|apply NoDup_nil_2|intros x Hx|intros x y Hx|intros x Hx]; by apply elem_of_nil in Hx.
Qed.
Lemma spread_weaken F F' E E' N s s' : F ⊆ F' -> E ≡ₚ E' -> spread F E N s s' -> spread F' E' N s s'.
Proof using Pa.
  intros HF HE [H1 H2 H3 H4 H5]. split; try done.
  - eapply P_perm; [..|exact H1]; [done|]. by rewrite HE.
  - intros x Hx. destruct (H5 x Hx) as (f & Hf & Hr). exists f. auto.
Qed.
Lemma spread_app F1 F2 E1 E2 N1 N2 s s1 s2 : heap_ok hgp s ->
  spread F1 E1 N1 s s1 -> spread F2 E2 N2 s1 s2 -> spread (F1 ++ F2) (E1 ++ E2) (N1 ++ N2) s s2.
Proof using Pa Ks.
  intros Hok [P1 D1 W1 C1 R1] [P2 D2 W2 C2 R2]. pose proof (P_static _ _ _ _ P1) as Hst.
  pose proof (static_bind s s1 N2 Hst) as Hk.
  assert (Hcol : forall m, proper s m = true -> D s1 m <-> m ∈ N1 \/ D s m).
  { intros m Hm. by eapply P_done. }
  split.
  - eapply P_perm; [..|eapply P_app; [exact P1|exact P2]]; [done|].
    rewrite Hk, bind_app. solve_Permutation.
  - apply NoDup_app. split_and!; [done| |done]. intros x Hx Hx2. destruct (W2 x Hx2) as [_ Hn]. apply Hn.
    apply Hcol; [by apply W1|by left].
  - intros x [Hx|Hx]%elem_of_app; [by apply W1|]. destruct (W2 x Hx) as [Hp Hn]. rewrite (static_proper s s1) in Hp by done.
    split; [done|]. intros Hx'. apply Hn, Hcol; auto.
  - intros x y [Hx|Hx]%elem_of_app Hy; rewrite elem_of_app.
    + destruct (C1 x y Hx Hy); auto.
    + destruct (C2 x y Hx) as [?|Hy']; [by rewrite (static_kids s s1)|auto|].
      apply Hcol in Hy'; [|by eapply kids_proper]. destruct Hy'; auto.
  - intros x [Hx|Hx]%elem_of_app.
    + destruct (R1 x Hx) as (f & Hf & Hr). exists f. rewrite elem_of_app. auto.
    + destruct (R2 x Hx) as (f & Hf & Hr). exists f. rewrite elem_of_app. split; [auto|]. by eapply static_rtc.
Qed.
Lemma covered_app F1 E1 N1 N2 l1 l2 s s1 : (forall y, y ∈ l2 -> proper s y = true) -> spread F1 E1 N1 s s1 ->
  covered D l1 N1 s -> covered D l2 N2 s1 -> covered D (l1 ++ l2) (N1 ++ N2) s.
Proof using Pa.
  intros Hp [P1 _ _ _ _] H1 H2 y [Hy|Hy]%elem_of_app; rewrite elem_of_app.
  - destruct (H1 y Hy); auto.
  - destruct (H2 y Hy) as [?|Hy']; [auto|]. apply (P_done _ _ _ _ _ (Hp y Hy) P1) in Hy'. destruct Hy'; auto.
Qed.

(** A node is done, then everything it refers to. *)
Lemma spread_node n E N s s1 s2 : heap_ok hgp s -> proper s n = true -> ~ D s n -> E ≡ₚ K s n ->
  P [n] [] s s1 -> spread (kids s n) E N s1 s2 -> covered D (kids s n) N s1 ->
  spread [n] [] (n :: N) s s2.
Proof using Pa Ks.
  intros Hok Hp Hn HE P1 [P2 D2 W2 C2 R2] Hcov. pose proof (P_static _ _ _ _ P1) as Hst.
  pose proof (static_bind s s1 N Hst) as Hk.
  assert (Hcol : forall m, proper s m = true -> D s1 m <-> m ∈ [n] \/ D s m).
  { intros m Hm. by eapply P_done. }
  split.
  - eapply P_perm; [..|eapply P_app; [exact P1|exact P2]]; [done|]. cbn. rewrite Hk. by rewrite HE.
  - constructor; [|done]. intros Hx. destruct (W2 n Hx) as [_ H]. apply H, Hcol; [done|]. left. by left.
  - intros x [->|Hx]%elem_of_cons; [done|]. destruct (W2 x Hx) as [Hp' H]. rewrite (static_proper s s1) in Hp' by done.
    split; [done|]. intros Hx'. apply H, Hcol; auto.
  - intros x y Hx Hy. assert (Hy' : y ∈ N \/ D s1 y).
    { apply elem_of_cons in Hx as [->|Hx]; [by apply Hcov|]. apply (C2 x y Hx). by rewrite (static_kids s s1). }
    rewrite elem_of_cons. destruct Hy' as [?|Hy']; [auto|]. apply Hcol in Hy'; [|by eapply kids_proper].
    rewrite list_elem_of_singleton in Hy'. destruct Hy'; auto.
  - intros x [->|Hx]%elem_of_cons; [exists n; split; [by left|constructor]|].
    destruct (R2 x Hx) as (f & Hf & Hr). exists n. split; [by left|]. eapply rtc_l; [exact Hf|]. by eapply static_rtc.
Qed.

(** ** The measure *)

Context {Dd : forall s n, Decision (D s n)}.

(** The zvals still to do. *)
Definition todo s : gset addr := filter (fun a => counted s a = true /\ ~ D s (NZ a)) (dom (zvals (world s))).
Lemma todo_elem s a : a ∈ todo s <-> counted s a = true /\ ~ D s (NZ a).
Proof using.
  unfold todo. rewrite elem_of_filter, elem_of_dom. split; [by intros [? _]|]. intros [H1 H2]. split; [done|].
  unfold counted in H1. destruct (zvals (world s) !! a); [by eexists|done].
Qed.
Lemma todo_fuel s : (base.size (todo s) < gc_fuel s)%nat.
Proof using.
  unfold gc_fuel. rewrite <- size_dom. apply Nat.lt_succ_r, subseteq_size. unfold todo. intros a. rewrite elem_of_filter. tauto.
Qed.
Lemma todo_less N E s s' : P N E s s' -> (base.size (todo s') <= base.size (todo s))%nat.
Proof using Pa.
  intros H. apply subseteq_size. intros a. rewrite !todo_elem, (static_counted s s') by by eapply P_static.
  intros [Ha Hn]. split; [done|]. intros Hcol. apply Hn. eapply P_done; eauto.
Qed.
Lemma todo_lt a N E s s' : P N E s s' -> NZ a ∈ N -> counted s a = true -> ~ D s (NZ a) ->
  (base.size (todo s') < base.size (todo s))%nat.
Proof using Pa.
  intros H HN Ha Hn. apply subset_size. apply strict_spec_alt. split.
  - intros b. rewrite !todo_elem, (static_counted s s') by by eapply P_static.
    intros [Hb Hnb]. split; [done|]. intros Hcol. apply Hnb. eapply P_done; eauto.
  - intros Heq. assert (Hin : a ∈ todo s) by by apply todo_elem. rewrite <- Heq in Hin. apply todo_elem in Hin as [_ Hin].
    apply Hin. eapply P_done; eauto.
Qed.

(** ** A walk over elements *)

(** [run] goes to the nodes [l], counting [E]. *)
Definition walks_to (run : M (gstate CB) unit) l E s : Prop := exists s' N,
  run s = Ok (tt, s') /\ spread l E N s s' /\ covered D l N s.
(** What is asked of the visit of an element, with [lim] bounding the depth;
    [cnt] tells whether the references to the elements are counted. *)
Definition visits (lim : nat) (cnt : bool) (body : addr -> M (gstate CB) unit) : Prop := forall s a,
  heap_ok hgp s -> Inv s -> is_Some (zvals (world s) !! a) -> (base.size (todo s) < lim)%nat ->
  walks_to (body a) (refs_to s [a]) (if cnt then refs_to s [a] else []) s.

Lemma walks_none E s s' (run : M (gstate CB) unit) l : run s = Ok (tt, s') -> P [] E s s' -> covered D l [] s -> walks_to run l E s.
Proof using. intros H HP C. exists s', []. split; [done|]. split; [by apply spread_none|done]. Qed.
Lemma covered_nil N s : covered D [] N s.
Proof using. by intros y ?%elem_of_nil. Qed.

Lemma for_each_walks lim cnt body p : visits lim cnt body -> forall s, heap_ok hgp s -> Inv s ->
  Forall (fun a => is_Some (zvals (world s) !! a)) p -> (base.size (todo s) < lim)%nat ->
  walks_to (for_each p body) (refs_to s p) (if cnt then refs_to s p else []) s.
Proof using Pa Ks.
  intros Hv. induction p as [|a p IH]; intros s Hok Hr Hp Hl.
  - apply (walks_none _ s s); [done| |by apply covered_nil]. by destruct cnt; apply P_none.
  - apply Forall_cons in Hp as [Ha Hp]. destruct (Hv s a Hok Hr Ha Hl) as (s1 & N1 & H1 & S1 & C1).
    pose proof (spread_static _ _ _ _ _ S1) as Hst. pose proof (sp_painted _ _ _ _ _ _ _ _ S1) as P1.
    destruct (IH s1) as (s2 & N2 & H2 & S2 & C2).
    + by eapply static_heap_ok.
    + by eapply P_inv.
    + eapply Forall_impl; [exact Hp|]. intros b Hb. by rewrite (static_zval s s1).
    + eapply Nat.le_lt_trans; [|exact Hl]. by eapply todo_less.
    + rewrite (static_refs_to s s1) in S2, C2 by done. exists s2, (N1 ++ N2). split_and!.
      * cbn [for_each]. by rewrite (mbind_ok _ _ _ _ _ H1).
      * rewrite refs_to_cons. eapply spread_weaken; [reflexivity| |by eapply spread_app; [..|exact S1|exact S2]]. by destruct cnt.
      * rewrite refs_to_cons. eapply covered_app; [|exact S1|exact C1|exact C2]. intros y (b & -> & _ & Hb)%refs_to_elem. exact Hb.
Qed.

(** An object is done, then its properties are walked. *)
Lemma obj_node_walks lim (cnt : bool) body f s s1 h hs : visits lim cnt body -> heap_ok hgp s -> Inv s -> (base.size (todo s) < lim)%nat ->
  proper s (NO h) = true -> obj_ok hgp s h hs -> ~ D s (NO h) ->
  (if cnt then kids s (NO h) else []) ≡ₚ K s (NO h) -> upd_buffered h f s = Ok (tt, s1) -> P [NO h] [] s s1 ->
  exists s' N, (upd_buffered h f;; p ← reading (obj_elements hgp h hs); for_each p body) s = Ok (tt, s') /\
    spread [NO h] [] N s s' /\ NO h ∈ N.
Proof using Pa Ks.
  intros Hv Hok Hr Hl Hp [Hprops Hdom] Hn HK H1 P1. pose proof (P_static _ _ _ _ P1) as Hst.
  destruct (for_each_walks lim cnt body (props s h) Hv s1) as (s2 & N & H2 & S2 & C2).
  - by eapply static_heap_ok.
  - by eapply P_inv.
  - eapply Forall_impl; [exact Hdom|]. intros b Hb. by rewrite (static_zval s s1).
  - eapply Nat.le_lt_trans; [|exact Hl]. by eapply todo_less.
  - rewrite (static_refs_to s s1) in S2, C2 by done. exists s2, (NO h :: N). split_and!; [|by eapply spread_node|by left].
    rewrite (mbind_ok _ _ _ _ _ H1). rewrite (mbind_reading _ _ _ (props s h)); [done|].
    apply obj_elements_props. rewrite (static_obj_props _ s s1 h hs Hst). exact Hprops.
Qed.

(** Counting the reference to an element, then visiting it. *)
Lemma count_then_visit lim d (visit : addr -> M (gstate CB) unit) :
  (forall s a, Inv s -> is_Some (zvals (world s) !! a) -> exists s', count_element a d s = Ok (tt, s') /\ P [] (refs_to s [a]) s s') ->
  (forall s a, heap_ok hgp s -> Inv s -> is_Some (zvals (world s) !! a) -> (base.size (todo s) < lim)%nat ->
    walks_to (visit a) (refs_to s [a]) [] s) ->
  visits lim true (fun a => count_element a d;; visit a).
Proof using Pa Ks.
  intros Hcount Hvisit s a Hok Hr Ha Hl. destruct (Hcount s a Hr Ha) as (s1 & H1 & P1).
  pose proof (P_static _ _ _ _ P1) as Hst. pose proof (spread_none (refs_to s [a]) _ _ _ P1) as S1.
  destruct (Hvisit s1 a) as (s2 & N & H2 & S2 & C2).
  - by eapply static_heap_ok.
  - by eapply P_inv.
  - by apply (static_zval s s1).
  - eapply Nat.le_lt_trans; [|exact Hl]. by eapply todo_less.
  - rewrite (static_refs_to s s1) in S2, C2 by done. exists s2, N. split; [by rewrite (mbind_ok _ _ _ _ _ H1)|]. split.
    + change N with ([] ++ N). eapply (spread_weaken (refs_to s [a] ++ refs_to s [a]) _ (refs_to s [a] ++ []));
        [set_solver|by rewrite app_nil_r|]. by eapply spread_app.
    + intros y Hy. destruct (C2 y Hy) as [?|Hy']; [by left|]. right.
      assert (Hpy : proper s y = true) by (apply refs_to_elem in Hy as (b & -> & _ & Hb); exact Hb).
      apply (P_done _ _ _ _ _ Hpy P1) in Hy'. by destruct Hy' as [?%elem_of_nil|?].
Qed.
End Spreading.

(** Of a coarser change of state. *)
Lemma spread_mono (P P' : list node -> list node -> gstate CB -> gstate CB -> Prop) D K F E N s s' :
  (forall N E s s', P N E s s' -> P' N E s s') -> spreading P D K F E N s s' -> spreading P' D K F E N s s'.
Proof. intros H [H1 H2 H3 H4 H5]. split; auto. Qed.

(** ** Colours *)

Definition colored (c : Z) s n : Prop := color s n = Some c.
#[export] Instance colored_dec c s n : Decision (colored c s n).
Proof. unfold colored. apply _. Defined.

Lemma painted_painting c d : 0 <= c < 4 -> Painting ranged (colored c) (painted c d).
Proof.
  intros Hc. split.
  - intros s. apply painted_none.
  - intros. by eapply painted_ranged.
  - intros N E s s' H. by destruct H.
  - intros N E s s' m Hm H. by eapply painted_colored.
  - intros. by eapply painted_app.
  - intros N N' E E' s s' HN HE H. eapply painted_perm; [|exact HE|exact H]. intros x. by rewrite HN.
Qed.
End Spread.
