(* ===== verification/ZendGcMark.v ===== *)
(** * Marking: [zval_mark_grey] and [zval_scan_black]

    Both end, and spread their colour as ZendGcSpread says: the first lowers
    the counts along the edges, the second raises them. *)

From S2P Require Import Prelude Dll ZendObjectsApi ZendGc ZendGcGraph ZendGcWalk ZendGcSpread.
Open Scope Z_scope.

Section Mark.
Context {CB : Type} (hgp : CB -> bool).
Implicit Types (s : gstate CB) (n m x y : node) (a : addr) (l N F E : list node) (p : list addr).
Notation G := (M (gstate CB)).

Section Visit.
Context (c d : Z) (Hc : 0 <= c < 4).
#[local] Instance painting : Painting (CB := CB) ranged (colored c) (painted c d) := painted_painting c d Hc.
Notation walks := (walks_to (colored c) (painted c d) kids).
Notation spread := (spreading (painted c d) (colored c) kids).
Notation visiting := (visits hgp ranged (colored c) (painted c d) kids).
Notation unpainted s := (base.size (todo (colored c) s)).

Lemma counted_value s a z : zvals (world s) !! a = Some z -> counted s a = negb (is_symbol_table (z_value z) s).
Proof. intros Hz. unfold counted. by rewrite Hz. Qed.
Lemma refs_to_counted s a : counted s a = true -> refs_to s [a] = [NZ a].
Proof. intros H. unfold refs_to. by rewrite filter_cons, decide_True. Qed.
Lemma refs_to_uncounted s a : counted s a = false -> refs_to s [a] = [].
Proof. intros H. unfold refs_to. rewrite filter_cons, decide_False; [done|by rewrite H]. Qed.

Lemma count_element_run s a : ranged s -> is_Some (zvals (world s) !! a) ->
  exists s', count_element a d s = Ok (tt, s') /\ painted c d [] (refs_to s [a]) s s'.
Proof.
  intros Hr [z Hz]. unfold count_element. rewrite (mbind_reading _ _ _ _ (zval_at_ok s a z Hz)), mbind_get.
  pose proof (counted_value s a z Hz) as Hcv. destruct (is_symbol_table (z_value z) s); cbn [negb] in Hcv.
  - rewrite (refs_to_uncounted s a Hcv). exists s. split; [done|]. by apply painted_none.
  - rewrite (refs_to_counted s a Hcv). assert (Hi : info s (NZ a) = Some (u z, refcount__gc z)) by (cbn; by rewrite Hz).
    destruct (add_refcount_run s a _ _ d Hi) as (s' & Hs & Ht). exists s'. split; [done|]. by eapply painted_count.
Qed.

(** An object is painted, then its properties are walked. *)
Lemma paint_obj_walks lim body f s h hs : (forall v, f v = GC_SET_COLOR c v) -> visiting lim true body ->
  heap_ok hgp s -> ranged s -> (unpainted s < lim)%nat ->
  proper s (NO h) = true -> obj_ok hgp s h hs -> color s (NO h) <> Some c ->
  exists s' N, (upd_buffered h f;; p ← reading (obj_elements hgp h hs); for_each p body) s = Ok (tt, s') /\
    spread [NO h] [] N s s' /\ NO h ∈ N.
Proof using Hc.
  intros Hf Hv Hok Hr Hl Hp Hobj Hcol. destruct (proper_info s (NO h) Hp) as (w & r & Hi).
  destruct (upd_buffered_run s h w r f Hi) as (s1 & H1 & T1). rewrite Hf in T1.
  eapply (obj_node_walks hgp ranged _ _ kids lim true); try done. by eapply painted_color.
Qed.

(** The part of both functions that follows a reference to an object. *)
Lemma object_walks lim body f s h hs : (forall v, f v = GC_SET_COLOR c v) -> visiting lim true body ->
  heap_ok hgp s -> ranged s -> (unpainted s < lim)%nat ->
  proper s (NO h) = true -> obj_ok hgp s h hs ->
  walks (p ← (add_obj_refcount h d;; k ← reading (obj_color h);
              if negb (k =? c) then upd_buffered h f;; reading (obj_elements hgp h hs) else mret []);
         for_each p body) [NO h] [NO h] s.
Proof using Hc.
  intros Hf Hv Hok Hr Hl Hp Hobj. destruct (proper_info s (NO h) Hp) as (w & r & Hi).
  destruct (add_obj_refcount_run s h w r d Hi) as (s1 & H1 & T1).
  pose proof (painted_count c d _ _ _ _ _ Hr Hp Hi T1) as P1. pose proof (P_static _ _ _ _ P1) as Hst.
  pose proof (spread_none (colored c) (painted c d) kids [NO h] _ _ _ P1) as S1.
  pose proof (to_this _ _ _ _ T1) as Hi1. unfold walks_to. rewrite mbind_assoc, (mbind_ok _ _ _ _ _ H1).
  rewrite mbind_assoc, (mbind_reading _ _ _ _ (obj_color_ok _ _ _ _ Hi1)).
  destruct (Z.eqb_spec (GC_GET_COLOR w) c) as [Hcol|Hcol]; cbn [negb].
  - exists s1, []. split; [done|]. split; [done|]. intros y ->%list_elem_of_singleton. right. apply color_some. by exists w, r.
  - destruct (paint_obj_walks lim body f s1 h hs Hf Hv) as (s2 & N & H2 & S2 & HN).
    + by eapply static_heap_ok.
    + by eapply P_inv.
    + eapply Nat.le_lt_trans; [|exact Hl]. eapply (todo_less _ _ (painted c d)); exact P1.
    + by rewrite (static_proper s s1).
    + by eapply static_obj_ok.
    + rewrite color_some. intros (w' & r' & Hi' & Hw). rewrite Hi1 in Hi'. by injection Hi' as <- <-.
    + exists s2, N. split; [by rewrite mbind_assoc|]. split; [|intros y ->%list_elem_of_singleton; by left].
      change N with ([] ++ N). eapply (spread_weaken ranged _ _ kids ([NO h] ++ [NO h]) _ ([NO h] ++ [])); [set_solver|done|].
      by eapply (spread_app hgp ranged (colored c) (painted c d) kids).
Qed.

(** From a zval just painted, its elements or its object are walked. *)
Lemma zval_kids_walk lim body f s a z X : (forall v, f v = GC_SET_COLOR c v) -> visiting lim true body ->
  heap_ok hgp s -> ranged s -> (unpainted s < lim)%nat ->
  zvals (world s) !! a = Some z -> is_symbol_table (z_value z) s = false ->
  walks (p ← match z_value z with
          | V_OBJECT hnd hs =>
              if has_store s then
                add_obj_refcount hnd d;;
                k ← reading (obj_color hnd);
                if negb (k =? c) then upd_buffered hnd f;; reading (obj_elements hgp hnd hs) else mret []
              else mret []
          | V_ARRAY ht => if is_symbol_table (z_value z) s then X else reading (elements_of ht)
          | V_OTHER _ => mret []
          end; for_each p body) (kids s (NZ a)) (kids s (NZ a)) s.
Proof using Hc.
  intros Hf Hv Hok Hr Hl Hz Hsym. cbn [kids].
  assert (Hval : z_value <$> zvals (world s) !! a = Some (z_value z)) by (by rewrite Hz). rewrite Hval.
  assert (Hnone : walks (p ← mret []; for_each p body) [] [] s).
  { apply (walks_none _ _ _ _ s s); [done|by apply P_none|apply covered_nil]. }
  destruct (z_value z) as [ht|h hs|t]; [| |done].
  - rewrite Hsym. destruct (ho_array _ _ Hok a ht Hval) as (p & Hp & Hdom).
    { unfold is_symbol_table in Hsym. by apply bool_decide_eq_false in Hsym. }
    rewrite Hp. unfold walks_to. rewrite (mbind_reading _ _ _ p) by (unfold elements_of; by rewrite Hp).
    by apply (for_each_walks hgp ranged _ _ kids lim true).
  - destruct (has_store s) eqn:Hst; [|exact Hnone]. destruct (ho_object _ _ Hok a h hs Hval Hst) as [Hp Hobj].
    by apply (object_walks lim).
Qed.

(** What a zval's visit leaves: it and what it leads to are painted. *)
Definition zval_walks (run : G unit) s a : Prop := walks run (refs_to s [a]) [] s.

(** The zval has been painted. *)
Lemma zval_walks_node s s1 a w r lim body f z X (run : G unit) : (forall v, f v = GC_SET_COLOR c v) -> visiting lim true body ->
  heap_ok hgp s -> ranged s -> (unpainted s <= lim)%nat -> counted s a = true -> color s (NZ a) <> Some c ->
  info s (NZ a) = Some (w, r) -> touched (NZ a) (GC_SET_COLOR c w, r) s s1 -> zvals (world s1) !! a = Some z ->
  run s = (p ← match z_value z with
          | V_OBJECT hnd hs =>
              if has_store s1 then
                add_obj_refcount hnd d;;
                k ← reading (obj_color hnd);
                if negb (k =? c) then upd_buffered hnd f;; reading (obj_elements hgp hnd hs) else mret []
              else mret []
          | V_ARRAY ht => if is_symbol_table (z_value z) s1 then X else reading (elements_of ht)
          | V_OTHER _ => mret []
          end; for_each p body) s1 ->
  zval_walks run s a.
Proof using Hc.
  intros Hf Hv Hok Hr Hl Hcount Hcol Hi T1 Hz Hrun.
  pose proof (painted_color c d (NZ a) _ _ _ _ Hr Hcount Hi T1) as P1. pose proof (P_static _ _ _ _ P1) as Hst.
  pose proof (counted_value s1 a z Hz) as Hsym. rewrite (static_counted s s1 a Hst), Hcount in Hsym.
  destruct (zval_kids_walk lim body f s1 a z X Hf Hv) as (s2 & N & H2 & S2 & C2).
  - by eapply static_heap_ok.
  - by eapply P_inv.
  - eapply Nat.lt_le_trans; [|exact Hl]. eapply (todo_lt _ _ (painted c d)); [exact P1|by left|done|done].
  - done.
  - by destruct (is_symbol_table (z_value z) s1).
  - rewrite (static_kids s s1) in S2, C2 by done. exists s2, (NZ a :: N). rewrite Hrun, H2.
    split; [done|]. rewrite (refs_to_counted s a Hcount). split; [by eapply (spread_node hgp ranged (colored c) (painted c d) kids)|].
    intros y ->%list_elem_of_singleton. left. by left.
Qed.

(** Counting the reference, then visiting. *)
Lemma count_then_paint lim (visit : addr -> G unit) :
  (forall s a, heap_ok hgp s -> ranged s -> is_Some (zvals (world s) !! a) -> (unpainted s < lim)%nat -> zval_walks (visit a) s a) ->
  visiting lim true (fun a => count_element a d;; visit a).
Proof using Hc. intros Hv. apply count_then_visit; [exact painting|apply _|exact count_element_run|exact Hv]. Qed.
End Visit.

(** ** The two functions *)

Lemma grey_range : 0 <= GC_GREY < 4.
Proof. done. Qed.
Lemma black_range : 0 <= GC_BLACK < 4.
Proof. done. Qed.

Lemma zval_mark_grey_walks fuel : forall s a, heap_ok hgp s -> ranged s -> is_Some (zvals (world s) !! a) ->
  (base.size (todo (colored GC_GREY) s) < fuel)%nat -> zval_walks GC_GREY (-1) (zval_mark_grey hgp fuel a) s a.
Proof.
  induction fuel as [|fuel IH]; intros s a Hok Hr [z Hz] Hl; [lia|].
  assert (Hi : info s (NZ a) = Some (u z, refcount__gc z)) by (cbn; by rewrite Hz).
  destruct (Z.eqb_spec (GC_GET_COLOR (u z)) GC_GREY) as [Hcol|Hcol].
  { apply (walks_none _ _ _ _ s s); [|by apply painted_none|].
    - cbn [zval_mark_grey]. rewrite (mbind_reading _ _ _ _ (color_of_ok _ _ _ _ Hi)). by rewrite Hcol.
    - intros y (b & -> & ->%list_elem_of_singleton & _)%refs_to_elem. right. apply color_some. by exists (u z), (refcount__gc z). }
  assert (Hneg : negb (GC_GET_COLOR (u z) =? GC_GREY) = true) by (by rewrite (proj2 (Z.eqb_neq _ _) Hcol)).
  destruct (upd_u_run s a _ _ (GC_SET_COLOR GC_GREY) Hi) as (s1 & H1 & T1).
  pose proof (to_this _ _ _ _ T1) as Hi1. destruct (info_zval _ _ _ _ Hi1) as (z1 & Hz1 & Hu1 & Hr1).
  assert (Hval : z_value z1 = z_value z).
  { pose proof (static_value s s1 a (to_static _ _ _ _ T1)) as E. rewrite Hz, Hz1 in E. by injection E. }
  destruct (counted s a) eqn:Hcount.
  - eapply (zval_walks_node GC_GREY (-1) grey_range s s1 a _ _ fuel _ (GC_SET_COLOR GC_GREY) z1); try done.
    + by apply (count_then_paint _ _ grey_range fuel).
    + lia.
    + rewrite color_some. intros (w & r & Hi' & Hw). rewrite Hi in Hi'. by injection Hi' as <- <-.
    + cbn [zval_mark_grey]. rewrite (mbind_reading _ _ _ _ (color_of_ok _ _ _ _ Hi)), Hneg.
      rewrite (mbind_ok _ _ _ _ _ H1), (mbind_reading _ _ _ _ (zval_at_ok _ _ _ Hz1)), mbind_get. reflexivity.
  - rewrite (counted_value s a z Hz) in Hcount. apply negb_false_iff in Hcount.
    destruct (upd_u_run s1 a _ _ GC_SET_BLACK Hi1) as (s2 & H2 & T2).
    assert (Hsym : is_symbol_table (z_value z1) s1 = true).
    { rewrite Hval. by rewrite (static_symbol_table s s1) by apply (to_static _ _ _ _ T1). }
    assert (Hblack : GC_SET_BLACK (GC_SET_COLOR GC_GREY (u z)) = GC_SET_BLACK (u z)).
    { rewrite !set_black_color. by rewrite set_color_set. }
    rewrite Hblack in T2. assert (Hc : counted s a = false) by (rewrite (counted_value s a z Hz); by rewrite Hcount).
    apply (walks_none _ _ _ _ s s2).
    + cbn [zval_mark_grey]. rewrite (mbind_reading _ _ _ _ (color_of_ok _ _ _ _ Hi)), Hneg.
      rewrite (mbind_ok _ _ _ _ _ H1), (mbind_reading _ _ _ _ (zval_at_ok _ _ _ Hz1)), mbind_get.
      destruct (z_value z1) as [ht|h hs|t]; [|done|done]. rewrite Hsym. by rewrite mbind_assoc, (mbind_ok _ _ _ _ _ H2).
    + eapply painted_black; [done|done|exact Hi|]. by eapply touched_twice.
    + rewrite (refs_to_uncounted s a Hc). by intros y ?%elem_of_nil.
Qed.

Definition scan_black_spec (fuel : nat) : Prop := forall s a, heap_ok hgp s -> ranged s -> is_Some (zvals (world s) !! a) ->
  (counted s a = true -> color s (NZ a) <> Some GC_BLACK) ->
  (base.size (todo (colored GC_BLACK) s) < fuel)%nat -> zval_walks GC_BLACK 1 (zval_scan_black hgp fuel a) s a.
(** An element is counted, and visited unless it is black. *)
Lemma black_element_visits fuel : scan_black_spec fuel -> visits hgp ranged (colored GC_BLACK) (painted GC_BLACK 1) kids fuel true
  (fun pz => count_element pz 1;; c ← reading (color_of pz); if negb (c =? GC_BLACK) then zval_scan_black hgp fuel pz else mret tt).
Proof.
  intros IH. apply (count_then_paint _ _ black_range fuel). intros s a Hok Hr [z Hz] Hl.
  assert (Hi : info s (NZ a) = Some (u z, refcount__gc z)) by (cbn; by rewrite Hz).
  destruct (Z.eqb_spec (GC_GET_COLOR (u z)) GC_BLACK) as [Hb|Hb].
  - apply (walks_none _ _ _ _ s s); [|by apply painted_none|].
    + rewrite (mbind_reading _ _ _ _ (color_of_ok _ _ _ _ Hi)). by rewrite Hb.
    + intros y (b & -> & ->%list_elem_of_singleton & _)%refs_to_elem. right. apply color_some. by exists (u z), (refcount__gc z).
  - assert (Hn : color s (NZ a) <> Some GC_BLACK).
    { rewrite color_some. intros (w & r & Hi2 & Hw). rewrite Hi in Hi2. by injection Hi2 as <- <-. }
    destruct (IH s a Hok Hr ltac:(by eexists) (fun _ => Hn) Hl) as (s2 & N & H2 & Hrest). exists s2, N. split; [|done].
    rewrite (mbind_reading _ _ _ _ (color_of_ok _ _ _ _ Hi)), (proj2 (Z.eqb_neq _ _) Hb). exact H2.
Qed.
Lemma zval_scan_black_walks fuel : scan_black_spec fuel.
Proof.
  induction fuel as [|fuel IH]; intros s a Hok Hr [z Hz] Hcol Hl; [lia|].
  assert (Hi : info s (NZ a) = Some (u z, refcount__gc z)) by (cbn; by rewrite Hz).
  destruct (upd_u_run s a _ _ GC_SET_BLACK Hi) as (s1 & H1 & T1).
  pose proof (to_this _ _ _ _ T1) as Hi1. destruct (info_zval _ _ _ _ Hi1) as (z1 & Hz1 & _).
  destruct (counted s a) eqn:Hcount.
  - rewrite set_black_color in T1.
    eapply (zval_walks_node GC_BLACK 1 black_range s s1 a _ _ fuel
      (fun pz => count_element pz 1;; c ← reading (color_of pz); if negb (c =? GC_BLACK) then zval_scan_black hgp fuel pz else mret tt)
      GC_SET_BLACK z1 (mret [])); try done.
    + intros v. apply set_black_color.
    + by apply black_element_visits.
    + lia.
    + by apply Hcol.
    + cbn [zval_scan_black]. rewrite (mbind_ok _ _ _ _ _ H1), (mbind_reading _ _ _ _ (zval_at_ok _ _ _ Hz1)), mbind_get. reflexivity.
  - assert (Hsym : is_symbol_table (z_value z1) s1 = true).
    { pose proof (counted_value s1 a z1 Hz1) as E. rewrite (static_counted s s1 a (to_static _ _ _ _ T1)), Hcount in E.
      by destruct (is_symbol_table (z_value z1) s1). }
    apply (walks_none _ _ _ _ s s1).
    + cbn [zval_scan_black]. rewrite (mbind_ok _ _ _ _ _ H1), (mbind_reading _ _ _ _ (zval_at_ok _ _ _ Hz1)), mbind_get.
      destruct (z_value z1) as [ht|h hs|t]; [|done|done]. by rewrite Hsym.
    + by eapply painted_black.
    + rewrite (refs_to_uncounted s a Hcount). by intros y ?%elem_of_nil.
Qed.

(** The same for an object. *)
Lemma zobj_scan_black_walks fuel s h hs : heap_ok hgp s -> ranged s -> proper s (NO h) = true -> obj_ok hgp s h hs ->
  color s (NO h) <> Some GC_BLACK -> (base.size (todo (colored GC_BLACK) s) < fuel)%nat ->
  exists s' N, zobj_scan_black hgp fuel h hs s = Ok (tt, s') /\ spreading (painted GC_BLACK 1) (colored GC_BLACK) kids [NO h] [] N s s' /\ NO h ∈ N.
Proof.
  intros Hok Hr Hp Hobj Hcol Hl.
  apply (paint_obj_walks GC_BLACK 1 black_range fuel
    (fun pz => count_element pz 1;; c ← reading (color_of pz); if negb (c =? GC_BLACK) then zval_scan_black hgp fuel pz else mret tt)); try done.
  - intros v. apply set_black_color.
  - apply black_element_visits. intros. by apply zval_scan_black_walks.
Qed.
Lemma zobj_mark_grey_walks s h hs : heap_ok hgp s -> ranged s -> proper s (NO h) = true -> obj_ok hgp s h hs ->
  exists s' N, zobj_mark_grey hgp h hs s = Ok (tt, s') /\ spreading (painted GC_GREY (-1)) (colored GC_GREY) kids [NO h] [] N s s' /\ covered (colored GC_GREY) [NO h] N s.
Proof.
  intros Hok Hr Hp Hobj. destruct (proper_info s (NO h) Hp) as (w & r & Hi). unfold zobj_mark_grey. rewrite mbind_get.
  rewrite (mbind_reading _ _ _ _ (obj_color_ok _ _ _ _ Hi)). destruct (Z.eqb_spec (GC_GET_COLOR w) GC_GREY) as [Hcol|Hcol]; cbn [negb].
  - exists s, []. split; [done|]. split; [by apply (spread_none _ _ _), painted_none|].
    intros y ->%list_elem_of_singleton. right. apply color_some. by exists w, r.
  - destruct (paint_obj_walks GC_GREY (-1) grey_range (gc_fuel s)
      (fun pz => count_element pz (-1);; zval_mark_grey hgp (gc_fuel s) pz) (GC_SET_COLOR GC_GREY) s h hs) as (s' & N & H & HS & HN); try done.
    + apply (count_then_paint _ _ grey_range). intros. by apply zval_mark_grey_walks.
    + apply todo_fuel.
    + rewrite color_some. intros (w' & r' & Hi' & Hw). rewrite Hi in Hi'. by injection Hi' as <- <-.
    + exists s', N. split; [done|]. split; [done|]. intros y ->%list_elem_of_singleton. by left.
Qed.
End Mark.
