(* ===== verification/ZendGcScan.v ===== *)
(** * Scanning: [zval_scan]

    A grey node leaves its colour: it turns black, with all it leads to, when
    its count is not zero, and white otherwise; a white node reached again
    from a black one turns black after all. *)

From S2P Require Import Prelude Dll ZendObjectsApi ZendGc ZendGcGraph ZendGcWalk ZendGcSpread ZendGcMark.
Open Scope Z_scope.

Section Scan.
Context {CB : Type} (hgp : CB -> bool).
Implicit Types (s : gstate CB) (n m x y : node) (a : addr) (l N F E B : list node) (p : list addr).
Notation G := (M (gstate CB)).
Notation blackening := (spreading (painted GC_BLACK 1) (colored GC_BLACK) kids).

Definition settled s n : Prop := color s n <> Some GC_GREY.
#[export] Instance settled_dec s n : Decision (settled s n).
Proof. unfold settled. apply _. Defined.
Lemma not_settled s n : ~ settled s n <-> color s n = Some GC_GREY.
Proof. unfold settled. split; [apply dec_stable|naive_solver]. Qed.
(** The scan counts no references of its own. *)
Definition no_refs s n : list node := [].
#[export] Instance no_refs_static : Static (CB := CB) no_refs.
Proof. done. Qed.
Lemma no_refs_bind s N : N ≫= no_refs s = [].
Proof. induction N as [|x N IH]; [done|]. exact IH. Qed.

(** The nodes [N] are no longer grey: those of [B] are black, with all they
    lead to, and what was white is black too if it is in [B]. *)
Record blackened B N s s' : Prop := {
  bl_nodup : NoDup B;
  bl_new : forall x, x ∈ B -> proper s x = true /\ color s x <> Some GC_BLACK;
  bl_closed : forall x y, x ∈ B -> y ∈ kids s x -> y ∈ B \/ color s y = Some GC_BLACK;
  bl_from : forall x, x ∈ B -> exists f, f ∈ N /\ rc s f <> 0 /\ rtc (edge s) f x;
  bl_grey : forall x, x ∈ B -> color s x = Some GC_GREY -> x ∈ N;
  bl_white : forall x, x ∈ N -> proper s x = true /\ color s x = Some GC_GREY /\ (x ∉ B -> rc s x = 0);
  bl_info : forall m w r, proper s m = true -> info s m = Some (w, r) ->
    info s' m = Some (if decide (m ∈ B) then GC_SET_COLOR GC_BLACK w else if decide (m ∈ N) then GC_SET_COLOR GC_WHITE w else w,
                      u32 (r + count m (B ≫= kids s)))
}.
Record sifted N E s s' : Prop := {
  sf_static : static s s';
  sf_globals : gc_globals (world s') = gc_globals (world s);
  sf_ranged : ranged s /\ heap_ok hgp s /\ ranged s';
  sf_black : exists B, blackened B N s s';
  sf_other : forall m, proper s m = false ->
    info s' m = info s m \/ exists w r, info s m = Some (w, r) /\ info s' m = Some (GC_SET_BLACK w, r)
}.

Lemma rc_info s n w r : info s n = Some (w, r) -> rc s n = r.
Proof. unfold rc. by intros ->. Qed.
Lemma color_info s n w r : info s n = Some (w, r) -> color s n = Some (GC_GET_COLOR w).
Proof. unfold color. by intros ->. Qed.
Lemma bind_kids_elem s N y : y ∈ N ≫= kids s <-> exists x, x ∈ N /\ y ∈ kids s x.
Proof. rewrite list_elem_of_bind. naive_solver. Qed.
Lemma count_zero n l : n ∉ l -> count n l = 0.
Proof. intros H. pose proof (count_nonneg n l). pose proof (proj2 (count_pos n l)). destruct (decide (count n l = 0)); [done|]. exfalso. apply H. apply count_pos. lia. Qed.

(** What the change of colours means for one node. *)
Lemma blackened_color B N s s' m : blackened B N s s' -> proper s m = true ->
  color s' m = if decide (m ∈ B) then Some GC_BLACK else if decide (m ∈ N) then Some GC_WHITE else color s m.
Proof.
  intros H Hm. destruct (proper_info s m Hm) as (w & r & Hi). pose proof (bl_info _ _ _ _ H m w r Hm Hi) as Hi'.
  rewrite (color_info _ _ _ _ Hi'), (color_info _ _ _ _ Hi). by repeat case_decide; rewrite ?get_set_color.
Qed.
(** A node that stays grey is not counted. *)
Lemma blackened_rc B N s s' m : ranged s -> blackened B N s s' -> proper s m = true -> m ∉ B -> color s m <> Some GC_BLACK ->
  rc s' m = rc s m.
Proof.
  intros Hr H Hm HB Hc. destruct (proper_info s m Hm) as (w & r & Hi). rewrite (rc_info _ _ _ _ (bl_info _ _ _ _ H m w r Hm Hi)).
  rewrite (rc_info _ _ _ _ Hi), count_zero, Z.add_0_r; [by apply u32_id; eapply Hr|].
  intros (x & Hx & Hk)%bind_kids_elem. by destruct (bl_closed _ _ _ _ H x m Hx Hk).
Qed.

Lemma sifted_none s : ranged s -> heap_ok hgp s -> sifted [] [] s s.
Proof.
  intros Hr Hok. split; [done|done|done| |by left]. exists []. split; try (intros ? ?%elem_of_nil; done); try (by intros ? ? ?%elem_of_nil).
  - apply NoDup_nil_2.
  - intros m w r _ Hi. rewrite !decide_False by apply not_elem_of_nil. cbn. rewrite count_nil, Z.add_0_r. by rewrite u32_id; [|eapply Hr].
Qed.
Lemma sifted_done N E s s' m : proper s m = true -> sifted N E s s' -> settled s' m <-> m ∈ N \/ settled s m.
Proof.
  intros Hm [Hst _ _ (B & H) _]. unfold settled. rewrite (blackened_color B N s s' m H Hm).
  destruct (decide (m ∈ B)) as [HB|HB].
  - split; [|done]. intros _. destruct (decide (color s m = Some GC_GREY)); [left; by eapply bl_grey|by right].
  - destruct (decide (m ∈ N)); [split; [by left|done]|]. split; [by right|]. by intros [?|?].
Qed.

Lemma blackened_app B1 B2 N1 N2 s s1 s2 : ranged s -> heap_ok hgp s -> static s s1 ->
  blackened B1 N1 s s1 -> blackened B2 N2 s1 s2 -> blackened (B1 ++ B2) (N1 ++ N2) s s2.
Proof.
  intros Hr Hok Hst H1 H2.
  assert (Hp : forall x, proper s1 x = proper s x) by (intros x; by apply static_proper).
  assert (Hk : forall x, kids s1 x = kids s x) by (intros x; by apply static_kids).
  assert (Hcol : forall x, proper s x = true -> color s1 x = if decide (x ∈ B1) then Some GC_BLACK else if decide (x ∈ N1) then Some GC_WHITE else color s x).
  { intros x Hx. by eapply blackened_color. }
  assert (Hblack : forall x, proper s x = true -> color s1 x = Some GC_BLACK -> x ∈ B1 \/ color s x = Some GC_BLACK).
  { intros x Hx. rewrite (Hcol x Hx). repeat case_decide; [by left|done|by right]. }
  assert (Hgrey : forall x, proper s x = true -> color s1 x = Some GC_GREY -> x ∉ B1 /\ x ∉ N1 /\ color s x = Some GC_GREY).
  { intros x Hx. rewrite (Hcol x Hx). by repeat case_decide. }
  assert (Hrc : forall x, proper s x = true -> color s1 x = Some GC_GREY -> rc s1 x = rc s x).
  { intros x Hx Hg. destruct (Hgrey x Hx Hg) as (Hb & _ & Hg'). eapply blackened_rc; try done. by rewrite Hg'. }
  split.
  - apply NoDup_app. split_and!; [by eapply bl_nodup| |by eapply bl_nodup]. intros x Hx1 Hx2.
    destruct (bl_new _ _ _ _ H2 x Hx2) as [Hx Hn]. apply Hn. rewrite Hp in Hx. by rewrite (Hcol x Hx), decide_True.
  - intros x [Hx|Hx]%elem_of_app; [by eapply bl_new|]. destruct (bl_new _ _ _ _ H2 x Hx) as [Hx' Hn]. rewrite Hp in Hx'.
    split; [done|]. intros Hb. apply Hn. rewrite (Hcol x Hx'). destruct (decide (x ∈ B1)); [done|].
    destruct (decide (x ∈ N1)) as [Hn1|]; [|done]. destruct (bl_white _ _ _ _ H1 x Hn1) as (_ & Hg & _). by rewrite Hb in Hg.
  - intros x y [Hx|Hx]%elem_of_app Hy; rewrite elem_of_app.
    + destruct (bl_closed _ _ _ _ H1 x y Hx Hy); auto.
    + rewrite <- Hk in Hy. destruct (bl_closed _ _ _ _ H2 x y Hx Hy) as [?|Hb]; [auto|]. rewrite Hk in Hy.
      destruct (Hblack y) as [?|?]; auto. by eapply kids_proper.
  - intros x [Hx|Hx]%elem_of_app.
    + destruct (bl_from _ _ _ _ H1 x Hx) as (f & Hf & Hrf & Hp'). exists f. rewrite elem_of_app. auto.
    + destruct (bl_from _ _ _ _ H2 x Hx) as (f & Hf & Hrf & Hp'). exists f. rewrite elem_of_app. split_and!; [auto| |by eapply static_rtc].
      destruct (bl_white _ _ _ _ H2 f Hf) as (Hf' & Hg & _). rewrite Hp in Hf'. by rewrite <- (Hrc f Hf' Hg).
  - intros x [Hx|Hx]%elem_of_app Hg; rewrite elem_of_app; [left; by eapply bl_grey|].
    destruct (bl_new _ _ _ _ H2 x Hx) as [Hx' Hn]. rewrite Hp in Hx'. rewrite (Hcol x Hx') in Hn.
    destruct (decide (x ∈ N1)) as [?|Hn1]; [by left|]. right. apply (bl_grey _ _ _ _ H2 x Hx).
    rewrite (Hcol x Hx'). by case_decide; [|case_decide].
  - intros x [Hx|Hx]%elem_of_app.
    + destruct (bl_white _ _ _ _ H1 x Hx) as (Hx' & Hg & Hr0). split_and!; [done|done|]. rewrite not_elem_of_app. tauto.
    + destruct (bl_white _ _ _ _ H2 x Hx) as (Hx' & Hg & Hr0). rewrite Hp in Hx'. destruct (Hgrey x Hx' Hg) as (_ & _ & Hg').
      split_and!; [done|done|]. rewrite not_elem_of_app, <- (Hrc x Hx' Hg). tauto.
  - intros m w r Hm Hi. rewrite (bl_info _ _ _ _ H2 m _ _ ltac:(by rewrite Hp) (bl_info _ _ _ _ H1 m w r Hm Hi)).
    rewrite u32_add_add, bind_app, count_app. rewrite (static_bind kids s s1 B2 Hst). do 2 f_equal.
    pose proof (fun Hb => bl_new _ _ _ _ H2 m Hb) as Hb2. pose proof (fun Hn => bl_white _ _ _ _ H2 m Hn) as Hn2.
    rewrite (Hcol m Hm) in Hb2, Hn2. repeat case_decide; rewrite ?set_color_set by done; try done; set_solver.
Qed.
Lemma sifted_app N1 N2 E1 E2 s s1 s2 : sifted N1 E1 s s1 -> sifted N2 E2 s1 s2 -> sifted (N1 ++ N2) (E1 ++ E2) s s2.
Proof.
  intros [S1 G1 R1 (B1 & H1) O1] [S2 G2 R2 (B2 & H2) O2]. split; [by transitivity s1|by rewrite G2|tauto| |].
  - exists (B1 ++ B2). destruct R1 as (? & ? & _). by eapply blackened_app.
  - intros m Hm. specialize (O1 m Hm). specialize (O2 m ltac:(by rewrite (static_proper s s1))).
    destruct O1 as [O1|(w & r & Hi & O1)], O2 as [O2|(w' & r' & Hi' & O2)]; rewrite ?O2.
    + by left.
    + right. rewrite O1 in Hi'. by exists w', r'.
    + right. by exists w, r.
    + right. rewrite O1 in Hi'. injection Hi' as <- <-. exists w, r. split; [done|].
      rewrite !set_black_color. by rewrite set_color_set.
Qed.

Lemma blackened_perm B N N' s s' : N ≡ₚ N' -> blackened B N s s' -> blackened B N' s s'.
Proof.
  intros HN [H1 H2 H3 H4 H5 H6 H7]. split; try done.
  - intros x Hx. destruct (H4 x Hx) as (f & Hf & ?). exists f. by rewrite <- HN.
  - intros x Hx Hg. rewrite <- HN. auto.
  - intros x Hx. apply H6. by rewrite HN.
  - intros m w r Hm Hi. rewrite (H7 m w r Hm Hi). do 3 f_equal. case_decide; [done|]. apply decide_ext. by rewrite HN.
Qed.
#[export] Instance sifting : Painting (fun s => ranged s /\ heap_ok hgp s) settled sifted.
Proof.
  split.
  - intros s [? ?]. by apply sifted_none.
  - intros N E s s' [_ Hok] [Hst _ (_ & _ & Hr) _ _]. split; [done|]. by eapply static_heap_ok.
  - intros N E s s' H. by destruct H.
  - intros. by eapply sifted_done.
  - intros. by eapply sifted_app.
  - intros N N' E E' s s' HN _ [S Gl R (B & H) O]. split; try done. exists B. by eapply blackened_perm.
Qed.
Notation sifts := (spreading sifted settled no_refs).
Notation sifts_to := (walks_to settled sifted no_refs).

(** ** The steps *)

(** A grey node without references turns white. *)
Lemma whitened n w s s' : ranged s -> heap_ok hgp s -> proper s n = true -> info s n = Some (w, 0) -> GC_GET_COLOR w = GC_GREY ->
  touched n (GC_SET_COLOR GC_WHITE w, 0) s s' -> sifted [n] [] s s'.
Proof.
  intros Hr Hok Hp Hi Hg T. pose proof T as [Hst Hgl Hn Ho]. split; [done|done| | |].
  - split_and!; [done|done|]. apply (painted_ranged GC_WHITE 0 [n] [] s); [done|]. by eapply painted_color.
  - exists []. split; try (intros ? ?%elem_of_nil; done); try (by intros ? ? ?%elem_of_nil).
    + apply NoDup_nil_2.
    + intros x ->%list_elem_of_singleton. split_and!; [done| |intros _; by eapply rc_info]. rewrite (color_info _ _ _ _ Hi). by rewrite Hg.
    + intros m w' r' Hm Hi'. rewrite decide_False by apply not_elem_of_nil. cbn. rewrite count_nil, Z.add_0_r, u32_id by by eapply Hr.
      destruct (decide (m = n)) as [->|Hne].
      * rewrite decide_True by (by left). rewrite Hi in Hi'. by injection Hi' as <- <-.
      * rewrite decide_False by (by rewrite list_elem_of_singleton). by rewrite Ho.
  - intros m Hm. left. apply Ho. intros ->. by rewrite Hp in Hm.
Qed.
(** A walk of [zval_scan_black] from grey nodes with references. *)
Lemma blackening_sifts F B s s' : ranged s -> heap_ok hgp s ->
  (forall f, f ∈ F -> color s f = Some GC_GREY /\ rc s f <> 0) -> blackening F [] B s s' -> (forall f, f ∈ F -> f ∈ B) ->
  sifts F [] (filter (fun x => color s x = Some GC_GREY) B) s s'.
Proof.
  intros Hr Hok HF [HP Hnd Hnew Hcl Hfrom] HFB. pose proof HP as [Hst Hgl Hi Ho]. split.
  - cbn. rewrite no_refs_bind. split; [done|done| | |done].
    + split_and!; [done|done|]. by eapply painted_ranged.
    + exists B. split; try done.
      * intros x Hx. destruct (Hfrom x Hx) as (f & Hf & Hr'). destruct (HF f Hf). exists f. split; [|done].
        apply list_elem_of_filter. auto.
      * intros x Hx Hg. by apply list_elem_of_filter.
      * intros x [Hg Hx]%list_elem_of_filter. split_and!; [by apply Hnew|done|done].
      * intros m w r Hm Hmi. rewrite (Hi m w r Hm Hmi). cbn. rewrite Z.mul_1_l. do 3 f_equal. case_decide; [done|].
        rewrite decide_False; [done|]. rewrite list_elem_of_filter. tauto.
  - by apply NoDup_filter.
  - intros x [Hg Hx]%list_elem_of_filter. split; [by apply Hnew|by apply not_settled].
  - intros x y [Hg Hx]%list_elem_of_filter Hy. destruct (decide (color s y = Some GC_GREY)) as [Hyg|]; [|by right]. left.
    apply list_elem_of_filter. split; [done|]. destruct (Hcl x y Hx Hy) as [?|Hb]; [done|]. unfold colored in Hb. by rewrite Hb in Hyg.
  - intros x [Hg Hx]%list_elem_of_filter. auto.
Qed.

Lemma static_fuel s s' : static s s' -> gc_fuel s' = gc_fuel s.
Proof.
  intros H. assert (E : zvals (world (skeleton s')) = zvals (world (skeleton s))) by (by rewrite H).
  apply (f_equal base.size) in E. cbn in E. rewrite !map_size_fmap in E. unfold gc_fuel. by rewrite E.
Qed.
Lemma filter_member s x N : x ∈ N -> color s x = Some GC_GREY -> x ∈ filter (fun x => color s x = Some GC_GREY) N.
Proof. intros. by apply list_elem_of_filter. Qed.

(** A grey object that is held. *)
Lemma blacken_object s h hs w r : ranged s -> heap_ok hgp s -> proper s (NO h) = true -> obj_ok hgp s h hs ->
  info s (NO h) = Some (w, r) -> GC_GET_COLOR w = GC_GREY -> r <> 0 -> sifts_to (zobj_scan_black hgp (gc_fuel s) h hs) [NO h] [] s.
Proof.
  intros Hr Hok Hp Hobj Hi Hg Hrc. assert (Hcol : color s (NO h) = Some GC_GREY) by (rewrite (color_info _ _ _ _ Hi); by rewrite Hg).
  destruct (zobj_scan_black_walks hgp (gc_fuel s) s h hs) as (s' & B & H & HS & HB); try done.
  - by rewrite Hcol.
  - apply todo_fuel.
  - exists s', (filter (fun x => color s x = Some GC_GREY) B). split; [done|]. split.
    + eapply blackening_sifts; try done; intros f ->%list_elem_of_singleton; [|done]. split; [done|]. by rewrite (rc_info _ _ _ _ Hi).
    + intros y ->%list_elem_of_singleton. left. by apply filter_member.
Qed.
(** A grey zval that is held. *)
Lemma blacken_zval s a w r : ranged s -> heap_ok hgp s ->
  info s (NZ a) = Some (w, r) -> GC_GET_COLOR w = GC_GREY -> r <> 0 ->
  sifts_to (zval_scan_black hgp (gc_fuel s) a) (refs_to s [a]) [] s.
Proof.
  intros Hr Hok Hi Hg Hrc. assert (Hcol : color s (NZ a) = Some GC_GREY) by (rewrite (color_info _ _ _ _ Hi); by rewrite Hg).
  destruct (info_zval _ _ _ _ Hi) as (z & Hz & _).
  assert (HF : forall f, f ∈ refs_to s [a] -> f = NZ a) by (by intros f (b & -> & ->%list_elem_of_singleton & _)%refs_to_elem).
  destruct (zval_scan_black_walks hgp (gc_fuel s) s a) as (s' & B & H & HS & HB); try done.
  - by rewrite Hcol.
  - apply todo_fuel.
  - assert (HFB : forall f, f ∈ refs_to s [a] -> f ∈ B).
    { intros f Hf. destruct (HB f Hf) as [?|Hb]; [done|]. rewrite (HF f Hf) in Hb. unfold colored in Hb. by rewrite Hcol in Hb. }
    exists s', (filter (fun x => color s x = Some GC_GREY) B). split; [done|]. split.
    + eapply blackening_sifts; try done; intros f Hf. rewrite (HF f Hf). split; [done|]. by rewrite (rc_info _ _ _ _ Hi).
    + intros y Hy. left. apply filter_member; [by apply HFB|]. by rewrite (HF y Hy).
Qed.

Section Visit.
Context (lim : nat) (body : addr -> G unit).
Notation ok := (fun s => ranged s /\ heap_ok hgp s).
Context (Hv : visits hgp ok settled sifted no_refs lim false body).

(** A grey object that is not held is white, and its properties are scanned. *)
Lemma whiten_object s h hs w : ranged s -> heap_ok hgp s -> (base.size (todo settled s) < lim)%nat ->
  proper s (NO h) = true -> obj_ok hgp s h hs ->
  info s (NO h) = Some (w, 0) -> GC_GET_COLOR w = GC_GREY ->
  sifts_to (upd_buffered h (GC_SET_COLOR GC_WHITE);; p ← reading (obj_elements hgp h hs); for_each p body) [NO h] [] s.
Proof using Hv.
  intros Hr Hok Hl Hp Hobj Hi Hg. destruct (upd_buffered_run s h w 0 (GC_SET_COLOR GC_WHITE) Hi) as (s1 & H1 & T1).
  destruct (obj_node_walks hgp ok settled sifted no_refs lim false body (GC_SET_COLOR GC_WHITE) s s1 h hs Hv) as (s2 & N & H2 & HS & HN); try done.
  - apply not_settled. rewrite (color_info _ _ _ _ Hi). by rewrite Hg.
  - by eapply whitened.
  - exists s2, N. split; [done|]. split; [done|]. intros y ->%list_elem_of_singleton. by left.
Qed.
(** What the scan of a zval does with its object. *)
Lemma scan_object s h hs : ranged s -> heap_ok hgp s -> (base.size (todo settled s) < lim)%nat ->
  proper s (NO h) = true -> obj_ok hgp s h hs ->
  sifts_to (p ← (c ← reading (obj_color h);
                 if c =? GC_GREY then
                   b ← reading (bucket h);
                   if 0 <? refcount b then zobj_scan_black hgp (gc_fuel s) h hs;; mret []
                   else upd_buffered h (GC_SET_COLOR GC_WHITE);; reading (obj_elements hgp h hs)
                 else mret []); for_each p body) [NO h] [] s.
Proof using Hv.
  intros Hr Hok Hl Hp Hobj. destruct (proper_info s (NO h) Hp) as (w & r & Hi). unfold walks_to. rewrite mbind_assoc.
  rewrite (mbind_reading _ _ _ _ (obj_color_ok _ _ _ _ Hi)). destruct (Z.eqb_spec (GC_GET_COLOR w) GC_GREY) as [Hg|Hg].
  - destruct (info_bucket _ _ _ _ Hi) as (b & Hb & Hw & Hrb). rewrite mbind_assoc, (mbind_reading _ _ _ _ Hb), Hrb.
    assert (Hr0 : 0 <= r) by (by eapply Hr). destruct (Z.ltb_spec 0 r).
    + destruct (blacken_object s h hs w r) as (s' & N & H' & HS & HC); try done; [lia|]. exists s', N. split; [|done].
      rewrite mbind_assoc. by rewrite (mbind_ok _ _ _ _ _ H').
    + assert (r = 0) as -> by lia. rewrite mbind_assoc. by apply (whiten_object s h hs w).
  - exists s, []. split; [done|]. split; [by apply spread_none, sifted_none|]. intros y ->%list_elem_of_singleton. right.
    unfold settled. rewrite (color_info _ _ _ _ Hi). by intros [= ?].
Qed.
End Visit.

(** ** The two functions *)

Notation ok := (fun s => ranged s /\ heap_ok hgp s).
Lemma for_each_nil (body : addr -> G unit) (run : G unit) s s' : run s = Ok (tt, s') -> (p ← (run;; mret []); for_each p body) s = Ok (tt, s').
Proof. intros H. rewrite mbind_assoc. by rewrite (mbind_ok _ _ _ _ _ H). Qed.

(** From a zval that has turned white. *)
Lemma scan_kids lim body s a z : visits hgp ok settled sifted no_refs lim false body ->
  ranged s -> heap_ok hgp s -> (base.size (todo settled s) < lim)%nat ->
  zvals (world s) !! a = Some z -> is_symbol_table (z_value z) s = false ->
  sifts_to (p ← match z_value z with
               | V_OBJECT hnd hs =>
                   if has_store s then
                     c ← reading (obj_color hnd);
                     if c =? GC_GREY then
                       b ← reading (bucket hnd);
                       if 0 <? refcount b then zobj_scan_black hgp (gc_fuel s) hnd hs;; mret []
                       else upd_buffered hnd (GC_SET_COLOR GC_WHITE);; reading (obj_elements hgp hnd hs)
                     else mret []
                   else mret []
               | V_ARRAY ht =>
                   if is_symbol_table (z_value z) s then upd_u (Some a) GC_SET_BLACK;; mret []
                   else reading (elements_of ht)
               | V_OTHER _ => mret []
               end; for_each p body) (kids s (NZ a)) [] s.
Proof.
  intros Hv Hr Hok Hl Hz Hsym. cbn [kids].
  assert (Hval : z_value <$> zvals (world s) !! a = Some (z_value z)) by (by rewrite Hz). rewrite Hval.
  assert (Hnone : sifts_to (p ← mret []; for_each p body) [] [] s).
  { apply (walks_none _ _ _ _ s s); [done|by apply sifted_none|apply covered_nil]. }
  destruct (z_value z) as [ht|h hs|t]; [| |done].
  - rewrite Hsym. destruct (ho_array _ _ Hok a ht Hval) as (p & Hp & Hdom).
    { unfold is_symbol_table in Hsym. by apply bool_decide_eq_false in Hsym. }
    rewrite Hp. unfold walks_to. rewrite (mbind_reading _ _ _ p) by (unfold elements_of; by rewrite Hp).
    by apply (for_each_walks hgp ok settled sifted no_refs lim false).
  - destruct (has_store s) eqn:Hst; [|exact Hnone]. destruct (ho_object _ _ Hok a h hs Hval Hst) as [Hp Hobj].
    by apply (scan_object lim).
Qed.

Lemma zval_scan_sifts fuel : visits hgp ok settled sifted no_refs fuel false (zval_scan hgp fuel).
Proof.
  induction fuel as [|fuel IH]; intros s a Hok [Hr _] [z Hz] Hl; [lia|]. unfold walks_to.
  assert (Hi : info s (NZ a) = Some (u z, refcount__gc z)) by (cbn; by rewrite Hz). cbn [zval_scan].
  rewrite (mbind_reading _ _ _ _ (color_of_ok _ _ _ _ Hi)). destruct (Z.eqb_spec (GC_GET_COLOR (u z)) GC_GREY) as [Hg|Hg].
  2: { exists s, []. split; [done|]. split; [by apply spread_none, sifted_none|]. intros y (b & -> & ->%list_elem_of_singleton & _)%refs_to_elem.
       right. unfold settled. rewrite (color_info _ _ _ _ Hi). by intros [= ?]. }
  rewrite (mbind_reading _ _ _ _ (zval_at_ok _ _ _ Hz)), mbind_get. assert (Hr0 : 0 <= refcount__gc z) by (by eapply Hr).
  destruct (Z.ltb_spec 0 (refcount__gc z)) as [Hrc|Hrc].
  { destruct (blacken_zval s a _ _ Hr Hok Hi Hg) as (s' & N & H & HS & HC); [lia|]. exists s', N. split; [|done]. by apply for_each_nil. }
  assert (Hz0 : refcount__gc z = 0) by lia. rewrite Hz0 in Hi.
  destruct (upd_u_run s a _ _ (GC_SET_COLOR GC_WHITE) Hi) as (s1 & H1 & T1). pose proof (to_static _ _ _ _ T1) as Hst.
  pose proof (to_this _ _ _ _ T1) as Hi1. destruct (info_zval _ _ _ _ Hi1) as (z1 & Hz1 & _).
  assert (Hval : z_value z1 = z_value z).
  { pose proof (static_value s s1 a Hst) as E. rewrite Hz, Hz1 in E. by injection E. }
  rewrite mbind_assoc, (mbind_ok _ _ _ _ _ H1), <- (static_fuel s s1 Hst), <- Hval.
  rewrite <- (static_has_store s s1 Hst), <- (static_symbol_table s s1 _ Hst). destruct (counted s a) eqn:Hcount.
  - assert (HP : sifted [NZ a] [] s s1) by (by eapply whitened). destruct (P_inv _ _ _ _ (conj Hr Hok) HP) as [Hr1 Hok1].
    assert (Hn : ~ settled s (NZ a)) by (apply not_settled; rewrite (color_info _ _ _ _ Hi); by rewrite Hg).
    destruct (scan_kids fuel (zval_scan hgp fuel) s1 a z1) as (s2 & N & H2 & S2 & C2); try done.
    + pose proof (todo_lt ok settled sifted a _ _ _ _ HP ltac:(by left) Hcount Hn). lia.
    + pose proof (counted_value s1 a z1 Hz1) as E. rewrite (static_counted s s1 a Hst), Hcount in E. by destruct (is_symbol_table (z_value z1) s1).
    + exists s2, (NZ a :: N). rewrite (static_kids s s1) in S2, C2 by done. split; [done|]. rewrite (refs_to_counted s a Hcount). split.
      * eapply (spread_node hgp ok settled sifted no_refs); try done.
      * intros y ->%list_elem_of_singleton. left. by left.
  - destruct (upd_u_run s1 a _ _ GC_SET_BLACK Hi1) as (s2 & H2 & T2).
    rewrite (set_black_color (GC_SET_COLOR GC_WHITE _)), set_color_set, <- set_black_color in T2 by done.
    assert (Hsym : is_symbol_table (z_value z1) s1 = true).
    { pose proof (counted_value s1 a z1 Hz1) as E. rewrite (static_counted s s1 a Hst), Hcount in E. by destruct (is_symbol_table (z_value z1) s1). }
    pose proof (painted_black GC_BLACK 1 a _ _ s s2 Hr Hcount Hi (touched_twice _ _ _ _ _ _ T1 T2)) as PB.
    exists s2, []. rewrite (refs_to_uncounted s a Hcount). split; [|split; [|apply covered_nil]].
    + destruct (z_value z1) as [ht|h hs|t]; [|done|done]. rewrite Hsym. rewrite mbind_assoc. by rewrite (mbind_ok _ _ _ _ _ H2).
    + apply (blackening_sifts [] [] s s2 Hr Hok); [by intros f ?%elem_of_nil|by apply spread_none|by intros f ?%elem_of_nil].
Qed.
Lemma zobj_scan_sifts s h hs : heap_ok hgp s -> ranged s -> proper s (NO h) = true -> obj_ok hgp s h hs ->
  sifts_to (zobj_scan hgp h hs) [NO h] [] s.
Proof.
  intros Hok Hr Hp Hobj. destruct (proper_info s (NO h) Hp) as (w & r & Hi). destruct (info_bucket _ _ _ _ Hi) as (b & Hb & Hw & Hrb).
  assert (Hst : has_store s = true) by (unfold bucket, cells in Hb; unfold has_store; by destruct (object_buckets (store s))).
  unfold walks_to, zobj_scan. rewrite mbind_get, Hst, (mbind_reading _ _ _ _ (obj_color_ok _ _ _ _ Hi)).
  destruct (Z.eqb_spec (GC_GET_COLOR w) GC_GREY) as [Hg|Hg].
  - rewrite (mbind_reading _ _ _ _ Hb), Hrb. assert (Hr0 : 0 <= r) by (by eapply Hr). destruct (Z.ltb_spec 0 r).
    + apply (blacken_object s h hs w r); try done. lia.
    + assert (r = 0) as -> by lia. apply (whiten_object (gc_fuel s) _ ltac:(apply zval_scan_sifts) s h hs w); try done. apply todo_fuel.
  - exists s, []. split; [done|]. split; [by apply spread_none, sifted_none|]. intros y ->%list_elem_of_singleton. right.
    unfold settled. rewrite (color_info _ _ _ _ Hi). by intros [= ?].
Qed.
End Scan.
