(* ===== verification/ZendGcCollect.v ===== *)
(** * Collecting: [zval_collect_white]

    A white node without a buffer entry, whose word is therefore [GC_WHITE],
    leaves that word: an object turns purple, a zval enters the list of those
    to free; the references to zvals are counted again. *)

From S2P Require Import Prelude Dll ZendObjectsApi ZendGc ZendGcGraph ZendGcWalk ZendGcSpread ZendGcMark ZendGcScan.
Open Scope Z_scope.

Section Collect.
Context {CB : Type} (hgp : CB -> bool).
Implicit Types (s : gstate CB) (n m x y : node) (a : addr) (l : list addr) (N F E : list node) (p : list addr).
Notation G := (M (gstate CB)).

(** Not for [zval_collect_white] to collect. *)
Definition spared s n : Prop := word_of s n <> Some GC_WHITE.
#[export] Instance spared_dec s n : Decision (spared s n).
Proof. unfold spared. apply _. Defined.
Lemma not_spared s n : ~ spared s n <-> word_of s n = Some GC_WHITE.
Proof. unfold spared. split; [apply dec_stable|naive_solver]. Qed.

(** The references counted again: those to zvals. *)
Definition is_zval n : bool := match n with NZ _ => true | NO _ => false end.
Definition zval_refs s n : list node := filter (fun y => is_zval y = true) (kids s n).
#[export] Instance zval_refs_static : Static (CB := CB) zval_refs.
Proof. intros s s' n H. unfold zval_refs. by rewrite (static_kids s s'). Qed.
Definition zvals_in N : list addr := omap (fun n => match n with NZ a => Some a | NO _ => None end) N.
Lemma zvals_in_elem N a : a ∈ zvals_in N <-> NZ a ∈ N.
Proof. unfold zvals_in. rewrite list_elem_of_omap. split; [|intros H; by exists (NZ a)]. intros ([b|h] & Hx & E); [by injection E as ->|done]. Qed.
Lemma zvals_in_nodup N : NoDup N -> NoDup (zvals_in N).
Proof.
  induction 1 as [|n N Hn HN IH]; [constructor|]. destruct n as [a|h]; [|exact IH]. change (NoDup (a :: zvals_in N)).
  constructor; [|exact IH]. by rewrite zvals_in_elem.
Qed.
Lemma filter_refs_to s p : filter (fun y => is_zval y = true) (refs_to s p) = refs_to s p.
Proof.
  unfold refs_to. induction p as [|b p IH]; [done|]. rewrite filter_cons. case_decide; [|exact IH].
  cbn [fmap list_fmap]. rewrite filter_cons, decide_True by done. f_equal. exact IH.
Qed.

(** ** The list of the zvals to free *)

Fixpoint free_chain s (w : Z) l : Prop :=
  match l with
  | [] => w = FREE_LIST_END
  | a :: l' => w = word (Some a) /\ exists z, zvals (world s) !! a = Some z /\ free_chain s (u z) l'
  end.
Definition listed s l : Prop := free_chain s (zval_to_free (gc_globals (world s))) l.

Lemma free_chain_black s w l : free_chain s w l -> GC_GET_COLOR w = 0.
Proof.
  unfold GC_GET_COLOR. destruct l as [|a l]; cbn [free_chain]; [by intros ->|]. intros [-> _]. cbn [word].
  rewrite Z.mul_comm. apply Z_mod_mult.
Qed.
Lemma free_chain_words s w l a : free_chain s w l -> a ∈ l -> exists v, word_of s (NZ a) = Some v /\ GC_GET_COLOR v = 0.
Proof.
  revert w. induction l as [|b l IH]; intros w H Ha; [by apply elem_of_nil in Ha|]. destruct H as (_ & z & Hz & H).
  apply elem_of_cons in Ha as [->|Ha]; [|by eapply IH]. exists (u z). split; [|by eapply free_chain_black].
  unfold word_of. cbn. by rewrite Hz.
Qed.
Lemma free_chain_ext s s' w l : (forall a, a ∈ l -> word_of s' (NZ a) = word_of s (NZ a)) -> free_chain s w l -> free_chain s' w l.
Proof.
  revert w. induction l as [|b l IH]; intros w He H; [done|]. destruct H as (Hw & z & Hz & H). split; [done|].
  pose proof (He b ltac:(by left)) as Hb. unfold word_of in Hb. cbn in Hb. rewrite Hz in Hb. cbn in Hb.
  destruct (zvals (world s') !! b) as [z'|] eqn:Hz'; [|done]. cbn in Hb. injection Hb as Hb. exists z'. split; [done|]. rewrite Hb.
  apply IH; [|done]. intros a Ha. apply He. by right.
Qed.

(** ** What the walk does *)

Record collectable s : Prop := {
  co_ranged : ranged s;
  co_counted : forall a, counted s a = false -> spared s (NZ a);
  co_list : GC_GET_COLOR (zval_to_free (gc_globals (world s))) = 0
}.
Definition one_more N m : Z := if decide (m ∈ N) then (if is_zval m then 1 else 0) else 0.
(** The nodes [N] have been collected, the references [E] counted. *)
Record collected_to N E s s' : Prop := {
  cl_static : static s s';
  cl_globals : set_zval_to_free 0 (gc_globals (world s')) = set_zval_to_free 0 (gc_globals (world s));
  cl_list : GC_GET_COLOR (zval_to_free (gc_globals (world s'))) = 0;
  cl_info : forall m w r, proper s m = true -> info s m = Some (w, r) -> exists w',
    info s' m = Some (w', u32 (r + (one_more N m + count m E))) /\
    (if decide (m ∈ N) then w = GC_WHITE /\ GC_GET_COLOR w' = (if is_zval m then GC_BLACK else GC_PURPLE) else w' = w);
  cl_other : forall m, proper s m = false ->
    info s' m = info s m \/ exists w r, info s m = Some (w, r) /\ info s' m = Some (GC_SET_BLACK w, r);
  cl_listed : forall l, listed s l -> exists l', l' ≡ₚ zvals_in N /\ listed s' (l' ++ l)
}.

Lemma set_black_spared w : GC_SET_BLACK w <> GC_WHITE.
Proof. unfold GC_SET_BLACK, GC_ADDRESS, GC_WHITE. intros H. assert (H' : (w - w `mod` 4) `mod` 4 = 1) by (by rewrite H). revert H'. Z.to_euclidean_division_equations. lia. Qed.
Lemma set_black_id w : GC_GET_COLOR w = 0 -> GC_SET_BLACK w = w.
Proof. unfold GC_GET_COLOR, GC_SET_BLACK, GC_ADDRESS. lia. Qed.

Lemma collected_spared N E s s' m : proper s m = true -> collected_to N E s s' -> spared s' m <-> m ∈ N \/ spared s m.
Proof.
  intros Hm H. destruct (proper_info s m Hm) as (w & r & Hi). destruct (cl_info _ _ _ _ H m w r Hm Hi) as (w' & Hi' & Hw).
  unfold spared. rewrite (word_info _ _ _ _ Hi), (word_info _ _ _ _ Hi'). destruct (decide (m ∈ N)).
  - split; [by left|]. intros _ [= E']. destruct Hw as [_ Hw]. rewrite E' in Hw. by destruct (is_zval m).
  - subst w'. split; [by right|]. by intros [?|?].
Qed.
Lemma collected_inv N E s s' : collectable s -> collected_to N E s s' -> collectable s'.
Proof.
  intros [Hr Hc Hl] [Hst Hgl Hl' Hi Ho Hch]. split; [| |done].
  - intros m w' r' Hi'. assert (Hs : is_Some (info s m)) by (apply (static_info s s' m Hst); by eexists). destruct Hs as [[w r] Hm].
    destruct (proper s m) eqn:Hp.
    + destruct (Hi m w r Hp Hm) as (w2 & Hi2 & _). rewrite Hi' in Hi2. injection Hi2 as _ ->. apply u32_range.
    + destruct (Ho m Hp) as [E1|(w0 & r0 & Hi0 & E1)]; rewrite E1 in Hi'; [by eapply Hr|]. injection Hi' as _ <-. by eapply Hr.
  - intros a Ha. rewrite (static_counted s s' a Hst) in Ha. pose proof (Hc a Ha) as Hs. unfold spared, word_of in *.
    destruct (Ho (NZ a) Ha) as [->|(w0 & r0 & Hi0 & ->)]; [done|]. cbn. intros [= E1]. by apply set_black_spared in E1.
Qed.
Lemma painted_collected c E s s' : collectable s -> painted c 1 [] E s s' -> collected_to [] E s s'.
Proof.
  intros [Hr Hc Hl] [Hst Hgl Hi Ho]. split; [done|by rewrite Hgl|by rewrite Hgl| |done|].
  - intros m w r Hm Hmi. exists w. rewrite (Hi m w r Hm Hmi). unfold one_more. rewrite !decide_False by apply not_elem_of_nil. split; [|done].
    do 3 f_equal. lia.
  - intros l Hch. exists []. split; [done|]. unfold listed in *. rewrite Hgl. cbn. eapply free_chain_ext; [|exact Hch].
    intros a Ha. destruct (free_chain_words _ _ _ _ Hch Ha) as (v & Hv & Hv0). unfold word_of in *.
    destruct (info s (NZ a)) as [[w r]|] eqn:Hai; [|done]. cbn in Hv. injection Hv as ->. destruct (proper s (NZ a)) eqn:Hp.
    + rewrite (Hi _ _ _ Hp Hai). by rewrite decide_False by apply not_elem_of_nil.
    + destruct (Ho _ Hp) as [->|(w0 & r0 & Hi0 & ->)]; [by rewrite Hai|]. rewrite Hai in Hi0. injection Hi0 as <- <-. cbn. by rewrite set_black_id.
Qed.

Lemma collected_app N1 N2 E1 E2 s s1 s2 : collected_to N1 E1 s s1 -> collected_to N2 E2 s1 s2 -> collected_to (N1 ++ N2) (E1 ++ E2) s s2.
Proof.
  intros [S1 G1 L1 I1 O1 C1] [S2 G2 L2 I2 O2 C2]. split; [by transitivity s1|by rewrite G2|done| | |].
  - intros m w r Hm Hi. destruct (I1 m w r Hm Hi) as (w1 & Hi1 & Hw1). destruct (I2 m _ _ ltac:(by rewrite (static_proper s s1)) Hi1) as (w2 & Hi2 & Hw2).
    exists w2. rewrite Hi2, u32_add_add, count_app. unfold one_more in *.
    assert (Hd : m ∈ N1 -> m ∈ N2 -> False).
    { intros Hm1 Hm2. rewrite (decide_True _ _ Hm1) in Hw1. rewrite (decide_True _ _ Hm2) in Hw2. destruct Hw1 as [_ Hw1], Hw2 as [Hw2 _]. rewrite Hw2 in Hw1. by destruct (is_zval m). }
    destruct (decide (m ∈ N1 ++ N2)) as [H12|H12]; rewrite elem_of_app in H12; destruct (decide (m ∈ N1)), (decide (m ∈ N2)); try tauto;
      (split; [do 3 f_equal; lia|]); naive_solver.
  - intros m Hm. specialize (O1 m Hm). specialize (O2 m ltac:(by rewrite (static_proper s s1))).
    destruct O1 as [O1|(w & r & Hi & O1)], O2 as [O2|(w' & r' & Hi' & O2)]; rewrite ?O2.
    + by left.
    + right. rewrite O1 in Hi'. by exists w', r'.
    + right. by exists w, r.
    + right. rewrite O1 in Hi'. injection Hi' as <- <-. exists w, r. split; [done|].
      rewrite !set_black_color. by rewrite set_color_set.
  - intros l Hl. destruct (C1 l Hl) as (l1 & Hp1 & Hl1). destruct (C2 _ Hl1) as (l2 & Hp2 & Hl2). exists (l2 ++ l1).
    rewrite <- app_assoc. split; [|done]. rewrite Hp1, Hp2. unfold zvals_in. rewrite omap_app. solve_Permutation.
Qed.
#[export] Instance collecting : Painting collectable spared collected_to.
Proof.
  split.
  - intros s Hs. eapply (painted_collected 0); [done|]. apply painted_none. by destruct Hs.
  - intros. by eapply collected_inv.
  - intros N E s s' H. by destruct H.
  - intros. by eapply collected_spared.
  - intros. by eapply collected_app.
  - intros N N' E E' s s' HN HE [S Gl L I O C]. split; try done.
    + intros m w r Hm Hi. destruct (I m w r Hm Hi) as (w' & Hi' & Hw). exists w'. rewrite Hi', (count_perm m E E' HE). unfold one_more.
      assert (Hd : m ∈ N <-> m ∈ N') by (by rewrite HN). by destruct (decide (m ∈ N)), (decide (m ∈ N')); try tauto.
    + intros l Hl. destruct (C l Hl) as (l' & Hp & Hl'). exists l'. split; [|done]. rewrite Hp. unfold zvals_in. by rewrite HN.
Qed.
Notation collects := (spreading collected_to spared zval_refs).
Notation collects_to := (walks_to spared collected_to zval_refs).
Notation collecting_visits := (visits hgp collectable spared collected_to zval_refs).

(** ** The steps *)

Lemma collect_object s h r : collectable s -> info s (NO h) = Some (GC_WHITE, r) ->
  exists s', upd_buffered h GC_SET_PURPLE s = Ok (tt, s') /\ collected_to [NO h] [] s s'.
Proof.
  intros [Hr Hc Hl] Hi. destruct (upd_buffered_run s h GC_WHITE r GC_SET_PURPLE Hi) as (s1 & H1 & T). exists s1. split; [done|].
  destruct T as [Hst Hgl Ht Ho]. split; [done|by rewrite Hgl|by rewrite Hgl| | |].
  - intros m w r' Hm Hmi. unfold one_more. rewrite count_nil. destruct (decide (m = NO h)) as [->|Hne].
    + rewrite Hi in Hmi. injection Hmi as <- <-. exists (GC_SET_PURPLE GC_WHITE). rewrite decide_True by (by left). cbn [is_zval].
      rewrite Z.add_0_r, u32_id by by eapply Hr. by rewrite decide_True by (by left).
    + exists w. rewrite decide_False by (by rewrite list_elem_of_singleton). rewrite Z.add_0_r, u32_id by by eapply Hr.
      rewrite (Ho m Hne), Hmi. by rewrite decide_False by (by rewrite list_elem_of_singleton).
  - intros m Hm. left. apply Ho. intros ->. cbn in Hm, Hi. by destruct (bucket h s).
  - intros l Hch. exists []. split; [done|]. unfold listed in *. rewrite Hgl. cbn. eapply free_chain_ext; [|exact Hch].
    intros a _. unfold word_of. by rewrite Ho.
Qed.

(** The writes to a zval that is listed: first its colour. *)
Definition black_zval a z s : gworld CB := set_zvals (<[a := set_u (GC_SET_BLACK (u z)) z]> (zvals (world s))) (world s).
Definition list_zval a z s : gworld CB :=
  set_globals (set_zval_to_free (word (Some a)) (gc_globals (world s)))
    (set_zvals (<[a := set_u (zval_to_free (gc_globals (world s))) (set_refcount__gc (u32 (refcount__gc z + 1)) (set_u (GC_SET_BLACK (u z)) z))]>
      (zvals (world s))) (world s)).
Definition listing (k : G unit) a : G unit :=
  add_refcount__gc (Some a) 1;; to_free ← GC_G zval_to_free; upd_u (Some a) (fun _ => to_free);; upd_globals (set_zval_to_free (word (Some a)));; k.
Lemma upd_zval_ok a f s z : zvals (world s) !! a = Some z ->
  upd_zval (Some a) f s = Ok (tt, OState (store s) (set_zvals (<[a := f z]> (zvals (world s))) (world s))).
Proof.
  intros Hz. unfold upd_zval. rewrite assign_ok by (by eexists). cbn. by rewrite (alter_insert _ _ _ _ Hz).
Qed.
Lemma black_run s a z : zvals (world s) !! a = Some z -> upd_u (Some a) GC_SET_BLACK s = Ok (tt, OState (store s) (black_zval a z s)).
Proof. apply upd_zval_ok. Qed.
Lemma listing_run s a z st k : listing k a (OState st (black_zval a z s)) = k (OState st (list_zval a z s)).
Proof.
  unfold listing, upd_u, add_refcount__gc. erewrite mbind_ok by (by apply upd_zval_ok; cbn; rewrite lookup_insert_eq).
  unfold GC_G. rewrite mbind_assoc, mbind_get, mbind_ret. erewrite mbind_ok by (by apply upd_zval_ok; cbn; rewrite lookup_insert_eq).
  unfold upd_globals, upd_world, modify. cbn. unfold list_zval. by rewrite !insert_insert_eq.
Qed.
Lemma upd_buffered_store h f s s' w : upd_buffered h f s = Ok (tt, s') -> world s' = world s /\
  upd_buffered h f (OState (store s) w) = Ok (tt, OState (store s') w).
Proof.
  intros H. unfold upd_buffered, update_bucket in *. destruct (bucket h s) as [b|e] eqn:Hb; [|by unfold mbind, M_bind, reading in H; rewrite Hb in H].
  rewrite (mbind_reading _ _ _ _ Hb) in H. rewrite (mbind_reading _ _ _ b) by exact Hb. unfold write_bucket in *. rewrite mbind_get in *.
  destruct (bucket_cell s h b Hb) as (Hh & cs & Hcs & Hc). pose proof (lookup_lt_Some _ _ _ Hc) as Hlt.
  rewrite (mbind_reading _ _ _ cs) in H by (unfold cells; by rewrite Hcs). rewrite (mbind_reading _ _ _ cs) by (unfold cells; cbn; by rewrite Hcs).
  rewrite (proj2 (Z.leb_le _ _) Hh), (proj2 (Z.ltb_lt h _)) in * by lia. cbn in *. injection H as <-. done.
Qed.

Lemma list_zval_collected s a z : collectable s -> counted s a = true -> zvals (world s) !! a = Some z -> u z = GC_WHITE ->
  collected_to [NZ a] [] s (OState (store s) (list_zval a z s)).
Proof.
  intros [Hr Hc Hl] Hcount Hz Hu. assert (Hi : info s (NZ a) = Some (GC_WHITE, refcount__gc z)) by (cbn; rewrite Hz; cbn; by rewrite Hu).
  assert (Hothers : forall m, m <> NZ a -> info (OState (store s) (list_zval a z s)) m = info s m).
  { intros [b|h] Hne; [|done]. cbn. rewrite lookup_insert_ne; [done|]. congruence. }
  split; [|done| | | |].
  - unfold static, skeleton, list_zval. cbn. f_equal. f_equal. apply map_eq. intros b. rewrite !lookup_fmap, lookup_insert.
    case_decide; [subst; by rewrite Hz|done].
  - cbn [world gc_globals list_zval set_globals set_zval_to_free zval_to_free]. unfold GC_GET_COLOR, word. rewrite Z.mul_comm. apply Z_mod_mult.
  - intros m w r Hm Hmi. unfold one_more. rewrite count_nil, Z.add_0_r. destruct (decide (m = NZ a)) as [->|Hne].
    + rewrite Hi in Hmi. injection Hmi as <- <-. exists (zval_to_free (gc_globals (world s))). rewrite !decide_True by (by left).
      split; [|done]. cbn. by rewrite lookup_insert_eq.
    + exists w. rewrite !decide_False by (by rewrite list_elem_of_singleton). rewrite Z.add_0_r, u32_id by by eapply Hr. by rewrite Hothers.
  - intros m Hm. left. apply Hothers. intros ->. cbn in Hm. by rewrite Hcount in Hm.
  - intros l Hch. exists [a]. split; [done|]. split; [done|]. eexists. split; [by cbn; rewrite lookup_insert_eq|].
    cbn [set_u u]. eapply free_chain_ext; [|exact Hch]. intros b Hb. unfold word_of. f_equal. apply Hothers. intros [= ->].
    destruct (free_chain_words _ _ _ _ Hch Hb) as (v & Hv & Hv0). rewrite (word_info _ _ _ _ Hi) in Hv. by injection Hv as <-.
Qed.

(** ** The two functions *)

(** The properties of a white object that is ready to be collected. *)
Lemma collect_object_walks lim body s h hs r : collecting_visits lim true body -> heap_ok hgp s -> collectable s ->
  (base.size (todo spared s) < lim)%nat -> proper s (NO h) = true -> obj_ok hgp s h hs -> info s (NO h) = Some (GC_WHITE, r) ->
  exists s' N, (upd_buffered h GC_SET_PURPLE;; p ← reading (obj_elements hgp h hs); for_each p body) s = Ok (tt, s') /\
    collects [NO h] [] N s s' /\ NO h ∈ N.
Proof.
  intros Hv Hok Hs Hl Hp Hobj Hi. destruct (collect_object s h r Hs Hi) as (s1 & H1 & P1).
  eapply (obj_node_walks hgp collectable spared collected_to zval_refs lim true); try done.
  - apply not_spared. by eapply word_info.
  - unfold zval_refs. cbn [kids]. by rewrite filter_refs_to.
Qed.
(** The same when the zval that refers to the object is listed in between. *)
Lemma purple_then_list lim body s a z h hs r : collecting_visits lim true body -> heap_ok hgp s -> collectable s ->
  counted s a = true -> zvals (world s) !! a = Some z -> u z = GC_WHITE ->
  (base.size (todo spared (OState (store s) (list_zval a z s))) < lim)%nat ->
  proper s (NO h) = true -> obj_ok hgp s h hs -> info s (NO h) = Some (GC_WHITE, r) ->
  exists s' N, (p ← (upd_buffered h GC_SET_PURPLE;; reading (obj_props hgp h hs));
                match p with None => mret tt | Some p => listing (for_each p body) a end) (OState (store s) (black_zval a z s)) = Ok (tt, s') /\
    collects [NO h] [] N (OState (store s) (list_zval a z s)) s' /\ NO h ∈ N.
Proof.
  intros Hv Hok Hs Hcount Hz Hu Hl Hp Hobj Hi. set (sx := OState (store s) (list_zval a z s)).
  pose proof (list_zval_collected s a z Hs Hcount Hz Hu) as PX. fold sx in PX. pose proof (P_static _ _ _ _ PX) as Hst.
  assert (Hix : info sx (NO h) = Some (GC_WHITE, r)) by exact Hi.
  destruct (collect_object_walks lim body sx h hs r) as (s' & N & H & HS & HN); try done.
  - by eapply static_heap_ok.
  - by eapply P_inv.
  - by eapply static_obj_ok.
  - exists s', N. split; [|done]. rewrite <- H. destruct (upd_buffered_run sx h _ _ GC_SET_PURPLE Hix) as (s2 & H2 & T2).
    destruct (upd_buffered_store h _ sx s2 (black_zval a z s) H2) as [Hw H2']. change (store sx) with (store s) in H2'.
    rewrite mbind_assoc, (mbind_ok _ _ _ _ _ H2'), (mbind_ok _ _ _ _ _ H2). destruct Hobj as [Hprops _].
    assert (Hstb : static s (OState (store s) (black_zval a z s))).
    { unfold static, skeleton, black_zval. cbn. f_equal. f_equal. apply map_eq. intros b. rewrite !lookup_fmap, lookup_insert.
      case_decide; [subst; by rewrite Hz|done]. }
    assert (Hst2 : static s (OState (store s2) (black_zval a z s))).
    { transitivity (OState (store s) (black_zval a z s)); [done|].
      assert (Hib : info (OState (store s) (black_zval a z s)) (NO h) = Some (GC_WHITE, r)) by exact Hi.
      destruct (upd_buffered_run _ h _ _ GC_SET_PURPLE Hib) as (s3 & H3 & T3). rewrite H2' in H3. injection H3 as <-. by destruct T3. }
    rewrite (mbind_reading _ _ _ (Some (props s h))) by (rewrite (static_obj_props _ s _ h hs Hst2); exact Hprops).
    rewrite (mbind_reading _ _ _ (props s h)).
    + rewrite listing_run. destruct s2 as [st2 w2]. cbn in Hw. subst w2. done.
    + apply obj_elements_props. rewrite (static_obj_props _ s s2 h hs); [exact Hprops|]. transitivity sx; [done|]. by destruct T2.
Qed.

(** From a zval with the word [GC_WHITE]. *)
Lemma collect_kids lim body s a z : collecting_visits lim true body -> heap_ok hgp s -> collectable s ->
  counted s a = true -> zvals (world s) !! a = Some z -> u z = GC_WHITE ->
  (base.size (todo spared (OState (store s) (list_zval a z s))) < lim)%nat ->
  exists s' N, (p ← match z_value z with
            | V_OBJECT hnd hs =>
                if has_store s then
                  b ← reading (bucket hnd);
                  if buffered b =? GC_WHITE then upd_buffered hnd GC_SET_PURPLE;; reading (obj_props hgp hnd hs)
                  else mret (Some [])
                else mret (Some [])
            | V_ARRAY ht => l ← reading (elements_of ht); mret (Some l)
            | V_OTHER _ => mret (Some [])
            end;
    match p with None => mret tt | Some p => listing (for_each p body) a end) (OState (store s) (black_zval a z s)) = Ok (tt, s') /\
    collects (kids s (NZ a)) (zval_refs s (NZ a)) N (OState (store s) (list_zval a z s)) s' /\
    covered spared (kids s (NZ a)) N (OState (store s) (list_zval a z s)).
Proof.
  intros Hv Hok Hs Hcount Hz Hu Hl. pose proof (list_zval_collected s a z Hs Hcount Hz Hu) as PX. set (sx := OState (store s) (list_zval a z s)) in *.
  pose proof (P_static _ _ _ _ PX) as Hst. pose proof (P_inv _ _ _ _ Hs PX) as Hsx. pose proof (static_heap_ok hgp s sx Hst Hok) as Hokx.
  assert (Hval : z_value <$> zvals (world s) !! a = Some (z_value z)) by (by rewrite Hz). unfold zval_refs. cbn [kids]. rewrite Hval.
  assert (Hnone : forall F, (forall y, y ∈ F -> spared sx y) ->
    exists s' N, (p ← mret (Some []); match p with None => mret tt | Some p => listing (for_each p body) a end) (OState (store s) (black_zval a z s)) = Ok (tt, s') /\
    collects F [] N sx s' /\ covered spared F N sx).
  { intros F Hsp. exists sx, []. rewrite mbind_ret, listing_run. split; [done|]. split; [by apply (spread_none _ _ _), P_none|].
    intros y Hy. right. auto. }
  pose proof (counted_value s a z Hz) as Hsym. rewrite Hcount in Hsym. destruct (z_value z) as [ht|h hs|t].
  - cbn [is_symbol_table] in *. destruct (bool_decide_reflect (ht = symbol_table (world s))) as [|Hne]; [done|].
    destruct (ho_array _ _ Hok a ht Hval Hne) as (p & Hp & Hdom). rewrite Hp. cbn [default].
    destruct (for_each_walks hgp collectable spared collected_to zval_refs lim true body p Hv sx Hokx Hsx) as (s' & N & H & HS & HC); [|done|].
    { eapply Forall_impl; [exact Hdom|]. intros b Hb. by rewrite (static_zval s sx). }
    rewrite (static_refs_to s sx) in HS, HC by done. exists s', N. rewrite filter_refs_to. split; [|by split].
    rewrite mbind_assoc. rewrite (mbind_reading _ _ _ p) by (unfold elements_of; cbn; by rewrite Hp). by rewrite mbind_ret, listing_run.
  - destruct (has_store s) eqn:Hstore; [|apply Hnone; by intros y ?%elem_of_nil]. destruct (ho_object _ _ Hok a h hs Hval Hstore) as [Hp Hobj].
    destruct (proper_info s (NO h) Hp) as (w & r & Hi). destruct (info_bucket _ _ _ _ Hi) as (b & Hb & Hw & _).
    destruct (Z.eqb_spec (buffered b) GC_WHITE) as [Hbw|Hbw].
    + rewrite Hw in Hbw. subst w. destruct (purple_then_list lim body s a z h hs r Hv Hok Hs Hcount Hz Hu Hl Hp Hobj) as (s' & N & H & HS & HN);
        [by rewrite Hi, Hbw|]. exists s', N. split; [|split; [exact HS|intros y ->%list_elem_of_singleton; by left]].
      rewrite mbind_assoc, (mbind_reading _ _ _ b) by exact Hb. rewrite Hbw, Z.eqb_refl. exact H.
    + destruct (Hnone [NO h]) as (s' & N & H & HS & HC).
      { intros y ->%list_elem_of_singleton. unfold spared, word_of. change (info sx (NO h)) with (info s (NO h)). rewrite Hi. cbn. congruence. }
      exists s', N. split; [|by split]. rewrite mbind_assoc, (mbind_reading _ _ _ b) by exact Hb. by rewrite (proj2 (Z.eqb_neq _ _) Hbw).
  - apply Hnone. by intros y ?%elem_of_nil.
Qed.

Lemma zval_collect_white_walks fuel : forall s a, heap_ok hgp s -> collectable s -> is_Some (zvals (world s) !! a) ->
  (base.size (todo spared s) < fuel)%nat -> collects_to (zval_collect_white hgp fuel a) (refs_to s [a]) [] s.
Proof.
  induction fuel as [|fuel IH]; intros s a Hok Hs [z Hz] Hl; [lia|]. unfold walks_to.
  assert (Hi : info s (NZ a) = Some (u z, refcount__gc z)) by (cbn; by rewrite Hz). cbn [zval_collect_white].
  rewrite (mbind_reading _ _ _ _ (zval_at_ok _ _ _ Hz)). destruct (Z.eqb_spec (u z) GC_WHITE) as [Hu|Hu].
  2: { exists s, []. split; [done|]. split; [by apply (spread_none _ _ _), P_none|]. intros y (b & -> & ->%list_elem_of_singleton & _)%refs_to_elem.
       right. unfold spared. rewrite (word_info _ _ _ _ Hi). by intros [= ?]. }
  assert (Hn : ~ spared s (NZ a)) by (apply not_spared; rewrite (word_info _ _ _ _ Hi); by rewrite Hu).
  assert (Hcount : counted s a = true) by (destruct (counted s a) eqn:E; [done|]; by destruct Hn; apply (co_counted s Hs)).
  pose proof (list_zval_collected s a z Hs Hcount Hz Hu) as PX.
  destruct (collect_kids fuel (fun pz => count_element pz 1;; zval_collect_white hgp fuel pz) s a z) as (s' & N & H & HS & HC); try done.
  - apply (count_then_visit hgp collectable spared collected_to zval_refs); [|exact IH]. intros t b Ht Hb.
    destruct (count_element_run 0 1 t b (co_ranged t Ht) Hb) as (t' & Ht' & HP). exists t'. split; [done|]. by eapply painted_collected.
  - pose proof (todo_lt collectable spared collected_to a _ _ _ _ PX ltac:(by left) Hcount Hn). lia.
  - exists s', (NZ a :: N). rewrite (refs_to_counted s a Hcount). split; [|split].
    + rewrite (mbind_ok _ _ _ _ _ (black_run s a z Hz)), mbind_get. exact H.
    + eapply (spread_node hgp collectable spared collected_to zval_refs); try done.
    + intros y ->%list_elem_of_singleton. left. by left.
Qed.
Lemma collect_element_visits fuel : collecting_visits fuel true (fun pz => count_element pz 1;; zval_collect_white hgp fuel pz).
Proof.
  apply (count_then_visit hgp collectable spared collected_to zval_refs); [|apply zval_collect_white_walks]. intros t b Ht Hb.
  destruct (count_element_run 0 1 t b (co_ranged t Ht) Hb) as (t' & Ht' & HP). exists t'. split; [done|]. by eapply painted_collected.
Qed.
Lemma zobj_collect_white_walks s h hs : heap_ok hgp s -> collectable s -> proper s (NO h) = true -> obj_ok hgp s h hs ->
  collects_to (zobj_collect_white hgp h hs) [NO h] [] s.
Proof.
  intros Hok Hs Hp Hobj. destruct (proper_info s (NO h) Hp) as (w & r & Hi). destruct (info_bucket _ _ _ _ Hi) as (b & Hb & Hw & _).
  assert (Hst : has_store s = true) by (unfold bucket, cells in Hb; unfold has_store; by destruct (object_buckets (store s))).
  unfold walks_to, zobj_collect_white. rewrite mbind_get, Hst, (mbind_reading _ _ _ _ Hb), Hw. destruct (Z.eqb_spec w GC_WHITE) as [->|Hne].
  - destruct (collect_object_walks (gc_fuel s) (fun pz => count_element pz 1;; zval_collect_white hgp (gc_fuel s) pz) s h hs r) as (s' & N & H & HS & HN); try done.
    + apply collect_element_visits.
    + apply todo_fuel.
    + exists s', N. split; [done|]. split; [done|]. intros y ->%list_elem_of_singleton. by left.
  - exists s, []. split; [done|]. split; [by apply (spread_none _ _ _), P_none|]. intros y ->%list_elem_of_singleton. right.
    unfold spared. rewrite (word_info _ _ _ _ Hi). by intros [= ?].
Qed.
End Collect.
