(* ===== verification/ZendGcRoots.v ===== *)
(** * The buffer of possible roots: a ring of entries

    The entries in use are linked in a ring through [GC_G(roots)], those
    given back in a chain through [prev]. *)

From S2P Require Import Prelude Dll ZendObjectsApi ZendGc ZendGcGraph ZendGcWalk.
Open Scope Z_scope.

Section Ring.
Context {CB : Type}.
Implicit Types (s : gstate CB) (m : gmap addr (gc_root_buffer CB)) (a e : addr) (l : list addr) (g : zend_gc_globals CB).

#[program] Definition root_links : links (gc_root_buffer CB) := {|
  nx := next; pv := prev; set_nx := set_next; set_pv := set_prev
|}.
Solve Obligations with done.
Notation rseg := (seg root_links).

(** The ring through [ROOTS] is [l], from [roots.next] on. *)
Definition ring m l : Prop := NoDup (ROOTS :: l) /\ rseg m (last_ptr (Some ROOTS) l) (ROOTS :: l) (Some ROOTS).
(** What an entry says besides its links. *)
Definition root_data (r : gc_root_buffer CB) : Z * ptr * option CB := (handle r, pz r, r_handlers r).
Definition same_data m m' : Prop := forall a, root_data <$> m' !! a = root_data <$> m !! a.

Lemma ring_roots m l : ring m l -> exists r, m !! ROOTS = Some r /\ next r = head_ptr l (Some ROOTS) /\ prev r = last_ptr (Some ROOTS) l.
Proof. intros [_ (r & Hr & Hp & Hn & _)]. by exists r. Qed.
Lemma ring_entry m l1 e l2 : ring m (l1 ++ e :: l2) -> exists r, m !! e = Some r /\
  next r = head_ptr l2 (Some ROOTS) /\ prev r = last_ptr (Some ROOTS) l1.
Proof.
  intros [_ H]. change (ROOTS :: l1 ++ e :: l2) with ((ROOTS :: l1) ++ e :: l2) in H.
  destruct (seg_mid root_links _ _ _ _ _ _ H) as (r & Hr & Hp & Hn). exists r. split; [done|]. split; [done|].
  by rewrite last_ptr_cons in Hp.
Qed.
Lemma ring_dom m l e : ring m l -> e ∈ ROOTS :: l -> is_Some (m !! e).
Proof. intros [_ H] He. by eapply seg_lookup. Qed.
Lemma ring_length m l : ring m l -> (length l < base.size m)%nat.
Proof.
  intros Hr. assert (Hs : list_to_set (C := gset addr) (ROOTS :: l) ⊆ dom m).
  { intros e He%elem_of_list_to_set. apply elem_of_dom. by eapply ring_dom. }
  apply subseteq_size in Hs. rewrite size_dom, size_list_to_set in Hs by by destruct Hr. cbn [length] in Hs. lia.
Qed.

(** An entry leaves the ring: [next->prev = prev; prev->next = next]. *)
Definition unlinked e (p n : ptr) m := opt_alter p (set_next n) (opt_alter n (set_prev p) m).
Lemma ring_unlink m l1 e l2 : ring m (l1 ++ e :: l2) ->
  ring (unlinked e (last_ptr (Some ROOTS) l1) (head_ptr l2 (Some ROOTS)) m) (l1 ++ l2).
Proof.
  intros [Hnd H]. change (ROOTS :: l1 ++ e :: l2) with ((ROOTS :: l1) ++ e :: l2) in *.
  apply seg_app in H as [H1 (r & Hr & Hp & Hn & H2)]. cbn [head_ptr] in H1.
  apply NoDup_app in Hnd as (Hl1 & Hd & [He Hl2]%NoDup_cons).
  assert (Hnd' : NoDup (ROOTS :: l1 ++ l2)).
  { change (ROOTS :: l1 ++ l2) with ((ROOTS :: l1) ++ l2). apply NoDup_app. split_and!; [done| |done].
    intros x Hx Hx'. apply (Hd x Hx). by right. }
  split; [done|]. change (ROOTS :: l1 ++ l2) with ((ROOTS :: l1) ++ l2). unfold unlinked.
  assert (Hlast : last_ptr None (ROOTS :: l1) = last_ptr (Some ROOTS) l1) by apply last_ptr_cons.
  rewrite <- Hlast. destruct l2 as [|b l2].
  - rewrite !app_nil_r. cbn [head_ptr]. apply (seg_set_next root_links _ _ _ (Some e)); [done|].
    rewrite <- Hlast. change (Some ROOTS) with (head_ptr (ROOTS :: l1) None).
    eapply (seg_set_prev root_links); [done|]. exact H1.
  - cbn [head_ptr]. apply seg_app. split.
    + cbn [head_ptr]. apply (seg_set_next root_links _ _ _ (Some e)); [done|]. apply (seg_alter_ne root_links).
      { intros Hb. apply (Hd b Hb). right. by left. }
      assert (E : last_ptr (Some ROOTS) (l1 ++ b :: l2) = last_ptr (Some ROOTS) (l1 ++ e :: b :: l2)).
      { rewrite !last_ptr_app, !last_ptr_cons. done. }
      by rewrite E.
    + apply (seg_opt_alter_ne root_links).
      { intros x Hx%last_ptr_elem Hx'. apply (Hd x Hx). by right. }
      rewrite Hlast. rewrite last_ptr_cons. change (Some b) with (head_ptr (b :: l2) None).
      by eapply (seg_set_prev root_links).
Qed.
Lemma unlinked_data e p n m : same_data m (unlinked e p n m).
Proof.
  intros a. unfold unlinked.
  assert (Hf : forall q (f : gc_root_buffer CB -> gc_root_buffer CB) m0, (forall r, root_data (f r) = root_data r) ->
    root_data <$> opt_alter q f m0 !! a = root_data <$> m0 !! a).
  { intros [x|] f m0 H; [|done]. cbn. rewrite lookup_alter. case_decide; [|done]. subst. destruct (m0 !! a); [|done]. cbn. by rewrite H. }
  by rewrite !Hf.
Qed.

(** The collector's variables have changed, nothing else. *)
Definition same_heap s s' : Prop := store s' = store s /\ set_globals (gc_globals (world s)) (world s') = world s.
Lemma same_heap_world s s' : same_heap s s' -> zvals (world s') = zvals (world s) /\ tables (world s') = tables (world s) /\
  zend_objects (world s') = zend_objects (world s) /\ symbol_table (world s') = symbol_table (world s).
Proof. intros [_ H]. destruct (world s), (world s'). cbn in H. by injection H as <- <- <- <-. Qed.
Lemma same_heap_static s s' : same_heap s s' -> static s s'.
Proof.
  intros H. destruct (same_heap_world s s' H) as (Hz & Ht & Ho & Hs). destruct H as [Hst _].
  unfold static, skeleton. by rewrite Hst, Hz, Ht, Ho, Hs.
Qed.
Lemma same_heap_info s s' n : same_heap s s' -> info s' n = info s n.
Proof.
  intros H. destruct (same_heap_world s s' H) as (Hz & _). destruct H as [Hst _].
  destruct n as [a|h]; cbn; [by rewrite Hz|]. unfold bucket, cells. by rewrite Hst.
Qed.
Lemma upd_globals_heap f s : exists s', upd_globals f s = Ok (tt, s') /\ same_heap s s' /\ gc_globals (world s') = f (gc_globals (world s)).
Proof. eexists. split; [done|]. split; [|done]. split; [done|]. by destruct (world s). Qed.
Lemma same_heap_trans s1 s2 s3 : same_heap s1 s2 -> same_heap s2 s3 -> same_heap s1 s3.
Proof.
  intros [H1 E1] [H2 E2]. split; [congruence|]. destruct (world s1), (world s2), (world s3). cbn in *.
  injection E1 as <- <- <- <-. by injection E2 as <- <- <- <-.
Qed.

(** [e] has left the ring [l] and heads the entries given back. *)
Record removed e l s s' : Prop := {
  rm_heap : same_heap s s';
  rm_ring : ring (entries (gc_globals (world s'))) l;
  rm_data : same_data (entries (gc_globals (world s))) (entries (gc_globals (world s')));
  rm_globals : set_unused (unused (gc_globals (world s))) (set_entries (entries (gc_globals (world s))) (gc_globals (world s'))) = gc_globals (world s);
  rm_unused : unused (gc_globals (world s')) = Some e;
  rm_entry : exists r r', entries (gc_globals (world s)) !! e = Some r /\ entries (gc_globals (world s')) !! e = Some r' /\
    next r' = next r /\ prev r' = unused (gc_globals (world s));
  rm_others : forall a, a <> e -> a ∉ ROOTS :: l -> entries (gc_globals (world s')) !! a = entries (gc_globals (world s)) !! a
}.

Lemma head_ptr_in l n : n ∈ ROOTS :: l -> exists x, head_ptr (l ++ []) (Some n) = Some x /\ x ∈ ROOTS :: l.
Proof. rewrite app_nil_r. destruct l as [|a l]; [by exists n|]. exists a. split; [done|]. right. by left. Qed.
Lemma assign_entry s a f : is_Some (entries (gc_globals (world s)) !! a) ->
  upd_root (Some a) f s = Ok (tt, upd_heap (alter f a) s).
Proof. intros H. by apply assign_ok. Qed.

Lemma remove_run s l1 e l2 : ring (entries (gc_globals (world s))) (l1 ++ e :: l2) ->
  exists s', gc_remove_from_buffer (Some e) s = Ok (tt, s') /\ removed e (l1 ++ l2) s s'.
Proof.
  intros HR. set (m := entries (gc_globals (world s))) in *. pose proof HR as [Hnd _].
  destruct (ring_entry m l1 e l2 HR) as (r & Hr & Hn & Hp).
  assert (Hne : exists x, next r = Some x /\ x ∈ ROOTS :: l2).
  { rewrite Hn. destruct l2 as [|b l2]; [exists ROOTS; split; [done|left]|]. exists b. split; [done|]. right. by left. }
  assert (Hpe : exists x, prev r = Some x /\ x ∈ ROOTS :: l1).
  { rewrite Hp. unfold last_ptr. destruct (last l1) as [b|] eqn:E; [|exists ROOTS; split; [done|left]].
    exists b. split; [done|]. right. by apply last_Some_elem_of. }
  destruct Hne as (nx & Hnx & Hnin), Hpe as (pv & Hpv & Hpin).
  assert (He : e ∉ ROOTS :: l1 ++ l2).
  { assert (Hperm : ROOTS :: l1 ++ e :: l2 ≡ₚ e :: ROOTS :: l1 ++ l2) by solve_Permutation.
    rewrite Hperm in Hnd. by apply NoDup_cons in Hnd as [? _]. }
  assert (Henx : e <> nx) by (intros ->; apply He; set_solver). assert (Hepv : e <> pv) by (intros ->; apply He; set_solver).
  assert (Hmid : forall q f, q <> e -> alter f q m !! e = Some r) by (intros q f Hq; by rewrite lookup_alter_ne).
  set (m2 := unlinked e (prev r) (next r) m).
  assert (Hm2 : m2 = alter (set_next (next r)) pv (alter (set_prev (prev r)) nx m)) by (unfold m2, unlinked; by rewrite Hnx, Hpv).
  assert (He2 : m2 !! e = Some r) by (rewrite Hm2, lookup_alter_ne by done; by apply Hmid).
  set (m3 := alter (set_prev (unused (gc_globals (world s)))) e m2).
  set (s' := OState (store s) (set_globals (set_unused (Some e) (set_entries m3 (gc_globals (world s)))) (world s))).
  exists s'. split.
  - unfold gc_remove_from_buffer. rewrite (mbind_reading _ _ _ r) by (unfold root_at; by apply deref_ok).
    rewrite Hnx. rewrite (mbind_ok _ _ _ _ _ (assign_entry s nx _ (ring_dom m _ nx HR ltac:(set_solver)))).
    rewrite (mbind_reading _ _ _ r) by (unfold root_at; apply deref_ok; cbn; by apply Hmid).
    rewrite Hpv, Hnx. erewrite mbind_ok; [|apply assign_entry; cbn; apply lookup_alter_is_Some, (ring_dom m _ pv HR); set_solver].
    unfold GC_G at 1. rewrite mbind_assoc, mbind_get, mbind_ret.
    erewrite mbind_ok; [|apply assign_entry; cbn; rewrite lookup_alter_ne by done; eexists; by apply Hmid].
    cbn. do 2 f_equal. unfold s', m3. rewrite Hm2, Hnx, Hpv. done.
  - assert (Hd : same_data m m3).
    { intros a. unfold m3. rewrite lookup_alter. case_decide; [|apply unlinked_data]. subst. rewrite He2, Hr. done. }
    split.
    + split; [done|]. by destruct (world s).
    + cbn. unfold m3. destruct (ring_unlink m l1 e l2 HR) as [H1 H2]. split; [done|]. apply (seg_alter_ne root_links); [done|].
      unfold m2. by rewrite Hp, Hn.
    + exact Hd.
    + cbn. unfold set_unused, set_entries. cbn. by destruct (gc_globals (world s)).
    + done.
    + exists r, (set_prev (unused (gc_globals (world s))) r). cbn. unfold m3. rewrite lookup_alter_eq, He2. done.
    + intros a Ha Hain. cbn. unfold m3. rewrite lookup_alter_ne by done. rewrite Hm2, !lookup_alter_ne; [done|..]; intros ->; set_solver.
Qed.
End Ring.
