(* ===== verification/ZendGcBuffer.v ===== *)
(** * The entries of the buffer and their nodes

    Every entry of the ring stands for a zval or an object whose word holds
    its address; the loops over the ring, in which an entry may be removed. *)

From S2P Require Import Prelude Dll ZendObjectsApi ZendGc ZendGcGraph ZendGcWalk ZendGcSpread ZendGcRoots.
Open Scope Z_scope.

Section Buffer.
Context {CB : Type} (hgp : CB -> bool).
Implicit Types (s : gstate CB) (n m x y : node) (a e : addr) (l k rest : list addr) (N F E : list node) (r : gc_root_buffer CB).
Notation G := (M (gstate CB)).
Notation entries_of s := (entries (gc_globals (world s))).

(** What an entry stands for. *)
Definition root_node r : option node := if handle r =? 0 then NZ <$> pz r else Some (NO (handle r)).
Definition node_at s e : option node := entries_of s !! e ≫= root_node.

(** The entries [l] and the words agree, [N] apart. *)
Record roots_ok N s l : Prop := {
  ro_root : forall e, e ∈ l -> exists n w, node_at s e = Some n /\ n ∉ N /\ word_of s n = Some w /\ GC_ADDRESS w = word (Some e);
  ro_handlers : forall e r h, e ∈ l -> entries_of s !! e = Some r -> root_node r = Some (NO h) ->
    exists hs, r_handlers r = Some hs /\ obj_ok hgp s h hs;
  ro_word : forall n w, n ∉ N -> word_of s n = Some w -> GC_ADDRESS w <> 0 ->
    exists e, e ∈ l /\ node_at s e = Some n /\ GC_ADDRESS w = word (Some e)
}.

Lemma root_node_data r r' : root_data r' = root_data r -> root_node r' = root_node r /\ r_handlers r' = r_handlers r.
Proof. unfold root_data, root_node. intros [= -> -> ->]. done. Qed.
Lemma same_data_lookup s s' e r' : same_data (entries_of s) (entries_of s') -> entries_of s' !! e = Some r' ->
  exists r, entries_of s !! e = Some r /\ root_node r' = root_node r /\ r_handlers r' = r_handlers r.
Proof.
  intros Hd He. specialize (Hd e). rewrite He in Hd. cbn in Hd. destruct (entries_of s !! e) as [r|]; [|done].
  cbn in Hd. exists r. split; [done|]. apply root_node_data. congruence.
Qed.
Lemma same_data_node s s' e : same_data (entries_of s) (entries_of s') -> node_at s' e = node_at s e.
Proof.
  intros Hd. unfold node_at. destruct (entries_of s' !! e) as [r'|] eqn:He'.
  - destruct (same_data_lookup s s' e r' Hd He') as (r & -> & Hn & _). exact Hn.
  - specialize (Hd e). rewrite He' in Hd. by destruct (entries_of s !! e).
Qed.
Lemma same_data_refl (x : gmap addr (gc_root_buffer CB)) : same_data x x.
Proof. by intros a. Qed.
Lemma same_data_trans (x y z : gmap addr (gc_root_buffer CB)) : same_data x y -> same_data y z -> same_data x z.
Proof. intros H1 H2 a. by rewrite H2, H1. Qed.

(** A change of state that leaves the addresses in the words of all but [N']. *)
Lemma roots_ok_step N N' s s' l : (forall n, n ∈ N -> n ∈ N') -> static s s' -> same_data (entries_of s) (entries_of s') ->
  (forall n, n ∉ N' -> GC_ADDRESS <$> word_of s' n = GC_ADDRESS <$> word_of s n) ->
  (forall n w, n ∈ N' -> n ∉ N -> word_of s n = Some w -> GC_ADDRESS w = 0) ->
  roots_ok N s l -> roots_ok N' s' l.
Proof.
  intros HN Hst Hd Hw Hnew [H1 H2 H3]. split.
  - intros e He. destruct (H1 e He) as (n & w & Hn & HnN & Hwn & Ha). assert (Hn' : n ∉ N').
    { intros Hin. rewrite (Hnew n w Hin HnN Hwn) in Ha. done. }
    specialize (Hw n Hn'). rewrite Hwn in Hw. cbn in Hw. destruct (word_of s' n) as [w'|] eqn:E; [|done]. injection Hw as Hw.
    exists n, w'. rewrite (same_data_node s s' e Hd). split_and!; [done..|]. by rewrite Hw.
  - intros e r' h He Hr' Hn. destruct (same_data_lookup s s' e r' Hd Hr') as (r & Hr & Hnr & Hh). rewrite Hnr in Hn. rewrite Hh.
    destruct (H2 e r h He Hr Hn) as (hs & Hhs & Hobj). exists hs. split; [done|]. by eapply static_obj_ok.
  - intros n w' HnN' Hw' Ha. specialize (Hw n HnN'). rewrite Hw' in Hw. cbn in Hw. destruct (word_of s n) as [w|] eqn:E; [|done].
    injection Hw as Hw. rewrite Hw in Ha |- *. destruct (H3 n w) as (e & He & Hne & Hae); [auto|done|done|].
    exists e. by rewrite (same_data_node s s' e Hd).
Qed.

Lemma address_set_address w : GC_ADDRESS (GC_SET_ADDRESS 0 w) = 0.
Proof. unfold GC_SET_ADDRESS, GC_ADDRESS. Z.to_euclidean_division_equations. lia. Qed.
Lemma color_set_address w : GC_GET_COLOR (GC_SET_ADDRESS 0 w) = GC_GET_COLOR w.
Proof. unfold GC_SET_ADDRESS, GC_GET_COLOR. Z.to_euclidean_division_equations. lia. Qed.
Lemma word_inj e e' : word (Some e) = word (Some e') -> e = e'.
Proof. cbn. lia. Qed.

(** The word of the node of [e] loses its address. *)
Lemma roots_ok_unbuffer N s s' k e rest n w w' c : roots_ok N s (k ++ e :: rest) -> node_at s e = Some n ->
  info s n = Some (w, c) -> touched n (w', c) s s' -> GC_ADDRESS w' = 0 -> NoDup (k ++ e :: rest) -> roots_ok N s' (k ++ rest).
Proof.
  intros [H1 H2 H3] Hn Hi [Hst Hg Ht Ho] Haddr Hnd.
  assert (He : e ∉ k ++ rest).
  { rewrite <- Permutation_middle in Hnd. by apply NoDup_cons in Hnd as [? _]. }
  assert (Hna : forall e', node_at s' e' = node_at s e') by (intros e'; unfold node_at; by rewrite Hg).
  assert (Hw : forall m, m <> n -> word_of s' m = word_of s m) by (intros m Hm; unfold word_of; by rewrite Ho).
  assert (Hsub : forall e', e' ∈ k ++ rest -> e' ∈ k ++ e :: rest) by set_solver.
  assert (Hwn : GC_ADDRESS w = word (Some e)).
  { destruct (H1 e) as (n' & wn & Hn' & _ & Hw' & Ha); [set_solver|]. rewrite Hn in Hn'. injection Hn' as <-.
    rewrite (word_info _ _ _ _ Hi) in Hw'. by injection Hw' as <-. }
  split.
  - intros e' He'. destruct (H1 e' (Hsub e' He')) as (n' & wn & Hn' & HnN & Hw' & Ha). exists n', wn. rewrite Hna, Hw; [done|].
    intros ->. rewrite (word_info _ _ _ _ Hi) in Hw'. injection Hw' as <-. rewrite Ha in Hwn. apply word_inj in Hwn. by subst.
  - intros e' r h He' Hr Hh. rewrite Hg in Hr. destruct (H2 e' r h (Hsub e' He') Hr Hh) as (hs & Hhs & Hobj). exists hs. split; [done|].
    by eapply static_obj_ok.
  - intros m wm HmN Hm Ha. destruct (decide (m = n)) as [->|Hne].
    + rewrite (word_info _ _ _ _ Ht) in Hm. by injection Hm as <-.
    + rewrite (Hw m Hne) in Hm. destruct (H3 m wm HmN Hm Ha) as (e' & He' & Hne' & Hae). exists e'. rewrite Hna. split_and!; [|done|done].
      apply elem_of_app in He' as [?|[->|?]%elem_of_cons]; [set_solver| |set_solver]. rewrite Hn in Hne'. by injection Hne'.
Qed.

(** Nor does taking [e] out of the ring change what the others stand for. *)
Lemma roots_ok_removed N s s' e l l' : removed e l s s' -> roots_ok N s l' -> roots_ok N s' l'.
Proof.
  intros [Hh Hr Hd Hg Hu He Ho]. apply roots_ok_step; [done|by apply same_heap_static|done| |done].
  intros n _. unfold word_of. by rewrite (same_heap_info s s' n Hh).
Qed.

(** ** The loops *)

(** [I k rest]: [k] are the entries passed and kept, [rest] those to come. *)
Lemma for_roots_run (I : list addr -> list addr -> gstate CB -> Prop) (body : ptr -> gc_root_buffer CB -> G unit) :
  (forall k e rest s, I k (e :: rest) s -> e <> ROOTS) ->
  (forall k e rest s, I k (e :: rest) s -> exists r s' r', entries_of s !! e = Some r /\ body (Some e) r s = Ok (tt, s') /\
    entries_of s' !! e = Some r' /\ next r' = head_ptr rest (Some ROOTS) /\ (I (k ++ [e]) rest s' \/ I k rest s')) ->
  forall rest k s fuel, I k rest s -> (length rest < fuel)%nat ->
  exists k' s', for_roots fuel (head_ptr rest (Some ROOTS)) body s = Ok (tt, s') /\ I k' [] s'.
Proof.
  intros Hne Hbody. induction rest as [|e rest IH]; intros k s fuel HI Hl; (destruct fuel as [|fuel]; [cbn in Hl; lia|]).
  - exists k, s. split; [|done]. cbn [for_roots head_ptr]. by rewrite decide_True.
  - destruct (Hbody k e rest s HI) as (r & s' & r' & Hr & Hb & Hr' & Hn & HI'). cbn [for_roots head_ptr].
    rewrite decide_False by (intros [= E]; by destruct (Hne _ _ _ _ HI)).
    rewrite (mbind_reading _ _ _ r) by (unfold root_at; by apply deref_ok). rewrite (mbind_ok _ _ _ _ _ Hb).
    rewrite (mbind_reading _ _ _ r') by (unfold root_at; by apply deref_ok). rewrite Hn.
    destruct HI' as [HI'|HI']; (eapply IH; [exact HI'|]); cbn in Hl; lia.
Qed.
Lemma all_roots_run (I : list addr -> list addr -> gstate CB -> Prop) (body : ptr -> gc_root_buffer CB -> G unit) l s :
  (forall k e rest s, I k (e :: rest) s -> e <> ROOTS) ->
  (forall k e rest s, I k (e :: rest) s -> exists r s' r', entries_of s !! e = Some r /\ body (Some e) r s = Ok (tt, s') /\
    entries_of s' !! e = Some r' /\ next r' = head_ptr rest (Some ROOTS) /\ (I (k ++ [e]) rest s' \/ I k rest s')) ->
  ring (entries_of s) l -> I [] l s -> exists k' s', all_roots body s = Ok (tt, s') /\ I k' [] s'.
Proof.
  intros Hne Hbody Hr HI. destruct (ring_roots _ _ Hr) as (r & Hroots & Hn & _). unfold all_roots. rewrite mbind_get.
  rewrite (mbind_reading _ _ _ r) by (unfold root_at; by apply deref_ok). rewrite Hn.
  eapply for_roots_run; [exact Hne|exact Hbody|exact HI|]. pose proof (ring_length _ _ Hr). lia.
Qed.
Lemma ring_not_roots (es : gmap addr (gc_root_buffer CB)) k e rest : ring es (k ++ e :: rest) -> e <> ROOTS.
Proof. intros [Hnd _] ->. apply NoDup_cons in Hnd as [Hin _]. apply Hin. set_solver. Qed.
Lemma ring_nodup (es : gmap addr (gc_root_buffer CB)) l : ring es l -> NoDup l.
Proof. by intros [[_ H]%NoDup_cons _]. Qed.
End Buffer.
