(* ===== verification/ZendGcPhases.v ===== *)
(** * The three phases

    [gc_mark_roots], [gc_scan_roots] and [gc_collect_roots] as walks over the
    ring of roots. *)

From S2P Require Import Prelude Dll ZendObjectsApi ZendGc ZendGcGraph ZendGcWalk ZendGcSpread ZendGcMark ZendGcScan ZendGcCollect ZendGcRoots ZendGcBuffer.
Open Scope Z_scope.

Section Phases.
Context {CB : Type} (hgp : CB -> bool).
Implicit Types (s : gstate CB) (n m x y : node) (a e : addr) (c d : Z) (l k rest : list addr) (N F E : list node).
Notation G := (M (gstate CB)).
Notation entries_of s := (entries (gc_globals (world s))).

(** ** Marking the roots *)

Lemma ranged_rc s : ranged s <-> forall n, 0 <= rc s n < 2 ^ 32.
Proof.
  unfold ranged, rc. split.
  - intros H n. destruct (info s n) as [[w r]|] eqn:E; [by eapply H|lia].
  - intros H n w r E. specialize (H n). by rewrite E in H.
Qed.
Lemma info_of s n c : color s n = Some c -> exists w, info s n = Some (w, rc s n) /\ GC_GET_COLOR w = c.
Proof. intros (w & r & Hi & Hc)%color_some. exists w. rewrite (rc_info _ _ _ _ Hi). done. Qed.

(** Painting, whatever becomes of the addresses. *)
Record tinted (c d : Z) N E s s' : Prop := {
  tn_static : static s s';
  tn_color : forall m, proper s m = true -> color s' m = if decide (m ∈ N) then Some c else color s m;
  tn_rc : forall m, proper s m = true -> rc s' m = u32 (rc s m + d * count m E);
  tn_other : forall m, proper s m = false -> (color s' m = color s m \/ color s' m = Some GC_BLACK) /\ rc s' m = rc s m
}.
Lemma painted_tinted c d N E s s' : 0 <= c < 4 -> painted c d N E s s' -> tinted c d N E s s'.
Proof.
  intros Hc [Hst Hg Hi Ho]. split; [done| | |].
  - intros m Hm. destruct (proper_info s m Hm) as (w & r & Hmi). rewrite (color_info _ _ _ _ (Hi m w r Hm Hmi)), (color_info _ _ _ _ Hmi).
    case_decide; [by rewrite get_set_color|done].
  - intros m Hm. destruct (proper_info s m Hm) as (w & r & Hmi). by rewrite (rc_info _ _ _ _ (Hi m w r Hm Hmi)), (rc_info _ _ _ _ Hmi).
  - intros m Hm. destruct (Ho m Hm) as [E1|(w & r & Hmi & E1)]; [unfold color, rc; rewrite E1; auto|].
    rewrite (rc_info _ _ _ _ Hmi), (rc_info _ _ _ _ E1), (color_info _ _ _ _ E1). rewrite set_black_color, get_set_color; auto. done.
Qed.
(** The address in the word of [n] is cleared. *)
Lemma cleared_tinted c d n w r s s' : ranged s -> info s n = Some (w, r) -> touched n (GC_SET_ADDRESS 0 w, r) s s' -> tinted c d [] [] s s'.
Proof.
  intros Hr Hi [Hst Hg Ht Ho].
  assert (Hc : forall m, color s' m = color s m).
  { intros m. destruct (decide (m = n)) as [->|Hne]; [|unfold color; by rewrite Ho].
    rewrite (color_info _ _ _ _ Ht), (color_info _ _ _ _ Hi). by rewrite color_set_address. }
  assert (Hrc : forall m, rc s' m = rc s m).
  { intros m. destruct (decide (m = n)) as [->|Hne]; [|unfold rc; by rewrite Ho]. by rewrite (rc_info _ _ _ _ Ht), (rc_info _ _ _ _ Hi). }
  split; [done| | |].
  - intros m _. by rewrite decide_False by apply not_elem_of_nil.
  - intros m _. rewrite Hrc, count_nil, Z.mul_0_r, Z.add_0_r, u32_id; [done|]. by apply ranged_rc.
  - intros m _. rewrite Hc, Hrc. auto.
Qed.
(** Only the collector's variables change. *)
Lemma same_heap_tinted c d s s' : ranged s -> same_heap s s' -> tinted c d [] [] s s'.
Proof.
  intros Hr H. assert (Hi : forall m, info s' m = info s m) by (intros m; by apply same_heap_info). split; [by apply same_heap_static| | |].
  - intros m _. rewrite decide_False by apply not_elem_of_nil. unfold color. by rewrite Hi.
  - intros m _. unfold rc at 1. rewrite Hi. rewrite count_nil, Z.mul_0_r, Z.add_0_r, u32_id; [done|]. by apply ranged_rc.
  - intros m _. unfold color, rc. rewrite Hi. auto.
Qed.
Lemma tinting c d : 0 <= c < 4 -> Painting ranged (colored c) (tinted c d).
Proof.
  intros Hc. split.
  - intros s Hs. by apply painted_tinted, painted_none.
  - intros N E s s' Hs [Hst Hcol Hrc Ho]. apply ranged_rc. intros n. destruct (proper s n) eqn:Hp; [rewrite (Hrc n Hp); apply u32_range|].
    rewrite (proj2 (Ho n Hp)). by apply ranged_rc.
  - intros N E s s' H. by destruct H.
  - intros N E s s' m Hm [Hst Hcol Hrc Ho]. unfold colored. rewrite (Hcol m Hm). case_decide; [split; auto|]. split; [by right|]. by intros [?|?].
  - intros N1 N2 E1 E2 s s1 s2 [S1 C1 R1 O1] [S2 C2 R2 O2]. split; [by transitivity s1| | |].
    + intros m Hm. rewrite (C2 m) by by rewrite (static_proper s s1). rewrite (C1 m Hm).
      destruct (decide (m ∈ N1 ++ N2)) as [H12|H12]; rewrite elem_of_app in H12; repeat case_decide; tauto.
    + intros m Hm. rewrite (R2 m) by by rewrite (static_proper s s1). by rewrite (R1 m Hm), u32_add_add, count_app, <- Z.mul_add_distr_l.
    + intros m Hm. destruct (O1 m Hm) as [H1 E1']. destruct (O2 m) as [H2 E2']; [by rewrite (static_proper s s1)|].
      split; [|congruence]. destruct H2 as [->|?]; [done|by right].
  - intros N N' E E' s s' HN HE [S C R O]. split; [done| | |done].
    + intros m Hm. rewrite (C m Hm). apply decide_ext. by rewrite HN.
    + intros m Hm. by rewrite (R m Hm), (count_perm m E E' HE).
Qed.
#[local] Instance tinting_grey : Painting (CB := CB) ranged (colored GC_GREY) (tinted GC_GREY (-1)) := tinting _ _ grey_range.

Lemma address_set_black w : GC_ADDRESS (GC_SET_BLACK w) = GC_ADDRESS w.
Proof. unfold GC_SET_BLACK, GC_ADDRESS. Z.to_euclidean_division_equations. lia. Qed.
Lemma painted_address c d N E s s' n : 0 <= c < 4 -> painted c d N E s s' -> GC_ADDRESS <$> word_of s' n = GC_ADDRESS <$> word_of s n.
Proof.
  intros Hc [Hst Hg Hi Ho]. unfold word_of. destruct (info s n) as [[w r]|] eqn:Hn.
  - destruct (proper s n) eqn:Hp.
    + rewrite (Hi n w r Hp Hn). cbn. case_decide; [|done]. by rewrite address_set_color.
    + destruct (Ho n Hp) as [->|(w' & r' & Hn' & ->)]; [by rewrite Hn|]. rewrite Hn in Hn'. injection Hn' as <- <-. cbn.
      by rewrite address_set_black.
  - destruct (info s' n) eqn:Hn'; [|done]. exfalso. assert (H : is_Some (info s n)) by (apply (static_info s s' n Hst); by eexists).
    rewrite Hn in H. by destruct H.
Qed.

(** The variables of the collector besides the buffer's. *)
Definition other_globals s : zend_gc_globals CB := set_unused None (set_entries ∅ (gc_globals (world s))).
Lemma removed_globals e l s s' : removed e l s s' -> other_globals s' = other_globals s.
Proof.
  intros H. pose proof (rm_globals _ _ _ _ H) as Hg. unfold other_globals. rewrite <- Hg. reflexivity.
Qed.

Record marked_so_far s l k rest t : Prop := {
  mk_ring : ring (entries_of t) (k ++ rest);
  mk_roots : roots_ok hgp [] t (k ++ rest);
  mk_data : same_data (entries_of s) (entries_of t);
  mk_globals : other_globals t = other_globals s;
  mk_rest : exists passed, l = passed ++ rest;
  mk_spread : exists N F, spreading (tinted GC_GREY (-1)) (colored GC_GREY) kids F [] N s t /\
    (forall f, f ∈ F -> f ∈ N /\ color s f = Some GC_PURPLE /\ exists e, e ∈ k /\ e ∈ l /\ node_at s e = Some f) /\
    (forall e n, e ∈ l -> e ∉ rest -> node_at s e = Some n -> proper s n = true -> color s n = Some GC_PURPLE -> n ∈ N) /\
    (forall e n, e ∈ k -> node_at s e = Some n -> proper s n = true -> n ∈ N)
}.
Lemma rest_split l passed e rest e' : l = passed ++ e :: rest -> e' ∈ l -> e' ∉ rest -> e' = e \/ e' ∉ e :: rest.
Proof. intros -> He Hr. destruct (decide (e' = e)); [by left|]. right. by intros [?|?]%elem_of_cons. Qed.

(** The root is kept. *)
Lemma mark_keep s l k e rest t t' n F1 N1 : heap_ok hgp s -> marked_so_far s l k (e :: rest) t -> node_at s e = Some n ->
  spreading (painted GC_GREY (-1)) (colored GC_GREY) kids F1 [] N1 t t' ->
  (forall f, f ∈ F1 -> f = n /\ f ∈ N1 /\ color t n = Some GC_PURPLE) -> (proper s n = true -> n ∈ F1) -> marked_so_far s l (k ++ [e]) rest t'.
Proof.
  intros Hok [H1 H2 H3 H4 (passed & Hl) (N & F & HS & HF & Hdone & Hkept)] Hn HS1 HF1 HnF.
  pose proof (sp_painted _ _ _ _ _ _ _ _ HS1) as HP. pose proof HP as [Hst Hg Hi Ho].
  assert (Happ : (k ++ [e]) ++ rest = k ++ e :: rest) by by rewrite <- app_assoc. split; rewrite ?Happ, ?Hg; try done.
  - apply (roots_ok_step hgp [] [] t t'); try done; [by rewrite Hg; apply same_data_refl|]. intros m _. by eapply (painted_address GC_GREY).
  - unfold other_globals in *. by rewrite Hg.
  - exists (passed ++ [e]). by rewrite <- app_assoc.
  - exists (N ++ N1), (F ++ F1). split_and!.
    + change [] with (@nil node ++ []). eapply (spread_app hgp ranged (colored GC_GREY) (tinted GC_GREY (-1)) kids); [exact Hok|exact HS|].
      eapply spread_mono; [|exact HS1]. intros. by apply painted_tinted.
    + intros f [Hf|Hf]%elem_of_app.
      * destruct (HF f Hf) as (HfN & Hc & e' & He' & Hel & Hne). split_and!; [set_solver|done|]. exists e'. set_solver.
      * destruct (HF1 f Hf) as (-> & HfN & Hc). split_and!; [set_solver| |exists e; subst l; set_solver].
        assert (Hp : proper s n = true). { destruct (sp_new _ _ _ _ _ _ _ _ HS1 n HfN) as [Hp _]. by rewrite <- (static_proper s t) by by destruct HS as [[? _ _ _] _ _ _ _]. }
        rewrite (tn_color _ _ _ _ _ _ (sp_painted _ _ _ _ _ _ _ _ HS) n Hp) in Hc. by case_decide.
    + intros e' n' He' Hr Hn' Hp Hc. rewrite elem_of_app. destruct (rest_split l passed e rest e' Hl He' Hr) as [->|Hr'].
      * right. rewrite Hn in Hn'. injection Hn' as <-. apply HF1, HnF, Hp.
      * left. by apply (Hdone e' n').
    + intros e' n' [He'| ->%list_elem_of_singleton]%elem_of_app Hn' Hp; rewrite elem_of_app; [left; by apply (Hkept e' n')|].
      right. rewrite Hn in Hn'. injection Hn' as <-. apply HF1, HnF, Hp.
Qed.
(** The root is removed. *)
Lemma mark_drop s l k e rest t t1 t' n w c : heap_ok hgp s -> ranged s -> marked_so_far s l k (e :: rest) t -> node_at s e = Some n ->
  info t n = Some (w, c) -> GC_GET_COLOR w <> GC_PURPLE -> touched n (GC_SET_ADDRESS 0 w, c) t t1 -> removed e (k ++ rest) t1 t' ->
  marked_so_far s l k rest t'.
Proof.
  intros Hok Hr [H1 H2 H3 H4 (passed & Hl) (N & F & HS & HF & Hdone & Hkept)] Hn Hi Hw T Hrm.
  pose proof T as [Hst Hg Ht Ho]. pose proof (sp_painted _ _ _ _ _ _ _ _ HS) as HP. pose proof (P_inv _ _ _ _ Hr HP) as Hrt.
  pose proof (cleared_tinted GC_GREY (-1) n w c t t1 Hrt Hi T) as HP1.
  pose proof (same_heap_tinted GC_GREY (-1) t1 t' (P_inv _ _ _ _ Hrt HP1) (rm_heap _ _ _ _ Hrm)) as HP2.
  assert (Hnt : node_at t e = Some n) by by rewrite (same_data_node s t e H3).
  split.
  - by destruct Hrm.
  - eapply roots_ok_removed; [exact Hrm|]. eapply roots_ok_unbuffer; [exact H2|exact Hnt|exact Hi|exact T|apply address_set_address|]. by eapply ring_nodup.
  - eapply same_data_trans; [exact H3|]. rewrite <- Hg. by destruct Hrm.
  - rewrite (removed_globals _ _ _ _ Hrm). unfold other_globals in *. by rewrite Hg.
  - exists (passed ++ [e]). by rewrite <- app_assoc.
  - exists N, F. split_and!; [|done| |done].
    + rewrite <- (app_nil_r N), <- (app_nil_r F). change (@nil node) with (@nil node ++ []).
      pose proof (P_app _ _ _ _ _ _ _ HP1 HP2) as HP12. cbn [app] in HP12 |- *. change (@nil node) with (@nil node ++ []) at 2.
      eapply (spread_app hgp ranged (colored GC_GREY) (tinted GC_GREY (-1)) kids); [exact Hok|exact HS|]. by apply spread_none.
    + intros e' n' He' Hrest Hn' Hp Hc. destruct (rest_split l passed e rest e' Hl He' Hrest) as [->|Hr']; [|by apply (Hdone e' n')].
      rewrite Hn in Hn'. injection Hn' as <-. destruct (decide (n ∈ N)) as [?|HnN]; [done|exfalso].
      pose proof (tn_color _ _ _ _ _ _ HP n Hp) as Hct. rewrite decide_False in Hct by done. rewrite (color_info _ _ _ _ Hi), Hc in Hct. congruence.
Qed.

(** Between two runs of the collector. *)
Record gc_ready s l : Prop := {
  gr_ring : ring (entries_of s) l;
  gr_roots : roots_ok hgp [] s l;
  gr_heap : heap_ok hgp s;
  gr_ranged : ranged s;
  gr_colors : forall n c, color s n = Some c -> c = GC_BLACK \/ c = GC_PURPLE
}.

(** What a root stands for is there. *)
Lemma root_entry N t k e rest : ring (entries_of t) (k ++ e :: rest) -> roots_ok hgp N t (k ++ e :: rest) ->
  exists r n w c, entries_of t !! e = Some r /\ next r = head_ptr rest (Some ROOTS) /\ node_at t e = Some n /\ n ∉ N /\
    info t n = Some (w, c) /\ GC_ADDRESS w = word (Some e) /\
    ((handle r =? 0 = true /\ exists a, pz r = Some a /\ n = NZ a /\ is_Some (zvals (world t) !! a)) \/
     (handle r =? 0 = false /\ n = NO (handle r) /\ has_store t = true /\ proper t n = true /\
      exists hs, r_handlers r = Some hs /\ obj_ok hgp t (handle r) hs)).
Proof.
  intros Hring Hroots. destruct (ring_entry _ _ _ _ Hring) as (r & Hr & Hn & _).
  destruct (ro_root _ _ _ _ Hroots e) as (n & w & Hne & HnN & Hw & Ha); [set_solver|].
  destruct (word_info_inv _ _ _ Hw) as (c & Hi). exists r, n, w, c. split_and!; try done.
  unfold node_at in Hne. rewrite Hr in Hne. cbn in Hne. pose proof Hne as Hroot. unfold root_node in Hne.
  destruct (handle r =? 0) eqn:Hh.
  - left. split; [done|]. destruct (pz r) as [a|]; [|done]. injection Hne as <-. exists a. split_and!; [done..|].
    destruct (info_zval _ _ _ _ Hi) as (z & Hz & _). by eexists.
  - right. injection Hne as <-. destruct (info_bucket _ _ _ _ Hi) as (b & Hb & _). split_and!; [done..| | |].
    + unfold bucket, cells in Hb. unfold has_store. by destruct (object_buckets (store t)).
    + cbn. by rewrite Hb.
    + by apply (ro_handlers _ _ _ _ Hroots e); [set_solver|..].
Qed.

Lemma mark_root_run s l k e rest t r : heap_ok hgp s -> ranged s -> marked_so_far s l k (e :: rest) t -> entries_of t !! e = Some r ->
  exists t', mark_root hgp (Some e) r t = Ok (tt, t') /\ (exists r', entries_of t' !! e = Some r' /\ next r' = head_ptr rest (Some ROOTS)) /\
    (marked_so_far s l (k ++ [e]) rest t' \/ marked_so_far s l k rest t').
Proof.
  intros Hok Hr HI Hre. pose proof HI as [H1 H2 H3 _ _ (N & F & HS & _)]. pose proof (sp_painted _ _ _ _ _ _ _ _ HS) as HP.
  pose proof (P_static _ _ _ _ HP) as Hst. pose proof (P_inv _ _ _ _ Hr HP) as Hrt. pose proof (static_heap_ok hgp s t Hst Hok) as Hokt.
  destruct (root_entry [] t k e rest H1 H2) as (r0 & n & w & c & Hr0 & Hnext & Hnt & _ & Hi & Ha & Hcase). rewrite Hre in Hr0. injection Hr0 as <-.
  assert (Hns : node_at s e = Some n) by by rewrite <- (same_data_node s t e H3).
  assert (Hdrop : forall t1, GC_GET_COLOR w <> GC_PURPLE -> touched n (GC_SET_ADDRESS 0 w, c) t t1 ->
    exists t', gc_remove_from_buffer (Some e) t1 = Ok (tt, t') /\ (exists r', entries_of t' !! e = Some r' /\ next r' = head_ptr rest (Some ROOTS)) /\
      (marked_so_far s l (k ++ [e]) rest t' \/ marked_so_far s l k rest t')).
  { intros t1 Hc T. destruct (remove_run t1 k e rest) as (t' & Hrun & Hrm); [by rewrite (to_globals _ _ _ _ T)|]. exists t'. split; [done|]. split.
    - destruct (rm_entry _ _ _ _ Hrm) as (r1 & r' & Hr1 & Hr' & Hn' & _). exists r'. split; [done|].
      rewrite (to_globals _ _ _ _ T), Hre in Hr1. injection Hr1 as <-. by rewrite Hn'.
    - right. eapply mark_drop; done. }
  assert (Hkeep : forall t' F1 N1, spreading (painted GC_GREY (-1)) (colored GC_GREY) kids F1 [] N1 t t' ->
    (forall f, f ∈ F1 -> f = n /\ f ∈ N1 /\ color t n = Some GC_PURPLE) -> (proper s n = true -> n ∈ F1) ->
    (exists r', entries_of t' !! e = Some r' /\ next r' = head_ptr rest (Some ROOTS)) /\
      (marked_so_far s l (k ++ [e]) rest t' \/ marked_so_far s l k rest t')).
  { intros t' F1 N1 HS1 HF1 HnF. split; [|left; by eapply mark_keep]. exists r. split; [|done].
    by rewrite (pt_globals _ _ _ _ _ _ (sp_painted _ _ _ _ _ _ _ _ HS1)). }
  unfold mark_root. rewrite mbind_get. destruct Hcase as [(Hh & a & Hpz & -> & [z Hz])|(Hh & -> & Hstore & Hp & hs & Hhs & Hobj)]; rewrite Hh; cbn [negb].
  - rewrite Hpz. rewrite (mbind_reading _ _ _ _ (zval_at_ok _ _ _ Hz)). assert (Hu : u z = w) by (cbn in Hi; rewrite Hz in Hi; by injection Hi).
    rewrite Hu. destruct (Z.eqb_spec (GC_GET_COLOR w) GC_PURPLE) as [Hc|Hc].
    + destruct (zval_mark_grey_walks hgp (gc_fuel t) t a Hokt Hrt) as (t' & N1 & Hrun & HS1 & HC); [by eexists|apply todo_fuel|].
      exists t'. split; [done|]. apply (Hkeep t' (refs_to t [a]) N1 HS1).
      * intros f Hf. pose proof Hf as (b & -> & ->%list_elem_of_singleton & _)%refs_to_elem. split; [done|]. split; [|rewrite (color_info _ _ _ _ Hi); by rewrite Hc].
        destruct (HC _ Hf) as [?|Hg]; [done|]. unfold colored in Hg. rewrite (color_info _ _ _ _ Hi), Hc in Hg. done.
      * cbn [proper]. intros Hcount. rewrite <- (static_counted s t a Hst) in Hcount. rewrite (refs_to_counted t a Hcount). by left.
    + destruct (upd_u_run t a w c (GC_SET_ADDRESS 0) Hi) as (t1 & Hrun & T). rewrite (mbind_ok _ _ _ _ _ Hrun). by apply Hdrop.
  - rewrite Hstore. rewrite (mbind_reading _ _ _ _ (obj_color_ok _ _ _ _ Hi)). destruct (Z.eqb_spec (GC_GET_COLOR w) GC_PURPLE) as [Hc|Hc].
    + rewrite (mbind_reading _ _ _ hs) by (unfold root_handlers; by rewrite Hhs).
      destruct (zobj_mark_grey_walks hgp t (handle r) hs Hokt Hrt Hp Hobj) as (t' & N1 & Hrun & HS1 & HC).
      exists t'. split; [done|]. apply (Hkeep t' [NO (handle r)] N1 HS1); [|by left].
      intros f Hf. pose proof Hf as ->%list_elem_of_singleton. split; [done|]. split; [|rewrite (color_info _ _ _ _ Hi); by rewrite Hc].
      destruct (HC _ Hf) as [?|Hg]; [done|]. unfold colored in Hg. rewrite (color_info _ _ _ _ Hi), Hc in Hg. done.
    + destruct (upd_buffered_run t (handle r) w c (GC_SET_ADDRESS 0) Hi) as (t1 & Hrun & T). rewrite (mbind_ok _ _ _ _ _ Hrun). by apply Hdrop.
Qed.

Lemma gc_mark_roots_run s l : gc_ready s l -> exists t k, gc_mark_roots hgp s = Ok (tt, t) /\ marked_so_far s l k [] t.
Proof.
  intros [Hring Hroots Hok Hr _]. unfold gc_mark_roots.
  destruct (all_roots_run (marked_so_far s l) (mark_root hgp) l s) as (k & t & Hrun & HI); [..|by exists t, k].
  - intros k e rest t HI. eapply ring_not_roots. by eapply mk_ring.
  - intros k e rest t HI. destruct (ring_entry _ _ _ _ (mk_ring _ _ _ _ _ HI)) as (r & Hre & _).
    destruct (mark_root_run s l k e rest t r Hok Hr HI Hre) as (t' & Hrun & (r' & Hr' & Hn') & HI'). by exists r, t', r'.
  - exact Hring.
  - split; try done; [by exists []|]. exists [], []. split_and!.
    + apply spread_none. by apply P_none.
    + by intros f ?%elem_of_nil.
    + intros e n He Hn. by destruct Hn.
    + by intros e n ?%elem_of_nil.
Qed.

(** ** Scanning the roots *)

Lemma sifted_address N E s s' n : sifted hgp N E s s' -> GC_ADDRESS <$> word_of s' n = GC_ADDRESS <$> word_of s n.
Proof.
  intros [Hst Hg Hr (B & H) Ho]. unfold word_of. destruct (info s n) as [[w r]|] eqn:Hn.
  - destruct (proper s n) eqn:Hp.
    + rewrite (bl_info _ _ _ _ H n w r Hp Hn). cbn. repeat case_decide; by rewrite ?address_set_color.
    + destruct (Ho n Hp) as [->|(w' & r' & Hn' & ->)]; [by rewrite Hn|]. rewrite Hn in Hn'. injection Hn' as <- <-. cbn.
      by rewrite address_set_black.
  - destruct (info s' n) eqn:Hn'; [|done]. exfalso. assert (Hs : is_Some (info s n)) by (apply (static_info s s' n Hst); by eexists).
    rewrite Hn in Hs. by destruct Hs.
Qed.
Record scanned_so_far t l k rest t' : Prop := {
  sc_rest : l = k ++ rest;
  sc_globals : gc_globals (world t') = gc_globals (world t);
  sc_spread : exists M F, spreading (sifted hgp) settled no_refs F [] M t t' /\ covered settled F M t /\
    (forall e n, e ∈ k -> node_at t e = Some n -> proper t n = true -> n ∈ F)
}.
Lemma scan_root_run t l k e rest t1 r : heap_ok hgp t -> ranged t -> ring (entries_of t) l -> roots_ok hgp [] t l ->
  scanned_so_far t l k (e :: rest) t1 -> entries_of t1 !! e = Some r ->
  exists t', scan_root hgp (Some e) r t1 = Ok (tt, t') /\ scanned_so_far t l (k ++ [e]) rest t'.
Proof.
  intros Hok Hr Hring Hroots [Hl Hg (M & F & HS & HC & HF)] Hre. pose proof (sp_painted _ _ _ _ _ _ _ _ HS) as HP.
  pose proof (P_static _ _ _ _ HP) as Hst. pose proof (P_inv _ _ _ _ (conj Hr Hok) HP) as [Hrt Hokt]. subst l.
  assert (Hroots1 : roots_ok hgp [] t1 (k ++ e :: rest)).
  { eapply (roots_ok_step hgp [] [] t t1); try done; [by rewrite Hg|]. intros m _. by eapply sifted_address. }
  rewrite <- Hg in Hring. destruct (root_entry [] t1 k e rest Hring Hroots1) as (r0 & n & w & c & Hr0 & Hnext & Hnt & _ & Hi & Ha & Hcase).
  rewrite Hre in Hr0. injection Hr0 as <-. assert (Hns : node_at t e = Some n) by (unfold node_at in *; by rewrite <- Hg).
  assert (Hstep : forall F1, walks_to settled (sifted hgp) no_refs (scan_root hgp (Some e) r) F1 [] t1 ->
    (proper t n = true -> n ∈ F1) -> (forall f, f ∈ F1 -> proper t f = true) ->
    exists t', scan_root hgp (Some e) r t1 = Ok (tt, t') /\ scanned_so_far t (k ++ e :: rest) (k ++ [e]) rest t').
  { intros F1 (t' & M1 & Hrun & HS1 & HC1) HnF Hprop. exists t'. split; [done|]. split.
    - by rewrite <- app_assoc.
    - rewrite <- Hg. eapply sf_globals, sp_painted, HS1.
    - exists (M ++ M1), (F ++ F1). split_and!.
      + change [] with (@nil node ++ []). by eapply (spread_app hgp _ settled (sifted hgp) no_refs).
      + eapply (covered_app _ settled (sifted hgp) no_refs); [exact Hprop|exact HS|exact HC|exact HC1].
      + intros e' n' [He'| ->%list_elem_of_singleton]%elem_of_app Hn' Hp; rewrite elem_of_app; [left; by eapply HF|].
        right. rewrite Hns in Hn'. injection Hn' as <-. auto. }
  destruct Hcase as [(Hh & a & Hpz & -> & [z Hz])|(Hh & -> & Hstore & Hp & hs & Hhs & Hobj)].
  - apply (Hstep (refs_to t1 [a])).
    + unfold walks_to, scan_root. rewrite mbind_get, Hh, Hpz. cbn [negb]. apply (zval_scan_sifts hgp (gc_fuel t1)); [done|done|by eexists|apply todo_fuel].
    + cbn [proper]. intros Hc. rewrite <- (static_counted t t1 a Hst) in Hc. rewrite (refs_to_counted t1 a Hc). by left.
    + intros f (b & -> & _ & Hb)%refs_to_elem. cbn. by rewrite <- (static_counted t t1 b Hst).
  - apply (Hstep [NO (handle r)]); [|by left|intros f ->%list_elem_of_singleton; by rewrite <- (static_proper t t1)].
    unfold walks_to, scan_root. rewrite mbind_get, Hh. cbn [negb]. rewrite (mbind_reading _ _ _ hs) by (unfold root_handlers; by rewrite Hhs).
    by apply zobj_scan_sifts.
Qed.
Lemma gc_scan_roots_run t l : heap_ok hgp t -> ranged t -> ring (entries_of t) l -> roots_ok hgp [] t l ->
  exists t', gc_scan_roots hgp t = Ok (tt, t') /\ scanned_so_far t l l [] t'.
Proof.
  intros Hok Hr Hring Hroots. unfold gc_scan_roots.
  destruct (all_roots_run (scanned_so_far t l) (scan_root hgp) l t) as (k & t' & Hrun & HI); [..|].
  - intros k e rest t1 HI. rewrite (sc_rest _ _ _ _ _ HI) in Hring. by eapply ring_not_roots.
  - intros k e rest t1 HI. pose proof Hring as Hring1. rewrite (sc_rest _ _ _ _ _ HI), <- (sc_globals _ _ _ _ _ HI) in Hring1.
    destruct (ring_entry _ _ _ _ Hring1) as (r & Hre & Hn & _).
    destruct (scan_root_run t l k e rest t1 r Hok Hr Hring Hroots HI Hre) as (t2 & Hrun & HI'). exists r, t2, r. split_and!; [done..| |done|by left].
    by rewrite (sc_globals _ _ _ _ _ HI'), <- (sc_globals _ _ _ _ _ HI).
  - exact Hring.
  - split; [done..|]. exists [], []. split_and!; [by apply spread_none, P_none|apply covered_nil|by intros e n ?%elem_of_nil].
  - exists t'. split; [done|]. pose proof (sc_rest _ _ _ _ _ HI) as E. rewrite app_nil_r in E. by subst k.
Qed.
End Phases.
