(* ===== verification/ZendGcGather.v ===== *)
(** * The third phase: [gc_collect_roots]

    Every root leaves the ring; what is white is collected when its own root
    is current or, if it has none any more, when it is reached. *)

From S2P Require Import Prelude Dll ZendObjectsApi ZendGc ZendGcGraph ZendGcWalk ZendGcSpread ZendGcMark ZendGcScan ZendGcCollect ZendGcRoots ZendGcBuffer ZendGcPhases.
Open Scope Z_scope.

Section Gather.
Context {CB : Type} (hgp : CB -> bool).
Implicit Types (s t : gstate CB) (n m x y : node) (a e : addr) (l k rest : list addr) (N F E : list node).
Notation G := (M (gstate CB)).
Notation entries_of s := (entries (gc_globals (world s))).
Notation collects := (spreading collected_to spared zval_refs).

(** The white nodes [N] have been collected. *)
Record gathered N s s' : Prop := {
  ga_static : static s s';
  ga_nodup : NoDup N;
  ga_white : forall m, m ∈ N -> proper s m = true /\ color s m = Some GC_WHITE;
  ga_color : forall m, proper s m = true ->
    color s' m = if decide (m ∈ N) then Some (if is_zval m then GC_BLACK else GC_PURPLE) else color s m;
  ga_rc : forall m, proper s m = true -> rc s' m = u32 (rc s m + (one_more N m + count m (N ≫= zval_refs s)));
  ga_other : forall m, proper s m = false -> (color s' m = color s m \/ color s' m = Some GC_BLACK) /\ rc s' m = rc s m
}.
Lemma gathered_none s : ranged s -> gathered [] s s.
Proof.
  intros Hr. split; [done|apply NoDup_nil_2|by intros m ?%elem_of_nil| | |by auto].
  - intros m _. by rewrite decide_False by apply not_elem_of_nil.
  - intros m _. unfold one_more. rewrite decide_False by apply not_elem_of_nil. cbn. rewrite count_nil, u32_id; [lia|]. rewrite Z.add_0_r. by apply ranged_rc.
Qed.
Lemma gathered_ranged N s s' : ranged s -> gathered N s s' -> ranged s'.
Proof.
  intros Hr H. apply ranged_rc. intros n. destruct (proper s n) eqn:Hp; [rewrite (ga_rc _ _ _ H n Hp); apply u32_range|].
  rewrite (proj2 (ga_other _ _ _ H n Hp)). by apply ranged_rc.
Qed.

(** A write to the address of [n] keeps colours and counts. *)
Lemma cleared_color n w c s s' m : info s n = Some (w, c) -> touched n (GC_SET_ADDRESS 0 w, c) s s' ->
  color s' m = color s m /\ rc s' m = rc s m.
Proof.
  intros Hi [Hst Hg Ht Ho]. destruct (decide (m = n)) as [->|Hne]; [|unfold color, rc; by rewrite Ho].
  rewrite (color_info _ _ _ _ Ht), (color_info _ _ _ _ Hi), (rc_info _ _ _ _ Ht), (rc_info _ _ _ _ Hi). by rewrite color_set_address.
Qed.
(** The walk from one root, in the coarse view. *)
Lemma collected_color N E s s' m : proper s m = true -> collected_to N E s s' ->
  color s' m = (if decide (m ∈ N) then Some (if is_zval m then GC_BLACK else GC_PURPLE) else color s m) /\
  rc s' m = u32 (rc s m + (one_more N m + count m E)).
Proof.
  intros Hm H. destruct (proper_info s m Hm) as (w & r & Hi). destruct (cl_info _ _ _ _ H m w r Hm Hi) as (w' & Hi' & Hw).
  rewrite (color_info _ _ _ _ Hi'), (color_info _ _ _ _ Hi), (rc_info _ _ _ _ Hi'), (rc_info _ _ _ _ Hi). split; [|done].
  case_decide; [destruct Hw as [_ ->]; by destruct (is_zval m)|by subst].
Qed.
Lemma gathered_step N N1 F1 n w c s t1 t2 t3 : gathered N s t1 -> info t1 n = Some (w, c) ->
  touched n (GC_SET_ADDRESS 0 w, c) t1 t2 -> collects F1 [] N1 t2 t3 -> gathered (N ++ N1) s t3.
Proof.
  intros [Hst Hnd Hwh Hcol Hrc Hoth] Hi T HS. pose proof (sp_painted _ _ _ _ _ _ _ _ HS) as HP. cbn [app] in HP.
  assert (Hst2 : static s t2) by (transitivity t1; [done|apply (to_static _ _ _ _ T)]).
  pose proof (fun m => cleared_color n w c t1 t2 m Hi T) as H12. rewrite (static_bind zval_refs s t2 N1 Hst2) in HP.
  assert (H1 : forall m, m ∈ N1 -> proper s m = true /\ color t1 m = Some GC_WHITE).
  { intros m Hm. destruct (sp_new _ _ _ _ _ _ _ _ HS m Hm) as [Hp Hn]. rewrite (static_proper s t2) in Hp by done. split; [done|].
    apply not_spared in Hn. destruct (word_info_inv _ _ _ Hn) as (r & Hir). rewrite <- (proj1 (H12 m)). by rewrite (color_info _ _ _ _ Hir). }
  assert (Hd : forall m, m ∈ N -> m ∈ N1 -> False).
  { intros m Hm Hm1. destruct (H1 m Hm1) as [Hp Hc]. rewrite (Hcol m Hp), decide_True in Hc by done. by destruct (is_zval m). }
  split.
  - transitivity t2; [done|]. by destruct HP.
  - apply NoDup_app. split_and!; [done|exact Hd|by destruct HS].
  - intros m [Hm|Hm]%elem_of_app; [by apply Hwh|]. destruct (H1 m Hm) as [Hp Hc]. split; [done|].
    rewrite (Hcol m Hp) in Hc. destruct (decide (m ∈ N)); [by destruct (is_zval m)|done].
  - intros m Hp. rewrite (proj1 (collected_color _ _ _ _ m ltac:(by rewrite (static_proper s t2)) HP)), (proj1 (H12 m)), (Hcol m Hp).
    destruct (decide (m ∈ N ++ N1)) as [H|H]; rewrite elem_of_app in H; repeat case_decide; tauto.
  - intros m Hp. rewrite (proj2 (collected_color _ _ _ _ m ltac:(by rewrite (static_proper s t2)) HP)), (proj2 (H12 m)), (Hrc m Hp).
    rewrite u32_add_add, bind_app, count_app. do 2 f_equal. specialize (Hd m). unfold one_more.
    destruct (decide (m ∈ N ++ N1)) as [H|H]; rewrite elem_of_app in H; destruct (decide (m ∈ N)), (decide (m ∈ N1)); try tauto; lia.
  - intros m Hp. destruct (Hoth m Hp) as [Hc Hr]. destruct (cl_other _ _ _ _ HP m) as [E1|(w' & r' & Hi' & E1)]; [by rewrite (static_proper s t2)| |].
    + unfold color at 1 3, rc at 1. rewrite E1. fold (color t2 m) (rc t2 m). rewrite (proj1 (H12 m)), (proj2 (H12 m)). done.
    + rewrite (color_info _ _ _ _ E1), (rc_info _ _ _ _ E1). split; [right; by rewrite set_black_color, get_set_color|].
      rewrite <- Hr, <- (proj2 (H12 m)). by rewrite (rc_info _ _ _ _ Hi').
Qed.
Lemma gathered_cleared N s t1 t2 n w c : gathered N s t1 -> info t1 n = Some (w, c) -> touched n (GC_SET_ADDRESS 0 w, c) t1 t2 -> gathered N s t2.
Proof.
  intros [Hst Hnd Hwh Hcol Hrc Hoth] Hi T. pose proof (fun m => cleared_color n w c t1 t2 m Hi T) as H12.
  split; try done; [transitivity t1; [done|apply (to_static _ _ _ _ T)]|..]; intros m; rewrite ?(proj1 (H12 m)), ?(proj2 (H12 m)); auto.
Qed.
Lemma gathered_heap N s t t' : gathered N s t -> same_heap t t' -> gathered N s t'.
Proof.
  intros [Hst Hnd Hwh Hcol Hrc Hoth] H. assert (Hi : forall m, info t' m = info t m) by (intros m; by apply same_heap_info).
  assert (Hc : forall m, color t' m = color t m) by (intros m; unfold color; by rewrite Hi).
  assert (Hr : forall m, rc t' m = rc t m) by (intros m; unfold rc; by rewrite Hi).
  split; try done; [transitivity t; [done|by apply same_heap_static]|..]; intros m; rewrite ?Hc, ?Hr; auto.
Qed.

Record collected_so_far t l N rest t' : Prop := {
  cf_ring : ring (entries_of t') rest;
  cf_roots : roots_ok hgp N t' rest;
  cf_data : same_data (entries_of t) (entries_of t');
  cf_globals : set_zval_to_free 0 (other_globals t') = set_zval_to_free 0 (other_globals t);
  cf_rest : exists passed, l = passed ++ rest;
  cf_gathered : gathered N t t';
  cf_listed : exists fl, fl ≡ₚ zvals_in N /\ listed t' fl;
  cf_closed : forall x y, x ∈ N -> y ∈ kids t x -> y ∈ N \/ spared t' y;
  cf_done : forall e n, e ∈ l -> e ∉ rest -> node_at t e = Some n -> proper t n = true -> color t n = Some GC_WHITE -> n ∈ N
}.

Lemma same_heap_spared s s' n : same_heap s s' -> spared s' n <-> spared s n.
Proof. intros H. unfold spared, word_of. by rewrite (same_heap_info s s' n H). Qed.
Lemma same_heap_listed s s' l : same_heap s s' -> zval_to_free (gc_globals (world s')) = zval_to_free (gc_globals (world s)) -> listed s l -> listed s' l.
Proof.
  intros H Hz Hl. unfold listed in *. rewrite Hz. eapply free_chain_ext; [|exact Hl]. intros a _. unfold word_of. by rewrite (same_heap_info s s' _ H).
Qed.
Lemma removed_free e l s s' : removed e l s s' -> zval_to_free (gc_globals (world s')) = zval_to_free (gc_globals (world s)).
Proof. intros H. by rewrite <- (rm_globals _ _ _ _ H). Qed.
Lemma gathered_collectable N t t' fl : ranged t -> (forall n, proper t n = false -> color t n <> Some GC_WHITE) ->
  gathered N t t' -> listed t' fl -> collectable t'.
Proof.
  intros Hr Hw H Hl. split; [by eapply gathered_ranged| |by eapply free_chain_black].
  intros a Ha. rewrite (static_counted t t' a (ga_static _ _ _ H)) in Ha. unfold spared. intros Hwo.
  destruct (word_info_inv _ _ _ Hwo) as (r & Hi). pose proof (color_info _ _ _ _ Hi) as Hc. change (GC_GET_COLOR GC_WHITE) with GC_WHITE in Hc.
  destruct (ga_other _ _ _ H (NZ a) Ha) as [[E1|E1] _]; rewrite E1 in Hc; [|done]. by destruct (Hw (NZ a) Ha).
Qed.
Lemma listed_clear t t' n w c fl : n ∉ NZ <$> fl -> touched n (GC_SET_ADDRESS 0 w, c) t t' -> listed t fl -> listed t' fl.
Proof.
  intros Hn T Hl. unfold listed in *. rewrite (to_globals _ _ _ _ T). eapply free_chain_ext; [|exact Hl]. intros b Hb. unfold word_of. f_equal.
  apply (to_others _ _ _ _ T). intros <-. apply Hn. by apply list_elem_of_fmap_2.
Qed.
(** The walk from the node of a root, its address cleared. *)
Lemma collect_root_walk t r e n w c : heap_ok hgp t -> collectable t -> entries_of t !! e = Some r -> info t n = Some (w, c) ->
  ((handle r =? 0 = true /\ exists a, pz r = Some a /\ n = NZ a /\ is_Some (zvals (world t) !! a)) \/
   (handle r =? 0 = false /\ n = NO (handle r) /\ has_store t = true /\ proper t n = true /\
    exists hs, r_handlers r = Some hs /\ obj_ok hgp t (handle r) hs)) ->
  (forall t2, touched n (GC_SET_ADDRESS 0 w, c) t t2 -> collectable t2) ->
  exists t2 t3 F1 N1, touched n (GC_SET_ADDRESS 0 w, c) t t2 /\ collects F1 [] N1 t2 t3 /\ covered spared F1 N1 t2 /\
    (proper t n = true -> n ∈ F1) /\ collect_root hgp (Some e) r t = gc_remove_from_buffer (Some e) t3.
Proof.
  intros Hok Hco Hre Hi Hcase Hco2. unfold collect_root. rewrite mbind_get.
  destruct Hcase as [(Hh & a & Hpz & -> & [z Hz])|(Hh & -> & Hstore & Hp & hs & Hhs & Hobj)]; rewrite Hh; cbn [negb].
  - rewrite Hpz. destruct (upd_u_run t a w c (GC_SET_ADDRESS 0) Hi) as (t2 & Hrun & T). pose proof (to_static _ _ _ _ T) as Hst.
    destruct (zval_collect_white_walks hgp (gc_fuel t2) t2 a) as (t3 & N1 & Hrun3 & HS & HC).
    + by eapply static_heap_ok.
    + by apply Hco2.
    + apply (static_zval t t2 a Hst). by eexists.
    + apply todo_fuel.
    + exists t2, t3, (refs_to t2 [a]), N1. split_and!; [done..| |].
      * cbn [proper]. intros Hc. rewrite <- (static_counted t t2 a Hst) in Hc. rewrite (refs_to_counted t2 a Hc). by left.
      * rewrite mbind_assoc, (mbind_ok _ _ _ _ _ Hrun). rewrite <- (static_fuel t t2 Hst). by rewrite (mbind_ok _ _ _ _ _ Hrun3).
  - rewrite Hstore. destruct (upd_buffered_run t (handle r) w c (GC_SET_ADDRESS 0) Hi) as (t2 & Hrun & T). pose proof (to_static _ _ _ _ T) as Hst.
    destruct (zobj_collect_white_walks hgp t2 (handle r) hs) as (t3 & N1 & Hrun3 & HS & HC).
    + by eapply static_heap_ok.
    + by apply Hco2.
    + by rewrite (static_proper t t2).
    + by eapply static_obj_ok.
    + exists t2, t3, [NO (handle r)], N1. split_and!; [done..|by left|].
      rewrite mbind_assoc, (mbind_ok _ _ _ _ _ Hrun), mbind_assoc. rewrite (mbind_reading _ _ _ hs) by (unfold root_handlers; by rewrite Hhs).
      by rewrite (mbind_ok _ _ _ _ _ Hrun3).
Qed.

(** What stays white and unlisted still has an entry. *)
Lemma clear_white w : GC_GET_COLOR w = GC_WHITE -> GC_SET_ADDRESS 0 w = GC_WHITE.
Proof. unfold GC_GET_COLOR, GC_SET_ADDRESS. lia. Qed.
Lemma collected_address N N1 F1 t2 t3 n : collects F1 [] N1 t2 t3 -> n ∉ N ++ N1 ->
  GC_ADDRESS <$> word_of t3 n = GC_ADDRESS <$> word_of t2 n.
Proof.
  intros HS Hn. pose proof (sp_painted _ _ _ _ _ _ _ _ HS) as HP. pose proof (P_static _ _ _ _ HP) as Hst.
  unfold word_of. destruct (info t2 n) as [[w r]|] eqn:Hi.
  - destruct (proper t2 n) eqn:Hp.
    + destruct (cl_info _ _ _ _ HP n w r Hp Hi) as (w' & -> & Hw). rewrite decide_False in Hw by set_solver. by subst.
    + destruct (cl_other _ _ _ _ HP n Hp) as [->|(w' & r' & Hi' & ->)]; [by rewrite Hi|]. rewrite Hi in Hi'. injection Hi' as <- <-.
      cbn. by rewrite address_set_black.
  - destruct (info t3 n) eqn:Hn'; [|done]. exfalso. assert (Hs : is_Some (info t2 n)) by (apply (static_info t2 t3 n Hst); by eexists).
    rewrite Hi in Hs. by destruct Hs.
Qed.
Lemma collects_new N1 F1 t2 t3 n w : collects F1 [] N1 t2 t3 -> n ∈ N1 -> word_of t2 n = Some w -> GC_ADDRESS w = 0.
Proof. intros HS Hn Hw. destruct (sp_new _ _ _ _ _ _ _ _ HS n Hn) as [_ Hs%not_spared]. rewrite Hw in Hs. by injection Hs as ->. Qed.
Lemma collects_closed t N N1 F1 n w c t1 t2 t3 : heap_ok hgp t -> static t t1 -> touched n (GC_SET_ADDRESS 0 w, c) t1 t2 ->
  collects F1 [] N1 t2 t3 -> covered spared F1 N1 t2 -> (proper t1 n = true -> n ∈ F1) ->
  (forall x y, x ∈ N -> y ∈ kids t x -> y ∈ N \/ spared t1 y) ->
  forall x y, x ∈ N ++ N1 -> y ∈ kids t x -> y ∈ N ++ N1 \/ spared t3 y.
Proof.
  intros Hok Hst T HS HC HF Hcl x y Hx Hy. pose proof (to_static _ _ _ _ T) as Hst12. pose proof (sp_painted _ _ _ _ _ _ _ _ HS) as HP.
  pose proof (kids_proper hgp t x y Hok Hy) as Hp. rewrite <- (static_proper t t1) in Hp by done.
  assert (H23 : forall m, proper t2 m = true -> m ∈ N1 \/ spared t2 m -> m ∈ N ++ N1 \/ spared t3 m).
  { intros m Hm H. right. by apply (P_done _ _ _ _ _ Hm HP). }
  rewrite elem_of_app in Hx. destruct Hx as [Hx|Hx].
  - destruct (Hcl x y Hx Hy) as [?|Hs]; [left; set_solver|]. apply H23; [by rewrite (static_proper t1 t2)|].
    destruct (decide (y = n)) as [->|Hne]; [by apply HC, HF|]. right. unfold spared, word_of in *. by rewrite (to_others _ _ _ _ T).
  - apply H23; [by rewrite (static_proper t1 t2)|]. apply (sp_closed _ _ _ _ _ _ _ _ HS x y Hx).
    by rewrite (static_kids t1 t2), (static_kids t t1).
Qed.
Lemma collects_root t N N1 F1 n w c t1 t2 t3 : gathered N t t1 -> info t1 n = Some (w, c) -> n ∉ N -> touched n (GC_SET_ADDRESS 0 w, c) t1 t2 ->
  collects F1 [] N1 t2 t3 -> covered spared F1 N1 t2 -> (proper t1 n = true -> n ∈ F1) -> proper t n = true -> color t n = Some GC_WHITE -> n ∈ N1.
Proof.
  intros Hga Hi Hn T HS HC HF Hp Hc. rewrite (static_proper t t1) in HF by by destruct Hga. destruct (HC n (HF Hp)) as [?|Hs]; [done|].
  destruct Hs. rewrite (word_info _ _ _ _ (to_this _ _ _ _ T)). f_equal. apply clear_white.
  rewrite <- (decide_False (P := n ∈ N) (Some (if is_zval n then GC_BLACK else GC_PURPLE)) (color t n) Hn), <- (ga_color _ _ _ Hga n Hp), (color_info _ _ _ _ Hi) in Hc.
  by injection Hc.
Qed.

Lemma collect_root_run t l N e rest t1 r : heap_ok hgp t -> ranged t -> (forall n, proper t n = false -> color t n <> Some GC_WHITE) ->
  collected_so_far t l N (e :: rest) t1 -> entries_of t1 !! e = Some r ->
  exists N' t', collect_root hgp (Some e) r t1 = Ok (tt, t') /\ (exists r', entries_of t' !! e = Some r' /\ next r' = head_ptr rest (Some ROOTS)) /\
    collected_so_far t l N' rest t'.
Proof.
  intros Hok Hr Hw [H1 H2 H3 H4 (passed & Hl) H6 (fl & Hfl & Hch) Hcl Hdone] Hre.
  pose proof (ga_static _ _ _ H6) as Hst. pose proof (static_heap_ok hgp t t1 Hst Hok) as Hok1.
  pose proof (gathered_collectable N t t1 fl Hr Hw H6 Hch) as Hco1.
  destruct (root_entry hgp N t1 [] e rest H1 H2) as (r0 & n & w & c & Hr0 & Hnext & Hnt & HnN & Hi & Ha & Hcase). rewrite Hre in Hr0. injection Hr0 as <-.
  assert (Hns : node_at t e = Some n) by by rewrite <- (same_data_node t t1 e H3).
  assert (Hnfl : n ∉ NZ <$> fl). { intros (a & -> & Hin)%list_elem_of_fmap. rewrite Hfl in Hin. by apply zvals_in_elem in Hin. }
  destruct (collect_root_walk t1 r e n w c Hok1 Hco1 Hre Hi Hcase) as (t2 & t3 & F1 & N1 & T & HS & HC & HF & Hrun).
  { intros t2 T. eapply (gathered_collectable N); [exact Hr|exact Hw|by eapply gathered_cleared|by eapply listed_clear]. }
  pose proof (sp_painted _ _ _ _ _ _ _ _ HS) as HP. pose proof (cl_globals _ _ _ _ HP) as Hg23.
  assert (He3 : entries_of t3 = entries_of t1).
  { rewrite <- (to_globals _ _ _ _ T). change (entries (set_zval_to_free 0 (gc_globals (world t3))) = entries (set_zval_to_free 0 (gc_globals (world t2)))). by rewrite Hg23. }
  destruct (remove_run t3 [] e rest) as (t' & Hrm & HR); [by rewrite He3|]. exists (N ++ N1), t'. rewrite Hrun. split; [done|].
  pose proof (rm_heap _ _ _ _ HR) as Hsh. split.
  { destruct (rm_entry _ _ _ _ HR) as (r1 & r' & Hr1 & Hr' & Hn' & _). exists r'. split; [done|]. rewrite He3, Hre in Hr1. injection Hr1 as <-. by rewrite Hn'. }
  split.
  - by destruct HR.
  - eapply roots_ok_removed; [exact HR|]. eapply (roots_ok_step hgp N (N ++ N1) t2 t3); [set_solver|by destruct HP| | | |].
    + rewrite He3. rewrite (to_globals _ _ _ _ T). apply same_data_refl.
    + intros m. by eapply collected_address.
    + intros m w' Hm HmN. apply (collects_new N1 F1 t2 t3 m w' HS). set_solver.
    + eapply (roots_ok_unbuffer hgp N t1 t2 [] e rest); try done; [apply address_set_address|by eapply ring_nodup].
  - eapply same_data_trans; [exact H3|]. rewrite <- He3. by destruct HR.
  - rewrite (removed_globals _ _ _ _ HR), <- H4. unfold other_globals. rewrite <- (to_globals _ _ _ _ T).
    change (set_unused None (set_entries ∅ (set_zval_to_free 0 (gc_globals (world t3)))) = set_unused None (set_entries ∅ (set_zval_to_free 0 (gc_globals (world t2))))).
    by rewrite Hg23.
  - exists (passed ++ [e]). by rewrite <- app_assoc.
  - eapply gathered_heap; [|exact Hsh]. by eapply gathered_step.
  - destruct (cl_listed _ _ _ _ HP fl) as (fl1 & Hfl1 & Hch1); [by eapply listed_clear|]. exists (fl1 ++ fl). split.
    + rewrite Hfl1, Hfl. unfold zvals_in. rewrite omap_app. apply Permutation_app_comm.
    + eapply same_heap_listed; [exact Hsh|by eapply removed_free|exact Hch1].
  - intros x y Hx Hy. rewrite (same_heap_spared t3 t' y Hsh). exact (collects_closed t N N1 F1 n w c t1 t2 t3 Hok Hst T HS HC HF Hcl x y Hx Hy).
  - intros e' n' He' Hrest Hn' Hp Hc. rewrite elem_of_app. destruct (rest_split l passed e rest e' Hl He' Hrest) as [->|Hr'].
    + right. rewrite Hns in Hn'. injection Hn' as <-. by eapply collects_root.
    + left. by apply (Hdone e' n').
Qed.

(** At the end all the white nodes that white roots lead to are collected. *)
Lemma gc_collect_roots_run t l : heap_ok hgp t -> ranged t -> (forall n, proper t n = false -> color t n <> Some GC_WHITE) ->
  ring (entries_of t) l -> roots_ok hgp [] t l -> zval_to_free (gc_globals (world t)) = FREE_LIST_END ->
  exists t' N, gc_collect_roots hgp t = Ok (tt, t') /\ collected_so_far t l N [] t'.
Proof.
  intros Hok Hr Hw Hring Hroots Hfree. unfold gc_collect_roots.
  destruct (all_roots_run (fun k rest t' => k = [] /\ exists N, collected_so_far t l N rest t') (collect_root hgp) l t) as (k & t' & Hrun & _ & N & HI); [..|by exists t', N].
  - intros k e rest t1 [_ (N & HI)]. eapply (ring_not_roots _ []). by eapply cf_ring.
  - intros k e rest t1 [-> (N & HI)]. destruct (ring_entry _ [] e rest (cf_ring _ _ _ _ _ HI)) as (r & Hre & _).
    destruct (collect_root_run t l N e rest t1 r Hok Hr Hw HI Hre) as (N' & t2 & Hrun & (r' & Hr' & Hn') & HI'). exists r, t2, r'. split_and!; try done.
    right. split; [done|]. by exists N'.
  - exact Hring.
  - split; [done|]. exists []. split; try done.
    + by exists [].
    + by apply gathered_none.
    + exists []. split; [done|]. unfold listed. by rewrite Hfree.
    + by intros x y ?%elem_of_nil.
Qed.
End Gather.
