(* ===== verification/ZendGcCycles.v ===== *)
(** * What the collector finds

    The candidates are the nodes that purple roots lead to.  A candidate is
    held if a candidate with more references than those from candidates leads
    to it; the others are the garbage. *)

From S2P Require Import Prelude Dll ZendObjectsApi ZendGc ZendGcGraph ZendGcWalk ZendGcSpread ZendGcMark ZendGcScan ZendGcCollect ZendGcRoots ZendGcBuffer ZendGcPhases ZendGcGather.
Open Scope Z_scope.

Section Cycles.
Context {CB : Type} (hgp : CB -> bool).
Implicit Types (s t : gstate CB) (n m x y f : node) (a e : addr) (l k : list addr) (N W : list node).
Notation entries_of s := (entries (gc_globals (world s))).

(** ** The specification *)

Definition purple_root s l f : Prop := exists e, e ∈ l /\ node_at s e = Some f /\ proper s f = true /\ color s f = Some GC_PURPLE.
Definition candidate s l n : Prop := exists f, purple_root s l f /\ rtc (edge s) f n.
(** The references to [n] that do not come from [N]. *)
Definition residual s N n : Z := u32 (rc s n - count n (N ≫= kids s)).
Definition held s N n : Prop := exists f, f ∈ N /\ residual s N f <> 0 /\ rtc (edge s) f n.

(** [N]: the candidates; [W]: the garbage; [s']: where the collector stands
    when it has listed it. *)
Record garbage_found s l N W s' : Prop := {
  fd_static : static s s';
  fd_nodup : NoDup N /\ NoDup W;
  fd_candidate : forall n, n ∈ N <-> candidate s l n;
  fd_garbage : forall n, n ∈ W <-> n ∈ N /\ ~ held s N n;
  fd_listed : exists fl, fl ≡ₚ zvals_in W /\ listed s' fl;
  fd_color : forall m, proper s m = true ->
    color s' m = if decide (m ∈ W) then Some (if is_zval m then GC_BLACK else GC_PURPLE) else if decide (m ∈ N) then Some GC_BLACK else color s m;
  fd_rc : forall m, proper s m = true ->
    rc s' m = u32 (rc s m + if is_zval m then one_more W m else - count m (W ≫= kids s));
  fd_ring : ring (entries_of s') [];
  fd_words : forall n w, n ∉ W -> word_of s' n = Some w -> GC_ADDRESS w = 0
}.

(** ** Paths *)

Lemma rtc_inside s N x y : (forall z z', z ∈ N -> z' ∈ kids s z -> z' ∈ N) -> rtc (edge s) x y -> x ∈ N -> y ∈ N.
Proof. intros H. induction 1 as [|x z y Hxz _ IH]; [done|]. intros Hx. apply IH. by eapply H. Qed.
Lemma edge_static_rtc s s' x y : static s s' -> rtc (edge s) x y -> rtc (edge s') x y.
Proof. intros H. apply static_rtc. by symmetry. Qed.
Lemma candidate_static s s' l n : static s s' -> same_data (entries_of s) (entries_of s') -> (forall m, color s' m = color s m) ->
  candidate s' l n <-> candidate s l n.
Proof.
  intros Hst Hd Hc. assert (Hp : forall f, purple_root s' l f <-> purple_root s l f).
  { intros f. unfold purple_root. setoid_rewrite (fun e => same_data_node s s' e Hd). setoid_rewrite Hc. by rewrite (static_proper s s' f Hst). }
  unfold candidate. setoid_rewrite Hp. split; intros (f & Hf & Hr); exists f; (split; [done|]); [by eapply static_rtc|by eapply edge_static_rtc].
Qed.

(** ** After marking *)

Record marked s l N k t : Prop := {
  md_static : static s t;
  md_nodup : NoDup N;
  md_candidate : forall n, n ∈ N <-> candidate s l n;
  md_kept : forall n, n ∈ N -> exists f e, f ∈ N /\ e ∈ k /\ node_at t e = Some f /\ rtc (edge s) f n;
  md_color : forall m, proper s m = true -> color t m = if decide (m ∈ N) then Some GC_GREY else color s m;
  md_rc : forall m, proper s m = true -> rc t m = residual s N m;
  md_other : forall m, proper s m = false -> (color t m = color s m \/ color t m = Some GC_BLACK) /\ rc t m = rc s m;
  md_data : same_data (entries_of s) (entries_of t);
  md_globals : other_globals t = other_globals s;
  md_ring : ring (entries_of t) k;
  md_roots : roots_ok hgp [] t k
}.
Lemma ready_not_grey s l n : gc_ready hgp s l -> color s n <> Some GC_GREY /\ color s n <> Some GC_WHITE.
Proof. intros H. split; intros Hc; by destruct (gr_colors _ _ _ H n _ Hc). Qed.
Lemma marked_done s l k t : gc_ready hgp s l -> marked_so_far hgp s l k [] t -> exists N, marked s l N k t.
Proof.
  intros Hready [Hring Hroots Hdata Hgl _ (N & F & HS & HF & Hdone & Hkept)]. rewrite app_nil_r in Hring, Hroots.
  pose proof HS as [HP Hnd Hnew Hcl Hfrom]. cbn [app] in HP. exists N.
  assert (Hclosed : forall x y, x ∈ N -> y ∈ kids s x -> y ∈ N).
  { intros x y Hx Hy. destruct (Hcl x y Hx Hy) as [?|Hg]; [done|]. by destruct (ready_not_grey s l y Hready). }
  split; try done; try (by destruct HP).
  - intros n. split.
    + intros Hn. destruct (Hfrom n Hn) as (f & Hf & Hr). destruct (HF f Hf) as (HfN & Hc & e & _ & Hel & Hne). exists f. split; [|done].
      exists e. split_and!; [done..| |done]. by destruct (Hnew f HfN).
    + intros (f & (e & Hel & Hne & Hp & Hc) & Hr). eapply rtc_inside; [exact Hclosed|exact Hr|].
      apply (Hdone e f); try done. apply not_elem_of_nil.
  - intros n Hn. destruct (Hfrom n Hn) as (f & Hf & Hr). destruct (HF f Hf) as (HfN & Hc & e & Hek & _ & Hne). exists f, e.
    by rewrite (same_data_node s t e Hdata).
Qed.

(** ** After scanning *)

(** [B]: the candidates that are held, now black; the others are white. *)
Lemma scanned_done s l N k t t' : gc_ready hgp s l -> marked s l N k t -> scanned_so_far hgp t k k [] t' ->
  exists B, blackened B N t t' /\ (forall n, n ∈ B <-> n ∈ N /\ held s N n) /\ static s t' /\
    (forall m, proper s m = false -> (color t' m = color s m \/ color t' m = Some GC_BLACK) /\ rc t' m = rc s m) /\ roots_ok hgp [] t' k.
Proof.
  intros Hready Hmd [_ Hg (M & F & HS & HC & HF)]. pose proof Hmd as [Hst Hnd Hcand Hkept Hcol Hrc Hoth Hdata Hgl Hring Hroots].
  pose proof HS as [HP HndM Hnew Hcl _]. pose proof HP as [Hst' _ _ (B & HB) Hoth'].
  assert (Hproper : forall n, n ∈ N -> proper s n = true).
  { intros n (f & (e & _ & _ & Hp & _) & Hr)%Hcand. clear Hcand. induction Hr as [|x y z Hxy _ IH]; [done|].
    apply IH. eapply kids_proper; [by apply Hready|exact Hxy]. }
  assert (Hgrey : forall m, proper s m = true -> color t m = Some GC_GREY <-> m ∈ N).
  { intros m Hp. rewrite (Hcol m Hp). case_decide; [done|]. split; [|done]. intros Hc. by destruct (ready_not_grey s l m Hready). }
  assert (Hclosed : forall x y, x ∈ N -> y ∈ kids s x -> y ∈ N).
  { intros x y (f & Hf & Hr)%Hcand Hy. apply Hcand. exists f. split; [done|]. eapply rtc_r; [exact Hr|exact Hy]. }
  assert (HMN : forall n, n ∈ M <-> n ∈ N).
  { intros n. split.
    - intros Hn. destruct (Hnew n Hn) as [Hp Hs%not_settled]. rewrite (static_proper s t) in Hp by done. by apply Hgrey.
    - intros Hn. destruct (Hkept n Hn) as (f & e & HfN & Hek & Hne & Hr).
      assert (HfM : f ∈ M).
      { destruct (HC f) as [?|Hs]; [|done|].
        - apply (HF e f Hek Hne). rewrite (static_proper s t) by done. by apply Hproper.
        - destruct Hs. apply Hgrey; [by apply Hproper|done]. }
      assert (H : n ∈ M /\ n ∈ N); [|tauto]. clear Hn Hek Hne. induction Hr as [|x y z Hxy _ IH]; [done|].
      assert (HyN : y ∈ N) by by eapply Hclosed. apply IH; [done|]. destruct (Hcl x y HfM) as [?|Hs]; [by rewrite (static_kids s t)|done|].
      destruct Hs. apply Hgrey; [by apply Hproper|done]. }
  assert (HBN : blackened B N t t').
  { eapply blackened_perm; [|exact HB]. by apply NoDup_Permutation. }
  assert (HBin : forall n, n ∈ B -> n ∈ N).
  { intros n Hn. destruct (bl_from _ _ _ _ HBN n Hn) as (f & Hf & _ & Hr). eapply rtc_inside; [exact Hclosed| |exact Hf]. by eapply static_rtc. }
  exists B. split_and!; [done| |by transitivity t| |].
  - intros n. split.
    + intros Hn. split; [by apply HBin|]. destruct (bl_from _ _ _ _ HBN n Hn) as (f & Hf & Hrf & Hr). exists f.
      rewrite <- Hrc by by apply Hproper. split_and!; [done..|by eapply static_rtc].
    + intros [Hn (f & Hf & Hres & Hr)]. assert (HfB : f ∈ B).
      { destruct (decide (f ∈ B)) as [?|Hn']; [done|]. destruct (bl_white _ _ _ _ HBN f Hf) as (_ & _ & Hz).
        rewrite <- Hrc in Hres by by apply Hproper. by destruct Hres; apply Hz. }
      eapply rtc_inside; [|exact Hr|exact HfB]. intros x y Hx Hy.
      destruct (bl_closed _ _ _ _ HBN x y Hx) as [?|Hb]; [by rewrite (static_kids s t)|done|]. exfalso.
      assert (HyN : y ∈ N) by (eapply Hclosed; [by apply HBin|done]). apply Hgrey in HyN; [|by apply Hproper]. by rewrite Hb in HyN.
  - intros m Hp. destruct (Hoth m Hp) as [Hc1 Hr1]. destruct (Hoth' m) as [E1|(w & r & Hi & E1)]; [by rewrite (static_proper s t)| |].
    + unfold color at 1 3, rc at 1. rewrite E1. fold (color t m) (rc t m). done.
    + rewrite (color_info _ _ _ _ E1), (rc_info _ _ _ _ E1). split; [right; by rewrite set_black_color, get_set_color|].
      rewrite <- Hr1. by rewrite (rc_info _ _ _ _ Hi).
  - eapply (roots_ok_step hgp [] [] t t'); try done; [by rewrite Hg|]. intros m _. by eapply sifted_address.
Qed.

(** ** After collecting *)

Lemma count_bind_zvals s W m : count m (W ≫= zval_refs s) = if is_zval m then count m (W ≫= kids s) else 0.
Proof.
  induction W as [|x W IH]; [by destruct (is_zval m)|]. cbn [mbind list_bind]. rewrite !count_app, IH.
  assert (Hf : count m (zval_refs s x) = if is_zval m then count m (kids s x) else 0).
  { unfold zval_refs. induction (kids s x) as [|y l IHl]; [by destruct (is_zval m)|]. rewrite filter_cons, count_cons.
    destruct (decide (is_zval y = true)) as [Hy|Hy]; rewrite ?count_cons, IHl; destruct (decide (m = y)) as [->|]; [by rewrite Hy|by destruct (is_zval m)| |by destruct (is_zval m)].
    by destruct (is_zval y). }
  rewrite Hf. by destruct (is_zval m).
Qed.
(** The candidates are those held and the garbage. *)
Lemma split_candidates N B W : NoDup N -> NoDup B -> NoDup W -> (forall n, n ∈ B -> n ∈ N) -> (forall n, n ∈ W <-> n ∈ N /\ n ∉ B) -> N ≡ₚ B ++ W.
Proof.
  intros HN HB HW H1 H2. apply NoDup_Permutation; [done| |].
  - apply NoDup_app. split_and!; [done| |done]. intros x Hx Hx'. apply H2 in Hx'. tauto.
  - intros x. rewrite elem_of_app, H2. destruct (decide (x ∈ B)); naive_solver.
Qed.

Lemma collected_done s l N B k t1 t2 t3 W : gc_ready hgp s l -> marked s l N k t1 -> blackened B N t1 t2 ->
  (forall n, n ∈ B <-> n ∈ N /\ held s N n) -> static s t2 -> node_at t2 = node_at t1 ->
  (forall m, proper s m = false -> (color t2 m = color s m \/ color t2 m = Some GC_BLACK) /\ rc t2 m = rc s m) ->
  collected_so_far hgp t2 k W [] t3 -> garbage_found s l N W t3.
Proof.
  intros Hready Hmd HB HBin Hst2 Hnodes Hoth2 [Hring Hroots _ _ _ Hga Hlist Hclosed Hdone].
  pose proof Hmd as [Hst Hnd Hcand Hkept Hcol Hrc Hoth _ _ _ _]. pose proof Hga as [Hst23 HndW Hwhite Hcol3 Hrc3 Hoth3].
  assert (Hpe : forall n, proper t1 n = proper s n) by (intros n; by apply static_proper).
  assert (Hproper : forall n, n ∈ N -> proper s n = true) by (intros n Hn; rewrite <- Hpe; by destruct (bl_white _ _ _ _ HB n Hn)).
  assert (Hcol2 : forall m, proper s m = true -> color t2 m = if decide (m ∈ B) then Some GC_BLACK else if decide (m ∈ N) then Some GC_WHITE else color s m).
  { intros m Hp. rewrite (blackened_color B N t1 t2 m HB) by by rewrite Hpe. rewrite (Hcol m Hp). by repeat case_decide. }
  assert (Hwhite2 : forall m, proper s m = true -> color t2 m = Some GC_WHITE <-> m ∈ N /\ m ∉ B).
  { intros m Hp. rewrite (Hcol2 m Hp). repeat case_decide; try tauto; [by split; [|tauto]|]. split; [|tauto]. intros Hc. by destruct (ready_not_grey s l m Hready). }
  assert (Hclosed1 : forall x y, x ∈ N -> y ∈ kids s x -> y ∈ N).
  { intros x y (f & Hf & Hr)%Hcand Hy. apply Hcand. exists f. split; [done|]. eapply rtc_r; [exact Hr|exact Hy]. }
  assert (HclosedB : forall x y, x ∈ B -> y ∈ kids s x -> y ∈ B).
  { intros x y [Hx (f & Hf & Hres & Hr)]%HBin Hy. apply HBin. split; [exact (Hclosed1 x y Hx Hy)|]. exists f. split_and!; [done..|]. eapply rtc_r; [exact Hr|exact Hy]. }
  assert (HW : forall n, n ∈ W <-> n ∈ N /\ n ∉ B).
  { intros n. split.
    - intros Hn. destruct (Hwhite n Hn) as [Hp Hc]. rewrite (static_proper s t2) in Hp by done. by apply Hwhite2.
    - intros [Hn HnB]. destruct (Hkept n Hn) as (f & e & HfN & Hek & Hne & Hr).
      assert (HfB : f ∉ B) by (intros Hf; apply HnB; by eapply rtc_inside).
      assert (HfW : f ∈ W).
      { apply (Hdone e f Hek (not_elem_of_nil _)); [by rewrite Hnodes|by rewrite (static_proper s t2); [apply Hproper|]|].
        apply Hwhite2; [by apply Hproper|done]. }
      clear Hn Hek Hne. induction Hr as [|x y z Hxy Hyz IH]; [done|]. assert (HyB : y ∉ B) by (intros Hy; apply HnB; by eapply rtc_inside).
      assert (HyN : y ∈ N) by exact (Hclosed1 x y HfN Hxy). apply IH; [done..|].
      destruct (Hclosed x y HfW) as [?|Hs]; [by rewrite (static_kids s t2)|done|]. destruct (decide (y ∈ W)) as [?|HyW]; [done|]. destruct Hs.
      pose proof (Hproper y HyN) as Hp. pose proof (Hcol3 y ltac:(by rewrite (static_proper s t2))) as Hc. rewrite decide_False in Hc by done.
      rewrite (proj2 (Hwhite2 y Hp)) in Hc by done. destruct (info_of t3 y _ Hc) as (w & Hi & Hw). rewrite (word_info _ _ _ _ Hi). f_equal.
      assert (Ha : GC_ADDRESS w = 0).
      { destruct (decide (GC_ADDRESS w = 0)) as [?|Hne]; [done|]. destruct (ro_word _ _ _ _ Hroots y w HyW (word_info _ _ _ _ Hi) Hne) as (e' & He' & _).
        by apply elem_of_nil in He'. }
      unfold GC_ADDRESS, GC_GET_COLOR in *. lia. }
  assert (Hperm : N ≡ₚ B ++ W).
  { apply split_candidates; try done; [by eapply bl_nodup|]. intros n Hn. by apply HBin. }
  split; try done.
  - by transitivity t2.
  - intros n. rewrite HW, HBin. tauto.
  - intros m Hp. rewrite (Hcol3 m) by by rewrite (static_proper s t2). case_decide as HmW; [done|]. rewrite (Hcol2 m Hp).
    destruct (decide (m ∈ B)) as [HmB|HmB]; [by rewrite decide_True by by apply HBin|]. destruct (decide (m ∈ N)); [|done]. by destruct HmW; apply HW.
  - intros m Hp. rewrite (Hrc3 m) by by rewrite (static_proper s t2). rewrite (static_bind zval_refs s t2 W Hst2), count_bind_zvals.
    assert (Hrc2 : rc t2 m = u32 (rc t1 m + count m (B ≫= kids s))).
    { destruct (proper_info t1 m) as (w & r & Hi); [by rewrite Hpe|]. rewrite (rc_info _ _ _ _ (bl_info _ _ _ _ HB m w r ltac:(by rewrite Hpe) Hi)), (rc_info _ _ _ _ Hi).
      by rewrite (static_bind kids s t1 B Hst). }
    rewrite Hrc2, (Hrc m Hp). unfold residual, Z.sub. rewrite !u32_add_add. f_equal.
    rewrite (count_perm m (N ≫= kids s) ((B ++ W) ≫= kids s)) by (by rewrite Hperm). rewrite bind_app, count_app.
    unfold one_more. destruct (is_zval m); case_decide; lia.
  - intros n w Hn Hw. destruct (decide (GC_ADDRESS w = 0)) as [?|Hne]; [done|]. destruct (ro_word _ _ _ _ Hroots n w Hn Hw Hne) as (e' & He' & _).
    by apply elem_of_nil in He'.
Qed.

(** ** The whole *)

Lemma same_heap_candidate s s' l n : same_heap s s' -> entries_of s' = entries_of s -> candidate s' l n <-> candidate s l n.
Proof.
  intros H He. apply candidate_static; [by apply same_heap_static|rewrite He; apply same_data_refl|].
  intros m. unfold color. by rewrite (same_heap_info s s' m H).
Qed.
Lemma found_heap s s' l N W t : same_heap s s' -> entries_of s' = entries_of s -> garbage_found s' l N W t -> garbage_found s l N W t.
Proof.
  intros H He [H1 H2 H3 H4 H5 H6 H7 H8 H9]. pose proof (same_heap_static s s' H) as Hst.
  assert (Hi : forall m, info s' m = info s m) by (intros m; by apply same_heap_info).
  assert (Hrc : forall m, rc s' m = rc s m) by (intros m; unfold rc; by rewrite Hi).
  assert (Hres : forall m, residual s' N m = residual s N m) by (intros m; unfold residual; by rewrite Hrc, (static_bind kids s s' N Hst)).
  assert (Hheld : forall m, held s' N m <-> held s N m).
  { intros m. unfold held. split; intros (f & Hf & Hr & Hp); exists f; [rewrite <- Hres|rewrite Hres]; split_and!; try done; [by eapply static_rtc|by eapply edge_static_rtc]. }
  split; try done.
  - by transitivity s'.
  - intros n. by rewrite H3, (same_heap_candidate s s').
  - intros n. by rewrite H4, Hheld.
  - intros m Hp. rewrite (H6 m) by by rewrite (static_proper s s'). unfold color. by rewrite Hi.
  - intros m Hp. rewrite (H7 m) by by rewrite (static_proper s s'). by rewrite Hrc, (static_bind kids s s' W Hst).
Qed.
Lemma same_heap_ready s s' l : same_heap s s' -> entries_of s' = entries_of s -> gc_ready hgp s l -> gc_ready hgp s' l.
Proof.
  intros H He [H1 H2 H3 H4 H5]. pose proof (same_heap_static s s' H) as Hst.
  assert (Hi : forall m, info s' m = info s m) by (intros m; by apply same_heap_info). split.
  - by rewrite He.
  - eapply (roots_ok_step hgp [] [] s s'); try done; [by rewrite He; apply same_data_refl|]. intros n _. unfold word_of. by rewrite Hi.
  - by eapply static_heap_ok.
  - intros n w r. rewrite Hi. apply H4.
  - intros n c. unfold color. rewrite Hi. apply H5.
Qed.
Lemma gc_ready_white s l t N k : gc_ready hgp s l -> marked s l N k t -> forall t', static s t' ->
  (forall m, proper s m = false -> (color t' m = color s m \/ color t' m = Some GC_BLACK) /\ rc t' m = rc s m) ->
  forall n, proper t' n = false -> color t' n <> Some GC_WHITE.
Proof.
  intros Hready Hmd t' Hst Hoth n Hp. rewrite (static_proper s t') in Hp by done. destruct (Hoth n Hp) as [[->| ->] _]; [|done].
  by destruct (ready_not_grey s l n Hready).
Qed.

Lemma find_garbage_found s l : gc_ready hgp s l -> exists s' N W, find_garbage hgp s = Ok (tt, s') /\ garbage_found s l N W s'.
Proof.
  intros Hready. unfold find_garbage, GC_G. rewrite mbind_assoc, mbind_get, mbind_ret.
  destruct (upd_globals_heap (set_gc_runs (u32 (gc_runs (gc_globals (world s)) + 1))) s) as (sa & Ha & Sa & Ga). rewrite (mbind_ok _ _ _ _ _ Ha).
  destruct (upd_globals_heap (set_zval_to_free FREE_LIST_END) sa) as (sb & Hb & Sb & Gb). rewrite (mbind_ok _ _ _ _ _ Hb).
  destruct (upd_globals_heap (set_gc_active true) sb) as (s0 & H0 & S0 & G0). rewrite (mbind_ok _ _ _ _ _ H0).
  assert (Hsh : same_heap s s0) by (eapply same_heap_trans; [eapply same_heap_trans; [exact Sa|exact Sb]|exact S0]).
  assert (He : entries_of s0 = entries_of s) by (by rewrite G0, Gb, Ga).
  assert (Hfree : zval_to_free (gc_globals (world s0)) = FREE_LIST_END) by (by rewrite G0, Gb).
  clear Ha Hb H0 Sa Sb S0 Ga Gb G0. pose proof (same_heap_ready s s0 l Hsh He Hready) as Hready0.
  destruct (gc_mark_roots_run hgp s0 l Hready0) as (t1 & k & Hrun1 & Hm). rewrite (mbind_ok _ _ _ _ _ Hrun1).
  destruct (marked_done s0 l k t1 Hready0 Hm) as (N & Hmd). pose proof (md_static _ _ _ _ _ Hmd) as Hst1.
  assert (Hok1 : heap_ok hgp t1) by (eapply static_heap_ok; [exact Hst1|by apply Hready0]).
  assert (Hr1 : ranged t1).
  { apply ranged_rc. intros n. destruct (proper s0 n) eqn:Hp; [rewrite (md_rc _ _ _ _ _ Hmd n Hp); apply u32_range|].
    rewrite (proj2 (md_other _ _ _ _ _ Hmd n Hp)). apply ranged_rc, Hready0. }
  destruct (gc_scan_roots_run hgp t1 k Hok1 Hr1 (md_ring _ _ _ _ _ Hmd) (md_roots _ _ _ _ _ Hmd)) as (t2 & Hrun2 & Hsc).
  rewrite (mbind_ok _ _ _ _ _ Hrun2). destruct (scanned_done s0 l N k t1 t2 Hready0 Hmd Hsc) as (B & HB & HBin & Hst2 & Hoth2 & Hroots2).
  pose proof (sc_globals _ _ _ _ _ _ Hsc) as Hg2.
  assert (Hr2 : ranged t2).
  { destruct (sc_spread _ _ _ _ _ _ Hsc) as (M & F & HS & _). by destruct (sf_ranged _ _ _ _ _ (sp_painted _ _ _ _ _ _ _ _ HS)) as (_ & _ & ?). }
  destruct (gc_collect_roots_run hgp t2 k) as (t3 & W & Hrun3 & Hco).
  - eapply static_heap_ok; [exact Hst2|by apply Hready0].
  - exact Hr2.
  - by eapply gc_ready_white.
  - rewrite Hg2. apply (md_ring _ _ _ _ _ Hmd).
  - exact Hroots2.
  - rewrite Hg2. pose proof (md_globals _ _ _ _ _ Hmd) as E. apply (f_equal zval_to_free) in E. cbn in E. by rewrite E.
  - exists t3, N, W. split; [exact Hrun3|]. eapply found_heap; [exact Hsh|exact He|].
    eapply (collected_done s0 l N B k t1 t2 t3 W); try done.
    unfold node_at. by rewrite Hg2.
Qed.
End Cycles.
