(* ===== verification/ZendGcSound.v ===== *)
(** * The cycle collector finds the garbage, and only garbage

    The theorems about [find_garbage], with the graph of the references
    ([edge]) and the accounting of the counts as the specification. *)

From S2P Require Import Prelude Dll ZendObjectsApi ZendGc ZendGcGraph ZendGcWalk ZendGcSpread ZendGcCollect ZendGcRoots ZendGcBuffer ZendGcPhases ZendGcCycles.
Open Scope Z_scope.

(** ** A heap to try it on *)

(** [$a = array(&$a, $o)], where the object [$o] has itself as a property, is
    garbage (zvals 1, 3, 4 and object 1); [$b = array(&$b)] is still held by a
    variable (zval 2).  Both arrays are possible roots. *)
Module CycleExample.
Definition globals : zend_gc_globals unit :=
  mkGlobals true false (Some 2%positive) (<[2%positive := mkRoot (Some 3%positive) (Some ROOTS) 0 (Some 1%positive) None]>
    (<[3%positive := mkRoot (Some ROOTS) (Some 2%positive) 0 (Some 2%positive) None]>
    {[ ROOTS := mkRoot (Some 2%positive) (Some 3%positive) 0 None None ]})) None (Some 4%positive) (Some 9%positive) 0 0 0 0 0.
Definition heap : gstate unit :=
  OState (mkStore (Some [None; Some (mkBucketObj false true 7 None None None None 2 0)]) 0 2 2 (-1))
    (mkWorld (<[1%positive := mkGcZval (V_ARRAY 10%positive) 1 true (GC_SET_PURPLE (word (Some 2%positive)))]>
             (<[2%positive := mkGcZval (V_ARRAY 11%positive) 2 true (GC_SET_PURPLE (word (Some 3%positive)))]>
             (<[3%positive := mkGcZval (V_OBJECT 1 tt) 1 false 0]>
             {[ 4%positive := mkGcZval (V_OBJECT 1 tt) 1 false 0 ]})))
      (<[10%positive := [1%positive; 3%positive]]> (<[11%positive := [2%positive]]> {[ 12%positive := [4%positive] ]}))
      {[ 7 := Some 12%positive ]} 20%positive globals).
Definition all (_ : unit) : bool := true.
Definition roots : list addr := [3%positive; 2%positive].
Definition nodes : list node := [NZ 1%positive; NZ 2%positive; NZ 3%positive; NZ 4%positive; NO 1].
(** The variable [$b]. *)
Definition ext (n : node) : Z := if decide (n = NZ 2%positive) then 1 else 0.

Lemma heap_zvals a z : zvals (world heap) !! a = Some z -> (a = 1%positive /\ z = mkGcZval (V_ARRAY 10%positive) 1 true 11) \/
  (a = 2%positive /\ z = mkGcZval (V_ARRAY 11%positive) 2 true 15) \/
  (a = 3%positive /\ z = mkGcZval (V_OBJECT 1 tt) 1 false 0) \/ (a = 4%positive /\ z = mkGcZval (V_OBJECT 1 tt) 1 false 0).
Proof.
  intros H. apply elem_of_map_to_list in H. vm_compute in H. repeat (apply elem_of_cons in H as [[= -> ->]|H]; [auto|]). by apply elem_of_nil in H.
Qed.
Lemma heap_bucket h b : bucket h heap = Ok b -> h = 1 /\ b = mkBucketObj false true 7 None None None None 2 0.
Proof.
  intros H. destruct (bucket_cell heap h b H) as (Hh & cs & [= <-] & Hc). destruct (Z.to_nat h) as [|[|i]] eqn:E; [done| |done].
  injection Hc as <-. split; [lia|done].
Qed.
Lemma heap_info n w r : info heap n = Some (w, r) -> (n, w, r) ∈ [(NZ 1%positive, 11, 1); (NZ 2%positive, 15, 2); (NZ 3%positive, 0, 1); (NZ 4%positive, 0, 1); (NO 1, 0, 2)].
Proof.
  destruct n as [a|h]; cbn [info].
  - rewrite fmap_Some. intros (z & [[-> ->]|[[-> ->]|[[-> ->]|[-> ->]]]]%heap_zvals & [= -> ->]); set_solver.
  - destruct (bucket h heap) as [b|] eqn:Hb; [|done]. apply heap_bucket in Hb as [-> ->]. intros [= <- <-]. set_solver.
Qed.
Lemma heap_object_ok : obj_ok all heap 1 tt.
Proof. split; [done|]. vm_compute. repeat constructor. by eexists. Qed.
Lemma heap_well_formed : heap_ok all heap.
Proof.
  split.
  - intros a ht. rewrite fmap_Some. intros (z & [[-> ->]|[[-> ->]|[[-> ->]|[-> ->]]]]%heap_zvals & [= ->]) _; eexists; (split; [reflexivity|]);
      repeat constructor; by eexists.
  - intros a h hs. rewrite fmap_Some. intros (z & [[-> ->]|[[-> ->]|[[-> ->]|[-> ->]]]]%heap_zvals & [= -> ->]) _; split; [done|apply heap_object_ok|done|apply heap_object_ok].
Qed.
Lemma heap_ready : gc_ready all heap roots.
Proof.
  split.
  - split; [apply (bool_decide_unpack _); by vm_compute|]. cbn. repeat (eexists; split_and!; [reflexivity..|]). done.
  - split.
    + intros e [->|[->|[]%elem_of_nil]%elem_of_cons]%elem_of_cons.
      * exists (NZ 2%positive), 15. split_and!; [reflexivity|apply not_elem_of_nil|reflexivity|reflexivity].
      * exists (NZ 1%positive), 11. split_and!; [reflexivity|apply not_elem_of_nil|reflexivity|reflexivity].
    + intros e r h [->|[->|[]%elem_of_nil]%elem_of_cons]%elem_of_cons [= <-] Hr; by vm_compute in Hr.
    + intros n w _ (r & Hi%heap_info)%word_info_inv Hw. repeat (apply elem_of_cons in Hi as [[= -> -> ->]|Hi]; [try done|]); [..|by apply elem_of_nil in Hi].
      * exists 2%positive. split_and!; [set_solver|reflexivity..].
      * exists 3%positive. split_and!; [set_solver|reflexivity..].
  - apply heap_well_formed.
  - intros n w r Hi%heap_info. repeat (apply elem_of_cons in Hi as [[= -> -> ->]|Hi]; [lia|]). by apply elem_of_nil in Hi.
  - intros n c (w & r & Hi%heap_info & <-)%color_some. repeat (apply elem_of_cons in Hi as [[= -> -> ->]|Hi]; [vm_compute; auto|]). by apply elem_of_nil in Hi.
Qed.
End CycleExample.

Section Sound.
Context {CB : Type} (hgp : CB -> bool).
Implicit Types (s : gstate CB) (n m x y f : node) (a e : addr) (l fl : list addr) (N W V : list node) (ext : node -> Z).
Notation entries_of s := (entries (gc_globals (world s))).

(** ** The accounting of the counts *)

(** [V] are all the nodes; the count of each is that of the references to it,
    with [ext] for those from elsewhere (variables, the stack, ...). *)
Record accounted s V ext : Prop := {
  ac_nodup : NoDup V;
  ac_all : forall n, n ∈ V <-> proper s n = true;
  ac_ext : forall n, 0 <= ext n;
  ac_rc : forall n, n ∈ V -> rc s n = ext n + count n (V ≫= kids s)
}.

Lemma count_bind_pos s V x n : x ∈ V -> n ∈ kids s x -> 0 < count n (V ≫= kids s).
Proof. intros Hx Hn. apply count_pos, list_elem_of_bind. by exists x. Qed.
(** What is left of the count: the references from elsewhere and from the rest. *)
Lemma residual_rest s V ext N n : ranged s -> accounted s V ext -> NoDup N -> (forall x, x ∈ N -> x ∈ V) -> n ∈ V ->
  residual s N n = ext n + count n (filter (fun x => x ∉ N) V ≫= kids s).
Proof.
  intros Hr [HV Hall He Hrc] HN Hsub Hn. set (R := filter (fun x => x ∉ N) V).
  assert (Hperm : V ≡ₚ N ++ R).
  { apply NoDup_Permutation; [done| |].
    - apply NoDup_app. split_and!; [done| |by apply NoDup_filter]. intros x Hx [Hx' _]%list_elem_of_filter. done.
    - intros x. rewrite elem_of_app. unfold R. rewrite list_elem_of_filter. destruct (decide (x ∈ N)); naive_solver. }
  assert (Hc : count n (V ≫= kids s) = count n (N ≫= kids s) + count n (R ≫= kids s)).
  { rewrite (count_perm n (V ≫= kids s) ((N ++ R) ≫= kids s)) by (by rewrite Hperm). by rewrite bind_app, count_app. }
  pose proof (Hrc n Hn) as E. rewrite Hc in E. unfold residual. rewrite E.
  pose proof (count_nonneg n (N ≫= kids s)). pose proof (count_nonneg n (R ≫= kids s)). pose proof (He n).
  pose proof (proj1 (ranged_rc s) Hr n). rewrite u32_id by lia. lia.
Qed.
(** A candidate has references left if something else refers to it. *)
Lemma residual_ext s V ext N n : ranged s -> accounted s V ext -> NoDup N -> (forall x, x ∈ N -> x ∈ V) -> n ∈ V ->
  residual s N n <> 0 <-> 0 < ext n \/ exists x, x ∈ V /\ x ∉ N /\ n ∈ kids s x.
Proof.
  intros Hr Hac HN Hsub Hn. rewrite (residual_rest s V ext N n) by done. pose proof (ac_ext _ _ _ Hac n).
  set (R := filter (fun x => x ∉ N) V). pose proof (count_nonneg n (R ≫= kids s)). split.
  - intros Hne. destruct (decide (0 < ext n)) as [?|]; [by left|]. right.
    assert (Hin : n ∈ R ≫= kids s) by (apply count_pos; lia). apply list_elem_of_bind in Hin as (x & Hk & Hx). unfold R in Hx.
    apply list_elem_of_filter in Hx as [? ?]. by exists x.
  - intros [?|(x & Hx & HxN & Hk)]; [lia|]. assert (Hp : 0 < count n (R ≫= kids s)); [|lia].
    apply (count_bind_pos s R x n); [|done]. by apply list_elem_of_filter.
Qed.
Lemma candidate_proper s l n : heap_ok hgp s -> candidate s l n -> proper s n = true.
Proof.
  intros Hok (f & (e & _ & _ & Hp & _) & Hr). induction Hr as [|x y z Hxy _ IH]; [done|]. apply IH. eapply kids_proper; [exact Hok|exact Hxy].
Qed.
(** A held node leads to [n]; where the path enters the candidates there is a
    candidate with references left. *)
Lemma path_enters s V ext l N x n : heap_ok hgp s -> ranged s -> accounted s V ext -> NoDup N -> (forall m, m ∈ N <-> candidate s l m) ->
  rtc (edge s) x n -> n ∈ N -> proper s x = true -> 0 < ext x \/ x ∉ N -> held s N n.
Proof.
  intros Hok Hr Hac HN Hcand Hp Hn. assert (Hsub : forall m, m ∈ N -> m ∈ V).
  { intros m Hm. apply (ac_all _ _ _ Hac). eapply candidate_proper; [exact Hok|by apply Hcand]. }
  induction Hp as [x|x y z Hxy Hyz IH]; intros Hpx Hx.
  - destruct Hx as [Hx|Hx]; [|done]. exists x. split_and!; [done| |constructor]. apply (residual_ext s V ext N x); try done; auto.
  - assert (Hpy : proper s y = true) by (by eapply kids_proper). destruct (decide (x ∈ N)) as [HxN|HxN].
    + destruct Hx as [Hx|Hx]; [|done]. exists x. split_and!; [done| |by eapply rtc_l]. apply (residual_ext s V ext N x); try done; auto.
    + destruct (decide (y ∈ N)) as [HyN|HyN]; [|by apply IH; auto]. exists y. split_and!; [done| |done].
      apply (residual_ext s V ext N y); try done; [auto|]. right. exists x. split_and!; [by apply (ac_all _ _ _ Hac)|done|exact Hxy].
Qed.

(** ** The theorems *)

(** C5: between two runs of the collector, with the roots [l] in the buffer,
    [find_garbage] returns, and the list of the zvals to free that it leaves
    has, once each, exactly the zvals that a purple root leads to and that no
    candidate with a reference from outside the candidates leads to. *)
Theorem collector_lists_garbage s l : gc_ready hgp s l ->
  exists s' N fl, find_garbage hgp s = Ok (tt, s') /\ NoDup N /\ (forall n, n ∈ N <-> candidate s l n) /\
    listed s' fl /\ NoDup fl /\ (forall a, a ∈ fl <-> NZ a ∈ N /\ ~ held s N (NZ a)).
Proof.
  intros Hready. destruct (find_garbage_found hgp s l Hready) as (s' & N & W & Hrun & H). destruct (fd_listed _ _ _ _ _ H) as (fl & Hfl & Hl).
  exists s', N, fl. split_and!; [done|by destruct (fd_nodup _ _ _ _ _ H)|by apply H|done| |].
  - rewrite Hfl. apply zvals_in_nodup. by destruct (fd_nodup _ _ _ _ _ H).
  - intros a. by rewrite Hfl, zvals_in_elem, (fd_garbage _ _ _ _ _ H).
Qed.

(** C6: if the counts are right, nothing that can be reached from a node
    with a reference from elsewhere (a variable, a temporary) is put on the
    list of the zvals to free. *)
Theorem reachable_survives s l V ext : gc_ready hgp s l -> accounted s V ext ->
  exists s' fl, find_garbage hgp s = Ok (tt, s') /\ listed s' fl /\
    forall x a, proper s x = true -> 0 < ext x -> rtc (edge s) x (NZ a) -> a ∉ fl.
Proof.
  intros Hready Hac. destruct (find_garbage_found hgp s l Hready) as (s' & N & W & Hrun & H). destruct (fd_listed _ _ _ _ _ H) as (fl & Hfl & Hl).
  exists s', fl. split_and!; [done..|]. intros x a Hx Hext Hp Hin. rewrite Hfl, zvals_in_elem, (fd_garbage _ _ _ _ _ H) in Hin. destruct Hin as [Hin Hn].
  apply Hn. destruct Hready. eapply path_enters; try done; [by destruct (fd_nodup _ _ _ _ _ H)|by apply H|by left].
Qed.

(** C8: if the counts are right, a zval that a purple root leads to, and
    that neither a node with a reference from elsewhere nor one the roots do
    not lead to leads to, is put on the list: the cycle is found. *)
Theorem unreachable_is_collected s l V ext : gc_ready hgp s l -> accounted s V ext ->
  exists s' fl, find_garbage hgp s = Ok (tt, s') /\ listed s' fl /\
    forall a, candidate s l (NZ a) -> (forall x, proper s x = true -> rtc (edge s) x (NZ a) -> ext x = 0 /\ candidate s l x) -> a ∈ fl.
Proof.
  intros Hready Hac. destruct (find_garbage_found hgp s l Hready) as (s' & N & W & Hrun & H). destruct (fd_listed _ _ _ _ _ H) as (fl & Hfl & Hl).
  exists s', fl. split_and!; [done..|]. intros a Ha Hnone. rewrite Hfl, zvals_in_elem, (fd_garbage _ _ _ _ _ H). split; [by apply H|].
  intros (f & Hf & Hres & Hp). pose proof (fd_candidate _ _ _ _ _ H) as Hcand.
  assert (Hsub : forall m, m ∈ N -> m ∈ V).
  { intros m Hm. apply (ac_all _ _ _ Hac). eapply candidate_proper; [by apply Hready|by apply Hcand]. }
  destruct (Hnone f) as [Hext _]; [by apply (ac_all _ _ _ Hac); auto|done|].
  apply (residual_ext s V ext N f) in Hres; [|by apply Hready|done|by destruct (fd_nodup _ _ _ _ _ H)|done|by auto].
  destruct Hres as [?|(x & Hx & HxN & Hk)]; [lia|]. apply HxN, Hcand. apply Hnone; [by apply (ac_all _ _ _ Hac)|]. by eapply rtc_l.
Qed.

(** C9: afterwards the buffer is empty, and so are the addresses in the
    words of all that survives; the counts of the zvals are those from before,
    one more for those listed, and the count of an object has lost exactly the
    references from the garbage; the candidates that survive are black. *)
Theorem collector_restores_counts s l : gc_ready hgp s l ->
  exists s' N W, find_garbage hgp s = Ok (tt, s') /\ (forall n, n ∈ N <-> candidate s l n) /\ (forall n, n ∈ W <-> n ∈ N /\ ~ held s N n) /\
    NoDup W /\ ring (entries_of s') [] /\ (forall n w, n ∉ W -> word_of s' n = Some w -> GC_ADDRESS w = 0) /\
    (forall a, counted s a = true -> rc s' (NZ a) = if decide (NZ a ∈ W) then u32 (rc s (NZ a) + 1) else rc s (NZ a)) /\
    (forall h, proper s (NO h) = true -> rc s' (NO h) = u32 (rc s (NO h) - count (NO h) (W ≫= kids s))) /\
    (forall n, n ∈ N -> n ∉ W -> color s' n = Some GC_BLACK).
Proof.
  intros Hready. destruct (find_garbage_found hgp s l Hready) as (s' & N & W & Hrun & H). exists s', N, W.
  pose proof (fd_candidate _ _ _ _ _ H) as Hcand.
  split_and!; [done|done|by apply H|by destruct (fd_nodup _ _ _ _ _ H)|by apply H|by apply H| | |].
  - intros a Ha. rewrite (fd_rc _ _ _ _ _ H (NZ a) Ha). cbn [is_zval]. unfold one_more. case_decide; [done|].
    rewrite Z.add_0_r. apply u32_id, ranged_rc, Hready.
  - intros h Hh. by rewrite (fd_rc _ _ _ _ _ H (NO h) Hh).
  - intros n Hn HnW. rewrite (fd_color _ _ _ _ _ H) by (eapply candidate_proper; [by apply Hready|by apply Hcand]).
    by rewrite decide_False, decide_True.
Qed.
End Sound.

(** ** On the example *)

Section Witnesses.
Import CycleExample.

Lemma heap_accounted : accounted heap nodes ext.
Proof.
  split.
  - apply (bool_decide_unpack _). by vm_compute.
  - intros n. split.
    + intros Hn. repeat (apply elem_of_cons in Hn as [->|Hn]; [reflexivity|]). by apply elem_of_nil in Hn.
    + intros (w & r & Hi%heap_info)%proper_info. unfold nodes. set_solver.
  - intros n. unfold ext. case_decide; lia.
  - intros n Hn. repeat (apply elem_of_cons in Hn as [->|Hn]; [by vm_compute|]). by apply elem_of_nil in Hn.
Qed.
(** The nodes that lead to zval 3. *)
Lemma leads_to_3 x : proper heap x = true -> rtc (edge heap) x (NZ 3%positive) -> x = NZ 1%positive \/ x = NZ 3%positive.
Proof.
  intros Hx H. remember (NZ 3%positive) as y eqn:Hy. induction H as [x|x z y Hxz _ IH]; [by right|]. specialize (IH (kids_proper all heap x z heap_well_formed Hxz) Hy).
  apply (ac_all _ _ _ heap_accounted) in Hx. unfold edge in Hxz. unfold nodes in Hx.
  repeat (apply elem_of_cons in Hx as [->|Hx]; [vm_compute in Hxz; set_solver|]). by apply elem_of_nil in Hx.
Qed.
Lemma leads_from_1 : candidate heap roots (NZ 3%positive) /\ candidate heap roots (NZ 1%positive).
Proof.
  assert (Hp : purple_root heap roots (NZ 1%positive)) by (exists 2%positive; split_and!; [set_solver|reflexivity..]).
  split; exists (NZ 1%positive); (split; [exact Hp|]); [|constructor]. apply rtc_once. unfold edge. vm_compute. set_solver.
Qed.

Lemma collector_lists_garbage_witness : exists s' N fl, find_garbage all heap = Ok (tt, s') /\ NoDup N /\ (forall n, n ∈ N <-> candidate heap roots n) /\
  listed s' fl /\ NoDup fl /\ (forall a, a ∈ fl <-> NZ a ∈ N /\ ~ held heap N (NZ a)).
Proof. apply (collector_lists_garbage all heap roots). apply heap_ready. Defined.
Lemma reachable_survives_witness : exists s' fl, find_garbage all heap = Ok (tt, s') /\ listed s' fl /\ 2%positive ∉ fl.
Proof.
  destruct (reachable_survives all heap roots nodes ext heap_ready heap_accounted) as (s' & fl & Hrun & Hl & H).
  exists s', fl. split; [exact Hrun|]. split; [exact Hl|]. apply (H (NZ 2%positive)); [reflexivity|reflexivity|apply rtc_refl].
Defined.
Lemma unreachable_is_collected_witness : exists s' fl, find_garbage all heap = Ok (tt, s') /\ listed s' fl /\ 3%positive ∈ fl.
Proof.
  destruct (unreachable_is_collected all heap roots nodes ext heap_ready heap_accounted) as (s' & fl & Hrun & Hl & H).
  exists s', fl. split; [exact Hrun|]. split; [exact Hl|]. apply H; [apply leads_from_1|].
  intros x Hx Hp. destruct (leads_to_3 x Hx Hp) as [E|E]; subst x; (split; [reflexivity|apply leads_from_1]).
Defined.
Lemma collector_restores_counts_witness : exists s' N W, find_garbage all heap = Ok (tt, s') /\ (forall n, n ∈ N <-> candidate heap roots n) /\ (forall n, n ∈ W <-> n ∈ N /\ ~ held heap N n) /\
  NoDup W /\ ring (entries (gc_globals (world s'))) [] /\ (forall n w, n ∉ W -> word_of s' n = Some w -> GC_ADDRESS w = 0) /\
  (forall a, counted heap a = true -> rc s' (NZ a) = if decide (NZ a ∈ W) then u32 (rc heap (NZ a) + 1) else rc heap (NZ a)) /\
  (forall h, proper heap (NO h) = true -> rc s' (NO h) = u32 (rc heap (NO h) - count (NO h) (W ≫= kids heap))) /\
  (forall n, n ∈ N -> n ∉ W -> color s' n = Some GC_BLACK).
Proof. apply (collector_restores_counts all heap roots). apply heap_ready. Defined.
End Witnesses.
