(* ===== verification/ZendGcPossible.v ===== *)
(** * Possible roots enter and leave the buffer

    The state of the buffer that its operations keep: the ring, the chain of
    the entries given back, and the entries not used yet. *)

From S2P Require Import Prelude Dll ZendObjectsApi ZendGc ZendGcGraph ZendGcWalk ZendGcSpread ZendGcMark ZendGcScan ZendGcCollect ZendGcRoots ZendGcBuffer ZendGcPhases ZendGcCycles ZendGcSound.
Open Scope Z_scope.

Section Possible.
Context {CB : Type} (hgp : CB -> bool).
Implicit Types (s : gstate CB) (n m : node) (a e : addr) (l k rest ul : list addr) (es : gmap addr (gc_root_buffer CB)).
Notation G := (M (gstate CB)).
Notation entries_of s := (entries (gc_globals (world s))).

(** The entries given back are linked through [prev]. *)
Fixpoint unused_chain es (p : ptr) ul : Prop :=
  match ul with
  | [] => p = None
  | e :: ul' => p = Some e /\ exists r, es !! e = Some r /\ unused_chain es (prev r) ul'
  end.
Record buffer_ok s l ul : Prop := {
  bo_ring : ring (entries_of s) l;
  bo_unused : unused_chain (entries_of s) (unused (gc_globals (world s))) ul;
  bo_nodup : NoDup (ROOTS :: l ++ ul);
  bo_range : exists b f z, buf (gc_globals (world s)) = Some b /\ first_unused (gc_globals (world s)) = Some f /\
    last_unused (gc_globals (world s)) = Some z /\ (ROOTS < b)%positive /\ (b <= f)%positive /\ (f <= z)%positive /\
    (forall e, e ∈ l ++ ul -> (b <= e)%positive /\ (e < f)%positive)
}.
Definition room s : bool :=
  match unused (gc_globals (world s)) with
  | Some _ => true
  | None => negb (bool_decide (first_unused (gc_globals (world s)) = last_unused (gc_globals (world s))))
  end.

Lemma unused_chain_ext es es' p ul : (forall e, e ∈ ul -> prev <$> es' !! e = prev <$> es !! e) -> unused_chain es p ul -> unused_chain es' p ul.
Proof.
  revert p. induction ul as [|e ul IH]; intros p He; [done|]. intros (-> & r & Hr & H). split; [done|].
  pose proof (He e ltac:(by left)) as Heq. rewrite Hr in Heq. destruct (es' !! e) as [r'|]; [|done]. cbn in Heq. injection Heq as Heq.
  exists r'. split; [done|]. rewrite Heq. apply IH; [|done]. intros x Hx. apply He. by right.
Qed.

(** ** Linking a new entry *)

Notation rseg := (seg root_links).
(** The new entry [e], linked in front. *)
Definition linked e (r : gc_root_buffer CB) (nx : ptr) es := alter (set_next (Some e)) ROOTS (opt_alter nx (set_prev (Some e)) (<[e := r]> es)).
Lemma ring_link es l e hnd zv hs : ring es l -> e ∉ ROOTS :: l ->
  ring (linked e (mkRoot (Some ROOTS) (head_ptr l (Some ROOTS)) hnd zv hs) (head_ptr l (Some ROOTS)) es) (e :: l).
Proof.
  intros [Hnd H] He. set (r := mkRoot _ _ _ _ _). destruct H as (r0 & Hr0 & Hp0 & Hn0 & Hs). apply not_elem_of_cons in He as [HeR He].
  apply NoDup_cons in Hnd as [HR Hl]. split.
  - constructor; [|by constructor]. rewrite not_elem_of_cons. auto.
  - unfold linked. destruct l as [|b l].
    + cbn [head_ptr opt_alter] in *. eexists. split; [rewrite lookup_alter_eq, lookup_alter_eq, lookup_insert_ne, Hr0 by done; reflexivity|].
      split_and!; [done..|]. exists r. rewrite !lookup_alter_ne by done. by rewrite lookup_insert_eq.
    + apply not_elem_of_cons in HR as [HRb HR]. apply not_elem_of_cons in He as [Heb He]. cbn [head_ptr opt_alter]. rewrite !last_ptr_cons in *.
      eexists. split; [rewrite lookup_alter_eq, lookup_alter_ne, lookup_insert_ne, Hr0 by done; reflexivity|]. split_and!; [done..|].
      exists r. rewrite lookup_alter_ne, lookup_alter_ne, lookup_insert_eq by done. split_and!; [done..|].
      apply (seg_alter_ne root_links); [by apply not_elem_of_cons|].
      apply (seg_set_prev root_links (<[e := r]> es) (Some ROOTS) (Some e) (b :: l) (Some ROOTS)); [done|]. apply (seg_insert_ne root_links); [by apply not_elem_of_cons|exact Hs].
Qed.
Lemma linked_data e r nx es a : a <> e -> root_data <$> linked e r nx es !! a = root_data <$> es !! a.
Proof.
  intros Ha. unfold linked.
  assert (Hf : forall q (f : gc_root_buffer CB -> gc_root_buffer CB) es0, (forall r, root_data (f r) = root_data r) ->
    root_data <$> opt_alter q f es0 !! a = root_data <$> es0 !! a).
  { intros [x|] f es0 H; [|done]. cbn. rewrite lookup_alter. case_decide; [|done]. subst. destruct (es0 !! a); [|done]. cbn. by rewrite H. }
  change (alter (set_next (Some e)) ROOTS) with (opt_alter (Some ROOTS) (set_next (CB := CB) (Some e))). rewrite !Hf by done.
  by rewrite lookup_insert_ne.
Qed.
Lemma linked_self e r nx es : e <> ROOTS -> nx <> Some e -> linked e r nx es !! e = Some r.
Proof.
  intros He Hn. unfold linked. rewrite lookup_alter_ne by done. destruct nx as [x|]; cbn; [|apply lookup_insert_eq].
  rewrite lookup_alter_ne by congruence. apply lookup_insert_eq.
Qed.

(** ** The operations *)

(** What the buffer's variables keep while an entry is taken and linked. *)
Definition taken s e l ul : Prop := ring (entries_of s) l /\ unused_chain (entries_of s) (unused (gc_globals (world s))) ul /\
  NoDup (ROOTS :: (e :: l) ++ ul) /\
  exists b f z, buf (gc_globals (world s)) = Some b /\ first_unused (gc_globals (world s)) = Some f /\
    last_unused (gc_globals (world s)) = Some z /\ (ROOTS < b)%positive /\ (b <= f)%positive /\ (f <= z)%positive /\
    (forall x, x ∈ (e :: l) ++ ul -> (b <= x)%positive /\ (x < f)%positive).
Lemma take_unused_run s l ul : buffer_ok s l ul -> room s = true -> exists e s' ul', take_unused s = Ok (Some e, s') /\
  same_heap s s' /\ entries_of s' = entries_of s /\ taken s' e l ul'.
Proof.
  intros [Hring Hch Hnd (b & f & z & Hb & Hf & Hz & HRb & Hbf & Hfz & Hin)] Hroom. unfold take_unused, room, GC_G in *. rewrite mbind_assoc, mbind_get, mbind_ret.
  destruct (unused (gc_globals (world s))) as [e|] eqn:Hu.
  - destruct ul as [|e' ul]; [done|]. destruct Hch as ([= <-] & r & Hr & Hch). rewrite (mbind_reading _ _ _ r) by (unfold root_at; by apply deref_ok).
    destruct (upd_globals_heap (set_unused (prev r)) s) as (s' & Hs & Hsh & Hg). rewrite (mbind_ok _ _ _ _ _ Hs). exists e, s', ul.
    assert (Hp : l ++ e :: ul ≡ₚ (e :: l) ++ ul) by solve_Permutation.
    split; [done|]. split; [exact Hsh|]. split; [by rewrite Hg|]. unfold taken. rewrite Hg. cbn. split; [done|]. split; [done|]. split; [by rewrite <- Hp|].
    exists b, f, z. split_and!; try done; intros x; rewrite <- Hp; by apply Hin.
  - destruct ul as [|e' ul]; [|by destruct Hch]. rewrite mbind_assoc, mbind_get, mbind_ret, mbind_assoc, mbind_get, mbind_ret.
    apply negb_true_iff, bool_decide_eq_false in Hroom. rewrite decide_True by done. rewrite Hf.
    destruct (upd_globals_heap (set_first_unused (Pos.succ <$> Some f)) s) as (s' & Hs & Hsh & Hg). rewrite (mbind_ok _ _ _ _ _ Hs). exists f, s', [].
    assert (Hne : f <> z) by congruence. rewrite app_nil_r in *. split; [done|]. split; [exact Hsh|]. split; [by rewrite Hg|]. unfold taken. rewrite Hg. cbn. split; [done|]. split; [done|]. split.
    + rewrite app_nil_r. apply NoDup_cons in Hnd as [HR Hl]. assert (Hfl : f ∉ l) by (intros Hfl; apply Hin in Hfl; lia).
      constructor; [|by constructor]. apply not_elem_of_cons. split; [lia|done].
    + exists b, (Pos.succ f), z. rewrite app_nil_r. split_and!; try done; [lia|lia|..]; intros x [->|Hx]%elem_of_cons; try lia; apply Hin in Hx; lia.
Qed.
Lemma link_root_run s l ul e hnd zv hs : taken s e l ul -> exists s', link_root (Some e) hnd zv hs s = Ok (tt, s') /\ same_heap s s' /\
  buffer_ok s' (e :: l) ul /\ free_list (gc_globals (world s')) = free_list (gc_globals (world s)) /\
  (forall a, a <> e -> root_data <$> entries_of s' !! a = root_data <$> entries_of s !! a) /\
  root_data <$> entries_of s' !! e = Some (hnd, zv, hs).
Proof.
  intros (Hring & Hch & Hnd & Hrange). assert (He : e ∉ ROOTS :: l).
  { change (ROOTS :: (e :: l) ++ ul) with (ROOTS :: e :: l ++ ul) in Hnd. apply NoDup_cons in Hnd as [HR [He _]%NoDup_cons]. set_solver. }
  destruct (ring_roots _ _ Hring) as (r & Hr & Hn & Hp). set (m := linked e (mkRoot (Some ROOTS) (head_ptr l (Some ROOTS)) hnd zv hs) (head_ptr l (Some ROOTS)) (entries_of s)).
  assert (HneR : e <> ROOTS) by set_solver.
  assert (Hnx : exists x, next r = Some x /\ x ∈ ROOTS :: l).
  { rewrite Hn. destruct l as [|c l]; [exists ROOTS; split; [done|left]|]. exists c. split; [done|]. right. by left. }
  destruct Hnx as (x & Hx & Hxin). assert (Hxe : x <> e) by (by intros ->). destruct (ring_dom _ _ x Hring Hxin) as [rx Hrx].
  exists (OState (store s) (set_globals (set_entries m (gc_globals (world s))) (world s))). split; [|split; [|split; [|split_and!]]].
  - unfold link_root. rewrite (mbind_reading _ _ _ r) by (unfold root_at; by apply deref_ok).
    destruct (upd_globals_heap (fun g => set_entries (<[e := mkRoot (Some ROOTS) (next r) hnd zv hs]> (entries g)) g) s) as (s1 & H1 & _ & Hg1).
    rewrite (mbind_ok _ _ _ _ _ H1). injection H1 as <-. rewrite Hx. erewrite mbind_ok; [|apply assign_entry; cbn; rewrite lookup_insert_ne by done; by eexists].
    rewrite assign_entry by (cbn; rewrite lookup_alter_is_Some, lookup_insert_ne, Hr by done; by eexists). cbn. unfold m, linked. rewrite <- Hn, Hx. done.
  - split; [done|]. by destruct (world s).
  - split; [by apply ring_link| |done|exact Hrange]. cbn. eapply unused_chain_ext; [|exact Hch]. intros y Hy. unfold m, linked. rewrite <- Hn, Hx. cbn.
    assert (Hyn : y <> ROOTS /\ y <> e /\ y ∉ l).
    { change (ROOTS :: (e :: l) ++ ul) with ((ROOTS :: e :: l) ++ ul) in Hnd. apply NoDup_app in Hnd as (_ & Hd & _). split_and!; intros Hz; apply (Hd y); try done; set_solver. }
    destruct Hyn as (HyR & Hye & Hyl). assert (Hyx : y <> x) by (intros ->; apply elem_of_cons in Hxin as [?|?]; done). by rewrite !lookup_alter_ne, lookup_insert_ne.
  - done.
  - intros a Ha. cbn. by apply linked_data.
  - change (root_data <$> m !! e = Some (hnd, zv, hs)). unfold m. rewrite linked_self; [done|done|]. rewrite <- Hn, Hx. congruence.
Qed.

(** ** The state between two runs is kept *)

(** Every purple node has an entry. *)
Definition purple_buffered s : Prop := forall n w, word_of s n = Some w -> GC_GET_COLOR w = GC_PURPLE -> GC_ADDRESS w <> 0.
Definition resting (c : Z) : Prop := c = GC_BLACK \/ c = GC_PURPLE.

Lemma touched_ready s s' l n w w' c : gc_ready hgp s l -> info s n = Some (w, c) -> touched n (w', c) s s' ->
  GC_ADDRESS w' = GC_ADDRESS w -> resting (GC_GET_COLOR w') -> gc_ready hgp s' l.
Proof.
  intros [H1 H2 H3 H4 H5] Hi [Hst Hg Ht Ho] Ha Hc. split.
  - by rewrite Hg.
  - eapply (roots_ok_step hgp [] [] s s'); try done; [by rewrite Hg; apply same_data_refl|]. intros m _. unfold word_of.
    destruct (decide (m = n)) as [->|Hne]; [rewrite Ht, Hi; cbn; by rewrite Ha|by rewrite Ho].
  - by eapply static_heap_ok.
  - intros m wm rm Hm. destruct (decide (m = n)) as [->|Hne]; [rewrite Ht in Hm; injection Hm as _ <-; by eapply H4|]. rewrite Ho in Hm by done. by eapply H4.
  - intros m cm (wm & rm & Hm & <-)%color_some. destruct (decide (m = n)) as [->|Hne]; [rewrite Ht in Hm; by injection Hm as <- _|].
    rewrite Ho in Hm by done. eapply (H5 m). by eapply color_info.
Qed.
Lemma linked_ready s s3 s4 l e n w w' c hnd zv hs : gc_ready hgp s l -> info s n = Some (w, c) -> GC_ADDRESS w = 0 -> same_heap s s3 -> e ∉ l ->
  ring (entries_of s3) (e :: l) ->
  (forall a, a <> e -> root_data <$> entries_of s3 !! a = root_data <$> entries_of s !! a) ->
  root_data <$> entries_of s3 !! e = Some (hnd, zv, hs) -> root_node (mkRoot None None hnd zv hs) = Some n ->
  (forall h, n = NO h -> exists hs0, hs = Some hs0 /\ obj_ok hgp s h hs0) ->
  touched n (w', c) s3 s4 -> GC_ADDRESS w' = word (Some e) -> resting (GC_GET_COLOR w') -> gc_ready hgp s4 (e :: l).
Proof.
  intros [H1 H2 H3 H4 H5] Hi Ha Hsh He Hring Hothers Hself Hnode Hobj [Hst Hg Ht Ho] Hw' Hc.
  assert (Hi3 : forall m, info s3 m = info s m) by (intros m; by apply same_heap_info).
  assert (Hst3 : static s s3) by by apply same_heap_static. assert (Hst4 : static s s4) by by transitivity s3.
  assert (Hnat : forall a, a <> e -> node_at s4 a = node_at s a).
  { intros a Hae. unfold node_at. rewrite Hg. specialize (Hothers a Hae). destruct (entries_of s3 !! a) as [r3|], (entries_of s !! a) as [r|]; try done.
    cbn in Hothers |- *. injection Hothers as Hd. by apply root_node_data; unfold root_data; congruence. }
  assert (Hne : node_at s4 e = Some n).
  { unfold node_at. rewrite Hg. destruct (entries_of s3 !! e) as [r3|]; [|done]. cbn in Hself |- *. injection Hself as Hd1 Hd2 Hd3. rewrite <- Hnode.
    by apply root_node_data; unfold root_data; cbn; congruence. }
  assert (Hword : forall m, m <> n -> word_of s4 m = word_of s m) by (intros m Hm; unfold word_of; by rewrite Ho, Hi3).
  assert (Hwn : word_of s4 n = Some w') by by eapply word_info. split.
  - by rewrite Hg.
  - split.
    + intros x [->|Hx]%elem_of_cons.
      * exists n, w'. split_and!; [done|apply not_elem_of_nil|done..].
      * destruct (ro_root _ _ _ _ H2 x Hx) as (m & wm & Hm & _ & Hwm & Hax). assert (Hmn : m <> n).
        { intros ->. rewrite (word_info _ _ _ _ Hi) in Hwm. injection Hwm as <-. by rewrite Hax in Ha. }
        exists m, wm. rewrite Hnat by (by intros ->). rewrite Hword by done. split_and!; [done|apply not_elem_of_nil|done..].
    + intros x r h Hx Hr Hh. rewrite Hg in Hr. destruct (decide (x = e)) as [->|Hxe].
      * rewrite Hr in Hself. cbn in Hself. injection Hself as Hd1 Hd2 Hd3. assert (Hrn : root_node r = Some n).
        { rewrite <- Hnode. by apply root_node_data; unfold root_data; cbn; congruence. }
        rewrite Hrn in Hh. injection Hh as ->. destruct (Hobj h eq_refl) as (hs0 & -> & Ho0). exists hs0. split; [done|]. by eapply static_obj_ok.
      * apply elem_of_cons in Hx as [?|Hx]; [done|]. specialize (Hothers x Hxe). rewrite Hr in Hothers. destruct (entries_of s !! x) as [r0|] eqn:Hr0; [|done].
        cbn in Hothers. destruct (root_node_data r0 r) as [En Eh]; [congruence|]. rewrite En in Hh. rewrite Eh.
        destruct (ro_handlers _ _ _ _ H2 x r0 h Hx Hr0 Hh) as (hs0 & Hhs0 & Ho0). exists hs0. split; [done|]. by eapply static_obj_ok.
    + intros m wm _ Hm Ham. destruct (decide (m = n)) as [->|Hmn].
      * rewrite Hwn in Hm. injection Hm as <-. exists e. split_and!; [by left|done..].
      * rewrite Hword in Hm by done. destruct (ro_word _ _ _ _ H2 m wm (not_elem_of_nil _) Hm Ham) as (x & Hx & Hnx & Hax). exists x.
        rewrite Hnat by (by intros ->). split_and!; [by right|done..].
  - by eapply static_heap_ok.
  - intros m wm rm Hm. destruct (decide (m = n)) as [->|Hmn]; [rewrite Ht in Hm; injection Hm as _ <-; by eapply H4|]. rewrite Ho, Hi3 in Hm by done. by eapply H4.
  - intros m cm (wm & rm & Hm & <-)%color_some. destruct (decide (m = n)) as [->|Hmn]; [rewrite Ht in Hm; by injection Hm as <- _|].
    rewrite Ho, Hi3 in Hm by done. eapply (H5 m). by eapply color_info.
Qed.
Lemma touched_purple s s' n w c : purple_buffered s -> touched n (w, c) s s' -> (GC_GET_COLOR w = GC_PURPLE -> GC_ADDRESS w <> 0) -> purple_buffered s'.
Proof.
  intros Hp [Hst Hg Ht Ho] Hw m wm Hm Hc. destruct (decide (m = n)) as [->|Hne].
  - rewrite (word_info _ _ _ _ Ht) in Hm. injection Hm as <-. auto.
  - unfold word_of in Hm. rewrite Ho in Hm by done. by eapply Hp.
Qed.

Lemma globals_buffer_ok s s' l ul : gc_globals (world s') = gc_globals (world s) -> buffer_ok s l ul -> buffer_ok s' l ul.
Proof. intros Hg [H1 H2 H3 H4]. split; by rewrite ?Hg. Qed.
Lemma globals_room s s' : gc_globals (world s') = gc_globals (world s) -> room s' = room s.
Proof. unfold room. by intros ->. Qed.
Lemma set_address_address (x v : Z) : GC_ADDRESS x = x -> GC_ADDRESS (GC_SET_ADDRESS x v) = x /\ GC_GET_COLOR (GC_SET_ADDRESS x v) = GC_GET_COLOR v.
Proof. unfold GC_ADDRESS, GC_SET_ADDRESS, GC_GET_COLOR. intros. split; Z.to_euclidean_division_equations; lia. Qed.
Lemma word_address p : GC_ADDRESS (word p) = word p.
Proof. unfold GC_ADDRESS, word. destruct p as [a|]; [|done]. rewrite Z.mul_comm, Z_mod_mult. lia. Qed.
Lemma set_purple_facts w : GC_GET_COLOR (GC_SET_PURPLE w) = GC_PURPLE /\ GC_ADDRESS (GC_SET_PURPLE w) = GC_ADDRESS w.
Proof. rewrite set_purple_color, get_set_color, address_set_color by done. done. Qed.

(** The invariants of the buffer and of the words that point into it. *)
Record at_rest s l ul : Prop := {
  ar_ready : gc_ready hgp s l;
  ar_buffer : buffer_ok s l ul;
  ar_purple : purple_buffered s
}.
(** [n] is a possible root. *)
Definition is_root s l n : Prop := (exists e, e ∈ l /\ node_at s e = Some n) /\ color s n = Some GC_PURPLE.
Lemma is_root_purple s l ul n : at_rest s l ul -> color s n = Some GC_PURPLE -> is_root s l n.
Proof.
  intros [H1 _ H3] Hc. split; [|done]. apply color_some in Hc as (w & r & Hi & Hw).
  destruct (ro_word _ _ _ _ (gr_roots _ _ _ H1) n w (not_elem_of_nil _) (word_info _ _ _ _ Hi)) as (e & He & Hn & _); [|by exists e].
  apply (H3 n w); [by eapply word_info|done].
Qed.

(** The node's word and its entry, [wr] being the write to its word. *)
Lemma possible_root_run (collect : G Z) zv (blacken : G unit) (wr : (Z -> Z) -> G unit) hnd pz hs n s l ul w c :
  (forall f t w' c', info t n = Some (w', c') -> exists t', wr f t = Ok (tt, t') /\ touched n (f w', c') t t') ->
  root_node (mkRoot None None hnd pz hs) = Some n -> (forall h, n = NO h -> exists hs0, hs = Some hs0 /\ obj_ok hgp s h hs0) ->
  at_rest s l ul -> room s = true -> info s n = Some (w, c) -> GC_GET_COLOR w <> GC_PURPLE ->
  exists s' l' ul', (wr GC_SET_PURPLE;;
    if GC_ADDRESS w =? 0 then make_root collect zv blacken (wr GC_SET_PURPLE)
      (fun newRoot => link_root newRoot hnd pz hs;; wr (GC_SET_ADDRESS (word newRoot))) else mret tt) s = Ok (tt, s') /\
    at_rest s' l' ul' /\ (forall e, e ∈ l -> e ∈ l') /\ is_root s' l' n /\ static s s' /\ forall m, rc s' m = rc s m.
Proof.
  intros Hwr Hnode Hobj [Hready Hbuf Hpb] Hroom Hi Hw. destruct (Hwr GC_SET_PURPLE s w c Hi) as (s1 & H1 & T1). rewrite (mbind_ok _ _ _ _ _ H1).
  destruct (set_purple_facts w) as [Hpc Hpa]. pose proof (to_globals _ _ _ _ T1) as Hg1. pose proof (to_this _ _ _ _ T1) as Hi1.
  assert (Hready1 : gc_ready hgp s1 l) by (eapply touched_ready; try done; right; exact Hpc).
  pose proof (globals_buffer_ok s s1 l ul Hg1 Hbuf) as Hbuf1. rewrite <- (globals_room s s1 Hg1) in Hroom.
  assert (Hrc1 : forall m, rc s1 m = rc s m).
  { intros m. destruct (decide (m = n)) as [->|Hne]; [by rewrite (rc_info _ _ _ _ Hi1), (rc_info _ _ _ _ Hi)|]. unfold rc. by rewrite (to_others _ _ _ _ T1). }
  destruct (Z.eqb_spec (GC_ADDRESS w) 0) as [Ha|Ha].
  - unfold make_root. destruct (take_unused_run s1 l ul Hbuf1 Hroom) as (e & s2 & ul' & H2 & Hsh2 & He2 & Htaken). rewrite (mbind_ok _ _ _ _ _ H2).
    destruct (link_root_run s2 l ul' e hnd pz hs Htaken) as (s3 & H3 & Hsh3 & Hbuf3 & _ & Hoth3 & Hself3). rewrite (mbind_ok _ _ _ _ _ H3).
    assert (Hsh : same_heap s1 s3) by by eapply same_heap_trans.
    assert (Hi3 : info s3 n = Some (GC_SET_PURPLE w, c)) by (by rewrite (same_heap_info s1 s3 n Hsh)).
    destruct (Hwr (GC_SET_ADDRESS (word (Some e))) s3 _ _ Hi3) as (s4 & H4 & T4). rewrite H4. rewrite He2 in Hoth3.
    destruct (set_address_address (word (Some e)) (GC_SET_PURPLE w) (word_address _)) as [Ha4 Hc4]. rewrite Hpc in Hc4.
    assert (Hel : e ∉ l).
    { destruct Htaken as (_ & _ & Hnd & _). change (ROOTS :: (e :: l) ++ ul') with ((ROOTS :: [e]) ++ l ++ ul') in Hnd. apply NoDup_app in Hnd as (_ & Hd & _). intros Hin. apply (Hd e); set_solver. }
    assert (Hpb3 : purple_buffered s4).
    { intros m wm Hm Hcm. destruct (decide (m = n)) as [->|Hne].
      - rewrite (word_info _ _ _ _ (to_this _ _ _ _ T4)) in Hm. assert (Em : wm = GC_SET_ADDRESS (word (Some e)) (GC_SET_PURPLE w)) by congruence. by rewrite Em, Ha4.
      - unfold word_of in Hm. rewrite (to_others _ _ _ _ T4), (same_heap_info s1 s3 m Hsh), (to_others _ _ _ _ T1) in Hm by done. by apply (Hpb m). }
    assert (Hrest : at_rest s4 (e :: l) ul').
    { split; [|by apply (globals_buffer_ok s3); [apply (to_globals _ _ _ _ T4)|]|done].
      eapply (linked_ready s1 s3 s4 l e n); try done; [by rewrite Hpa|by apply bo_ring in Hbuf3| |right; exact Hc4].
      intros h Hh. destruct (Hobj h Hh) as (hs0 & -> & Ho). exists hs0. split; [done|]. eapply static_obj_ok; [by apply (to_static _ _ _ _ T1)|done]. }
    assert (Hst : static s s4).
    { transitivity s1; [by destruct T1|]. transitivity s3; [by apply same_heap_static|by destruct T4]. }
    exists s4, (e :: l), ul'. split; [done|]. split; [done|]. split; [intros x Hx; by right|]. split.
    + apply (is_root_purple s4 (e :: l) ul'); [done|]. rewrite (color_info _ _ _ _ (to_this _ _ _ _ T4)). by rewrite Hc4.
    + split; [done|]. intros m. rewrite <- Hrc1. destruct (decide (m = n)) as [->|Hne].
      * by rewrite (rc_info _ _ _ _ (to_this _ _ _ _ T4)), (rc_info _ _ _ _ Hi1).
      * unfold rc. by rewrite (to_others _ _ _ _ T4), (same_heap_info s1 s3 m Hsh).
  - assert (Hrest : at_rest s1 l ul).
    { split; [done..|]. eapply touched_purple; [exact Hpb|exact T1|]. by rewrite Hpa. }
    exists s1, l, ul. split; [done|]. split; [done|]. split; [done|]. split; [|split; [by destruct T1|done]].
    apply (is_root_purple s1 l ul); [done|]. rewrite (color_info _ _ _ _ Hi1). by rewrite Hpc.
Qed.

(** ** The entry points *)

Lemma about_to_be_freed_run s a z : free_list (gc_globals (world s)) = 0 -> zvals (world s) !! a = Some z ->
  about_to_be_freed (Some a) s = Ok (false, s).
Proof.
  intros Hf Hz. unfold about_to_be_freed, GC_G. rewrite (mbind_reading _ _ _ _ (zval_at_ok _ _ _ Hz)).
  rewrite !mbind_assoc, !mbind_get, !mbind_ret, mbind_assoc, mbind_get, mbind_ret, mbind_assoc, mbind_get, mbind_ret. by rewrite Hf.
Qed.
(** What [gc_zval_possible_root] takes for the root: the object itself. *)
Definition root_target a (z : zval_gc_info CB) : node := match z_value z with V_OBJECT h _ => NO h | _ => NZ a end.
(** Arrays, and valid objects with the standard handlers. *)
Definition may_be_root s (z : zval_gc_info CB) : Prop :=
  match z_value z with
  | V_ARRAY _ => True
  | V_OBJECT h hs => h <> 0 /\ hgp hs = true /\ exists b, bucket h s = Ok b /\ valid b = true
  | V_OTHER _ => False
  end.

(** C40: [gc_zval_check_possible_root], called on an array or an object while
    the collector does not run and the buffer has room, makes it a possible
    root (purple, with an entry that stands for it) and keeps the invariants
    of the buffer, the other roots, the references and the counts. *)
Theorem possible_root_is_buffered collect s l ul a z : at_rest s l ul -> room s = true -> free_list (gc_globals (world s)) = 0 ->
  zvals (world s) !! a = Some z -> may_be_root s z ->
  exists s' l' ul', gc_zval_check_possible_root hgp collect (Some a) s = Ok (tt, s') /\ at_rest s' l' ul' /\
    (forall e, e ∈ l -> e ∈ l') /\ is_root s' l' (root_target a z) /\ static s s' /\ forall m, rc s' m = rc s m.
Proof.
  intros Hrest Hroom Hfree Hz Hmay. unfold gc_zval_check_possible_root. rewrite (mbind_reading _ _ _ _ (zval_at_ok _ _ _ Hz)).
  assert (Hrun : gc_zval_possible_root hgp collect (Some a) s = match z_value z with
    | V_OBJECT hnd hs => gc_zobj_check_possible_root hgp collect (Some a) hnd hs s
    | _ => (if negb (GC_GET_COLOR (u z) =? GC_PURPLE) then
          upd_u (Some a) GC_SET_PURPLE;;
          if GC_ADDRESS (u z) =? 0 then
            make_root collect (Some a) (upd_u (Some a) GC_SET_BLACK) (upd_u (Some a) GC_SET_PURPLE)
              (fun newRoot => link_root newRoot 0 (Some a) None;; upd_u (Some a) (GC_SET_ADDRESS (word newRoot)))
          else mret tt
        else mret tt) s end).
  { unfold gc_zval_possible_root. rewrite (mbind_ok _ _ _ _ _ (about_to_be_freed_run s a z Hfree Hz)).
    rewrite (mbind_reading _ _ _ _ (zval_at_ok _ _ _ Hz)). cbn [andb]. by destruct (z_value z). }
  assert (Hsame : forall n, color s n = Some GC_PURPLE -> exists s' l' ul', (mret tt : G unit) s = Ok (tt, s') /\ at_rest s' l' ul' /\
    (forall e, e ∈ l -> e ∈ l') /\ is_root s' l' n /\ static s s' /\ forall m, rc s' m = rc s m).
  { intros n Hc. exists s, l, ul. split_and!; try done; by destruct (is_root_purple s l ul n Hrest Hc). }
  unfold root_target, may_be_root in *. destruct (z_value z) as [ht|h hs|t] eqn:Hv; [| |done]; rewrite Hrun.
  - assert (Hi : info s (NZ a) = Some (u z, refcount__gc z)) by (cbn; by rewrite Hz).
    destruct (Z.eqb_spec (GC_GET_COLOR (u z)) GC_PURPLE) as [Hc|Hc]; cbn [negb]; [apply Hsame; rewrite (color_info _ _ _ _ Hi); by rewrite Hc|].
    eapply (possible_root_run collect (Some a) _ (upd_u (Some a)) 0 (Some a) None (NZ a)); try done.
    intros f t w c. apply upd_u_run.
  - destruct Hmay as (Hh & Hgp & b & Hb & Hvalid).
    assert (Hst : object_buckets (store s) <> None) by (unfold bucket, cells in Hb; by destruct (object_buckets (store s))).
    unfold gc_zobj_check_possible_root. rewrite mbind_get. destruct (object_buckets (store s)) as [cs|] eqn:Hcs; [|done].
    rewrite (mbind_reading _ _ _ _ Hb), Hvalid. unfold gc_zobj_possible_root. rewrite mbind_get, Hgp, bool_decide_false by (by rewrite Hcs). cbn [negb orb].
    rewrite (mbind_reading _ _ _ _ Hb). assert (Hi : info s (NO h) = Some (buffered b, refcount b)) by (cbn; by rewrite Hb).
    destruct (Z.eqb_spec (GC_GET_COLOR (buffered b)) GC_PURPLE) as [Hc|Hc]; cbn [negb]; [apply Hsame; rewrite (color_info _ _ _ _ Hi); by rewrite Hc|].
    eapply (possible_root_run collect (Some a) _ (upd_buffered h) h None (Some hs) (NO h)); try done.
    + intros f t w c. apply upd_buffered_run.
    + unfold root_node. cbn. by rewrite (proj2 (Z.eqb_neq _ _) Hh).
    + intros h' [= <-]. exists hs. split; [done|]. eapply (ho_object _ _ (gr_heap _ _ _ (ar_ready _ _ _ Hrest)) a); [by rewrite Hz; cbn; rewrite Hv|].
      unfold has_store. by rewrite Hcs.
Qed.

Lemma ptr_of_word e : ptr_of (word (Some e)) = Some e.
Proof.
  unfold ptr_of, word. destruct (Z.eqb_spec (4 * Zpos e) 0); [lia|]. f_equal. rewrite Z.mul_comm, Z.div_mul by done. done.
Qed.

(** A zval that is freed has left the buffer: [GC_REMOVE_ZVAL_FROM_BUFFER]
    takes its entry, if it has one, back to the unused ones; the other roots
    and the invariants stay. *)
Theorem removed_from_buffer s l ul a z : at_rest s l ul -> free_list (gc_globals (world s)) = 0 -> zvals (world s) !! a = Some z ->
  exists s' l' ul', GC_REMOVE_ZVAL_FROM_BUFFER (Some a) s = Ok (tt, s') /\ at_rest s' l' ul' /\
    (forall e, e ∈ l' <-> e ∈ l /\ node_at s e <> Some (NZ a)) /\ (forall w, word_of s' (NZ a) = Some w -> GC_ADDRESS w = 0) /\
    static s s' /\ forall m, rc s' m = rc s m.
Proof.
  intros Hrest Hfree Hz. pose proof Hrest as [Hready Hbuf Hpb]. pose proof (gr_roots _ _ _ Hready) as Hroots.
  assert (Hi : info s (NZ a) = Some (u z, refcount__gc z)) by (cbn; by rewrite Hz).
  unfold GC_REMOVE_ZVAL_FROM_BUFFER. rewrite (mbind_reading _ _ _ _ (zval_at_ok _ _ _ Hz)).
  destruct (Z.eqb_spec (GC_ADDRESS (u z)) 0) as [Ha|Ha]; cbn [negb].
  - exists s, l, ul. split_and!; try done.
    + intros e. split; [|tauto]. intros He. split; [done|]. destruct (ro_root _ _ _ _ Hroots e He) as (n & w & Hn & _ & Hw & Haw). rewrite Hn. intros [= ->].
      rewrite (word_info _ _ _ _ Hi) in Hw. injection Hw as <-. by rewrite Ha in Haw.
    + intros w Hw. rewrite (word_info _ _ _ _ Hi) in Hw. by injection Hw as <-.
  - destruct (ro_word _ _ _ _ Hroots (NZ a) (u z) (not_elem_of_nil _) (word_info _ _ _ _ Hi) Ha) as (e & He & Hn & Haw).
    apply list_elem_of_split in He as (l1 & l2 & ->).
    destruct (remove_run s l1 e l2 (bo_ring _ _ _ Hbuf)) as (s1 & H1 & Hrm). pose proof (rm_heap _ _ _ _ Hrm) as Hsh.
    assert (Hi1 : info s1 (NZ a) = Some (u z, refcount__gc z)) by (by rewrite (same_heap_info s s1 _ Hsh)).
    destruct (upd_u_run s1 a _ _ (fun _ => 0) Hi1) as (s2 & H2 & T2). cbv beta in T2. pose proof (to_globals _ _ _ _ T2) as Hg2.
    assert (Hnd : NoDup (l1 ++ e :: l2)) by by eapply ring_nodup, bo_ring.
    assert (Hother : forall x, x ∈ l1 ++ l2 -> x <> e).
    { rewrite <- Permutation_middle in Hnd. apply NoDup_cons in Hnd as [Hnd _]. by intros x Hx ->. }
    assert (Hst : static s s2) by (transitivity s1; [by apply same_heap_static|by destruct T2]).
    assert (Hready2 : gc_ready hgp s2 (l1 ++ l2)).
    { destruct Hready as [G1 G2 G3 G4 G5]. split.
      - rewrite Hg2. by destruct Hrm.
      - eapply (roots_ok_unbuffer hgp [] s1 s2 l1 e l2 (NZ a)); [by eapply roots_ok_removed| |exact Hi1|exact T2|done|done].
        by rewrite (same_data_node s s1 e (rm_data _ _ _ _ Hrm)).
      - by eapply static_heap_ok.
      - intros n w c Hnw. destruct (decide (n = NZ a)) as [->|Hne]; [rewrite (to_this _ _ _ _ T2) in Hnw; injection Hnw as _ <-; by eapply G4|].
        rewrite (to_others _ _ _ _ T2), (same_heap_info s s1 n Hsh) in Hnw by done. by eapply G4.
      - intros n c (w & r & Hnw & <-)%color_some. destruct (decide (n = NZ a)) as [->|Hne]; [rewrite (to_this _ _ _ _ T2) in Hnw; injection Hnw as <- _; by left|].
        rewrite (to_others _ _ _ _ T2), (same_heap_info s s1 n Hsh) in Hnw by done. eapply (G5 n). by eapply color_info. }
    assert (Hbuf2 : buffer_ok s2 (l1 ++ l2) (e :: ul)).
    { destruct Hbuf as [B1 B2 B3 (b & f & y & Hb & Hf & Hy & R1 & R2 & R3 & R4)]. apply (globals_buffer_ok s1); [exact Hg2|].
      assert (Hp : l1 ++ e :: l2 ++ ul ≡ₚ (l1 ++ l2) ++ e :: ul) by solve_Permutation. rewrite <- (rm_globals _ _ _ _ Hrm) in Hb, Hf, Hy. split.
      - by destruct Hrm.
      - rewrite (rm_unused _ _ _ _ Hrm). split; [done|]. destruct (rm_entry _ _ _ _ Hrm) as (r & r' & _ & Hr' & _ & Hprev). exists r'. split; [done|]. rewrite Hprev.
        eapply unused_chain_ext; [|exact B2]. intros x Hx. f_equal. rewrite <- app_assoc in B3. cbn in B3. rewrite Hp in B3.
        change (ROOTS :: (l1 ++ l2) ++ e :: ul) with ((ROOTS :: l1 ++ l2) ++ e :: ul) in B3. apply NoDup_app in B3 as (_ & Hd & [Heul _]%NoDup_cons).
        apply (rm_others _ _ _ _ Hrm); [by intros ->|]. intros Hx'. apply (Hd x Hx'). by right.
      - rewrite <- app_assoc in B3. cbn in B3. by rewrite Hp in B3.
      - exists b, f, y. split_and!; try done; intros x; rewrite <- Hp; (intros Hx; apply R4; by rewrite <- app_assoc). }
    exists s2, (l1 ++ l2), (e :: ul). split; [|split; [|split; [|split; [|split]]]].
    + unfold gc_remove_zval_from_buffer. rewrite (mbind_reading _ _ _ _ (zval_at_ok _ _ _ Hz)), (mbind_ok _ _ _ _ _ (about_to_be_freed_run s a z Hfree Hz)).
      rewrite Haw, ptr_of_word. by rewrite (mbind_ok _ _ _ _ _ H1).
    + split; [done..|]. intros n w Hw Hc. destruct (decide (n = NZ a)) as [->|Hne].
      * rewrite (word_info _ _ _ _ (to_this _ _ _ _ T2)) in Hw. by injection Hw as <-.
      * unfold word_of in Hw. rewrite (to_others _ _ _ _ T2), (same_heap_info s s1 n Hsh) in Hw by done. by apply (Hpb n).
    + intros x. split.
      * intros Hx. assert (Hxl : x ∈ l1 ++ e :: l2) by set_solver. split; [done|]. intros Hnx.
        destruct (ro_root _ _ _ _ Hroots x Hxl) as (n & w & Hn' & _ & Hw & Hax). rewrite Hnx in Hn'. injection Hn' as <-.
        rewrite (word_info _ _ _ _ Hi) in Hw. injection Hw as <-. rewrite Haw in Hax. apply word_inj in Hax. by apply (Hother x Hx).
      * intros [Hx Hnx]. rewrite elem_of_app, elem_of_cons in Hx. rewrite elem_of_app. destruct Hx as [?|[->|?]]; auto. by destruct Hnx.
    + intros w Hw. rewrite (word_info _ _ _ _ (to_this _ _ _ _ T2)) in Hw. by injection Hw as <-.
    + done.
    + intros m. destruct (decide (m = NZ a)) as [->|Hne].
      * by rewrite (rc_info _ _ _ _ (to_this _ _ _ _ T2)), (rc_info _ _ _ _ Hi).
      * unfold rc. by rewrite (to_others _ _ _ _ T2), (same_heap_info s s1 m Hsh).
Qed.
End Possible.

(** ** On the example *)

Section PossibleWitness.
Import CycleExample.
Lemma heap_at_rest : at_rest all heap roots [].
Proof.
  split; [apply heap_ready| |].
  - split; [by destruct heap_ready|done|apply (bool_decide_unpack _); by vm_compute|].
    exists 2%positive, 4%positive, 9%positive. split_and!; try done; intros e He; apply elem_of_cons in He as [->|[->|[]%elem_of_nil]%elem_of_cons]; done.
  - intros n w (r & Hi%heap_info)%word_info_inv Hc. repeat (apply elem_of_cons in Hi as [[= -> -> ->]|Hi]; [done|]). by apply elem_of_nil in Hi.
Qed.
Lemma possible_root_is_buffered_witness : exists s' l' ul', gc_zval_check_possible_root all (throw OutOfFuel) (Some 3%positive) heap = Ok (tt, s') /\
  at_rest all s' l' ul' /\ (forall e, e ∈ roots -> e ∈ l') /\ is_root s' l' (NO 1) /\ static heap s' /\ forall m, rc s' m = rc heap m.
Proof.
  apply (possible_root_is_buffered all (throw OutOfFuel) heap roots [] 3%positive (mkGcZval (V_OBJECT 1 tt) 1 false 0)).
  - apply heap_at_rest.
  - reflexivity.
  - reflexivity.
  - reflexivity.
  - split; [discriminate|]. split; [reflexivity|]. eexists. split; reflexivity.
Defined.
Lemma removed_from_buffer_witness : exists s' l' ul', GC_REMOVE_ZVAL_FROM_BUFFER (Some 1%positive) heap = Ok (tt, s') /\ at_rest all s' l' ul' /\
  (forall e, e ∈ l' <-> e ∈ roots /\ node_at heap e <> Some (NZ 1%positive)) /\ (forall w, word_of s' (NZ 1%positive) = Some w -> GC_ADDRESS w = 0) /\
  static heap s' /\ forall m, rc s' m = rc heap m.
Proof.
  apply (removed_from_buffer all heap roots [] 1%positive (mkGcZval (V_ARRAY 10%positive) 1 true 11)); [apply heap_at_rest|reflexivity|reflexivity].
Defined.
End PossibleWitness.

(** ** Two departures *)

Section Departures.
Import CycleExample.

(** With the buffer full and the collector disabled, [gc_zobj_possible_root]
    blackens the zval it came through and leaves the object purple: without an
    entry, and no later call gives it one, even when there is room again. *)
Definition full_buffer : gstate unit :=
  OState (store heap) (set_globals (set_first_unused (Some 9%positive) (set_gc_enabled false (gc_globals (world heap)))) (world heap)).
Definition room_again (s : gstate unit) : gstate unit :=
  OState (store s) (set_globals (set_gc_enabled true (set_first_unused (Some 5%positive) (gc_globals (world s)))) (world s)).
Definition after_full : res (Z * gstate unit) :=
  (gc_zval_check_possible_root all (mret 0) (Some 4%positive);; modify room_again;;
   gc_zval_check_possible_root all (mret 0) (Some 4%positive);; mret 0) full_buffer.
Example purple_without_entry : match after_full with Ok (_, s) => word_of s (NO 1) = Some GC_PURPLE | Err _ => False end.
Proof. by vm_compute. Qed.

(** An object without a property table ends [zval_collect_white] before the
    zval is listed: with [$a = array(&$a, $o)], both garbage, zval 1 is listed
    and zval 3, which refers to the object, is not, although it is no longer
    white and the object's count has been taken to 0. *)
Definition no_properties : gstate unit :=
  OState (mkStore (Some [None; Some (mkBucketObj false true 7 None None None None 1 0)]) 0 2 2 (-1))
    (set_zend_objects {[ 7 := None ]} (set_zvals (delete 4%positive (zvals (world heap))) (world heap))).
Example null_properties_unlisted : match find_garbage all no_properties with
  | Ok (_, s) => listed s [1%positive] /\ word_of s (NZ 3%positive) = Some 0 /\ rc s (NO 1) = 0
  | Err _ => False
  end.
Proof. vm_compute. split_and!; try done. eexists. done. Qed.
End Departures.
