(* ===== verification/SplHeap.v ===== *)
(** * ext/spl/spl_heap.c: the binary heap and the classes built on it

    [Section PtrHeap] is [spl_ptr_heap]: a heap of pointers, with the
    constructor, the destructor and the comparison function it is given.
    They act on the whole state [hstate], the heap included, since a
    comparison may be a method of a PHP class.

    [Section Objects] is the methods and handlers of the classes, over a store
    of zvals with reference counts.  An element of the heap is the address of
    a zval; one of a priority queue is an array with the keys "data" and
    "priority".  The tables of such arrays are lists of pairs of key and
    address, in order.  What the file calls in the engine for values that are
    no such array (their copy, destruction and comparison, the methods of a PHP
    subclass) is a parameter, [engine]. *)

From S2P Require Import Prelude Dll.
Open Scope Z_scope.

Definition PTR_HEAP_BLOCK_SIZE : Z := 64.
Definition SPL_HEAP_CORRUPTED : Z := 1.
Definition SPL_PQUEUE_EXTR_MASK : Z := 3.
Definition SPL_PQUEUE_EXTR_BOTH : Z := 3.
Definition SPL_PQUEUE_EXTR_DATA : Z := 1.
Definition SPL_PQUEUE_EXTR_PRIORITY : Z := 2.

(** [elements] are the [max_size] slots allocated; one that was never
    written is [None].  [ctor] and [dtor] are the same for every heap of the
    file and are parameters below; [cmp] is changed after creation. *)
Record spl_ptr_heap (V C : Type) : Type := mkPtrHeap {
  elements : list (option V);
  cmp : C;
  count : Z;
  max_size : Z;
  flags : Z
}.
Arguments mkPtrHeap {V C}. Arguments elements {V C}. Arguments cmp {V C}.
Arguments count {V C}. Arguments max_size {V C}. Arguments flags {V C}.

Record hstate (V C W : Type) : Type := mkHs { heap : spl_ptr_heap V C; env : W }.
Arguments mkHs {V C W}. Arguments heap {V C W}. Arguments env {V C W}.

Section Fields.
Context {V C W : Type}.
Implicit Types (h : spl_ptr_heap V C) (s : hstate V C W).
Definition set_elements (x : list (option V)) h := mkPtrHeap x (cmp h) (count h) (max_size h) (flags h).
Definition set_cmp (x : C) h := mkPtrHeap (elements h) x (count h) (max_size h) (flags h).
Definition set_count x h := mkPtrHeap (elements h) (cmp h) x (max_size h) (flags h).
Definition set_max_size x h := mkPtrHeap (elements h) (cmp h) (count h) x (flags h).
Definition set_flags x h := mkPtrHeap (elements h) (cmp h) (count h) (max_size h) x.
Definition on_heap (f : spl_ptr_heap V C -> spl_ptr_heap V C) s := mkHs (f (heap s)) (env s).
Definition on_env (f : W -> W) s := mkHs (heap s) (f (env s)).
End Fields.

Section PtrHeap.
Context {V C W : Type}.
Context (call_cmp : C -> V -> V -> M (hstate V C W) Z).
Context (ctor dtor : V -> M (hstate V C W) unit) (EG_exception : W -> bool).
Implicit Types (h : spl_ptr_heap V C) (s : hstate V C W).

(** [heap->elements[i]], read and written. *)
Definition element (i : Z) : M (hstate V C W) V :=
  reading (fun s =>
    if i <? 0 then Err OutOfBounds
    else match elements (heap s) !! Z.to_nat i with
         | Some (Some v) => Ok v
         | Some None => Err DanglingPointer
         | None => Err OutOfBounds
         end).
Definition set_element (i : Z) (v : V) : M (hstate V C W) unit := fun s =>
  if (0 <=? i) && (i <? Z.of_nat (length (elements (heap s)))) then
    Ok (tt, on_heap (fun h => set_elements (<[Z.to_nat i := Some v]> (elements h)) h) s)
  else Err OutOfBounds.

Definition compare_elements (a b : V) : M (hstate V C W) Z :=
  s ← get_st; call_cmp (cmp (heap s)) a b.

Definition spl_ptr_heap_init (c : C) : spl_ptr_heap V C :=
  mkPtrHeap (replicate (Z.to_nat PTR_HEAP_BLOCK_SIZE) None) c 0 PTR_HEAP_BLOCK_SIZE 0.

(** [safe_erealloc] to twice as many elements. *)
Definition grow : M (hstate V C W) unit :=
  modify (on_heap (fun h =>
    set_max_size (s32 (max_size h * 2))
      (set_elements (elements h ++ replicate (Z.to_nat (max_size h)) None) h))).

(** [if (EG(exception)) heap->flags |= SPL_HEAP_CORRUPTED;] *)
Definition note_exception : M (hstate V C W) unit :=
  s ← get_st;
  if EG_exception (env s) then
    modify (on_heap (fun h => set_flags (Z.lor (flags h) SPL_HEAP_CORRUPTED) h))
  else mret tt.

(** The loop of [spl_ptr_heap_insert]: [i] at its end. *)
Fixpoint sift_up (fuel : nat) (i : Z) (elem : V) : M (hstate V C W) Z :=
  match fuel with
  | O => throw OutOfFuel
  | S fuel' =>
      if 0 <? i then
        parent ← element ((i - 1) /c 2);
        r ← compare_elements parent elem;
        if r <? 0 then
          parent ← element ((i - 1) /c 2);
          set_element i parent;;
          sift_up fuel' ((i - 1) /c 2) elem
        else mret i
      else mret i
  end.

Definition spl_ptr_heap_insert (elem : V) : M (hstate V C W) unit :=
  s ← get_st;
  (if max_size (heap s) <? s32 (count (heap s) + 1) then grow else mret tt);;
  ctor elem;;
  s ← get_st;
  modify (on_heap (set_count (s32 (count (heap s) + 1))));;
  i ← sift_up (S (Z.to_nat (count (heap s)))) (count (heap s)) elem;
  note_exception;;
  set_element i elem.

Definition spl_ptr_heap_top : M (hstate V C W) (option V) :=
  s ← get_st;
  if count (heap s) =? 0 then mret None else (v ← element 0; mret (Some v)).

(** The loop of [spl_ptr_heap_delete_top]: [i] at its end. *)
Fixpoint sift_down (fuel : nat) (i limit : Z) (bottom : V) : M (hstate V C W) Z :=
  match fuel with
  | O => throw OutOfFuel
  | S fuel' =>
      if i <? limit then
        s ← get_st;
        j ← (if i * 2 + 1 =? count (heap s) then mret (i * 2 + 1)
             else
               right ← element (i * 2 + 1 + 1);
               left ← element (i * 2 + 1);
               r ← compare_elements right left;
               mret (if 0 <? r then i * 2 + 1 + 1 else i * 2 + 1));
        child ← element j;
        r ← compare_elements bottom child;
        if r <? 0 then
          child ← element j;
          set_element i child;;
          sift_down fuel' j limit bottom
        else mret i
      else mret i
  end.

Definition spl_ptr_heap_delete_top : M (hstate V C W) (option V) :=
  s ← get_st;
  let limit := (count (heap s) - 1) /c 2 in
  if count (heap s) =? 0 then mret None
  else
    top ← element 0;
    modify (on_heap (set_count (count (heap s) - 1)));;
    bottom ← element (count (heap s) - 1);
    i ← sift_down (S (Z.to_nat limit)) 0 limit bottom;
    note_exception;;
    set_element i bottom;;
    dtor top;;
    mret (Some top).

(** [for (i = 0; i < heap->count; ++i) f(heap->elements[i])] over a heap [h]
    that [f] does not change. *)
Definition element_of (h : spl_ptr_heap V C) (i : nat) : res V :=
  match elements h !! i with
  | Some (Some v) => Ok v
  | Some None => Err DanglingPointer
  | None => Err OutOfBounds
  end.
Fixpoint elements_loop (f : V -> M (hstate V C W) unit) (h : spl_ptr_heap V C) (n i : nat)
    : M (hstate V C W) unit :=
  match n with
  | O => mret tt
  | S n' => v ← reading (fun _ => element_of h i); f v;; elements_loop f h n' (S i)
  end.
Definition for_elements (f : V -> M (hstate V C W) unit) (h : spl_ptr_heap V C) :=
  elements_loop f h (Z.to_nat (count h)) 0.

Definition spl_ptr_heap_clone (from : spl_ptr_heap V C) : M (hstate V C W) (spl_ptr_heap V C) :=
  let h := mkPtrHeap (elements from) (cmp from) (count from) (max_size from) (flags from) in
  for_elements ctor h;; mret h.

Definition spl_ptr_heap_destroy (h : spl_ptr_heap V C) : M (hstate V C W) unit :=
  for_elements dtor h.

Definition spl_ptr_heap_count (h : spl_ptr_heap V C) : Z := count h.
End PtrHeap.

(** ** The classes *)

Inductive zvalue (D : Type) : Type :=
  | IS_NULL
  | IS_ARRAY (ht : list (list byte * addr))
  | Value (d : D).
Arguments IS_NULL {D}. Arguments IS_ARRAY {D}. Arguments Value {D}.

Record zval (D : Type) : Type := mkZv { value : zvalue D; refcount__gc : Z; is_ref__gc : bool }.
Arguments mkZv {D}. Arguments value {D}. Arguments refcount__gc {D}. Arguments is_ref__gc {D}.

Inductive exn (E : Type) : Type :=
  | RuntimeException (message : list byte)
  | Thrown (e : E).
Arguments RuntimeException {E}. Arguments Thrown {E}.

(** The classes of the file, and those that PHP code derives from them, with
    the methods it overrides. *)
Inductive class_entry : Type :=
  | SplHeap | SplMinHeap | SplMaxHeap | SplPriorityQueue
  | Child (parent : class_entry) (compare count : bool).

#[export] Instance class_entry_eq_dec : EqDecision class_entry.
Proof. solve_decision. Defined.

(** The comparison functions a heap can be given. *)
Inductive heap_cmp : Set := zval_max_cmp | zval_min_cmp | pqueue_zval_cmp.

(** [spl_heap_object], without the heap, which is in [hstate]; [fptr_cmp] says
    whether it is set, [fptr_count] which class the method is of ([None] for
    PHP code). *)
Record spl_heap_object : Type := mkObj {
  retval : addr;
  oflags : Z;
  fptr_cmp : bool;
  fptr_count : option (option class_entry)
}.

(** [exception] is [EG(exception)] with the exceptions before it; [ext] is
    what else the engine keeps. *)
Record world (D E X : Type) : Type := mkWorld {
  zvals : gmap addr (zval D);
  exception : list (exn E);
  intern : spl_heap_object;
  ext : X
}.
Arguments mkWorld {D E X}. Arguments zvals {D E X}. Arguments exception {D E X}.
Arguments intern {D E X}. Arguments ext {D E X}.

(** What a method returns; NULL also when it throws. *)
Inductive answer (D : Type) : Type :=
  | RetNull
  | RetBool (b : bool)
  | RetLong (n : Z)
  | RetZval (v : zvalue D).
Arguments RetNull {D}. Arguments RetBool {D}. Arguments RetLong {D}. Arguments RetZval {D}.

(** What the file calls in the engine.  [user_compare] is the call of the
    method compare of a derived class, with [convert_to_long] of what it
    returned; it may throw.  [zend_error] returns if an error handler does. *)
Record engine (D E X : Type) : Type := {
  user_compare : addr -> addr -> M (hstate addr heap_cmp (world D E X)) Z;
  user_count : M (hstate addr heap_cmp (world D E X)) (option addr);
  compare_function : addr -> addr -> M (hstate addr heap_cmp (world D E X)) Z;
  zend_error : list byte -> M (hstate addr heap_cmp (world D E X)) unit;
  copy_value : D -> X -> X;
  destroy_value : D -> X -> X;
  long_value : Z -> D;
  convert_to_long : zvalue D -> Z
}.
Arguments user_compare {D E X}. Arguments user_count {D E X}. Arguments compare_function {D E X}.
Arguments zend_error {D E X}. Arguments copy_value {D E X}. Arguments destroy_value {D E X}. Arguments long_value {D E X}.
Arguments convert_to_long {D E X}.

Section Objects.
Context {D E X : Type} `{!Allocator} (eng : engine D E X).
Abbreviation st := (hstate addr heap_cmp (world D E X)).
Implicit Types (w : world D E X) (s : st) (a b : addr).

Definition set_zvals (m : gmap addr (zval D)) w : world D E X := mkWorld m (exception w) (intern w) (ext w).
Definition set_exception (x : list (exn E)) w : world D E X := mkWorld (zvals w) x (intern w) (ext w).
Definition set_intern x w : world D E X := mkWorld (zvals w) (exception w) x (ext w).
Definition set_ext (x : X) w : world D E X := mkWorld (zvals w) (exception w) (intern w) x.

Definition EG_exception w : bool := match exception w with [] => false | _ => true end.
Definition zend_throw_exception (message : list byte) : M st unit :=
  modify (on_env (fun w => set_exception (RuntimeException message :: exception w) w)).

(** ** Zvals *)

Definition cell a : M st (zval D) :=
  reading (fun s => match zvals (env s) !! a with Some z => Ok z | None => Err DanglingPointer end).
Definition set_cell a (z : zval D) : M st unit :=
  modify (on_env (fun w => set_zvals (<[a := z]> (zvals w)) w)).
Definition ALLOC_ZVAL (z : zval D) : M st addr :=
  s ← get_st;
  match alloc (zvals (env s)) 32 with
  | Some a => set_cell a z;; mret a
  | None => throw Bailout
  end.

Definition Z_SET_REFCOUNT_P a (n : Z) : M st unit :=
  z ← cell a; set_cell a (mkZv (value z) n (is_ref__gc z)).
Definition Z_ADDREF_P a : M st unit :=
  z ← cell a; Z_SET_REFCOUNT_P a (u32 (refcount__gc z + 1)).

Fixpoint each {A} (f : A -> M st unit) (l : list A) : M st unit :=
  match l with [] => mret tt | x :: l' => f x;; each f l' end.

(** [zval_copy_ctor]: the copy of an array refers to the same members. *)
Definition zval_copy_ctor (v : zvalue D) : M st unit :=
  match v with
  | IS_NULL => mret tt
  | IS_ARRAY ht => each Z_ADDREF_P ht.*2
  | Value d => modify (on_env (fun w => set_ext (copy_value eng d (ext w)) w))
  end.

(** The zval of an array is made NULL before the array is destroyed. *)
Fixpoint zval_ptr_dtor_fuel (fuel : nat) a : M st unit :=
  match fuel with
  | O => throw OutOfFuel
  | S fuel' =>
      z ← cell a;
      Z_SET_REFCOUNT_P a (u32 (refcount__gc z - 1));;
      if u32 (refcount__gc z - 1) =? 0 then
        match value z with
        | IS_NULL => mret tt
        | IS_ARRAY ht =>
            set_cell a (mkZv IS_NULL 0 (is_ref__gc z));; each (zval_ptr_dtor_fuel fuel') ht.*2
        | Value d => modify (on_env (fun w => set_ext (destroy_value eng d (ext w)) w))
        end;;
        modify (on_env (fun w => set_zvals (delete a (zvals w)) w))
      else if u32 (refcount__gc z - 1) =? 1 then set_cell a (mkZv (value z) 1 false)
      else mret tt
  end.
Definition zval_ptr_dtor a : M st unit :=
  s ← get_st; zval_ptr_dtor_fuel (S (size (zvals (env s)))) a.

Definition SEPARATE_ARG_IF_REF a : M st addr :=
  z ← cell a;
  if is_ref__gc z then
    v ← ALLOC_ZVAL (mkZv (value z) 1 false);
    zval_copy_ctor (value z);;
    mret v
  else Z_ADDREF_P a;; mret a.

(** [RETURN_ZVAL(zv, 1, dtor)]. *)
Definition RETURN_ZVAL a (dtor : bool) : M st (answer D) :=
  z ← cell a;
  zval_copy_ctor (value z);;
  (if dtor then zval_ptr_dtor a else mret tt);;
  mret (RetZval (value z)).

(** [zend_symtable_update] and [zend_hash_find] of a key that is no number. *)
Fixpoint hash_update (key : list byte) a (ht : list (list byte * addr)) : list (list byte * addr) :=
  match ht with
  | [] => [(key, a)]
  | (k, b) :: ht' => if decide (k = key) then (k, a) :: ht' else (k, b) :: hash_update key a ht'
  end.
Fixpoint hash_find (key : list byte) (ht : list (list byte * addr)) : option addr :=
  match ht with
  | [] => None
  | (k, b) :: ht' => if decide (k = key) then Some b else hash_find key ht'
  end.
Definition Z_ARRVAL_P a : M st (list (list byte * addr)) :=
  z ← cell a; match value z with IS_ARRAY ht => mret ht | _ => throw DanglingPointer end.
Definition add_assoc_zval_ex (arg : addr) (key : list byte) (v : addr) : M st unit :=
  z ← cell arg;
  ht ← Z_ARRVAL_P arg;
  set_cell arg (mkZv (IS_ARRAY (hash_update key v ht)) (refcount__gc z) (is_ref__gc z)).

(** ** Constructor, destructor, comparisons *)

(** The elements are never NULL. *)
Definition spl_ptr_heap_zval_dtor (elem : addr) : M st unit := zval_ptr_dtor elem.
Definition spl_ptr_heap_zval_ctor (elem : addr) : M st unit := Z_ADDREF_P elem.

(** [None] for FAILURE. *)
Definition spl_ptr_heap_cmp_cb_helper a b : M st (option Z) :=
  r ← user_compare eng a b;
  s ← get_st;
  if EG_exception (env s) then mret None else mret (Some r).

Definition spl_pqueue_extract_helper (v : addr) (flags : Z) : M st (option addr) :=
  if Z.land flags SPL_PQUEUE_EXTR_BOTH =? SPL_PQUEUE_EXTR_BOTH then mret (Some v)
  else if 0 <? Z.land flags SPL_PQUEUE_EXTR_BOTH then
    if Z.land flags SPL_PQUEUE_EXTR_DATA =? SPL_PQUEUE_EXTR_DATA then
      ht ← Z_ARRVAL_P v; mret (hash_find (bs "data") ht)
    else ht ← Z_ARRVAL_P v; mret (hash_find (bs "priority") ht)
  else mret None.

(** The part the three comparisons share: the [long] of the method, or of
    [compare_function] on [x] and [y], becomes an [int]. *)
Definition method_or_function (object : bool) a b x y : M st Z :=
  s ← get_st;
  if object && fptr_cmp (intern (env s)) then
    r ← spl_ptr_heap_cmp_cb_helper a b;
    match r with None => mret 0 | Some lval => mret (s32 lval) end
  else r ← compare_function eng x y; mret (s32 r).

Definition spl_ptr_heap_zval_max_cmp a b (object : bool) : M st Z :=
  s ← get_st;
  if EG_exception (env s) then mret 0 else method_or_function object a b a b.

Definition spl_ptr_heap_zval_min_cmp a b (object : bool) : M st Z :=
  s ← get_st;
  if EG_exception (env s) then mret 0 else method_or_function object a b b a.

Definition NODE_ERROR : list byte := bs "Unable to extract from the PriorityQueue node".

Definition spl_ptr_pqueue_zval_cmp a b (object : bool) : M st Z :=
  pa ← spl_pqueue_extract_helper a SPL_PQUEUE_EXTR_PRIORITY;
  pb ← spl_pqueue_extract_helper b SPL_PQUEUE_EXTR_PRIORITY;
  match pa, pb with
  | Some pa, Some pb =>
      s ← get_st;
      if EG_exception (env s) then mret 0 else method_or_function object pa pb pa pb
  | _, _ => zend_error eng NODE_ERROR;; mret 0
  end.

(** [heap->cmp(a, b, object)]. *)
Definition heap_call_cmp (c : heap_cmp) a b : M st Z :=
  match c with
  | zval_max_cmp => spl_ptr_heap_zval_max_cmp a b true
  | zval_min_cmp => spl_ptr_heap_zval_min_cmp a b true
  | pqueue_zval_cmp => spl_ptr_pqueue_zval_cmp a b true
  end.

Definition heap_insert (elem : addr) : M st unit :=
  spl_ptr_heap_insert heap_call_cmp spl_ptr_heap_zval_ctor EG_exception elem.
Definition heap_delete_top : M st (option addr) :=
  spl_ptr_heap_delete_top heap_call_cmp spl_ptr_heap_zval_dtor EG_exception.
Definition heap_top : M st (option addr) := spl_ptr_heap_top.

(** ** Methods; the guard for a corrupted heap comes first where it does *)

Definition CORRUPTED : list byte := bs "Heap is corrupted, heap properties are no longer ensured.".
Definition EXTRACT_EMPTY : list byte := bs "Can't extract from an empty heap".
Definition PEEK_EMPTY : list byte := bs "Can't peek at an empty heap".

Definition unless_corrupted {A} (default : A) (body : M st A) : M st A :=
  s ← get_st;
  if has_flag (flags (heap s)) SPL_HEAP_CORRUPTED then
    zend_throw_exception CORRUPTED;; mret default
  else body.

Definition SplHeap_count : M st (answer D) :=
  s ← get_st; mret (RetLong (spl_ptr_heap_count (heap s))).
Definition SplHeap_isEmpty : M st (answer D) :=
  s ← get_st; mret (RetBool (spl_ptr_heap_count (heap s) =? 0)).

Definition SplHeap_insert (v : addr) : M st (answer D) :=
  unless_corrupted RetNull (
    v ← SEPARATE_ARG_IF_REF v;
    heap_insert v;;
    mret (RetBool true)).

Definition SplHeap_extract : M st (answer D) :=
  unless_corrupted RetNull (
    v ← heap_delete_top;
    match v with
    | None => zend_throw_exception EXTRACT_EMPTY;; mret RetNull
    | Some v => RETURN_ZVAL v true
    end).

Definition SplPriorityQueue_insert (data priority : addr) : M st (answer D) :=
  unless_corrupted RetNull (
    data ← SEPARATE_ARG_IF_REF data;
    priority ← SEPARATE_ARG_IF_REF priority;
    elem ← ALLOC_ZVAL (mkZv IS_NULL 1 false);
    set_cell elem (mkZv (IS_ARRAY []) 1 false);;
    add_assoc_zval_ex elem (bs "data") data;;
    add_assoc_zval_ex elem (bs "priority") priority;;
    heap_insert elem;;
    mret (RetBool true)).

Definition SplPriorityQueue_extract : M st (answer D) :=
  unless_corrupted RetNull (
    v ← heap_delete_top;
    match v with
    | None => zend_throw_exception EXTRACT_EMPTY;; mret RetNull
    | Some v =>
        s ← get_st;
        out ← spl_pqueue_extract_helper v (oflags (intern (env s)));
        match out with
        | None => zend_error eng NODE_ERROR;; zval_ptr_dtor v;; mret RetNull
        | Some out => Z_ADDREF_P out;; zval_ptr_dtor v;; RETURN_ZVAL out true
        end
    end).

Definition SplPriorityQueue_top : M st (answer D) :=
  unless_corrupted RetNull (
    v ← heap_top;
    match v with
    | None => zend_throw_exception PEEK_EMPTY;; mret RetNull
    | Some v =>
        s ← get_st;
        out ← spl_pqueue_extract_helper v (oflags (intern (env s)));
        match out with
        | None => zend_error eng NODE_ERROR;; mret RetNull
        | Some out => RETURN_ZVAL out false
        end
    end).

Definition SplPriorityQueue_setExtractFlags (v : Z) : M st (answer D) :=
  let f := s32 (Z.land v SPL_PQUEUE_EXTR_MASK) in
  modify (on_env (fun w => set_intern (mkObj (retval (intern w)) f (fptr_cmp (intern w))
                                             (fptr_count (intern w))) w));;
  mret (RetLong f).

Definition SplHeap_recoverFromCorruption : M st (answer D) :=
  modify (on_heap (fun h => set_flags (Z.land (flags h) (Z.lnot SPL_HEAP_CORRUPTED)) h));;
  mret (RetBool true).

Definition SplHeap_top : M st (answer D) :=
  unless_corrupted RetNull (
    v ← heap_top;
    match v with
    | None => zend_throw_exception PEEK_EMPTY;; mret RetNull
    | Some v => RETURN_ZVAL v false
    end).

(** The methods compare: no object, so no method of a derived class. *)
Definition SplMinHeap_compare a b : M st (answer D) :=
  r ← spl_ptr_heap_zval_min_cmp a b false; mret (RetLong r).
Definition SplMaxHeap_compare a b : M st (answer D) :=
  r ← spl_ptr_heap_zval_max_cmp a b false; mret (RetLong r).
Definition SplPriorityQueue_compare a b : M st (answer D) :=
  r ← spl_ptr_heap_zval_max_cmp a b false; mret (RetLong r).

Definition SplHeap_key : M st (answer D) :=
  s ← get_st; mret (RetLong (count (heap s) - 1)).

(** [no_arguments]: whether [zend_parse_parameters_none] succeeds, which is
    asked after the element is gone. *)
Definition SplHeap_next (no_arguments : bool) : M st (answer D) :=
  elem ← heap_delete_top;
  if negb no_arguments then mret RetNull
  else
    match elem with
    | None => mret RetNull
    | Some a => zval_ptr_dtor a;; mret RetNull
    end.

Definition SplHeap_valid : M st (answer D) :=
  s ← get_st; mret (RetBool (negb (count (heap s) =? 0))).
Definition SplHeap_rewind : M st (answer D) := mret RetNull.

Definition SplHeap_current : M st (answer D) :=
  s ← get_st;
  if count (heap s) =? 0 then mret RetNull
  else v ← element 0; RETURN_ZVAL v false.

Definition SplPriorityQueue_current : M st (answer D) :=
  s ← get_st;
  if count (heap s) =? 0 then mret RetNull
  else
    v ← element 0;
    out ← spl_pqueue_extract_helper v (oflags (intern (env s)));
    match out with
    | None => zend_error eng NODE_ERROR;; mret RetNull
    | Some out => RETURN_ZVAL out false
    end.

(** A call of a method of the tables [spl_funcs_SplHeap] and
    [spl_funcs_SplPriorityQueue].  With the wrong number of arguments insert
    returns NULL; a call of a method the class has not is a fatal error. *)
Inductive call : Type :=
  | Insert (v : addr) (priority : option addr)
  | Extract | Top | Current
  | Next (no_arguments : bool)
  | Count | IsEmpty | Valid | Key | Rewind
  | SetExtractFlags (v : Z)
  | RecoverFromCorruption.

Definition run_call (queue : bool) (c : call) : M st (answer D) :=
  match c with
  | Insert v None => if queue then mret RetNull else SplHeap_insert v
  | Insert v (Some p) => if queue then SplPriorityQueue_insert v p else mret RetNull
  | Extract => if queue then SplPriorityQueue_extract else SplHeap_extract
  | Top => if queue then SplPriorityQueue_top else SplHeap_top
  | Current => if queue then SplPriorityQueue_current else SplHeap_current
  | Next no_arguments => SplHeap_next no_arguments
  | Count => SplHeap_count
  | IsEmpty => SplHeap_isEmpty
  | Valid => SplHeap_valid
  | Key => SplHeap_key
  | Rewind => SplHeap_rewind
  | SetExtractFlags v => if queue then SplPriorityQueue_setExtractFlags v else throw Bailout
  | RecoverFromCorruption => SplHeap_recoverFromCorruption
  end.

(** ** Iterators *)

(** [NULL], or the iterator, which holds the object. *)
Definition spl_heap_get_iterator (object : addr) (by_ref : bool) : M st (option addr) :=
  if by_ref then
    zend_throw_exception (bs "An iterator cannot be used with foreach by reference");; mret None
  else Z_ADDREF_P object;; mret (Some object).
Definition spl_heap_it_dtor (object : addr) : M st unit := zval_ptr_dtor object.
Definition spl_heap_it_rewind : M st unit := mret tt.
Definition spl_heap_it_valid : M st Z :=
  s ← get_st; mret (if negb (count (heap s) =? 0) then SUCCESS else FAILURE).

(** [*data], or [None] where it is not assigned. *)
Definition spl_heap_it_get_current_data : M st (option (option addr)) :=
  unless_corrupted None (
    s ← get_st;
    if count (heap s) =? 0 then mret (Some None) else v ← element 0; mret (Some (Some v))).
Definition spl_pqueue_it_get_current_data : M st (option (option addr)) :=
  unless_corrupted None (
    s ← get_st;
    if count (heap s) =? 0 then mret (Some None)
    else
      v ← element 0;
      out ← spl_pqueue_extract_helper v (oflags (intern (env s)));
      match out with
      | None => zend_error eng NODE_ERROR;; mret (Some None)
      | Some out => mret (Some (Some out))
      end).
Definition spl_heap_it_get_current_key : M st Z :=
  s ← get_st; mret (u64 (u64 (count (heap s)) - 1)).
Definition spl_heap_it_move_forward : M st unit :=
  unless_corrupted tt (
    elem ← heap_delete_top;
    match elem with Some a => zval_ptr_dtor a | None => mret tt end).

(** ** Creation, clone, release *)

(** The class of the file that the loop over [class_type->parent] ends at. *)
Fixpoint base_class (c : class_entry) : class_entry :=
  match c with Child p _ _ => base_class p | _ => c end.
Definition inherited (c : class_entry) : bool := match c with Child _ _ _ => true | _ => false end.
(** [common.scope] of the methods compare and count; [None] is a derived class. *)
Fixpoint compare_scope (c : class_entry) : option class_entry :=
  match c with Child p cmp _ => if cmp then None else compare_scope p | _ => Some c end.
Fixpoint count_scope (c : class_entry) : option class_entry :=
  match c with
  | Child p _ cnt => if cnt then None else count_scope p
  | SplMinHeap | SplMaxHeap => Some SplHeap
  | _ => Some c
  end.

Definition class_cmp (c : class_entry) (old : heap_cmp) : heap_cmp :=
  match base_class c with
  | SplPriorityQueue => pqueue_zval_cmp
  | SplMinHeap => zval_min_cmp
  | SplMaxHeap => zval_max_cmp
  | _ => old
  end.
Definition class_flags (c : class_entry) (old : Z) : Z :=
  if decide (base_class c = SplPriorityQueue) then SPL_PQUEUE_EXTR_DATA else old.

(** Whether [fptr_cmp] is kept: the method compare is not that of the base. *)
Definition class_fptr_cmp (c : class_entry) : bool :=
  inherited c && negb (bool_decide (compare_scope c = Some (base_class c))).

(** [spl_heap_object_new_ex], for an object cloned from the one of the state
    ([clone_orig]) or a new one: its heap and the object. *)
Definition spl_heap_object_new_ex (class_type : class_entry) (clone_orig : bool)
    : M st (spl_ptr_heap addr heap_cmp * spl_heap_object) :=
  rv ← ALLOC_ZVAL (mkZv IS_NULL 1 false);
  s ← get_st;
  h ← (if clone_orig then
         h ← spl_ptr_heap_clone spl_ptr_heap_zval_ctor (heap s);
         for_elements Z_ADDREF_P h;;
         mret h
       else mret (spl_ptr_heap_init zval_max_cmp));
  let flags := if clone_orig then oflags (intern (env s)) else 0 in
  let base := base_class class_type in
  mret (set_cmp (class_cmp class_type (cmp h)) h,
        mkObj rv (class_flags class_type flags)
          (class_fptr_cmp class_type)
          (if inherited class_type && negb (bool_decide (count_scope class_type = Some base))
           then Some (count_scope class_type) else None)).
Definition spl_heap_object_new (class_type : class_entry) := spl_heap_object_new_ex class_type false.
Definition spl_heap_object_clone (class_type : class_entry) := spl_heap_object_new_ex class_type true.

(** [spl_heap_object_free_storage] of the object of the state: its heap is
    released twice over, element by element. *)
Definition spl_heap_object_free_storage : M st unit :=
  s ← get_st;
  for_elements zval_ptr_dtor (heap s);;
  spl_ptr_heap_destroy spl_ptr_heap_zval_dtor (heap s);;
  zval_ptr_dtor (retval (intern (env s))).

(** [None] for FAILURE, with a count of 0. *)
Definition spl_heap_object_count_elements : M st (option Z) :=
  s ← get_st;
  match fptr_count (intern (env s)) with
  | Some scope =>
      rv ← match scope with
           | None => user_count eng
           | Some _ => a ← ALLOC_ZVAL (mkZv (Value (long_value eng (count (heap s)))) 1 false); mret (Some a)
           end;
      match rv with
      | Some rv =>
          s ← get_st;
          zval_ptr_dtor (retval (intern (env s)));;
          a ← ALLOC_ZVAL (mkZv IS_NULL 1 false);
          z ← cell rv;
          zval_copy_ctor (value z);;
          set_cell a (mkZv (Value (long_value eng (convert_to_long eng (value z)))) 1 false);;
          zval_ptr_dtor rv;;
          modify (on_env (fun w => set_intern (mkObj a (oflags (intern w)) (fptr_cmp (intern w))
                                                     (fptr_count (intern w))) w));;
          mret (Some (convert_to_long eng (value z)))
      | None => mret None
      end
  | None => mret (Some (spl_ptr_heap_count (heap s)))
  end.
End Objects.

Module Small.
Definition cmp_longs (_ : unit) (a b : Z) : M (hstate Z unit unit) Z := mret (a - b).
Definition nothing (_ : Z) : M (hstate Z unit unit) unit := mret tt.
Definition insert := spl_ptr_heap_insert cmp_longs nothing (fun _ => false).
Definition delete_top := spl_ptr_heap_delete_top cmp_longs nothing (fun _ => false).
Definition run : M (hstate Z unit unit) (list (option Z)) :=
  insert 3;; insert 8;; insert 5;; insert 8;; insert (-1);;
  a ← delete_top; b ← delete_top; c ← delete_top; d ← delete_top; e ← delete_top; f ← delete_top;
  mret [a; b; c; d; e; f].
Example pops_sorted :
  fst <$> (match run (mkHs (spl_ptr_heap_init tt) tt) with Ok r => Some r | Err _ => None end)
  = Some [Some 8; Some 8; Some 5; Some 3; Some (-1); None].
Proof. vm_compute. reflexivity. Qed.

(** A comparison that inserts 20 into its own heap, once, while 15 is being
    inserted: 20 is put below 15, and the heap is not flagged. *)
Definition plain (_ : unit) (a b : Z) : M (hstate Z unit bool) Z := mret (a - b).
Definition pass (_ : Z) : M (hstate Z unit bool) unit := mret tt.
Definition insert_20 : M (hstate Z unit bool) unit :=
  modify (on_env (fun _ => false));; spl_ptr_heap_insert plain pass (fun _ => false) 20.
Definition reentrant (_ : unit) (a b : Z) : M (hstate Z unit bool) Z :=
  get_st ≫= fun s : hstate Z unit bool => (if env s then insert_20 else mret tt);; mret (a - b).
Example reentrant_compare_unordered :
  match spl_ptr_heap_insert reentrant pass (fun _ => false) 15
          (mkHs (mkPtrHeap (Some 10 :: replicate 63 None) tt 1 64 0) true) with
  | Ok (_, s) => (take 3 (elements (heap s)), flags (heap s)) = ([Some 15; Some 20; Some 10], 0)
  | Err _ => False
  end.
Proof. vm_compute. reflexivity. Qed.
End Small.
