(* ===== verification/SplHeapSpec.v ===== *)
(** * The binary heap of spl_heap.c keeps its elements, and their order

    For any comparison function that leaves the heap itself alone ([quiet]),
    an insertion and a removal stay within the slots, neither lose nor
    duplicate an element, and return; if the function also answers as an
    order does whenever it raises no exception ([honest]), the heap keeps its
    order, or an exception is pending. *)

From S2P Require Import Prelude Dll SplHeap.
Open Scope Z_scope.

(** ** Lists read as heaps *)

Section Order.
Context {V : Type} (gle : V -> V -> Prop).
Implicit Types (L : list V) (i j k p : nat).

(** The element at [p] is not less than the one at [k]. *)
Definition above L p k : Prop := forall a b, L !! p = Some a -> L !! k = Some b -> gle a b.
Definition parent k : nat := ((k - 1) / 2)%nat.

Definition heap_ordered L : Prop := forall k, (0 < k)%nat -> above L (parent k) k.

(** What holds while an element at [i] is sifted up, or down: only [i], or
    only its children, may be out of order, and the children of [i] are in
    order with its parent. *)
Definition around L i : Prop :=
  forall k, (0 < k)%nat -> parent k = i -> (0 < i)%nat -> above L (parent i) k.
Definition up_inv L i : Prop :=
  (forall k, (0 < k)%nat -> k <> i -> above L (parent k) k) /\ around L i.
Definition down_inv L i : Prop :=
  (forall k, (0 < k)%nat -> parent k <> i -> above L (parent k) k) /\ around L i.

Lemma parent_lt k : (0 < k)%nat -> (parent k < k)%nat.
Proof. intros Hk. unfold parent. apply Nat.Div0.div_lt_upper_bound. lia. Qed.
Lemma parent_cases k i : (0 < k)%nat -> parent k = i -> k = (2 * i + 1)%nat \/ k = (2 * i + 2)%nat.
Proof.
  intros Hk <-. unfold parent. pose proof (Nat.div_mod_eq (k - 1) 2).
  pose proof (Nat.mod_upper_bound (k - 1) 2). lia.
Qed.
Lemma parent_left i : parent (2 * i + 1) = i.
Proof. unfold parent. symmetry. apply (Nat.div_unique _ _ _ 0); lia. Qed.
Lemma parent_right i : parent (2 * i + 2) = i.
Proof. unfold parent. symmetry. apply (Nat.div_unique _ _ _ 1); lia. Qed.

Lemma lookup_swap L i j x y k : (i < length L)%nat -> (j < length L)%nat ->
  <[j := y]> (<[i := x]> L) !! k =
  if decide (k = j) then Some y else if decide (k = i) then Some x else L !! k.
Proof.
  intros Hi Hj. destruct (decide (k = j)) as [->|Hkj].
  - apply list_lookup_insert_eq. by rewrite length_insert.
  - rewrite list_lookup_insert_ne by done. destruct (decide (k = i)) as [->|Hki].
    + by apply list_lookup_insert_eq.
    + by apply list_lookup_insert_ne.
Qed.

Context (gle_trans : forall a b c, gle a b -> gle b c -> gle a c).

Lemma up_done L i : up_inv L i -> (0 < i)%nat -> above L (parent i) i -> heap_ordered L.
Proof. intros [H _] Hi Ha k Hk. destruct (decide (k = i)) as [->|]; [done|by apply H]. Qed.
Lemma up_root L : up_inv L 0 -> heap_ordered L.
Proof. intros [H _] k Hk. apply H; lia. Qed.

Lemma up_step L i elem vp :
  (0 < i)%nat -> L !! i = Some elem -> L !! parent i = Some vp -> gle elem vp ->
  up_inv L i -> up_inv (<[parent i := elem]> (<[i := vp]> L)) (parent i).
Proof.
  intros Hi Hl Hp Hge [H1 H2]. pose proof (parent_lt i Hi) as Hlt.
  assert (Hi' : (i < length L)%nat) by by eapply lookup_lt_Some.
  assert (Hsw := fun k => lookup_swap L i (parent i) vp elem k Hi' ltac:(lia)).
  split.
  - intros k Hk Hne a b Ha Hb. rewrite Hsw in Ha, Hb. rewrite (decide_False (P := k = parent i)) in Hb by done.
    destruct (decide (k = i)) as [->|Hki].
    { rewrite decide_True in Ha by done. by simplify_eq. }
    destruct (decide (parent k = parent i)) as [E|E].
    { simplify_eq. apply (gle_trans _ vp); [done|]. apply (H1 k Hk Hki); [by rewrite E|done]. }
    destruct (decide (parent k = i)) as [E'|E']; [|by apply (H1 k Hk)].
    simplify_eq. by apply (H2 k Hk).
  - intros k Hk Hkp Hpos a b Ha Hb. rewrite Hsw in Ha, Hb.
    pose proof (parent_lt (parent i) Hpos). pose proof (parent_lt k Hk).
    rewrite !decide_False in Ha by lia. rewrite decide_False in Hb by lia.
    assert (Ha' : gle a vp) by (by apply (H1 (parent i)); [lia|lia| |]).
    destruct (decide (k = i)) as [->|Hki]; [by simplify_eq|].
    apply (gle_trans _ vp); [done|]. apply (H1 k Hk Hki); [by rewrite Hkp|done].
Qed.

Lemma down_done L i : down_inv L i ->
  (forall k, (0 < k)%nat -> parent k = i -> above L i k) -> heap_ordered L.
Proof.
  intros [H _] Hc k Hk. destruct (decide (parent k = i)) as [Hp|]; [|by apply H].
  rewrite Hp. by apply Hc.
Qed.

Lemma down_step L i j vj bottom :
  (0 < j)%nat -> parent j = i -> L !! i = Some bottom -> L !! j = Some vj -> gle vj bottom ->
  (forall k, (0 < k)%nat -> parent k = i -> above L j k) ->
  down_inv L i -> down_inv (<[j := bottom]> (<[i := vj]> L)) j.
Proof.
  intros Hj Hp Hi Hl Hge Hsib [H1 H2].
  assert (Hi' : (i < length L)%nat) by by eapply lookup_lt_Some.
  assert (Hj' : (j < length L)%nat) by by eapply lookup_lt_Some.
  assert (Hsw := fun k => lookup_swap L i j vj bottom k Hi' Hj').
  pose proof (parent_lt j Hj) as Hlt. split.
  - intros k Hk Hne a b Ha Hb. rewrite Hsw in Ha, Hb. pose proof (parent_lt k Hk) as Hk'.
    rewrite (decide_False (P := parent k = j)) in Ha by done.
    destruct (decide (k = j)) as [->|Hkj].
    { rewrite decide_True in Ha by done. by simplify_eq. }
    destruct (decide (parent k = i)) as [E|E].
    { simplify_eq. rewrite decide_False in Hb by lia. by apply (Hsib k Hk E). }
    destruct (decide (k = i)) as [E'|E']; [|by apply (H1 k Hk)].
    simplify_eq. apply (H2 j Hj); done || lia.
  - intros k Hk Hkj Hpos a b Ha Hb. rewrite Hsw in Ha, Hb. pose proof (parent_lt k Hk) as Hk'.
    rewrite Hp in Ha. rewrite decide_False, decide_True in Ha by (done || lia).
    rewrite !decide_False in Hb by lia. simplify_eq.
    apply (H1 k Hk); done || lia.
Qed.

(** The first element of a heap is the greatest. *)
Lemma heap_root L x : (forall a, gle a a) -> heap_ordered L -> L !! 0%nat = Some x ->
  forall k y, L !! k = Some y -> gle x y.
Proof.
  intros Hrefl Ho Hx k. induction (lt_wf k) as [k _ IH]. intros y Hy.
  destruct (decide (k = 0%nat)) as [->|Hk]; [by simplify_eq|].
  pose proof (parent_lt k ltac:(lia)) as Hlt.
  destruct (lookup_lt_is_Some_2 L (parent k)) as [z Hz].
  { apply lookup_lt_Some in Hy. lia. }
  apply (gle_trans _ z); [by apply (IH (parent k))|]. by apply (Ho k ltac:(lia)).
Qed.

Lemma up_start l elem : heap_ordered l -> up_inv (l ++ [elem]) (length l).
Proof.
  intros Ho. split.
  - intros k Hk Hne a b Ha Hb. pose proof (parent_lt k Hk).
    apply lookup_app_Some in Hb as [Hb|[Hlen Hb]].
    + rewrite lookup_app_l in Ha by (apply lookup_lt_Some in Hb; lia). by apply (Ho k Hk).
    + apply lookup_lt_Some in Hb. simpl in Hb. lia.
  - intros k Hk Hp _ a b _ Hb. apply lookup_lt_Some in Hb. rewrite length_app in Hb. simpl in Hb.
    pose proof (parent_lt k Hk). lia.
Qed.

Lemma down_start l bottom x : heap_ordered (x :: l ++ [bottom]) -> down_inv (bottom :: l) 0.
Proof.
  intros Ho. split; [|intros k _ _ Hk; lia].
  intros k Hk Hp a b Ha Hb. apply (Ho k Hk).
  - destruct (parent k) as [|p]; [done|]. simpl in *. by rewrite lookup_app_l by (by eapply lookup_lt_Some).
  - destruct k as [|k]; [lia|]. simpl in *. by rewrite lookup_app_l by (by eapply lookup_lt_Some).
Qed.

Lemma ordered_short L : (length L <= 1)%nat -> heap_ordered L.
Proof. intros HL k Hk a b _ Hb. apply lookup_lt_Some in Hb. lia. Qed.
End Order.

(** ** The loops on the slots *)

Section Loops.
Context {V C W K : Type}.
Context (call_cmp : C -> V -> V -> M (hstate V C W) Z) (EG_exception : W -> bool).
Context (live : W -> V -> Prop) (same : W -> W -> Prop) (key : W -> V -> K) (order : K -> K -> Z).
Implicit Types (h : spl_ptr_heap V C) (s : hstate V C W) (L l : list V) (w : W).

(** The comparison [c] of two elements returns and leaves the heap, and what
    [same] says of the rest, as they are; it does not clear an exception. *)
Record quiet (c : C) : Prop := {
  same_order : PreOrder same;
  same_live : forall w w' a, same w w' -> live w a -> live w' a;
  same_key : forall w w' a, same w w' -> live w a -> key w' a = key w a;
  quiet_call : forall a b s, live (env s) a -> live (env s) b -> exists r s',
    call_cmp c a b s = Ok (r, s') /\ heap s' = heap s /\ same (env s) (env s') /\
    (EG_exception (env s) = true -> EG_exception (env s') = true)
}.

(** Unless it leaves an exception pending, its answer is that of [order]. *)
Record honest (c : C) : Prop := {
  honest_order : Comparison order;
  honest_call : forall a b s r s', live (env s) a -> live (env s) b ->
    call_cmp c a b s = Ok (r, s') -> EG_exception (env s') = false ->
    Z.sgn r = Z.sgn (order (key (env s) a) (key (env s) b))
}.

Context (c : C) (Hq : quiet c) (w0 : W).
#[local] Instance same_pre : PreOrder same := same_order c Hq.

Definition gle (w : W) (a b : V) : Prop := 0 <= order (key w a) (key w b).

Lemma gle_trans (Ho : honest c) w a b d : gle w a b -> gle w b d -> gle w a d.
Proof.
  destruct Ho as [Ho _]. unfold gle. intros H1 H2.
  pose proof (cmp_opposite (key w a) (key w b)). pose proof (cmp_opposite (key w b) (key w d)).
  pose proof (cmp_opposite (key w a) (key w d)). pose proof (cmp_opposite (key w d) (key w a)).
  pose proof (cmp_opposite (key w b) (key w a)). pose proof (cmp_opposite (key w d) (key w b)).
  pose proof (cmp_trans (key w d) (key w b) (key w a)). lia.
Qed.
Lemma gle_refl (Ho : honest c) w a : gle w a a.
Proof. destruct Ho as [Ho _]. unfold gle. by rewrite cmp_refl. Qed.
Lemma gle_flip (Ho : honest c) w a b : order (key w a) (key w b) <= 0 -> gle w b a.
Proof.
  destruct Ho as [Ho _]. unfold gle.
  pose proof (cmp_opposite (key w a) (key w b)). pose proof (cmp_opposite (key w b) (key w a)). lia.
Qed.

(** Only the slots differ. *)
Definition same_header h h' : Prop :=
  cmp h' = cmp h /\ count h' = count h /\ max_size h' = max_size h /\ flags h' = flags h.

(** With [v] put into slot [i], the slots are [L] and then [rest]. *)
Definition filled h (i : nat) (v : V) L (rest : list (option V)) : Prop :=
  <[i := Some v]> (elements h) = (Some <$> L) ++ rest.

Lemma filled_length h i v L rest :
  filled h i v L rest -> length (elements h) = (length L + length rest)%nat.
Proof. intros H. apply (f_equal length) in H. by rewrite length_insert, length_app, length_fmap in H. Qed.

Lemma filled_element s i v L rest k x :
  filled (heap s) i v L rest -> L !! k = Some x -> k <> i -> element (Z.of_nat k) s = Ok (x, s).
Proof.
  intros Hf Hk Hne. unfold element, reading. rewrite (proj2 (Z.ltb_ge _ _)), Nat2Z.id by lia.
  rewrite <- (list_lookup_insert_ne _ i k (Some v)) by done. unfold filled in Hf. rewrite Hf.
  rewrite lookup_app_l by (rewrite length_fmap; by eapply lookup_lt_Some).
  by rewrite list_lookup_fmap, Hk.
Qed.

Lemma set_element_ok s (i : nat) v :
  (i < length (elements (heap s)))%nat ->
  set_element (Z.of_nat i) v s =
  Ok (tt, on_heap (fun h => set_elements (<[i := Some v]> (elements h)) h) s).
Proof.
  intros Hi. unfold set_element. rewrite (proj2 (Z.leb_le _ _)), (proj2 (Z.ltb_lt _ _)) by lia.
  by rewrite Nat2Z.id.
Qed.

(** One turn of either loop: the element of slot [j] moves to [i]. *)
Lemma filled_move h i j v x L rest :
  i <> j -> (i < length L)%nat -> (j < length L)%nat ->
  filled h i v L rest ->
  filled (set_elements (<[i := Some x]> (elements h)) h) j v (<[j := v]> (<[i := x]> L)) rest.
Proof.
  unfold filled. intros Hne Hi Hj Hf. simpl.
  rewrite <- (list_insert_insert_eq (elements h) i (Some x) (Some v)), Hf.
  rewrite !list_fmap_insert. by rewrite !insert_app_l by (rewrite ?length_insert, ?length_fmap; lia).
Qed.

Lemma compare_ok s a b :
  cmp (heap s) = c -> same w0 (env s) -> live w0 a -> live w0 b -> exists r s',
    compare_elements call_cmp a b s = Ok (r, s') /\ heap s' = heap s /\ same w0 (env s') /\
    (EG_exception (env s) = true -> EG_exception (env s') = true) /\
    (honest c -> EG_exception (env s') = false -> Z.sgn r = Z.sgn (order (key w0 a) (key w0 b))).
Proof.
  intros Hc Hs Ha Hb. unfold compare_elements. mstep. rewrite Hc.
  assert (Ha' : live (env s) a) by by eapply (same_live c Hq).
  assert (Hb' : live (env s) b) by by eapply (same_live c Hq).
  destruct (quiet_call c Hq a b s Ha' Hb') as (r & s' & Hr & Hh & Hs' & Hx).
  exists r, s'. split_and!; [done|done|by etrans|done|]. intros Ho Hn.
  rewrite (honest_call c Ho a b s r s') by done. by rewrite !(same_key c Hq w0 (env s)) by done.
Qed.

Lemma same_header_refl h : same_header h h.
Proof. done. Qed.
Lemma same_header_trans h h1 h2 : same_header h h1 -> same_header h1 h2 -> same_header h h2.
Proof. unfold same_header. intuition congruence. Qed.

Lemma sift_up_ok rest elem fuel : forall (i : nat) s L,
  (i < fuel)%nat -> cmp (heap s) = c -> same w0 (env s) -> Forall (live w0) L ->
  L !! i = Some elem -> filled (heap s) i elem L rest ->
  exists (i' : nat) s' L',
    sift_up call_cmp fuel (Z.of_nat i) elem s = Ok (Z.of_nat i', s') /\
    L ≡ₚ L' /\ L' !! i' = Some elem /\ filled (heap s') i' elem L' rest /\
    same_header (heap s) (heap s') /\ same w0 (env s') /\
    (EG_exception (env s) = true -> EG_exception (env s') = true) /\
    (honest c -> EG_exception (env s') = false -> up_inv (gle w0) L i -> heap_ordered (gle w0) L').
Proof.
  induction fuel as [|fuel IH]; intros i s L Hfu Hc Hs Hl Hi Hf; [lia|]. simpl.
  assert (Hlen : (i < length L)%nat) by by eapply lookup_lt_Some.
  destruct (Z.ltb_spec 0 (Z.of_nat i)) as [Hpos|Hz].
  2: { assert (i = 0%nat) as -> by lia. exists 0%nat, s, L. split_and!; try done.
       intros _ _. apply up_root. }
  assert (Hpar : (Z.of_nat i - 1) /c 2 = Z.of_nat (parent i)).
  { unfold parent. rewrite Nat2Z.inj_div, Nat2Z.inj_sub by lia. apply Z.quot_div_nonneg; lia. }
  rewrite Hpar. assert (Hlt := parent_lt i ltac:(lia)).
  destruct (lookup_lt_is_Some_2 L (parent i)) as [vp Hvp]; [lia|].
  rewrite Forall_lookup in Hl.
  rewrite (mbind_ok _ _ _ _ _ (filled_element _ _ _ _ _ _ _ Hf Hvp ltac:(lia))).
  destruct (compare_ok s vp elem Hc Hs (Hl _ _ Hvp) (Hl _ _ Hi)) as (r & s1 & Hr & Hh & Hs1 & Hx & Hon).
  rewrite (mbind_ok _ _ _ _ _ Hr). rewrite <- Hh in Hf, Hc.
  destruct (Z.ltb_spec r 0) as [Hneg|Hge].
  - rewrite (mbind_ok _ _ _ _ _ (filled_element _ _ _ _ _ _ _ Hf Hvp ltac:(lia))).
    rewrite (mbind_ok _ _ _ _ _ (set_element_ok s1 i vp ltac:(rewrite (filled_length _ _ _ _ _ Hf); lia))).
    set (s2 := on_heap _ s1).
    destruct (IH (parent i) s2 (<[parent i := elem]> (<[i := vp]> L)))
      as (i' & s' & L' & Hrun & Hp & Hi' & Hf' & Hh' & Hs' & Hx' & Hon').
    + lia.
    + done.
    + done.
    + rewrite Forall_lookup. intros k x. rewrite lookup_swap by lia. repeat case_decide; naive_solver.
    + rewrite lookup_swap by lia. by rewrite decide_True.
    + by apply filled_move; [lia..|].
    + exists i', s', L'. split_and!; try done.
      * etrans; [|exact Hp]. symmetry. by apply Permutation_insert_swap.
      * by rewrite <- Hh.
      * intros He. apply Hx'. by apply Hx.
      * intros Ho Hn Hu. apply Hon'; [done..|]. apply up_step; try done; [by apply gle_trans|lia|].
        apply (gle_flip Ho). specialize (Hon Ho).
        destruct (EG_exception (env s1)) eqn:E; [|lia].
        rewrite Hx' in Hn; done.
  - exists i, s1, L. split_and!; try done.
    + by rewrite <- Hh.
    + intros Ho Hn Hu. apply (up_done _ _ i); [done|lia|].
      intros a b Ha Hb. simplify_eq. unfold gle. specialize (Hon Ho Hn). lia.
Qed.

(** [element] in a slot that is not the hole, behind the elements also. *)
Lemma filled_slot s i v L rest k x :
  filled (heap s) i v L rest -> ((Some <$> L) ++ rest) !! k = Some (Some x) -> k <> i ->
  element (Z.of_nat k) s = Ok (x, s).
Proof.
  intros Hf Hk Hne. unfold element, reading. rewrite (proj2 (Z.ltb_ge _ _)), Nat2Z.id by lia.
  rewrite <- (list_lookup_insert_ne _ i k (Some v)) by done. unfold filled in Hf. by rewrite Hf, Hk.
Qed.
Lemma slot_in L rest k (x : V) : L !! k = Some x -> ((Some <$> L) ++ rest) !! k = Some (Some x).
Proof.
  intros Hk. rewrite lookup_app_l by (rewrite length_fmap; by eapply lookup_lt_Some).
  by rewrite list_lookup_fmap, Hk.
Qed.
Lemma slot_next L rest (x : V) : ((Some <$> L) ++ Some x :: rest) !! length L = Some (Some x).
Proof. rewrite lookup_app_r by (rewrite length_fmap; lia). by rewrite length_fmap, Nat.sub_diag. Qed.

(** The choice between the two children of [i]. *)
Lemma greater_child rest bottom (i : nat) s L :
  cmp (heap s) = c -> count (heap s) = Z.of_nat (length L) -> same w0 (env s) ->
  Forall (live w0) L -> live w0 bottom ->
  filled (heap s) i bottom L (Some bottom :: rest) -> (2 * i + 1 < length L)%nat ->
  exists (j : nat) s' x,
    (if Z.of_nat i * 2 + 1 =? count (heap s) then mret (Z.of_nat i * 2 + 1)
     else
       right ← element (Z.of_nat i * 2 + 1 + 1);
       left ← element (Z.of_nat i * 2 + 1);
       r ← compare_elements call_cmp right left;
       mret (if 0 <? r then Z.of_nat i * 2 + 1 + 1 else Z.of_nat i * 2 + 1)) s = Ok (Z.of_nat j, s') /\
    heap s' = heap s /\ same w0 (env s') /\
    (EG_exception (env s) = true -> EG_exception (env s') = true) /\
    (j = 2 * i + 1 \/ j = 2 * i + 2)%nat /\ live w0 x /\
    ((Some <$> L) ++ Some bottom :: rest) !! j = Some (Some x) /\
    (honest c -> EG_exception (env s') = false ->
     forall k y, (0 < k)%nat -> parent k = i -> L !! k = Some y -> gle w0 x y).
Proof.
  intros Hc Hn Hs Hl Hb Hf Hi. rewrite (proj2 (Z.eqb_neq _ _)) by lia.
  destruct (lookup_lt_is_Some_2 L (2 * i + 1)) as [vl Hvl]; [lia|].
  assert (exists vr, ((Some <$> L) ++ Some bottom :: rest) !! (2 * i + 2)%nat = Some (Some vr) /\ live w0 vr /\
    (forall y, L !! (2 * i + 2)%nat = Some y -> y = vr)) as (vr & Hvr & Hlr & Hin).
  { destruct (decide (2 * i + 2 = length L)%nat) as [E|E].
    - exists bottom. rewrite E, slot_next. split_and!; [done|done|].
      intros y Hy. apply lookup_lt_Some in Hy. lia.
    - destruct (lookup_lt_is_Some_2 L (2 * i + 2)) as [vr Hvr]; [lia|].
      exists vr. split_and!; [by apply slot_in|rewrite Forall_lookup in Hl; by eapply Hl|].
      intros y Hy. by simplify_eq. }
  replace (Z.of_nat i * 2 + 1 + 1) with (Z.of_nat (2 * i + 2)) by lia.
  replace (Z.of_nat i * 2 + 1) with (Z.of_nat (2 * i + 1)) by lia.
  rewrite (mbind_ok _ _ _ _ _ (filled_slot _ _ _ _ _ _ _ Hf Hvr ltac:(lia))).
  rewrite (mbind_ok _ _ _ _ _ (filled_element _ _ _ _ _ _ _ Hf Hvl ltac:(lia))).
  assert (Hll : live w0 vl) by (rewrite Forall_lookup in Hl; by eapply Hl).
  destruct (compare_ok s vr vl Hc Hs Hlr Hll) as (r & s1 & Hr & Hh & Hs1 & Hx & Hon).
  rewrite (mbind_ok _ _ _ _ _ Hr).
  assert (Hch : forall x, (honest c -> EG_exception (env s1) = false -> gle w0 x vl /\ gle w0 x vr) ->
    honest c -> EG_exception (env s1) = false ->
    forall k y, (0 < k)%nat -> parent k = i -> L !! k = Some y -> gle w0 x y).
  { intros x Hxy Ho He k y Hk Hp Hy. destruct (Hxy Ho He) as [H1 H2].
    destruct (parent_cases k i Hk Hp) as [->| ->]; [by simplify_eq|by rewrite (Hin y Hy)]. }
  destruct (Z.ltb_spec 0 r) as [Hpos|Hneg].
  - exists (2 * i + 2)%nat, s1, vr. split_and!; try done; [by right|].
    apply Hch. intros Ho He. specialize (Hon Ho He). split; [unfold gle; lia|by apply gle_refl].
  - exists (2 * i + 1)%nat, s1, vl. split_and!; try done; [by left|by apply slot_in|].
    apply Hch. intros Ho He. specialize (Hon Ho He). split; [by apply gle_refl|apply (gle_flip Ho); lia].
Qed.

(** The element at [j] moves to [i]; past the elements, it is [bottom]. *)
Lemma move_down rest bottom x h (i j : nat) L :
  filled h i bottom L (Some bottom :: rest) -> L !! i = Some bottom -> (i < j)%nat -> (j <= length L)%nat ->
  ((Some <$> L) ++ Some bottom :: rest) !! j = Some (Some x) ->
  exists L2, L ≡ₚ L2 /\ (L2 !! j = Some bottom \/ j = length L2) /\
    filled (set_elements (<[i := Some x]> (elements h)) h) j bottom L2 (Some bottom :: rest) /\
    (x = bottom \/ L !! j = Some x /\ L2 = <[j := bottom]> (<[i := x]> L)).
Proof.
  intros Hf Hi Hij Hj Hx. assert (Hil : (i < length L)%nat) by by eapply lookup_lt_Some.
  destruct (decide (j = length L)) as [->|Hne].
  - rewrite slot_next in Hx. injection Hx as <-. exists L. split_and!; [done|by right| |by left].
    unfold filled in *. simpl. rewrite Hf. apply list_insert_id. apply slot_next.
  - exists (<[j := bottom]> (<[i := x]> L)).
    destruct (lookup_lt_is_Some_2 L j) as [y Hy]; [lia|].
    rewrite (slot_in _ _ _ _ Hy) in Hx. injection Hx as ->. split_and!.
    + symmetry. by apply Permutation_insert_swap.
    + left. rewrite lookup_swap by lia. by rewrite decide_True.
    + apply filled_move; done || lia.
    + by right.
Qed.

Lemma sift_down_ok rest bottom fuel : forall (i : nat) s L,
  (length L / 2 - i < fuel)%nat -> cmp (heap s) = c -> count (heap s) = Z.of_nat (length L) ->
  same w0 (env s) -> Forall (live w0) L -> live w0 bottom ->
  L !! i = Some bottom \/ i = length L -> filled (heap s) i bottom L (Some bottom :: rest) ->
  exists (i' : nat) s' L',
    sift_down call_cmp fuel (Z.of_nat i) (Z.of_nat (length L / 2)) bottom s = Ok (Z.of_nat i', s') /\
    L ≡ₚ L' /\ (i' <= length L)%nat /\ filled (heap s') i' bottom L' (Some bottom :: rest) /\
    same_header (heap s) (heap s') /\ same w0 (env s') /\
    (EG_exception (env s) = true -> EG_exception (env s') = true) /\
    (honest c -> EG_exception (env s') = false -> L !! i = Some bottom ->
     down_inv (gle w0) L i -> heap_ordered (gle w0) L').
Proof.
  induction fuel as [|fuel IH]; intros i s L Hfu Hc Hn Hs Hl Hb Hi Hf; [lia|].
  change (sift_down call_cmp (S fuel)) with (sift_down call_cmp (S fuel)). cbn [sift_down].
  assert (Hdiv := Nat.div_mod_eq (length L) 2). assert (Hmod := Nat.mod_upper_bound (length L) 2).
  assert (Hile : (i <= length L)%nat).
  { destruct Hi as [Hi| ->]; [apply lookup_lt_Some in Hi|]; lia. }
  destruct (Z.ltb_spec (Z.of_nat i) (Z.of_nat (length L / 2))) as [Hlt|Hge].
  2: { exists i, s, L. split_and!; try done. intros _ _ Hib Hd. apply (down_done _ _ i Hd).
       intros k Hk Hp a b _ Hkb. apply lookup_lt_Some in Hkb.
       apply parent_cases in Hp; [|done]. lia. }
  destruct Hi as [Hi|Hi]; [|lia]. mstep.
  destruct (greater_child rest bottom i s L Hc Hn Hs Hl Hb Hf ltac:(lia))
    as (j & s1 & x & Hj & Hh & Hs1 & Hx & Hjc & Hlx & Hslot & Hon).
  rewrite (mbind_ok _ _ _ _ _ Hj). rewrite <- Hh in Hf, Hc, Hn.
  rewrite (mbind_ok _ _ _ _ _ (filled_slot _ _ _ _ _ _ _ Hf Hslot ltac:(lia))).
  destruct (compare_ok s1 bottom x Hc Hs1 Hb Hlx) as (r & s2 & Hr & Hh2 & Hs2 & Hx2 & Hon2).
  rewrite (mbind_ok _ _ _ _ _ Hr). rewrite <- Hh2 in Hf, Hc, Hn.
  destruct (Z.ltb_spec r 0) as [Hneg|Hnn].
  2: { exists i, s2, L. split_and!; try done; [by rewrite <- Hh, <- Hh2|naive_solver|].
       intros Ho He _ Hd. apply (down_done _ _ i Hd). intros k Hk Hp a b Ha Hkb.
       rewrite Hi in Ha. injection Ha as <-.
       apply (gle_trans Ho _ _ x); [unfold gle; specialize (Hon2 Ho He); lia|].
       apply (Hon Ho) with (k := k); try done.
       destruct (EG_exception (env s1)); [by rewrite Hx2 in He|done]. }
  rewrite (mbind_ok _ _ _ _ _ (filled_slot _ _ _ _ _ _ _ Hf Hslot ltac:(lia))).
  rewrite (mbind_ok _ _ _ _ _ (set_element_ok s2 i x ltac:(rewrite (filled_length _ _ _ _ _ Hf); lia))).
  set (s3 := on_heap _ s2).
  destruct (move_down rest bottom x (heap s2) i j L Hf Hi ltac:(lia) ltac:(lia) Hslot)
    as (L2 & Hp2 & Hj2 & Hf2 & Hcase).
  assert (Hlen : length L2 = length L) by by rewrite Hp2.
  destruct (IH j s3 L2) as (i' & s' & L' & Hrun & Hp & Hi' & Hf' & Hh' & Hs' & Hx' & Hon');
    [rewrite Hlen; lia|done|by rewrite Hlen|done|by rewrite <- Hp2|done|done|done|].
  rewrite Hlen in Hrun, Hi'. exists i', s', L'. split_and!; try done.
  - by etrans.
  - by rewrite <- Hh, <- Hh2.
  - naive_solver.
  - intros Ho He Hib Hd.
    assert (He2 : EG_exception (env s2) = false).
    { apply not_true_is_false. intros E. by rewrite (Hx' E) in He. }
    assert (He1 : EG_exception (env s1) = false).
    { apply not_true_is_false. intros E. by rewrite (Hx2 E) in He2. }
    specialize (Hon2 Ho He2).
    destruct Hcase as [->|[Hlj ->]].
    { pose proof (honest_order c Ho); rewrite (cmp_refl order) in Hon2. simpl in Hon2. lia. }
    apply Hon'; [done..| |].
    + assert (j < length L)%nat by (by eapply lookup_lt_Some). rewrite lookup_swap by lia. by rewrite decide_True.
    + assert (Hpj : parent j = i).
      { destruct Hjc as [->| ->]; [apply parent_left|apply parent_right]. }
      apply down_step; try done; [lia| |].
      * apply (gle_flip Ho). lia.
      * intros k Hk Hpk a b Ha Hb'. rewrite Hlj in Ha. injection Ha as <-. by eapply Hon.
Qed.

(** ** The operations *)

(** The heap [h] holds the elements [l], in the order of their slots. *)
Definition rep h l : Prop :=
  exists rest, elements h = (Some <$> l) ++ rest /\ count h = Z.of_nat (length l) /\
    max_size h = Z.of_nat (length (elements h)) /\ 1 <= max_size h.

(** The flags of the heap after an operation that ends in [w]. *)
Definition flags_after (w : W) (f : Z) : Z :=
  if EG_exception w then Z.lor f SPL_HEAP_CORRUPTED else f.

Lemma note_exception_ok s :
  note_exception EG_exception s =
  Ok (tt, on_heap (set_flags (flags_after (env s) (flags (heap s)))) s).
Proof.
  unfold note_exception, flags_after. mstep. destruct s as [[] ]. by destruct (EG_exception _).
Qed.

Lemma rep_top s x l : rep (heap s) (x :: l) -> spl_ptr_heap_top s = Ok (Some x, s).
Proof.
  intros (rest & He & Hc & _). unfold spl_ptr_heap_top. mstep. rewrite Hc.
  rewrite (proj2 (Z.eqb_neq _ _)) by (simpl; lia).
  rewrite (mbind_ok _ _ s x s); [done|]. unfold element, reading. by rewrite He.
Qed.
Lemma rep_top_empty s : rep (heap s) [] -> spl_ptr_heap_top s = Ok (None, s).
Proof. intros (rest & He & Hc & _). unfold spl_ptr_heap_top. mstep. by rewrite Hc. Qed.

(** After [grow], if it is needed, there is a free slot. *)
Lemma room_ok s l : rep (heap s) l -> Z.of_nat (length l) < 2 ^ 30 ->
  exists h' v rest, (if max_size (heap s) <? s32 (count (heap s) + 1) then grow else mret tt) s
      = Ok (tt, mkHs h' (env s)) /\
    elements h' = (Some <$> l) ++ v :: rest /\ count h' = count (heap s) /\
    cmp h' = cmp (heap s) /\ flags h' = flags (heap s) /\ max_size h' = Z.of_nat (length (elements h')).
Proof.
  intros (rest & He & Hc & Hm & H1) Hlen. rewrite Hc. pose proof Hm as Hm'. rewrite He, length_app, length_fmap in Hm.
  rewrite s32_small by (unfold INT_MIN, INT_MAX; lia).
  destruct (Z.ltb_spec (max_size (heap s)) (Z.of_nat (length l) + 1)) as [Hlt|Hge].
  - assert (rest = []) as -> by (destruct rest; [done|simpl in Hm; lia]).
    unfold grow, modify, on_heap. destruct (Z.to_nat (max_size (heap s))) as [|n] eqn:En; [lia|].
    eexists _, None, (replicate n None). split; [done|]. simpl. split_and!; try done.
    + rewrite He. by rewrite app_nil_r.
    + rewrite s32_small by (unfold INT_MIN, INT_MAX; simpl in Hm; lia).
      rewrite length_app. simpl. rewrite length_replicate. lia.
  - destruct rest as [|v rest]; [simpl in Hm; lia|]. destruct s as [h e]. exists h, v, rest. done.
Qed.

Lemma insert_ok (ctor : V -> M (hstate V C W) unit) s l elem :
  rep (heap s) l -> cmp (heap s) = c -> Z.of_nat (length l) < 2 ^ 30 ->
  (forall h, ctor elem (mkHs h (env s)) = Ok (tt, mkHs h w0)) -> Forall (live w0) (elem :: l) ->
  exists s' l', spl_ptr_heap_insert call_cmp ctor EG_exception elem s = Ok (tt, s') /\
    l' ≡ₚ elem :: l /\ rep (heap s') l' /\ cmp (heap s') = c /\
    flags (heap s') = flags_after (env s') (flags (heap s)) /\ same w0 (env s') /\
    (EG_exception w0 = true -> EG_exception (env s') = true) /\
    (honest c -> EG_exception (env s') = false -> heap_ordered (gle w0) l -> heap_ordered (gle w0) l').
Proof.
  intros Hr Hc Hlen Hctor Hl. unfold spl_ptr_heap_insert. mstep.
  destruct (room_ok s l Hr Hlen) as (h1 & v & rest & Hg & He & Hct & Hcm & Hfl & Hmx).
  rewrite (mbind_ok _ _ _ _ _ Hg), (mbind_ok _ _ _ _ _ (Hctor h1)). do 2 mstep.
  assert (Hn : count (heap s) = Z.of_nat (length l)) by by destruct Hr as (? & ? & ? & ?).
  cbn [heap env]. rewrite Hct, Hn, Nat2Z.id. set (s1 := on_heap _ _).
  assert (Hfill : filled (heap s1) (length l) elem (l ++ [elem]) rest).
  { unfold filled. simpl. rewrite He, fmap_app. replace (length l) with (length (Some <$> l) + 0)%nat
      by (rewrite length_fmap; lia). rewrite insert_app_r. simpl. by rewrite <- app_assoc. }
  destruct (sift_up_ok rest elem (S (length l)) (length l) s1 (l ++ [elem]))
    as (i & s2 & L & Hrun & Hp & Hi & Hf & (Hh1 & Hh2 & Hh3 & Hh4) & Hs & Hx & Hon).
  { lia. } { simpl. congruence. } { simpl. destruct Hq as [[] _ _ _]. done. }
  { rewrite Forall_app, Forall_singleton. by apply Forall_cons in Hl as [? ?]. }
  { by rewrite lookup_app_r, Nat.sub_diag by lia. } { done. }
  rewrite (mbind_ok _ _ _ _ _ Hrun), (mbind_ok _ _ _ _ _ (note_exception_ok s2)).
  rewrite set_element_ok. 2: { simpl. rewrite (filled_length _ _ _ _ _ Hf). apply lookup_lt_Some in Hi. lia. }
  eexists _, L. split; [done|]. simpl in *. unfold filled in Hf. split_and!; try done.
  - rewrite <- Hp. by rewrite Permutation_app_comm.
  - exists rest. simpl. rewrite Hf. split_and!; [done| | |].
    + rewrite Hh2, <- Hp, length_app. simpl. rewrite s32_small by (unfold INT_MIN, INT_MAX; lia). lia.
    + rewrite Hh3, Hmx, He, !length_app, !length_fmap, <- Hp, length_app. simpl. lia.
    + rewrite Hh3, Hmx, He, length_app. simpl. lia.
  - congruence.
  - by rewrite Hh4, Hfl.
  - intros Ho Hn' Hord. apply Hon; [done..|]. by apply up_start.
Qed.

Lemma rep_count s l : rep (heap s) l -> count (heap s) = Z.of_nat (length l).
Proof. by intros (? & ? & ? & ?). Qed.
Lemma slot_element s k x : elements (heap s) !! k = Some (Some x) -> element (Z.of_nat k) s = Ok (x, s).
Proof.
  intros Hk. unfold element, reading. rewrite (proj2 (Z.ltb_ge _ _)), Nat2Z.id by lia. by rewrite Hk.
Qed.

Lemma delete_top_empty (dtor : V -> M (hstate V C W) unit) s :
  rep (heap s) [] -> spl_ptr_heap_delete_top call_cmp dtor EG_exception s = Ok (None, s).
Proof.
  intros Hr. apply rep_count in Hr. unfold spl_ptr_heap_delete_top. mstep. by rewrite Hr.
Qed.

(** Without the first element, and with the last one in its place. *)
Lemma behead (x : V) (l : list V) : exists L bottom,
  (x :: l) = L ++ [bottom] /\ length L = length l /\ x :: <[0%nat := bottom]> L ≡ₚ x :: l /\
  (L = [] \/ exists l1, L = x :: l1).
Proof.
  destruct (@exists_last _ (x :: l)) as (L & bottom & HL); [done|]. exists L, bottom.
  pose proof (f_equal length HL) as Hlen. rewrite length_app in Hlen. simpl in Hlen.
  split_and!; [done|lia| |].
  - destruct L as [|y L]; [by destruct l|]. injection HL as -> ->. simpl.
    by rewrite Permutation_app_comm.
  - destruct L as [|y L]; [by left|]. injection HL as -> _. right. by exists L.
Qed.

Lemma delete_top_ok (dtor : V -> M (hstate V C W) unit) s x l :
  rep (heap s) (x :: l) -> cmp (heap s) = c -> env s = w0 -> Z.of_nat (length (x :: l)) < 2 ^ 31 ->
  Forall (live w0) (x :: l) ->
  exists s' l', spl_ptr_heap_delete_top call_cmp dtor EG_exception s = (dtor x;; mret (Some x)) s' /\
    l' ≡ₚ l /\ rep (heap s') l' /\ cmp (heap s') = c /\
    flags (heap s') = flags_after (env s') (flags (heap s)) /\ same w0 (env s') /\
    (EG_exception w0 = true -> EG_exception (env s') = true) /\
    (honest c -> EG_exception (env s') = false ->
     heap_ordered (gle w0) (x :: l) -> heap_ordered (gle w0) l').
Proof.
  intros Hr Hc Hw Hlen Hl. pose proof (rep_count s _ Hr) as Hn.
  destruct (behead x l) as (L0 & bottom & HL & HLl & Hperm & Hshape).
  unfold spl_ptr_heap_delete_top. mstep. rewrite Hn.
  rewrite (proj2 (Z.eqb_neq _ _)) by (simpl; lia).
  destruct Hr as (rest & He & _ & Hm & H1).
  rewrite (mbind_ok _ _ _ _ _ (slot_element s 0 x ltac:(by rewrite He))). mstep.
  replace (Z.of_nat (length (x :: l)) - 1) with (Z.of_nat (length l)) by (simpl; lia).
  rewrite HL, fmap_app, <- app_assoc in He. simpl in He. rewrite <- HLl.
  set (s1 := on_heap (set_count _) s).
  rewrite (mbind_ok _ _ _ _ _ (slot_element s1 (length L0) bottom ltac:(simpl; rewrite He; apply slot_next))).
  replace (Z.of_nat (length L0) /c 2) with (Z.of_nat (length L0 / 2))
    by (rewrite Nat2Z.inj_div; symmetry; apply Z.quot_div_nonneg; lia).
  set (L := <[0%nat := bottom]> L0) in *.
  assert (HLL : length L = length L0) by apply length_insert.
  assert (Hlive : Forall (live w0) L /\ live w0 bottom).
  { rewrite <- Hperm in Hl. apply Forall_cons in Hl as [Hlx Hl]. split; [done|].
    destruct Hshape as [->|[l1 ->]]; [|by apply Forall_cons in Hl as [? _]].
    by injection HL as <-. }
  assert (Hf : filled (heap s1) 0 bottom L (Some bottom :: rest)).
  { unfold filled, L. simpl. rewrite He. by destruct Hshape as [->|[l1 ->]]. }
  destruct (sift_down_ok rest bottom (S (Z.to_nat (Z.of_nat (length L0 / 2)))) 0 s1 L)
    as (i & s2 & L' & Hrun & Hp & Hi & Hf' & (Hh1 & Hh2 & Hh3 & Hh4) & Hs & Hx & Hon).
  { rewrite HLL. lia. } { done. } { simpl. by rewrite HLL. } { simpl. by rewrite Hw. } { apply Hlive. } { apply Hlive. }
  { unfold L. destruct Hshape as [->|[l1 ->]]; [by right|by left]. } { done. }
  rewrite HLL in Hrun. change (Z.of_nat 0) with 0 in Hrun.
  rewrite (mbind_ok _ _ _ _ _ Hrun), (mbind_ok _ _ _ _ _ (note_exception_ok s2)).
  assert (Hil : (i < length (elements (heap s2)))%nat).
  { rewrite (filled_length _ _ _ _ _ Hf'), <- Hp. simpl. lia. }
  erewrite mbind_ok by (apply set_element_ok; exact Hil).
  eexists _, L'. split; [reflexivity|]. unfold filled in Hf'. simpl in *.
  assert (HlL' : length L' = length L0) by by rewrite <- Hp.
  assert (Hlen' := f_equal length He). rewrite length_app, length_fmap in Hlen'. simpl in Hlen'.
  split_and!; try done.
  - rewrite <- Hp. by apply (Permutation_cons_inv (a := x)).
  - exists (Some bottom :: rest). simpl. rewrite Hf'. split_and!; [done|by rewrite Hh2, HlL'| |lia].
    rewrite Hh3, Hm, Hlen', length_app, length_fmap. simpl. lia.
  - congruence.
  - by rewrite Hh4.
  - by rewrite <- Hw.
  - intros Ho Hn' Hord. destruct Hshape as [E|[l1 E]].
    + apply ordered_short. rewrite HlL', E. simpl. lia.
    + apply Hon; [done..|by unfold L; rewrite E|]. unfold L. rewrite E. simpl.
      apply (down_start _ _ bottom x). by rewrite E in HL; simpl in HL; rewrite <- HL.
Qed.
End Loops.
