(* ===== verification/SplHeapRefs.v ===== *)
(** * Reference counts of the zvals a heap holds

    [free_refs] are the references to a zval that are not from the table of
    an array in the store: those of the heap and of everything outside.
    Releasing a reference ([zval_ptr_dtor]) takes one of them, whatever is
    destroyed with the zval; a store is [sound] as long as none are missing. *)

From S2P Require Import Prelude Dll SplHeap.
Open Scope Z_scope.

Section Store.
Context {D : Type}.
Implicit Types (m : gmap addr (zval D)) (z : zval D) (a b : addr) (l : list addr).

(** How often [a] is in [l]. *)
Definition occ a l : Z := Z.of_nat (count_occ Pos.eq_dec l a).
Lemma occ_nil a : occ a [] = 0.
Proof. done. Qed.
Lemma occ_cons a b l : occ a (b :: l) = (if decide (b = a) then 1 else 0) + occ a l.
Proof. unfold occ. simpl. destruct (Pos.eq_dec b a), (decide (b = a)); done || lia. Qed.
Lemma occ_app a l l' : occ a (l ++ l') = occ a l + occ a l'.
Proof. unfold occ. rewrite count_occ_app. lia. Qed.
Lemma occ_nonneg a l : 0 <= occ a l.
Proof. unfold occ. lia. Qed.
#[export] Instance occ_perm a : Proper ((≡ₚ) ==> eq) (occ a).
Proof. intros l l' Hp. unfold occ. by rewrite (proj1 (Permutation_count_occ Pos.eq_dec l l') Hp). Qed.
Lemma occ_in a l : a ∈ l -> 1 <= occ a l.
Proof. intros Ha. apply list_elem_of_split in Ha as (l1 & l2 & ->). rewrite occ_app, occ_cons, decide_True by done.
  pose proof (occ_nonneg a l1). pose proof (occ_nonneg a l2). lia. Qed.

(** The members of an array; those of one that is being destroyed, whose
    count is 0, no longer count. *)
Definition members (v : zvalue D) : list addr := match v with IS_ARRAY ht => ht.*2 | _ => [] end.
Definition counted z : list addr := if 0 <? refcount__gc z then members (value z) else [].
Definition table_refs m a : Z := map_fold (fun _ z acc => occ a (counted z) + acc) 0 m.
Definition refs m a : Z := match m !! a with Some z => refcount__gc z | None => 0 end.
Definition free_refs m a : Z := refs m a - table_refs m a.

Definition sound m : Prop :=
  (forall a, 0 <= free_refs m a) /\ (forall a z, m !! a = Some z -> 0 <= refcount__gc z < 2 ^ 32).

Lemma table_refs_insert m a b z :
  m !! b = None -> table_refs (<[b := z]> m) a = occ a (counted z) + table_refs m a.
Proof. intros Hb. unfold table_refs. rewrite map_fold_insert_L; [done|intros; lia|done]. Qed.
Lemma table_refs_delete m a b z :
  m !! b = Some z -> table_refs m a = occ a (counted z) + table_refs (delete b m) a.
Proof.
  intros Hb. rewrite <- (insert_id m b z) at 1 by done.
  rewrite <- insert_delete_eq. apply table_refs_insert. apply lookup_delete_eq.
Qed.
Lemma table_refs_update m a b z z' :
  m !! b = Some z -> table_refs (<[b := z']> m) a = table_refs m a - occ a (counted z) + occ a (counted z').
Proof.
  intros Hb. rewrite <- insert_delete_eq, table_refs_insert by apply lookup_delete_eq.
  rewrite (table_refs_delete m a b z Hb). lia.
Qed.
Lemma table_refs_nonneg m a : 0 <= table_refs m a.
Proof.
  unfold table_refs. apply (map_fold_weak_ind (fun r _ => 0 <= r)); [done|].
  intros i z m' r _ Hr. pose proof (occ_nonneg a (counted z)). lia.
Qed.
Lemma table_refs_member m a b z :
  m !! b = Some z -> 0 < refcount__gc z -> a ∈ members (value z) -> 1 <= table_refs m a.
Proof.
  intros Hb Hz Ha. rewrite (table_refs_delete m a b z Hb). pose proof (table_refs_nonneg (delete b m) a).
  unfold counted. rewrite (proj2 (Z.ltb_lt _ _) Hz). pose proof (occ_in a _ Ha). lia.
Qed.

Lemma refs_insert m a b z : refs (<[b := z]> m) a = if decide (b = a) then refcount__gc z else refs m a.
Proof. unfold refs. destruct (decide (b = a)) as [->|]; [by rewrite lookup_insert_eq|by rewrite lookup_insert_ne]. Qed.

Definition delta a b : Z := if decide (a = b) then 1 else 0.

(** A cell whose count changes but stays positive. *)
Lemma free_refs_recount m a b z n r :
  m !! b = Some z -> 0 < refcount__gc z -> 0 < n ->
  free_refs (<[b := mkZv (value z) n r]> m) a = free_refs m a + delta b a * (n - refcount__gc z).
Proof.
  intros Hb Hz Hn. unfold free_refs, delta. rewrite refs_insert, (table_refs_update m a b z _ Hb).
  unfold counted. simpl. rewrite !(proj2 (Z.ltb_lt _ _)) by done.
  destruct (decide (b = a)) as [<-|]; [|lia]. unfold refs. rewrite Hb. lia.
Qed.

(** A cell whose count becomes 0 no longer counts its members. *)
Lemma free_refs_drop m a b z v r :
  m !! b = Some z -> 0 < refcount__gc z ->
  free_refs (<[b := mkZv v 0 r]> m) a =
  free_refs m a - delta b a * refcount__gc z + occ a (members (value z)).
Proof.
  intros Hb Hz. unfold free_refs, delta. rewrite refs_insert, (table_refs_update m a b z _ Hb).
  unfold counted. simpl. rewrite (proj2 (Z.ltb_lt _ _)) by done. rewrite occ_nil.
  destruct (decide (b = a)) as [<-|]; [|lia]. unfold refs. rewrite Hb. lia.
Qed.

(** A cell of count 0 can go. *)
Lemma free_refs_delete m a b : refs m b = 0 -> free_refs (delete b m) a = free_refs m a.
Proof.
  intros Hb. destruct (m !! b) as [z|] eqn:Hz; [|by rewrite delete_id].
  unfold free_refs, refs in *. rewrite Hz in Hb. rewrite (table_refs_delete m a b z Hz).
  unfold counted. rewrite Hb. simpl. rewrite occ_nil.
  destruct (decide (a = b)) as [->|]; [rewrite lookup_delete_eq, Hz; lia|rewrite lookup_delete_ne by done; lia].
Qed.

(** A new cell with the references to its members. *)
Lemma free_refs_new m a b z :
  m !! b = None -> free_refs (<[b := z]> m) a = free_refs m a + delta b a * refcount__gc z - occ a (counted z).
Proof.
  intros Hb. unfold free_refs, delta. rewrite refs_insert, table_refs_insert by done.
  destruct (decide (b = a)) as [<-|]; [|lia]. unfold refs. rewrite Hb. lia.
Qed.

(** How many cells have a positive count. *)
Definition positives m : nat := size (filter (fun kz => 0 < refcount__gc kz.2) m).
Lemma positives_le m : (positives m <= size m)%nat.
Proof. apply map_size_filter. Qed.
Lemma positives_drop m b z z' :
  m !! b = Some z -> 0 < refcount__gc z -> refcount__gc z' = 0 ->
  positives m = S (positives (<[b := z']> m)).
Proof.
  intros Hb Hz Hz'. unfold positives.
  rewrite map_filter_insert_False by (simpl; lia). rewrite map_filter_delete, map_size_delete.
  rewrite (proj2 (map_lookup_filter_Some _ m b z)) by done. simpl.
  assert (size (filter (fun kz => 0 < refcount__gc kz.2) m) <> 0%nat); [|lia].
  intros E. apply map_size_empty_inv in E.
  assert (filter (fun kz => 0 < refcount__gc kz.2) m !! b = Some z) as Hf by by apply map_lookup_filter_Some.
  by rewrite E in Hf.
Qed.
Lemma positives_recount m b z z' :
  m !! b = Some z -> 0 < refcount__gc z -> 0 < refcount__gc z' -> positives (<[b := z']> m) = positives m.
Proof.
  intros Hb Hz Hz'. unfold positives. rewrite map_filter_insert_True by done.
  rewrite map_size_insert. by rewrite (proj2 (map_lookup_filter_Some _ m b z)).
Qed.
Lemma positives_delete m b : refs m b = 0 -> positives (delete b m) = positives m.
Proof.
  intros Hb. unfold positives. rewrite map_filter_delete, map_size_delete.
  destruct (filter _ m !! b) as [z|] eqn:E; [|done].
  apply map_lookup_filter_Some in E as [Hz Hp]. unfold refs in Hb. rewrite Hz in Hb. simpl in Hp. lia.
Qed.
End Store.

(** ** Taking and releasing references *)

Section Moves.
Context {D E X : Type} {AL : Allocator} (eng : engine D E X).
Abbreviation st := (hstate addr heap_cmp (world D E X)).
Implicit Types (s : st) (m : gmap addr (zval D)) (a b : addr) (l : list addr) (z : zval D).

(** Only zvals, and what destructors do to [ext], differ. *)
Definition frame s s' : Prop :=
  heap s' = heap s /\ exception (env s') = exception (env s) /\ intern (env s') = intern (env s).
Lemma frame_refl s : frame s s.
Proof. done. Qed.
Lemma frame_trans s s1 s2 : frame s s1 -> frame s1 s2 -> frame s s2.
Proof. unfold frame. intuition congruence. Qed.

(** [m'] is [m] after releases: zvals may be gone, the others keep their
    values, and none is left with a count of 0 that had another. *)
Record shed m m' : Prop := {
  shed_cell : forall b z', m' !! b = Some z' -> exists z, m !! b = Some z /\ value z' = value z /\
    (refcount__gc z' = 0 -> refcount__gc z = 0);
  shed_tables : forall b, table_refs m' b <= table_refs m b;
  shed_positives : (positives m' <= positives m)%nat
}.
Lemma shed_refl m : shed m m.
Proof. split; [intros b z Hz; by exists z|done|done]. Qed.
Lemma shed_trans m m1 m2 : shed m m1 -> shed m1 m2 -> shed m m2.
Proof.
  intros [C1 T1 P1] [C2 T2 P2]. split; [|intros b; specialize (T1 b); specialize (T2 b); lia|lia].
  intros b z2 Hz2. destruct (C2 b z2 Hz2) as (z1 & Hz1 & Hv1 & H01).
  destruct (C1 b z1 Hz1) as (z & Hz & Hv & H0). exists z. split_and!; [done|congruence|auto].
Qed.

Lemma cell_ok s a z : zvals (env s) !! a = Some z -> cell a s = Ok (z, s).
Proof. intros Hz. unfold cell, reading. by rewrite Hz. Qed.

Lemma refs_positive m a : 0 < refs m a -> exists z, m !! a = Some z /\ 0 < refcount__gc z.
Proof. unfold refs. destruct (m !! a) as [z|]; [by exists z|lia]. Qed.
Lemma free_positive m a : 1 <= free_refs m a -> exists z, m !! a = Some z /\ 0 < refcount__gc z.
Proof.
  intros H. apply refs_positive. pose proof (table_refs_nonneg m a). unfold free_refs in H. lia.
Qed.
Lemma u32_dec n : 0 < n < 2 ^ 32 -> u32 (n - 1) = n - 1.
Proof. intros H. apply u32_small. lia. Qed.

(** [f] releases one reference to its argument, when it has one to give. *)
Definition releases (f : addr -> M st unit) (bound : nat) : Prop := forall a s,
  sound (zvals (env s)) -> 1 <= free_refs (zvals (env s)) a -> (positives (zvals (env s)) < bound)%nat ->
  exists s', f a s = Ok (tt, s') /\ frame s s' /\ sound (zvals (env s')) /\
    shed (zvals (env s)) (zvals (env s')) /\
    forall b, free_refs (zvals (env s')) b = free_refs (zvals (env s)) b - delta a b.

Lemma each_releases f bound l : releases f bound -> forall s,
  sound (zvals (env s)) -> (forall b, occ b l <= free_refs (zvals (env s)) b) ->
  (positives (zvals (env s)) < bound)%nat ->
  exists s', each f l s = Ok (tt, s') /\ frame s s' /\ sound (zvals (env s')) /\
    shed (zvals (env s)) (zvals (env s')) /\
    forall b, free_refs (zvals (env s')) b = free_refs (zvals (env s)) b - occ b l.
Proof.
  intros Hf. induction l as [|a l IH]; intros s Hs Hl Hb; simpl.
  - exists s. split_and!; try done; [apply shed_refl|]. intros b. rewrite occ_nil. lia.
  - destruct (Hf a s Hs) as (s1 & Hr1 & Hfr1 & Hs1 & Hsh1 & Hd1); [|done|].
    { specialize (Hl a). rewrite occ_cons, decide_True in Hl by done. pose proof (occ_nonneg a l). lia. }
    destruct (IH s1 Hs1) as (s2 & Hr2 & Hfr2 & Hs2 & Hsh2 & Hd2).
    { intros b. rewrite Hd1. specialize (Hl b). rewrite occ_cons in Hl. unfold delta. lia. }
    { pose proof (shed_positives _ _ Hsh1). lia. }
    exists s2. rewrite (mbind_ok _ _ _ _ _ Hr1). split_and!; try done.
    + by eapply frame_trans.
    + by eapply shed_trans.
    + intros b. rewrite Hd2, Hd1, occ_cons. unfold delta. lia.
Qed.

(** What a store becomes by one release that leaves the zval alive. *)
Lemma recount_sound m a z n r :
  sound m -> m !! a = Some z -> 0 < refcount__gc z -> 0 < n < 2 ^ 32 ->
  refcount__gc z - n <= free_refs m a ->
  sound (<[a := mkZv (value z) n r]> m).
Proof.
  intros [Hs1 Hs2] Hz Hp Hn Hfr. split.
  - intros b. rewrite (free_refs_recount _ _ _ _ _ _ Hz Hp) by lia. specialize (Hs1 b).
    unfold delta. destruct (decide (a = b)) as [->|]; lia.
  - intros b z'. rewrite lookup_insert_Some. intros [[<- <-]|[_ Hb]]; [simpl; lia|by eapply Hs2].
Qed.
Lemma recount_shed m a z n r :
  m !! a = Some z -> 0 < refcount__gc z -> 0 < n -> shed m (<[a := mkZv (value z) n r]> m).
Proof.
  intros Hz Hp Hn. split.
  - intros b z'. rewrite lookup_insert_Some. intros [[<- <-]|[_ Hb]]; [|by exists z'].
    exists z. simpl. split_and!; [done|done|lia].
  - intros b. rewrite (table_refs_update _ _ _ _ _ Hz). unfold counted. simpl.
    rewrite !(proj2 (Z.ltb_lt _ _)) by done. lia.
  - rewrite (positives_recount m a z); done.
Qed.
Lemma drop_sound m a z v r :
  sound m -> m !! a = Some z -> refcount__gc z = 1 -> free_refs m a = 1 ->
  sound (<[a := mkZv v 0 r]> m).
Proof.
  intros [Hs1 Hs2] Hz Hp Hfr. split.
  - intros b. rewrite (free_refs_drop _ _ _ _ _ _ Hz) by lia. specialize (Hs1 b).
    pose proof (occ_nonneg b (members (value z))).
    unfold delta. destruct (decide (a = b)) as [->|]; lia.
  - intros b z'. rewrite lookup_insert_Some. intros [[<- <-]|[_ Hb]]; [simpl; lia|by eapply Hs2].
Qed.
Lemma delete_sound m a : sound m -> refs m a = 0 -> sound (delete a m).
Proof.
  intros [Hs1 Hs2] Ha. split.
  - intros b. by rewrite free_refs_delete.
  - intros b z. rewrite lookup_delete_Some. intros [_ Hz]. by eapply Hs2.
Qed.

Lemma drop_shed m a z v r m2 :
  m !! a = Some z -> 0 < refcount__gc z -> shed (<[a := mkZv v 0 r]> m) m2 -> refs m2 a = 0 ->
  shed m (delete a m2).
Proof.
  intros Hz Hp [C T P] Ha. rewrite <- (positives_delete m2 a) in P by done. split.
  - intros b z'. rewrite lookup_delete_Some. intros [Hne Hz'].
    destruct (C b z' Hz') as (z1 & Hz1 & Hv). rewrite lookup_insert_ne in Hz1 by done. by exists z1.
  - intros b. specialize (T b). rewrite (table_refs_update _ _ _ _ _ Hz) in T.
    destruct (m2 !! a) as [z2|] eqn:E2.
    + rewrite (table_refs_delete m2 b a z2 E2) in T. unfold counted in T. simpl in T.
      rewrite occ_nil in T. pose proof (occ_nonneg b (if 0 <? refcount__gc z2 then members (value z2) else [])).
      pose proof (occ_nonneg b (if 0 <? refcount__gc z then members (value z) else [])). lia.
    + rewrite delete_id by done. unfold counted in T. simpl in T. rewrite occ_nil in T.
      pose proof (occ_nonneg b (if 0 <? refcount__gc z then members (value z) else [])). lia.
  - rewrite (positives_drop m a z (mkZv v 0 r) Hz Hp eq_refl). lia.
Qed.

(** What becomes of a value whose last zval goes. *)
Definition destroy_of (fuel : nat) a z : M st unit :=
  match value z with
  | IS_NULL => mret tt
  | IS_ARRAY ht => set_cell a (mkZv IS_NULL 0 (is_ref__gc z));; each (zval_ptr_dtor_fuel eng fuel) ht.*2
  | Value d => modify (on_env (fun w => set_ext (destroy_value eng d (ext w)) w))
  end.
Definition dropped s a z v : st :=
  on_env (fun w => set_zvals (<[a := mkZv v 0 (is_ref__gc z)]> (zvals w)) w) s.

Lemma destroy_value_releases fuel a z s :
  releases (zval_ptr_dtor_fuel eng fuel) fuel ->
  let m := zvals (env s) in
  sound m -> m !! a = Some z -> refcount__gc z = 1 -> free_refs m a = 1 -> (positives m < S fuel)%nat ->
  exists v s2, destroy_of fuel a z (dropped s a z (value z)) = Ok (tt, s2) /\ frame s s2 /\
    sound (zvals (env s2)) /\ shed (<[a := mkZv v 0 (is_ref__gc z)]> m) (zvals (env s2)) /\
    forall b, free_refs (zvals (env s2)) b = free_refs m b - delta a b.
Proof.
  intros IH m Hs Hz Hone Hf1 Hpos. unfold destroy_of.
  assert (Hd : forall v b, free_refs (zvals (env (dropped s a z v))) b = free_refs m b - delta a b + occ b (members (value z))).
  { intros v b. simpl. rewrite (free_refs_drop _ _ _ _ _ _ Hz) by lia. rewrite Hone. lia. }
  pose proof (fun v => drop_sound m a z v (is_ref__gc z) Hs Hz Hone Hf1) as Hsound.
  destruct (value z) as [|ht|d] eqn:Hv.
  - exists IS_NULL, (dropped s a z IS_NULL). split_and!; try done; [apply Hsound|apply shed_refl|].
    intros b. rewrite Hd. simpl. rewrite occ_nil. lia.
  - assert (Hcell : set_cell a (mkZv IS_NULL 0 (is_ref__gc z)) (dropped s a z (IS_ARRAY ht)) = Ok (tt, dropped s a z IS_NULL)).
    { unfold set_cell, modify, dropped, on_env, set_zvals. simpl. by rewrite insert_insert_eq. }
    rewrite (mbind_ok _ _ _ _ _ Hcell).
    destruct (each_releases _ _ ht.*2 IH (dropped s a z IS_NULL) (Hsound _)) as (s2 & Hr2 & Hfr2 & Hs2 & Hsh2 & Hd2).
    { intros b. rewrite Hd. simpl. destruct Hs as [Hs _]. specialize (Hs b).
      unfold delta. destruct (decide (a = b)) as [<-|]; lia. }
    { pose proof (positives_drop m a z (mkZv IS_NULL 0 (is_ref__gc z)) Hz ltac:(lia) eq_refl). simpl. unfold m in *. lia. }
    exists IS_NULL, s2. split_and!; try done. intros b. rewrite Hd2, Hd. simpl. lia.
  - exists (Value d). eexists. split; [done|]. split_and!; try done; [apply Hsound|apply shed_refl|].
    intros b. specialize (Hd (Value d) b). simpl in Hd |- *. rewrite Hd, occ_nil. lia.
Qed.

(** The end of [zval_ptr_dtor] for a zval whose last reference it was: what
    its value holds is released, then the zval itself. *)
Lemma destroy_releases fuel a z s :
  releases (zval_ptr_dtor_fuel eng fuel) fuel ->
  let m := zvals (env s) in
  sound m -> m !! a = Some z -> refcount__gc z = 1 -> 1 <= free_refs m a -> (positives m < S fuel)%nat ->
  exists s', (destroy_of fuel a z;; modify (on_env (fun w => set_zvals (delete a (zvals w)) w)))
      (dropped s a z (value z)) = Ok (tt, s') /\
    frame s s' /\ sound (zvals (env s')) /\ shed m (zvals (env s')) /\
    forall b, free_refs (zvals (env s')) b = free_refs m b - delta a b.
Proof.
  intros IH m Hs Hz Hone Hfree Hpos.
  assert (Hf1 : free_refs m a = 1).
  { pose proof (table_refs_nonneg m a). unfold free_refs, refs in *. rewrite Hz in *. lia. }
  destruct (destroy_value_releases fuel a z s IH Hs Hz Hone Hf1 Hpos) as (v & s2 & Hr2 & Hfr2 & Hs2 & Hsh2 & Hd2).
  assert (Hra : refs (zvals (env s2)) a = 0).
  { pose proof (Hd2 a) as Ha. fold m in Ha. rewrite Hf1 in Ha. unfold delta in Ha. rewrite decide_True in Ha by done.
    pose proof (shed_tables _ _ Hsh2 a) as Ht. pose proof (table_refs_nonneg (zvals (env s2)) a).
    fold m in Ht. rewrite (table_refs_update _ _ _ _ _ Hz) in Ht.
    unfold counted in Ht. simpl in Ht. rewrite occ_nil in Ht.
    pose proof (occ_nonneg a (if 0 <? refcount__gc z then members (value z) else [])).
    unfold free_refs, refs in *. rewrite Hz in *. lia. }
  rewrite (mbind_ok _ _ _ _ _ Hr2). eexists. split; [done|]. split_and!.
  - destruct Hfr2 as (? & ? & ?). done.
  - simpl. by apply delete_sound.
  - simpl. eapply (drop_shed m a z v); [done|lia|exact Hsh2|done].
  - intros b. simpl. by rewrite free_refs_delete.
Qed.

Lemma dtor_fuel_releases fuel : releases (zval_ptr_dtor_fuel eng fuel) fuel.
Proof.
  induction fuel as [|fuel IH]; intros a s Hs Hfree Hpos; [lia|]. cbn [zval_ptr_dtor_fuel].
  destruct (free_positive _ _ Hfree) as (z & Hz & Hp). pose proof (proj2 Hs a z Hz) as Hrange.
  rewrite (mbind_ok _ _ _ _ _ (cell_ok s a z Hz)). unfold Z_SET_REFCOUNT_P at 1. mstep.
  rewrite (mbind_ok _ _ _ _ _ (cell_ok s a z Hz)). unfold set_cell at 1. mstep.
  rewrite u32_dec by lia.
  destruct (Z.eqb_spec (refcount__gc z - 1) 0) as [H0|H0].
  - rewrite H0. apply (destroy_releases fuel a z s); done || lia.
  - assert (Hfin : forall r, let m' := <[a := mkZv (value z) (refcount__gc z - 1) r]> (zvals (env s)) in
      sound m' /\ shed (zvals (env s)) m' /\
      forall b, free_refs m' b = free_refs (zvals (env s)) b - delta a b).
    { intros r m'. split_and!.
      - apply recount_sound; [done|done|done|lia|lia].
      - by apply recount_shed; [..|lia].
      - intros b. unfold m'. rewrite (free_refs_recount _ _ _ _ _ _ Hz) by lia. lia. }
    destruct (Z.eqb_spec (refcount__gc z - 1) 1) as [H1|H1].
    + eexists. split; [done|]. split; [done|]. simpl. rewrite insert_insert_eq, <- H1. apply Hfin.
    + eexists. split; [done|]. split; [done|]. apply Hfin.
Qed.

(** [zval_ptr_dtor] releases one reference. *)
Lemma dtor_releases a s :
  sound (zvals (env s)) -> 1 <= free_refs (zvals (env s)) a ->
  exists s', zval_ptr_dtor eng a s = Ok (tt, s') /\ frame s s' /\ sound (zvals (env s')) /\
    shed (zvals (env s)) (zvals (env s')) /\
    forall b, free_refs (zvals (env s')) b = free_refs (zvals (env s)) b - delta a b.
Proof.
  intros Hs Hf. unfold zval_ptr_dtor. mstep. apply dtor_fuel_releases; [done|done|].
  pose proof (positives_le (zvals (env s))). lia.
Qed.

(** ** Stores at rest *)

(** No zval has a count of 0, and none lacks a reference. *)
Definition settled m : Prop := sound m /\ forall a z, m !! a = Some z -> 0 < refcount__gc z.

Lemma settled_shed m m' : settled m -> sound m' -> shed m m' -> settled m'.
Proof.
  intros [_ Hp] Hs [C _ _]. split; [done|]. intros a z' Hz'. destruct (C a z' Hz') as (z & Hz & _ & H0).
  specialize (Hp a z Hz). destruct Hs as [_ Hr]. specialize (Hr a z' Hz').
  destruct (decide (refcount__gc z' = 0)); [specialize (H0 ltac:(done)); lia|lia].
Qed.

(** Zvals keep their values; [evolves]: none is new. *)
Definition evolves m m' : Prop :=
  forall b z', m' !! b = Some z' -> exists z, m !! b = Some z /\ value z' = value z.
Lemma evolves_refl m : evolves m m.
Proof. intros b z Hz. by exists z. Qed.
Lemma evolves_trans m m1 m2 : evolves m m1 -> evolves m1 m2 -> evolves m m2.
Proof.
  intros H1 H2 b z2 Hz2. destruct (H2 b z2 Hz2) as (z1 & Hz1 & E1).
  destruct (H1 b z1 Hz1) as (z & Hz & E2). exists z. split; congruence.
Qed.
Lemma shed_evolves m m' : shed m m' -> evolves m m'.
Proof. intros [C _ _] b z' Hz'. destruct (C b z' Hz') as (z & ? & ? & _). by exists z. Qed.

(** [d b] references more to each zval [b]. *)
Definition gained m m' (d : addr -> Z) : Prop :=
  (forall b, m' !! b = (fun z => mkZv (value z) (refcount__gc z + d b) (is_ref__gc z)) <$> m !! b) /\
  (forall b, free_refs m' b = free_refs m b + d b).
Lemma gained_refl m : gained m m (fun _ => 0).
Proof.
  split; [|intros b; lia]. intros b. destruct (m !! b) as [[v n r]|]; [|done]. simpl. by rewrite Z.add_0_r.
Qed.
Lemma gained_trans m m1 m2 d1 d2 :
  gained m m1 d1 -> gained m1 m2 d2 -> gained m m2 (fun b => d1 b + d2 b).
Proof.
  intros [L1 F1] [L2 F2]. split; [|intros b; rewrite F2, F1; lia].
  intros b. rewrite L2, L1. destruct (m !! b) as [z|]; [|done]. simpl. by rewrite Z.add_assoc.
Qed.
Lemma gained_evolves m m' d : gained m m' d -> evolves m m'.
Proof.
  intros [L _] b z'. rewrite L. destruct (m !! b) as [z|]; [|done]. simpl. intros [= <-]. by exists z.
Qed.
Lemma gained_ext m m' d d' : (forall b, d b = d' b) -> gained m m' d -> gained m m' d'.
Proof. intros Heq [L F]. split; [intros b; by rewrite L, Heq|intros b; by rewrite F, Heq]. Qed.
Lemma gained_settled m m' d :
  (forall b, 0 <= d b) -> (forall b z, m !! b = Some z -> refcount__gc z + d b < 2 ^ 32) ->
  settled m -> gained m m' d -> settled m'.
Proof.
  intros Hd Hmax [[Hs1 Hs2] Hp] [L F]. split; [split|].
  - intros b. rewrite F. specialize (Hs1 b). specialize (Hd b). lia.
  - intros b z'. rewrite L. destruct (m !! b) as [z|] eqn:Hz; [|done]. simpl. intros [= <-]. simpl.
    specialize (Hmax b z Hz). specialize (Hd b). specialize (Hs2 b z Hz). lia.
  - intros b z'. rewrite L. destruct (m !! b) as [z|] eqn:Hz; [|done]. simpl. intros [= <-]. simpl.
    specialize (Hp b z Hz). specialize (Hd b). lia.
Qed.
Lemma gained_refs m m' d a z : gained m m' d -> m !! a = Some z -> refs m' a = refs m a + d a.
Proof. intros [L _] Hz. unfold refs. by rewrite L, Hz. Qed.

Definition all_positive m : Prop := forall a z, m !! a = Some z -> 0 < refcount__gc z.
Lemma gained_positive m m' d : (forall b, 0 <= d b) -> all_positive m -> gained m m' d -> all_positive m'.
Proof.
  intros Hd Hp [L _] b z'. rewrite L. destruct (m !! b) as [z|] eqn:Hz; [|done]. simpl. intros [= <-]. simpl.
  specialize (Hp b z Hz). specialize (Hd b). lia.
Qed.

Lemma addref_ok a s z :
  all_positive (zvals (env s)) -> zvals (env s) !! a = Some z -> refcount__gc z + 1 < 2 ^ 32 ->
  exists m', Z_ADDREF_P a s = Ok (tt, on_env (set_zvals m') s) /\ gained (zvals (env s)) m' (delta a).
Proof.
  intros Hp Hz Hmax. specialize (Hp a z Hz). unfold Z_ADDREF_P, Z_SET_REFCOUNT_P, set_cell.
  rewrite (mbind_ok _ _ _ _ _ (cell_ok s a z Hz)), (mbind_ok _ _ _ _ _ (cell_ok s a z Hz)).
  rewrite u32_small by lia. eexists. split; [done|]. split.
  - intros b. unfold delta. destruct (decide (a = b)) as [<-|Hne].
    + by rewrite lookup_insert_eq, Hz.
    + rewrite lookup_insert_ne by done. destruct (zvals (env s) !! b) as [[v n r]|]; [|done].
      simpl. by rewrite Z.add_0_r.
  - intros b. rewrite (free_refs_recount _ _ _ _ _ _ Hz) by lia. lia.
Qed.

Lemma delta_nonneg a b : 0 <= delta a b.
Proof. unfold delta. destruct (decide (a = b)); lia. Qed.

Lemma each_addref l : forall s,
  all_positive (zvals (env s)) -> (forall b, b ∈ l -> is_Some (zvals (env s) !! b)) ->
  (forall b z, zvals (env s) !! b = Some z -> refcount__gc z + occ b l < 2 ^ 32) ->
  exists m', each Z_ADDREF_P l s = Ok (tt, on_env (set_zvals m') s) /\
    gained (zvals (env s)) m' (fun b => occ b l).
Proof.
  induction l as [|a l IH]; intros s Hs Hin Hmax; simpl.
  - exists (zvals (env s)). split; [by destruct s as [h [] ]|]. apply gained_refl.
  - destruct (Hin a ltac:(left)) as [z Hz].
    destruct (addref_ok a s z Hs Hz) as (m1 & Hr1 & Hg1).
    { specialize (Hmax a z Hz). rewrite occ_cons, decide_True in Hmax by done. pose proof (occ_nonneg a l). lia. }
    destruct (IH (on_env (set_zvals m1) s)) as (m2 & Hr2 & Hg2).
    { simpl. eapply gained_positive; [|done|done]. apply delta_nonneg. }
    { intros b Hb. simpl. rewrite (proj1 Hg1 b). apply fmap_is_Some, Hin. by right. }
    { intros b z'. simpl. rewrite (proj1 Hg1 b). destruct (zvals (env s) !! b) as [zb|] eqn:Hzb; [|done].
      simpl. intros [= <-]. specialize (Hmax b zb Hzb). rewrite occ_cons in Hmax. simpl. unfold delta. lia. }
    exists m2. rewrite (mbind_ok _ _ _ _ _ Hr1). split; [exact Hr2|].
    eapply gained_ext; [|by eapply gained_trans]. intros b. simpl. rewrite occ_cons. unfold delta. lia.
Qed.

(** Two references more to each element of [l]. *)
Lemma each_addref_twice l s :
  settled (zvals (env s)) -> (forall b, b ∈ l -> 1 <= free_refs (zvals (env s)) b) ->
  (forall b z, zvals (env s) !! b = Some z -> refcount__gc z + 2 * occ b l < 2 ^ 32) ->
  exists m2 m3, each Z_ADDREF_P l s = Ok (tt, on_env (set_zvals m2) s) /\
    each Z_ADDREF_P l (on_env (set_zvals m2) s) = Ok (tt, on_env (set_zvals m3) s) /\
    gained (zvals (env s)) m3 (fun b => occ b l + occ b l) /\ settled m3.
Proof.
  intros Hs Hin Hmax.
  assert (Hcell : forall b, b ∈ l -> is_Some (zvals (env s) !! b)).
  { intros b Hb. destruct (free_positive _ b (Hin b Hb)) as (z & Hz & _). by exists z. }
  destruct (each_addref l s) as (m2 & Hr2 & Hg2); [exact (proj2 Hs)|exact Hcell| |].
  { intros b z Hz. specialize (Hmax b z Hz). pose proof (occ_nonneg b l). lia. }
  destruct (each_addref l (on_env (set_zvals m2) s)) as (m3 & Hr3 & Hg3); simpl.
  { eapply gained_positive; [|exact (proj2 Hs)|exact Hg2]. intros b. apply occ_nonneg. }
  { intros b Hb. rewrite (proj1 Hg2). by apply fmap_is_Some, Hcell. }
  { intros b z. rewrite (proj1 Hg2). destruct (zvals (env s) !! b) as [z1|] eqn:Hz1; [|done].
    simpl. intros [= <-]. specialize (Hmax b z1 Hz1). simpl. lia. }
  pose proof (gained_trans _ _ _ _ _ Hg2 Hg3) as Hg. exists m2, m3. split_and!; [done|done|done|].
  eapply gained_settled; [| |exact Hs|exact Hg].
  - intros b. pose proof (occ_nonneg b l). lia.
  - intros b z Hz. specialize (Hmax b z Hz). simpl. lia.
Qed.

Lemma member_cell m a z b : sound m -> m !! a = Some z -> 0 < refcount__gc z ->
  b ∈ members (value z) -> exists zb, m !! b = Some zb /\ 0 < refcount__gc zb.
Proof.
  intros [Hs _] Hz Hp Hb. apply refs_positive. pose proof (table_refs_member m b a z Hz Hp Hb).
  specialize (Hs b). unfold free_refs in Hs. lia.
Qed.

(** Counts and arrays are small enough for the counts not to wrap. *)
Definition light (n : Z) m : Prop := forall a z, m !! a = Some z ->
  refcount__gc z < n /\ Z.of_nat (length (members (value z))) < 2 ^ 30.
Lemma occ_le a l : occ a l <= Z.of_nat (length l).
Proof. unfold occ. pose proof (count_occ_bound Pos.eq_dec a l). lia. Qed.

(** The state with another store, and another [ext]. *)
Definition put m (x : X) s : st := on_env (fun w => set_ext x (set_zvals m w)) s.

(** Of an array the members are copied, of other values what [ext] knows. *)
Lemma copy_ctor_put (v : zvalue D) s m' :
  each Z_ADDREF_P (members v) s = Ok (tt, on_env (set_zvals m') s) ->
  exists x, zval_copy_ctor eng v s = Ok (tt, put m' x s).
Proof.
  destruct s as [h [m e i x]]. destruct v as [|ht|d]; simpl; intros Hr.
  - injection Hr as Hr. exists x. by rewrite <- Hr.
  - exists x. by rewrite Hr.
  - injection Hr as Hr. exists (copy_value eng d x). by rewrite <- Hr.
Qed.

(** A copy of the value of a zval of the store. *)
Lemma copy_ctor_ok n s a z :
  settled (zvals (env s)) -> zvals (env s) !! a = Some z ->
  light n (zvals (env s)) -> n + 2 ^ 30 <= 2 ^ 32 ->
  exists m' x, zval_copy_ctor eng (value z) s = Ok (tt, put m' x s) /\
    gained (zvals (env s)) m' (fun b => occ b (members (value z))) /\ settled m'.
Proof.
  intros Hs Hz Hlight Hn. pose proof (proj2 (Hlight a z Hz)) as Hlen.
  assert (Hb : forall b zb, zvals (env s) !! b = Some zb -> refcount__gc zb + occ b (members (value z)) < 2 ^ 32).
  { intros b zb Hzb. destruct (Hlight b zb Hzb). pose proof (occ_le b (members (value z))). lia. }
  destruct (each_addref (members (value z)) s) as (m' & Hr & Hg); [exact (proj2 Hs)| |done|].
  - intros b Hin. destruct (member_cell _ _ _ b (proj1 Hs) Hz (proj2 Hs a z Hz) Hin) as (zb & Hzb & _). by exists zb.
  - destruct (copy_ctor_put (value z) s m' Hr) as [x Hx]. exists m', x. split_and!; [done|done|].
    eapply gained_settled; [| |done|done]; [intros b; apply occ_nonneg|done].
Qed.

(** The allocator grants every request. *)
Definition granting : Prop := forall (m : gmap addr (zval D)) n, is_Some (alloc m n).

(** A zval of its own for a value that other zvals have too. *)
Lemma alloc_copy n s a z (v := value z) :
  granting -> settled (zvals (env s)) -> zvals (env s) !! a = Some z ->
  light n (zvals (env s)) -> 2 <= n -> n + 2 ^ 30 <= 2 ^ 32 ->
  exists b m' t, (b ← ALLOC_ZVAL (mkZv v 1 false); zval_copy_ctor eng v;; mret b) s = Ok (b, put m' t s) /\
    zvals (env s) !! b = None /\ m' !! b = Some (mkZv v 1 false) /\ settled m' /\
    (forall x y, zvals (env s) !! x = Some y ->
      m' !! x = Some (mkZv (value y) (refcount__gc y + occ x (members v)) (is_ref__gc y))) /\
    (forall x, x <> b -> zvals (env s) !! x = None -> m' !! x = None) /\
    (forall x, free_refs m' x = free_refs (zvals (env s)) x + delta b x).
Proof.
  intros Hmem Hs Hz Hlight Hn2 Hn. destruct (Hmem (zvals (env s)) 32) as [b Hb].
  pose proof (alloc_fresh _ _ _ Hb) as Hnew. unfold ALLOC_ZVAL, set_cell. repeat mstep. rewrite Hb. repeat mstep.
  set (s1 := on_env _ s).
  assert (Hlen := proj2 (Hlight a z Hz)). fold v in Hlen.
  assert (Hnb : b ∉ members v).
  { intros Hin. destruct (member_cell _ _ _ b (proj1 Hs) Hz (proj2 Hs a z Hz) Hin) as (zb & Hzb & _). congruence. }
  assert (Hob : occ b (members v) = 0).
  { unfold occ. rewrite (proj1 (count_occ_not_In Pos.eq_dec _ _)); [done|]. by rewrite <- list_elem_of_In. }
  destruct (each_addref (members v) s1) as (m' & Hr & Hg).
  { intros x y. simpl. rewrite lookup_insert_Some. intros [[<- <-]|[_ Hy]]; [done|by apply (proj2 Hs x)]. }
  { intros x Hin. destruct (member_cell _ _ _ x (proj1 Hs) Hz (proj2 Hs a z Hz) Hin) as (zx & Hzx & _).
    exists zx. simpl. by rewrite lookup_insert_ne by congruence. }
  { intros x y. simpl. pose proof (occ_le x (members v)). rewrite lookup_insert_Some.
    intros [[<- <-]|[_ Hy]]; [simpl; lia|]. destruct (Hlight x y Hy). lia. }
  destruct (copy_ctor_put v s1 m' Hr) as [t Ht]. rewrite (mbind_ok _ _ _ _ _ Ht).
  destruct Hg as [L F]. simpl in L, F.
  assert (Hfree : forall x, free_refs m' x = free_refs (zvals (env s)) x + delta b x).
  { intros x. rewrite F, free_refs_new by done. unfold counted. simpl. lia. }
  assert (Hcells : forall x y, zvals (env s) !! x = Some y ->
      m' !! x = Some (mkZv (value y) (refcount__gc y + occ x (members v)) (is_ref__gc y))).
  { intros x y Hy. rewrite L, lookup_insert_ne by congruence. by rewrite Hy. }
  assert (Hnewcell : m' !! b = Some (mkZv v 1 false)).
  { rewrite L, lookup_insert_eq. simpl. by rewrite Hob. }
  exists b, m', t. split_and!; try done.
  2: { intros x Hne Hx. by rewrite L, lookup_insert_ne, Hx. }
  - destruct Hs as [[Hs1 Hs2] Hp]. split; [split|].
    + intros x. rewrite Hfree. specialize (Hs1 x). pose proof (delta_nonneg b x). lia.
    + intros x y Hy. destruct (zvals (env s) !! x) as [y0|] eqn:Hy0.
      * rewrite (Hcells x y0 Hy0) in Hy. injection Hy as <-. simpl.
        destruct (Hlight x y0 Hy0). pose proof (occ_le x (members v)). pose proof (occ_nonneg x (members v)).
        specialize (Hp x y0 Hy0). lia.
      * destruct (decide (x = b)) as [->|Hne]; [rewrite Hnewcell in Hy; injection Hy as <-; simpl; lia|].
        by rewrite L, lookup_insert_ne, Hy0 in Hy.
    + intros x y Hy. destruct (zvals (env s) !! x) as [y0|] eqn:Hy0.
      * rewrite (Hcells x y0 Hy0) in Hy. injection Hy as <-. simpl.
        pose proof (occ_nonneg x (members v)). specialize (Hp x y0 Hy0). lia.
      * destruct (decide (x = b)) as [->|Hne]; [rewrite Hnewcell in Hy; injection Hy as <-; simpl; lia|].
        by rewrite L, lookup_insert_ne, Hy0 in Hy.
Qed.

(** Releases make no count greater. *)
Lemma shed_light n m m' :
  shed m m' -> (forall a, free_refs m' a <= free_refs m a) -> light n m -> light n m'.
Proof.
  intros Hsh Hf Hl a z' Hz'. destruct (shed_cell _ _ Hsh a z' Hz') as (z & Hz & Hv & _).
  destruct (Hl a z Hz) as [H1 H2]. rewrite Hv. split; [|done].
  specialize (Hf a). pose proof (shed_tables _ _ Hsh a). unfold free_refs, refs in Hf.
  rewrite Hz, Hz' in Hf. lia.
Qed.
Lemma gained_light n k m m' d :
  gained m m' d -> (forall b, d b <= k) -> light n m -> light (n + k) m'.
Proof.
  intros [L _] Hk Hl b z'. rewrite L. destruct (m !! b) as [z|] eqn:Hz; [|done]. simpl. intros [= <-].
  destruct (Hl b z Hz). specialize (Hk b). simpl. split; [lia|done].
Qed.

(** [RETURN_ZVAL]: the caller gets the value, with references of its own to
    the members of an array. *)
Lemma return_zval_ok n a (release : bool) s z :
  settled (zvals (env s)) -> zvals (env s) !! a = Some z -> light n (zvals (env s)) -> n + 2 ^ 30 <= 2 ^ 32 ->
  (release = true -> 1 <= free_refs (zvals (env s)) a) ->
  exists s', RETURN_ZVAL eng a release s = Ok (RetZval (value z), s') /\ frame s s' /\
    settled (zvals (env s')) /\ evolves (zvals (env s)) (zvals (env s')) /\
    forall b, free_refs (zvals (env s')) b = free_refs (zvals (env s)) b + occ b (members (value z)) -
      (if release then delta a b else 0).
Proof.
  intros Hs Hz Hl Hn Hrel. unfold RETURN_ZVAL. rewrite (mbind_ok _ _ _ _ _ (cell_ok s a z Hz)).
  destruct (copy_ctor_ok n s a z Hs Hz Hl Hn) as (m1 & x1 & Hr & Hg & Hs1). rewrite (mbind_ok _ _ _ _ _ Hr).
  destruct release.
  - destruct (dtor_releases a (put m1 x1 s) (proj1 Hs1)) as (s2 & Hd & Hfr & Hs2 & Hsh & Hf).
    { simpl. rewrite (proj2 Hg). pose proof (occ_nonneg a (members (value z))). specialize (Hrel eq_refl). lia. }
    rewrite (mbind_ok _ _ _ _ _ Hd). exists s2. split_and!; try done.
    + by eapply settled_shed.
    + eapply evolves_trans; [by eapply gained_evolves|by apply shed_evolves].
    + intros b. rewrite Hf. simpl. rewrite (proj2 Hg). lia.
  - eexists. split; [done|]. simpl. split_and!; try done.
    + by eapply gained_evolves.
    + intros b. rewrite (proj2 Hg). lia.
Qed.

(** [SEPARATE_ARG_IF_REF]: a reference to a zval with the value of [a]. *)
Lemma separate_ok n a s z :
  granting -> settled (zvals (env s)) -> zvals (env s) !! a = Some z -> light n (zvals (env s)) ->
  2 <= n -> n + 2 ^ 30 < 2 ^ 32 ->
  exists b m' t zb, SEPARATE_ARG_IF_REF eng a s = Ok (b, put m' t s) /\ settled m' /\
    m' !! b = Some zb /\ value zb = value z /\ light (n + 2 ^ 30) m' /\
    (forall x y, zvals (env s) !! x = Some y -> exists y', m' !! x = Some y' /\ value y' = value y) /\
    (forall x, free_refs m' x = free_refs (zvals (env s)) x + delta b x).
Proof.
  intros Hmem Hs Hz Hl Hn2 Hn. unfold SEPARATE_ARG_IF_REF. rewrite (mbind_ok _ _ _ _ _ (cell_ok s a z Hz)).
  destruct (is_ref__gc z).
  - destruct (alloc_copy n s a z Hmem Hs Hz Hl Hn2 ltac:(lia)) as (b & m' & t & Hr & Hb & Hb' & Hs' & Hc & Hno & Hf).
    exists b, m', t, (mkZv (value z) 1 false). split_and!; try done.
    + intros x y' Hy'. destruct (zvals (env s) !! x) as [y|] eqn:Hy.
      * rewrite (Hc x y Hy) in Hy'. injection Hy' as <-. destruct (Hl x y Hy). destruct (Hl a z Hz).
        pose proof (occ_le x (members (value z))). simpl. split; [lia|done].
      * destruct (decide (x = b)) as [->|Hne].
        { rewrite Hb' in Hy'. injection Hy' as <-. destruct (Hl a z Hz). simpl. split; [lia|done]. }
        by rewrite (Hno x Hne Hy) in Hy'.
    + intros x y Hy. eexists. split; [by apply Hc|done].
  - destruct (addref_ok a s z (proj2 Hs) Hz) as (m' & Hr & Hg).
    { destruct (Hl a z Hz). lia. }
    assert (Hs' : settled m').
    { eapply gained_settled; [apply delta_nonneg| |exact Hs|exact Hg].
      intros b zb Hb. destruct (Hl b zb Hb). unfold delta. destruct (decide (a = b)); lia. }
    exists a, m', (ext (env s)), (mkZv (value z) (refcount__gc z + delta a a) (is_ref__gc z)).
    rewrite (mbind_ok _ _ _ _ _ Hr). split_and!; try done.
    + by rewrite (proj1 Hg), Hz.
    + eapply gained_light; [done| |done]. intros b. unfold delta. destruct (decide (a = b)); lia.
    + intros x y Hy. eexists. by rewrite (proj1 Hg), Hy.
    + apply Hg.
Qed.

(** The loops over the elements of a heap. *)
Lemma for_elements_each (g : addr -> M st unit) (h : spl_ptr_heap addr heap_cmp) l rest s :
  elements h = (Some <$> l) ++ rest -> count h = Z.of_nat (length l) ->
  for_elements g h s = each g l s.
Proof.
  intros He Hn. unfold for_elements. rewrite Hn, Nat2Z.id.
  assert (Hgen : forall k i s, drop i l = k -> elements_loop g h (length k) i s = each g k s).
  { induction k as [|x k IH]; intros i s1 Hd; [done|]. simpl.
    assert (Hx : l !! i = Some x).
    { rewrite <- (Nat.add_0_r i), <- lookup_drop, Hd. done. }
    rewrite (mbind_ok _ _ s1 x s1).
    - unfold mbind, M_bind. destruct (g x s1) as [[[] s2]|]; [|done]. apply IH.
      rewrite (drop_S _ x) in Hd by done. by injection Hd.
    - unfold reading, element_of. rewrite He, lookup_app_l, list_lookup_fmap, Hx; [done|].
      rewrite length_fmap. by eapply lookup_lt_Some. }
  by apply Hgen.
Qed.

Lemma dtor_releases_all bound : releases (zval_ptr_dtor eng) bound.
Proof. intros a s Hs Hf _. by apply dtor_releases. Qed.
End Moves.
