(* ===== verification/SplHeapMethods.v ===== *)
(** * The classes of spl_heap.c: comparisons, and each method

    [live] are the elements that the heap's comparison function can compare,
    [key] what it compares of them.  [heap_inv] is the invariant of an object
    whose heap holds the elements [l]: it has two references to each.  Then
    [meets], what a method promises, and that each method does ([good]). *)

From S2P Require Import Prelude Dll SplHeap SplHeapSpec SplHeapRefs.
Open Scope Z_scope.

Section Methods.
Context {D E X K : Type} {AL : Allocator} (eng : engine D E X).
Context (fits : zvalue D -> Prop) (rank : zvalue D -> K) (user_order std_order : K -> K -> Z).
Abbreviation st := (hstate addr heap_cmp (world D E X)).
Implicit Types (s : st) (w : world D E X) (m : gmap addr (zval D)) (a b : addr) (l : list addr).

(** ** What is assumed of the engine *)

Definition holds w a : Prop := exists z, zvals w !! a = Some z /\ fits (value z).
Definition rank_at w a : K := rank (match zvals w !! a with Some z => value z | None => IS_NULL end).

(** A call that returns, leaves the heap, the zvals and the object alone and
    clears no exception; [ext] may change and exceptions may be thrown. *)
Definition untouched s s' : Prop :=
  heap s' = heap s /\ zvals (env s') = zvals (env s) /\ intern (env s') = intern (env s) /\
  (EG_exception (env s) = true -> EG_exception (env s') = true).
Definition tame (f : addr -> addr -> M st Z) : Prop := forall a b s,
  holds (env s) a -> holds (env s) b -> exists r s', f a b s = Ok (r, s') /\ untouched s s'.
(** Its answer, as the [int] it becomes, is that of an order on the ranks. *)
Definition sincere (f : addr -> addr -> M st Z) (order : K -> K -> Z) : Prop := forall a b s r s',
  holds (env s) a -> holds (env s) b -> f a b s = Ok (r, s') -> EG_exception (env s') = false ->
  Z.sgn (s32 r) = Z.sgn (order (rank_at (env s) a) (rank_at (env s) b)).

Record calm : Prop := {
  calm_user : tame (user_compare eng);
  calm_std : tame (compare_function eng);
  calm_error : forall msg s, exists s', zend_error eng msg s = Ok (tt, s') /\ untouched s s'
}.

(** ** The heap's comparison *)

(** The zval that is compared for the element [a]. *)
Definition keyed (c : heap_cmp) w a : option addr :=
  match c with
  | pqueue_zval_cmp =>
      match zvals w !! a with
      | Some z => match value z with IS_ARRAY ht => hash_find (bs "priority") ht | _ => None end
      | None => None
      end
  | _ => Some a
  end.
Definition live (f : bool) (c : heap_cmp) w a : Prop :=
  fptr_cmp (intern w) = f /\ exists x, keyed c w a = Some x /\ holds w x.
Definition same w w' : Prop := zvals w' = zvals w /\ intern w' = intern w.
Definition key (c : heap_cmp) w a : K :=
  match keyed c w a with Some x => rank_at w x | None => rank IS_NULL end.
(** The order of the elements: that of the method, if a derived class has one. *)
Definition heap_order (f : bool) (c : heap_cmp) : K -> K -> Z :=
  if f then user_order
  else match c with zval_min_cmp => fun x y => std_order y x | _ => std_order end.

#[export] Instance same_preorder : PreOrder same.
Proof. split; [done|]. intros w1 w2 w3 [] []. split; congruence. Qed.

Lemma untouched_refl s : untouched s s.
Proof. done. Qed.

Lemma extract_data s a z ht d f :
  zvals (env s) !! a = Some z -> value z = IS_ARRAY ht -> hash_find (bs "data") ht = d ->
  Z.land f SPL_PQUEUE_EXTR_BOTH = SPL_PQUEUE_EXTR_DATA ->
  spl_pqueue_extract_helper a f s = Ok (d, s).
Proof.
  intros Hz Hv Hd Hf. unfold spl_pqueue_extract_helper. rewrite Hf. simpl.
  assert (Hone : Z.land f SPL_PQUEUE_EXTR_DATA = SPL_PQUEUE_EXTR_DATA).
  { change SPL_PQUEUE_EXTR_DATA with (Z.land SPL_PQUEUE_EXTR_BOTH SPL_PQUEUE_EXTR_DATA) at 1.
    by rewrite Z.land_assoc, Hf. }
  rewrite Hone. simpl. unfold Z_ARRVAL_P. rewrite mbind_assoc.
  rewrite (mbind_ok _ _ _ _ _ (cell_ok s a z Hz)), Hv. mstep. by rewrite Hd.
Qed.
Lemma extract_priority s a z ht p :
  zvals (env s) !! a = Some z -> value z = IS_ARRAY ht -> hash_find (bs "priority") ht = p ->
  spl_pqueue_extract_helper a SPL_PQUEUE_EXTR_PRIORITY s = Ok (p, s).
Proof.
  intros Hz Hv Hp. unfold spl_pqueue_extract_helper. simpl. unfold Z_ARRVAL_P. rewrite mbind_assoc.
  rewrite (mbind_ok _ _ _ _ _ (cell_ok s a z Hz)), Hv. mstep. by rewrite Hp.
Qed.

(** The key an element has in the queue is what the comparison extracts. *)
Lemma extract_keyed s a x :
  keyed pqueue_zval_cmp (env s) a = Some x ->
  spl_pqueue_extract_helper a SPL_PQUEUE_EXTR_PRIORITY s = Ok (Some x, s).
Proof.
  simpl. destruct (zvals (env s) !! a) as [z|] eqn:Hz; [|done].
  destruct (value z) as [|ht|] eqn:Hv; [done| |done]. intros Hx. by eapply extract_priority.
Qed.

(** What the three comparisons do when no exception is pending. *)
Lemma method_or_function_ok (Hc : calm) a b u v s :
  holds (env s) a -> holds (env s) b -> holds (env s) u -> holds (env s) v ->
  exists r s', method_or_function eng true a b u v s = Ok (r, s') /\ untouched s s' /\
    (sincere (user_compare eng) user_order -> sincere (compare_function eng) std_order ->
     EG_exception (env s') = false ->
     Z.sgn r = Z.sgn (if fptr_cmp (intern (env s))
                      then user_order (rank_at (env s) a) (rank_at (env s) b)
                      else std_order (rank_at (env s) u) (rank_at (env s) v))).
Proof.
  intros Ha Hb Hu Hv. unfold method_or_function. mstep. simpl.
  destruct (fptr_cmp (intern (env s))) eqn:Hf.
  - destruct (calm_user Hc a b s Ha Hb) as (r & s' & Hr & Hs). unfold spl_ptr_heap_cmp_cb_helper.
    rewrite mbind_assoc, (mbind_ok _ _ _ _ _ Hr), mbind_assoc. mstep.
    destruct (EG_exception (env s')) eqn:He; mstep.
    + exists 0, s'. split_and!; [done|done|]. by rewrite He.
    + exists (s32 r), s'. split_and!; [done|done|]. intros Hu' _ _. by eapply Hu'.
  - destruct (calm_std Hc u v s Hu Hv) as (r & s' & Hr & Hs). rewrite (mbind_ok _ _ _ _ _ Hr).
    exists (s32 r), s'. split_and!; [done|done|]. intros _ Hstd He. by eapply Hstd.
Qed.

(** The heap's comparison of elements it can compare. *)
Lemma call_cmp_ok (Hc : calm) f c a b s :
  live f c (env s) a -> live f c (env s) b ->
  exists r s', heap_call_cmp eng c a b s = Ok (r, s') /\ untouched s s' /\
    (sincere (user_compare eng) user_order -> sincere (compare_function eng) std_order ->
     EG_exception (env s') = false ->
     Z.sgn r = Z.sgn (heap_order f c (key c (env s) a) (key c (env s) b))).
Proof.
  intros [Hf (x & Hx & Hhx)] [_ (y & Hy & Hhy)]. unfold key. rewrite Hx, Hy.
  assert (Hskip : EG_exception (env s) = true -> exists (r : Z) s', Ok (0, s) = Ok (r, s') /\ untouched s s' /\
    (sincere (user_compare eng) user_order -> sincere (compare_function eng) std_order ->
     EG_exception (env s') = false ->
     Z.sgn r = Z.sgn (heap_order f c (rank_at (env s) x) (rank_at (env s) y)))).
  { intros He. exists 0, s. split_and!; try done. intros _ _. by rewrite He. }
  unfold heap_order. rewrite <- Hf. destruct c; cbn [heap_call_cmp].
  - injection Hx as <-. injection Hy as <-. unfold spl_ptr_heap_zval_max_cmp. mstep.
    destruct (EG_exception (env s)) eqn:He; [rewrite <- Hf in Hskip; by apply Hskip|].
    destruct (method_or_function_ok Hc a b a b s) as (r & s' & ? & ? & Hr); try done.
    exists r, s'. split_and!; try done. intros Hu Hstd Hn. rewrite Hr by done. by destruct (fptr_cmp _).
  - injection Hx as <-. injection Hy as <-. unfold spl_ptr_heap_zval_min_cmp. mstep.
    destruct (EG_exception (env s)) eqn:He; [rewrite <- Hf in Hskip; by apply Hskip|].
    destruct (method_or_function_ok Hc a b b a s) as (r & s' & ? & ? & Hr); try done.
    exists r, s'. split_and!; try done. intros Hu Hstd Hn. rewrite Hr by done. by destruct (fptr_cmp _).
  - unfold spl_ptr_pqueue_zval_cmp. rewrite (mbind_ok _ _ _ _ _ (extract_keyed s a x Hx)).
    rewrite (mbind_ok _ _ _ _ _ (extract_keyed s b y Hy)). mstep.
    destruct (EG_exception (env s)) eqn:He; [rewrite <- Hf in Hskip; by apply Hskip|].
    destruct (method_or_function_ok Hc x y x y s) as (r & s' & ? & ? & Hr); try done.
    exists r, s'. split_and!; try done. intros Hu Hstd Hn. rewrite Hr by done. by destruct (fptr_cmp _).
Qed.

Lemma same_keyed c w w' a : same w w' -> keyed c w' a = keyed c w a.
Proof. intros [H _]. unfold keyed. by rewrite H. Qed.
Lemma same_holds w w' a : same w w' -> holds w a -> holds w' a.
Proof. intros [H _]. unfold holds. by rewrite H. Qed.

Lemma heap_quiet (Hc : calm) f c :
  quiet (heap_call_cmp eng) EG_exception (live f c) same (key c) c.
Proof.
  split.
  - apply _.
  - intros w w' a Hs [Hf (x & Hx & Hh)]. split; [by rewrite (proj2 Hs)|].
    exists x. rewrite (same_keyed c w w') by done. split; [done|by eapply same_holds].
  - intros w w' a Hs _. unfold key, rank_at. rewrite (same_keyed c w w') by done. by rewrite (proj1 Hs).
  - intros a b s Ha Hb. destruct (call_cmp_ok Hc f c a b s Ha Hb) as (r & s' & Hr & (H1 & H2 & H3 & H4) & _).
    by exists r, s'.
Qed.

(** The order that the elements have, if the answers are those of one. *)
Definition ordering (f : bool) (c : heap_cmp) : Prop :=
  Comparison (heap_order f c) /\ sincere (user_compare eng) user_order /\
  sincere (compare_function eng) std_order.

Lemma heap_honest (Hc : calm) f c : ordering f c ->
  honest (heap_call_cmp eng) EG_exception (live f c) (key c) (heap_order f c) c.
Proof.
  intros (Ho & Hu & Hstd). split; [done|]. intros a b s r s' Ha Hb Hr He.
  destruct (call_cmp_ok Hc f c a b s Ha Hb) as (r1 & s1 & Hr1 & _ & Hon).
  rewrite Hr in Hr1. injection Hr1 as <- <-. by apply Hon.
Qed.

(** ** The invariant of a heap object *)

(** An element can be compared; one of a queue has a datum. *)
Definition elem_ok (f : bool) (c : heap_cmp) w a : Prop :=
  live f c w a /\
  (c = pqueue_zval_cmp -> exists z ht d, zvals w !! a = Some z /\ value z = IS_ARRAY ht /\
    hash_find (bs "data") ht = Some d).

(** The object's heap holds the elements [l] and two references to each. *)
Record heap_inv (f : bool) (c : heap_cmp) s l : Prop := {
  hi_rep : rep (heap s) l;
  hi_cmp : cmp (heap s) = c;
  hi_fptr : fptr_cmp (intern (env s)) = f;
  hi_settled : settled (zvals (env s));
  hi_refs : forall a, 2 * occ a l <= free_refs (zvals (env s)) a;
  hi_elem : Forall (elem_ok f c (env s)) l
}.

(** The references to [a] from outside of the heap and of arrays. *)
Definition outside s l a : Z := free_refs (zvals (env s)) a - 2 * occ a l.

Definition corrupted s : bool := has_flag (flags (heap s)) SPL_HEAP_CORRUPTED.
Definition at_least (f : bool) (c : heap_cmp) w : addr -> addr -> Prop := gle (key c) (heap_order f c) w.
(** What the flag promises. *)
Definition in_order (f : bool) (c : heap_cmp) s l : Prop :=
  corrupted s = true \/ heap_ordered (at_least f c (env s)) l.

Lemma hash_find_member k ht x : hash_find k ht = Some x -> x ∈ ht.*2.
Proof.
  induction ht as [|[k' y] ht IH]; [done|]. simpl. destruct (decide (k' = k)).
  - intros [= ->]. left.
  - intros H. right. by apply IH.
Qed.

(** Zvals in both stores have the same value in both. *)
Definition svals m m' : Prop := forall b z z', m !! b = Some z -> m' !! b = Some z' -> value z' = value z.
Lemma evolves_svals m m' : evolves m m' -> svals m m'.
Proof. intros H b z z' Hz Hz'. destruct (H b z' Hz') as (z0 & Hz0 & Hv). congruence. Qed.

Lemma elem_moves f c w w' a :
  elem_ok f c w a -> fptr_cmp (intern w') = fptr_cmp (intern w) -> svals (zvals w) (zvals w') -> settled (zvals w') ->
  1 <= free_refs (zvals w') a -> elem_ok f c w' a /\ key c w' a = key c w a.
Proof.
  intros [[Hf (x & Hx & z & Hz & Hfit)] Hd] Hi Hv Hs Hfree.
  destruct (free_positive _ _ Hfree) as (za' & Hza' & Hpos).
  assert (Hgen : forall x z z', keyed c w a = Some x -> keyed c w' a = Some x ->
    zvals w !! x = Some z -> zvals w' !! x = Some z' -> fits (value z) ->
    live f c w' a /\ key c w' a = key c w a).
  { intros x0 z0 z' Hk Hk' Hz0 Hz' Hfit0. pose proof (Hv x0 z0 z' Hz0 Hz') as Hval. split.
    - split; [by rewrite Hi|]. exists x0. split; [done|]. exists z'. by rewrite Hval.
    - unfold key, rank_at. by rewrite Hk, Hk', Hz0, Hz', Hval. }
  destruct c; cbn [keyed] in Hx.
  - injection Hx as <-. destruct (Hgen a z za') as [? ?]; try done.
  - injection Hx as <-. destruct (Hgen a z za') as [? ?]; try done.
  - destruct (zvals w !! a) as [za|] eqn:Hza; [|done].
    assert (Hval : value za' = value za) by by eapply Hv.
    destruct (value za) as [|ht|] eqn:Hht; [done| |done].
    destruct (member_cell _ _ _ x (proj1 Hs) Hza' Hpos) as (zx' & Hzx' & _).
    { rewrite Hval. by eapply hash_find_member. }
    destruct (Hgen x z zx') as [? ?]; try done.
    { cbn [keyed]. by rewrite Hza, Hht. } { cbn [keyed]. by rewrite Hza', Hval. }
    split; [|done]. split; [done|]. intros _. destruct (Hd eq_refl) as (z1 & ht1 & d & Hz1 & Hv1 & Hd1).
    exists za', ht1, d. split_and!; [done|congruence|done].
Qed.

Lemma key_same c w w' a : same w w' -> key c w' a = key c w a.
Proof. intros H. unfold key, rank_at. rewrite (same_keyed c w w') by done. by rewrite (proj1 H). Qed.
Lemma elem_same f c w w' a : same w w' -> elem_ok f c w a -> elem_ok f c w' a.
Proof.
  intros H [[Hf (x & Hx & Hh)] Hd]. split; [split|].
  - by rewrite (proj2 H).
  - exists x. rewrite (same_keyed c w w') by done. split; [done|by eapply same_holds].
  - by rewrite (proj1 H).
Qed.

Lemma heap_ordered_key f c w w' l :
  (forall a, a ∈ l -> key c w' a = key c w a) ->
  heap_ordered (at_least f c w) l -> heap_ordered (at_least f c w') l.
Proof.
  intros Hk Ho i Hi a b Ha Hb. unfold at_least, gle.
  rewrite !Hk by by eapply list_elem_of_lookup_2. by apply (Ho i Hi).
Qed.

(** Nothing is lost when only the zvals change, and enough references stay. *)
Lemma inv_moves f c s s' l :
  heap_inv f c s l -> heap s' = heap s -> fptr_cmp (intern (env s')) = fptr_cmp (intern (env s)) ->
  svals (zvals (env s)) (zvals (env s')) -> settled (zvals (env s')) ->
  (forall a, 2 * occ a l <= free_refs (zvals (env s')) a) ->
  heap_inv f c s' l /\ (in_order f c s l -> in_order f c s' l).
Proof.
  intros [Hr Hc Hf Hs Hrefs He] Hh Hi Hv Hs' Hrefs'.
  assert (Hmv : forall a, a ∈ l -> elem_ok f c (env s') a /\ key c (env s') a = key c (env s) a).
  { intros a Ha. rewrite Forall_forall in He. apply elem_moves; try done; [by apply He|].
    pose proof (occ_in a l Ha). specialize (Hrefs' a). lia. }
  split.
  - split; try done; [by rewrite Hh|by rewrite Hh|by rewrite Hi|].
    rewrite Forall_forall. intros a Ha. by apply Hmv.
  - intros [Hfl|Ho]; [left; unfold corrupted; by rewrite Hh|right].
    eapply heap_ordered_key; [|exact Ho]. intros a Ha. by apply Hmv.
Qed.

(** ** Insertion and removal *)

Lemma flags_after_corrupted w fl :
  has_flag (flags_after EG_exception (w : world D E X) fl) SPL_HEAP_CORRUPTED =
  EG_exception w || has_flag fl SPL_HEAP_CORRUPTED.
Proof.
  unfold flags_after. destruct (EG_exception w); [|done]. simpl. unfold has_flag.
  apply negb_true_iff, Z.eqb_neq. intros H. apply (f_equal (fun n => Z.testbit n 0)) in H.
  rewrite Z.land_spec, Z.lor_spec in H. by rewrite orb_true_r in H.
Qed.

Lemma same_outside s s' : same (env s) (env s') -> svals (zvals (env s)) (zvals (env s')).
Proof. intros [H _] b z z'. rewrite H. congruence. Qed.

Lemma heap_insert_inv (Hc : calm) f c s l elem z :
  heap_inv f c s l -> elem_ok f c (env s) elem -> Z.of_nat (length l) < 2 ^ 30 ->
  zvals (env s) !! elem = Some z -> refcount__gc z + 1 < 2 ^ 32 -> 1 <= outside s l elem ->
  exists s' l', heap_insert eng elem s = Ok (tt, s') /\ l' ≡ₚ elem :: l /\ heap_inv f c s' l' /\
    gained (zvals (env s)) (zvals (env s')) (delta elem) /\ intern (env s') = intern (env s) /\
    (EG_exception (env s) = true -> EG_exception (env s') = true) /\
    corrupted s' = EG_exception (env s') || corrupted s /\
    (ordering f c -> in_order f c s l -> in_order f c s' l').
Proof.
  intros Hinv Hel Hlen Hz Hmax Hout.
  pose proof Hinv as [Hr Hcm Hf Hs Hrefs He].
  destruct (addref_ok elem s z (proj2 Hs) Hz Hmax) as (m1 & Ha & Hg).
  set (w1 := set_zvals m1 (env s)).
  assert (Hs1 : settled m1).
  { eapply gained_settled; [apply delta_nonneg| |exact Hs|exact Hg].
    intros b zb Hb. destruct Hs as [[_ Hrng] _]. specialize (Hrng b zb Hb).
    unfold delta. destruct (decide (elem = b)) as [<-|]; [simplify_eq|]; lia. }
  assert (Hmv : forall a, a ∈ elem :: l -> elem_ok f c w1 a /\ key c w1 a = key c (env s) a).
  { intros a Hin. apply elem_moves; try done.
    - apply elem_of_cons in Hin as [->|Hin]; [done|]. rewrite Forall_forall in He. by apply He.
    - apply evolves_svals. by eapply gained_evolves.
    - simpl. rewrite (proj2 Hg a). pose proof (delta_nonneg elem a). unfold outside in Hout.
      apply elem_of_cons in Hin as [->|Hin]; [pose proof (occ_nonneg elem l); lia|].
      pose proof (occ_in a l Hin). specialize (Hrefs a). lia. }
  destruct (insert_ok (heap_call_cmp eng) EG_exception (live f c) same (key c) (heap_order f c) c
    (heap_quiet Hc f c) w1 spl_ptr_heap_zval_ctor s l elem Hr Hcm Hlen)
    as (s' & l' & Hrun & Hp & Hr' & Hcm' & Hfl & [Hsz Hsi] & Hx & Hon).
  { intros h. unfold spl_ptr_heap_zval_ctor.
    destruct (addref_ok elem (mkHs h (env s)) z (proj2 Hs) Hz Hmax) as (m2 & Ha2 & _).
    unfold Z_ADDREF_P, Z_SET_REFCOUNT_P, set_cell in *.
    rewrite (mbind_ok _ _ _ _ _ (cell_ok s elem z Hz)), (mbind_ok _ _ _ _ _ (cell_ok s elem z Hz)) in Ha.
    rewrite (mbind_ok _ _ _ _ _ (cell_ok (mkHs h (env s)) elem z Hz)).
    rewrite (mbind_ok _ _ _ _ _ (cell_ok (mkHs h (env s)) elem z Hz)).
    injection Ha as Ha. unfold modify, on_env, w1. simpl. by rewrite Ha. }
  { rewrite Forall_forall. intros a Hin. by apply Hmv. }
  assert (Hi' : intern (env s') = intern (env s)) by by rewrite Hsi.
  assert (Hz' : zvals (env s') = m1) by by rewrite Hsz.
  exists s', l'. split_and!; try done.
  - split; try done.
    + by rewrite Hi'.
    + by rewrite Hz'.
    + intros a. rewrite Hz', (proj2 Hg a), Hp, occ_cons. specialize (Hrefs a). unfold outside in Hout.
      unfold delta. destruct (decide (elem = a)) as [<-|]; lia.
    + rewrite Hp, Forall_forall. intros a Hin. apply (elem_same f c w1); [done|by apply Hmv].
  - by rewrite Hz'.
  - unfold corrupted. by rewrite Hfl, flags_after_corrupted.
  - intros Hord Hio. unfold in_order, corrupted. rewrite Hfl, flags_after_corrupted.
    destruct (EG_exception (env s')) eqn:Hex; [by left|]. destruct Hio as [Hcr|Hio].
    + left. unfold corrupted in Hcr. by rewrite Hcr.
    + right. apply (heap_ordered_key f c w1); [intros a _; by apply key_same|].
      apply Hon; [by apply heap_honest|done|].
      eapply heap_ordered_key; [|exact Hio]. intros a Hin. apply Hmv. by right.
Qed.

Lemma taken_free m x l :
  (forall a, 2 * occ a l + delta x a <= free_refs m a) -> 1 <= free_refs m x.
Proof.
  intros H. specialize (H x). pose proof (occ_nonneg x l). unfold delta in H.
  rewrite decide_True in H by done. lia.
Qed.

Lemma heap_delete_top_inv (Hc : calm) f c s x l :
  heap_inv f c s (x :: l) -> Z.of_nat (length (x :: l)) < 2 ^ 31 ->
  exists s' l', heap_delete_top eng s = Ok (Some x, s') /\ l' ≡ₚ l /\ heap_inv f c s' l' /\
    evolves (zvals (env s)) (zvals (env s')) /\ intern (env s') = intern (env s) /\
    (EG_exception (env s) = true -> EG_exception (env s') = true) /\
    corrupted s' = EG_exception (env s') || corrupted s /\
    (forall a, free_refs (zvals (env s')) a = free_refs (zvals (env s)) a - delta x a) /\
    elem_ok f c (env s') x /\ (forall n, light n (zvals (env s)) -> light n (zvals (env s'))) /\
    (forall a, 2 * occ a l' + delta x a <= free_refs (zvals (env s')) a) /\
    (ordering f c -> in_order f c s (x :: l) -> in_order f c s' l').
Proof.
  intros Hinv Hlen. pose proof Hinv as [Hr Hcm Hf Hs Hrefs He].
  destruct (delete_top_ok (heap_call_cmp eng) EG_exception (live f c) same (key c) (heap_order f c) c
    (heap_quiet Hc f c) (env s) (spl_ptr_heap_zval_dtor eng) s x l Hr Hcm eq_refl Hlen)
    as (s1 & l' & Hrun & Hp & Hr' & Hcm' & Hfl & Hsm & Hx & Hon).
  { rewrite Forall_forall in *. intros a Hin. by apply He. }
  assert (Hrefs1 : forall a, 2 * occ a l' + 2 * delta x a <= free_refs (zvals (env s1)) a).
  { intros a. rewrite (proj1 Hsm), Hp. specialize (Hrefs a). rewrite occ_cons in Hrefs. unfold delta.
    destruct (decide (x = a)); lia. }
  assert (Hset1 : settled (zvals (env s1))) by by rewrite (proj1 Hsm).
  assert (Hinv1 : heap_inv f c s1 l').
  { split; try done.
    - by rewrite (proj2 Hsm).
    - intros a. specialize (Hrefs1 a). pose proof (delta_nonneg x a). lia.
    - rewrite Hp, Forall_forall. rewrite Forall_forall in He. intros a Hin.
      apply (elem_same f c (env s)); [done|]. apply He. by right. }
  destruct (dtor_releases eng x s1 (proj1 Hset1)) as (s2 & Hd & (Hh2 & He2 & Hi2) & Hs2 & Hsh & Hfr).
  { specialize (Hrefs1 x). unfold delta in Hrefs1. rewrite decide_True in Hrefs1 by done.
    pose proof (occ_nonneg x l'). lia. }
  destruct (inv_moves f c s1 s2 l' Hinv1 Hh2 (f_equal fptr_cmp Hi2)) as [Hinv2 Hio2].
  { apply evolves_svals. by apply shed_evolves. } { by eapply settled_shed. }
  { intros a. rewrite Hfr. specialize (Hrefs1 a). pose proof (delta_nonneg x a). lia. }
  assert (Hex : EG_exception (env s2) = EG_exception (env s1)) by (unfold EG_exception; by rewrite He2).
  exists s2, l'. split_and!; try done.
  - unfold heap_delete_top. rewrite Hrun. by rewrite (mbind_ok _ _ _ _ _ Hd).
  - rewrite <- (proj1 Hsm). by apply shed_evolves.
  - rewrite Hi2. apply Hsm.
  - intros Hb. rewrite Hex. by apply Hx.
  - unfold corrupted. by rewrite Hh2, Hfl, flags_after_corrupted, Hex.
  - intros a. rewrite Hfr. by rewrite (proj1 Hsm).
  - apply Forall_cons in He as [Hex' _]. eapply (elem_moves f c (env s)); [done| | | |].
    + by rewrite Hi2, (proj2 Hsm).
    + rewrite <- (proj1 Hsm). by apply evolves_svals, shed_evolves.
    + apply Hinv2.
    + rewrite Hfr. specialize (Hrefs1 x). pose proof (occ_nonneg x l').
      unfold delta in *. rewrite decide_True in * by done. lia.
  - intros n. rewrite <- (proj1 Hsm). apply shed_light; [done|]. intros a. rewrite Hfr.
    pose proof (delta_nonneg x a). lia.
  - intros a. rewrite Hfr. specialize (Hrefs1 a). lia.
  - intros Hord Hio. apply Hio2. unfold in_order, corrupted. rewrite Hfl, flags_after_corrupted.
    destruct (EG_exception (env s1)) eqn:Hex1; [by left|]. destruct Hio as [Hcr|Hio].
    + left. unfold corrupted in Hcr. by rewrite Hcr.
    + right. apply (heap_ordered_key f c (env s)); [intros a _; by apply key_same|].
      apply Hon; [by apply heap_honest|done|done].
Qed.

(** ** What the methods promise *)

Definition is_queue (c : heap_cmp) : bool := match c with pqueue_zval_cmp => true | _ => false end.

(** The zval whose value is returned for the element [a]. *)
Definition chosen (c : heap_cmp) w a : option addr :=
  match c with
  | pqueue_zval_cmp =>
      let part := Z.land (oflags (intern w)) SPL_PQUEUE_EXTR_BOTH in
      if part =? SPL_PQUEUE_EXTR_BOTH then Some a
      else match zvals w !! a with
           | Some z =>
               match value z with
               | IS_ARRAY ht => hash_find (if part =? SPL_PQUEUE_EXTR_DATA then bs "data" else bs "priority") ht
               | _ => None
               end
           | None => None
           end
  | _ => Some a
  end.
(** With the extraction flags 0 nothing is asked of the elements of a queue. *)
Definition asked (c : heap_cmp) w : bool :=
  negb (is_queue c && (Z.land (oflags (intern w)) SPL_PQUEUE_EXTR_BOTH =? 0)).
Definition returns (c : heap_cmp) w a (ans : answer D) : Prop :=
  if asked c w then exists b z, chosen c w a = Some b /\ zvals w !! b = Some z /\ ans = RetZval (value z)
  else ans = RetNull.

(** The value of [v] in [w] is that of [e] in [w']. *)
Definition same_value w w' v e : Prop := exists z z',
  zvals w !! v = Some z /\ zvals w' !! e = Some z' /\ value z' = value z.
(** [e] is the element for the arguments of insert. *)
Definition stored (c : heap_cmp) w w' v (p : option addr) e : Prop :=
  match p with
  | None => same_value w w' v e
  | Some p => exists z a b, zvals w' !! e = Some z /\
      value z = IS_ARRAY [(bs "data", a); (bs "priority", b)] /\
      same_value w w' v a /\ same_value w w' p b
  end.

(** No element is greater than [x]. *)
Definition greatest f c s x l : Prop :=
  ordering f c -> in_order f c s l -> corrupted s = false -> forall y, y ∈ l -> at_least f c (env s) x y.

Definition throws s s' l' l (ans : answer D) (message : list byte) : Prop :=
  ans = RetNull /\ l' = l /\ heap s' = heap s /\
  exception (env s') = RuntimeException message :: exception (env s).

(** What [call] may answer in [s], and the elements it leaves. *)
Definition meets f c (call : call) s l (ans : answer D) s' l' : Prop :=
  match call with
  | Insert v p =>
      if corrupted s then throws s s' l' l ans CORRUPTED
      else ans = RetBool true /\ exists e, l' ≡ₚ e :: l /\ stored c (env s) (env s') v p e
  | Extract =>
      if corrupted s then throws s s' l' l ans CORRUPTED
      else match l with
           | [] => throws s s' l' l ans EXTRACT_EMPTY
           | _ => exists x, l ≡ₚ x :: l' /\ greatest f c s x l /\ returns c (env s) x ans
           end
  | Top =>
      if corrupted s then throws s s' l' l ans CORRUPTED
      else match l with
           | [] => throws s s' l' l ans PEEK_EMPTY
           | _ => exists x, x ∈ l /\ l' = l /\ greatest f c s x l /\ returns c (env s) x ans
           end
  | Current =>
      l' = l /\
      match l with
      | [] => ans = RetNull
      | _ => exists x, x ∈ l /\ greatest f c s x l /\ returns c (env s) x ans
      end
  | Next _ =>
      ans = RetNull /\
      match l with [] => l' = [] | _ => exists x, l ≡ₚ x :: l' /\ greatest f c s x l end
  | Count => ans = RetLong (Z.of_nat (length l)) /\ l' = l
  | IsEmpty => ans = RetBool (bool_decide (l = [])) /\ l' = l
  | Valid => ans = RetBool (negb (bool_decide (l = []))) /\ l' = l
  | Key => ans = RetLong (Z.of_nat (length l) - 1) /\ l' = l
  | Rewind => ans = RetNull /\ l' = l
  | SetExtractFlags v =>
      ans = RetLong (Z.land v SPL_PQUEUE_EXTR_MASK) /\ l' = l /\
      oflags (intern (env s')) = Z.land v SPL_PQUEUE_EXTR_MASK
  | RecoverFromCorruption => ans = RetBool true /\ l' = l /\ corrupted s' = false
  end.

(** The method is one of the class, and the arguments are zvals that can be
    compared, as many as it takes. *)
Definition callable (c : heap_cmp) s (call : call) : Prop :=
  match call with
  | Insert v None => is_queue c = false /\ holds (env s) v
  | Insert v (Some p) => is_queue c = true /\ is_Some (zvals (env s) !! v) /\ holds (env s) p
  | SetExtractFlags _ => is_queue c = true
  | _ => True
  end.

(** Few enough elements and references for nothing to wrap. *)
Definition roomy s l : Prop := light (2 ^ 30) (zvals (env s)) /\ Z.of_nat (length l) < 2 ^ 30.

(** The references that an answer holds. *)
Definition given (ans : answer D) a : Z := match ans with RetZval v => occ a (members v) | _ => 0 end.

(** Those that next leaves behind when it has been given an argument. *)
Definition leaked (call : call) l a : Z :=
  match call, l with Next false, x :: _ => delta x a | _, _ => 0 end.
(** What the order after a call depends on: recoverFromCorruption takes the
    flag away, whatever the order is. *)
Definition ordered_before f c (call : call) s l : Prop :=
  match call with
  | RecoverFromCorruption => heap_ordered (at_least f c (env s)) l
  | _ => in_order f c s l
  end.

(** A call that keeps the invariant and every reference. *)
Record served f c s l (ans : answer D) s' l' : Prop := {
  sv_inv : heap_inv f c s' l';
  sv_out : forall a, outside s' l' a = outside s l a + given ans a;
  sv_order : ordering f c -> in_order f c s l -> in_order f c s' l'
}.

Lemma given_nonneg ans a : 0 <= given ans a.
Proof. destruct ans; simpl; [done..|apply occ_nonneg]. Qed.

Lemma unless_false {A} (d : A) (body : M st A) s :
  corrupted s = false -> unless_corrupted d body s = body s.
Proof. unfold corrupted, unless_corrupted. mstep. by intros ->. Qed.
Lemma unless_true {A} (d : A) (body : M st A) s :
  corrupted s = true -> exists s', unless_corrupted d body s = Ok (d, s') /\ heap s' = heap s /\
    zvals (env s') = zvals (env s) /\ intern (env s') = intern (env s) /\
    exception (env s') = RuntimeException CORRUPTED :: exception (env s).
Proof. unfold corrupted, unless_corrupted, zend_throw_exception. repeat mstep. intros ->. by eexists. Qed.

Lemma svals_refl m : svals m m.
Proof. intros b z z' H1 H2. congruence. Qed.

Lemma served_unchanged f c s s' l ans :
  heap_inv f c s l -> heap s' = heap s -> zvals (env s') = zvals (env s) ->
  fptr_cmp (intern (env s')) = fptr_cmp (intern (env s)) -> (forall a, given ans a = 0) -> served f c s l ans s' l.
Proof.
  intros Hinv Hh Hz Hi Hg. destruct (inv_moves f c s s' l Hinv Hh Hi) as [H1 H2].
  - rewrite Hz. apply svals_refl.
  - rewrite Hz. apply Hinv.
  - rewrite Hz. apply Hinv.
  - split; [done| |done]. intros a. unfold outside. rewrite Hz, Hg. lia.
Qed.

(** A pending exception is all that changes. *)
Lemma served_throw f c s l message :
  heap_inv f c s l ->
  exists s', (zend_throw_exception message;; mret (RetNull : answer D)) s = Ok (RetNull, s') /\
    served f c s l RetNull s' l /\ throws s s' l l RetNull message.
Proof.
  intros Hinv. unfold zend_throw_exception. mstep. eexists. split; [done|].
  split; [by apply served_unchanged|done].
Qed.

(** ** The part of an element that is returned *)

Lemma part_cases fl : Z.land fl SPL_PQUEUE_EXTR_BOTH <> 0 ->
  Z.land fl SPL_PQUEUE_EXTR_BOTH = SPL_PQUEUE_EXTR_BOTH \/
  Z.land fl SPL_PQUEUE_EXTR_BOTH = SPL_PQUEUE_EXTR_DATA \/
  Z.land fl SPL_PQUEUE_EXTR_BOTH = SPL_PQUEUE_EXTR_PRIORITY.
Proof.
  unfold SPL_PQUEUE_EXTR_BOTH, SPL_PQUEUE_EXTR_DATA, SPL_PQUEUE_EXTR_PRIORITY.
  change 3 with (2 ^ 2 - 1). rewrite land_mask by lia. pose proof (Z.mod_pos_bound fl (2 ^ 2)). lia.
Qed.

Lemma land_data fl : Z.land fl SPL_PQUEUE_EXTR_DATA = Z.land (Z.land fl SPL_PQUEUE_EXTR_BOTH) SPL_PQUEUE_EXTR_DATA.
Proof. by rewrite <- Z.land_assoc. Qed.

(** What [spl_pqueue_extract_helper] finds in an element of a queue. *)
Lemma extract_chosen s a z ht :
  zvals (env s) !! a = Some z -> value z = IS_ARRAY ht ->
  Z.land (oflags (intern (env s))) SPL_PQUEUE_EXTR_BOTH <> 0 ->
  spl_pqueue_extract_helper a (oflags (intern (env s))) s = Ok (chosen pqueue_zval_cmp (env s) a, s).
Proof.
  intros Hz Hv Hf. unfold spl_pqueue_extract_helper, chosen. rewrite land_data, Hz, Hv.
  destruct (part_cases _ Hf) as [->|[->| ->]]; [done|..]; simpl; unfold Z_ARRVAL_P;
    rewrite mbind_assoc, (mbind_ok _ _ _ _ _ (cell_ok s a z Hz)), Hv; done.
Qed.

(** Every element has such a part, with a reference from the array. *)
Lemma chosen_ok f c s a :
  elem_ok f c (env s) a -> settled (zvals (env s)) -> asked c (env s) = true ->
  exists b z, chosen c (env s) a = Some b /\ zvals (env s) !! b = Some z /\
    (is_queue c = false -> b = a) /\
    (is_queue c = true -> spl_pqueue_extract_helper a (oflags (intern (env s))) s = Ok (Some b, s)).
Proof.
  intros [[_ (x & Hx & zx & Hzx & _)] Hd] Hs Hf. destruct c.
  - injection Hx as <-. by exists a, zx.
  - injection Hx as <-. by exists a, zx.
  - destruct (Hd eq_refl) as (z & ht & d & Hz & Hv & Hdat). apply negb_true_iff, Z.eqb_neq in Hf.
    pose proof (extract_chosen s a z ht Hz Hv Hf) as He.
    assert (exists b zb, chosen pqueue_zval_cmp (env s) a = Some b /\ zvals (env s) !! b = Some zb) as (b & zb & Hb & Hzb).
    { cbn [keyed] in Hx. rewrite Hz, Hv in Hx. unfold chosen. rewrite Hz, Hv.
      destruct (part_cases _ Hf) as [->|[->| ->]]; simpl; [by exists a, z| |by exists x, zx].
      destruct (member_cell _ _ _ d (proj1 Hs) Hz (proj2 Hs a z Hz)) as (zd & Hzd & _).
      { rewrite Hv. by eapply hash_find_member. }
      by exists d, zd. }
    exists b, zb. split_and!; try done. intros _. by rewrite He, Hb.
Qed.

(** A value returned from a later store was there before. *)
Lemma returns_before c w w' a ans :
  evolves (zvals w) (zvals w') -> intern w' = intern w -> is_Some (zvals w' !! a) ->
  returns c w' a ans -> returns c w a ans.
Proof.
  intros Hev Hi [za' Ha']. unfold returns, asked. rewrite Hi. case_match; [|done].
  intros (b & z & Hb & Hz & ->). destruct (Hev a za' Ha') as (za & Ha & Hv).
  destruct (Hev b z Hz) as (zb & Hzb & Hvb). exists b, zb. split_and!; [|done|by rewrite Hvb].
  rewrite <- Hb. unfold chosen. by rewrite Hi, Ha, Ha', Hv.
Qed.

(** With the flags 0 the helper finds nothing. *)
Lemma extract_none c s a :
  asked c (env s) = false -> is_queue c = true /\ spl_pqueue_extract_helper a (oflags (intern (env s))) s = Ok (None, s).
Proof.
  unfold asked. intros [-> Hf%Z.eqb_eq]%negb_false_iff%andb_true_iff. split; [done|].
  unfold spl_pqueue_extract_helper. by rewrite Hf.
Qed.

Lemma greatest_head (Hc : calm) f c s x l : heap_inv f c s (x :: l) -> greatest f c s x (x :: l).
Proof.
  intros _ Hord [Hcr|Ho] Hnc y Hy; [congruence|]. apply list_elem_of_lookup in Hy as [k Hk].
  pose proof (heap_honest Hc f c Hord) as Hh.
  eapply (heap_root (at_least f c (env s))); [| |done|done|done].
  - intros a b d. by eapply gle_trans.
  - intros a. by eapply gle_refl.
Qed.

(** ** Each method *)

Section Calls.
Context (Hc : calm) (f : bool) (c : heap_cmp).

(** A call returns, keeps what has to be kept and does what it promises. *)
Definition good (run : M st (answer D)) (call : call) s l : Prop :=
  exists ans s' l', run s = Ok (ans, s') /\ served f c s l ans s' l' /\ meets f c call s l ans s' l' /\
    (EG_exception (env s) = true -> EG_exception (env s') = true).

Lemma good_corrupted (body : M st (answer D)) call s l :
  heap_inv f c s l -> corrupted s = true ->
  (forall s', throws s s' l l RetNull CORRUPTED -> meets f c call s l RetNull s' l) ->
  good (unless_corrupted RetNull body) call s l.
Proof.
  intros Hinv Hcr Hm. destruct (unless_true RetNull body s Hcr) as (s' & Hr & Hh & Hz & Hi & He).
  exists RetNull, s', l. split_and!; [done| | |].
  - apply served_unchanged; try done. by rewrite Hi.
  - by apply Hm.
  - intros _. unfold EG_exception. by rewrite He.
Qed.

Lemma good_thrown message call s l :
  heap_inv f c s l -> (forall s', throws s s' l l RetNull message -> meets f c call s l RetNull s' l) ->
  good (zend_throw_exception message;; mret RetNull) call s l.
Proof.
  intros Hinv Hm. destruct (served_throw f c s l message Hinv) as (s' & Hr & Hs & Ht).
  exists RetNull, s', l. split_and!; [done|done|by apply Hm|].
  intros _. unfold EG_exception. by rewrite (proj2 (proj2 (proj2 Ht))).
Qed.

Lemma good_plain ans call s l :
  heap_inv f c s l -> (forall a, given ans a = 0) -> meets f c call s l ans s l -> good (mret ans) call s l.
Proof. intros Hinv Hg Hm. exists ans, s, l. split_and!; [done|by apply served_unchanged|done|done]. Qed.

Lemma inv_top s x l : heap_inv f c s (x :: l) -> spl_ptr_heap_top s = Ok (Some x, s).
Proof. intros Hinv. eapply rep_top, hi_rep, Hinv. Qed.
Lemma inv_count s l : heap_inv f c s l -> count (heap s) = Z.of_nat (length l).
Proof. intros Hinv. apply rep_count, Hinv. Qed.
Lemma inv_first s x l : heap_inv f c s (x :: l) -> element 0 s = Ok (x, s).
Proof.
  intros Hinv. destruct (hi_rep _ _ _ _ Hinv) as (rest & He & _). apply (slot_element s 0). by rewrite He.
Qed.

(** What top and current do with the first element. *)
Definition give (x : addr) : M st (answer D) :=
  if is_queue c then
    s ← get_st;
    out ← spl_pqueue_extract_helper x (oflags (intern (env s)));
    match out with
    | None => zend_error eng NODE_ERROR;; mret RetNull
    | Some out => RETURN_ZVAL eng out false
    end
  else RETURN_ZVAL eng x false.

Lemma give_first s x l :
  heap_inv f c s (x :: l) -> roomy s (x :: l) ->
  exists ans s', give x s = Ok (ans, s') /\ served f c s (x :: l) ans s' (x :: l) /\
    greatest f c s x (x :: l) /\ returns c (env s) x ans /\
    (EG_exception (env s) = true -> EG_exception (env s') = true).
Proof.
  intros Hinv [Hlight _]. pose proof (hi_elem _ _ _ _ Hinv) as He. apply Forall_cons in He as [He _].
  pose proof (greatest_head Hc f c s x l Hinv) as Hg. unfold give, returns.
  destruct (asked c (env s)) eqn:Hq.
  2:{ destruct (extract_none c s x Hq) as [-> Hx]. mstep. rewrite (mbind_ok _ _ _ _ _ Hx).
      destruct (calm_error Hc NODE_ERROR s) as (s' & Hr & Hh & Hz & Hi & Hex). rewrite (mbind_ok _ _ _ _ _ Hr).
      exists RetNull, s'. split_and!; try done. apply served_unchanged; try done. by rewrite Hi. }
  destruct (chosen_ok f c s x He (hi_settled _ _ _ _ Hinv) Hq) as (b & z & Hb & Hz & Hp & Hx).
  destruct (return_zval_ok eng (2 ^ 30) b false s z (hi_settled _ _ _ _ Hinv) Hz Hlight ltac:(lia) ltac:(done))
    as (s' & Hr & (Hh & Hex & Hi) & Hs' & Hev & Hfr).
  assert (Hfr' : forall a, free_refs (zvals (env s')) a = free_refs (zvals (env s)) a + occ a (members (value z))).
  { intros a. rewrite Hfr. lia. }
  destruct (inv_moves f c s s' (x :: l) Hinv Hh (f_equal fptr_cmp Hi)) as [Hinv' Hio].
  { by apply evolves_svals. } { done. }
  { intros a. rewrite Hfr'. pose proof (hi_refs _ _ _ _ Hinv a). pose proof (occ_nonneg a (members (value z))). lia. }
  exists (RetZval (value z)), s'. split_and!; try done.
  - destruct (is_queue c); [mstep; by rewrite (mbind_ok _ _ _ _ _ (Hx eq_refl))|by rewrite <- (Hp eq_refl)].
  - split; [done| |done]. intros a. unfold outside. rewrite Hfr'. simpl. lia.
  - by exists b, z.
  - intros Ho. unfold EG_exception. by rewrite Hex.
Qed.

Lemma good_first call s x l (body : M st (answer D)) :
  heap_inv f c s (x :: l) -> roomy s (x :: l) -> body s = give x s ->
  (forall ans s', greatest f c s x (x :: l) -> returns c (env s) x ans -> meets f c call s (x :: l) ans s' (x :: l)) ->
  good body call s (x :: l).
Proof.
  intros Hinv Hroom Hbody Hm.
  destruct (give_first s x l Hinv Hroom) as (ans & s' & Hr & Hs & Hg & Hret & He).
  exists ans, s', (x :: l). rewrite Hbody. split_and!; try done. by apply Hm.
Qed.

Lemma top_good s l :
  heap_inv f c s l -> roomy s l -> good (run_call eng (is_queue c) Top) Top s l.
Proof.
  intros Hinv Hroom. destruct (corrupted s) eqn:Hcr.
  { cbn [run_call]. destruct (is_queue c); apply good_corrupted; try done; simpl; by rewrite Hcr. }
  destruct l as [|x l].
  - assert (Ht : @heap_top D E X s = Ok (None, s)) by apply rep_top_empty, Hinv.
    pose proof (good_thrown PEEK_EMPTY Top s [] Hinv) as (ans & s' & l' & Hr & Hrest).
    { simpl. by rewrite Hcr. }
    exists ans, s', l'. split; [|done]. rewrite <- Hr. cbn [run_call]. 
    destruct (is_queue c); [unfold SplPriorityQueue_top|unfold SplHeap_top];
      rewrite unless_false, (mbind_ok _ _ _ _ _ Ht) by done; done.
  - pose proof (inv_top s x l Hinv) as Ht. apply good_first; [done|done| |].
    + cbn [run_call]. unfold give. destruct (is_queue c); [unfold SplPriorityQueue_top|unfold SplHeap_top];
        by rewrite unless_false, (mbind_ok _ _ _ _ _ Ht) by done.
    + intros ans s' Hg Hret. simpl. rewrite Hcr. exists x. split_and!; try done. left.
Qed.

Lemma current_good s l :
  heap_inv f c s l -> roomy s l -> good (run_call eng (is_queue c) Current) Current s l.
Proof.
  intros Hinv Hroom. pose proof (inv_count s l Hinv) as Hn. destruct l as [|x l].
  - pose proof (good_plain RetNull Current s [] Hinv) as (ans & s' & l' & Hr & Hrest); [done|done|].
    exists ans, s', l'. split; [|done]. rewrite <- Hr. cbn [run_call].
    destruct (is_queue c); [unfold SplPriorityQueue_current|unfold SplHeap_current]; mstep; by rewrite Hn.
  - pose proof (inv_first s x l Hinv) as Ht. apply good_first; [done|done| |].
    + cbn [run_call]. unfold give.
      destruct (is_queue c); [unfold SplPriorityQueue_current|unfold SplHeap_current]; rewrite mbind_get;
        rewrite Hn, (proj2 (Z.eqb_neq _ _)) by (simpl; lia); by rewrite (mbind_ok _ _ _ _ _ Ht).
    + intros ans s' Hg Hret. split; [done|]. exists x. split_and!; try done. left.
Qed.

(** What extract does with the element it has taken from the heap. *)
Definition take (x : addr) : M st (answer D) :=
  if is_queue c then
    s ← get_st;
    out ← spl_pqueue_extract_helper x (oflags (intern (env s)));
    match out with
    | None => zend_error eng NODE_ERROR;; zval_ptr_dtor eng x;; mret RetNull
    | Some out => Z_ADDREF_P out;; zval_ptr_dtor eng x;; RETURN_ZVAL eng out true
    end
  else RETURN_ZVAL eng x true.

(** The part leaves with the answer, the rest of the element is released. *)
Lemma take_store s x :
  settled (zvals (env s)) -> light (2 ^ 30) (zvals (env s)) -> elem_ok f c (env s) x ->
  1 <= free_refs (zvals (env s)) x ->
  exists ans s', take x s = Ok (ans, s') /\ returns c (env s) x ans /\
    heap s' = heap s /\ intern (env s') = intern (env s) /\
    (EG_exception (env s) = true -> EG_exception (env s') = true) /\ settled (zvals (env s')) /\
    evolves (zvals (env s)) (zvals (env s')) /\
    forall a, free_refs (zvals (env s')) a = free_refs (zvals (env s)) a - delta x a + given ans a.
Proof.
  intros Hs Hl Hel Hfree. unfold returns. destruct (asked c (env s)) eqn:Hq.
  2:{ destruct (extract_none c s x Hq) as [Hqu Hx]. unfold take. rewrite Hqu. mstep. rewrite (mbind_ok _ _ _ _ _ Hx).
      destruct (calm_error Hc NODE_ERROR s) as (s1 & Hr1 & Hh1 & Hz1 & Hi1 & Hex1). rewrite (mbind_ok _ _ _ _ _ Hr1).
      destruct (dtor_releases eng x s1) as (s2 & Hr2 & (Hh2 & Hex2 & Hi2) & Hs2 & Hsh & Hf2); [rewrite Hz1; apply Hs|by rewrite Hz1|].
      rewrite (mbind_ok _ _ _ _ _ Hr2). rewrite Hz1 in *. exists RetNull, s2. split_and!; try done; try congruence.
      - intros Ho. unfold EG_exception in *. rewrite Hex2. by apply Hex1.
      - by eapply settled_shed.
      - by apply shed_evolves.
      - intros a. rewrite Hf2. simpl. lia. }
  destruct (chosen_ok f c s x Hel Hs Hq) as (b & z & Hb & Hz & Hp & Hx).
  unfold take. destruct (is_queue c).
  - mstep. rewrite (mbind_ok _ _ _ _ _ (Hx eq_refl)).
    destruct (addref_ok b s z (proj2 Hs) Hz) as (m2 & Ha & Hg). { destruct (Hl b z Hz). lia. }
    rewrite (mbind_ok _ _ _ _ _ Ha). set (s2 := on_env (set_zvals m2) s).
    assert (Hs2 : settled m2).
    { eapply gained_settled; [apply delta_nonneg| |exact Hs|exact Hg]. intros a za Hza.
      destruct (Hl a za Hza). unfold delta. destruct (decide (b = a)); lia. }
    destruct (dtor_releases eng x s2 (proj1 Hs2)) as (s3 & Hd & Hfr3 & Hs3 & Hsh & Hf3).
    { simpl. rewrite (proj2 Hg). pose proof (delta_nonneg b x). lia. }
    rewrite (mbind_ok _ _ _ _ _ Hd). simpl in Hf3, Hsh.
    assert (Hset3 : settled (zvals (env s3))) by by eapply settled_shed.
    assert (Hfb : 1 <= free_refs (zvals (env s3)) b).
    { rewrite Hf3, (proj2 Hg). pose proof (proj1 (proj1 Hs) b). unfold delta. rewrite (decide_True (P := b = b)) by done.
      destruct (decide (x = b)) as [<-|]; lia. }
    destruct (free_positive _ _ Hfb) as (z3 & Hz3 & _).
    assert (Hev : evolves (zvals (env s)) (zvals (env s3))).
    { eapply evolves_trans; [by eapply gained_evolves|by apply shed_evolves]. }
    assert (Hv3 : value z3 = value z) by by eapply evolves_svals.
    destruct (return_zval_ok eng (2 ^ 30 + 1) b true s3 z3 Hset3 Hz3) as (s4 & Hr & Hfr4 & Hs4 & Hev4 & Hf4); [|lia|done|].
    { eapply shed_light; [done| |].
      - intros a. rewrite Hf3. pose proof (delta_nonneg x a). lia.
      - eapply gained_light; [done| |done]. intros a. unfold delta. destruct (decide (b = a)); lia. }
    destruct Hfr3 as (Hh3 & Hex3 & Hi3), Hfr4 as (Hh4 & Hex4 & Hi4). simpl in Hh3, Hex3, Hi3.
    exists (RetZval (value z)), s4. rewrite Hr, Hv3. split_and!; try done; try congruence.
    + by exists b, z.
    + intros Ho. unfold EG_exception in *. by rewrite Hex4, Hex3.
    + by eapply evolves_trans.
    + intros a. rewrite Hf4, Hf3, (proj2 Hg), Hv3. simpl. lia.
  - rewrite (Hp eq_refl) in *. 
    destruct (return_zval_ok eng (2 ^ 30) x true s z Hs Hz Hl ltac:(lia) ltac:(done)) as (s4 & Hr & (Hh4 & Hex4 & Hi4) & Hs4 & Hev4 & Hf4).
    exists (RetZval (value z)), s4. rewrite Hr. split_and!; try done.
    + by exists x, z.
    + intros Ho. unfold EG_exception in *. by rewrite Hex4.
    + intros a. rewrite Hf4. simpl. lia.
Qed.

Lemma extract_unfold : run_call eng (is_queue c) Extract =
  unless_corrupted RetNull (
    v ← heap_delete_top eng;
    match v with None => zend_throw_exception EXTRACT_EMPTY;; mret RetNull | Some v => take v end).
Proof. unfold take. cbn [run_call]. by destruct (is_queue c). Qed.

Lemma extract_good s l :
  heap_inv f c s l -> roomy s l -> good (run_call eng (is_queue c) Extract) Extract s l.
Proof.
  intros Hinv [Hlight Hlen]. rewrite extract_unfold. destruct (corrupted s) eqn:Hcr.
  { apply good_corrupted; try done. simpl. by rewrite Hcr. }
  destruct l as [|x l].
  - pose proof (good_thrown EXTRACT_EMPTY Extract s [] Hinv) as (ans & s' & l' & Hr & Hrest). { simpl. by rewrite Hcr. }
    exists ans, s', l'. split; [|done]. rewrite <- Hr, unless_false by done.
    rewrite (mbind_ok _ _ s None s); [done|]. by apply delete_top_empty, Hinv.
  - destruct (heap_delete_top_inv Hc f c s x l Hinv) as
      (s1 & l1 & Hd & Hp & Hinv1 & Hev & Hi & Hex & _ & Hfr & Hel & Hli & Hrefs1 & Hio). { lia. }
    pose proof (hi_settled _ _ _ _ Hinv1) as Hs1. pose proof (taken_free _ _ _ Hrefs1) as Hfx.
    destruct (take_store s1 x Hs1) as (ans & s' & Hr & Hret & Hh & Hi' & He & Hs' & Hev' & Hf').
    { by apply Hli. } { done. } { done. }
    destruct (inv_moves f c s1 s' l1 Hinv1 Hh (f_equal fptr_cmp Hi')) as [Hinv' Hio'].
    { by apply evolves_svals. } { done. }
    { intros a. rewrite Hf'. specialize (Hrefs1 a). pose proof (given_nonneg ans a). lia. }
    exists ans, s', l1. split_and!.
    + rewrite unless_false by done. by rewrite (mbind_ok _ _ _ _ _ Hd).
    + split; [done| |auto]. intros a. unfold outside. rewrite Hf', Hfr, Hp, occ_cons.
      unfold delta. destruct (decide (x = a)); lia.
    + simpl. rewrite Hcr. exists x. split_and!; [by rewrite Hp|by eapply greatest_head|].
      destruct (free_positive (zvals (env s1)) x Hfx) as (zx & Hzx & _).
      by eapply (returns_before c (env s) (env s1) x).
    + intros Ho. by apply He, Hex.
Qed.

Lemma next_good s l :
  heap_inv f c s l -> roomy s l -> good (run_call eng (is_queue c) (Next true)) (Next true) s l.
Proof.
  intros Hinv [Hlight Hlen]. cbn [run_call]. destruct l as [|x l].
  - exists RetNull, s, []. split_and!; [|by apply served_unchanged|done|done]. unfold SplHeap_next.
    rewrite (mbind_ok _ _ s None s); [done|]. by apply delete_top_empty, Hinv.
  - destruct (heap_delete_top_inv Hc f c s x l Hinv) as
      (s1 & l1 & Hd & Hp & Hinv1 & Hev & Hi & Hex & _ & Hfr & Hel & Hli & Hrefs1 & Hio). { lia. }
    pose proof (hi_settled _ _ _ _ Hinv1) as Hs1. pose proof (taken_free _ _ _ Hrefs1) as Hfx.
    destruct (dtor_releases eng x s1 (proj1 Hs1) Hfx) as (s' & Hr & (Hh & He & Hi') & Hs' & Hsh & Hf').
    destruct (inv_moves f c s1 s' l1 Hinv1 Hh (f_equal fptr_cmp Hi')) as [Hinv' Hio'].
    { by apply evolves_svals, shed_evolves. } { by eapply settled_shed. }
    { intros a. rewrite Hf'. specialize (Hrefs1 a). lia. }
    exists RetNull, s', l1. split_and!.
    + unfold SplHeap_next. rewrite (mbind_ok _ _ _ _ _ Hd). simpl. by rewrite (mbind_ok _ _ _ _ _ Hr).
    + split; [done| |auto]. intros a. unfold outside. rewrite Hf', Hfr, Hp, occ_cons. simpl. unfold delta. lia.
    + split; [done|]. exists x. split; [by rewrite Hp|by eapply greatest_head].
    + intros Ho. unfold EG_exception in *. rewrite He. by apply Hex.
Qed.

(** With an argument, next takes the element away and leaks it. *)
Lemma next_leaks s x l :
  heap_inv f c s (x :: l) -> Z.of_nat (length (x :: l)) < 2 ^ 30 ->
  exists s' l', run_call eng (is_queue c) (Next false) s = Ok (RetNull, s') /\ heap_inv f c s' l' /\
    (forall a, outside s' l' a = outside s (x :: l) a + delta x a) /\
    x :: l ≡ₚ x :: l' /\ greatest f c s x (x :: l) /\
    (ordering f c -> in_order f c s (x :: l) -> in_order f c s' l').
Proof.
  intros Hinv Hlen. destruct (heap_delete_top_inv Hc f c s x l Hinv) as
    (s1 & l1 & Hd & Hp & Hinv1 & _ & _ & _ & _ & Hfr & _ & _ & _ & Hio). { lia. }
  exists s1, l1. cbn [run_call]. unfold SplHeap_next. rewrite (mbind_ok _ _ _ _ _ Hd).
  split_and!; [done|done| |by rewrite Hp|by eapply greatest_head|done].
  intros a. unfold outside. rewrite Hfr, Hp, occ_cons. unfold delta. lia.
Qed.

(** The new element [e] of a heap that has become [s1] on the way. *)
Lemma insert_new s s1 l e z v p :
  heap_inv f c s l -> Z.of_nat (length l) < 2 ^ 30 -> corrupted s = false ->
  heap s1 = heap s -> intern (env s1) = intern (env s) -> exception (env s1) = exception (env s) ->
  svals (zvals (env s)) (zvals (env s1)) -> settled (zvals (env s1)) ->
  (forall a, free_refs (zvals (env s1)) a = free_refs (zvals (env s)) a + delta e a) ->
  zvals (env s1) !! e = Some z -> refcount__gc z + 1 < 2 ^ 32 -> elem_ok f c (env s1) e ->
  stored c (env s) (env s1) v p e ->
  exists s' l', (heap_insert eng e;; mret (RetBool true : answer D)) s1 = Ok (RetBool true, s') /\
    served f c s l (RetBool true) s' l' /\ meets f c (Insert v p) s l (RetBool true) s' l' /\
    (EG_exception (env s) = true -> EG_exception (env s') = true).
Proof.
  intros Hinv Hlen Hcr Hh Hi He Hv Hs1 Hf Hz Hmax Hel Hst.
  destruct (inv_moves f c s s1 l Hinv Hh (f_equal fptr_cmp Hi) Hv Hs1) as [Hinv1 Hio1].
  { intros a. rewrite Hf. pose proof (hi_refs _ _ _ _ Hinv a). pose proof (delta_nonneg e a). lia. }
  destruct (heap_insert_inv Hc f c s1 l e z Hinv1 Hel Hlen Hz Hmax)
    as (s' & l' & Hr & Hp & Hinv' & Hg & Hi' & Hex & _ & Hio').
  { unfold outside. rewrite Hf. pose proof (hi_refs _ _ _ _ Hinv e). unfold delta. rewrite decide_True by done. lia. }
  exists s', l'. split_and!.
  - by rewrite (mbind_ok _ _ _ _ _ Hr).
  - split; [done| |auto]. intros a. unfold outside. rewrite (proj2 Hg), Hf, Hp, occ_cons. simpl. unfold delta. lia.
  - simpl. rewrite Hcr. split; [done|]. exists e. split; [done|].
    assert (Hsv : forall x y, same_value (env s) (env s1) x y -> same_value (env s) (env s') x y).
    { intros x y (zx & zy & Hx & Hy & Hxy). exists zx, (mkZv (value zy) (refcount__gc zy + delta e y) (is_ref__gc zy)).
      split_and!; [done| |done]. by rewrite (proj1 Hg), Hy. }
    destruct p as [p|]; simpl in *; [|by apply Hsv].
    destruct Hst as (ze & a & b & Hze & Hvz & Ha & Hb).
    exists (mkZv (value ze) (refcount__gc ze + delta e e) (is_ref__gc ze)), a, b.
    split_and!; [by rewrite (proj1 Hg), Hze|done|by apply Hsv|by apply Hsv].
  - intros Ho. apply Hex. unfold EG_exception. by rewrite He.
Qed.

Lemma svals_kept m m' :
  (forall x y, m !! x = Some y -> exists y', m' !! x = Some y' /\ value y' = value y) -> svals m m'.
Proof. intros H b z z' Hz Hz'. destruct (H b z Hz) as (y & Hy & Hv). congruence. Qed.

Lemma insert_good (Hmem : granting (D := D)) s l v :
  heap_inv f c s l -> roomy s l -> callable c s (Insert v None) ->
  good (run_call eng (is_queue c) (Insert v None)) (Insert v None) s l.
Proof.
  intros Hinv [Hlight Hlen] [Hnq Hv]. cbn [run_call]. rewrite Hnq. destruct (corrupted s) eqn:Hcr.
  { apply good_corrupted; try done. simpl. by rewrite Hcr. }
  destruct Hv as (z & Hz & Hfit). 
  destruct (separate_ok eng (2 ^ 30) v s z Hmem (hi_settled _ _ _ _ Hinv) Hz Hlight)
    as (b & m' & t & zb & Hr & Hs' & Hzb & Hvb & Hl' & Hk & Hf'); [lia|lia|].
  destruct (insert_new s (put m' t s) l b zb v None Hinv Hlen Hcr)
    as (s' & l' & Hrun & Hsv & Hm & Hex); try done.
  - by apply svals_kept.
  - destruct (Hl' b zb Hzb). lia.
  - split; [|by intros ->]. split; [apply (hi_fptr _ _ _ _ Hinv)|]. exists b.
    split; [by destruct c|]. exists zb. by rewrite Hvb.
  - by exists z, zb.
  - exists (RetBool true), s', l'. split_and!; try done. unfold SplHeap_insert.
    by rewrite unless_false, (mbind_ok _ _ _ _ _ Hr) by done.
Qed.

Lemma add_assoc_ok s e z ht k a :
  zvals (env s) !! e = Some z -> value z = IS_ARRAY ht ->
  add_assoc_zval_ex e k a s = Ok (tt, on_env (fun w =>
    set_zvals (<[e := mkZv (IS_ARRAY (hash_update k a ht)) (refcount__gc z) (is_ref__gc z)]> (zvals w)) w) s).
Proof.
  intros Hz Hv. unfold add_assoc_zval_ex, Z_ARRVAL_P. rewrite (mbind_ok _ _ _ _ _ (cell_ok s e z Hz)).
  rewrite mbind_assoc, (mbind_ok _ _ _ _ _ (cell_ok s e z Hz)), Hv. done.
Qed.

(** The element of a queue: an array that takes over two references. *)
Lemma node_ok n s a b za zb :
  granting (D := D) -> settled (zvals (env s)) -> zvals (env s) !! a = Some za -> zvals (env s) !! b = Some zb ->
  (forall x, delta a x + delta b x <= free_refs (zvals (env s)) x) -> light n (zvals (env s)) ->
  exists e m', (elem ← ALLOC_ZVAL (mkZv IS_NULL 1 false);
      set_cell elem (mkZv (IS_ARRAY []) 1 false);;
      add_assoc_zval_ex elem (bs "data") a;;
      add_assoc_zval_ex elem (bs "priority") b;;
      mret elem) s = Ok (e, on_env (set_zvals m') s) /\
    zvals (env s) !! e = None /\
    m' = <[e := mkZv (IS_ARRAY [(bs "data", a); (bs "priority", b)]) 1 false]> (zvals (env s)) /\
    settled m' /\
    forall x, free_refs m' x = free_refs (zvals (env s)) x + delta e x - delta a x - delta b x.
Proof.
  intros Hmem Hs Ha Hb Hfree Hl. destruct (Hmem (zvals (env s)) 32) as [e He].
  pose proof (alloc_fresh _ _ _ He) as Hnew.
  set (node := mkZv (IS_ARRAY [(bs "data", a); (bs "priority", b)]) 1 false).
  exists e, (<[e := node]> (zvals (env s))).
  assert (Hf : forall x, free_refs (<[e := node]> (zvals (env s))) x =
    free_refs (zvals (env s)) x + delta e x - delta a x - delta b x).
  { intros x. rewrite free_refs_new by done. unfold counted, node. simpl.
    rewrite !occ_cons, occ_nil. unfold delta. lia. }
  split_and!; [|done|done| |done].
  - unfold ALLOC_ZVAL, set_cell. rewrite mbind_assoc. mstep. rewrite He. repeat mstep.
    erewrite mbind_ok by (eapply add_assoc_ok; [apply lookup_insert_eq|done]).
    erewrite mbind_ok by (eapply add_assoc_ok; [apply lookup_insert_eq|done]).
    unfold mret, M_ret, on_env, set_zvals. simpl. by rewrite !insert_insert_eq.
  - destruct Hs as [[Hs1 Hs2] Hp]. split; [split|].
    + intros x. rewrite Hf. specialize (Hfree x). pose proof (delta_nonneg e x). lia.
    + intros x y. rewrite lookup_insert_Some. intros [[<- <-]|[_ Hy]]; [simpl; lia|by eapply Hs2].
    + intros x y. rewrite lookup_insert_Some. intros [[<- <-]|[_ Hy]]; [simpl; lia|by eapply Hp].
Qed.

Lemma separate_both (Hmem : granting (D := D)) s v p zv zp :
  settled (zvals (env s)) -> light (2 ^ 30) (zvals (env s)) ->
  zvals (env s) !! v = Some zv -> zvals (env s) !! p = Some zp ->
  exists a b m' t, (data ← SEPARATE_ARG_IF_REF eng v; priority ← SEPARATE_ARG_IF_REF eng p; mret (data, priority)) s
      = Ok ((a, b), put m' t s) /\
    settled m' /\ light (2 ^ 30 + 2 ^ 30 + 2 ^ 30) m' /\
    (forall x y, zvals (env s) !! x = Some y -> exists y', m' !! x = Some y' /\ value y' = value y) /\
    (exists za zb, m' !! a = Some za /\ value za = value zv /\ m' !! b = Some zb /\ value zb = value zp) /\
    (forall x, free_refs m' x = free_refs (zvals (env s)) x + delta a x + delta b x).
Proof.
  intros Hs Hl Hv Hp.
  destruct (separate_ok eng (2 ^ 30) v s zv Hmem Hs Hv Hl) as (a & m1 & t1 & za & Hr1 & Hs1 & Hza & Hva & Hl1 & Hk1 & Hf1); [lia..|].
  destruct (Hk1 p zp Hp) as (zp1 & Hzp1 & Hvp1).
  destruct (separate_ok eng (2 ^ 30 + 2 ^ 30) p (put m1 t1 s) zp1 Hmem Hs1 Hzp1 Hl1)
    as (b & m2 & t2 & zb & Hr2 & Hs2 & Hzb & Hvb & Hl2 & Hk2 & Hf2); [lia..|]. simpl in Hk2, Hf2.
  exists a, b, m2, t2. rewrite (mbind_ok _ _ _ _ _ Hr1), (mbind_ok _ _ _ _ _ Hr2).
  destruct (Hk2 a za Hza) as (za2 & Hza2 & Hva2). split_and!; try done.
  - intros x y Hy. destruct (Hk1 x y Hy) as (y1 & Hy1 & Hv1). destruct (Hk2 x y1 Hy1) as (y2 & Hy2 & Hv2).
    exists y2. split; [done|congruence].
  - exists za2, zb. split_and!; congruence || done.
  - intros x. rewrite Hf2, Hf1. lia.
Qed.

(** The body of the method in three parts. *)
Lemma pqueue_insert_parts s v p :
  SplPriorityQueue_insert eng v p s =
  unless_corrupted RetNull (
    '(data, priority) ← (data ← SEPARATE_ARG_IF_REF eng v; priority ← SEPARATE_ARG_IF_REF eng p; mret (data, priority));
    elem ← (elem ← ALLOC_ZVAL (mkZv IS_NULL 1 false);
      set_cell elem (mkZv (IS_ARRAY []) 1 false);;
      add_assoc_zval_ex elem (bs "data") data;;
      add_assoc_zval_ex elem (bs "priority") priority;;
      mret elem);
    heap_insert eng elem;; mret (RetBool true)) s.
Proof.
  unfold SplPriorityQueue_insert, unless_corrupted. rewrite !mbind_get.
  destruct (has_flag _ _); [done|]. unfold mbind, M_bind, mret, M_ret. repeat (case_match; simplify_eq/=; try done).
Qed.

Lemma pqueue_insert_good (Hmem : granting (D := D)) s l v p :
  heap_inv f c s l -> roomy s l -> callable c s (Insert v (Some p)) ->
  good (run_call eng (is_queue c) (Insert v (Some p))) (Insert v (Some p)) s l.
Proof.
  intros Hinv [Hlight Hlen] (Hnq & [zv Hzv] & (zp & Hzp & Hfit)). cbn [run_call]. rewrite Hnq.
  destruct (corrupted s) eqn:Hcr. { apply good_corrupted; try done. simpl. by rewrite Hcr. }
  destruct (separate_both Hmem s v p zv zp (hi_settled _ _ _ _ Hinv) Hlight Hzv Hzp)
    as (a & b & m1 & t & Hr & Hs1 & Hl1 & Hk1 & (za & zb & Hza & Hva & Hzb & Hvb) & Hf1).
  destruct (node_ok (2 ^ 30 + 2 ^ 30 + 2 ^ 30) (put m1 t s) a b za zb Hmem Hs1 Hza Hzb)
    as (e & m2 & Hr2 & Hnew & Hm2 & Hs2 & Hf2); [|done|].
  { intros x. simpl. rewrite Hf1. pose proof (proj1 (proj1 (hi_settled _ _ _ _ Hinv)) x). lia. }
  simpl in Hm2, Hf2, Hnew.
  assert (Hold : forall x y, m1 !! x = Some y -> m2 !! x = Some y).
  { intros x y Hy. rewrite Hm2, lookup_insert_ne by congruence. done. }
  assert (Hkeep : forall x y, zvals (env s) !! x = Some y -> exists y', m2 !! x = Some y' /\ value y' = value y).
  { intros x y Hy. destruct (Hk1 x y Hy) as (y' & Hy' & Hvy). exists y'. split; [by apply Hold|done]. }
  assert (Hze : m2 !! e = Some (mkZv (IS_ARRAY [(bs "data", a); (bs "priority", b)]) 1 false)).
  { rewrite Hm2. apply lookup_insert_eq. }
  destruct (insert_new s (put m2 t s) l e
    (mkZv (IS_ARRAY [(bs "data", a); (bs "priority", b)]) 1 false) v (Some p) Hinv Hlen Hcr)
    as (s' & l' & Hrun & Hsv & Hm & Hex); try done.
  - by apply svals_kept.
  - intros x. simpl. rewrite Hf2, Hf1. lia.
  - split; [split; [apply (hi_fptr _ _ _ _ Hinv)|]|].
    + exists b. split; [|exists zb; split; [by apply Hold|by rewrite Hvb]].
      destruct c; [done|done|]. cbn [keyed put on_env env zvals set_zvals set_ext]. by rewrite Hze.
    + intros _. by eexists _, _, a.
  - exists (mkZv (IS_ARRAY [(bs "data", a); (bs "priority", b)]) 1 false), a, b.
    split_and!; [done|done|exists zv, za|exists zp, zb]; (split_and!; [done|by apply Hold|done]).
  - exists (RetBool true), s', l'. split_and!; try done.
    rewrite (pqueue_insert_parts s v p), unless_false by done. by rewrite (mbind_ok _ _ _ _ _ Hr), (mbind_ok _ _ _ _ _ Hr2).
Qed.

Lemma set_flags_good s l v :
  heap_inv f c s l -> callable c s (SetExtractFlags v) ->
  good (run_call eng (is_queue c) (SetExtractFlags v)) (SetExtractFlags v) s l.
Proof.
  intros Hinv Hq. simpl in Hq. cbn [run_call]. rewrite Hq.
  assert (Hv : s32 (Z.land v SPL_PQUEUE_EXTR_MASK) = Z.land v SPL_PQUEUE_EXTR_MASK).
  { apply s32_small. unfold SPL_PQUEUE_EXTR_MASK. change 3 with (2 ^ 2 - 1). rewrite land_mask by lia.
    pose proof (Z.mod_pos_bound v (2 ^ 2)). unfold INT_MIN, INT_MAX. lia. }
  unfold good, SplPriorityQueue_setExtractFlags. rewrite Hv. cbv zeta. mstep. eexists _, _, l. split; [done|].
  split_and!; [by apply served_unchanged|done|done].
Qed.

Lemma clear_corrupted (fl : Z) : has_flag (Z.land fl (Z.lnot SPL_HEAP_CORRUPTED)) SPL_HEAP_CORRUPTED = false.
Proof.
  unfold has_flag. rewrite <- Z.land_assoc, (Z.land_comm (Z.lnot _)), Z.land_lnot_diag. by rewrite Z.land_0_r.
Qed.

Lemma recover_ok s l :
  heap_inv f c s l -> exists s', run_call eng (is_queue c) RecoverFromCorruption s = Ok (RetBool true, s') /\
    heap_inv f c s' l /\ env s' = env s /\ corrupted s' = false.
Proof.
  intros [Hr Hcm Hf Hs Hrefs He]. cbn [run_call]. unfold SplHeap_recoverFromCorruption. mstep.
  eexists. split; [done|]. split_and!; [by split|done|apply clear_corrupted].
Qed.

Lemma query_good s l q :
  q = Count \/ q = IsEmpty \/ q = Valid \/ q = Key \/ q = Rewind ->
  heap_inv f c s l -> good (run_call eng (is_queue c) q) q s l.
Proof.
  intros Hq Hinv. pose proof (inv_count s l Hinv) as Hn.
  assert (Hnil : (Z.of_nat (length l) =? 0) = bool_decide (l = [])).
  { destruct l as [|x l]; [done|]. rewrite bool_decide_eq_false_2 by done. apply Z.eqb_neq. simpl. lia. }
  assert (Hgo : forall ans, run_call eng (is_queue c) q s = Ok (ans, s) -> (forall a, given ans a = 0) ->
    meets f c q s l ans s l -> good (run_call eng (is_queue c) q) q s l).
  { intros ans Hr Hg Hm. exists ans, s, l. split_and!; [done|by apply served_unchanged|done|done]. }
  destruct Hq as [->|[->|[->|[->| ->]]]].
  - apply (Hgo (RetLong (Z.of_nat (length l)))); [|done|done].
    cbn [run_call]. unfold SplHeap_count, spl_ptr_heap_count. rewrite mbind_get. by rewrite Hn.
  - apply (Hgo (RetBool (bool_decide (l = [])))); [|done|done].
    cbn [run_call]. unfold SplHeap_isEmpty, spl_ptr_heap_count. rewrite mbind_get. by rewrite Hn, Hnil.
  - apply (Hgo (RetBool (negb (bool_decide (l = []))))); [|done|done].
    cbn [run_call]. unfold SplHeap_valid. rewrite mbind_get. by rewrite Hn, Hnil.
  - apply (Hgo (RetLong (Z.of_nat (length l) - 1))); [|done|done].
    cbn [run_call]. unfold SplHeap_key. rewrite mbind_get. by rewrite Hn.
  - by apply (Hgo RetNull).
Qed.

(** Every call. *)
Lemma call_served (Hmem : granting (D := D)) s l q :
  heap_inv f c s l -> roomy s l -> callable c s q ->
  exists ans s' l', run_call eng (is_queue c) q s = Ok (ans, s') /\ heap_inv f c s' l' /\
    meets f c q s l ans s' l' /\
    (forall a, outside s' l' a = outside s l a + given ans a + leaked q l a) /\
    (ordering f c -> ordered_before f c q s l -> in_order f c s' l').
Proof.
  intros Hinv Hroom Hcall.
  assert (Hgood : good (run_call eng (is_queue c) q) q s l -> (forall a, leaked q l a = 0) ->
    q <> RecoverFromCorruption -> exists ans s' l', run_call eng (is_queue c) q s = Ok (ans, s') /\
    heap_inv f c s' l' /\ meets f c q s l ans s' l' /\
    (forall a, outside s' l' a = outside s l a + given ans a + leaked q l a) /\
    (ordering f c -> ordered_before f c q s l -> in_order f c s' l')).
  { intros (ans & s' & l' & Hr & [H1 H2 H3] & Hm & _) Hl Hne. exists ans, s', l'.
    split_and!; [done|done|done| |by destruct q]. intros a. rewrite Hl, H2. lia. }
  destruct q as [v [p|]| | | |[|]| | | | | |v|];
    try (apply Hgood; [first [by apply pqueue_insert_good|by apply insert_good|by apply extract_good
      |by apply top_good|by apply current_good|by apply next_good|apply query_good; tauto|by apply set_flags_good]|done|done]).
  - destruct l as [|x l].
    + exists RetNull, s, []. cbn [run_call]. unfold SplHeap_next.
      rewrite (mbind_ok _ _ s None s); [|by apply delete_top_empty, Hinv].
      split_and!; try done. intros a. simpl. lia.
    + destruct (next_leaks s x l Hinv (proj2 Hroom)) as (s' & l' & Hr & Hi & Ho & Hp & Hg & Hio).
      exists RetNull, s', l'. split_and!; [done|done|split; [done|by exists x]| |done].
      intros a. rewrite Ho. simpl. lia.
  - destruct (recover_ok s l Hinv) as (s' & Hr & Hi & He & Hcr). exists (RetBool true), s', l.
    split_and!; [done|done|done| |].
    + intros a. unfold outside. rewrite He. simpl. lia.
    + intros _ Ho. right. unfold at_least. by rewrite He.
Qed.
End Calls.

(** ** Creation, clone, release *)

(** A store with a new zval of its own. *)
Lemma alloc_null_ok (Hmem : granting (D := D)) s :
  settled (zvals (env s)) ->
  exists a m', ALLOC_ZVAL (mkZv IS_NULL 1 false) s = Ok (a, on_env (set_zvals m') s) /\
    zvals (env s) !! a = None /\ m' = <[a := mkZv IS_NULL 1 false]> (zvals (env s)) /\ settled m' /\
    forall b, free_refs m' b = free_refs (zvals (env s)) b + delta a b.
Proof.
  intros [[Hs1 Hs2] Hp]. destruct (Hmem (zvals (env s)) 32) as [a Ha]. pose proof (alloc_fresh _ _ _ Ha) as Hnew.
  assert (Hf : forall b, free_refs (<[a := mkZv IS_NULL 1 false]> (zvals (env s))) b =
    free_refs (zvals (env s)) b + delta a b).
  { intros b. rewrite free_refs_new by done. unfold counted. simpl. rewrite occ_nil. lia. }
  exists a, (<[a := mkZv IS_NULL 1 false]> (zvals (env s))). split_and!; try done.
  - unfold ALLOC_ZVAL, set_cell. mstep. rewrite Ha. by mstep.
  - split; [split|].
    + intros b. rewrite Hf. specialize (Hs1 b). pose proof (delta_nonneg a b). lia.
    + intros b z. rewrite lookup_insert_Some. intros [[<- <-]|[_ Hz]]; [simpl; lia|by eapply Hs2].
    + intros b z. rewrite lookup_insert_Some. intros [[<- <-]|[_ Hz]]; [simpl; lia|by eapply Hp].
Qed.

(** The object that a handler has made is an object of its own. *)
Definition object_of s (ho : spl_ptr_heap addr heap_cmp * spl_heap_object) : st :=
  mkHs ho.1 (set_intern ho.2 (env s)).

Lemma new_ok (Hmem : granting (D := D)) cls s0 :
  settled (zvals (env s0)) ->
  exists ho s1, spl_heap_object_new cls s0 = Ok (ho, s1) /\
    heap_inv (class_fptr_cmp cls) (class_cmp cls zval_max_cmp) (object_of s1 ho) [] /\
    corrupted (object_of s1 ho) = false.
Proof.
  intros Hs. destruct (alloc_null_ok Hmem s0 Hs) as (a & m' & Hr & Hnew & -> & Hs' & Hf).
  unfold spl_heap_object_new, spl_heap_object_new_ex. rewrite (mbind_ok _ _ _ _ _ Hr). repeat mstep.
  eexists _, _. split; [done|]. split; [|done]. split; try done.
  - exists (replicate 64 None). by split_and!.
  - intros b. rewrite occ_nil. simpl. by apply Hs'.
Qed.

Lemma clone_ok (Hmem : granting (D := D)) f c cls s l :
  heap_inv f c s l -> light (2 ^ 30) (zvals (env s)) -> Z.of_nat (length l) < 2 ^ 30 ->
  class_cmp cls c = c -> class_fptr_cmp cls = f ->
  exists ho s1, spl_heap_object_clone cls s = Ok (ho, s1) /\ frame s s1 /\ settled (zvals (env s1)) /\
    heap_inv f c (object_of s1 ho) l /\ flags ho.1 = flags (heap s) /\
    svals (zvals (env s)) (zvals (env s1)) /\
    (forall a, free_refs (zvals (env s1)) a = free_refs (zvals (env s)) a + 2 * occ a l + delta (retval ho.2) a) /\
    (in_order f c s l -> in_order f c (object_of s1 ho) l).
Proof.
  intros Hinv Hlight Hlen Hcls Hfp. pose proof Hinv as [Hr Hcm Hf Hs Hrefs He].
  destruct (alloc_null_ok Hmem s Hs) as (a & m1 & Hra & Hnew & Hm1 & Hs1 & Hf1).
  destruct Hr as (rest & Hel & Hn & Hmx & H1).
  destruct (each_addref_twice l (on_env (set_zvals m1) s)) as (m2 & m3 & Hr2 & Hr3 & Hg & Hs3);
    [exact Hs1| | |]; simpl.
  { intros b Hb. rewrite Hf1. specialize (Hrefs b). pose proof (occ_in b l Hb). pose proof (delta_nonneg a b). lia. }
  { intros b z. pose proof (occ_le b l). rewrite Hm1, lookup_insert_Some.
    intros [[<- <-]|[_ Hz]]; [simpl; lia|]. destruct (Hlight b z Hz). lia. }
  simpl in Hr2, Hr3, Hg.
  assert (Hrun : spl_heap_object_clone cls s = Ok ((set_cmp (class_cmp cls (cmp (heap s))) (heap s),
      mkObj a (class_flags cls (oflags (intern (env s)))) (class_fptr_cmp cls)
        (if inherited cls && negb (bool_decide (count_scope cls = Some (base_class cls)))
         then Some (count_scope cls) else None)), on_env (set_zvals m3) s)).
  { unfold spl_heap_object_clone, spl_heap_object_new_ex. rewrite (mbind_ok _ _ _ _ _ Hra). mstep.
    unfold spl_ptr_heap_clone. rewrite mbind_assoc, mbind_assoc.
    erewrite mbind_ok by (rewrite (for_elements_each _ _ l rest); [exact Hr2|done|done]).
    mstep. rewrite mbind_assoc.
    erewrite mbind_ok by (rewrite (for_elements_each _ _ l rest); [exact Hr3|done|done]).
    repeat mstep. by destruct s as [[] []]. }
  eexists _, _. split; [exact Hrun|]. split; [done|]. split; [exact Hs3|].
  assert (Hfree : forall b, free_refs m3 b = free_refs (zvals (env s)) b + 2 * occ b l + delta a b).
  { intros b. rewrite (proj2 Hg b), Hf1. lia. }
  assert (Hsv : svals (zvals (env s)) m3).
  { intros b z z' Hz. rewrite (proj1 Hg), Hm1, lookup_insert_ne by congruence. rewrite Hz. simpl. by intros [= <-]. }
  assert (Hmoved : forall ho, ho = (set_cmp (class_cmp cls (cmp (heap s))) (heap s),
      mkObj a (class_flags cls (oflags (intern (env s)))) (class_fptr_cmp cls)
        (if inherited cls && negb (bool_decide (count_scope cls = Some (base_class cls)))
         then Some (count_scope cls) else None)) ->
      heap_inv f c (object_of (on_env (set_zvals m3) s) ho) l /\
      (in_order f c s l -> in_order f c (object_of (on_env (set_zvals m3) s) ho) l)).
  { intros ho ->. apply inv_moves; [done| | |done|done|].
    - simpl. rewrite Hcm, Hcls, <- Hcm. by destruct (heap s).
    - simpl. by rewrite Hfp, Hf.
    - intros b. simpl. rewrite Hfree. specialize (Hrefs b). pose proof (occ_nonneg b l). pose proof (delta_nonneg a b). lia. }
  destruct (Hmoved _ eq_refl) as [Hi Ho]. split_and!; done.
Qed.

Lemma free_storage_ok f c s l :
  heap_inv f c s l -> 1 <= outside s l (retval (intern (env s))) ->
  exists s', spl_heap_object_free_storage eng s = Ok (tt, s') /\ frame s s' /\ settled (zvals (env s')) /\
    evolves (zvals (env s)) (zvals (env s')) /\
    forall a, free_refs (zvals (env s')) a = outside s l a - delta (retval (intern (env s))) a.
Proof.
  intros [(rest & Hel & Hn & _) _ _ Hs Hrefs _] Hout. unfold spl_heap_object_free_storage, spl_ptr_heap_destroy.
  mstep. pose proof (dtor_releases_all eng (S (positives (zvals (env s))))) as Hrel.
  destruct (each_releases _ _ l Hrel s (proj1 Hs)) as (s1 & Hr1 & Hf1 & Hs1 & Hsh1 & Hd1); [|lia|].
  { intros a. specialize (Hrefs a). pose proof (occ_nonneg a l). lia. }
  erewrite mbind_ok by (rewrite (for_elements_each _ _ l rest); [exact Hr1|done|done]).
  destruct (each_releases _ _ l Hrel s1 Hs1) as (s2 & Hr2 & Hf2 & Hs2 & Hsh2 & Hd2).
  { intros a. rewrite Hd1. specialize (Hrefs a). lia. } { pose proof (shed_positives _ _ Hsh1). lia. }
  erewrite mbind_ok by (rewrite (for_elements_each _ _ l rest); [exact Hr2|done|done]).
  destruct (dtor_releases eng (retval (intern (env s))) s2 Hs2) as (s3 & Hr3 & Hf3 & Hs3 & Hsh3 & Hd3).
  { rewrite Hd2, Hd1. unfold outside in Hout. lia. }
  assert (Hsh : shed (zvals (env s)) (zvals (env s3))) by (eapply shed_trans; [|done]; by eapply shed_trans).
  exists s3. split_and!; [done| | | |].
  - eapply frame_trans; [|done]. by eapply frame_trans.
  - by eapply settled_shed.
  - by apply shed_evolves.
  - intros a. rewrite Hd3, Hd2, Hd1. unfold outside. lia.
Qed.
End Methods.
