(* ===== verification/SplHeapThms.v ===== *)
(** * Theorems about SplMinHeap, SplMaxHeap and SplPriorityQueue *)

From S2P Require Import Prelude Dll SplHeap SplHeapSpec SplHeapRefs SplHeapMethods.
Open Scope Z_scope.

Section Objects.
Context {D E X K : Type} {AL : Allocator} (eng : engine D E X).
Context (fits : zvalue D -> Prop) (rank : zvalue D -> K) (user_order std_order : K -> K -> Z).
Abbreviation st := (hstate addr heap_cmp (world D E X)).
Abbreviation heap_inv := (heap_inv fits).
Abbreviation ordering := (ordering eng fits rank user_order std_order).
Abbreviation in_order := (in_order rank user_order std_order).
Abbreviation meets := (meets eng fits rank user_order std_order).
Implicit Types (s : st) (m : gmap addr (zval D)) (a b : addr) (l : list addr) (f : bool) (c : heap_cmp).

(** C12: every call of a method of a heap or a priority queue returns and
    acts as on a multiset: insert adds the value; extract and next take an
    element away, top and current read one, and the answer (of next: NULL) is
    its value, or the part of it that the extraction flags ask for, NULL if
    they are 0; extract and top throw if there is none, and insert, extract
    and top on a corrupted heap; recoverFromCorruption takes the flag away; no
    element is lost or duplicated.  The call is one that the class has, its
    arguments as many as it takes (next may have more) and values that can be
    compared; the comparison leaves the heap, the zvals and the object alone,
    and may throw.  If its answers are those of an order whenever it does not
    throw, the element is one that no other is greater than, provided that the
    heap was in order and not flagged, and a heap in order, or flagged, is so
    afterwards, except that recoverFromCorruption keeps an order but does not
    make one. *)
Theorem heap_methods_simulate f c s l q :
  calm eng fits -> granting (D := D) -> heap_inv f c s l -> roomy s l -> callable fits c s q ->
  exists ans s' l', run_call eng (is_queue c) q s = Ok (ans, s') /\
    heap_inv f c s' l' /\ meets f c q s l ans s' l' /\
    (ordering f c -> ordered_before rank user_order std_order f c q s l -> in_order f c s' l').
Proof.
  intros Hc Hmem Hinv Hroom Hcall.
  destruct (call_served eng fits rank user_order std_order Hc f c Hmem s l q Hinv Hroom Hcall)
    as (ans & s' & l' & Hr & H1 & Hm & _ & H3). by exists ans, s', l'.
Qed.

(** C13: reference counts: a call changes the references to a zval from outside
    of the heap (and of arrays) by those of its answer only, whatever it does
    with the two that the heap has to each element: none is lost, none is left
    behind, and no zval that is still referred to is destroyed.  The exception
    is next with an argument, which leaves one behind of the element that it
    takes away. *)
Theorem heap_references_balanced f c s l q :
  calm eng fits -> granting (D := D) -> heap_inv f c s l -> roomy s l -> callable fits c s q ->
  exists ans s' l', run_call eng (is_queue c) q s = Ok (ans, s') /\ heap_inv f c s' l' /\
    forall a, outside s' l' a = outside s l a + given ans a + leaked q l a.
Proof.
  intros Hc Hmem Hinv Hroom Hcall.
  destruct (call_served eng fits rank user_order std_order Hc f c Hmem s l q Hinv Hroom Hcall)
    as (ans & s' & l' & Hr & H1 & _ & H2 & _). by exists ans, s', l'.
Qed.

(** ** The states of an object *)

(** An object of the class [cls] that is created, cloned, and called, in any
    order, and left alone by the rest of the program, which may do what it
    likes with zvals, exceptions and its own state, but does not take away
    references that are the heap's or write to its elements' values. *)
Definition small s : Prop := light (2 ^ 30) (zvals (env s)) /\ count (heap s) < 2 ^ 30.
Definition own_cmp (cls : class_entry) : heap_cmp := class_cmp cls zval_max_cmp.

(** recoverFromCorruption of a flagged heap: nothing tells any more that its
    elements may be out of order. *)
Definition forgets (q : call) s : bool :=
  match q with RecoverFromCorruption => corrupted s | _ => false end.

(** [lost]: such a call has been made, on the object or an original of it. *)
Inductive reaches (cls : class_entry) : bool -> st -> Prop :=
  | reaches_new s0 ho s1 :
      settled (zvals (env s0)) -> spl_heap_object_new cls s0 = Ok (ho, s1) ->
      reaches cls false (object_of s1 ho)
  | reaches_clone lost s ho s1 :
      reaches cls lost s -> small s -> spl_heap_object_clone cls s = Ok (ho, s1) ->
      reaches cls lost (object_of s1 ho)
  | reaches_call lost s q ans s' :
      reaches cls lost s -> small s -> callable fits (own_cmp cls) s q ->
      run_call eng (is_queue (own_cmp cls)) q s = Ok (ans, s') ->
      reaches cls (lost || forgets q s) s'
  | reaches_elsewhere lost s s' :
      reaches cls lost s -> heap s' = heap s -> intern (env s') = intern (env s) ->
      svals (zvals (env s)) (zvals (env s')) -> settled (zvals (env s')) ->
      (forall l, rep (heap s) l -> forall a, 2 * occ a l <= free_refs (zvals (env s')) a) ->
      reaches cls lost s'.

Lemma rep_roomy s l : rep (heap s) l -> small s -> roomy s l.
Proof. intros Hr [H1 H2]. split; [done|]. by rewrite <- (rep_count s l Hr). Qed.

(** C14: whatever has been done with an object, by calls whose arguments can be
    compared and with comparisons that leave the heap, the zvals and the
    object alone, the slots of its heap hold its elements, each a live zval
    that can be compared (in a priority queue: an array with a datum and a
    priority) with two references to it.  If the answers of the comparisons
    are those of an order whenever they do not throw, and
    recoverFromCorruption has never been called on the object, or an original
    of it, while it was flagged, the elements are in heap order unless the
    heap is flagged as corrupted. *)
Theorem heap_objects_well_formed (cls : class_entry) lost s :
  calm eng fits -> granting (D := D) -> reaches cls lost s ->
  exists l, heap_inv (class_fptr_cmp cls) (own_cmp cls) s l /\
    (ordering (class_fptr_cmp cls) (own_cmp cls) -> lost = false ->
     in_order (class_fptr_cmp cls) (own_cmp cls) s l).
Proof.
  intros Hc Hmem. induction 1 as [s0 ho s1 Hs Hr|lost s ho s1 _ (l & Hinv & Hio) Hsm Hr
    |lost s q ans s' _ (l & Hinv & Hio) Hsm Hcall Hr|lost s s' _ (l & Hinv & Hio) Hh Hi Hv Hs Hrefs].
  - destruct (new_ok fits Hmem cls s0 Hs) as (ho' & s1' & Hr' & Hinv & _). rewrite Hr in Hr'. simplify_eq.
    exists []. split; [done|]. intros _ _. right. apply ordered_short. simpl. lia.
  - destruct (rep_roomy s l (hi_rep _ _ _ _ _ Hinv) Hsm) as [H1 H2].
    destruct (clone_ok fits rank user_order std_order Hmem _ _ cls s l Hinv H1 H2)
      as (ho' & s1' & Hr' & _ & _ & Hinv' & _ & _ & _ & Hio'); [|done|].
    + unfold own_cmp, class_cmp. by destruct (base_class cls).
    + rewrite Hr in Hr'. simplify_eq. exists l. auto.
  - destruct (call_served eng fits rank user_order std_order Hc _ _ Hmem s l q Hinv
      (rep_roomy s l (hi_rep _ _ _ _ _ Hinv) Hsm) Hcall) as (ans' & s'' & l' & Hr' & H1 & _ & _ & H3).
    rewrite Hr in Hr'. simplify_eq. exists l'. split; [done|]. intros Hord [Hl Hf]%orb_false_iff.
    apply (H3 Hord). destruct (Hio Hord Hl) as [Hcr|Ho]; destruct q; simpl in *; first [by left|by right|exact Ho|congruence].
  - destruct (inv_moves fits rank user_order std_order _ _ s s' l Hinv Hh (f_equal fptr_cmp Hi) Hv Hs) as [Hinv' Hio'].
    + apply Hrefs. apply Hinv.
    + exists l. auto.
Qed.

(** C15: a clone has the elements of its original in the same order, with two
    references more to each; releasing the storage of an object gives back two
    to each of its elements, and the one to its return value, and no others. *)
Theorem heap_storage_balanced f c (cls : class_entry) s l :
  granting (D := D) -> heap_inv f c s l -> small s -> class_cmp cls c = c -> class_fptr_cmp cls = f ->
  exists ho s1, spl_heap_object_clone cls s = Ok (ho, s1) /\ heap_inv f c (object_of s1 ho) l /\
    exists s2, spl_heap_object_free_storage eng (object_of s1 ho) = Ok (tt, s2) /\
      settled (zvals (env s2)) /\ svals (zvals (env s)) (zvals (env s2)) /\
      forall a, free_refs (zvals (env s2)) a = free_refs (zvals (env s)) a.
Proof.
  intros Hmem Hinv Hsm Hcls Hf. destruct (rep_roomy s l (hi_rep _ _ _ _ _ Hinv) Hsm) as [H1 H2].
  destruct (clone_ok fits rank user_order std_order Hmem f c cls s l Hinv H1 H2 Hcls Hf)
    as (ho & s1 & Hr & Hfr & Hs1 & Hinv1 & _ & Hsv & Hd & _).
  exists ho, s1. split; [done|]. split; [done|].
  destruct (free_storage_ok eng fits f c (object_of s1 ho) l Hinv1) as (s2 & Hr2 & _ & Hs2 & Hev & Hd2).
  { unfold outside. simpl. rewrite Hd. pose proof (hi_refs _ _ _ _ _ Hinv (retval ho.2)).
    pose proof (occ_nonneg (retval ho.2) l). unfold delta. rewrite decide_True by done. lia. }
  exists s2. split_and!; [done|done| |].
  - intros b z z' Hz Hz'. destruct (Hev b z' Hz') as (z1 & Hz1 & ->). by apply (Hsv b).
  - intros a. rewrite Hd2. unfold outside. simpl. rewrite Hd. lia.
Qed.

(** ** What the code does not mean to do *)

(** A [long] that does not fit an [int] loses its sign, or all of it. *)
Lemma compare_truncated s a b :
  fptr_cmp (intern (env s)) = true -> exception (env s) = [] -> user_compare eng a b s = Ok (2 ^ 32, s) ->
  spl_ptr_heap_zval_max_cmp eng a b true s = Ok (0, s).
Proof.
  intros Hf He Hu. unfold spl_ptr_heap_zval_max_cmp, method_or_function, spl_ptr_heap_cmp_cb_helper.
  assert (Hex : EG_exception (env s) = false) by (unfold EG_exception; by rewrite He).
  rewrite mbind_get, Hex, mbind_get, Hf. simpl. rewrite mbind_assoc, (mbind_ok _ _ _ _ _ Hu), mbind_assoc, mbind_get, Hex.
  by rewrite mbind_ret.
Qed.

(** A clone of a priority queue has the default extraction flags again. *)
Lemma clone_resets_flags cls s ho s1 :
  base_class cls = SplPriorityQueue -> spl_heap_object_clone cls s = Ok (ho, s1) ->
  oflags ho.2 = SPL_PQUEUE_EXTR_DATA.
Proof.
  intros Hb. unfold spl_heap_object_clone, spl_heap_object_new_ex, mbind, M_bind.
  intros Hr. repeat (case_match; try done); cbv zeta in Hr; injection Hr as <- _; simpl;
    unfold class_flags; by rewrite Hb.
Qed.
End Objects.

(** ** A concrete engine: values are integers, no class is derived *)

Module Demo.
Abbreviation world := (world Z unit unit).
Abbreviation st := (hstate addr heap_cmp world).

Definition value_at (w : world) (a : addr) : Z :=
  match zvals w !! a with Some z => match value z with Value x => x | _ => 0 end | None => 0 end.
Definition compare_longs (a b : addr) : M st Z :=
  s ← get_st; mret (Z.sgn (value_at (env s) a - value_at (env s) b)).
Definition eng : engine Z unit unit := {|
  user_compare := compare_longs;
  user_count := mret None;
  compare_function := compare_longs;
  zend_error := fun _ => mret tt;
  copy_value := fun _ x => x;
  destroy_value := fun _ x => x;
  long_value := fun n => n;
  convert_to_long := fun v => match v with Value x => x | _ => 0 end
|}.
Definition fits (v : zvalue Z) : Prop := exists x, v = Value x.
Definition rank (v : zvalue Z) : Z := match v with Value x => x | _ => 0 end.
Definition order (x y : Z) : Z := x - y.

Lemma eng_calm : calm eng fits.
Proof. split; [intros a b s _ _; by eexists _, s..|]. intros msg s. by exists s. Qed.

Lemma rank_value w a : rank_at rank w a = value_at w a.
Proof. unfold rank_at, value_at, rank. by destruct (zvals w !! a). Qed.
Lemma longs_sincere : sincere fits rank compare_longs order.
Proof.
  intros a b s r s' _ _ Hr _. unfold compare_longs, get_st, mret, M_ret, mbind, M_bind in Hr.
  injection Hr as <- <-. rewrite !rank_value. unfold order.
  rewrite s32_small, Z.sgn_sgn; [done|]. unfold INT_MIN, INT_MAX. destruct (Z.sgn_spec (value_at (env s) a - value_at (env s) b)); lia.
Qed.
Lemma eng_ordering c : ordering eng fits rank order order false c.
Proof.
  split; [|split; apply longs_sincere]. unfold heap_order, order.
  destruct c; [exact (Comparison_sub (fun x => x))| |exact (Comparison_sub (fun x => x))].
  split; intros; lia.
Qed.

Lemma mem_granting : granting (D := Z).
Proof. intros m n. by eexists. Qed.

(** A store without arrays. *)
Lemma plain_store (m : gmap addr (zval Z)) :
  map_Forall (fun _ z => members (value z) = [] /\ 0 < refcount__gc z < 2 ^ 32) m ->
  settled m /\ forall a, free_refs m a = refs m a.
Proof.
  intros H. assert (Ht : forall a, table_refs m a = 0).
  { intros a. revert H. induction m as [|b z m Hb IH] using map_ind; intros H; [done|].
    apply map_Forall_insert in H as [[Hz _] H]; [|done]. rewrite table_refs_insert, IH by done.
    unfold counted. rewrite Hz. by destruct (0 <? refcount__gc z). }
  assert (Hf : forall a, free_refs m a = refs m a) by (intros a; unfold free_refs; rewrite Ht; lia).
  split; [split; [split|]|done].
  - intros a. rewrite Hf. unfold refs. destruct (m !! a) as [z|] eqn:Hz; [|done]. destruct (H a z Hz). lia.
  - intros a z Hz. destruct (H a z Hz). lia.
  - intros a z Hz. destruct (H a z Hz). lia.
Qed.

(** A SplMinHeap with the integers 3 and 8, and a variable that is 5. *)
Definition long (x n : Z) : zval Z := mkZv (Value x) n false.
Definition minheap : st :=
  mkHs (mkPtrHeap ([Some 1%positive; Some 2%positive] ++ replicate 62 None) zval_min_cmp 2 64 0)
    (mkWorld (<[1%positive := long 3 2]> (<[2%positive := long 8 3]> (<[3%positive := long 5 1]>
      (<[4%positive := mkZv IS_NULL 1 false]> ∅)))) [] (mkObj 4%positive 0 false None) tt).
Definition two : list addr := [1%positive; 2%positive].

Lemma minheap_store : settled (zvals (env minheap)) /\ forall a, free_refs (zvals (env minheap)) a = refs (zvals (env minheap)) a.
Proof. apply plain_store. unfold minheap. cbn [env zvals]. repeat (apply map_Forall_insert_2; [split; [done|done]|]). apply map_Forall_empty. Qed.
Lemma minheap_inv : heap_inv fits false zval_min_cmp minheap two.
Proof.
  destruct minheap_store as [Hs Hf]. split; [|done|done|done| |].
  - exists (replicate 62 None). by split_and!.
  - intros a. rewrite Hf. destruct (decide (a = 1%positive)) as [->|H1]; [by vm_compute|].
    destruct (decide (a = 2%positive)) as [->|H2]; [by vm_compute|].
    unfold two. rewrite !occ_cons, !decide_False, occ_nil by done.
    destruct Hs as [[Hs _] _]. specialize (Hs a). rewrite Hf in Hs. lia.
  - repeat constructor; simpl; try done.
    + exists 1%positive. split; [done|]. exists (long 3 2). split; [done|by exists 3].
    + exists 2%positive. split; [done|]. exists (long 8 3). split; [done|by exists 8].
Qed.
Lemma minheap_light : light (2 ^ 30) (zvals (env minheap)).
Proof.
  intros a z Hz. assert (Hall : map_Forall (fun _ (z : zval Z) => refcount__gc z < 2 ^ 30 /\ Z.of_nat (length (members (value z))) < 2 ^ 30)
    (zvals (env minheap))); [|by apply (Hall a z Hz)].
  unfold minheap. cbn [env zvals]. repeat (apply map_Forall_insert_2; [split; [done|done]|]). apply map_Forall_empty.
Qed.
Lemma minheap_order : in_order rank order order false zval_min_cmp minheap two.
Proof.
  right. intros k Hk a b Ha Hb. destruct k as [|[|k]]; [lia| |done]. simpl in Ha, Hb. simplify_eq. by vm_compute.
Qed.

(** A new SplPriorityQueue, and variables that are 5 and 2. *)
Definition variables : st :=
  mkHs (spl_ptr_heap_init zval_max_cmp)
    (mkWorld (<[3%positive := long 5 1]> (<[5%positive := long 2 1]> ∅)) [] (mkObj 1%positive 0 false None) tt).
Definition after {A} (r : res (A * st)) : st := match r with Ok (_, s) => s | Err _ => variables end.
Definition queue : st :=
  match spl_heap_object_new SplPriorityQueue variables with
  | Ok (ho, s) => object_of s ho
  | Err _ => variables
  end.
Definition queue1 : st := after (run_call eng true (Insert 3%positive (Some 5%positive)) queue).

Lemma variables_settled : settled (zvals (env variables)).
Proof.
  apply plain_store. unfold variables. cbn [env zvals].
  repeat (apply map_Forall_insert_2; [split; [done|done]|]). apply map_Forall_empty.
Qed.
Lemma queue_reached : reaches eng fits SplPriorityQueue false queue.
Proof.
  destruct (spl_heap_object_new SplPriorityQueue variables) as [[ho s]|e] eqn:Hr; [|by vm_compute in Hr].
  replace queue with (object_of s ho) by (unfold queue; by rewrite Hr).
  by eapply reaches_new; [exact variables_settled|].
Qed.
Lemma queue_light : light (2 ^ 30) (zvals (env queue)).
Proof.
  intros a z Hz. assert (Hall : bool_decide (map_Forall (fun _ (z : zval Z) => refcount__gc z < 2 ^ 30 /\
    Z.of_nat (length (members (value z))) < 2 ^ 30) (zvals (env queue))) = true) by by vm_compute.
  apply bool_decide_eq_true in Hall. by apply (Hall a z Hz).
Qed.
End Demo.

Lemma heap_methods_simulate_witness : exists ans s' l',
  run_call Demo.eng false Extract Demo.minheap = Ok (ans, s') /\
  heap_inv Demo.fits false zval_min_cmp s' l' /\
  meets Demo.eng Demo.fits Demo.rank Demo.order Demo.order false zval_min_cmp Extract Demo.minheap Demo.two ans s' l' /\
  in_order Demo.rank Demo.order Demo.order false zval_min_cmp s' l'.
Proof.
  destruct (heap_methods_simulate Demo.eng Demo.fits Demo.rank Demo.order Demo.order false zval_min_cmp
    Demo.minheap Demo.two Extract Demo.eng_calm Demo.mem_granting) as (ans & s' & l' & Hr & Hi & Hm & Ho).
  - exact Demo.minheap_inv.
  - split; [exact Demo.minheap_light|reflexivity].
  - exact I.
  - exists ans, s', l'. split; [exact Hr|]. split; [exact Hi|]. split; [exact Hm|].
    exact (Ho (Demo.eng_ordering _) Demo.minheap_order).
Defined.

Lemma heap_references_balanced_witness : exists ans s' l',
  run_call Demo.eng false (Insert 3%positive None) Demo.minheap = Ok (ans, s') /\
  heap_inv Demo.fits false zval_min_cmp s' l' /\
  forall a, outside s' l' a = outside Demo.minheap Demo.two a + given ans a + 0.
Proof.
  apply (heap_references_balanced Demo.eng Demo.fits Demo.rank Demo.order Demo.order false zval_min_cmp
    Demo.minheap Demo.two (Insert 3%positive None) Demo.eng_calm Demo.mem_granting).
  - exact Demo.minheap_inv.
  - split; [exact Demo.minheap_light|reflexivity].
  - split; [reflexivity|]. exists (Demo.long 5 1). split; [reflexivity|by exists 5].
Defined.

Lemma heap_objects_well_formed_witness : exists s l,
  run_call Demo.eng true (Insert 3%positive (Some 5%positive)) Demo.queue = Ok (RetBool true, s) /\
  heap_inv Demo.fits false pqueue_zval_cmp s l /\
  in_order Demo.rank Demo.order Demo.order false pqueue_zval_cmp s l.
Proof.
  assert (Hrun : run_call Demo.eng true (Insert 3%positive (Some 5%positive)) Demo.queue =
    Ok (RetBool true, Demo.queue1)) by (vm_compute; reflexivity).
  destruct (heap_objects_well_formed Demo.eng Demo.fits Demo.rank Demo.order Demo.order SplPriorityQueue
    (false || false) Demo.queue1 Demo.eng_calm Demo.mem_granting) as (l & Hi & Ho).
  - eapply reaches_call with (q := Insert 3%positive (Some 5%positive)); [exact Demo.queue_reached| | |exact Hrun].
    + split; [exact Demo.queue_light|reflexivity].
    + split; [reflexivity|]. split; [by eexists|]. exists (Demo.long 2 1). split; [reflexivity|by exists 2].
  - exists Demo.queue1, l. split; [exact Hrun|]. split; [exact Hi|]. exact (Ho (Demo.eng_ordering _) eq_refl).
Defined.

Lemma heap_storage_balanced_witness : exists ho s1,
  spl_heap_object_clone SplMinHeap Demo.minheap = Ok (ho, s1) /\
  heap_inv Demo.fits false zval_min_cmp (object_of s1 ho) Demo.two /\
  exists s2, spl_heap_object_free_storage Demo.eng (object_of s1 ho) = Ok (tt, s2) /\
    settled (zvals (env s2)) /\ svals (zvals (env Demo.minheap)) (zvals (env s2)) /\
    forall a, free_refs (zvals (env s2)) a = free_refs (zvals (env Demo.minheap)) a.
Proof.
  apply (heap_storage_balanced Demo.eng Demo.fits Demo.rank Demo.order Demo.order false zval_min_cmp
    SplMinHeap Demo.minheap Demo.two Demo.mem_granting).
  - exact Demo.minheap_inv.
  - split; [exact Demo.minheap_light|reflexivity].
  - reflexivity.
  - reflexivity.
Defined.
